(* ===== verification/_CoqProject ===== *)
-Q . S2P
Prelude.v
Types.v
Memory.v
IdMap.v
Timespec.v
Sigset.v
CmdOpts.v
PathMapper.v
PidMap.v
IntrusiveList.v
Log.v
Text.v
Segment.v
AddressSpace.v
Msg.v
Errno.v
TerminalFilter.v
FdMap.v
Loader.v
GuestContext.v
Emu.v
Layout.v
WireFormat.v
QnxMsg.v
QnxMeta.v
Magic.v
Process.v
Host.v
MsgHandler.v
IoctlCodes.v
ProcHandler.v
IoHandler.v
TermHandler.v
MainHandler.v
Main.v
Cpu.v
Boot.v
Descriptors.v
Sandbox.v
SignalSpec.v
HostUtil.v
Exchange.v
MsgMeta.v
Dump.v
DumpSpec.v
DebugDump.v
Demo.v
Isolation.v
Raises.v
LogSpec.v
Containment.v
MainSpec.v
Endings.v
Traps.v
ProcSpec.v
IoSpec.v
TermSpec.v
LoadSpec.v
LoadHeap.v
StartupSpec.v
SpawnSpec.v
ProgramSpec.v
RunSpec.v
