(* ===== verification/Prelude.v ===== *)
(** * Qine: a verification library

    Qine runs QNX 4 programs on Linux.  It loads a QNX executable into segments
    of its own address space, builds the state a QNX program starts in, and lets
    the processor execute it; the guest's system calls trap into the emulator,
    which decodes the guest's messages and answers them with the host's
    services.  This library models the part of that program which is its own
    logic (the files under [src/src/]) as executable definitions, and proves what
    makes each part correct.

    ** The files

    - [Prelude]: machine integers, the exceptions of the program ([exn]), the
      error type [outcome], the state-and-exception monad [M] (the state survives
      a throw, as it does in the C++ code), byte sequences; the tactics and hints
      shared by all files.
    - [Types]: [types.h], [mem_ops.h], [util.cpp]: far pointers, access modes,
      page arithmetic, C strings.  [Memory]: the host memory, a map from
      addresses to bytes, and its frame lemmas.
    - [IdMap]: [idmap.h], the slot allocator behind file descriptors and segment
      descriptors.  [IntrusiveList]: [intrusive_list.h] on a heap of nodes.
    - [Timespec]: [timespec.h].  [Sigset]: [qnx_sigset.*] and [qnx/signal.h].
      [Errno]: [qnx/errno.h] and the translation of [emu.cpp].  [Log]: [log.*].
      [CmdOpts]: [cmd_opts.*], the option parser, against the list of its parts.
    - [PathMapper]: [path_mapper.*], [fsutil.*]: the two name spaces of paths.
    - [PidMap]: [qnx_pid.*]: QNX pids and host pids.
    - [Segment]: [segment.*]: reserved, mapped and limited memory, and the
      [StartupSbrk].  [AddressSpace]: [segment_descriptor.*] and the segment part
      of [process.cpp]: descriptors, selectors, the far-pointer translation.
    - [Msg]: [msg.*]: scattered messages in guest memory, read, written, exported
      as I/O vectors and streamed byte by byte.
    - [TerminalFilter]: [fd_filter.*], [termios_settings.*]: the escape sequence
      translation and the timed reading of a terminal.
    - [FdMap]: [unique_fd.h], [qnx_fd.*]: the guest's file descriptors;
      [Descriptors]: that an open one is always the host's of the same number.
    - [Loader]: [loader.*], [loader_format.h]: the executable formats, the flat
      and the segmented loader, the interpreter line.
    - [GuestContext]: [guest_context.*]: registers, the guest's memory and stack,
      saving and restoring a context.
    - [Emu]: [emu.*], [qnx/procenv.h], [qnx/sem.h]: system call dispatch for both
      bitnesses, signal delivery, semaphores.  [Cpu]: the rest of [guest_context.*]
      and the signal handlers of [emu.cpp], between the processor's registers and
      those [Emu] works on.  [SignalSpec]: both together, from the arrival of a
      signal to the return from its handler.
    - [Layout]: packed structures and their fields, as [msg/gen.py] lays them out.
      [QnxMsg]: every structure and message of [msg/*.qmsg], field by field;
      [WireFormat]: what these come to in memory, a table of every field's place.
      [Magic]: [qnx/magic.h], structures with natural alignment.
    - [Process]: [process.*]: loading a program and building its startup state.
      [Main]: [qine.cpp], the command line, the options and the order of start-up.  [Boot]: the
      creation of the process object, all of [main] behind it, and the entry into
      the guest: the whole program up to the guest's first instruction.
    - [Host]: the calls the handlers make to the host, an interface ([HostKernel]).
      [MsgHandler]: [msg_handler.*], what all handlers use: the rest of the
      process' state ([World]), requests and replies, scattered data, [Ioctl];
      [IoctlCodes]: [qnx/ioctl.h].  [HostUtil]: the helpers of [util.cpp],
      [log.cpp], [fsutil.cpp] and [unique_fd.h] that print or ask the host.
    - The log of messages: [QnxMeta], the descriptions [msg/gen.py] writes for
      every structure ([msg/meta.h]); [MsgMeta], which message a request is;
      [Text], the conversions of [printf]; [Dump] ([msg/dump.cpp], [msg.cpp],
      [Process::handle_msg]), the text of a message, [DumpSpec], its theorems, and
      [LogSpec], what printing can raise;
      [DebugDump]: the dump of a guest that faulted, the list of its segments.
    - [ProcHandler], [IoHandler] ([main_handler.cpp], [fsutil.cpp]) and
      [TermHandler] ([term_handler.cpp]): one definition per handler, the process
      manager's, the file systems' and the terminals'.  [MainHandler]: the
      dispatch of [main_handler.cpp].
    - The theorems about messages: [Sandbox] (a calculus of what an operation
      keeps), [Isolation] (every handler), [Raises] (a calculus of the exceptions
      an operation raises), [Endings] (every handler), [Containment] (runs of a
      program), [Traps] (how they end), [Exchange] (requests and replies as flat
      bytes), [MainSpec], [ProcSpec], [IoSpec], [TermSpec]; [Demo] has the state and the host they are
      instantiated with.
    - The theorems about the start: [LoadSpec] (the calculus of [Sandbox] on the
      loader), [LoadHeap] (what a loader leaves of the segments, and that a
      startup heap lies in the data segment), [StartupSpec] (triples for the steps
      that build the startup state), [SpawnSpec] (the strings and the message
      the program finds), [ProgramSpec] (the whole program), [RunSpec] (how it can end).

    ** How the parts meet

    A guest pointer reaches host memory only through [Process::translate_segmented]
    ([AddressSpace]).  [Msg], [GuestContext] and through them [Emu] and [Process]
    are written against the class [Translation] of that function and its laws
    [TranslationLaws] ([Msg]); [GuestContext.space_translation_laws] discharges
    the laws for the real address space from its invariant [wf_space].  The id
    map invariant [IdMap.wf] is part of [wf_space], the segment invariant
    [Segment.wf] too.  The file descriptors are written against [FdKernel], the
    host's descriptor table, with the documented behaviour of [dup2], [close] and
    [fcntl] as [FdKernelLaws]; the handlers against [HostKernel], which promises
    nothing: a theorem about a handler holds for any answer of the host, or says
    for which one.  Only the invariant of the descriptor table, part of [sane], takes
    [dup], [dup2], [pipe] and [fcntl] at their word ([DescriptorLaws]).  [Emu] is written for any [W], the state its message handler
    keeps, for any handler and for any dump of the guest's state; [Containment] puts
    [World], [MainHandler.receive] with the log around it ([Dump.logged]) and
    [DebugDump.dumped] there.

    A handler is a computation on [EmuState (World K)].  It reads its request with
    [read_type], a sequence of bytes whose fields are read by name ([b[: L ; "f" :]]),
    and writes its reply with [write_type]; the theorems speak of [Exchange.asked],
    the bytes of the request, and [Exchange.replied], the state with the reply in
    the guest's buffers.

    State is passed explicitly: each component has a record named after the C++
    class, its methods are [M] computations on it, and a caller lifts them to its
    own record ([Emu.on_guest], [Process.on_space], ...).  A C++ exception is
    [Throw]; so are a failed [assert] ([AssertFailed]), [exit] and undefined
    behaviour ([Undefined]: a null dereference, an index out of range), which
    theorems of the form [... = Ok _] therefore exclude.  Shared objects are modelled by
    reference where aliasing matters: segments live in the heap [segs] of the
    address space, list nodes in [IntrusiveList.heap], pid entries under their
    key in the pid map.

    ** What is proved

    - The sandbox (C1, C2): from the command line on, through loading and
      start-up, and then whatever the guest sends and the host answers, every
      step that is not undefined behaviour keeps the invariants, and Qine's code
      changes no memory but the guest's and the array for discarded data; what the
      guest's instructions write is for the processor to say ([reach]), and
      [AddressSpace.descriptor_extent] says what the descriptors let them; every open descriptor of the guest is the host's of
      the same number, as [get_host_fd] takes for granted; the path maps never change.
    - Robustness (C3, C4): from the command line to any point of any run, a trap or
      a signal is handled or ends the emulator in one of four ways
      ([Traps.trap_kinds], or a fault of the guest's stack or semaphore), by a
      message, by a text without an end in the log, or by what the dump before an
      abort raises ([Traps.dump_kinds]); a message is answered, or faults on a guest pointer, or ends the
      emulator in one of the ways [Endings.special] lists for its kind;
      [Endings.endings_occur] runs some that a guest can bring about.
    - Messages to the managers (C5 - C14): the switches implement one table; every
      field has its place of the wire format; memory, descriptors, program arguments,
      children, data, file status and terminal attributes travel as they should.
    - Start-up (C15, C29, C40): the message, the strings and the argument block
      a program finds; options, program, libraries in an order that does not
      depend on the command line's.
    - Guest execution (C16, C17, C38, C39): a delivered signal and the return from it
      leave the interrupted registers and mask as they were; together with
      [Cpu.signal_resumes] (what the handlers compute reaches the processor, but
      for FS and GS), a signal is transparent to the code it interrupts; the semaphore calls
      implement an abstract counter; each error path of the system calls, of either
      bitness, gives its QNX error.
    - Memory (C18 - C21): guest pointers are translated exactly when every byte
      is mapped; descriptors and segments keep their invariants under every
      operation but one, a refused reservation, whose result is given.
    - Message transport (C22 - C24): reads, writes and I/O vectors agree with the
      flat byte string the chunks denote.
    - Loading (C25, C26): it ends on every file; the flat layout.
    - Names and numbers (C27, C28, C30 - C33): path normalisation and confinement,
      id allocation, descriptors, pids and the intrusive list
      against their specifications.
    - Terminal (C34, C35): the escape filter keeps and translates the byte stream,
      the reading loop ends.
    - The log (C36, C37): what is printed changes nothing of what a message does,
      and, for structures of numbers, tells its bytes.

    Further theorems, of the same standing: [CmdOpts.parse_equiv] (the
    option parser agrees with the list of its parts), [Log.handle_log_opt_spec],
    [Errno.map_errno_spec], [Segment.grow_bytes_spec], [Segment.push_string_spec], [Timespec.timespec_arith],
    [Sigset.sig_number_roundtrip], [Sigset.sigmask_roundtrip], [Sigset.find_first_clear],
    [IdMap.alloc_free_roundtrip], [PathMapper.map_root_roundtrip],
    [PathMapper.add_map_inv], [PidMap.child_pid_roundtrip],
    [PidMap.related_pid_inv], [FdMap.assign_fd_spec],
    [Loader.check_interpreter_spec], [Emu.sigact_spec], [MsgMeta.find_msg_spec],
    [IoctlCodes.Q_IOC_parts], [GuestContext.context_roundtrip] (a context saved on
    the guest's stack comes back), [Msg.stream_reader_spec],
    [Containment.run_contained] and [LoadSpec.load_contained] (the halves of C1),
    [QnxMeta.Meta.descriptions_agree] and [DumpSpec.find_meta_agrees] (a message is
    dumped with the fields its handler reads, at their offsets),
    [DebugDump.debug_dump_spec], [Cpu.enter_guest_regs], [HostUtil.readlink_finds].

    Beside them, lemmas record behaviour that looks unintended:
    [Timespec.deadline_or_keeps_set], [CmdOpts.Integer_unsigned_truncates],
    [PathMapper.map_to_host_escape], [PidMap.qnx_valid_host_unknown],
    [AddressSpace.descriptor_extent], [FdMap.assign_fds_clash] and
    [TerminalFilter.split_mouse_report_leaks].

    ** Fuel

    Loops that do not recurse on data take fuel, and each has a lemma that the
    fuel given is enough: the pid probe ([PidMap.probe_fuel], one round over all
    pids), path normalisation (the length of the path), the option parser (the
    length of its argument), the message loops (the chunks and the bytes asked
    for; enough for any chunks, [Raises]), the record loop of the loader ([Loader.records_fuel], the length of the
    file, since every record consumes its header), the escape loop
    ([TerminalFilter.process_fuel], two passes per byte).  The list iteration takes
    any fuel above the length.  A reading loop that waits for the outside world consumes a list of [Pass]es, what the
    kernel answered each time round; C35 says when it returns.  The strings of an
    [exec] message take the length of the message ([ProcHandler.read_fuel], enough
    by C9); [IoHandler.readlink] doubles its buffer from 256 bytes at most eight
    times, past the longest path of the host (4096): [HostUtil.readlink_finds].

    ** Parameters

    The kernel's calls are parameters: [mmap], [mprotect], [modify_ldt],
    [sigaction], [sigaltstack], [kill], the descriptor table ([FdKernel]), the
    calls of the handlers ([HostKernel]), the clock, the signal frames and the
    thread's segment registers ([Thread], with [ThreadLaws] their documented
    behaviour), [vsnprintf].  So are file contents, the
    environment, the host's registers when the guest is entered, the bytes of
    memory that was never written ([uninit], [garbage], the pending signals
    [m_sigpend]), the address of [garbage_read], what [getopt_long] makes of the
    command line ([Main.CommandLine]: the options with their words), what the
    disassembler prints and the kernel says of a fault ([DebugDump.Fault]), and the
    addresses the guest's own instructions write ([reach]).  C1 asks of them [mmap_law]
    (a mapping lies in user space, where it was asked for when fixed),
    [DescriptorLaws], and that the strings of the command line and the environment
    are shorter than 2 GB; C3 also asks that the path maps of the command line are
    absolute, and C3 and C4 ask [links_law] (the target of a link is no longer
    than a path).

    ** What is not modelled

    [getopt_long], and [printf] beyond its conversions; the code of [msg/gen.py] that
    parses its input and writes C++ - its results are in [QnxMsg] and [QnxMeta];
    single lines the program prints beside the messages and dumps; constants of
    the QNX headers nothing refers to; destructors that have nothing to do; the
    processor's own behaviour: a step of guest code ([Containment.step_guest]) sets
    the registers and the bytes in [reach] to anything; Qine's own objects are
    records and not bytes of the modelled memory, so it cannot write those. *)

From Stdlib Require Export ZArith Lia.
From stdpp Require Export base tactics list gmap numbers option strings.

(** ** Scopes and notations *)

Declare Scope qine_scope.
Delimit Scope qine_scope with qine.
Open Scope Z_scope.

(** ** Machine integers

    A [w]-bit unsigned value is a [Z] reduced modulo [2^w]; a signed one is the
    two's complement representative.  All C++ conversions go through these. *)

Definition wrapu (w z : Z) : Z := z mod 2 ^ w.
Definition wraps (w z : Z) : Z := (z + 2 ^ (w - 1)) mod 2 ^ w - 2 ^ (w - 1).

Notation "'u8' z" := (wrapu 8 z) (at level 9, z at level 8) : qine_scope.
Notation "'u16' z" := (wrapu 16 z) (at level 9, z at level 8) : qine_scope.
Notation "'u32' z" := (wrapu 32 z) (at level 9, z at level 8) : qine_scope.
Notation "'u64' z" := (wrapu 64 z) (at level 9, z at level 8) : qine_scope.
Notation "'i16' z" := (wraps 16 z) (at level 9, z at level 8) : qine_scope.
Notation "'i32' z" := (wraps 32 z) (at level 9, z at level 8) : qine_scope.
Notation "'i64' z" := (wraps 64 z) (at level 9, z at level 8) : qine_scope.
Open Scope qine_scope.

Create HintDb qine.
Create Rewrite HintDb qine.

Lemma wrapu_range w z : 0 <= w -> 0 <= wrapu w z < 2 ^ w.
Proof. intros. apply Z.mod_pos_bound, Z.pow_pos_nonneg; lia. Qed.

Lemma wrapu_small w z : 0 <= z < 2 ^ w -> wrapu w z = z.
Proof. apply Z.mod_small. Qed.

Lemma wrapu_idem w z : 0 <= w -> wrapu w (wrapu w z) = wrapu w z.
Proof. intros. apply wrapu_small, wrapu_range; lia. Qed.

Lemma wraps_small w z : 0 < w -> - 2 ^ (w - 1) <= z < 2 ^ (w - 1) -> wraps w z = z.
Proof.
  intros Hw Hz. unfold wraps. replace (2 ^ w) with (2 * 2 ^ (w - 1)).
  - rewrite Z.mod_small; lia.
  - rewrite <- Z.pow_succ_r by lia. f_equal. lia.
Qed.

#[export] Hint Rewrite wrapu_small wraps_small using lia : qine.

(** ** Exceptions and outcomes

    [exn] collects the C++ exceptions the program throws, plus the ways a run can
    stop without one: a failed [assert] or [abort], a call of [exit], an [execve]
    that replaced the program, a wait that the outside world does not end, and
    undefined behaviour (a null dereference, an out-of-range [vector] access, an
    uninitialised read). *)

Inductive exn :=
| NoFreeId
| IdAlreadyTaken
| BadAlloc
| BadFdException
| PidMapFull
| SegmentationFault (what : string)
| GuestStateException (what : string)
| LoaderFormatException (what : string)
| ConfigurationError (what : string)
| LogicError (what : string)
| RuntimeError (what : string)
| SystemError (errno : Z)
| AssertFailed
| Abort
| Exit (code : Z)
| Replaced
| Blocked
| Undefined (what : string).

#[export] Instance exn_eq_dec : EqDecision exn.
Proof. solve_decision. Defined.

Inductive outcome (A : Type) :=
| Ok (a : A)
| Throw (e : exn).
Arguments Ok {A} a.
Arguments Throw {A} e.

#[export] Instance outcome_eq_dec `{EqDecision A} : EqDecision (outcome A).
Proof. solve_decision. Defined.

#[export] Instance outcome_ret : MRet outcome := fun A a => Ok a.
#[export] Instance outcome_bind : MBind outcome := fun A B f m =>
  match m with Ok a => f a | Throw e => Throw e end.

#[export] Instance outcome_fmap : FMap outcome := fun A B f m =>
  match m with Ok a => Ok (f a) | Throw e => Throw e end.

(** [assert b] as the code has it (the build keeps assertions). *)
Definition check (b : bool) (e : exn) : outcome unit := if b then Ok () else Throw e.

(** Undefined behaviour has no outcome that could be relied on. *)
Definition defined {A} (r : outcome A) : Prop := forall w, r <> Throw (Undefined w).

Lemma outcome_bind_Ok {A B} (m : outcome A) (f : A -> outcome B) b :
  m ≫= f = Ok b -> exists a, m = Ok a /\ f a = Ok b.
Proof. destruct m as [a|e]; [eauto | discriminate]. Qed.

Lemma check_Ok b e x : check b e = Ok x -> b = true.
Proof. destruct b; [done | discriminate]. Qed.

(** The state-and-exception monad: the state survives a throw. *)
Definition M (S A : Type) : Type := S -> S * outcome A.

#[export] Instance M_ret {S} : MRet (M S) := fun A a s => (s, Ok a).
#[export] Instance M_bind {S} : MBind (M S) := fun A B f m s =>
  match m s with
  | (s', Ok a) => f a s'
  | (s', Throw e) => (s', Throw e)
  end.

Definition get {S} : M S S := fun s => (s, Ok s).
Definition put {S} (s' : S) : M S unit := fun _ => (s', Ok ()).
Definition gets {S A} (f : S -> A) : M S A := fun s => (s, Ok (f s)).
Definition modify {S} (f : S -> S) : M S unit := fun s => (f s, Ok ()).
Definition throw {S A} (e : exn) : M S A := fun s => (s, Throw e).
Definition lift {S A} (o : outcome A) : M S A := fun s => (s, o).
(** C++ [try { m } catch (E) { h }] for the exceptions [sel] recognises. *)
Definition try_catch {S A} (sel : exn -> bool) (m : M S A) (h : exn -> M S A) : M S A :=
  fun s => match m s with
           | (s', Throw e) => if sel e then h e s' else (s', Throw e)
           | r => r
           end.

Lemma M_bind_Ok {S A B} (m : M S A) (f : A -> M S B) s s'' b :
  (m ≫= f) s = (s'', Ok b) -> exists s' a, m s = (s', Ok a) /\ f a s' = (s'', Ok b).
Proof. unfold mbind, M_bind. destruct (m s) as [s' [a|e]]; [eauto | discriminate]. Qed.

(** ** Tactics *)

(** [lia] with division and modulo by constants. *)
Ltac zlia := Z.to_euclidean_division_equations; lia.

(** Invert a successful run: splits binds, checks, conditionals. *)
Ltac inv_ok :=
  repeat match goal with
  | H : Ok _ = Ok _ |- _ => injection H as H; subst
  | H : Throw _ = Ok _ |- _ => discriminate H
  | H : Ok _ = Throw _ |- _ => discriminate H
  | H : mret _ = Ok _ |- _ => injection H as H; subst
  | H : check _ _ = Ok _ |- _ => apply check_Ok in H
  | H : (_ ≫= _) = Ok _ |- _ =>
      let a := fresh "a" in let H1 := fresh "H" in
      apply outcome_bind_Ok in H as (a & H1 & H)
  | H : (if ?b then _ else _) = Ok _ |- _ => let E := fresh "E" in destruct b eqn:E
  end; try discriminate.

(** Turn boolean comparisons on [Z] into propositions. *)
Ltac to_prop :=
  repeat match goal with
  | H : (_ && _)%bool = true |- _ => apply andb_prop in H as [? ?]
  | H : negb _ = true |- _ => apply negb_true_iff in H
  | H : negb _ = false |- _ => apply negb_false_iff in H
  | H : (_ <? _) = true |- _ => apply Z.ltb_lt in H
  | H : (_ <? _) = false |- _ => apply Z.ltb_ge in H
  | H : (_ <=? _) = true |- _ => apply Z.leb_le in H
  | H : (_ <=? _) = false |- _ => apply Z.leb_gt in H
  | H : (_ =? _) = true |- _ => apply Z.eqb_eq in H
  | H : (_ =? _) = false |- _ => apply Z.eqb_neq in H
  | H : (_ >? _) = true |- _ => apply Z.gtb_lt in H
  | H : (_ >? _) = false |- _ => rewrite Z.gtb_ltb in H; apply Z.ltb_ge in H
  | H : (_ >=? _) = true |- _ => apply Z.geb_le in H
  | H : (_ >=? _) = false |- _ => rewrite Z.geb_leb in H; apply Z.leb_gt in H
  | H : bool_decide _ = true |- _ => apply bool_decide_eq_true in H
  | H : bool_decide _ = false |- _ => apply bool_decide_eq_false in H
  end.

(** ** Byte sequences *)

(** Little-endian encoding of a value on [n] bytes, and its inverse. *)
Fixpoint le_bytes (n : nat) (z : Z) : list Z :=
  match n with
  | O => []
  | S n => z mod 256 :: le_bytes n (z / 256)
  end.

Fixpoint le_val (bs : list Z) : Z :=
  match bs with
  | [] => 0
  | b :: bs => b + 256 * le_val bs
  end.

Definition is_byte (b : Z) : Prop := 0 <= b < 256.

Lemma length_le_bytes n z : length (le_bytes n z) = n.
Proof. revert z. induction n; intros; simpl; auto. Qed.

Lemma le_bytes_bytes n z : Forall is_byte (le_bytes n z).
Proof.
  revert z. induction n; intros z; simpl; constructor; auto.
  apply Z.mod_pos_bound. lia.
Qed.

Lemma le_val_bytes n z : le_val (le_bytes n z) = wrapu (8 * Z.of_nat n) z.
Proof.
  revert z. induction n as [|n IH]; intros z; simpl le_bytes; simpl le_val.
  - unfold wrapu. by rewrite Z.mod_1_r.
  - rewrite IH. unfold wrapu.
    replace (8 * Z.of_nat (S n)) with (8 + 8 * Z.of_nat n) by lia.
    rewrite Z.pow_add_r by lia. change (2 ^ 8) with 256.
    rewrite Z.rem_mul_r; lia.
Qed.

Lemma le_bytes_val bs : Forall is_byte bs -> le_bytes (length bs) (le_val bs) = bs.
Proof.
  unfold is_byte. induction 1 as [|b bs Hb _ IH]; simpl; [done|].
  rewrite Z.mul_comm, Z_mod_plus_full, Z.mod_small by lia.
  rewrite Z.div_add, Z.div_small by lia. by rewrite Z.add_0_l, IH.
Qed.

Lemma le_val_range bs : Forall is_byte bs -> 0 <= le_val bs < 2 ^ (8 * Z.of_nat (length bs)).
Proof.
  intros H. rewrite <- (le_bytes_val bs H) at 1 2. rewrite le_val_bytes.
  apply wrapu_range. lia.
Qed.

(** [memcpy] from and into a byte buffer at an offset. *)
Definition slice (off len : nat) (bs : list Z) : list Z := take len (drop off bs).
Definition splice (off : nat) (src bs : list Z) : list Z :=
  take off bs ++ src ++ drop (off + length src) bs.

Lemma length_slice off len bs : (off + len <= length bs)%nat -> length (slice off len bs) = len.
Proof. intros. unfold slice. rewrite length_take, length_drop. lia. Qed.

Lemma length_splice off src bs :
  (off + length src <= length bs)%nat -> length (splice off src bs) = length bs.
Proof. intros. unfold splice. rewrite !length_app, length_take, length_drop. lia. Qed.

Lemma slice_splice off src bs :
  (off + length src <= length bs)%nat -> slice off (length src) (splice off src bs) = src.
Proof.
  intros. unfold slice, splice.
  rewrite drop_app_length' by (rewrite length_take; lia).
  by rewrite take_app_length.
Qed.

(** ** Fields of a bit mask *)

Definition has (v mask : Z) : bool := negb (Z.land v mask =? 0).
