(* ===== verification/Types.v ===== *)
(** * Types: [types.h], [mem_ops.h] and [util.cpp]

    The shared data types of the program (access modes, bitness, far pointers),
    the page arithmetic of namespace [MemOps], and the C-string helpers.
    Strings are lists of byte values without their terminator, as the C++ code
    sees them through [c_str()]. *)

From S2P Require Import Prelude.

Inductive RwOp := READ | WRITE.

Inductive Access := READ_WRITE | READ_ONLY | EXEC_READ | EXEC_ONLY | ACCESS_OTHER (v : Z).

(** The C++ [Access(v)] cast of an integer: the four named enumerators of the
    QNX executable format, any other value is carried as it is. *)
Definition Access_of_Z (v : Z) : Access :=
  if v =? 0 then READ_WRITE else if v =? 1 then READ_ONLY
  else if v =? 2 then EXEC_READ else if v =? 3 then EXEC_ONLY else ACCESS_OTHER v.

#[export] Instance Access_eq_dec : EqDecision Access.
Proof. solve_decision. Defined.

Inductive Bitness := B32 | B16.

#[export] Instance Bitness_eq_dec : EqDecision Bitness.
Proof. solve_decision. Defined.

Record FarPointer := mkFarPointer { m_segment : Z; m_offset : Z }.
Definition FarPointer_null : FarPointer := mkFarPointer 0 0.

Record FarSlice := mkFarSlice { m_ptr : FarPointer; m_size : Z }.
Definition FarSlice_is_empty (s : FarSlice) : bool := m_size s =? 0.

#[export] Instance FarPointer_eq_dec : EqDecision FarPointer.
Proof. solve_decision. Defined.

(** [FarPointer16] keeps 16 bits of the offset. *)
Record FarPointer16 := mkFarPointer16 { m_segment16 : Z; m_offset16 : Z }.
Definition FarPointer16_of (p : FarPointer) : FarPointer16 :=
  mkFarPointer16 (m_segment p) (u16 (m_offset p)).

(** [qnx/magic.h]: the well-known selector of the magic pointer.
    [qnx/osinfo.h]: [sizeof(timesel)]. *)
Definition MAGIC_PTR_SELECTOR : Z := 0x78.
Definition sizeof_timesel : Z := 32.

Module MemOps.
Definition PAGE_SIZE : Z := 4096.

Definition is_aligned (v align : Z) : bool := v mod align =? 0.

(** [uintptr_t] is 64 bits wide. *)
Definition align_up (v align : Z) : Z :=
  if v mod align =? 0 then v else u64 ((v / align + 1) * align).

Definition align_down (v align : Z) : Z := u64 (v / align * align).

Definition align_page_up (v : Z) : Z := align_up v PAGE_SIZE.
Definition align_page_down (v : Z) : Z := align_down v PAGE_SIZE.
Definition is_page_aligned (v : Z) : bool := is_aligned v PAGE_SIZE.
Definition kilo (v : Z) : Z := u64 (v * 1024).
Definition mega (v : Z) : Z := u64 (v * 1024 * 1024).

Lemma align_page_up_spec v :
  0 <= v <= 2 ^ 64 - 4096 ->
  v <= align_page_up v < v + PAGE_SIZE /\ align_page_up v mod PAGE_SIZE = 0.
Proof.
  intros Hv. unfold align_page_up, align_up, PAGE_SIZE in *.
  destruct (v mod 4096 =? 0) eqn:E; to_prop; [lia|].
  rewrite wrapu_small by zlia. split; [zlia|]. apply Z_mod_mult.
Qed.

Lemma align_page_down_spec v :
  0 <= v < 2 ^ 64 -> align_page_down v = v / PAGE_SIZE * PAGE_SIZE.
Proof. intros. unfold align_page_down, align_down, PAGE_SIZE. apply wrapu_small. zlia. Qed.

(** [align_page_up] is the least page boundary at or above its argument. *)
Lemma align_page_up_least v b :
  0 <= v <= 2 ^ 64 - 4096 -> b mod PAGE_SIZE = 0 -> v <= b -> align_page_up v <= b.
Proof.
  intros Hv Hb Hle. unfold align_page_up, align_up, PAGE_SIZE in *.
  destruct (v mod 4096 =? 0) eqn:E; to_prop; [lia|].
  rewrite wrapu_small by zlia. zlia.
Qed.

Lemma align_page_up_aligned v : v mod PAGE_SIZE = 0 -> align_page_up v = v.
Proof. intros H. unfold align_page_up, align_up. by rewrite H. Qed.
End MemOps.

(** ** C strings *)

Definition cstring := list Z.

(** The bytes of a C string literal. *)
Fixpoint lit (s : string) : cstring :=
  match s with
  | EmptyString => []
  | String a s => Z.of_N (Ascii.N_of_ascii a) :: lit s
  end.

Definition starts_with (string prefix : cstring) : bool :=
  if (length string <? length prefix)%nat then false
  else bool_decide (prefix = take (length prefix) string).

Lemma starts_with_spec string prefix :
  starts_with string prefix = true <-> exists rest, string = prefix ++ rest.
Proof.
  unfold starts_with. destruct (Nat.ltb_spec (length string) (length prefix)) as [Hlt|Hge].
  - split; [done|]. intros [rest ->]. rewrite length_app in Hlt. lia.
  - rewrite bool_decide_eq_true. split.
    + intros Hp. exists (drop (length prefix) string).
      rewrite Hp at 1. by rewrite take_drop.
    + intros [rest ->]. by rewrite take_app_length.
Qed.

(** [qine_strlcpy (dst, src, maxlen)]: the new content of the [dst] buffer (of
    at least [maxlen] bytes) and the returned length. [src] has no NUL byte. *)
Definition qine_strlcpy (dst : list Z) (src : cstring) (maxlen : nat) : list Z * nat :=
  let srclen := length src in
  let dst' :=
    if (srclen + 1 <? maxlen)%nat then splice 0 (src ++ [0]) dst
    else if (maxlen =? 0)%nat then dst
    else <[ (maxlen - 1)%nat := 0 ]> (splice 0 (take (maxlen - 1) src) dst) in
  (dst', srclen).

(** The C string stored at the start of a buffer: up to the first NUL. *)
Fixpoint cstr (bs : list Z) : cstring :=
  match bs with
  | [] => []
  | b :: bs => if b =? 0 then [] else b :: cstr bs
  end.

Definition no_nul (s : cstring) : Prop := Forall (fun b => b <> 0) s.

Lemma cstr_app_nul s rest : no_nul s -> cstr (s ++ 0 :: rest) = s.
Proof.
  induction 1 as [|b s Hb _ IH]; simpl; [done|].
  destruct (Z.eqb_spec b 0); [lia|]. by f_equal.
Qed.

Lemma cstr_no_nul bs : no_nul (cstr bs).
Proof.
  induction bs as [|b bs IH]; simpl; [constructor|].
  destruct (Z.eqb_spec b 0); constructor; auto.
Qed.

(** [qine_strlcpy] never writes past [maxlen], always terminates the string
    and keeps the longest prefix of [src] that fits. *)
Lemma qine_strlcpy_spec dst src maxlen :
  no_nul src -> (0 < maxlen <= length dst)%nat ->
  let '(dst', n) := qine_strlcpy dst src maxlen in
  length dst' = length dst /\ cstr dst' = take (maxlen - 1) src /\
  drop maxlen dst' = drop maxlen dst /\ n = length src.
Proof.
  intros Hs Hm. unfold qine_strlcpy.
  destruct (Nat.ltb_spec (length src + 1) maxlen) as [Hlt|Hge].
  - assert (Hl : length (src ++ [0]) = (length src + 1)%nat) by (rewrite length_app; done).
    split; [apply length_splice; lia|]. split.
    + unfold splice. simpl. rewrite <- app_assoc. simpl.
      rewrite cstr_app_nul by done. by rewrite take_ge by lia.
    + split; [|done]. unfold splice. simpl.
      rewrite Hl. rewrite drop_app_ge by lia. rewrite Hl, drop_drop. f_equal. lia.
  - destruct (Nat.eqb_spec maxlen 0) as [|_]; [lia|].
    set (s := take (maxlen - 1) src).
    assert (Hls : length s = (maxlen - 1)%nat) by (unfold s; rewrite length_take; lia).
    assert (Hd : exists b, drop (maxlen - 1) dst = b :: drop maxlen dst).
    { destruct (lookup_lt_is_Some_2 dst (maxlen - 1)) as [b Hb]; [lia|].
      exists b. rewrite (drop_S _ b) by done. f_equal. f_equal. lia. }
    destruct Hd as [b Hd].
    assert (Heq : <[(maxlen - 1)%nat:=0]> (splice 0 s dst) = s ++ 0 :: drop maxlen dst).
    { unfold splice. simpl. rewrite Hls, Hd.
      rewrite <- Hls at 1. rewrite insert_app_r_alt by lia.
      by rewrite Nat.sub_diag. }
    rewrite Heq. split; [|split; [|split; [|done]]].
    + rewrite length_app, Hls. simpl. rewrite length_drop. lia.
    + apply cstr_app_nul. unfold no_nul, s. by apply Forall_take.
    + rewrite drop_app_ge by lia. rewrite Hls.
      replace (maxlen - (maxlen - 1))%nat with 1%nat by lia. done.
Qed.
