(* ===== verification/Memory.v ===== *)
(** * Memory: the host address space

    The bytes of the emulator's own address space, which guest segments are
    mapped into.  Addresses are 64-bit [Z]s; a byte never stored to reads as 0,
    as anonymous mappings do. [load] and [store] are [memcpy] from and to it. *)

From S2P Require Import Prelude.

Notation Mem := (gmap Z Z).

Definition peek (m : Mem) (a : Z) : Z := default 0 (m !! a).

Fixpoint load (m : Mem) (a : Z) (n : nat) : list Z :=
  match n with
  | O => []
  | S n => peek m a :: load m (a + 1) n
  end.

Fixpoint store (m : Mem) (a : Z) (bs : list Z) : Mem :=
  match bs with
  | [] => m
  | b :: bs => <[a := b]> (store m (a + 1) bs)
  end.

Lemma length_load m a n : length (load m a n) = n.
Proof. revert a. induction n as [|n IH]; intros a; simpl; [done|]. by rewrite IH. Qed.

Lemma peek_store m a bs x :
  peek (store m a bs) x =
    if (a <=? x) && (x <? a + Z.of_nat (length bs)) then bs !!! Z.to_nat (x - a) else peek m x.
Proof.
  revert a. induction bs as [|b bs IH]; intros a; simpl store; simpl length.
  - destruct (Z.leb_spec a x), (Z.ltb_spec x (a + Z.of_nat 0)); simpl; done || lia.
  - unfold peek at 1. rewrite lookup_insert. case_decide as Hx.
    + subst x. destruct (Z.leb_spec a a), (Z.ltb_spec a (a + Z.of_nat (S (length bs)))); try lia.
      simpl. by rewrite Z.sub_diag.
    + fold (peek (store m (a + 1) bs) x). rewrite IH.
      destruct (Z.leb_spec a x), (Z.leb_spec (a + 1) x),
        (Z.ltb_spec x (a + 1 + Z.of_nat (length bs))),
        (Z.ltb_spec x (a + Z.of_nat (S (length bs)))); simpl; try lia; try done.
      by replace (Z.to_nat (x - a)) with (S (Z.to_nat (x - (a + 1)))) by lia.
Qed.

Lemma load_ext m1 m2 a n :
  (forall x, a <= x < a + Z.of_nat n -> peek m1 x = peek m2 x) -> load m1 a n = load m2 a n.
Proof.
  revert a. induction n as [|n IH]; intros a H; simpl; [done|]. f_equal; [apply H; lia|].
  apply IH. intros x Hx. apply H. lia.
Qed.

Lemma load_store_disjoint m a bs b n :
  b + Z.of_nat n <= a \/ a + Z.of_nat (length bs) <= b -> load (store m a bs) b n = load m b n.
Proof.
  intros H. apply load_ext. intros x Hx. rewrite peek_store.
  destruct (Z.leb_spec a x), (Z.ltb_spec x (a + Z.of_nat (length bs))); simpl; done || lia.
Qed.

Lemma load_store m a bs : load (store m a bs) a (length bs) = bs.
Proof.
  revert a. induction bs as [|b bs IH]; intros a; simpl; [done|]. f_equal.
  - unfold peek. by rewrite lookup_insert_eq.
  - etransitivity; [|apply (IH (a + 1))]. apply load_ext. intros x Hx. unfold peek.
    rewrite lookup_insert_ne by lia. done.
Qed.

Lemma load_app m a n1 n2 : load m a (n1 + n2) = load m a n1 ++ load m (a + Z.of_nat n1) n2.
Proof.
  revert a. induction n1 as [|n1 IH]; intros a; simpl.
  - f_equal. lia.
  - f_equal. rewrite IH. do 2 f_equal. lia.
Qed.

#[export] Hint Rewrite length_load : qine.
