(* ===== verification/IdMap.v ===== *)
(** * IdMap: [idmap.h]

    The slot allocator behind file descriptors and segment descriptors: a
    vector of owned pointers that grows on demand up to [m_max].  Slot numbers
    are [nat] (all of them are below [m_max], far from the [size_t] limit); the
    sentinel [INVAL] is [None].  The abstract view of a map is a [gmap nat T]
    and every operation refines the obvious map operation. *)

From S2P Require Import Prelude.

Section IdMap.
Context {T : Type}.

Record IdMap := mkIdMap { m_max : nat; m_data : list (option T) }.

Definition new (max : nat) : IdMap := mkIdMap max [].

(** [operator[]]: the pointer in slot [i], null when free or beyond the vector. *)
Definition at_ (m : IdMap) (i : nat) : option T := mjoin (m_data m !! i).

Definition is_used (o : option T) : bool := match o with Some _ => true | None => false end.

(** The loop of [search] over the tail [l] of the vector starting at [from]. *)
Fixpoint search_loop (l : list (option T)) (from : nat) (used : bool) : nat + nat :=
  match l with
  | [] => inr from
  | o :: l => if eqb (is_used o) used then inl from else search_loop l (S from) used
  end.

Definition search (m : IdMap) (from : nat) (used : bool) : option nat :=
  match search_loop (drop from (m_data m)) from used with
  | inl i => Some i
  | inr i => if (negb used && (i <? m_max m)%nat)%bool then Some i else None
  end.

(** [grow]: the new slots of [resize] are null pointers. *)
Definition grow (m : IdMap) (to_size : nat) : outcome IdMap :=
  _ ← check (to_size <=? m_max m)%nat AssertFailed;
  Ok (if (to_size <=? length (m_data m))%nat then m
      else mkIdMap (m_max m) (m_data m ++ replicate (to_size - length (m_data m)) None)).

(** [creator(i)] may throw; the vector has grown by then. *)
Definition emplace (i : nat) (creator : nat -> outcome T) : M IdMap T := fun m =>
  match grow m (i + 1) with
  | Throw e => (m, Throw e)
  | Ok m' =>
      match creator i with
      | Throw e => (m', Throw e)
      | Ok p => (mkIdMap (m_max m') (<[i := Some p]> (m_data m')), Ok p)
      end
  end.

Definition alloc_any (creator : nat -> outcome T) : M IdMap T := fun m =>
  match search m 0 false with
  | None => (m, Throw NoFreeId)
  | Some i => emplace i creator m
  end.

Definition alloc_exactly_at (i : nat) (creator : nat -> outcome T) : M IdMap T := fun m =>
  if (m_max m <=? i)%nat then (m, Throw NoFreeId)
  else match at_ m i with
       | Some _ => (m, Throw IdAlreadyTaken)
       | None => emplace i creator m
       end.

(** The result is a nullable pointer: a start beyond [m_max] returns null. *)
Definition alloc_starting_at (from : nat) (creator : nat -> outcome T) : M IdMap (option T) := fun m =>
  if (m_max m <=? from)%nat then (m, Ok None)
  else match search m from false with
       | None => (m, Throw NoFreeId)
       | Some i => let '(m', r) := emplace i creator m in (m', Some <$> r)
       end.

(** [free] calls [unique_ptr::release]: the slot becomes null and the object is
    handed back to nobody; its destructor never runs. *)
Definition free (m : IdMap) (i : nat) : IdMap * option T :=
  if (length (m_data m) <=? i)%nat then (m, None)
  else (mkIdMap (m_max m) (<[i := None]> (m_data m)), at_ m i).

(** ** The abstract view *)

Definition abs (m : IdMap) : gmap nat T := omap id (map_seq 0 (m_data m)).

Definition wf (m : IdMap) : Prop := (length (m_data m) <= m_max m)%nat.

Lemma abs_lookup m i : abs m !! i = at_ m i.
Proof.
  unfold abs, at_. rewrite lookup_omap, lookup_map_seq_0.
  by destruct (m_data m !! i) as [[]|].
Qed.

Lemma at_ge m i : (length (m_data m) <= i)%nat -> at_ m i = None.
Proof. intros. unfold at_. by rewrite lookup_ge_None_2. Qed.

Lemma wf_new max : wf (new max).
Proof. unfold wf, new. simpl. lia. Qed.

Lemma abs_new max : abs (new max) = ∅.
Proof. apply map_eq. intros i. by rewrite abs_lookup, lookup_empty. Qed.

(** Slot [i] has the wanted state; slots beyond the vector are free. *)
Definition slot_is (m : IdMap) (used : bool) (i : nat) : Prop :=
  is_used (abs m !! i) = used.

Lemma search_loop_spec l from used :
  match search_loop l from used with
  | inl i => exists k o, i = (from + k)%nat /\ l !! k = Some o /\ is_used o = used /\
               forall j o', (j < k)%nat -> l !! j = Some o' -> is_used o' <> used
  | inr i => i = (from + length l)%nat /\ forall j o', l !! j = Some o' -> is_used o' <> used
  end.
Proof.
  revert from. induction l as [|o l IH]; intros from; simpl.
  - split; [lia|]. intros j o'. rewrite lookup_nil. done.
  - destruct (eqb (is_used o) used) eqn:E.
    + apply eqb_prop in E. exists 0%nat, o. by repeat split; auto with lia.
    + assert (Hne : is_used o <> used) by (intros He; rewrite He, eqb_reflx in E; done).
      specialize (IH (S from)). destruct (search_loop l (S from) used) as [i|i].
      * destruct IH as (k & o1 & -> & Hk & Hu & Hm). exists (S k), o1.
        repeat split; auto with lia. intros [|j] o' Hj Ho; simpl in Ho; [congruence|].
        apply (Hm j); [lia|done].
      * destruct IH as [-> Hm]. split; [lia|]. intros [|j] o' Ho; simpl in Ho; [congruence|eauto].
Qed.

Lemma slot_is_nth m used i o : m_data m !! i = Some o -> slot_is m used i <-> is_used o = used.
Proof. intros H. unfold slot_is. rewrite abs_lookup. unfold at_. by rewrite H. Qed.

Lemma slot_is_beyond m i : (length (m_data m) <= i)%nat -> slot_is m false i.
Proof. intros. unfold slot_is. by rewrite abs_lookup, at_ge. Qed.

(** [search] returns the least matching slot at or after [from]. *)
Lemma search_Some m from used i :
  search m from used = Some i ->
  (from <= i)%nat /\ slot_is m used i /\
    (forall j, (from <= j < i)%nat -> ~ slot_is m used j) /\
    (used = false -> (i < m_max m)%nat \/ (i < length (m_data m))%nat).
Proof.
  unfold search. pose proof (search_loop_spec (drop from (m_data m)) from used) as Hs.
  destruct (search_loop _ _ _) as [k|k].
  - destruct Hs as (k' & o & -> & Hk & Hu & Hm). intros [= <-].
    rewrite lookup_drop in Hk. split; [lia|]. split; [by eapply slot_is_nth|]. split.
    + intros j Hj Hsl. assert (Hlt : (j < length (m_data m))%nat)
        by (apply lookup_lt_Some in Hk; lia).
      destruct (lookup_lt_is_Some_2 _ _ Hlt) as [o' Ho'].
      apply (Hm (j - from)%nat o'); [lia| |].
      * rewrite lookup_drop. by replace (from + (j - from))%nat with j by lia.
      * by rewrite (slot_is_nth _ _ _ _ Ho') in Hsl.
    + right. by apply lookup_lt_Some in Hk.
  - destruct Hs as [-> Hm]. rewrite length_drop.
    destruct used; simpl; [done|].
    destruct (Nat.ltb_spec (from + (length (m_data m) - from)) (m_max m)); intros [= <-].
    split; [lia|]. split; [apply slot_is_beyond; lia|]. split; [|auto].
    intros j Hj Hsl. assert (Hlt : (j < length (m_data m))%nat) by lia.
    destruct (lookup_lt_is_Some_2 _ _ Hlt) as [o' Ho'].
    apply (Hm (j - from)%nat o').
    + rewrite lookup_drop. by replace (from + (j - from))%nat with j by lia.
    + by rewrite (slot_is_nth _ _ _ _ Ho') in Hsl.
Qed.

Lemma search_None m from used :
  search m from used = None ->
  forall j, (from <= j)%nat -> (used = false -> (j < m_max m)%nat) -> ~ slot_is m used j.
Proof.
  unfold search. pose proof (search_loop_spec (drop from (m_data m)) from used) as Hs.
  destruct (search_loop _ _ _) as [k|k]; [done|].
  destruct Hs as [-> Hm]. rewrite length_drop. intros Hn j Hj Hmax Hsl.
  destruct (decide (j < length (m_data m))%nat) as [Hlt|Hge].
  - destruct (lookup_lt_is_Some_2 _ _ Hlt) as [o' Ho']. apply (Hm (j - from)%nat o').
    + rewrite lookup_drop. by replace (from + (j - from))%nat with j by lia.
    + by rewrite (slot_is_nth _ _ _ _ Ho') in Hsl.
  - destruct used.
    + unfold slot_is in Hsl. rewrite abs_lookup, at_ge in Hsl by lia. done.
    + specialize (Hmax eq_refl). simpl in Hn.
      destruct (Nat.ltb_spec (from + (length (m_data m) - from)) (m_max m)); [done|lia].
Qed.

Lemma grow_spec m n :
  (n <= m_max m)%nat -> wf m ->
  exists m', grow m n = Ok m' /\ wf m' /\ m_max m' = m_max m /\ abs m' = abs m /\
    (n <= length (m_data m'))%nat.
Proof.
  intros Hn Hwf. unfold grow. destruct (Nat.leb_spec n (m_max m)); [|lia]. simpl.
  destruct (Nat.leb_spec n (length (m_data m))); [by exists m|].
  eexists. split; [done|]. unfold wf in *. simpl.
  rewrite length_app, length_replicate. repeat split; try lia.
  apply map_eq. intros i. rewrite !abs_lookup. unfold at_. simpl.
  destruct (decide (i < length (m_data m))%nat) as [Hi|Hi].
  - by rewrite lookup_app_l.
  - rewrite lookup_app_r, (lookup_ge_None_2 (m_data m)) by lia.
    destruct (replicate _ None !! _) as [o|] eqn:E; [|done].
    by apply lookup_replicate in E as [-> _].
Qed.

Lemma emplace_spec m i creator :
  wf m -> (i < m_max m)%nat ->
  exists m', emplace i creator m = (m', creator i) /\ wf m' /\ m_max m' = m_max m /\
    abs m' = match creator i with Ok p => <[i := p]> (abs m) | Throw _ => abs m end.
Proof.
  intros Hwf Hi. destruct (grow_spec m (i + 1)) as (m1 & Hg & Hwf1 & Hmax & Habs & Hlen); [lia|done|].
  unfold emplace. rewrite Hg. destruct (creator i) as [p|e] eqn:Hc; eexists; split; try done.
  unfold wf in *. simpl. rewrite length_insert. repeat split; try done.
  apply map_eq. intros j. rewrite abs_lookup. unfold at_. simpl.
  destruct (decide (i = j)) as [<-|Hne].
  - rewrite list_lookup_insert_eq, lookup_insert_eq by lia. done.
  - rewrite list_lookup_insert_ne, lookup_insert_ne by done.
    by rewrite <- Habs, abs_lookup.
Qed.

Lemma abs_dom_lt m i p : wf m -> abs m !! i = Some p -> (i < m_max m)%nat.
Proof.
  intros Hwf. rewrite abs_lookup. intros Ha. destruct (decide (i < length (m_data m))%nat).
  - unfold wf in Hwf. lia.
  - rewrite at_ge in Ha by lia. done.
Qed.

(** What an allocation from slot [from] promises, on the abstract map: the
    least free slot [i] in [from, m_max) receives [creator i]; when there is
    none, [NoFreeId]; a throwing creator leaves the map as it was. *)
Definition alloc_post (m m' : IdMap) (from : nat) (creator : nat -> outcome T) (r : outcome T) : Prop :=
  wf m' /\ m_max m' = m_max m /\
    ((exists i, (from <= i < m_max m)%nat /\ abs m !! i = None /\
    (forall j, (from <= j < i)%nat -> is_Some (abs m !! j)) /\
    r = creator i /\
    abs m' = match r with Ok p => <[i := p]> (abs m) | Throw _ => abs m end)
   \/ (r = Throw NoFreeId /\ m' = m /\
    forall j, (from <= j < m_max m)%nat -> is_Some (abs m !! j))).

Lemma slot_free m i : slot_is m false i <-> abs m !! i = None.
Proof. unfold slot_is. by destruct (abs m !! i). Qed.

Lemma alloc_from_spec m from creator :
  wf m ->
  match search m from false with
  | None => alloc_post m m from creator (Throw NoFreeId)
  | Some i => let '(m', r) := emplace i creator m in alloc_post m m' from creator r
  end.
Proof.
  intros Hwf. destruct (search m from false) as [i|] eqn:E.
  - apply search_Some in E as (Hle & Hsl & Hmin & Hmax).
    assert (Hi : (i < m_max m)%nat) by (unfold wf in Hwf; destruct (Hmax eq_refl); lia).
    destruct (emplace_spec m i creator Hwf Hi) as (m' & -> & Hwf' & Hmx & Habs).
    split; [done|]. split; [done|]. left. exists i. rewrite <- slot_free.
    repeat split; try done.
    intros j Hj. specialize (Hmin j Hj). rewrite slot_free in Hmin.
    by destruct (abs m !! j).
  - split; [done|]. split; [done|]. right. repeat split.
    intros j Hj. pose proof (search_None _ _ _ E j) as Hn. rewrite slot_free in Hn.
    destruct (abs m !! j); [done|]. exfalso. apply Hn; [lia|lia|done].
Qed.

(** [free] empties its slot and no other. *)
Lemma free_at m i j : at_ (fst (free m i)) j = if decide (j = i) then None else at_ m j.
Proof.
  unfold free. destruct (Nat.leb_spec (length (m_data m)) i) as [Hle|Hlt]; simpl.
  - case_decide; [|done]. subst. by rewrite at_ge.
  - unfold at_ at 1. simpl. case_decide as Hj.
    + subst. by rewrite list_lookup_insert_eq.
    + by rewrite list_lookup_insert_ne by congruence.
Qed.

Lemma free_max m i : m_max (fst (free m i)) = m_max m.
Proof. unfold free. by destruct (_ <=? _)%nat. Qed.

Lemma free_wf m i : wf m -> wf (fst (free m i)).
Proof.
  unfold free, wf. destruct (_ <=? _)%nat; [done|]. simpl. by rewrite length_insert.
Qed.
End IdMap.

Arguments IdMap T : clear implicits.
Arguments new {T} max.
#[export] Hint Resolve wf_new : qine.

(** ** Properties *)

(** C30. [alloc_any] and [alloc_starting_at] hand out the least free slot at or
    after the requested one, leave every other slot alone, keep the vector
    within [m_max], report [NoFreeId] exactly when all those slots are taken,
    and [alloc_starting_at] answers null for a start beyond the map. *)
Theorem alloc_refines T (m : IdMap T) from creator :
  wf m ->
  (let '(m', r) := alloc_any creator m in alloc_post m m' 0 creator r) /\
      (let '(m', r) := alloc_starting_at from creator m in
   if decide (m_max m <= from)%nat then m' = m /\ r = Ok None
   else exists r', r = Some <$> r' /\ alloc_post m m' from creator r').
Proof.
  intros Hwf. split.
  - pose proof (alloc_from_spec m 0 creator Hwf) as H. unfold alloc_any.
    destruct (search m 0 false); [|done]. by destruct (emplace _ _ _).
  - pose proof (alloc_from_spec m from creator Hwf) as H. unfold alloc_starting_at.
    destruct (Nat.leb_spec (m_max m) from); case_decide; try lia; [done|].
    destruct (search m from false).
    + destruct (emplace _ _ _) as [m' r]. by exists r.
    + exists (Throw NoFreeId). done.
Qed.

Lemma alloc_refines_witness :
  let m := mkIdMap (T := Z) 4 [Some 7; None; Some 9] in
  wf m /\
      (let '(m', r) := alloc_any (fun i => Ok (Z.of_nat i)) m in alloc_post m m' 0 (fun i => Ok (Z.of_nat i)) r) /\
      (let '(m', r) := alloc_starting_at 2 (fun i => Ok (Z.of_nat i)) m in
   if decide (m_max m <= 2)%nat then m' = m /\ r = Ok None
   else exists r', r = Some <$> r' /\ alloc_post m m' 2 (fun i => Ok (Z.of_nat i)) r').
Proof.
  assert (H : wf (mkIdMap (T := Z) 4 [Some 7; None; Some 9])) by (unfold wf; simpl; lia).
  split; [exact H|]. exact (alloc_refines Z _ 2 (fun i => Ok (Z.of_nat i)) H).
Defined.

(** [alloc_exactly_at] takes slot [i] or fails without touching the map;
    [free] empties the slot (a no-op for a slot never reached) and releases
    what was in it; the two undo each other. *)
Theorem alloc_free_roundtrip T (m : IdMap T) i creator p :
  wf m -> creator i = Ok p ->
  let '(m', r) := alloc_exactly_at i creator m in
  (r = if decide (m_max m <= i)%nat then Throw NoFreeId
       else match abs m !! i with Some _ => Throw IdAlreadyTaken | None => Ok p end) /\
      match r with
  | Throw _ => m' = m
  | Ok _ => wf m' /\ abs m' = <[i := p]> (abs m) /\
      let '(m'', o) := free m' i in o = Some p /\ wf m'' /\ abs m'' = abs m
  end.
Proof.
  intros Hwf Hc. unfold alloc_exactly_at.
  destruct (Nat.leb_spec (m_max m) i); case_decide; try lia; [done|].
  rewrite abs_lookup. destruct (at_ m i) eqn:Ha; [done|].
  destruct (emplace_spec m i creator Hwf) as (m' & -> & Hwf' & Hmx & Habs); [lia|].
  rewrite Hc in *. split; [done|]. split; [done|]. split; [done|].
  assert (Hl : at_ m' i = Some p) by (rewrite <- abs_lookup, Habs; apply lookup_insert_eq).
  destruct (free m' i) as [m'' o] eqn:Ef.
  assert (Ho : o = Some p).
  { unfold free in Ef. destruct (Nat.leb_spec (length (m_data m')) i) as [Hle|Hlt];
      injection Ef as _ <-; [by rewrite at_ge in Hl|done]. }
  replace m'' with (fst (free m' i)) by by rewrite Ef.
  split; [done|]. split; [by apply free_wf|]. apply map_eq. intros j.
  rewrite abs_lookup, free_at, <- (abs_lookup m' j), Habs. case_decide as Hj.
  - subst j. by rewrite abs_lookup.
  - by rewrite lookup_insert_ne by congruence.
Qed.

Lemma alloc_free_roundtrip_witness :
  let m := mkIdMap (T := Z) 4 [Some 7; None] in
  let creator := fun i => Ok (Z.of_nat i) in
  wf m /\ creator 3%nat = Ok 3 /\
      (let '(m', r) := alloc_exactly_at 3 creator m in
  (r = if decide (m_max m <= 3)%nat then Throw NoFreeId
       else match abs m !! 3%nat with Some _ => Throw IdAlreadyTaken | None => Ok 3 end) /\
      match r with
  | Throw _ => m' = m
  | Ok _ => wf m' /\ abs m' = <[3%nat := 3]> (abs m) /\
      let '(m'', o) := free m' 3 in o = Some 3 /\ wf m'' /\ abs m'' = abs m
  end).
Proof.
  assert (H : wf (mkIdMap (T := Z) 4 [Some 7; None])) by (unfold wf; simpl; lia).
  split; [exact H|]. split; [reflexivity|].
  exact (alloc_free_roundtrip Z _ 3 (fun i => Ok (Z.of_nat i)) 3 H eq_refl).
Defined.
