(* ===== verification/Timespec.v ===== *)
(** * Timespec: [timespec.h]

    [Timespec] arithmetic and [Deadline] combination.  [tv_sec] is 64 bits
    wide, [tv_nsec] is kept as the constructor leaves it; C++ [/] and [%]
    truncate towards zero ([Z.quot], [Z.rem]). *)

From S2P Require Import Prelude.

Record Timespec := mkTimespec { tv_sec : Z; tv_nsec : Z }.

#[export] Instance Timespec_eq_dec : EqDecision Timespec.
Proof. solve_decision. Defined.

Definition NSEC : Z := 1000 * 1000 * 1000.

(** The constructor [Timespec(int64_t sec, int32_t nsec)] with its normalisation. *)
Definition Timespec_new (sec nsec : Z) : Timespec :=
  let tv_sec := i64 sec in
  let tv_nsec := i32 nsec in
  let tv_sec := i64 (tv_sec + Z.quot tv_nsec NSEC) in
  let tv_nsec := Z.rem tv_nsec NSEC in
  if ((0 <? tv_sec) && (tv_nsec <? 0))%bool
  then mkTimespec (tv_sec - 1) (tv_nsec + NSEC)
  else mkTimespec tv_sec tv_nsec.

Definition ZERO : Timespec := Timespec_new 0 0.

Definition ms (v : Z) : Timespec :=
  Timespec_new (Z.quot v 1000) (Z.rem v 1000 * 1000 * 1000).

Definition ts_add (a b : Timespec) : Timespec :=
  Timespec_new (tv_sec a + tv_sec b) (tv_nsec a + tv_nsec b).
Definition ts_sub (a b : Timespec) : Timespec :=
  Timespec_new (tv_sec a - tv_sec b) (tv_nsec a - tv_nsec b).
Definition ts_gt (a b : Timespec) : bool :=
  ((tv_sec b <? tv_sec a) || ((tv_sec a =? tv_sec b) && (tv_nsec b <? tv_nsec a)))%bool.
Definition ts_ge (a b : Timespec) : bool :=
  ((tv_sec b <? tv_sec a) || ((tv_sec a =? tv_sec b) && (tv_nsec b <=? tv_nsec a)))%bool.

(** [Deadline]: a [Timespec] where zero means "none". *)
Record Deadline := mkDeadline { v : Timespec }.
Definition Deadline_none : Deadline := mkDeadline (Timespec_new 0 0).
Definition is_set (d : Deadline) : bool :=
  (negb (tv_sec (v d) =? 0) || negb (tv_nsec (v d) =? 0))%bool.

(** [b < *this] between two [Deadline]s: neither [Deadline] nor [Timespec]
    declares [operator<], so both sides convert through [operator bool] and the
    built-in comparison of the promoted booleans is used. *)
Definition deadline_lt (a b : Deadline) : bool := Z.b2z (is_set a) <? Z.b2z (is_set b).

Definition deadline_or (this b : Deadline) : Deadline :=
  if (negb (is_set this) || (is_set b && deadline_lt b this))%bool then b else this.

(** ** Meaning *)

Definition to_ns (t : Timespec) : Z := tv_sec t * NSEC + tv_nsec t.

(** What the kernel's clocks deliver and the emulator computes with. *)
Definition normal (t : Timespec) : Prop := 0 <= tv_sec t < 2 ^ 62 /\ 0 <= tv_nsec t < NSEC.

Lemma Timespec_new_ns sec nsec :
  - 2 ^ 62 <= sec < 2 ^ 63 - 4 -> - 2 ^ 31 <= nsec < 2 ^ 31 ->
  to_ns (Timespec_new sec nsec) = sec * NSEC + nsec.
Proof.
  intros Hs Hn. unfold Timespec_new, to_ns, NSEC in *.
  rewrite (wraps_small 64 sec), (wraps_small 32 nsec) by lia.
  rewrite wraps_small by zlia.
  destruct (_ && _)%bool; simpl; zlia.
Qed.

Lemma Timespec_new_normal sec nsec :
  0 <= sec < 2 ^ 62 - 4 -> - 2 ^ 31 <= nsec < 2 ^ 31 -> 0 <= sec * NSEC + nsec ->
  normal (Timespec_new sec nsec).
Proof.
  intros Hs Hn Hp. unfold Timespec_new, normal, NSEC in *.
  rewrite (wraps_small 64 sec), (wraps_small 32 nsec) by lia.
  rewrite wraps_small by zlia.
  destruct (_ && _)%bool eqn:E; simpl; [to_prop; zlia|].
  destruct (Z.ltb_spec 0 (sec + nsec ÷ (1000 * 1000 * 1000))); simpl in E; to_prop; zlia.
Qed.

Lemma ts_ge_ns a b : normal a -> normal b -> ts_ge a b = (to_ns b <=? to_ns a).
Proof.
  unfold normal, ts_ge, to_ns, NSEC. intros Ha Hb.
  destruct (Z.leb_spec (tv_sec b * (1000 * 1000 * 1000) + tv_nsec b)
                       (tv_sec a * (1000 * 1000 * 1000) + tv_nsec a));
  destruct (Z.ltb_spec (tv_sec b) (tv_sec a)); simpl; try lia;
  destruct (Z.eqb_spec (tv_sec a) (tv_sec b)); simpl; try lia;
  destruct (Z.leb_spec (tv_nsec b) (tv_nsec a)); lia.
Qed.

Lemma ms_ns n : 0 <= n < 2 ^ 50 -> to_ns (ms n) = n * 1000 * 1000.
Proof.
  intros Hn. unfold ms. rewrite Timespec_new_ns.
  - unfold NSEC. zlia.
  - zlia.
  - zlia.
Qed.

(** ** Properties *)

(** Clock arithmetic is exact and stays normalised: sums, and differences
    of a later and an earlier time, denote the sum and difference in
    nanoseconds, and [>=] compares those values. *)
Theorem timespec_arith a b :
  normal a -> normal b -> tv_sec a < 2 ^ 60 -> tv_sec b < 2 ^ 60 ->
  to_ns (ts_add a b) = to_ns a + to_ns b /\ normal (ts_add a b) /\
  (ts_ge a b = true -> to_ns (ts_sub a b) = to_ns a - to_ns b /\ normal (ts_sub a b)) /\
  ts_ge a b = (to_ns b <=? to_ns a).
Proof.
  intros Ha Hb Hsa Hsb. pose proof (ts_ge_ns a b Ha Hb) as Hge.
  unfold normal in Ha, Hb. assert (HN : NSEC = 1000000000) by reflexivity.
  unfold ts_add, ts_sub.
  split; [rewrite Timespec_new_ns by lia; unfold to_ns; lia|].
  split; [apply Timespec_new_normal; lia|].
  split; [|done]. rewrite Hge, Z.leb_le. unfold to_ns at 1 2. intros Hle.
  split; [rewrite Timespec_new_ns by lia; unfold to_ns; lia|].
  apply Timespec_new_normal; lia.
Qed.

Lemma timespec_arith_witness :
  to_ns (ts_sub (mkTimespec 5 200) (mkTimespec 4 999999999)) = 201.
Proof.
  assert (H := timespec_arith (mkTimespec 5 200) (mkTimespec 4 999999999)).
  apply H; unfold normal, NSEC; simpl; try lia. reflexivity.
Defined.

(** [Deadline::operator|=] takes over the other deadline when it has none
    itself, and otherwise keeps its own: it never moves an already set deadline
    to an earlier one, contrary to its comment (two set deadlines compare equal
    through [operator bool]). *)
Theorem deadline_or_keeps_set this b :
  deadline_or this b = if is_set this then this else b.
Proof.
  unfold deadline_or, deadline_lt.
  destruct (is_set this), (is_set b); reflexivity.
Qed.
