(* ===== verification/Sigset.v ===== *)
(** * Sigset: [qnx_sigset.h], [qnx_sigset.cpp] and [qnx/signal.h]

    QNX signal masks (bit [signo - 1] of a 32-bit word) and the translation of
    signal numbers and masks between Linux and QNX.  A host [sigset_t] is a
    finite set of host signal numbers. *)

From S2P Require Import Prelude.

(** ** QNX signal numbers ([qnx/signal.h]) *)
Module Qnx.
Definition QSIGHUP := 1.
Definition QSIGINT := 2.
Definition QSIGQUIT := 3.
Definition QSIGILL := 4.
Definition QSIGTRAP := 5.
Definition QSIGIOT := 6.
Definition QSIGABRT := 6.
Definition QSIGEMT := 7.
Definition QSIGFPE := 8.
Definition QSIGKILL := 9.
Definition QSIGBUS := 10.
Definition QSIGSEGV := 11.
Definition QSIGSYS := 12.
Definition QSIGPIPE := 13.
Definition QSIGALRM := 14.
Definition QSIGTERM := 15.
Definition QSIGUSR1 := 16.
Definition QSIGUSR2 := 17.
Definition QSIGCHLD := 18.
Definition QSIGPWR := 19.
Definition QSIGWINCH := 20.
Definition QSIGURG := 21.
Definition QSIGPOLL := 22.
Definition QSIGIO := 22.
Definition QSIGSTOP := 23.
Definition QSIGTSTP := 24.
Definition QSIGCONT := 25.
Definition QSIGTTIN := 26.
Definition QSIGTTOU := 27.
Definition QSIGDEV := 28.
Definition QSIGMAX := 32.
Definition QSIGMIN := 1.
Definition QSIG_ERR := 4294967295.
Definition QSIG_DFL := 0.
Definition QSIG_IGN := 1.
Definition QSIG_HOLD := 2.
End Qnx.

(** ** Linux signal numbers (x86 [asm/signal.h]) *)
Module Host.
Definition SIGHUP := 1.
Definition SIGINT := 2.
Definition SIGQUIT := 3.
Definition SIGILL := 4.
Definition SIGTRAP := 5.
Definition SIGIOT := 6.
Definition SIGBUS := 7.
Definition SIGFPE := 8.
Definition SIGKILL := 9.
Definition SIGUSR1 := 10.
Definition SIGSEGV := 11.
Definition SIGUSR2 := 12.
Definition SIGPIPE := 13.
Definition SIGALRM := 14.
Definition SIGTERM := 15.
Definition SIGCHLD := 17.
Definition SIGCONT := 18.
Definition SIGSTOP := 19.
Definition SIGTTIN := 21.
Definition SIGTTOU := 22.
Definition SIGURG := 23.
Definition SIGWINCH := 28.
Definition SIGIO := 29.
Definition SIGPWR := 30.
Definition SIGSYS := 31.
End Host.

(** The [SIG_MAP] macro: pairs (host, qnx). *)
Definition SIG_MAP : list (Z * Z) :=
  [ (Host.SIGHUP, Qnx.QSIGHUP); (Host.SIGINT, Qnx.QSIGINT); (Host.SIGQUIT, Qnx.QSIGQUIT);
    (Host.SIGILL, Qnx.QSIGILL); (Host.SIGTRAP, Qnx.QSIGTRAP); (Host.SIGIOT, Qnx.QSIGIOT);
    (Host.SIGFPE, Qnx.QSIGFPE); (Host.SIGKILL, Qnx.QSIGKILL); (Host.SIGBUS, Qnx.QSIGBUS);
    (Host.SIGSEGV, Qnx.QSIGSEGV); (Host.SIGSYS, Qnx.QSIGSYS); (Host.SIGPIPE, Qnx.QSIGPIPE);
    (Host.SIGALRM, Qnx.QSIGALRM); (Host.SIGTERM, Qnx.QSIGTERM); (Host.SIGUSR1, Qnx.QSIGUSR1);
    (Host.SIGUSR2, Qnx.QSIGUSR2); (Host.SIGCHLD, Qnx.QSIGCHLD); (Host.SIGPWR, Qnx.QSIGPWR);
    (Host.SIGWINCH, Qnx.QSIGWINCH); (Host.SIGURG, Qnx.QSIGURG); (Host.SIGIO, Qnx.QSIGIO);
    (Host.SIGSTOP, Qnx.QSIGSTOP); (Host.SIGCONT, Qnx.QSIGCONT); (Host.SIGTTIN, Qnx.QSIGTTIN);
    (Host.SIGTTOU, Qnx.QSIGTTOU) ].

(** A [switch] over the rows of a macro table, with the [default] result [d]. *)
Fixpoint switch_map (tbl : list (Z * Z)) (d v : Z) : Z :=
  match tbl with
  | [] => d
  | (k, r) :: tbl => if v =? k then r else switch_map tbl d v
  end.

Definition map_sig_host_to_qnx (sig : Z) : Z := switch_map SIG_MAP (-1) sig.
Definition map_sig_qnx_to_host (sig : Z) : Z :=
  switch_map (map (fun '(h, q) => (q, h)) SIG_MAP) (-1) sig.

(** ** [QnxSigset]: the 32-bit value *)

Definition get_qnx_mask (signo : Z) : outcome Z :=
  _ ← check ((Qnx.QSIGMIN <=? signo) && (signo <=? Qnx.QSIGMAX)) AssertFailed;
  Ok (u32 (Z.shiftl 1 (signo - Qnx.QSIGMIN))).

Definition set_qnx_sig (m_value signo : Z) : outcome Z :=
  mask ← get_qnx_mask signo; Ok (Z.lor m_value mask).
Definition clear_qnx_sig (m_value signo : Z) : outcome Z :=
  mask ← get_qnx_mask signo; Ok (Z.land m_value (u32 (Z.lnot mask))).
Definition test_qnx_sig (m_value signo : Z) : outcome bool :=
  mask ← get_qnx_mask signo; Ok (negb (Z.land m_value mask =? 0)).

Definition modify (m_value mask bits : Z) : Z :=
  Z.lor (Z.land m_value (u32 (Z.lnot mask))) (Z.land bits mask).

Definition is_empty (m_value : Z) : bool := m_value =? 0.

(** The signal numbers the [for] loops run through. *)
Definition all_sigs : list Z := seqZ Qnx.QSIGMIN (Qnx.QSIGMAX - Qnx.QSIGMIN + 1).

Fixpoint find_first_loop (m_value : Z) (sigs : list Z) : outcome Z :=
  match sigs with
  | [] => Ok (-1)
  | qnx_sig :: sigs =>
      b ← test_qnx_sig m_value qnx_sig;
      if (b : bool) then Ok qnx_sig else find_first_loop m_value sigs
  end.
Definition find_first (m_value : Z) : outcome Z := find_first_loop m_value all_sigs.

Fixpoint to_host_loop (m_value : Z) (acc : gset Z) (sigs : list Z) : outcome (gset Z) :=
  match sigs with
  | [] => Ok acc
  | sig :: sigs =>
      let host_sig := map_sig_qnx_to_host sig in
      if host_sig <? 0 then to_host_loop m_value acc sigs
      else b ← test_qnx_sig m_value sig;
           to_host_loop m_value (if (b : bool) then {[ host_sig ]} ∪ acc else acc) sigs
  end.
Definition map_to_host_sigset (m_value : Z) : outcome (gset Z) := to_host_loop m_value ∅ all_sigs.

Fixpoint to_qnx_loop (host_set : gset Z) (acc : Z) (sigs : list Z) : outcome Z :=
  match sigs with
  | [] => Ok acc
  | sig :: sigs =>
      let host_sig := map_sig_qnx_to_host sig in
      if host_sig <? 0 then to_qnx_loop host_set acc sigs
      else if bool_decide (host_sig ∈ host_set)
      then mask ← get_qnx_mask sig; to_qnx_loop host_set (Z.lor acc mask) sigs
      else to_qnx_loop host_set acc sigs
  end.
Definition map_sigmask_host_to_qnx (host_set : gset Z) : outcome Z :=
  to_qnx_loop host_set 0 all_sigs.

(** ** Bits of a mask *)

Definition sig_ok (s : Z) : Prop := Qnx.QSIGMIN <= s <= Qnx.QSIGMAX.

Lemma elem_of_all_sigs s : s ∈ all_sigs <-> sig_ok s.
Proof. unfold all_sigs, sig_ok, Qnx.QSIGMIN, Qnx.QSIGMAX. rewrite elem_of_seqZ. lia. Qed.

Lemma get_qnx_mask_ok s : sig_ok s -> get_qnx_mask s = Ok (2 ^ (s - 1)).
Proof.
  unfold sig_ok, get_qnx_mask, Qnx.QSIGMIN, Qnx.QSIGMAX. intros H.
  destruct (Z.leb_spec 1 s), (Z.leb_spec s 32); try lia. simpl.
  rewrite Z.shiftl_1_l, wrapu_small; [done|].
  split; [apply Z.pow_nonneg; lia|]. apply Z.pow_lt_mono_r; lia.
Qed.

Lemma land_pow2_testbit v n : 0 <= n -> negb (Z.land v (2 ^ n) =? 0) = Z.testbit v n.
Proof.
  intros Hn. destruct (Z.testbit v n) eqn:E.
  - rewrite negb_true_iff. apply Z.eqb_neq. intros H0.
    assert (Hb : Z.testbit (Z.land v (2 ^ n)) n = true)
      by (rewrite Z.land_spec, E, Z.pow2_bits_true by lia; done).
    rewrite H0, Z.bits_0 in Hb. done.
  - rewrite negb_false_iff. apply Z.eqb_eq. apply Z.bits_inj_0. intros k.
    rewrite Z.land_spec, Z.pow2_bits_eqb by lia.
    destruct (Z.eqb_spec n k) as [-> |]; [by rewrite E|]. apply andb_false_r.
Qed.

Lemma test_qnx_sig_ok v s : sig_ok s -> test_qnx_sig v s = Ok (Z.testbit v (s - 1)).
Proof.
  intros H. unfold test_qnx_sig. rewrite get_qnx_mask_ok by done. simpl.
  rewrite land_pow2_testbit; [done|]. unfold sig_ok, Qnx.QSIGMIN in H. lia.
Qed.

Lemma testbit_u32 z n : Z.testbit (u32 z) n = ((n <? 32) && Z.testbit z n)%bool.
Proof.
  unfold wrapu. destruct (Z.ltb_spec n 0).
  - rewrite !Z.testbit_neg_r by lia. by rewrite andb_false_r.
  - destruct (Z.ltb_spec n 32).
    + by rewrite Z.mod_pow2_bits_low.
    + by rewrite Z.mod_pow2_bits_high by lia.
Qed.

Lemma testbit_beyond v n : 0 <= v < 2 ^ 32 -> 32 <= n -> Z.testbit v n = false.
Proof.
  intros Hv Hn. replace v with (u32 v) by (apply wrapu_small; lia).
  rewrite testbit_u32. by destruct (Z.ltb_spec n 32); [lia|].
Qed.

(** Two masks with the same signals are equal. *)
Lemma mask_ext v w :
  0 <= v < 2 ^ 32 -> 0 <= w < 2 ^ 32 ->
  (forall s, sig_ok s -> Z.testbit v (s - 1) = Z.testbit w (s - 1)) -> v = w.
Proof.
  intros Hv Hw H. apply Z.bits_inj'. intros n Hn. destruct (decide (n < 32)).
  - replace n with (n + 1 - 1) by lia. apply H. unfold sig_ok, Qnx.QSIGMIN, Qnx.QSIGMAX. lia.
  - by rewrite !testbit_beyond by lia.
Qed.

Lemma lor_range v w : 0 <= v < 2 ^ 32 -> 0 <= w < 2 ^ 32 -> 0 <= Z.lor v w < 2 ^ 32.
Proof.
  intros Hv Hw. replace (Z.lor v w) with (u32 (Z.lor v w)); [apply wrapu_range; lia|].
  apply Z.bits_inj'. intros n Hn. rewrite testbit_u32, Z.lor_spec.
  destruct (Z.ltb_spec n 32); [done|]. by rewrite !testbit_beyond by lia.
Qed.

Lemma land_range v w : 0 <= v < 2 ^ 32 -> 0 <= Z.land v w < 2 ^ 32.
Proof.
  intros Hv. replace (Z.land v w) with (u32 (Z.land v w)); [apply wrapu_range; lia|].
  apply Z.bits_inj'. intros n Hn. rewrite testbit_u32, Z.land_spec.
  destruct (Z.ltb_spec n 32); [done|]. by rewrite testbit_beyond by lia.
Qed.

Lemma modify_testbit v m b n :
  0 <= n -> Z.testbit (modify v m b) n =
    if Z.testbit m n then Z.testbit b n else (Z.testbit v n && (n <? 32))%bool.
Proof.
  intros Hn. unfold modify. rewrite Z.lor_spec, !Z.land_spec, testbit_u32, Z.lnot_spec by lia.
  destruct (Z.testbit m n), (Z.testbit v n), (Z.testbit b n), (n <? 32); done.
Qed.

Lemma find_first_loop_spec v sigs :
  Forall sig_ok sigs ->
  (exists pre s post, sigs = pre ++ s :: post /\ find_first_loop v sigs = Ok s /\
     Z.testbit v (s - 1) = true /\ Forall (fun s => Z.testbit v (s - 1) = false) pre)
  \/ (find_first_loop v sigs = Ok (-1) /\ Forall (fun s => Z.testbit v (s - 1) = false) sigs).
Proof.
  induction 1 as [|s sigs Hs _ IH]; [right; done|].
  simpl. rewrite test_qnx_sig_ok by done. simpl.
  destruct (Z.testbit v (s - 1)) eqn:E.
  - left. exists [], s, sigs. by repeat split; auto.
  - destruct IH as [(pre & s' & post & -> & Hf & Ht & Hp)|[Hf Hp]].
    + left. exists (s :: pre), s', post. repeat split; auto.
    + right. auto.
Qed.

Lemma all_sigs_ok : Forall sig_ok all_sigs.
Proof. apply Forall_forall. intros s. by rewrite elem_of_all_sigs. Qed.

(** The loops visit the signals in increasing order. *)
Lemma all_sigs_order pre s post t : all_sigs = pre ++ s :: post -> t ∈ s :: post -> s <= t.
Proof.
  intros Hl Ht. apply list_elem_of_lookup in Ht as [k Hk].
  assert (H1 : all_sigs !! (length pre + 0)%nat = Some s)
    by (rewrite Hl, lookup_app_r by lia; by replace (length pre + 0 - length pre)%nat with 0%nat by lia).
  assert (H2 : all_sigs !! (length pre + k)%nat = Some t)
    by (rewrite Hl, lookup_app_r by lia; by replace (length pre + k - length pre)%nat with k by lia).
  apply lookup_seqZ in H1 as [-> _], H2 as [-> _]. lia.
Qed.

(** ** The translation tables *)

Lemma qnx_to_host_range s : map_sig_qnx_to_host s = -1 \/ 1 <= map_sig_qnx_to_host s <= 31.
Proof.
  unfold map_sig_qnx_to_host. simpl.
  repeat match goal with |- context [if ?b then _ else _] => destruct b end;
    first [by left | right; vm_compute; split; discriminate].
Qed.

Lemma qnx_to_host_inj s t :
  map_sig_qnx_to_host s <> -1 -> map_sig_qnx_to_host s = map_sig_qnx_to_host t -> s = t.
Proof.
  assert (Hr : forall s, map_sig_qnx_to_host s <> -1 ->
               map_sig_host_to_qnx (map_sig_qnx_to_host s) = s).
  { intros u. unfold map_sig_qnx_to_host. simpl.
    repeat match goal with |- context [if ?b then _ else _] => destruct b eqn:? end;
      to_prop; intros Hne; try done; subst; reflexivity. }
  intros Hs He. rewrite <- (Hr s Hs), He. apply Hr. congruence.
Qed.

Lemma qnx_to_host_sig_ok s : map_sig_qnx_to_host s <> -1 -> sig_ok s.
Proof.
  unfold map_sig_qnx_to_host. simpl.
  repeat match goal with |- context [if ?b then _ else _] => destruct b eqn:? end;
    to_prop; intros Hne; try done; subst; vm_compute; split; discriminate.
Qed.

(** Translating a signal number to the other side and back gives the same
    number, for every number either table knows; a signal one table does not
    know has no image. *)
Theorem sig_number_roundtrip s :
  (map_sig_host_to_qnx s <> -1 -> map_sig_qnx_to_host (map_sig_host_to_qnx s) = s) /\
  (map_sig_qnx_to_host s <> -1 -> map_sig_host_to_qnx (map_sig_qnx_to_host s) = s).
Proof.
  unfold map_sig_host_to_qnx at 1 2, map_sig_qnx_to_host at 2 3. simpl. split;
    repeat match goal with |- context [if ?b then _ else _] => destruct b eqn:? end;
      to_prop; intros Hne; try done; subst; reflexivity.
Qed.

#[local] Opaque map_sig_qnx_to_host map_sig_host_to_qnx.

Lemma to_host_loop_spec v sigs acc :
  Forall sig_ok sigs ->
  exists r, to_host_loop v acc sigs = Ok r /\
    forall h, h ∈ r <-> h ∈ acc \/
      exists s, s ∈ sigs /\ map_sig_qnx_to_host s = h /\ 0 <= h /\ Z.testbit v (s - 1) = true.
Proof.
  intros H. revert acc. induction H as [|s sigs Hs _ IH]; intros acc.
  - exists acc. split; [done|]. set_solver.
  - simpl. destruct (Z.ltb_spec (map_sig_qnx_to_host s) 0).
    + destruct (IH acc) as (r & -> & Hr). exists r. split; [done|]. intros h. rewrite Hr.
      split; [intros [?|(t & Ht & Hx)]; [by left|]; right; exists t; rewrite elem_of_cons; tauto|].
      intros [?|(t & Ht & <- & Hp & Hb)]; [by left|].
      apply elem_of_cons in Ht as [-> |Ht]; [lia|eauto 10].
    + rewrite test_qnx_sig_ok by done. simpl.
      destruct (IH (if Z.testbit v (s - 1) then {[map_sig_qnx_to_host s]} ∪ acc else acc))
        as (r & -> & Hr).
      exists r. split; [done|]. intros h. rewrite Hr.
      assert (Hin : h ∈ (if Z.testbit v (s - 1) then {[map_sig_qnx_to_host s]} ∪ acc else acc) <->
                    h ∈ acc \/ (map_sig_qnx_to_host s = h /\ Z.testbit v (s - 1) = true)).
      { destruct (Z.testbit v (s - 1)); [|naive_solver].
        rewrite elem_of_union, elem_of_singleton. naive_solver. }
      rewrite Hin. setoid_rewrite elem_of_cons. clear Hin Hr IH. naive_solver lia.
Qed.

Lemma to_qnx_loop_spec (hs : gset Z) sigs acc :
  Forall sig_ok sigs -> 0 <= acc < 2 ^ 32 ->
  exists r, to_qnx_loop hs acc sigs = Ok r /\ 0 <= r < 2 ^ 32 /\
    forall s, sig_ok s -> Z.testbit r (s - 1) =
      (Z.testbit acc (s - 1) || (bool_decide (s ∈ sigs) && bool_decide (0 <= map_sig_qnx_to_host s)
         && bool_decide (map_sig_qnx_to_host s ∈ hs)))%bool.
Proof.
  intros H. revert acc. induction H as [|s sigs Hs Hss IH]; intros acc Hacc.
  - exists acc. split; [done|]. split; [done|]. intros t Ht.
    rewrite (bool_decide_eq_false_2 (t ∈ [])) by set_solver. by rewrite orb_false_r.
  - assert (Hcons : forall t, bool_decide (t ∈ s :: sigs) = (bool_decide (t = s) || bool_decide (t ∈ sigs))%bool).
    { intros t. rewrite <- bool_decide_or. apply bool_decide_ext. apply elem_of_cons. }
    simpl. destruct (Z.ltb_spec (map_sig_qnx_to_host s) 0).
    + destruct (IH acc Hacc) as (r & -> & Hrr & Hr). exists r. split; [done|]. split; [done|].
      intros t Ht. rewrite Hr, Hcons by done. destruct (decide (t = s)) as [-> |Hne].
      * rewrite (bool_decide_eq_false_2 (0 <= _)) by lia. by rewrite !andb_false_r.
      * by rewrite (bool_decide_eq_false_2 (t = s)).
    + rewrite get_qnx_mask_ok by done. simpl.
      assert (Hb : forall t, sig_ok t -> Z.testbit (2 ^ (s - 1)) (t - 1) = bool_decide (t = s)).
      { intros t Ht. unfold sig_ok, Qnx.QSIGMIN in *. rewrite Z.pow2_bits_eqb by lia.
        destruct (Z.eqb_spec (s - 1) (t - 1)); symmetry;
          [apply bool_decide_eq_true_2 | apply bool_decide_eq_false_2]; lia. }
      assert (Hp : 0 <= 2 ^ (s - 1) < 2 ^ 32).
      { unfold sig_ok, Qnx.QSIGMIN, Qnx.QSIGMAX in Hs.
        split; [apply Z.pow_nonneg; lia|]. apply Z.pow_lt_mono_r; lia. }
      case_bool_decide as Hin.
      * destruct (IH (Z.lor acc (2 ^ (s - 1)))) as (r & -> & Hrr & Hr); [by apply lor_range|].
        exists r. split; [done|]. split; [done|]. intros t Ht.
        rewrite Hr, Hcons, Z.lor_spec, Hb by done.
        destruct (decide (t = s)) as [-> |Hne].
        -- rewrite (bool_decide_eq_true_2 (s = s)), (bool_decide_eq_true_2 (0 <= _)),
             (bool_decide_eq_true_2 (_ ∈ hs)) by (done || lia).
           simpl. by rewrite orb_true_r.
        -- by rewrite (bool_decide_eq_false_2 (t = s)), orb_false_r.
      * destruct (IH acc Hacc) as (r & -> & Hrr & Hr).
        exists r. split; [done|]. split; [done|]. intros t Ht. rewrite Hr, Hcons by done.
        destruct (decide (t = s)) as [-> |Hne].
        -- by rewrite (bool_decide_eq_false_2 (map_sig_qnx_to_host s ∈ hs)), !andb_false_r by done.
        -- by rewrite (bool_decide_eq_false_2 (t = s)).
Qed.

(** ** Properties *)

(** Converting a QNX mask to a host mask and back keeps exactly the signals
    that exist on both sides, and the host mask holds exactly their images. *)
Theorem sigmask_roundtrip v :
  0 <= v < 2 ^ 32 ->
  exists hs v', map_to_host_sigset v = Ok hs /\ map_sigmask_host_to_qnx hs = Ok v' /\
    0 <= v' < 2 ^ 32 /\
    (forall s, sig_ok s -> Z.testbit v' (s - 1) =
       (Z.testbit v (s - 1) && negb (map_sig_qnx_to_host s =? -1))%bool) /\
    (forall h, h ∈ hs <-> exists s, map_sig_qnx_to_host s = h /\ h <> -1 /\ Z.testbit v (s - 1) = true).
Proof.
  intros Hv. destruct (to_host_loop_spec v all_sigs ∅ all_sigs_ok) as (hs & Hhs & Hel).
  destruct (to_qnx_loop_spec hs all_sigs 0 all_sigs_ok) as (v' & Hv' & Hr & Hb); [lia|].
  assert (Hmem : forall h, h ∈ hs <-> exists s, map_sig_qnx_to_host s = h /\ h <> -1 /\
                   Z.testbit v (s - 1) = true).
  { intros h. rewrite Hel. split.
    - intros [Hemp|(s & Hs & <- & Hp & Ht)]; [exfalso; exact (not_elem_of_empty h Hemp)|]. exists s. split; [reflexivity|]. split; [lia|exact Ht].
    - intros (s & <- & Hne & Ht). right. exists s.
      rewrite elem_of_all_sigs. destruct (qnx_to_host_range s) as [He|He]; [by destruct Hne|].
      split; [by apply qnx_to_host_sig_ok|]. split; [reflexivity|]. split; [lia|exact Ht]. }
  exists hs, v'. split; [exact Hhs|]. split; [exact Hv'|]. split; [exact Hr|].
  split; [|exact Hmem].
  intros s Hs. rewrite (Hb s Hs), Z.bits_0. simpl.
  rewrite (bool_decide_eq_true_2 (s ∈ all_sigs)) by by rewrite elem_of_all_sigs.
  destruct (Z.eqb_spec (map_sig_qnx_to_host s) (-1)) as [He|Hne].
  - rewrite (bool_decide_eq_false_2 (0 <= _)) by lia. simpl. symmetry. apply andb_false_r.
  - rewrite (bool_decide_eq_true_2 (0 <= _)) by (destruct (qnx_to_host_range s); lia).
    simpl. rewrite andb_true_r. destruct (Z.testbit v (s - 1)) eqn:E.
    + apply bool_decide_eq_true_2, Hmem. eauto.
    + apply bool_decide_eq_false_2. rewrite Hmem. intros (t & Ht & _ & Hb').
      symmetry in Ht. apply qnx_to_host_inj in Ht; [|done]. congruence.
Qed.

Lemma sigmask_roundtrip_witness :
  0 <= 8388673 < 2 ^ 32 /\
  exists hs v', map_to_host_sigset 8388673 = Ok hs /\ map_sigmask_host_to_qnx hs = Ok v' /\
    0 <= v' < 2 ^ 32 /\
    (forall s, sig_ok s -> Z.testbit v' (s - 1) =
       (Z.testbit 8388673 (s - 1) && negb (map_sig_qnx_to_host s =? -1))%bool) /\
    (forall h, h ∈ hs <-> exists s, map_sig_qnx_to_host s = h /\ h <> -1 /\ Z.testbit 8388673 (s - 1) = true).
Proof. split; [lia|]. apply (sigmask_roundtrip 8388673). lia. Defined.

(** [find_first] picks the lowest pending signal (or -1 for none), and
    clearing it with [clear_qnx_sig] removes that signal and no other. *)
Theorem find_first_clear v :
  0 <= v < 2 ^ 32 ->
  exists s, find_first v = Ok s /\
    ((v = 0 /\ s = -1) \/
     (sig_ok s /\ Z.testbit v (s - 1) = true /\
      (forall t, sig_ok t -> t < s -> Z.testbit v (t - 1) = false) /\
      exists v', clear_qnx_sig v s = Ok v' /\ 0 <= v' < 2 ^ 32 /\
        forall t, sig_ok t -> Z.testbit v' (t - 1) = (Z.testbit v (t - 1) && negb (t =? s))%bool)).
Proof.
  intros Hv. unfold find_first.
  destruct (find_first_loop_spec v all_sigs all_sigs_ok)
    as [(pre & s & post & Hl & Hf & Ht & Hp)|[Hf Hp]]; rewrite Hf; eexists; split; try done.
  - right. assert (Hs : sig_ok s) by (apply elem_of_all_sigs; rewrite Hl; set_solver).
    split; [done|]. split; [done|]. split.
    + intros t Hto Hlt. apply (proj1 (Forall_forall _ _) Hp).
      apply elem_of_all_sigs in Hto. rewrite Hl in Hto.
      apply elem_of_app in Hto as [|Hin]; [done|]. exfalso.
      pose proof (all_sigs_order pre s post t Hl Hin). lia.
    + unfold clear_qnx_sig. rewrite get_qnx_mask_ok by done. simpl. eexists. split; [done|].
      split; [by apply land_range|]. intros t Hto.
      unfold sig_ok, Qnx.QSIGMIN, Qnx.QSIGMAX in *.
      rewrite Z.land_spec, testbit_u32, Z.lnot_spec, Z.pow2_bits_eqb by lia.
      destruct (Z.ltb_spec (t - 1) 32); [|lia]. simpl. f_equal. f_equal.
      destruct (Z.eqb_spec (s - 1) (t - 1)), (Z.eqb_spec t s); lia || done.
  - left. split; [|done]. apply mask_ext; [done|lia|]. intros s Hs.
    rewrite Z.bits_0. apply (proj1 (Forall_forall _ _) Hp). by apply elem_of_all_sigs.
Qed.

Lemma find_first_clear_witness :
  0 <= 72 < 2 ^ 32 /\ exists s, find_first 72 = Ok s /\ s = 4.
Proof.
  split; [lia|]. destruct (find_first_clear 72) as (s & Hs & _); [lia|].
  exists s. split; [exact Hs|]. vm_compute in Hs. congruence.
Defined.
