(* ===== verification/CmdOpts.v ===== *)
(** * CmdOpts: [cmd_opts.h], [cmd_opts.cpp]

    The parser of comma-separated option arguments.  A [Value] is a handler
    that consumes one part of the argument and updates the caller's variables
    (the state [S]); the destinations of [String], [Integer] and [Flag] are
    setters into [S]. *)

From S2P Require Import Prelude Types.

Definition COMMA : Z := 44.
Definition EQUALS : Z := 61.

(** [string_view::find(c, pos)] on the rest of the view. *)
Fixpoint find_char (c : Z) (s : cstring) : option nat :=
  match s with
  | [] => None
  | b :: s => if b =? c then Some O else S <$> find_char c s
  end.

Lemma find_char_Some c s i :
  find_char c s = Some i <-> exists a b, s = a ++ c :: b /\ length a = i /\ c ∉ a.
Proof.
  revert i. induction s as [|x s IH]; intros i; simpl.
  - split; [done|]. intros (a & b & H & _). by destruct a.
  - destruct (Z.eqb_spec x c) as [-> |Hne].
    + split.
      * intros [= <-]. exists [], s. repeat split. apply not_elem_of_nil.
      * intros (a & b & H & Hl & Hn). destruct a as [|y a]; simpl in *; [by subst|].
        injection H as -> _. exfalso. apply Hn. left.
    + rewrite fmap_Some. split.
      * intros (j & Hj & ->). apply IH in Hj as (a & b & -> & <- & Hn).
        exists (x :: a), b. repeat split. rewrite not_elem_of_cons. by split.
      * intros (a & b & H & Hl & Hn). destruct a as [|y a]; simpl in *; [by injection H as ->|].
        injection H as -> ->. exists (length a). split; [|done].
        apply IH. exists a, b. repeat split. rewrite not_elem_of_cons in Hn. by destruct Hn.
Qed.

Lemma find_char_None c s : find_char c s = None <-> c ∉ s.
Proof.
  induction s as [|x s IH]; simpl.
  - split; [intros _; apply not_elem_of_nil|done].
  - rewrite not_elem_of_cons. destruct (Z.eqb_spec x c) as [-> |Hne]; [naive_solver|].
    rewrite fmap_None, IH. naive_solver.
Qed.

(** ** [Tokenizer] *)

Record Tokenizer := mkTokenizer { tv : cstring; tpos : nat }.

Definition tk_eof (t : Tokenizer) : bool := (length (tv t) <=? tpos t)%nat.

Definition tk_next (t : Tokenizer) : cstring * Tokenizer :=
  match find_char COMMA (drop (tpos t) (tv t)) with
  | None => (drop (tpos t) (tv t), mkTokenizer (tv t) (length (tv t)))
  | Some k => (take k (drop (tpos t) (tv t)), mkTokenizer (tv t) (tpos t + k + 1))
  end.

(** ** [parse] *)

Section Parse.
Context {S : Type}.

Definition Value := cstring -> M S unit.

(** [KwArg]: a key and the value handler it delegates to. *)
Record KwArg := mkKwArg { kw_key : cstring; kw_value : Value }.
Record Part := mkPart { p_key : cstring; p_value : cstring }.
Record CommandSpec := mkCommandSpec { core : list Value; kwargs : list KwArg }.

Definition KwArg_handle (a : KwArg) (part : Part) : M S bool :=
  if bool_decide (p_key part = kw_key a)
  then (_ ← kw_value a (p_value part); mret true)
  else mret false.

(** The [for] over [spec.core]. [argi] is never incremented. *)
Fixpoint parse_core (argi : Z) (specs : list Value) (t : Tokenizer) : M S Tokenizer :=
  match specs with
  | [] => mret t
  | spec :: specs =>
      if tk_eof t then
        if argi =? 1 then throw (ConfigurationError "Argument missing")
        else throw (ConfigurationError "Argument part not given")
      else
        let '(s, t) := tk_next t in
        _ ← spec s;
        parse_core argi specs t
  end.

Fixpoint handle_kw (specs : list KwArg) (p : Part) : M S bool :=
  match specs with
  | [] => mret false
  | spec :: specs =>
      b ← KwArg_handle spec p;
      if (b : bool) then mret true else handle_kw specs p
  end.

(** Split an optional part at its first [=]. *)
Definition mk_part (s : cstring) : Part :=
  match find_char EQUALS s with
  | None => mkPart s []
  | Some k => mkPart (take k s) (drop (k + 1) s)
  end.

Fixpoint parse_kw (fuel : nat) (specs : list KwArg) (t : Tokenizer) : M S unit :=
  match fuel with
  | O => throw (Undefined "fuel")
  | Datatypes.S fuel =>
      if tk_eof t then mret ()
      else
        let '(s, t) := tk_next t in
        match s with
        | [] => throw (ConfigurationError "Empty optional argument part")
        | _ =>
            handled ← handle_kw specs (mk_part s);
            if (handled : bool) then parse_kw fuel specs t
            else throw (ConfigurationError "Argument part is not recognized")
        end
  end.

(** [parse(arg, spec)]; every optional part consumes at least one byte, so
    the length of the argument bounds the iterations of the [while]. *)
Definition parse (arg : cstring) (spec : CommandSpec) : M S unit :=
  t ← parse_core 1 (core spec) (mkTokenizer arg 0);
  parse_kw (Datatypes.S (length arg)) (kwargs spec) t.

(** *** Handlers of the three value classes *)

Definition String_ (dst : cstring -> S -> S) : Value := fun v => modify (dst v).

Definition Flag (dst : bool -> S -> S) : Value := fun v =>
  if bool_decide (v = [] \/ v = [49]) then modify (dst true)
  else if bool_decide (v = [48]) then modify (dst false)
  else throw (ConfigurationError "flag expects 0 or 1").
End Parse.

Arguments Value S : clear implicits.
Arguments KwArg S : clear implicits.
Arguments CommandSpec S : clear implicits.

(** ** [Integer<T>]

    [strtoll] and [strtoull] of the C library with base 0: optional white
    space, a sign, [0x] or [0] prefix, digits.  They return the value, whether
    the range was exceeded ([errno == ERANGE]) and the unread rest. *)

Definition is_space (c : Z) : bool := ((c =? 32) || ((9 <=? c) && (c <=? 13)))%bool.

Fixpoint skip_space (s : cstring) : cstring :=
  match s with
  | c :: s' => if is_space c then skip_space s' else s
  | [] => []
  end.

Definition digit_val (c : Z) : option Z :=
  if ((48 <=? c) && (c <=? 57))%bool then Some (c - 48)
  else if ((97 <=? c) && (c <=? 122))%bool then Some (c - 87)
  else if ((65 <=? c) && (c <=? 90))%bool then Some (c - 55)
  else None.

Definition digit (base c : Z) : option Z :=
  d ← digit_val c; if d <? base then Some d else None.

Fixpoint digits (base acc : Z) (s : cstring) : Z * cstring :=
  match s with
  | [] => (acc, [])
  | c :: s' => match digit base c with
               | Some d => digits base (acc * base + d) s'
               | None => (acc, s)
               end
  end.

Record strto := mkStrto { st_neg : bool; st_mag : Z; st_rest : cstring }.

(** Sign, base prefix and digits; no digits at all leaves the input unread. *)
Definition strto_base0 (s : cstring) : strto :=
  let s1 := skip_space s in
  let '(neg, s2) := match s1 with
                    | 45 :: r => (true, r)
                    | 43 :: r => (false, r)
                    | _ => (false, s1)
                    end in
  let '(base, s3) :=
    match s2 with
    | 48 :: x :: d :: r =>
        if ((x =? 120) || (x =? 88))%bool && bool_decide (is_Some (digit 16 d))
        then (16, d :: r) else (8, s2)
    | 48 :: _ => (8, s2)
    | _ => (10, s2)
    end in
  match s3 with
  | c :: _ => match digit base c with
              | Some _ => let '(m, r) := digits base 0 s3 in mkStrto neg m r
              | None => mkStrto false 0 s
              end
  | [] => mkStrto false 0 s
  end.

(** Result value and the [ERANGE] flag. *)
Definition strtoull (s : cstring) : Z * bool * cstring :=
  let r := strto_base0 s in
  if 2 ^ 64 <=? st_mag r then (2 ^ 64 - 1, true, st_rest r)
  else (if st_neg r then u64 (- st_mag r) else st_mag r, false, st_rest r).

Definition strtoll (s : cstring) : Z * bool * cstring :=
  let r := strto_base0 s in
  let z := if st_neg r then - st_mag r else st_mag r in
  if 2 ^ 63 <=? z then (2 ^ 63 - 1, true, st_rest r)
  else if z <? - 2 ^ 63 then (- 2 ^ 63, true, st_rest r)
  else (z, false, st_rest r).

(** The integer types [Integer] is instantiated with. *)
Record IntTy := mkIntTy { it_signed : bool; it_width : Z }.

Definition it_min (t : IntTy) : Z := if it_signed t then - 2 ^ (it_width t - 1) else 0.
Definition it_max (t : IntTy) : Z := if it_signed t then 2 ^ (it_width t - 1) - 1 else 2 ^ it_width t - 1.
Definition it_cast (t : IntTy) (z : Z) : Z :=
  if it_signed t then wraps (it_width t) z else wrapu (it_width t) z.

(** [Integer<T>::handle]: the library value is narrowed to [T] when it is
    assigned to [v], before any of the checks. *)
Definition Integer_value (t : IntTy) (min max : Z) (part : cstring) : outcome Z :=
  let '(r, erange, rest) := if it_signed t then strtoll part else strtoull part in
  let v := it_cast t r in
  if erange then Throw (ConfigurationError "Argument is out of range")
  else match rest with
       | _ :: _ => Throw (ConfigurationError "Argument is not an integer")
       | [] => if v <? min then Throw (ConfigurationError "Argument is smaller")
               else if max <? v then Throw (ConfigurationError "Argument is bigger")
               else Ok v
       end.

Definition Integer {S} (t : IntTy) (dst : Z -> S -> S) (min max : Z) : Value S := fun part =>
  v ← lift (Integer_value t min max part); modify (dst v).

(** ** Facts about the tokenizer *)

(** The parts of an argument: split at every comma. *)
Fixpoint split_on (c : Z) (s : cstring) : list cstring :=
  match s with
  | [] => [[]]
  | x :: s' =>
      if x =? c then [] :: split_on c s'
      else match split_on c s' with
           | p :: ps => (x :: p) :: ps
           | [] => [[x]]
           end
  end.

Lemma split_on_cons c s : exists p ps, split_on c s = p :: ps.
Proof.
  induction s as [|x s (p & ps & IH)]; simpl; [eauto|].
  destruct (x =? c); [eauto|]. rewrite IH. eauto.
Qed.

Lemma split_on_no c s : c ∉ s -> split_on c s = [s].
Proof.
  induction s as [|x s IH]; simpl; [done|].
  rewrite not_elem_of_cons. intros [Hne Hs].
  destruct (Z.eqb_spec x c); [congruence|]. by rewrite IH.
Qed.

Lemma split_on_app c a b : c ∉ a -> split_on c (a ++ c :: b) = a :: split_on c b.
Proof.
  induction a as [|x a IH]; simpl.
  - intros _. by rewrite Z.eqb_refl.
  - rewrite not_elem_of_cons. intros [Hne Ha].
    destruct (Z.eqb_spec x c); [congruence|]. by rewrite IH.
Qed.

(** What is left for the tokenizer, as parts; nothing at the end of the input. *)
Definition tk_rest (t : Tokenizer) : list cstring :=
  if tk_eof t then [] else split_on COMMA (drop (tpos t) (tv t)).

(** The trailing empty part after a final comma is not delivered. *)
Definition parts (s : cstring) : list cstring :=
  let ps := split_on COMMA s in
  match last ps with Some [] => removelast ps | _ => ps end.

Lemma tk_next_spec t :
  tk_eof t = false ->
  let '(s, t') := tk_next t in
  tv t' = tv t /\ (tpos t < tpos t')%nat /\ (tpos t' <= length (tv t))%nat /\
  drop (tpos t) (tv t) = s ++ (if find_char COMMA (drop (tpos t) (tv t))
                               then COMMA :: drop (tpos t') (tv t) else []) /\
  COMMA ∉ s /\
  (find_char COMMA (drop (tpos t) (tv t)) = None -> tpos t' = length (tv t)).
Proof.
  unfold tk_eof, tk_next. intros He. apply Nat.leb_gt in He.
  destruct (find_char COMMA _) as [k|] eqn:E; simpl.
  - apply find_char_Some in E as (a & b & Hd & <- & Hn).
    assert (Hl : length (drop (tpos t) (tv t)) = (length (tv t) - tpos t)%nat) by apply length_drop.
    rewrite Hd, length_app in Hl. simpl in Hl.
    rewrite Hd, take_app_length. repeat split; try lia; try done.
    f_equal. rewrite <- !drop_drop, Hd, drop_app_length. done.
  - apply find_char_None in E. repeat split; try lia; try done. by rewrite app_nil_r.
Qed.

(** The parts the tokenizer still has to deliver. *)
Definition tk_parts (t : Tokenizer) : list cstring :=
  if tk_eof t then [] else parts (drop (tpos t) (tv t)).

Lemma parts_comma a b : COMMA ∉ a -> parts (a ++ COMMA :: b) = a :: (if b is [] then [] else parts b).
Proof.
  intros Ha. unfold parts. rewrite split_on_app by done.
  destruct (split_on_cons COMMA b) as (p & ps & Hb). rewrite Hb.
  change (last (a :: p :: ps)) with (last (p :: ps)).
  destruct b as [|x b].
  - injection Hb as <- <-. done.
  - destruct (last (p :: ps)) as [[|]|]; done.
Qed.

Lemma parts_single a : a <> [] -> COMMA ∉ a -> parts a = [a].
Proof. intros Hne Ha. unfold parts. rewrite split_on_no by done. by destruct a. Qed.

Lemma tk_parts_next t s t' :
  tk_eof t = false -> tk_next t = (s, t') ->
  tk_parts t = s :: tk_parts t' /\ tv t' = tv t /\ (tpos t < tpos t' <= length (tv t))%nat.
Proof.
  intros He Hn. pose proof (tk_next_spec t He) as H. rewrite Hn in H.
  destruct H as (Hv & Hlt & Hle & Hd & Hs & Hend).
  split; [|split; [done|lia]]. unfold tk_parts. rewrite He. rewrite Hd.
  unfold tk_eof in *. rewrite Hv. apply Nat.leb_gt in He.
  destruct (find_char COMMA (drop (tpos t) (tv t))) eqn:E.
  - rewrite parts_comma by done. f_equal.
    destruct (Nat.leb_spec (length (tv t)) (tpos t')).
    + by rewrite drop_ge by lia.
    + destruct (drop (tpos t') (tv t)) eqn:Ed; [|done].
      apply (f_equal length) in Ed. rewrite length_drop in Ed. simpl in Ed. lia.
  - rewrite Hend by done. rewrite Nat.leb_refl, app_nil_r. apply parts_single; [|done].
    intros ->. apply (f_equal length) in Hd. rewrite length_drop in Hd. simpl in Hd. lia.
Qed.

Section ParseSpec.
Context {S : Type}.

(** *** Reference semantics over the list of parts *)
Fixpoint run_core (specs : list (Value S)) (ps : list cstring) : M S (list cstring) :=
  match specs with
  | [] => mret ps
  | spec :: specs =>
      match ps with
      | [] => throw (ConfigurationError "Argument missing")
      | p :: ps => _ ← spec p; run_core specs ps
      end
  end.

Fixpoint run_kw (specs : list (KwArg S)) (ps : list cstring) : M S unit :=
  match ps with
  | [] => mret ()
  | [] :: _ => throw (ConfigurationError "Empty optional argument part")
  | p :: ps =>
      handled ← handle_kw specs (mk_part p);
      if (handled : bool) then run_kw specs ps
      else throw (ConfigurationError "Argument part is not recognized")
  end.

Definition run_parts (spec : CommandSpec S) (ps : list cstring) : M S unit :=
  ps ← run_core (core spec) ps; run_kw (kwargs spec) ps.

Lemma parse_core_spec specs t s :
  (forall s' r, run_core specs (tk_parts t) s = (s', Throw r) ->
     parse_core 1 specs t s = (s', Throw r)) /\
  (forall s' ps, run_core specs (tk_parts t) s = (s', Ok ps) ->
     exists t', parse_core 1 specs t s = (s', Ok t') /\ ps = tk_parts t' /\ tv t' = tv t).
Proof.
  revert t s. induction specs as [|spec specs IH]; intros t s; simpl.
  - split; [done|]. intros s' ps [= <- <-]. by exists t.
  - destruct (tk_eof t) eqn:He.
    + assert (Hp : tk_parts t = []) by (unfold tk_parts; by rewrite He).
      rewrite Hp. unfold throw. split; [by intros s' r [= <- <-]|discriminate].
    + destruct (tk_next t) as [p t'] eqn:Hn.
      destruct (tk_parts_next t p t' He Hn) as (-> & Hv & _).
      unfold mbind, M_bind. destruct (spec p s) as [s1 [[]|e]];
        [|split; [by intros s' r [= <- <-]|discriminate]].
      destruct (IH t' s1) as [H1 H2]. split; [done|].
      intros s' ps H. destruct (H2 _ _ H) as (t2 & ? & ? & ?). exists t2. repeat split; congruence.
Qed.

Lemma parse_kw_spec fuel specs t s :
  (length (tv t) - tpos t < fuel)%nat -> parse_kw fuel specs t s = run_kw specs (tk_parts t) s.
Proof.
  revert t s. induction fuel as [|fuel IH]; intros t s Hf; [lia|]. simpl.
  destruct (tk_eof t) eqn:He.
  - assert (Hp : tk_parts t = []) by (unfold tk_parts; by rewrite He).
    by rewrite Hp.
  - destruct (tk_next t) as [p t'] eqn:Hn.
    destruct (tk_parts_next t p t' He Hn) as (-> & Hv & Hpos). simpl.
    destruct p as [|x p]; [done|]. unfold mbind, M_bind.
    destruct (handle_kw specs _ s) as [s1 [[]|e]]; try done.
    apply IH. rewrite Hv. lia.
Qed.
End ParseSpec.

(** ** Properties *)

(** [parse] always terminates, and delivers exactly the comma-separated
    parts of its argument in order (a trailing comma adds none): the first ones
    to the core values, each later one to the first keyword that accepts it;
    a missing, empty or unknown part is a [ConfigurationError]. *)
Theorem parse_equiv S arg (spec : CommandSpec S) s :
  parse arg spec s = run_parts spec (parts arg) s.
Proof.
  assert (Hp : tk_parts (mkTokenizer arg 0) = parts arg).
  { unfold tk_parts, tk_eof. simpl. by destruct arg. }
  unfold parse, run_parts. rewrite <- Hp. unfold mbind, M_bind at 1 2.
  destruct (parse_core_spec (core spec) (mkTokenizer arg 0) s) as [H1 H2].
  destruct (run_core _ _ s) as [s' [ps|e]].
  - destruct (H2 s' ps eq_refl) as (t' & -> & -> & Hv). apply parse_kw_spec.
    rewrite Hv. simpl. lia.
  - by rewrite (H1 s' e eq_refl).
Qed.

(** The default range check of an unsigned [Integer<T>] never rejects
    anything: the parsed value is reduced modulo [2^width] first, so an
    argument that does not fit is silently truncated. *)
Theorem Integer_unsigned_truncates w part z rest :
  0 < w <= 64 -> strtoull part = (z, false, rest) ->
  Integer_value (mkIntTy false w) 0 (2 ^ w - 1) part =
    match rest with
    | [] => Ok (wrapu w z)
    | _ => Throw (ConfigurationError "Argument is not an integer")
    end.
Proof.
  intros Hw Hs. unfold Integer_value. simpl. rewrite Hs.
  destruct rest; [|done]. unfold it_cast. simpl.
  pose proof (wrapu_range w z).
  destruct (Z.ltb_spec (wrapu w z) 0); [lia|].
  by destruct (Z.ltb_spec (2 ^ w - 1) (wrapu w z)); [lia|].
Qed.

(** The argument ["0x1000007d0"] of a [uint32_t] option is accepted as [0x7d0]. *)
Lemma Integer_unsigned_truncates_witness :
  let part := [48; 120; 49; 48; 48; 48; 48; 48; 55; 100; 48] in
  (0 < 32 <= 64 /\ strtoull part = (4294969296, false, [])) /\
  Integer_value (mkIntTy false 32) 0 (2 ^ 32 - 1) part = Ok 2000.
Proof.
  intros part. split; [split; [lia|reflexivity]|].
  rewrite (Integer_unsigned_truncates 32 part 4294969296 []); [reflexivity|lia|reflexivity].
Defined.
