(* ===== verification/PathMapper.v ===== *)
(** * PathMapper: [path_mapper.h], [path_mapper.cpp] and [fsutil.h]/[fsutil.cpp]

    Path normalisation, the table of prefix mappings and the translation of
    paths between QNX and the host. *)

From S2P Require Import Prelude Types CmdOpts.

Definition SLASH : Z := 47.
Definition DOT : Z := 46.

(** ** [Fsutil] *)

Definition is_abs (path : cstring) : bool :=
  match path with c :: _ => c =? SLASH | [] => false end.

Definition is_root (path : cstring) : bool := bool_decide (path = [SLASH]).

Definition path_starts_with (path prefix : cstring) : bool := starts_with path prefix.

Fixpoint skip_slashes (s : cstring) : cstring :=
  match s with
  | c :: s' => if c =? SLASH then skip_slashes s' else s
  | [] => []
  end.

(** [path + strlen(prefix)] needs the path to be at least as long. *)
Definition change_prefix (prefix new_prefix path : cstring) : outcome cstring :=
  _ ← check (is_abs prefix) AssertFailed;
  _ ← check (is_abs new_prefix) AssertFailed;
  _ ← check (length prefix <=? length path)%nat (Undefined "pointer past the path");
  let common := skip_slashes (drop (length prefix) path) in
  Ok (match common with
      | [] => new_prefix
      | _ => (if bool_decide (last new_prefix = Some SLASH) then new_prefix
              else new_prefix ++ [SLASH]) ++ common
      end).

(** ** [normalize_path] *)

(** The [while] of [pop_path], on the reversed string: drop bytes up to a
    separator; the test of [back()] on an empty string has no effect. *)
Fixpoint pop_loop (rdst : cstring) : cstring :=
  match rdst with
  | [] => []
  | c :: r => if c =? SLASH then rdst else pop_loop r
  end.

Definition pop_path (dst : cstring) : cstring :=
  let dst := rev (pop_loop (rev dst)) in
  if (1 <? length dst)%nat then removelast dst else dst.

(** [strchr(path, '/')] or the end: the next part and the rest from there. *)
Fixpoint next_sep (path : cstring) : cstring * cstring :=
  match path with
  | [] => ([], [])
  | c :: p => if c =? SLASH then ([], path)
              else let '(part, rest) := next_sep p in (c :: part, rest)
  end.

(** [strncmp(path, lit, part_len) == 0] for a part without NUL bytes: the part
    is a prefix of the literal. *)
Definition strncmp_part (part lit : cstring) : bool := starts_with lit part.

Definition push_part (dst part : cstring) : cstring :=
  (if (negb (bool_decide (dst = [])) && negb (bool_decide (last dst = Some SLASH)))%bool
   then dst ++ [SLASH] else dst) ++ part.

(** The [while (path[0])] loop. *)
Fixpoint normalize_loop (fuel : nat) (path dst : cstring) (segments : nat) : option cstring :=
  match path with
  | [] => Some dst
  | _ =>
    match fuel with
    | O => None
    | S fuel =>
        let '(part, rest) := next_sep path in
        let '(dst', segments') :=
          if strncmp_part part [DOT] then (dst, segments)
          else if strncmp_part part [DOT; DOT] then
            (if (0 <? segments)%nat then (pop_path dst, (segments - 1)%nat) else (dst, segments))
          else if (0 <? length part)%nat then (push_part dst part, S segments)
          else (dst, segments) in
        let path' := match rest with
                     | c :: r => if c =? SLASH then r else rest
                     | [] => [] end in
        normalize_loop fuel path' dst' segments'
    end
  end.

(** Every iteration consumes a byte: the length of the path is enough fuel
    ([normalize_total]). *)
Definition normalize_path_opt (path : cstring) : option cstring :=
  match path with
  | c :: p => if c =? SLASH then normalize_loop (length path) p [SLASH] 0
              else normalize_loop (length path) path [] 0
  | [] => Some []
  end.

Definition normalize_path (path : cstring) : cstring := default [] (normalize_path_opt path).

(** ** [PathMapper] *)

Inductive Exec := EXEC_QNX | EXEC_HOST.

#[export] Instance Exec_eq_dec : EqDecision Exec.
Proof. solve_decision. Defined.

Record Prefix := mkPrefix { m_host_path : cstring; m_qnx_path : cstring; m_exec : Exec }.

#[export] Instance Prefix_eq_dec : EqDecision Prefix.
Proof. solve_decision. Defined.

Record PathMapper := mkPathMapper { m_root : Prefix; m_prefixes : list Prefix }.

Definition PathMapper_new : PathMapper := mkPathMapper (mkPrefix [SLASH] [SLASH] EXEC_QNX) [].

(** The pointer to the prefix used is kept as the prefix itself. *)
Record PathInfo := mkPathInfo {
  pi_host_valid : bool; pi_host_path : cstring;
  pi_qnx_valid : bool; pi_qnx_unmappable : bool; pi_qnx_path : cstring;
  pi_prefix : option Prefix }.

Definition PathInfo_new : PathInfo := mkPathInfo false [] false false [] None.

Definition mk_qnx_path (path : cstring) (normalized : bool) : PathInfo :=
  mkPathInfo false [] true false (if normalized then path else normalize_path path) None.

Definition mk_host_path (path : cstring) (normalized : bool) : PathInfo :=
  mkPathInfo true (if normalized then path else normalize_path path) false false [] None.

(** The accessors; a path that was not resolved yet is empty. *)
Definition host_path (p : PathInfo) : cstring := pi_host_path p.
Definition qnx_path (p : PathInfo) : cstring := pi_qnx_path p.
Definition exec_type (p : PathInfo) : outcome Exec :=
  match pi_prefix p with Some pfx => Ok (m_exec pfx) | None => Throw (Undefined "m_prefix") end.

Definition has_qnx_prefix (m : PathMapper) (pfx : cstring) : bool :=
  if bool_decide (pfx = [SLASH]) then true
  else existsb (fun p => bool_decide (m_qnx_path p = pfx)) (m_prefixes m).

(** The three destinations [add_map] hands to the option parser. *)
Record map_args := mkMapArgs { ma_qnx : cstring; ma_host : cstring; ma_exec : cstring }.

Definition map_spec : CommandSpec map_args :=
  mkCommandSpec
    [ String_ (fun v a => mkMapArgs v (ma_host a) (ma_exec a));
      String_ (fun v a => mkMapArgs (ma_qnx a) v (ma_exec a)) ]
    [ mkKwArg [101; 120; 101; 99] (String_ (fun v a => mkMapArgs (ma_qnx a) (ma_host a) v)) ].

Definition STR_qnx : cstring := [113; 110; 120].
Definition STR_host : cstring := [104; 111; 115; 116].

Definition add_map (map_cmd_arg : cstring) (m : PathMapper) : outcome PathMapper :=
  match parse map_cmd_arg map_spec (mkMapArgs [] [] []) with
  | (_, Throw e) => Throw e
  | (a, Ok _) =>
      let qnx := normalize_path (ma_qnx a) in
      let host := normalize_path (ma_host a) in
      exec ← (if bool_decide (ma_exec a = []) then
                Ok (if bool_decide (qnx = [SLASH]) then EXEC_QNX else EXEC_HOST)
              else if bool_decide (ma_exec a = STR_qnx) then Ok EXEC_QNX
              else if bool_decide (ma_exec a = STR_host) then Ok EXEC_HOST
              else Throw (ConfigurationError "exec argument must be qnx or host"));
      let i := mkPrefix host qnx exec in
      if bool_decide (qnx = [SLASH]) then Ok (mkPathMapper i (m_prefixes m))
      else if has_qnx_prefix m qnx then Throw (ConfigurationError "duplicate QNX prefix mapping")
      else Ok (mkPathMapper (m_root m) (m_prefixes m ++ [i]))
  end.

(** The search of [map_path_to_host]: a strictly longer matching QNX prefix wins. *)
Definition most_specific (m : PathMapper) (qnx : cstring) : Prefix :=
  foldl (fun pfx c =>
           if path_starts_with qnx (m_qnx_path c) then
             if (length (m_qnx_path pfx) <? length (m_qnx_path c))%nat then c else pfx
           else pfx) (m_root m) (m_prefixes m).

Definition map_path_to_host (m : PathMapper) (map : PathInfo) : outcome PathInfo :=
  _ ← check (pi_qnx_valid map) AssertFailed;
  if pi_host_valid map then Ok map
  else
    let pfx := most_specific m (pi_qnx_path map) in
    host ← change_prefix (m_qnx_path pfx) (m_host_path pfx) (pi_qnx_path map);
    Ok (mkPathInfo true host (pi_qnx_valid map) (pi_qnx_unmappable map) (pi_qnx_path map) (Some pfx)).

(** The search of [map_path_to_qnx]: the shortest matching prefix, and the root
    whenever it matches. *)
Definition most_general (m : PathMapper) (host : cstring) : option Prefix :=
  let pfx := foldl (fun pfx c =>
      if path_starts_with host (m_host_path c) then
        match pfx with
        | None => Some c
        | Some p => if (length (m_qnx_path c) <? length (m_qnx_path p))%nat then Some c else pfx
        end
      else pfx) None (m_prefixes m) in
  if path_starts_with host (m_host_path (m_root m)) then Some (m_root m) else pfx.

Definition STR_unmapped : cstring := [47; 117; 110; 109; 97; 112; 112; 101; 100; 47].

Definition map_path_to_qnx (m : PathMapper) (map : PathInfo) : outcome PathInfo :=
  _ ← check (pi_host_valid map) AssertFailed;
  if pi_qnx_valid map then Ok map
  else
    match most_general m (pi_host_path map) with
    | None =>
        Ok (mkPathInfo (pi_host_valid map) (pi_host_path map) true true
              (STR_unmapped ++ pi_host_path map) None)
    | Some pfx =>
        qnx ← change_prefix (m_host_path pfx) (m_qnx_path pfx) (pi_host_path map);
        (* the final assignments set the "unmappable" flag again *)
        Ok (mkPathInfo (pi_host_valid map) (pi_host_path map) true true qnx None)
    end.

(** The overloads taking a path. *)
Definition map_path_to_qnx_s (m : PathMapper) (path : cstring) (normalized : bool) : outcome PathInfo :=
  map_path_to_qnx m (mk_host_path path normalized).
Definition map_path_to_host_s (m : PathMapper) (path : cstring) (normalized : bool) : outcome PathInfo :=
  map_path_to_host m (mk_qnx_path path normalized).

Definition map_path (m : PathMapper) (map : PathInfo) : outcome PathInfo :=
  map ← map_path_to_host m map; map_path_to_qnx m map.

(** ** Reference semantics of paths *)

(** The meaningful segments of a path, after [.] and [..]. *)
Definition resolve_step (st : list cstring) (seg : cstring) : list cstring :=
  if bool_decide (seg = [] \/ seg = [DOT]) then st
  else if bool_decide (seg = [DOT; DOT]) then removelast st
  else st ++ [seg].

Definition resolve (path : cstring) : list cstring := foldl resolve_step [] (split_on SLASH path).

Fixpoint join (segs : list cstring) : cstring :=
  match segs with
  | [] => []
  | [s] => s
  | s :: segs => s ++ SLASH :: join segs
  end.

Definition render (abs : bool) (segs : list cstring) : cstring :=
  (if abs then [SLASH] else []) ++ join segs.

(** A segment that [normalize_path] keeps as it is. *)
Definition plain (seg : cstring) : Prop :=
  seg <> [] /\ SLASH ∉ seg /\ seg <> [DOT] /\ seg <> [DOT; DOT].

Lemma join_snoc segs s : join (segs ++ [s]) = (if segs is [] then [] else join segs ++ [SLASH]) ++ s.
Proof.
  induction segs as [|x segs IH]; [done|]. simpl.
  destruct segs as [|y segs]; simpl in *; [by rewrite <- app_assoc|].
  rewrite IH. by rewrite <- !app_assoc.
Qed.

Lemma pop_loop_app (s r : cstring) : SLASH ∉ s -> pop_loop (s ++ r) = pop_loop r.
Proof.
  induction s as [|c s IH]; [done|]. rewrite not_elem_of_cons. intros [Hne Hs]. simpl.
  destruct (Z.eqb_spec c SLASH); [congruence|auto].
Qed.

Lemma pop_loop_slash (r : cstring) : pop_loop (SLASH :: r) = SLASH :: r.
Proof. done. Qed.

Lemma last_plain (s : cstring) : s <> [] -> SLASH ∉ s -> exists c, last s = Some c /\ c <> SLASH.
Proof.
  intros Hne Hs. destruct (last s) as [c|] eqn:E.
  - exists c. split; [done|]. intros ->. apply Hs. by apply last_Some_elem_of.
  - by apply last_None in E.
Qed.

Lemma render_nil_iff abs segs : Forall plain segs -> render abs segs = [] <-> abs = false /\ segs = [].
Proof.
  intros H. unfold render. destruct abs; simpl; [naive_solver|].
  destruct H as [|s segs [Hne _] _]; simpl; [naive_solver|].
  split; [|naive_solver]. destruct segs; simpl; [done|]. by destruct s.
Qed.

Lemma render_last abs segs s :
  plain s -> exists c, last (render abs (segs ++ [s])) = Some c /\ c <> SLASH.
Proof.
  intros (Hne & Hs & _). destruct (last_plain s Hne Hs) as (c & Hc & Hn).
  exists c. split; [|done]. unfold render. rewrite join_snoc.
  rewrite !last_app. by rewrite Hc.
Qed.

Lemma pop_render abs segs s :
  Forall plain segs -> plain s -> pop_path (render abs (segs ++ [s])) = render abs segs.
Proof.
  intros Hsegs Hp. pose proof Hp as (Hne & Hs & _). unfold pop_path, render. rewrite join_snoc.
  rewrite !rev_app_distr, <- !app_assoc.
  rewrite pop_loop_app by (rewrite list_elem_of_In, <- in_rev, <- list_elem_of_In; done).
  destruct segs as [|x segs].
  - simpl. destruct abs; simpl; done.
  - set (l := (if abs then [SLASH] else []) ++ join (x :: segs)).
    assert (Hr : rev (pop_loop (rev (join (x :: segs) ++ [SLASH]) ++ rev (if abs then [SLASH] else [])))
                 = l ++ [SLASH]).
    { rewrite rev_unit. change ((SLASH :: ?a) ++ ?b) with (SLASH :: (a ++ b)).
      rewrite pop_loop_slash. simpl rev at 1. by rewrite rev_app_distr, !rev_involutive. }
    rewrite Hr. assert (Hl : l <> []).
    { intros He. apply (render_nil_iff abs (x :: segs)) in He; [|done]. naive_solver. }
    assert (Hle : (1 < length (l ++ [SLASH]))%nat).
    { rewrite length_app. destruct l; [done|]. simpl. lia. }
    apply Nat.ltb_lt in Hle. rewrite Hle. apply removelast_last.
Qed.

Lemma push_render abs segs s :
  Forall plain segs -> plain s -> push_part (render abs segs) s = render abs (segs ++ [s]).
Proof.
  intros Hsegs Hp. unfold push_part. destruct segs as [|x segs] using rev_ind.
  - unfold render. simpl. destruct abs; simpl; done.
  - clear IHsegs. apply Forall_app in Hsegs as [Hsegs Hx]. apply Forall_cons in Hx as [Hx _].
    destruct (render_last abs segs x Hx) as (c & Hc & Hn).
    rewrite Hc. rewrite (bool_decide_eq_false_2 (Some c = Some SLASH)) by congruence.
    rewrite bool_decide_eq_false_2; [|intros He; rewrite He in Hc; done].
    simpl. unfold render. rewrite (join_snoc (segs ++ [x]) s).
    destruct (segs ++ [x]) eqn:E; [by destruct segs|]. by rewrite !app_assoc.
Qed.

(** ** The normalisation loop follows [resolve_step] *)

Lemma next_sep_spec path part rest :
  next_sep path = (part, rest) ->
  path = part ++ rest /\ SLASH ∉ part /\ (rest = [] \/ exists r, rest = SLASH :: r).
Proof.
  revert part rest. induction path as [|c p IH]; intros part rest; simpl.
  - intros [= <- <-]. split; [done|]. split; [apply not_elem_of_nil|by left].
  - destruct (Z.eqb_spec c SLASH) as [-> |Hne].
    + intros [= <- <-]. split; [done|]. split; [apply not_elem_of_nil|eauto].
    + destruct (next_sep p) as [part' rest']. intros [= <- <-].
      destruct (IH part' rest' eq_refl) as (-> & Hs & Hr).
      split; [done|]. split; [|done]. by rewrite not_elem_of_cons.
Qed.

Lemma strncmp_dot part : strncmp_part part [DOT] = bool_decide (part = [] \/ part = [DOT]).
Proof.
  unfold strncmp_part, starts_with. destruct part as [|a [|b part]]; simpl; [done| |].
  - apply bool_decide_ext. naive_solver.
  - symmetry. apply bool_decide_eq_false_2. naive_solver.
Qed.

Lemma strncmp_dotdot part :
  ~ (part = [] \/ part = [DOT]) -> strncmp_part part [DOT; DOT] = bool_decide (part = [DOT; DOT]).
Proof.
  unfold strncmp_part, starts_with. intros Hn. destruct part as [|a [|b [|d part]]]; simpl.
  - naive_solver.
  - rewrite !bool_decide_eq_false_2; [done|naive_solver|naive_solver].
  - done.
  - symmetry. by apply bool_decide_eq_false_2.
Qed.

(** One iteration's update of [dst] and [segments]. *)
Definition part_step (dst part : cstring) (segments : nat) : cstring * nat :=
  if strncmp_part part [DOT] then (dst, segments)
  else if strncmp_part part [DOT; DOT] then
    (if (0 <? segments)%nat then (pop_path dst, (segments - 1)%nat) else (dst, segments))
  else if (0 <? length part)%nat then (push_part dst part, S segments)
  else (dst, segments).

Lemma resolve_step_plain segs part :
  Forall plain segs -> SLASH ∉ part -> Forall plain (resolve_step segs part).
Proof.
  intros Hs Hp. unfold resolve_step. case_bool_decide as H1; [done|]. case_bool_decide as H2.
  - destruct segs as [|x segs] using rev_ind; [done|]. rewrite removelast_last.
    by apply Forall_app in Hs as [? _].
  - apply Forall_app. split; [done|]. apply Forall_cons. split; [|done].
    unfold plain. naive_solver.
Qed.

Lemma part_step_spec abs segs part :
  Forall plain segs -> SLASH ∉ part ->
  part_step (render abs segs) part (length segs) =
  (render abs (resolve_step segs part), length (resolve_step segs part)).
Proof.
  intros Hs Hp. unfold part_step, resolve_step. rewrite strncmp_dot.
  destruct (decide (part = [] \/ part = [DOT])) as [H1|H1];
    [by rewrite !bool_decide_eq_true_2 by done|].
  rewrite (bool_decide_eq_false_2 _ H1), strncmp_dotdot by done.
  destruct (decide (part = [DOT; DOT])) as [H2|H2];
    [rewrite !bool_decide_eq_true_2 by done | rewrite !(bool_decide_eq_false_2 _ H2)].
  - destruct segs as [|x segs] using rev_ind; [done|]. clear IHsegs.
    apply Forall_app in Hs as [Hs Hx]. apply Forall_cons in Hx as [Hx _].
    rewrite removelast_last, pop_render by done. rewrite length_app. simpl.
    destruct (Nat.ltb_spec 0 (length segs + 1)); [|lia]. f_equal. lia.
  - destruct part as [|c part]; [naive_solver|]. simpl.
    rewrite push_render; [|done|unfold plain; naive_solver]. rewrite length_app. simpl. f_equal. lia.
Qed.

Lemma normalize_loop_spec fuel path abs segs :
  (length path <= fuel)%nat -> Forall plain segs ->
  normalize_loop fuel path (render abs segs) (length segs) =
  Some (render abs (foldl resolve_step segs (split_on SLASH path))).
Proof.
  revert path segs. induction fuel as [|fuel IH]; intros path segs Hf Hs.
  - by destruct path; [|simpl in Hf; lia].
  - destruct path as [|c p]; [done|]. set (path := c :: p) in *.
    change (normalize_loop (S fuel) path (render abs segs) (length segs)) with
      (let '(part, rest) := next_sep path in
       let '(dst', segments') := part_step (render abs segs) part (length segs) in
       normalize_loop fuel (match rest with
                            | c :: r => if c =? SLASH then r else rest
                            | [] => [] end) dst' segments').
    destruct (next_sep path) as [part rest] eqn:En.
    apply next_sep_spec in En as (Hpath & Hpart & Hrest).
    rewrite part_step_spec by done. rewrite Hpath.
    destruct Hrest as [-> |[r ->]].
    + rewrite IH; [|simpl; lia|by apply resolve_step_plain].
      rewrite app_nil_r, (split_on_no _ part) by done. simpl.
      unfold resolve_step at 1. by rewrite bool_decide_eq_true_2 by (by left).
    + rewrite Z.eqb_refl, IH; [|subst path; rewrite Hpath, length_app in Hf; simpl in Hf; lia
                              |by apply resolve_step_plain].
      by rewrite split_on_app.
Qed.

Lemma normalize_opt_spec p : normalize_path_opt p = Some (render (is_abs p) (resolve p)).
Proof.
  unfold normalize_path_opt, resolve. destruct p as [|c p]; [done|].
  unfold is_abs. simpl split_on. destruct (Z.eqb_spec c SLASH) as [-> |Hne].
  - rewrite (normalize_loop_spec _ p true []) by (simpl; auto with lia). done.
  - rewrite (normalize_loop_spec _ (c :: p) false []) by (simpl; auto with lia).
    simpl split_on. by destruct (Z.eqb_spec c SLASH).
Qed.

Lemma normalize_path_spec p : normalize_path p = render (is_abs p) (resolve p).
Proof. unfold normalize_path. by rewrite normalize_opt_spec. Qed.

Lemma split_on_no_sep c s : Forall (fun p => c ∉ p) (split_on c s).
Proof.
  induction s as [|x s IH]; simpl.
  - apply Forall_cons. split; [apply not_elem_of_nil|done].
  - destruct (Z.eqb_spec x c).
    + apply Forall_cons. split; [apply not_elem_of_nil|done].
    + destruct (split_on_cons c s) as (p & ps & Hp). rewrite Hp in *.
      apply Forall_cons in IH as [H1 H2]. apply Forall_cons. split; [|done].
      rewrite not_elem_of_cons. split; [congruence|done].
Qed.

Lemma resolve_fold_plain segs ps :
  Forall plain segs -> Forall (fun p => SLASH ∉ p) ps -> Forall plain (foldl resolve_step segs ps).
Proof.
  revert segs. induction ps as [|p ps IH]; intros segs Hs Hp; [done|].
  apply Forall_cons in Hp as [H1 H2]. simpl. apply IH; [by apply resolve_step_plain|done].
Qed.

Lemma resolve_plain p : Forall plain (resolve p).
Proof. apply resolve_fold_plain; [done|apply split_on_no_sep]. Qed.

Lemma foldl_plain segs ps : Forall plain ps -> foldl resolve_step segs ps = segs ++ ps.
Proof.
  revert segs. induction ps as [|p ps IH]; intros segs Hp; simpl; [by rewrite app_nil_r|].
  apply Forall_cons in Hp as [(H1 & _ & H2 & H3) Hp].
  unfold resolve_step at 2. rewrite !bool_decide_eq_false_2 by naive_solver.
  rewrite IH by done. by rewrite <- app_assoc.
Qed.

Lemma split_join ps : ps <> [] -> Forall plain ps -> split_on SLASH (join ps) = ps.
Proof.
  intros Hne Hp. induction Hp as [|p ps (H1 & H2 & _) Hp IH]; [done|].
  destruct ps as [|q ps]; simpl; [by apply split_on_no|].
  rewrite split_on_app by done. f_equal. by apply IH.
Qed.

Lemma is_abs_render abs segs : Forall plain segs -> is_abs (render abs segs) = abs.
Proof.
  intros H. destruct abs; [done|]. unfold render. simpl.
  destruct H as [|s segs (H1 & H2 & _) _]; [done|].
  assert (Hs : is_abs s = false).
  { destruct s as [|c s]; [done|]. simpl. rewrite not_elem_of_cons in H2.
    apply Z.eqb_neq. intros ->. by destruct H2. }
  destruct segs; simpl; [done|]. by destruct s.
Qed.

Lemma resolve_render abs segs : Forall plain segs -> resolve (render abs segs) = segs.
Proof.
  intros H. unfold resolve, render. destruct (decide (segs = [])) as [-> |Hne].
  - by destruct abs.
  - destruct abs; simpl.
    + rewrite split_join by done. by rewrite foldl_plain.
    + rewrite split_join by done. by rewrite foldl_plain.
Qed.

(** ** Prefix replacement on rendered paths *)

Lemma join_app xs ys : xs <> [] -> ys <> [] -> join (xs ++ ys) = join xs ++ SLASH :: join ys.
Proof.
  induction xs as [|x xs IH]; intros Hx Hy; [done|]. destruct xs as [|x' xs].
  - simpl. by destruct ys.
  - change (join ((x :: x' :: xs) ++ ys)) with (x ++ SLASH :: join ((x' :: xs) ++ ys)).
    rewrite IH by done. simpl. by rewrite <- app_assoc.
Qed.

Lemma join_head ps : Forall plain ps -> skip_slashes (join ps) = join ps.
Proof.
  intros H. pose proof (is_abs_render false ps H) as Ha. unfold render in Ha. simpl in Ha.
  destruct (join ps) as [|c s]; [done|]. simpl in *. by rewrite Ha.
Qed.

Lemma join_nil ps : Forall plain ps -> join ps = [] -> ps = [].
Proof. intros H Hj. apply (render_nil_iff false ps H). unfold render. done. Qed.

Lemma render_true_last segs :
  Forall plain segs -> bool_decide (last (render true segs) = Some SLASH) = bool_decide (segs = []).
Proof.
  intros H. destruct segs as [|s segs] using rev_ind; [done|]. clear IHsegs.
  apply Forall_app in H as [_ Hs]. apply Forall_cons in Hs as [Hs _].
  destruct (render_last true segs s Hs) as (c & -> & Hn).
  rewrite !bool_decide_eq_false_2; [done|by destruct segs|congruence].
Qed.

Lemma change_prefix_spec ps hs tail :
  Forall plain ps -> Forall plain hs -> Forall plain tail ->
  change_prefix (render true ps) (render true hs) (render true (ps ++ tail)) =
  Ok (render true (hs ++ tail)).
Proof.
  intros Hp Hh Ht. unfold change_prefix. rewrite !is_abs_render by done.
  change (check true AssertFailed) with (Ok ()).
  assert (Hd : exists sl, render true (ps ++ tail) = render true ps ++ sl /\
                          skip_slashes sl = join tail).
  { destruct (decide (tail = [])) as [-> |Hne].
    - exists []. by rewrite !app_nil_r.
    - destruct (decide (ps = [])) as [-> |Hpne].
      + exists (join tail). split; [done|]. by apply join_head.
      + exists (SLASH :: join tail). unfold render. rewrite join_app by done.
        split; [done|]. by apply join_head. }
  destruct Hd as (sl & -> & Hsl). rewrite length_app.
  destruct (Nat.leb_spec (length (render true ps)) (length (render true ps) + length sl)); [|lia].
  simpl mbind. rewrite drop_app_length, Hsl, render_true_last by done.
  unfold mbind, outcome_bind. simpl check. f_equal.
  destruct (join tail) as [|c s] eqn:Ej.
  - apply join_nil in Ej as ->; [|done]. by rewrite app_nil_r.
  - rewrite <- Ej. case_bool_decide as Hc.
    + subst hs. done.
    + unfold render. assert (tail <> []) by (intros ->; done).
      rewrite (join_app hs tail) by done. simpl. by rewrite <- app_assoc.
Qed.

(** The prefix ends at a component boundary of the path. *)
Definition at_boundary (path prefix : cstring) : Prop :=
  exists rest, path = prefix ++ rest /\
    (rest = [] \/ (exists r, rest = SLASH :: r) \/ prefix = [SLASH]).

Lemma split_on_app_all c a b : split_on c (a ++ c :: b) = split_on c a ++ split_on c b.
Proof.
  induction a as [|x a IH]; simpl; [by rewrite Z.eqb_refl|].
  destruct (x =? c); [by rewrite IH|]. rewrite IH.
  destruct (split_on_cons c a) as (p & ps & ->). done.
Qed.

Lemma join_split s : join (split_on SLASH s) = s.
Proof.
  induction s as [|x s IH]; [done|]. simpl.
  destruct (split_on_cons SLASH s) as (p & ps & Hp). rewrite Hp in *.
  destruct (Z.eqb_spec x SLASH) as [-> |]; simpl in *.
  - by rewrite IH.
  - destruct ps; simpl in *; by rewrite <- IH.
Qed.

Lemma boundary_tail qs ps :
  Forall plain qs -> Forall plain ps -> at_boundary (render true qs) (render true ps) ->
  exists tail, qs = ps ++ tail /\ Forall plain tail.
Proof.
  intros Hq Hp (rest & Heq & Hrest).
  assert (Hsp : forall xs, xs <> [] -> Forall plain xs -> split_on SLASH (render true xs) = [] :: xs).
  { intros xs Hne Hx. unfold render. simpl. by rewrite split_join. }
  destruct (decide (ps = [])) as [-> |Hpne]; [by exists qs|].
  destruct Hrest as [-> |[[r ->]|Hr]].
  - rewrite app_nil_r in Heq. exists []. rewrite app_nil_r.
    apply (f_equal resolve) in Heq. by rewrite !resolve_render in Heq.
  - apply (f_equal (split_on SLASH)) in Heq. rewrite split_on_app_all, (Hsp ps) in Heq by done.
    destruct (decide (qs = [])) as [-> |Hqne].
    + apply (f_equal length) in Heq. rewrite length_app in Heq. simpl in Heq.
      destruct (split_on_cons SLASH r) as (x & xs & Hxs). rewrite Hxs in Heq.
      destruct ps as [|y [|z ps]]; simpl in Heq; [done|lia|lia].
    + rewrite (Hsp qs) in Heq by done. injection Heq as ->.
      exists (split_on SLASH r). split; [done|]. by apply Forall_app in Hq as [_ ?].
  - exfalso. apply (f_equal resolve) in Hr. rewrite resolve_render in Hr by done. done.
Qed.

(** ** The mapper's invariant *)

Definition normal_path (abs : bool) (p : cstring) : Prop :=
  exists segs, p = render abs segs /\ Forall plain segs.

Definition wf_prefix (p : Prefix) : Prop :=
  normal_path true (m_qnx_path p) /\ normal_path true (m_host_path p).

(** Every mapping is absolute and normalised, the root maps [/], and no other
    mapping shares its QNX path with another one or with the root. *)
Definition wf_mapper (m : PathMapper) : Prop :=
  m_qnx_path (m_root m) = [SLASH] /\ Forall wf_prefix (m_root m :: m_prefixes m) /\
  NoDup (map m_qnx_path (m_prefixes m)) /\ [SLASH] ∉ map m_qnx_path (m_prefixes m).

Lemma normalize_normal p : normal_path (is_abs p) (normalize_path p).
Proof. exists (resolve p). split; [apply normalize_path_spec|apply resolve_plain]. Qed.

Lemma normal_root : normal_path true [SLASH].
Proof. by exists []. Qed.

Lemma wf_mapper_new : wf_mapper PathMapper_new.
Proof.
  split; [done|]. split; [|split; [constructor|apply not_elem_of_nil]].
  apply Forall_cons. split; [|done]. split; apply normal_root.
Qed.

Lemma has_qnx_prefix_false m q :
  has_qnx_prefix m q = false -> q <> [SLASH] /\ q ∉ map m_qnx_path (m_prefixes m).
Proof.
  unfold has_qnx_prefix. case_bool_decide; [done|]. intros He. split; [done|].
  intros Hin. apply list_elem_of_In, in_map_iff in Hin as (p & Hp & Hi).
  assert (existsb (fun p => bool_decide (m_qnx_path p = q)) (m_prefixes m) = true); [|congruence].
  apply existsb_exists. exists p. split; [done|]. by apply bool_decide_eq_true_2.
Qed.

(** The longest matching prefix, first among equals. *)
Lemma most_specific_spec m q :
  exists pfx, most_specific m q = pfx /\
  (pfx = m_root m \/ (pfx ∈ m_prefixes m /\ path_starts_with q (m_qnx_path pfx) = true)) /\
  Forall (fun c => path_starts_with q (m_qnx_path c) = true ->
            (length (m_qnx_path c) <= length (m_qnx_path pfx))%nat) (m_prefixes m) /\
  (length (m_qnx_path (m_root m)) <= length (m_qnx_path pfx))%nat.
Proof.
  unfold most_specific. eexists. split; [reflexivity|].
  induction (m_prefixes m) as [|c l IH] using rev_ind; simpl.
  - split; [by left|]. split; [done|lia].
  - rewrite foldl_app. simpl. destruct IH as (Hin & Hmax & Hroot).
    set (p := foldl _ _ _) in *. rewrite Forall_app, Forall_singleton.
    destruct (path_starts_with q (m_qnx_path c)) eqn:Ec.
    + destruct (Nat.ltb_spec (length (m_qnx_path p)) (length (m_qnx_path c))) as [Hlt|Hge].
      * split; [right; rewrite elem_of_app, list_elem_of_singleton; auto|].
        split; [|lia]. split; [|done]. eapply Forall_impl; [exact Hmax|].
        simpl. intros x Hx Hm. specialize (Hx Hm). lia.
      * split; [destruct Hin as [?|[? ?]]; [by left|right; rewrite elem_of_app; auto]|].
        split; [|done]. split; [done|]. intros _. lia.
    + split; [destruct Hin as [?|[? ?]]; [by left|right; rewrite elem_of_app; auto]|].
      split; [|done]. by split.
Qed.

Lemma wf_most_specific m q : wf_mapper m -> wf_prefix (most_specific m q).
Proof.
  intros (_ & Hf & _). destruct (most_specific_spec m q) as (pfx & -> & Hin & _).
  apply (proj1 (Forall_forall _ _) Hf). destruct Hin as [-> |[H _]]; [by left|by right].
Qed.

Lemma map_path_to_host_boundary m q :
  wf_mapper m -> normal_path true q -> at_boundary q (m_qnx_path (most_specific m q)) ->
  exists tail,
    resolve q = resolve (m_qnx_path (most_specific m q)) ++ tail /\
    let host := render true (resolve (m_host_path (most_specific m q)) ++ tail) in
    map_path_to_host m (mk_qnx_path q true) =
      Ok (mkPathInfo true host true false q (Some (most_specific m q))) /\
    resolve host = resolve (m_host_path (most_specific m q)) ++ tail.
Proof.
  intros Hwf (qs & -> & Hqs) Hb. pose proof (wf_most_specific m (render true qs) Hwf) as Hp.
  unfold map_path_to_host, mk_qnx_path. simpl.
  set (pfx := most_specific m (render true qs)) in *. clearbody pfx.
  destruct Hp as [(ps & Hps & Hpp) (hs & Hhs & Hhp)]. rewrite Hps, Hhs in *.
  destruct (boundary_tail qs ps Hqs Hpp Hb) as (tail & -> & Ht).
  exists tail. rewrite !resolve_render by (done || by apply Forall_app).
  split; [done|]. by rewrite change_prefix_spec.
Qed.

(** ** Properties *)

(** C27. [normalize_path] terminates and computes the path of the resolved
    segments: no empty, [.] or [..] component survives, [..] at the top is
    dropped, an absolute path stays absolute, and a second pass changes
    nothing. *)
Theorem normalize_correct p :
  normalize_path_opt p = Some (normalize_path p) /\
  normalize_path p = render (is_abs p) (resolve p) /\
  Forall plain (resolve p) /\
  resolve (normalize_path p) = resolve p /\
  normalize_path (normalize_path p) = normalize_path p.
Proof.
  pose proof (resolve_plain p) as Hp.
  split; [unfold normalize_path; by rewrite normalize_opt_spec|].
  rewrite !normalize_path_spec, is_abs_render, resolve_render by done. done.
Qed.

(** Adding a mapping with absolute paths keeps the mapper well formed
    (normalised absolute paths, a root for [/], no duplicate QNX prefix); a
    duplicate is rejected. *)
Theorem add_map_inv m arg a m' :
  wf_mapper m ->
  parse arg map_spec (mkMapArgs [] [] []) = (a, Ok ()) ->
  is_abs (ma_qnx a) = true -> is_abs (ma_host a) = true ->
  add_map arg m = Ok m' ->
  wf_mapper m' /\
  (normalize_path (ma_qnx a) <> [SLASH] ->
     normalize_path (ma_qnx a) ∉ map m_qnx_path (m_prefixes m) /\
     m_root m' = m_root m /\
     map m_qnx_path (m_prefixes m') = map m_qnx_path (m_prefixes m) ++ [normalize_path (ma_qnx a)]).
Proof.
  intros (Hr & Hf & Hnd & Hns) Hparse Hq Hh. unfold add_map. rewrite Hparse. intros H.
  apply outcome_bind_Ok in H as (ex & _ & H).
  pose proof (normalize_normal (ma_qnx a)) as Nq. pose proof (normalize_normal (ma_host a)) as Nh.
  rewrite Hq in Nq. rewrite Hh in Nh.
  assert (Hw : wf_prefix (mkPrefix (normalize_path (ma_host a)) (normalize_path (ma_qnx a)) ex))
    by done.
  apply Forall_cons in Hf as [Hf1 Hf2].
  case_bool_decide as Hroot.
  - injection H as <-. split; [|done]. split; [done|]. split; [by apply Forall_cons|done].
  - destruct (has_qnx_prefix m _) eqn:Hdup; [done|]. injection H as <-.
    apply has_qnx_prefix_false in Hdup as [_ Hdup]. unfold wf_mapper. simpl.
    rewrite map_app. simpl. split; [|done]. split; [done|]. split; [|split].
    + apply Forall_cons. split; [done|]. apply Forall_app. split; [done|]. by apply Forall_singleton.
    + apply NoDup_app. split; [done|]. split; [|apply NoDup_singleton].
      intros x Hx. rewrite list_elem_of_singleton. congruence.
    + rewrite elem_of_app, list_elem_of_singleton. intros [?|He]; [done|congruence].
Qed.

(** [-m /host,/], as on the command line of the README. *)
Definition demo_arg : cstring := [47; 104; 111; 115; 116; 44; 47].
Definition demo_mapper : PathMapper :=
  mkPathMapper (mkPrefix [47; 113] [47] EXEC_QNX) [mkPrefix [47] [47; 104; 111; 115; 116] EXEC_HOST].

Lemma add_map_inv_witness :
  let m := mkPathMapper (mkPrefix [47; 113] [47] EXEC_QNX) [] in
  wf_mapper m /\ add_map demo_arg m = Ok demo_mapper /\ wf_mapper demo_mapper.
Proof.
  assert (Hq : normal_path true [47; 113]).
  { exists [[113]]. split; [done|]. apply Forall_cons. split; [|done].
    unfold plain. rewrite list_elem_of_singleton. done. }
  assert (Hm : wf_mapper (mkPathMapper (mkPrefix [47; 113] [47] EXEC_QNX) [])).
  { split; [done|]. split; [|split; [constructor|apply not_elem_of_nil]].
    apply Forall_cons. split; [|done]. split; [apply normal_root|done]. }
  split; [exact Hm|]. split; [vm_compute; reflexivity|].
  exact (proj1 (add_map_inv _ demo_arg (mkMapArgs [47; 104; 111; 115; 116] [47] [])
                  demo_mapper Hm eq_refl eq_refl eq_refl eq_refl)).
Defined.

(** C28. Confinement: a guest path whose chosen prefix ends at a component
    boundary is mapped to the prefix's host directory followed by the remaining
    segments of the guest path, none of which is [..]; and the chosen prefix is
    a longest one matching the path. *)
Theorem map_to_host_confined m p :
  wf_mapper m -> is_abs p = true ->
  at_boundary (normalize_path p) (m_qnx_path (most_specific m (normalize_path p))) ->
  let pfx := most_specific m (normalize_path p) in
  exists info tail,
    map_path_to_host_s m p false = Ok info /\ pi_prefix info = Some pfx /\
    pi_qnx_path info = normalize_path p /\
    resolve p = resolve (m_qnx_path pfx) ++ tail /\ Forall plain tail /\
    resolve (pi_host_path info) = resolve (m_host_path pfx) ++ tail /\
    Forall (fun c => path_starts_with (normalize_path p) (m_qnx_path c) = true ->
              (length (m_qnx_path c) <= length (m_qnx_path pfx))%nat) (m_prefixes m).
Proof.
  intros Hwf Ha Hb pfx. pose proof (normalize_normal p) as Hn. rewrite Ha in Hn.
  destruct (normalize_correct p) as (_ & _ & Hpl & Hres & _).
  destruct (map_path_to_host_boundary m _ Hwf Hn Hb) as (tail & Hq & Hmap & Hhost).
  fold pfx in Hq, Hmap, Hhost. rewrite Hres in Hq.
  eexists _, tail. split; [exact Hmap|]. simpl. repeat (split; [done|]).
  split; [rewrite Hq in Hpl; by apply Forall_app in Hpl as [_ ?]|]. split; [done|].
  destruct (most_specific_spec m (normalize_path p)) as (pfx' & Hp' & _ & Hmax & _).
  unfold pfx. by rewrite Hp'.
Qed.

(** ["/host/./a/../b"] under the mapping of [/host] to [/] is host ["/b"]. *)
Lemma map_to_host_confined_witness :
  let p := [47; 104; 111; 115; 116; 47; 46; 47; 97; 47; 46; 46; 47; 98] in
  wf_mapper demo_mapper /\ is_abs p = true /\
  exists info, map_path_to_host_s demo_mapper p false = Ok info /\ pi_host_path info = [47; 98] /\
    pi_prefix info = Some (mkPrefix [47] [47; 104; 111; 115; 116] EXEC_HOST).
Proof.
  intros p.
  assert (Hm : wf_mapper demo_mapper) by (apply add_map_inv_witness).
  assert (Hb : at_boundary (normalize_path p) (m_qnx_path (most_specific demo_mapper (normalize_path p)))).
  { exists [47; 98]. split; [reflexivity|]. right. left. by exists [98]. }
  split; [exact Hm|]. split; [reflexivity|].
  destruct (map_to_host_confined demo_mapper p Hm eq_refl Hb) as (info & tail & Hi & Hp & _).
  exists info. split; [exact Hi|]. vm_compute in Hi. injection Hi as <-. split; reflexivity.
Defined.

(** The prefix test is a test on strings, not on components, so
    confinement fails for a guest path that merely begins with the bytes of a
    mapped prefix: there is a well-formed mapper and an absolute, already
    normalised guest path whose host path leaves the mapped directory through
    a [..] component. *)
Theorem map_to_host_escape :
  exists m p info pfx,
    wf_mapper m /\ is_abs p = true /\ normalize_path p = p /\ [DOT; DOT] ∉ split_on SLASH p /\
    map_path_to_host_s m p false = Ok info /\ pi_prefix info = Some pfx /\
    [DOT; DOT] ∈ split_on SLASH (pi_host_path info) /\
    ~ (exists tail, resolve (pi_host_path info) = resolve (m_host_path pfx) ++ tail).
Proof.
  set (qnxdir := [47; 104]). set (hostdir := [47; 115; 47; 100]).
  set (m := mkPathMapper (mkPrefix [47; 113] [47] EXEC_QNX) [mkPrefix hostdir qnxdir EXEC_HOST]).
  (* "/h../x" with /h mapped to /s/d *)
  set (p := [47; 104; 46; 46; 47; 120]).
  exists m, p. eexists. exists (mkPrefix hostdir qnxdir EXEC_HOST).
  assert (Hpl : forall l, forallb (fun s => bool_decide (s <> [] /\ SLASH ∉ s /\ s <> [DOT] /\ s <> [DOT; DOT])) l
                 = true -> Forall plain l).
  { intros l H. apply Forall_forall. intros x Hx. rewrite forallb_forall in H.
    specialize (H x). rewrite bool_decide_eq_true in H. apply H. by apply list_elem_of_In. }
  split; [|split; [reflexivity|split; [vm_compute; reflexivity|]]].
  - split; [done|]. split; [|split; [apply NoDup_singleton|]].
    + repeat apply Forall_cons_2; [| |constructor]; split;
        first [ exists []; split; [reflexivity|constructor]
              | exists [[113]]; split; [reflexivity|apply Hpl; vm_compute; reflexivity]
              | exists [[104]]; split; [reflexivity|apply Hpl; vm_compute; reflexivity]
              | exists [[115]; [100]]; split; [reflexivity|apply Hpl; vm_compute; reflexivity] ].
    + apply (bool_decide_eq_true_1 _). vm_compute. reflexivity.
  - split; [apply (bool_decide_eq_true_1 _); vm_compute; reflexivity|].
    split; [vm_compute; reflexivity|]. split; [reflexivity|].
    split; [apply (bool_decide_eq_true_1 _); vm_compute; reflexivity|].
    intros [tail H]. vm_compute in H. discriminate.
Qed.

(** With a single root mapping, [-m /,<dir>], mapping a guest path to the
    host and the host path back gives the normalised guest path again. *)
Theorem map_root_roundtrip m p :
  wf_mapper m -> m_prefixes m = [] -> is_abs p = true ->
  exists info info',
    map_path_to_host_s m p false = Ok info /\
    map_path_to_qnx_s m (pi_host_path info) true = Ok info' /\
    pi_qnx_path info' = normalize_path p.
Proof.
  intros Hwf Hnil Ha. pose proof (normalize_normal p) as (qs & Hq & Hqs). rewrite Ha in Hq.
  destruct Hwf as (Hr & Hf & _). apply Forall_cons in Hf as [[_ (hs & Hh & Hhs)] _].
  unfold map_path_to_host_s, map_path_to_host, mk_qnx_path, most_specific. rewrite Hnil. simpl.
  rewrite Hr, Hh, Hq. 
  assert (Hc : change_prefix [SLASH] (render true hs) (render true qs) = Ok (render true (hs ++ qs)))
    by by apply (change_prefix_spec [] hs qs).
  rewrite Hc. eexists _. eexists. split; [reflexivity|]. simpl.
  unfold map_path_to_qnx_s, map_path_to_qnx, mk_host_path, most_general. rewrite Hnil. simpl.
  rewrite Hh. assert (Hs : path_starts_with (render true (hs ++ qs)) (render true hs) = true).
  { apply starts_with_spec. destruct (decide (qs = [])) as [-> |Hne].
    - exists []. by rewrite !app_nil_r.
    - destruct (decide (hs = [])) as [-> |Hhne]; [by exists (join qs)|].
      exists (SLASH :: join qs). unfold render. rewrite join_app by done. done. }
  rewrite Hs, Hr, Hh.
  assert (Hc' : change_prefix (render true hs) [SLASH] (render true (hs ++ qs)) = Ok (render true qs))
    by by apply (change_prefix_spec hs [] qs).
  rewrite Hc'. split; [reflexivity|done].
Qed.

Lemma map_root_roundtrip_witness :
  let m := mkPathMapper (mkPrefix [47; 113] [47] EXEC_QNX) [] in
  exists info info',
    map_path_to_host_s m [47; 97; 47; 47; 98] false = Ok info /\
    map_path_to_qnx_s m (pi_host_path info) true = Ok info' /\
    pi_qnx_path info' = [47; 97; 47; 98].
Proof.
  exact (map_root_roundtrip _ [47; 97; 47; 47; 98] (proj1 add_map_inv_witness) eq_refl eq_refl).
Defined.
