(* ===== verification/PidMap.v ===== *)
(** * PidMap: [qnx_pid.h], [qnx_pid.cpp]

    The mapping between 16-bit QNX process ids and host pids.  [m_qnx_map] is
    the ordered [std::map]; a [QnxPid*] is a pointer to a node of it and is
    represented by the node's key.  [m_reverse_map] holds such pointers. *)

From S2P Require Import Prelude.

Inductive PidType := EMPTY | PERMANENT | ROOT_PARENT | SELF | CHILD | SID | PGID.

#[export] Instance PidType_eq_dec : EqDecision PidType.
Proof. solve_decision. Defined.

Definition PID_PROC : Z := 1.
Definition PID_UNKNOWN : Z := 2.

Record QnxPid := mkQnxPid { q_type : PidType; q_qnx_pid : Z; q_host_pid : Z }.

#[export] Instance QnxPid_eq_dec : EqDecision QnxPid.
Proof. solve_decision. Defined.

Definition m_start_pid : Z := 10.
Definition m_last_pid : Z := 32767.

Record PidMap := mkPidMap { m_qnx_map : gmap Z QnxPid; m_reverse_map : gmap Z Z }.

Definition PidMap_new : PidMap := mkPidMap ∅ ∅.

(** ** Iterators of [std::map]: a key, or [None] for [end()] *)

Fixpoint least (l : list Z) : option Z :=
  match l with
  | [] => None
  | x :: l => Some (match least l with None => x | Some y => Z.min x y end)
  end.

Definition keys (m : gmap Z QnxPid) : list Z := elements (dom m).
Definition begin_ (m : gmap Z QnxPid) : option Z := least (keys m).
Definition find_ (m : gmap Z QnxPid) (k : Z) : option Z :=
  match m !! k with Some _ => Some k | None => None end.
Definition next_ (m : gmap Z QnxPid) (k : Z) : option Z :=
  least (filter (fun x => k < x) (keys m)).

(** ** Hashing a host pid *)

Definition compress_pid (host_pid : Z) : Z :=
  let pid_range := m_last_pid - m_start_pid + 1 in
  let host_pid := if host_pid <? m_start_pid then host_pid + pid_range else host_pid in
  u16 (m_start_pid + Z.rem (host_pid - m_start_pid) pid_range).

Definition randomize_pid (host_pid : Z) : Z :=
  let pid_range := u32 (m_last_pid - m_start_pid + 1) in
  let hash := u32 (m_start_pid + u32 (u32 host_pid * 3779)) in
  u16 (m_start_pid + hash mod pid_range).

(** ** Allocation *)

(** The [while] of [alloc_empty]; it visits at most all pids once. *)
Fixpoint probe_loop (fuel : nat) (m : gmap Z QnxPid) (try_pid : Z) (it : option Z) (start_pid : Z)
  : outcome Z :=
  match fuel with
  | O => Throw (Undefined "fuel")
  | S fuel =>
      match it with
      | Some k =>
          if k =? try_pid then
            let '(try', it') :=
              if try_pid =? m_last_pid then (m_start_pid, begin_ m)
              else (u16 (try_pid + 1), next_ m k) in
            if try' =? start_pid then Throw PidMapFull
            else probe_loop fuel m try' it' start_pid
          else Ok try_pid
      | None => Ok try_pid
      end
  end.

Definition probe_fuel : nat := Z.to_nat (m_last_pid - m_start_pid + 3).

Definition find_pid (m : gmap Z QnxPid) (host_pid : Z) : outcome Z :=
  let try_pid := compress_pid host_pid in
  match find_ m try_pid with
  | Some _ =>
      let try_pid := randomize_pid host_pid in
      probe_loop probe_fuel m try_pid (find_ m try_pid) try_pid
  | None => Ok try_pid
  end.

(** [&m_qnx_map[try_pid]] yields the existing node when there is one. *)
Definition alloc_empty (host_pid : Z) : M PidMap Z := fun m =>
  match find_pid (m_qnx_map m) host_pid with
  | Throw e => (m, Throw e)
  | Ok try_pid =>
      let old := default (mkQnxPid EMPTY 0 0) (m_qnx_map m !! try_pid) in
      (mkPidMap (<[try_pid := mkQnxPid EMPTY try_pid (q_host_pid old)]> (m_qnx_map m))
                (m_reverse_map m), Ok try_pid)
  end.

Definition set_node (pi : Z) (t : PidType) (host_pid : Z) (m : PidMap) : PidMap :=
  mkPidMap (alter (fun e => mkQnxPid t (q_qnx_pid e) host_pid) pi (m_qnx_map m)) (m_reverse_map m).
Definition set_reverse (host_pid pi : Z) (m : PidMap) : PidMap :=
  mkPidMap (m_qnx_map m) (<[host_pid := pi]> (m_reverse_map m)).

Definition alloc_permanent_pid (pid host_pid : Z) : M PidMap Z :=
  m ← get;
  _ ← lift (check (bool_decide (m_qnx_map m !! pid = None)) AssertFailed);
  _ ← (if 0 <=? host_pid
       then lift (check (bool_decide (m_reverse_map m !! host_pid = None)) AssertFailed)
       else mret ());
  _ ← put (mkPidMap (<[pid := mkQnxPid PERMANENT pid host_pid]> (m_qnx_map m)) (m_reverse_map m));
  _ ← (if 0 <=? host_pid then modify (set_reverse host_pid pid) else mret ());
  mret pid.

(** The result is a nullable pointer. *)
Definition alloc_related_pid (host_pid : Z) (type : PidType) : M PidMap (option Z) :=
  _ ← lift (check (bool_decide (type = PGID \/ type = SID \/ type = SELF \/ type = ROOT_PARENT))
              AssertFailed);
  if host_pid =? -1 then mret None
  else
    m ← get;
    match m_reverse_map m !! host_pid with
    | Some p => mret (Some p)
    | None =>
        pid_info ← alloc_empty host_pid;
        _ ← modify (set_node pid_info type host_pid);
        _ ← modify (set_reverse host_pid pid_info);
        mret (Some pid_info)
    end.

Definition alloc_child_pid (host_pid : Z) : M PidMap Z :=
  m ← get;
  _ ← (if 0 <=? host_pid
       then lift (check (bool_decide (m_reverse_map m !! host_pid = None)) AssertFailed)
       else mret ());
  pi ← alloc_empty host_pid;
  _ ← modify (set_node pi CHILD host_pid);
  _ ← (if 0 <=? host_pid then modify (set_reverse host_pid pi) else mret ());
  mret pi.

(** ** Lookup and release *)

Definition qnx (m : PidMap) (pid : Z) : option QnxPid := m_qnx_map m !! pid.

(** [pi->host_pid()] is evaluated before any null check. *)
Definition qnx_valid_host (m : PidMap) (pid : Z) : outcome (option QnxPid) :=
  match qnx m pid with
  | None => Throw (Undefined "null pointer")
  | Some pi => Ok (if q_host_pid pi =? -1 then None else Some pi)
  end.

Definition host (m : PidMap) (pid : Z) : option Z := m_reverse_map m !! pid.

(** Reading a node through a pointer. *)
Definition deref (m : PidMap) (p : Z) : outcome QnxPid :=
  match m_qnx_map m !! p with
  | Some e => Ok e
  | None => Throw (Undefined "dangling pointer")
  end.

Definition free_pid (p : Z) : M PidMap unit :=
  m ← get;
  e ← lift (deref m p);
  put (mkPidMap (delete (q_qnx_pid e) (m_qnx_map m))
         (if ((0 <? q_host_pid e) && bool_decide (q_type e = CHILD))%bool
          then delete (q_host_pid e) (m_reverse_map m) else m_reverse_map m)).

(** [Process::initialize_pids]: [getsid] and [getpgid] answer -1 on error. *)
Record host_ids := mkHostIds { h_self : Z; h_ppid : Z; h_psid : Z; h_ppgid : Z; h_sid : Z; h_pgid : Z }.

Definition initialize_pids (h : host_ids) : M PidMap (option Z * option Z) :=
  _ ← alloc_permanent_pid PID_PROC (-1);
  _ ← alloc_permanent_pid PID_UNKNOWN (-1);
  m_parent_pid ← alloc_related_pid (h_ppid h) ROOT_PARENT;
  m_my_pid ← alloc_related_pid (h_self h) SELF;
  _ ← alloc_related_pid (h_psid h) SID;
  _ ← alloc_related_pid (h_ppgid h) PGID;
  _ ← alloc_related_pid (h_sid h) SID;
  _ ← alloc_related_pid (h_pgid h) PGID;
  mret (m_parent_pid, m_my_pid).

(** ** Facts *)

Lemma least_spec l :
  match least l with
  | None => l = []
  | Some x => x ∈ l /\ forall y, y ∈ l -> x <= y
  end.
Proof.
  induction l as [|x l IH]; simpl; [done|]. destruct (least l) as [y|].
  - destruct IH as [Hy Hm]. split.
    + destruct (Z.min_spec x y) as [[_ ->]|[_ ->]]; [by left|by right].
    + intros z Hz. apply elem_of_cons in Hz as [-> |Hz]; [lia|]. specialize (Hm z Hz). lia.
  - subst l. split; [by left|]. intros z Hz. apply list_elem_of_singleton in Hz. lia.
Qed.

Lemma elem_of_keys m k : k ∈ keys m <-> is_Some (m !! k).
Proof. unfold keys. by rewrite elem_of_elements, elem_of_dom. Qed.

Lemma next_succ m k : next_ m k = Some (k + 1) <-> is_Some (m !! (k + 1)).
Proof.
  unfold next_. pose proof (least_spec (filter (fun x => k < x) (keys m))) as H.
  rewrite <- elem_of_keys. destruct (least _) as [x|]; split; intros Hx.
  - injection Hx as ->. destruct H as [H _]. by apply list_elem_of_filter in H as [_ H].
  - destruct H as [H Hm]. apply list_elem_of_filter in H as [H1 H2].
    assert (x <= k + 1) by (apply Hm; rewrite list_elem_of_filter; split; [lia|done]).
    f_equal. lia.
  - done.
  - exfalso. assert (Hin : k + 1 ∈ filter (fun x => k < x) (keys m))
      by (rewrite list_elem_of_filter; split; [lia|done]).
    rewrite H in Hin. by apply not_elem_of_nil in Hin.
Qed.

Lemma begin_below m k : is_Some (m !! k) -> k < m_start_pid -> begin_ m <> Some m_start_pid.
Proof.
  intros Hk Hlt. unfold begin_. pose proof (least_spec (keys m)) as H.
  destruct (least (keys m)) as [x|]; [|done]. intros [= ->]. destruct H as [_ Hm].
  apply elem_of_keys in Hk. specialize (Hm k Hk). lia.
Qed.

Lemma compress_range h : 0 <= h -> m_start_pid <= compress_pid h <= m_last_pid.
Proof.
  intros Hh. unfold compress_pid, m_start_pid, m_last_pid. rewrite wrapu_small.
  - destruct (Z.ltb_spec h 10); zlia.
  - destruct (Z.ltb_spec h 10); zlia.
Qed.

Lemma compress_small h : m_start_pid <= h <= m_last_pid -> compress_pid h = h.
Proof.
  unfold compress_pid, m_start_pid, m_last_pid. intros Hh.
  destruct (Z.ltb_spec h 10); [lia|]. rewrite wrapu_small; zlia.
Qed.

Lemma randomize_range h : m_start_pid <= randomize_pid h <= m_last_pid.
Proof.
  unfold randomize_pid, m_start_pid, m_last_pid.
  rewrite (wrapu_small 32 (32767 - 10 + 1)) by lia.
  generalize (u32 (10 + u32 (u32 h * 3779))). intros x. rewrite wrapu_small; zlia.
Qed.

(** The outcome of the search from [try]: the least free pid at or above it,
    or the wrap-around answer when there is none. *)
Definition probe_post (m : gmap Z QnxPid) (try start : Z) (r : outcome Z) : Prop :=
  (exists p, try <= p <= m_last_pid /\ m !! p = None /\
     (forall j, try <= j < p -> is_Some (m !! j)) /\ r = Ok p) \/
  ((forall j, try <= j <= m_last_pid -> is_Some (m !! j)) /\
   r = if start =? m_start_pid then Throw PidMapFull else Ok m_start_pid).

Lemma probe_loop_spec m start : forall fuel try it,
  (exists k, is_Some (m !! k) /\ k < m_start_pid) ->
  m_start_pid <= start <= try -> try <= m_last_pid ->
  (it = Some try <-> is_Some (m !! try)) ->
  m_last_pid - try + 2 <= Z.of_nat fuel ->
  probe_post m try start (probe_loop fuel m try it start).
Proof.
  induction fuel as [|fuel IH]; intros try it Hlow Hst Hl Hit Hf; [lia|]. simpl.
  destruct it as [k|]; [destruct (Z.eqb_spec k try) as [-> |Hne]|].
  - assert (Ht : is_Some (m !! try)) by by apply Hit.
    destruct (Z.eqb_spec try m_last_pid) as [-> |Hnl].
    + right. split; [intros j Hj; by replace j with m_last_pid by lia|].
      rewrite (Z.eqb_sym m_start_pid). destruct (Z.eqb_spec start m_start_pid); [done|].
      destruct Hlow as (k & Hk & Hkl). pose proof (begin_below m k Hk Hkl) as Hb.
      destruct fuel; [unfold m_start_pid, m_last_pid in *; lia|]. simpl.
      destruct (begin_ m) as [b|]; [|done].
      destruct (Z.eqb_spec b m_start_pid); [congruence|done].
    + unfold m_start_pid, m_last_pid in *. rewrite wrapu_small by lia.
      destruct (Z.eqb_spec (try + 1) start); [lia|].
      destruct (IH (try + 1) (next_ m try)) as [(p & Hp & Hfree & Hmin & Hr)|[Hall Hr]];
        [done|lia|lia|apply next_succ|lia| |].
      * left. exists p. split; [unfold m_last_pid in *; lia|]. split; [done|]. split; [|done].
        intros j Hj. destruct (decide (j = try)) as [-> |]; [done|]. apply Hmin. lia.
      * right. split; [|done]. intros j Hj. destruct (decide (j = try)) as [-> |]; [done|].
        apply Hall. lia.
  - left. exists try. split; [lia|]. split; [|split; [intros; lia|done]].
    destruct (m !! try) eqn:E; [|done]. exfalso.
    assert (H : Some k = Some try) by by apply Hit. congruence.
  - left. exists try. split; [lia|]. split; [|split; [intros; lia|done]].
    destruct (m !! try) eqn:E; [|done]. exfalso. assert (H : None = Some try) by by apply Hit. done.
Qed.

Lemma find_spec m k : find_ m k = Some k <-> is_Some (m !! k).
Proof. unfold find_. destruct (m !! k); split; try done; by intros [? ?]. Qed.

(** ** Invariant *)

(** Node keys agree with their content; every reverse pointer leads to a live
    node for that host pid; the special PROC entry is present. *)
Definition wf (m : PidMap) : Prop :=
  (forall q e, m_qnx_map m !! q = Some e -> q_qnx_pid e = q) /\
  (forall h q, m_reverse_map m !! h = Some q ->
     exists e, m_qnx_map m !! q = Some e /\ q_host_pid e = h) /\
  is_Some (m_qnx_map m !! PID_PROC).

(** A free pid is reachable by the search: the hashed pid itself, or one at or
    above the randomised start. *)
Definition reachable_free (m : PidMap) (h : Z) : Prop :=
  m_qnx_map m !! compress_pid h = None \/
  exists p, randomize_pid h <= p <= m_last_pid /\ m_qnx_map m !! p = None.

Lemma find_pid_fresh m h :
  0 <= h -> wf m -> reachable_free m h ->
  exists q, find_pid (m_qnx_map m) h = Ok q /\ m_qnx_map m !! q = None /\
    m_start_pid <= q <= m_last_pid /\
    (m_qnx_map m !! compress_pid h = None -> q = compress_pid h).
Proof.
  intros Hh (_ & _ & Hproc) Hfree. unfold find_pid, find_ at 1.
  destruct (m_qnx_map m !! compress_pid h) as [e|] eqn:Ec.
  - pose proof (randomize_range h) as Hr.
    destruct (probe_loop_spec (m_qnx_map m) (randomize_pid h) probe_fuel (randomize_pid h)
       (find_ (m_qnx_map m) (randomize_pid h))) as [(p & Hp & Hn & _ & ->)|[Hall _]].
    + exists PID_PROC. split; [done|]. unfold PID_PROC, m_start_pid. lia.
    + lia.
    + lia.
    + apply find_spec.
    + unfold probe_fuel, m_start_pid, m_last_pid in *. lia.
    + exists p. split; [done|]. split; [done|]. split; [lia|done].
    + destruct Hfree as [Hf|(p & Hp & Hn)]; [congruence|].
      destruct (Hall p Hp). congruence.
  - exists (compress_pid h). split; [done|]. split; [done|]. split; [by apply compress_range|done].
Qed.

(** Registering host pid [h] under the fresh QNX pid [q]. *)
Definition registered (m : PidMap) (q h : Z) (t : PidType) : PidMap :=
  mkPidMap (<[q := mkQnxPid t q h]> (m_qnx_map m)) (<[h := q]> (m_reverse_map m)).

Lemma wf_registered m q h t :
  wf m -> m_qnx_map m !! q = None -> m_reverse_map m !! h = None -> wf (registered m q h t).
Proof.
  intros (H1 & H2 & H3) Hq Hh. unfold wf, registered. simpl. split; [|split].
  - intros k e. rewrite lookup_insert. case_decide as Hk; [|apply H1].
    intros [= <-]. done.
  - intros k p. rewrite lookup_insert. case_decide as Hk.
    + intros [= <-]. subst k. exists (mkQnxPid t q h). by rewrite lookup_insert_eq.
    + intros Hp. destruct (H2 k p Hp) as (e & He & Hhp). exists e. split; [|done].
      rewrite lookup_insert_ne; [done|]. intros ->. congruence.
  - rewrite lookup_insert. case_decide; [done|exact H3].
Qed.

Lemma alloc_empty_fresh m h q t :
  find_pid (m_qnx_map m) h = Ok q -> m_qnx_map m !! q = None ->
  exists m1, alloc_empty h m = (m1, Ok q) /\
    set_reverse h q (set_node q t h m1) = registered m q h t.
Proof.
  intros Hf Hq. unfold alloc_empty. rewrite Hf. eexists. split; [reflexivity|].
  unfold set_reverse, set_node, registered. simpl. by rewrite alter_insert_eq.
Qed.

(** ** Properties *)

(** C32. The pid search terminates and is characterised exactly: the hashed pid
    if it is free (small host pids keep their number), otherwise the least free
    pid from the randomised start upwards; when every pid from there to the end
    is taken, the wrap-around answers pid 10 without looking whether it is
    free, or reports a full map when it had started at 10. *)
Theorem find_pid_correct m h :
  0 <= h -> (exists k, is_Some (m !! k) /\ k < m_start_pid) ->
  (m_start_pid <= h <= m_last_pid -> compress_pid h = h) /\
  (m !! compress_pid h = None -> find_pid m h = Ok (compress_pid h)) /\
  (is_Some (m !! compress_pid h) ->
     probe_post m (randomize_pid h) (randomize_pid h) (find_pid m h)) /\
  (forall q, find_pid m h = Ok q -> m_start_pid <= q <= m_last_pid).
Proof.
  intros Hh Hlow. split; [apply compress_small|].
  pose proof (randomize_range h) as Hr. pose proof (compress_range h Hh) as Hc.
  assert (Hprobe : is_Some (m !! compress_pid h) ->
     probe_post m (randomize_pid h) (randomize_pid h) (find_pid m h)).
  { intros [e He]. unfold find_pid, find_ at 1. rewrite He.
    apply probe_loop_spec; [done|lia|lia|apply find_spec|].
    unfold probe_fuel, m_start_pid, m_last_pid in *. lia. }
  assert (Hfree : m !! compress_pid h = None -> find_pid m h = Ok (compress_pid h)).
  { intros Hn. unfold find_pid, find_ at 1. by rewrite Hn. }
  split; [done|]. split; [done|]. intros q Hq.
  destruct (m !! compress_pid h) eqn:E; [|rewrite Hfree in Hq by done; by injection Hq as <-].
  destruct (Hprobe ltac:(done)) as [(p & Hp & _ & _ & He)|[_ He]]; rewrite He in Hq.
  - injection Hq as <-. lia.
  - destruct (_ =? _); [done|]. injection Hq as <-. unfold m_start_pid, m_last_pid. lia.
Qed.

Lemma find_pid_correct_witness :
  let m : gmap Z QnxPid := {[ 1 := mkQnxPid PERMANENT 1 (-1); 500 := mkQnxPid SELF 500 33258 ]} in
  (0 <= 33258 /\ exists k, is_Some (m !! k) /\ k < m_start_pid) /\
  compress_pid 33258 = 500 /\
  probe_post m (randomize_pid 33258) (randomize_pid 33258) (find_pid m 33258).
Proof.
  intros m. assert (Hl : exists k, is_Some (m !! k) /\ k < m_start_pid)
    by (exists 1; split; [eexists; reflexivity | reflexivity]).
  split; [split; [lia|exact Hl]|]. split; [reflexivity|].
  apply (find_pid_correct m 33258 ltac:(lia) Hl). eexists. reflexivity.
Defined.

(** Registering a child (while a free pid is reachable) keeps the two maps
    consistent, makes the pid findable both ways, disturbs no other entry; and
    releasing the child restores the map exactly as it was. *)
Theorem child_pid_roundtrip m h :
  wf m -> 0 < h -> m_reverse_map m !! h = None -> reachable_free m h ->
  exists m' q, alloc_child_pid h m = (m', Ok q) /\ wf m' /\
    m_qnx_map m !! q = None /\
    host m' h = Some q /\ qnx_valid_host m' q = Ok (Some (mkQnxPid CHILD q h)) /\
    (forall q', q' <> q -> qnx m' q' = qnx m q') /\
    (forall h', h' <> h -> host m' h' = host m h') /\
    free_pid q m' = (m, Ok ()).
Proof.
  intros Hwf Hh Hrev Hfree.
  destruct (find_pid_fresh m h) as (q & Hf & Hq & Hrng & _); [lia|done|done|].
  destruct (alloc_empty_fresh m h q CHILD Hf Hq) as (m1 & He & Hreg).
  exists (registered m q h CHILD), q.
  assert (Ha : alloc_child_pid h m = (registered m q h CHILD, Ok q)).
  { unfold alloc_child_pid, get, modify, lift, mbind, M_bind.
    destruct (Z.leb_spec 0 h); [|lia]. rewrite bool_decide_eq_true_2 by done. simpl.
    rewrite He. by rewrite Hreg. }
  split; [exact Ha|]. split; [by apply wf_registered|]. split; [done|].
  unfold host, qnx, qnx_valid_host, qnx, registered. simpl. rewrite !lookup_insert_eq. simpl.
  destruct (Z.eqb_spec h (-1)); [lia|]. split; [done|]. split; [done|].
  split; [intros; by rewrite lookup_insert_ne|]. split; [intros; by rewrite lookup_insert_ne|].
  unfold free_pid, get, put, lift, mbind, M_bind, deref. simpl. rewrite lookup_insert_eq. simpl.
  destruct (Z.ltb_spec 0 h); [|lia]. simpl. rewrite !delete_insert_id by done. by destruct m.
Qed.

Definition demo_pids : PidMap :=
  mkPidMap {[ 1 := mkQnxPid PERMANENT 1 (-1); 500 := mkQnxPid SELF 500 33258 ]} {[ 33258 := 500 ]}.

Lemma wf_demo_pids : wf demo_pids.
Proof.
  unfold wf, demo_pids. simpl. split; [|split].
  - intros q e. rewrite lookup_insert. case_decide; [by intros [= <-]|].
    rewrite lookup_singleton. case_decide; [by intros [= <-]|done].
  - intros h q. rewrite lookup_singleton. case_decide; [|done]. intros [= <-]. subst.
    eexists. split; reflexivity.
  - eexists. reflexivity.
Qed.

Lemma child_pid_roundtrip_witness :
  wf demo_pids /\ reachable_free demo_pids 700 /\
  exists m' q, alloc_child_pid 700 demo_pids = (m', Ok q) /\ q = 700 /\ free_pid q m' = (demo_pids, Ok ()).
Proof.
  assert (Hf : reachable_free demo_pids 700) by (left; reflexivity).
  split; [exact wf_demo_pids|]. split; [exact Hf|].
  destruct (child_pid_roundtrip demo_pids 700 wf_demo_pids ltac:(lia) eq_refl Hf)
    as (m' & q & Ha & _ & _ & _ & _ & _ & _ & Hfr).
  exists m', q. split; [exact Ha|]. split; [|exact Hfr].
  vm_compute in Ha. congruence.
Defined.

(** [alloc_related_pid] keeps the maps consistent, returns the entry the
    host pid already has, and otherwise registers it under a fresh pid. *)
Theorem related_pid_inv m h t :
  wf m -> (t = PGID \/ t = SID \/ t = SELF \/ t = ROOT_PARENT) -> 0 <= h -> reachable_free m h ->
  exists m' q, alloc_related_pid h t m = (m', Ok (Some q)) /\ wf m' /\ host m' h = Some q /\
    (exists e, qnx m' q = Some e /\ q_host_pid e = h) /\
    match host m h with
    | Some q0 => q = q0 /\ m' = m
    | None => qnx m q = None /\ m' = registered m q h t
    end.
Proof.
  intros Hwf Ht Hh Hfree. unfold alloc_related_pid, get, modify, lift, mbind, M_bind.
  rewrite bool_decide_eq_true_2 by done. simpl. destruct (Z.eqb_spec h (-1)); [lia|].
  unfold host at 2. destruct (m_reverse_map m !! h) as [q0|] eqn:Hr.
  - exists m, q0. split; [done|]. split; [done|]. split; [done|]. split; [|done].
    destruct Hwf as (_ & H2 & _). by apply H2.
  - destruct (find_pid_fresh m h) as (q & Hf & Hq & _); [done|done|done|].
    destruct (alloc_empty_fresh m h q t Hf Hq) as (m1 & -> & Hreg).
    exists (registered m q h t), q. rewrite Hreg. split; [done|].
    split; [by apply wf_registered|]. unfold host, qnx, registered. simpl.
    rewrite !lookup_insert_eq. split; [done|]. split; [by eexists|done].
Qed.

Lemma related_pid_inv_witness :
  wf demo_pids /\ exists m' q, alloc_related_pid 33258 SID demo_pids = (m', Ok (Some q)) /\ q = 500.
Proof.
  split; [exact wf_demo_pids|].
  destruct (related_pid_inv demo_pids 33258 SID wf_demo_pids ltac:(auto) ltac:(lia))
    as (m' & q & Ha & _ & _ & _ & Hq).
  - right. exists 32767. split; [vm_compute; split; discriminate|reflexivity].
  - exists m', q. split; [exact Ha|]. apply Hq.
Defined.

(** Asking for an unknown QNX pid with [qnx_valid_host] has no defined
    behaviour: the missing node is dereferenced before it is tested, although
    every caller tests the result for null to answer "no such process". *)
Theorem qnx_valid_host_unknown m pid :
  (qnx m pid = None -> qnx_valid_host m pid = Throw (Undefined "null pointer")) /\
  (forall e, qnx m pid = Some e ->
     qnx_valid_host m pid = Ok (if q_host_pid e =? -1 then None else Some e)).
Proof. unfold qnx_valid_host. split; [by intros ->|by intros e ->]. Qed.
