(* ===== verification/IntrusiveList.v ===== *)
(** * IntrusiveList: [intrusive_list.h]

    Circular doubly linked lists through nodes embedded in the objects.  The
    two pointer fields of all nodes form a heap; address 0 is [nullptr].  The
    list a head represents is a plain Rocq list, and each operation refines the
    corresponding list operation. *)

From S2P Require Import Prelude.

Record heap := mkHeap { nexts : gmap Z Z; prevs : gmap Z Z }.

Definition m_next (h : heap) (n : Z) : Z := default 0 (nexts h !! n).
Definition m_prev (h : heap) (n : Z) : Z := default 0 (prevs h !! n).

(** Writing through a null pointer has no defined behaviour. *)
Definition set_next (n v : Z) : M heap unit := fun h =>
  if n =? 0 then (h, Throw (Undefined "null pointer"))
  else (mkHeap (<[n := v]> (nexts h)) (prevs h), Ok ()).
Definition set_prev (n v : Z) : M heap unit := fun h =>
  if n =? 0 then (h, Throw (Undefined "null pointer"))
  else (mkHeap (nexts h) (<[n := v]> (prevs h)), Ok ()).

(** ** [GenericNode] *)

Definition node_new (n : Z) : M heap unit := _ ← set_next n 0; set_prev n 0.

Definition is_linked (h : heap) (n : Z) : bool := negb ((m_next h n =? 0) && (m_prev h n =? 0)).
Definition is_empty (h : heap) (n : Z) : bool := m_next h n =? n.

Definition erase (n : Z) : M heap unit :=
  h ← get; _ ← set_next (m_prev h n) (m_next h n);
  h ← get; _ ← set_prev (m_next h n) (m_prev h n);
  _ ← set_next n 0;
  set_prev n 0.

Definition insert_after (this next : Z) : M heap unit :=
  h ← get;
  if is_empty h this then
    _ ← set_next this next;
    _ ← set_prev this next;
    _ ← set_next next this;
    set_prev next this
  else
    let next2 := m_next h this in
    _ ← set_next this next;
    _ ← set_prev next2 next;
    _ ← set_prev next this;
    set_next next next2.

Fixpoint clear (fuel : nat) (n : Z) : M heap unit :=
  match fuel with
  | O => throw (Undefined "fuel")
  | S fuel =>
      h ← get;
      if is_empty h n then mret ()
      else _ ← erase (m_next h n); clear fuel n
  end.

(** [Node::~Node]. *)
Definition node_delete (n : Z) : M heap unit :=
  h ← get; if is_linked h n then erase n else mret ().

(** ** [List] *)

Definition list_new (head : Z) : M heap unit := _ ← set_next head head; set_prev head head.
Definition add_front (head v : Z) : M heap unit := insert_after head v.

(** [for (it = begin(); it != end(); ++it)], collecting the nodes. *)
Fixpoint iterate (fuel : nat) (h : heap) (head pos : Z) : outcome (list Z) :=
  match fuel with
  | O => Throw (Undefined "fuel")
  | S fuel => if pos =? head then Ok []
              else l ← iterate fuel h head (m_next h pos); Ok (pos :: l)
  end.

(** ** Representation *)

(** Following [next] from [a] visits [l] and then [b]; [prev] mirrors it. *)
Fixpoint chain (h : heap) (a : Z) (l : list Z) (b : Z) : Prop :=
  match l with
  | [] => m_next h a = b /\ m_prev h b = a
  | x :: l => m_next h a = x /\ m_prev h x = a /\ chain h x l b
  end.

Definition represents (h : heap) (head : Z) (l : list Z) : Prop :=
  head <> 0 /\ 0 ∉ l /\ NoDup (head :: l) /\ chain h head l head.

Definition first (l : list Z) (b : Z) : Z := default b (head l).
Definition last_ (a : Z) (l : list Z) : Z := default a (last l).

Lemma last_cons_ a x l : last_ a (x :: l) = last_ x l.
Proof. unfold last_. rewrite last_cons. by destruct (last l). Qed.

Lemma chain_frame h h' a l b :
  (forall x, x ∈ a :: l -> m_next h' x = m_next h x) ->
  (forall x, x ∈ l \/ x = b -> m_prev h' x = m_prev h x) ->
  chain h a l b -> chain h' a l b.
Proof.
  revert a. induction l as [|y l IH]; intros a Hn Hp; simpl.
  - intros [<- H2]. rewrite Hn, Hp; [done|by right|by left].
  - intros (H1 & H2 & H3). rewrite Hn by by left. rewrite Hp by (left; by left).
    split; [done|]. split; [done|]. apply IH; [|intros x [Hx|Hx]|done].
    + intros x Hx. apply Hn. by right.
    + apply Hp. left. by right.
    + apply Hp. by right.
Qed.

Lemma chain_next h a l b : chain h a l b -> m_next h a = first l b.
Proof. destruct l; simpl; by intros (-> & _). Qed.

Lemma chain_around h a l1 x l2 b :
  chain h a (l1 ++ x :: l2) b -> m_prev h x = last_ a l1 /\ m_next h x = first l2 b.
Proof.
  revert a. induction l1 as [|y l1 IH]; intros a; simpl.
  - intros (_ & H2 & H3). split; [done|]. by apply chain_next in H3.
  - intros (_ & _ & H). apply IH in H as [H1 H2]. split; [|done].
    by rewrite H1, last_cons_.
Qed.

Lemma last_elem a l : last_ a l = a \/ last_ a l ∈ l.
Proof.
  unfold last_. destruct (last l) as [x|] eqn:E; [|by left]. right.
  by apply last_Some_elem_of in E.
Qed.

Lemma first_elem l b : first l b = b \/ first l b ∈ l.
Proof. destruct l; [by left|]. right. by left. Qed.

Lemma m_next_insert q n v p x :
  m_next (mkHeap (<[n := v]> q) p) x = if decide (x = n) then v else m_next (mkHeap q p) x.
Proof.
  unfold m_next. simpl. case_decide; subst; [by rewrite lookup_insert_eq|].
  by rewrite lookup_insert_ne by congruence.
Qed.

Lemma m_prev_insert p n v q x :
  m_prev (mkHeap q (<[n := v]> p)) x = if decide (x = n) then v else m_prev (mkHeap q p) x.
Proof.
  unfold m_prev. simpl. case_decide; subst; [by rewrite lookup_insert_eq|].
  by rewrite lookup_insert_ne by congruence.
Qed.

Ltac dec := repeat case_decide; subst; try done; try congruence; try (exfalso; intuition congruence).

(** Taking [x] out of a chain. *)
Lemma chain_unlink h h' a l1 x l2 b :
  NoDup (l1 ++ x :: l2) -> a ∉ l1 ++ x :: l2 -> b ∉ l1 ++ x :: l2 ->
  (forall y, m_next h' y = if decide (y = x) then 0
                           else if decide (y = last_ a l1) then first l2 b else m_next h y) ->
  (forall y, m_prev h' y = if decide (y = x) then 0
                           else if decide (y = first l2 b) then last_ a l1 else m_prev h y) ->
  chain h a (l1 ++ x :: l2) b -> chain h' a (l1 ++ l2) b.
Proof.
  revert a. induction l1 as [|c l1 IH]; intros a Hnd Ha Hb Hn Hp; simpl in *.
  - intros (H1 & H2 & H3). apply NoDup_cons in Hnd as [Hx Hnd].
    apply not_elem_of_cons in Ha as [Hax Ha]. apply not_elem_of_cons in Hb as [Hbx Hb].
    unfold last_ in *. simpl in *.
    destruct l2 as [|y l2]; unfold first in *; simpl in *.
    + rewrite Hn, Hp. split; dec.
    + apply not_elem_of_cons in Ha as [Hay Ha]. apply not_elem_of_cons in Hb as [Hby Hb].
      apply not_elem_of_cons in Hx as [Hxy Hx]. apply NoDup_cons in Hnd as [Hy Hnd].
      rewrite Hn, Hp. split; [dec|]. split; [dec|].
      eapply chain_frame; [| |apply H3]; intros z Hz; rewrite ?Hn, ?Hp.
      * apply elem_of_cons in Hz. dec.
      * dec.
  - intros (H1 & H2 & H3). apply NoDup_cons in Hnd as [Hc Hnd].
    apply not_elem_of_cons in Ha as [Hac Ha]. apply not_elem_of_cons in Hb as [Hbc Hb].
    rewrite last_cons_ in *.
    split; [|split; [|apply IH; done]].
    + rewrite elem_of_app, elem_of_cons in Ha.
      rewrite Hn, (decide_False (P := a = x)) by tauto. rewrite decide_False; [done|].
      intros He. destruct (last_elem c l1) as [E|E]; rewrite <- He in E; tauto.
    + rewrite elem_of_app, elem_of_cons in Hc.
      rewrite Hp, (decide_False (P := c = x)) by tauto. rewrite decide_False; [done|].
      intros He. destruct (first_elem l2 b) as [E|E]; rewrite <- He in E; [|tauto].
      by symmetry in E.
Qed.

(** ** Operations refine list operations *)

Lemma erase_refines h head l1 x l2 :
  represents h head (l1 ++ x :: l2) ->
  exists h', erase x h = (h', Ok ()) /\ represents h' head (l1 ++ l2) /\
    is_linked h' x = false /\
    (forall y, y ∉ head :: l1 ++ x :: l2 -> m_next h' y = m_next h y /\ m_prev h' y = m_prev h y).
Proof.
  intros (Hh & H0 & Hnd & Hch). pose proof (chain_around _ _ _ _ _ _ Hch) as [Hpx Hnx].
  apply NoDup_cons in Hnd as [Hhl Hnd].
  assert (Hx0 : x <> 0) by (intros ->; apply H0, elem_of_app; right; by left).
  assert (Hpin : m_prev h x = head \/ m_prev h x ∈ l1) by (rewrite Hpx; apply last_elem).
  assert (Hnin : m_next h x = head \/ m_next h x ∈ l2) by (rewrite Hnx; apply first_elem).
  assert (Hp0 : m_prev h x <> 0).
  { destruct Hpin as [-> |Hi]; [done|]. intros He. rewrite He in Hi. apply H0, elem_of_app. by left. }
  assert (Hn0 : m_next h x <> 0).
  { destruct Hnin as [-> |Hi]; [done|]. intros He. rewrite He in Hi.
    apply H0, elem_of_app. right. by right. }
  assert (Hxl : x ∉ l1 /\ x ∉ l2).
  { apply NoDup_app in Hnd as (_ & Hd & Hn2). apply NoDup_cons in Hn2 as [? _].
    split; [|done]. intros Hin. apply (Hd x Hin). by left. }
  assert (Hxh : x <> head) by (intros ->; apply Hhl, elem_of_app; right; by left).
  assert (Hpxx : m_prev h x <> x) by (destruct Hpin; intros He; rewrite He in *; naive_solver).
  assert (Hnxx : m_next h x <> x) by (destruct Hnin; intros He; rewrite He in *; naive_solver).
  unfold erase, get, set_next, set_prev, mbind, M_bind.
  apply Z.eqb_neq in Hp0 as Hp0', Hn0 as Hn0', Hx0 as Hx0'. rewrite Hp0'.
  cbv beta iota. rewrite m_next_insert, decide_False by congruence.
  change (m_prev (mkHeap (<[m_prev h x := m_next h x]> (nexts h)) (prevs h)) x) with (m_prev h x).
  change (m_next (mkHeap (nexts h) (prevs h)) x) with (m_next h x).
  rewrite Hn0', Hx0'. cbv beta iota. cbn [nexts prevs].
  match goal with |- context [(?h', Ok ())] => set (h1 := h') end.
  assert (Hn : forall y, m_next h1 y = if decide (y = x) then 0
      else if decide (y = m_prev h x) then m_next h x else m_next h y).
  { intros y. unfold h1. by rewrite !m_next_insert. }
  assert (Hp : forall y, m_prev h1 y = if decide (y = x) then 0
      else if decide (y = m_next h x) then m_prev h x else m_prev h y).
  { intros y. unfold h1. by rewrite !m_prev_insert. }
  exists h1. split; [done|]. split; [|split].
  - split; [done|]. split; [set_solver|]. split.
    + apply NoDup_cons. split; [set_solver|]. apply NoDup_app in Hnd as (Hd1 & Hd & Hn2).
      apply NoDup_cons in Hn2 as [_ Hn2]. apply NoDup_app. split; [done|]. split; [|done].
      intros z Hz Hz2. apply (Hd z Hz). by right.
    + eapply (chain_unlink h h1); [exact Hnd|exact Hhl|exact Hhl| | |exact Hch].
      * by rewrite <- Hpx, <- Hnx.
      * by rewrite <- Hpx, <- Hnx.
  - unfold is_linked. rewrite Hn, Hp, !decide_True by done. done.
  - intros y Hy. rewrite Hn, Hp. apply not_elem_of_cons in Hy as [Hyh Hy].
    rewrite elem_of_app, elem_of_cons in Hy.
    split; dec.
Qed.

Lemma add_front_refines h head l x :
  represents h head l -> x <> 0 -> x ∉ head :: l ->
  exists h', add_front head x h = (h', Ok ()) /\ represents h' head (x :: l) /\
    (forall y, y ∉ head :: x :: l -> m_next h' y = m_next h y /\ m_prev h' y = m_prev h y).
Proof.
  intros (Hh & H0 & Hnd & Hch) Hx0 Hx. pose proof Hnd as Hnd0.
  apply NoDup_cons in Hnd as [Hhl Hnd]. apply not_elem_of_cons in Hx as [Hxh Hx].
  assert (Hrep : forall h', chain h' head (x :: l) head -> represents h' head (x :: l)).
  { intros h' Hc. split; [done|]. split; [rewrite elem_of_cons; naive_solver|]. split; [|done].
    apply NoDup_cons. split; [rewrite elem_of_cons; naive_solver|]. by apply NoDup_cons. }
  apply Z.eqb_neq in Hh as Hh', Hx0 as Hx0'.
  unfold add_front, insert_after, get, set_next, set_prev, mbind, M_bind.
  destruct l as [|z l]; simpl in Hch.
  - destruct Hch as [H1 H2]. unfold is_empty. rewrite H1, Z.eqb_refl, Hh', Hx0'.
    cbv beta iota. cbn [nexts prevs]. eexists. split; [reflexivity|]. split.
    + apply Hrep. simpl. rewrite !m_next_insert, !m_prev_insert. repeat split; dec.
    + intros y Hy. rewrite !elem_of_cons in Hy. rewrite !m_next_insert, !m_prev_insert.
      destruct h. split; dec.
  - destruct Hch as (H1 & H2 & H3). rewrite !elem_of_cons in *.
    unfold is_empty. rewrite H1. destruct (Z.eqb_spec z head) as [-> |Hz]; [naive_solver|].
    assert (Hz0 : z <> 0) by naive_solver. apply Z.eqb_neq in Hz0 as Hz0'.
    rewrite Hh', Hz0', Hx0'. cbv beta iota. cbn [nexts prevs]. eexists. split; [reflexivity|].
    apply NoDup_cons in Hnd as [Hzl Hnd]. split.
    + apply Hrep. simpl. rewrite !m_next_insert, !m_prev_insert. repeat split; try (dec; fail).
      eapply chain_frame; [| |exact H3]; intros w Hw;
        rewrite ?m_next_insert, ?m_prev_insert; destruct h.
      * rewrite elem_of_cons in Hw. dec.
      * dec.
    + intros y Hy. rewrite !elem_of_cons in Hy. rewrite !m_next_insert, !m_prev_insert.
      destruct h. split; dec.
Qed.

Lemma empty_refines h head l :
  represents h head l -> is_empty h head = true <-> l = [].
Proof.
  intros (Hh & H0 & Hnd & Hch). unfold is_empty. rewrite Z.eqb_eq, (chain_next _ _ _ _ Hch).
  destruct l as [|x l]; unfold first; simpl; [done|]. split; [|done]. intros ->.
  apply NoDup_cons in Hnd as [Hn _]. destruct Hn. by left.
Qed.

(** The iterator visits the elements in order. *)
Lemma iterate_chain h head : forall l a fuel,
  chain h a l head -> head ∉ l -> (length l < fuel)%nat -> iterate fuel h head (m_next h a) = Ok l.
Proof.
  induction l as [|x l IH]; intros a [|fuel] Hch Hn Hf; simpl in *; try lia.
  - destruct Hch as [-> _]. by rewrite Z.eqb_refl.
  - destruct Hch as (-> & _ & Hch). apply not_elem_of_cons in Hn as [Hne Hn].
    destruct (Z.eqb_spec x head); [congruence|]. rewrite (IH x) by (done || lia). done.
Qed.

(** One round of [clear]: the first element goes. *)
Lemma clear_step h head x l :
  represents h head (x :: l) ->
  exists h1, (forall fuel, clear (S fuel) head h = clear fuel head h1) /\ represents h1 head l /\
    is_linked h1 x = false /\
    (forall y, y ∉ head :: x :: l -> m_next h1 y = m_next h y /\ m_prev h1 y = m_prev h y).
Proof.
  intros Hr. destruct (erase_refines h head [] x l Hr) as (h1 & H1 & H2 & H3 & H4).
  exists h1. split; [|done]. intros fuel. cbn [clear]. unfold get, mbind, M_bind.
  pose proof (empty_refines _ _ _ Hr) as He.
  destruct (is_empty h head); [by destruct He as [He _]; discriminate He|].
  assert (Hnx : m_next h head = x) by (destruct Hr as (_ & _ & _ & H & _); done).
  by rewrite Hnx, H1.
Qed.

(** [clear] empties the list, unlinks its nodes and touches no other. *)
Lemma clear_refines head : forall l fuel h,
  represents h head l -> (length l < fuel)%nat ->
  exists h', clear fuel head h = (h', Ok ()) /\ represents h' head [] /\
    (forall y, y ∈ l -> is_linked h' y = false) /\
    (forall y, y ∉ head :: l -> m_next h' y = m_next h y /\ m_prev h' y = m_prev h y).
Proof.
  induction l as [|x l IH]; intros [|fuel] h Hr Hf; simpl in Hf; try lia.
  - exists h. cbn [clear]. unfold get, mbind, M_bind. pose proof (empty_refines _ _ _ Hr) as He.
    destruct (is_empty h head); [|by destruct He as [_ He]; discriminate He].
    split; [done|]. split; [done|]. split; [|done]. intros y Hy. by apply not_elem_of_nil in Hy.
  - destruct (clear_step h head x l Hr) as (h1 & -> & Hr1 & Hl1 & Hfr).
    destruct (IH fuel h1 Hr1 ltac:(lia)) as (h' & Hc & Hr' & Hl' & Hfr').
    exists h'. split; [done|]. split; [done|]. destruct Hr as (_ & _ & Hnd & _).
    apply NoDup_cons in Hnd as [Hn1 Hnd]. apply NoDup_cons in Hnd as [Hn2 _]. split.
    + intros y Hy. apply elem_of_cons in Hy as [-> |Hy]; [|by apply Hl'].
      destruct (Hfr' x) as [Hx1 Hx2]; [rewrite elem_of_cons in *; naive_solver|].
      unfold is_linked in *. by rewrite Hx1, Hx2.
    + intros y Hy. destruct (Hfr y Hy) as [<- <-]. apply Hfr'.
      rewrite !elem_of_cons in *. naive_solver.
Qed.

(** A node of the list is linked, so its destructor erases it. *)
Lemma node_delete_erase h head l1 x l2 :
  represents h head (l1 ++ x :: l2) -> node_delete x h = erase x h.
Proof.
  intros (Hh & H0 & Hnd & Hch). unfold node_delete, get, mbind, M_bind.
  apply chain_around in Hch as [Hp _].
  assert (Hl : is_linked h x = true); [|by rewrite Hl].
  unfold is_linked. rewrite Hp. apply negb_true_iff, andb_false_iff. right. apply Z.eqb_neq.
  destruct (last_elem head l1) as [-> |He]; [done|]. intros E. rewrite E in He.
  apply H0, elem_of_app. by left.
Qed.

(** ** Properties *)

(** C33. The pointer surgery implements lists: adding at the front, erasing any
    element by destroying its linked node, and clearing have exactly the effect
    of the list operation and never go through a null pointer.  None of the
    three writes a node that is neither of the list nor the one added.  The
    erased nodes are unlinked, so they can be added again, and the iterator
    visits the elements in order. *)
Theorem list_refines h head l :
  represents h head l ->
  (forall x, x <> 0 -> x ∉ head :: l ->
     exists h', add_front head x h = (h', Ok ()) /\ represents h' head (x :: l) /\
       (forall y, y ∉ head :: x :: l -> m_next h' y = m_next h y /\ m_prev h' y = m_prev h y)) /\
  (forall l1 x l2, l = l1 ++ x :: l2 ->
     exists h', node_delete x h = (h', Ok ()) /\ represents h' head (l1 ++ l2) /\
       is_linked h' x = false /\
       (forall y, y ∉ head :: l -> m_next h' y = m_next h y /\ m_prev h' y = m_prev h y)) /\
  (forall fuel, (length l < fuel)%nat -> iterate fuel h head (m_next h head) = Ok l) /\
  (forall fuel, (length l < fuel)%nat ->
     exists h', clear fuel head h = (h', Ok ()) /\ represents h' head [] /\
       (forall y, y ∈ l -> is_linked h' y = false) /\
       (forall y, y ∉ head :: l -> m_next h' y = m_next h y /\ m_prev h' y = m_prev h y)).
Proof.
  intros Hr. split; [|split; [|split]].
  - intros x Hx0 Hx. by apply add_front_refines.
  - intros l1 x l2 ->. rewrite (node_delete_erase _ _ _ _ _ Hr). by apply erase_refines.
  - destruct Hr as (_ & _ & Hnd & Hch). apply NoDup_cons in Hnd as [Hn _].
    intros fuel. by apply iterate_chain.
  - intros fuel Hf. by apply clear_refines.
Qed.

(** A head at 8 with two nodes, at 16 and 24. *)
Definition demo_heap : heap :=
  mkHeap {[ 8 := 16; 16 := 24; 24 := 8 ]} {[ 8 := 24; 16 := 8; 24 := 16 ]}.

Lemma list_refines_witness :
  represents demo_heap 8 [16; 24] /\ iterate 3 demo_heap 8 16 = Ok [16; 24] /\
  (exists h', node_delete 16 demo_heap = (h', Ok ()) /\ represents h' 8 [24]) /\
  (exists h', add_front 8 32 demo_heap = (h', Ok ()) /\ represents h' 8 [32; 16; 24] /\
     m_next h' 40 = m_next demo_heap 40) /\
  exists h', clear 3 8 demo_heap = (h', Ok ()) /\ represents h' 8 [] /\
     m_next h' 40 = m_next demo_heap 40.
Proof.
  assert (Hr : represents demo_heap 8 [16; 24]).
  { split; [discriminate|]. split; [by apply (bool_decide_eq_true (0 ∉ [16; 24]))|].
    split; [by apply (bool_decide_eq_true (NoDup [8; 16; 24]))|]. repeat split; reflexivity. }
  split; [exact Hr|].
  destruct (list_refines demo_heap 8 [16; 24] Hr) as (Hadd & Hdel & Hit & Hcl).
  split; [apply (Hit 3%nat); simpl; lia|]. split; [|split].
  - destruct (Hdel [] 16 [24] eq_refl) as (h' & H1 & H2 & _). exists h'. split; [exact H1|exact H2].
  - destruct (Hadd 32) as (h' & H1 & H2 & H3); [discriminate|by apply (bool_decide_eq_true (32 ∉ [8; 16; 24]))|].
    exists h'. split; [exact H1|]. split; [exact H2|].
    apply (H3 40). by apply (bool_decide_eq_true (40 ∉ [8; 32; 16; 24])).
  - destruct (Hcl 3%nat) as (h' & H1 & H2 & _ & H3); [simpl; lia|].
    exists h'. split; [exact H1|]. split; [exact H2|].
    apply (H3 40). by apply (bool_decide_eq_true (40 ∉ [8; 16; 24])).
Defined.
