(* ===== verification/Log.v ===== *)
(** * Log: [log.h], [log.cpp] and the [-d] option of [qine.cpp]

    Log categories are bits of the 64-bit [m_enabled]; the command line turns
    them on and off by name. *)

From S2P Require Import Prelude Types.

Inductive Category := INVALID | MSG | MSG_REPLY | LOADER | UNHANDLED | MAP | FD | SIG | DEBUG.

#[export] Instance Category_eq_dec : EqDecision Category.
Proof. solve_decision. Defined.

Definition Category_int (c : Category) : Z :=
  match c with
  | INVALID => 0 | MSG => 1 | MSG_REPLY => 2 | LOADER => 3 | UNHANDLED => 4
  | MAP => 5 | FD => 6 | SIG => 7 | DEBUG => 8
  end.

Definition log_mask (c : Category) : Z := u64 (Z.shiftl 1 (Category_int c)).

(** [m_enabled] is the state. *)
Definition enable (c : Category) (enabled : bool) (m_enabled : Z) : Z :=
  let m_enabled := Z.land m_enabled (u64 (Z.lnot (log_mask c))) in
  if enabled then Z.lor m_enabled (log_mask c) else m_enabled.

(** [if_enabled] runs the logger exactly when this holds; so do [print] and
    [dbg]. *)
Definition is_enabled (c : Category) (m_enabled : Z) : bool := has (log_mask c) m_enabled.

Definition by_name (name : cstring) : Category :=
  if bool_decide (name = lit "debug") then DEBUG
  else if bool_decide (name = lit "msg") then MSG
  else if bool_decide (name = lit "msg_reply") then MSG_REPLY
  else if bool_decide (name = lit "unhandled") then UNHANDLED
  else if bool_decide (name = lit "loader") then LOADER
  else if bool_decide (name = lit "sig") then SIG
  else if bool_decide (name = lit "map") then MAP
  else if bool_decide (name = lit "fd") then FD
  else INVALID.

(** The argument of [-d]: a category with an optional sign. *)
Definition handle_log_opt (opt : cstring) : M Z unit :=
  let '(en, opt) :=
    match opt with
    | c :: rest => if c =? 43 then (true, rest) else if c =? 45 then (false, rest) else (true, opt)
    | [] => (true, opt)
    end in
  let c := by_name opt in
  if decide (c = INVALID) then throw (Exit 1) else modify (enable c en).

(** ** Facts *)

Definition name_of (c : Category) : option string :=
  match c with
  | INVALID => None | MSG => Some "msg" | MSG_REPLY => Some "msg_reply" | LOADER => Some "loader"
  | UNHANDLED => Some "unhandled" | MAP => Some "map" | FD => Some "fd" | SIG => Some "sig"
  | DEBUG => Some "debug"
  end%string.

Lemma by_name_name_of c n : name_of c = Some n -> by_name (lit n) = c.
Proof. destruct c; simpl; intros [= <-]; reflexivity. Qed.

Lemma by_name_inv s c : by_name s = c -> c <> INVALID -> exists n, name_of c = Some n /\ s = lit n.
Proof.
  unfold by_name. intros <-. repeat case_bool_decide; intros Hc; subst; try done;
    simpl; eexists; split; reflexivity.
Qed.

Lemma Category_int_inj c c' : Category_int c = Category_int c' -> c = c'.
Proof. destruct c, c'; simpl; congruence. Qed.

Lemma Category_int_range c : 0 <= Category_int c < 9.
Proof. destruct c; simpl; lia. Qed.

Lemma log_mask_eq c : log_mask c = 2 ^ Category_int c.
Proof. destruct c; reflexivity. Qed.

Lemma is_enabled_bit c m : is_enabled c m = Z.testbit m (Category_int c).
Proof.
  unfold is_enabled, has. rewrite log_mask_eq. pose proof (Category_int_range c) as Hr.
  destruct (Z.testbit m (Category_int c)) eqn:E.
  - apply negb_true_iff, Z.eqb_neq. intros H.
    apply (f_equal (fun z => Z.testbit z (Category_int c))) in H.
    rewrite Z.land_spec, Z.pow2_bits_true, E, Z.bits_0 in H by lia. done.
  - apply negb_false_iff, Z.eqb_eq. apply Z.bits_inj'. intros n Hn.
    rewrite Z.land_spec, Z.pow2_bits_eqb, Z.bits_0 by lia.
    destruct (Z.eqb_spec (Category_int c) n) as [<-|]; [by rewrite E|done].
Qed.

Lemma enable_spec c c' en m :
  is_enabled c' (enable c en m) = if decide (c = c') then en else is_enabled c' m.
Proof.
  rewrite !is_enabled_bit. unfold enable. rewrite log_mask_eq.
  pose proof (Category_int_range c). pose proof (Category_int_range c').
  assert (Hb : Z.testbit (u64 (Z.lnot (2 ^ Category_int c))) (Category_int c') =
    negb (Category_int c =? Category_int c')).
  { unfold wrapu. rewrite Z.mod_pow2_bits_low, Z.lnot_spec, Z.pow2_bits_eqb by lia. done. }
  destruct en; rewrite ?Z.lor_spec, Z.land_spec, Hb, ?Z.pow2_bits_eqb by lia;
    case_decide as Hc; subst; rewrite ?Z.eqb_refl.
  - by rewrite orb_true_r.
  - destruct (Z.eqb_spec (Category_int c) (Category_int c')) as [He|];
      [by apply Category_int_inj in He|]. by rewrite andb_true_r, orb_false_r.
  - by rewrite andb_false_r.
  - destruct (Z.eqb_spec (Category_int c) (Category_int c')) as [He|];
      [by apply Category_int_inj in He|]. by rewrite andb_true_r.
Qed.

(** ** Properties *)

(** [-d name], [-d +name] and [-d -name] switch exactly the named category
    on or off; any other argument exits with status 1 and changes nothing. *)
Theorem handle_log_opt_spec opt m :
  (forall c n, name_of c = Some n ->
     (opt = lit n \/ opt = 43 :: lit n \/ opt = 45 :: lit n) ->
     exists m', handle_log_opt opt m = (m', Ok ()) /\
       forall c', is_enabled c' m' =
         if decide (c = c') then negb (bool_decide (opt = 45 :: lit n)) else is_enabled c' m) /\
  ((forall c n, name_of c = Some n ->
     opt <> lit n /\ opt <> 43 :: lit n /\ opt <> 45 :: lit n) ->
   handle_log_opt opt m = (m, Throw (Exit 1))).
Proof.
  split.
  - intros c n Hn Hopt. pose proof (by_name_name_of c n Hn) as Hb.
    assert (Hne : c <> INVALID) by (intros ->; discriminate Hn).
    assert (Hh : exists h t, lit n = h :: t /\ h <> 43 /\ h <> 45)
      by (destruct c; try discriminate Hn; injection Hn as <-; do 2 eexists;
          (split; [reflexivity|]); split; intros E; vm_compute in E; discriminate E).
    destruct Hh as (h & t & Hl & H43 & H45).
    assert (Hrun : handle_log_opt opt m =
      (enable c (negb (bool_decide (opt = 45 :: lit n))) m, Ok ())).
    { unfold handle_log_opt. destruct Hopt as [-> | [-> | ->]].
      - rewrite bool_decide_eq_false_2 by (rewrite Hl; intros [= ? _]; done).
        apply Z.eqb_neq in H43, H45. rewrite Hl, H43, H45, <- Hl, Hb.
        by rewrite decide_False.
      - rewrite bool_decide_eq_false_2 by done. simpl. by rewrite Hb, decide_False.
      - rewrite bool_decide_eq_true_2 by done. simpl. by rewrite Hb, decide_False. }
    eexists. split; [exact Hrun|]. intros c'. apply enable_spec.
  - intros H. unfold handle_log_opt.
    assert (Hinv : forall s, (forall c n, name_of c = Some n -> s <> lit n) -> by_name s = INVALID).
    { intros s Hs. destruct (decide (by_name s = INVALID)) as [|Hne]; [done|].
      destruct (by_name_inv s _ eq_refl Hne) as (n & Hn & ->). by destruct (Hs _ _ Hn). }
    assert (Hfull : by_name opt = INVALID) by (apply Hinv; intros c n Hn; by destruct (H c n Hn)).
    destruct opt as [|x t].
    + by rewrite decide_True.
    + destruct (Z.eqb_spec x 43) as [-> |]; [|destruct (Z.eqb_spec x 45) as [-> |]].
      * rewrite decide_True; [done|]. apply Hinv. intros c0 n0 Hn ->. by destruct (H c0 n0 Hn) as (_ & ? & _).
      * rewrite decide_True; [done|]. apply Hinv. intros c0 n0 Hn ->. by destruct (H c0 n0 Hn) as (_ & _ & ?).
      * by rewrite decide_True.
Qed.
