(* ===== verification/Text.v ===== *)
(** * Text: the conversions of [printf]

    Numbers are printed as digits of a base, padded with zeros to a width; a
    negative number has a sign before them.  Reading a number back gives it. *)

From S2P Require Import Prelude Types.

(** ** Digits *)

Fixpoint digits (base : Z) (fuel : nat) (n : Z) (acc : list Z) : list Z :=
  match fuel with
  | O => acc
  | S fuel =>
      let acc := n mod base :: acc in
      if n / base =? 0 then acc else digits base fuel (n / base) acc
  end.

Definition digit_char (upper : bool) (d : Z) : Z :=
  if d <? 10 then 48 + d else (if upper then 55 else 87) + d.

(** 64 digits are enough for a 64-bit number in any base. *)
Definition number (base : Z) (upper : bool) (n : Z) : cstring := digit_char upper <$> digits base 64 n [].

Definition pad (width : nat) (s : cstring) : cstring := replicate (width - length s) 48 ++ s.

(** [%d], [%o], and [%x] or [%X] with a width. *)
Definition fmt_d (v : Z) : cstring := if v <? 0 then 45 :: number 10 false (- v) else number 10 false v.
Definition fmt_o (v : Z) : cstring := number 8 false v.
Definition fmt_x (width : nat) (v : Z) : cstring := pad width (number 16 false v).
Definition fmt_X (width : nat) (v : Z) : cstring := pad width (number 16 true v).

(** ** Reading back *)

Definition char_digit (c : Z) : Z := if c <? 58 then c - 48 else if c <? 91 then c - 55 else c - 87.
Definition parse_number (base : Z) (s : cstring) : Z := foldl (fun acc c => acc * base + char_digit c) 0 s.
Definition parse_d (s : cstring) : Z :=
  match s with 45 :: s => - parse_number 10 s | _ => parse_number 10 s end.

Definition value (base : Z) (ds : list Z) : Z := foldl (fun acc d => acc * base + d) 0 ds.

Lemma foldl_value base l : forall z,
  foldl (fun acc d => acc * base + d) z l = z * base ^ Z.of_nat (length l) + value base l.
Proof.
  unfold value. induction l as [|d l IH]; intros z; simpl length; [simpl; lia|]. cbn [foldl].
  rewrite IH, (IH (0 * base + d)). rewrite Nat2Z.inj_succ, Z.pow_succ_r by lia. lia.
Qed.

Lemma value_cons base d l : value base (d :: l) = d * base ^ Z.of_nat (length l) + value base l.
Proof. unfold value at 1. cbn [foldl]. rewrite foldl_value. lia. Qed.

(** The digits stand for the number and lie below the base. *)
Lemma digits_value base fuel : 2 <= base -> forall n acc,
  0 <= n < base ^ Z.of_nat fuel ->
  value base (digits base fuel n acc) = n * base ^ Z.of_nat (length acc) + value base acc.
Proof.
  intros Hb. induction fuel as [|fuel IH]; intros n acc Hn; [simpl in *; replace n with 0 by lia; lia|].
  simpl digits. rewrite Nat2Z.inj_succ, Z.pow_succ_r in Hn by lia.
  pose proof (Z.div_mod n base ltac:(lia)) as Hd. destruct (Z.eqb_spec (n / base) 0) as [E|E].
  - rewrite value_cons. rewrite E in Hd. replace (n mod base) with n by lia. done.
  - rewrite IH by (split; [apply Z.div_pos; lia|apply Z.div_lt_upper_bound; lia]).
    cbn [length]. rewrite value_cons, Nat2Z.inj_succ, Z.pow_succ_r by lia. nia.
Qed.

Lemma digits_range base fuel : 2 <= base -> forall n acc,
  Forall (fun d => 0 <= d < base) acc -> Forall (fun d => 0 <= d < base) (digits base fuel n acc).
Proof.
  intros Hb. induction fuel as [|fuel IH]; intros n acc Ha; [done|]. simpl.
  assert (Forall (fun d => 0 <= d < base) (n mod base :: acc)) by (constructor; [apply Z.mod_pos_bound; lia|done]).
  destruct (_ =? 0); auto.
Qed.

Lemma char_digit_char upper d : 0 <= d < 16 -> char_digit (digit_char upper d) = d.
Proof.
  intros Hd. unfold char_digit, digit_char. destruct (Z.ltb_spec d 10).
  - destruct (Z.ltb_spec (48 + d) 58); lia.
  - destruct upper; repeat match goal with |- context [?a <? ?b] => destruct (Z.ltb_spec a b) end; lia.
Qed.

Lemma parse_digits base upper ds :
  Forall (fun d => 0 <= d < 16) ds -> parse_number base (digit_char upper <$> ds) = value base ds.
Proof.
  intros H. unfold parse_number, value.
  assert (G : forall z, foldl (fun acc c => acc * base + char_digit c) z (digit_char upper <$> ds) =
    foldl (fun acc d => acc * base + d) z ds); [|apply G].
  induction H as [|d ds Hd _ IH]; intros z; [done|]. cbn. by rewrite char_digit_char, IH.
Qed.

Lemma parse_zeros base k s : parse_number base (replicate k 48 ++ s) = parse_number base s.
Proof. unfold parse_number. induction k as [|k IH]; [done|]. cbn. exact IH. Qed.

(** Every printed number, padded or not, reads back. *)
Lemma parse_fmt base upper width n :
  2 <= base <= 16 -> 0 <= n < 2 ^ 64 -> parse_number base (pad width (number base upper n)) = n.
Proof.
  intros Hb Hn. unfold pad, number. rewrite parse_zeros, parse_digits.
  - rewrite digits_value; [unfold value; cbn [foldl length]; rewrite Z.pow_0_r; lia|lia|]. split; [lia|].
    eapply Z.lt_le_trans; [apply Hn|]. change (Z.of_nat 64) with 64. apply Z.pow_le_mono_l. lia.
  - eapply Forall_impl; [apply (digits_range base 64); [lia|constructor]|]. intros d Hd. simpl in Hd. lia.
Qed.

Lemma pad_zero s : pad 0 s = s.
Proof. done. Qed.

Lemma number_head base upper n : 2 <= base <= 16 -> forall c s, number base upper n = c :: s -> 48 <= c.
Proof.
  intros Hb c s E. pose proof (digits_range base 64 ltac:(lia) n [] ltac:(constructor)) as Hr. unfold number in E.
  destruct (digits base 64 n []) as [|d ds]; [discriminate|]. apply Forall_cons in Hr as [Hd _].
  cbn in E. injection E as <- _. unfold digit_char. destruct (d <? 10); [lia|]. destruct upper; lia.
Qed.

Lemma parse_fmt_d v : - 2 ^ 63 <= v < 2 ^ 63 -> parse_d (fmt_d v) = v.
Proof.
  intros Hv. unfold fmt_d. destruct (Z.ltb_spec v 0).
  - unfold parse_d. rewrite <- (pad_zero (number _ _ _)), parse_fmt by lia. lia.
  - pose proof (parse_fmt 10 false 0 v ltac:(lia) ltac:(lia)) as Hp. rewrite pad_zero in Hp. unfold parse_d.
    destruct (number 10 false v) as [|c s] eqn:E; [done|].
    pose proof (number_head 10 false v ltac:(lia) c s E). destruct (Z.eq_dec c 45); [lia|].
    destruct c as [|c|c]; try done. repeat (destruct c as [c|c|]; try done).
Qed.

(** The characters a number is written with. *)
Definition is_digit (c : Z) : Prop := 48 <= c <= 57 \/ 65 <= c <= 70 \/ 97 <= c <= 102.

Lemma number_digits base upper n : 2 <= base <= 16 -> Forall is_digit (number base upper n).
Proof.
  intros Hb. apply Forall_fmap. eapply Forall_impl; [apply (digits_range base 64); [lia|constructor]|].
  intros d Hd. unfold is_digit, digit_char. simpl in *. destruct (Z.ltb_spec d 10); [lia|]. destruct upper; lia.
Qed.
