(* ===== verification/Segment.v ===== *)
(** * Segment: [segment.h], [segment.cpp]

    A QNX memory segment: a reserved address range whose first [m_paged_size]
    bytes are divided in pages, mapped ([grow]) or not ([skip]), and whose
    [m_limit_size] is the size the guest sees.  [mmap] is the kernel's; [None]
    is [MAP_FAILED].  [StartupSbrk] carves chunks out of a segment. *)

From S2P Require Import Prelude Types Memory.
Import MemOps.

Record Segment := mkSegment {
  m_location : Z;
  m_paged_size : Z;
  m_limit_size : Z;
  m_reserved : Z;
  m_shared : bool;
  m_bitmap : list bool
}.

Definition Segment_new : Segment := mkSegment 0 0 0 0 false [].

(** <sys/mman.h> *)
Definition PROT_NONE : Z := 0.
Definition PROT_READ : Z := 1.
Definition PROT_WRITE : Z := 2.
Definition PROT_EXEC : Z := 4.
Definition MAP_PRIVATE : Z := 2.
Definition MAP_FIXED : Z := 16.
Definition MAP_ANON : Z := 32.
Definition MAP_32BIT : Z := 64.
Definition MAP_NORESERVE : Z := 16384.

Section Ops.
(** [mmap addr length prot flags], [mprotect addr length prot = 0]. *)
Context (mmap : Z -> Z -> Z -> Z -> option Z) (mprotect : Z -> Z -> Z -> bool).

Definition reserve (reservation : Z) : M Segment unit :=
  s ← get;
  _ ← lift (check (m_reserved s =? 0) AssertFailed);
  let reservation := align_page_up reservation in
  match mmap 0 reservation PROT_NONE
          (Z.lor (Z.lor (Z.lor MAP_PRIVATE MAP_ANON) MAP_NORESERVE) MAP_32BIT) with
  | None => throw BadAlloc
  | Some l => put (mkSegment l 0 (m_limit_size s) reservation (m_shared s) (m_bitmap s))
  end.

(** The failure test looks at the old [m_location], not at the result [l]:
    a failed mapping stores [MAP_FAILED], i.e. the address [2^64 - 1]. *)
Definition reserve_at (reservation addr : Z) : M Segment unit :=
  s ← get;
  _ ← lift (check (m_reserved s =? 0) AssertFailed);
  let reservation := align_page_up reservation in
  let l := default (2 ^ 64 - 1) (mmap addr reservation PROT_NONE
          (Z.lor (Z.lor (Z.lor MAP_PRIVATE MAP_ANON) MAP_NORESERVE) MAP_FIXED)) in
  if m_location s =? 2 ^ 64 - 1 then throw BadAlloc
  else put (mkSegment l 0 (m_limit_size s) reservation (m_shared s) (m_bitmap s)).

Definition map_prot (access : Access) : Z :=
  let prot :=
    match access with
    | EXEC_ONLY | EXEC_READ => Z.lor PROT_EXEC PROT_READ
    | READ_ONLY => PROT_READ
    | READ_WRITE => Z.lor PROT_WRITE PROT_READ
    | ACCESS_OTHER _ => PROT_NONE
    end in
  if prot =? PROT_NONE then prot else Z.lor prot PROT_WRITE.

Definition paged_size (s : Segment) : Z := m_paged_size s.
Definition size (s : Segment) : Z := m_limit_size s.
(** [GuestPtr] is 32 bits wide. *)
Definition location (s : Segment) : Z := u32 (m_location s).

Definition push_pages (v : bool) (size : Z) (s : Segment) : Segment :=
  mkSegment (m_location s) (u64 (m_paged_size s + size)) (m_limit_size s) (m_reserved s)
    (m_shared s) (m_bitmap s ++ replicate (Z.to_nat (size / PAGE_SIZE)) v).

Definition set_limit (l : Z) (s : Segment) : Segment :=
  mkSegment (m_location s) (m_paged_size s) l (m_reserved s) (m_shared s) (m_bitmap s).

Definition grow_paged_internal (prot size : Z) : M Segment unit :=
  _ ← lift (check (is_page_aligned size) AssertFailed);
  s ← get;
  if m_reserved s <? u64 (size + m_paged_size s) then throw BadAlloc
  else match mmap (u64 (m_location s + m_paged_size s)) size prot
               (Z.lor (Z.lor MAP_PRIVATE MAP_ANON) MAP_FIXED) with
       | None => throw BadAlloc
       | Some _ => modify (push_pages true size)
       end.

Definition grow_paged (prot size : Z) : M Segment unit :=
  _ ← grow_paged_internal prot size;
  modify (fun s => set_limit (paged_size s) s).

Definition grow_bytes (size : Z) : M Segment unit :=
  s ← get;
  if m_reserved s <? u64 (size + m_limit_size s) then throw BadAlloc
  else
    _ ← (if m_paged_size s <? u64 (size + m_limit_size s)
         then grow_paged_internal (Z.lor (Z.lor PROT_READ PROT_WRITE) PROT_EXEC)
                (u64 (align_page_up (u64 (size + m_limit_size s)) - m_paged_size s))
         else mret ());
    modify (fun s => set_limit (u64 (m_limit_size s + size)) s).

Definition grow_bytes_64capped (size : Z) : M Segment unit :=
  s ← get;
  let new_size := Z.min (u64 (m_limit_size s + size)) (kilo 64) in
  if m_limit_size s <? new_size then grow_bytes (new_size - m_limit_size s) else mret ().

Definition skip_paged (new_size : Z) : M Segment unit :=
  _ ← lift (check (is_page_aligned new_size) AssertFailed);
  s ← get;
  if m_reserved s <? u64 (new_size + m_paged_size s) then throw BadAlloc
  else modify (push_pages false new_size).

(** [ok &= m_bitmap[p]] for the [n] pages from [first]; an index out of the
    vector is undefined behaviour. *)
Fixpoint probe_pages (bitmap : list bool) (first n : nat) (ok : bool) : outcome bool :=
  match n with
  | O => Ok ok
  | S n =>
      match bitmap !! first with
      | None => Throw (Undefined "bitmap index")
      | Some b => probe_pages bitmap (S first) n (ok && b)
      end
  end.

Definition check_bounds (s : Segment) (offset size : Z) : outcome bool :=
  let in_bounds :=
    ((offset <? m_paged_size s) && (size <=? u64 (m_paged_size s - offset)))%bool in
  if negb in_bounds then Ok false
  else
    let first := u32 (align_page_down offset / PAGE_SIZE) in
    let last := u32 (align_page_up (u64 (offset + size)) / PAGE_SIZE) in
    probe_pages (m_bitmap s) (Z.to_nat first) (Z.to_nat (last - first)) true.

(** The host address of an offset. *)
Definition pointer (s : Segment) (offset size : Z) : outcome Z :=
  ok ← check_bounds s offset size;
  _ ← check ok AssertFailed;
  Ok (u64 (m_location s + offset)).

Definition change_access (prot offset size : Z) : M Segment unit :=
  s ← get;
  ptr ← lift (pointer s offset size);
  lift (check (mprotect ptr size prot) AssertFailed).

Definition make_shared : M Segment unit :=
  modify (fun s => mkSegment (m_location s) (m_paged_size s) (m_limit_size s) (m_reserved s)
                     true (m_bitmap s)).
Definition is_shared (s : Segment) : bool := m_shared s.

(** [Segment::~Segment]: the range given back to [munmap]. *)
Definition destroy (s : Segment) : option (Z * Z) :=
  if negb (m_reserved s =? 0) then Some (m_location s, m_reserved s) else None.
End Ops.

(** ** [StartupSbrk] *)

Record Sbrk := mkSbrk { sb_offset : Z; sb_last_offset : Z }.

(** The helper works on its segment and, for strings, on the host memory. *)
Record SbrkState := mkSbrkState { sb : Sbrk; sb_seg : Segment; sb_mem : Mem }.

Section Sbrk.
Context (mmap : Z -> Z -> Z -> Z -> option Z).

Definition StartupSbrk (m_offset : Z) : Sbrk := mkSbrk m_offset (2 ^ 32 - 1).

Definition on_segment {A} (op : M Segment A) : M SbrkState A := fun st =>
  let '(seg, r) := op (sb_seg st) in (mkSbrkState (sb st) seg (sb_mem st), r).

Definition sbrk_fit : M SbrkState unit :=
  st ← get;
  let needed := sb_offset (sb st) in
  if size (sb_seg st) <? needed
  then on_segment (grow_bytes mmap (u64 (needed - size (sb_seg st)))) else mret ().

Definition sbrk_alloc (size : Z) : M SbrkState unit :=
  _ ← modify (fun st => mkSbrkState
        (mkSbrk (u32 (sb_offset (sb st) + size)) (sb_offset (sb st))) (sb_seg st) (sb_mem st));
  sbrk_fit.

Definition sbrk_align : M SbrkState unit :=
  _ ← modify (fun st => mkSbrkState
        (mkSbrk (u32 (align_up (sb_offset (sb st)) 16)) (sb_last_offset (sb st)))
        (sb_seg st) (sb_mem st));
  sbrk_fit.

Definition sbrk_offset (st : SbrkState) : Z := sb_last_offset (sb st).
Definition next_offset (st : SbrkState) : Z := sb_offset (sb st).
Definition sbrk_ptr (st : SbrkState) : outcome Z := pointer (sb_seg st) (sbrk_offset st) 0.

Definition push_string (str : cstring) : M SbrkState unit :=
  let len := Z.of_nat (length str) + 1 in
  _ ← sbrk_alloc (u32 len);
  st ← get;
  p ← lift (sbrk_ptr st);
  modify (fun st => mkSbrkState (sb st) (sb_seg st) (store (sb_mem st) p (str ++ [0]))).
End Sbrk.

(** ** Well-formedness *)

(** A user-space address range. *)
Definition addr_top : Z := 2 ^ 47.

Definition wf (s : Segment) : Prop :=
  0 <= m_limit_size s <= m_paged_size s /\ m_paged_size s <= m_reserved s < 2 ^ 44 /\
  m_paged_size s mod PAGE_SIZE = 0 /\ m_reserved s mod PAGE_SIZE = 0 /\
  Z.of_nat (length (m_bitmap s)) = m_paged_size s / PAGE_SIZE /\
  0 <= m_location s /\ m_location s + m_reserved s <= addr_top.

(** The byte at [o] lies in a page that was grown, not skipped. *)
Definition mapped (s : Segment) (o : Z) : Prop :=
  0 <= o /\ m_bitmap s !! Z.to_nat (o / PAGE_SIZE) = Some true.

(** Documented behaviour of [mmap]: a mapping is a range of user addresses, at
    the requested place with [MAP_FIXED]. *)
Definition mmap_law (mmap : Z -> Z -> Z -> Z -> option Z) : Prop :=
  forall addr len prot flags l, mmap addr len prot flags = Some l ->
    0 <= l /\ l + len <= addr_top /\ (has flags MAP_FIXED = true -> l = addr).

(** A kernel that has room for every fixed mapping. *)
Definition mmap_total (mmap : Z -> Z -> Z -> Z -> option Z) : Prop :=
  forall addr len prot flags, has flags MAP_FIXED = true -> mmap addr len prot flags = Some addr.

Ltac page := unfold PAGE_SIZE, addr_top in *; zlia.

Lemma wf_segment_new : wf Segment_new.
Proof. repeat split; vm_compute; done. Qed.

Lemma page_aligned_spec v : is_page_aligned v = true <-> v mod PAGE_SIZE = 0.
Proof. unfold is_page_aligned, is_aligned. apply Z.eqb_eq. Qed.

Lemma wf_push_pages s v n :
  wf s -> 0 <= n -> n mod PAGE_SIZE = 0 -> m_paged_size s + n <= m_reserved s ->
  wf (push_pages v n s).
Proof.
  intros (H1 & H2 & H3 & H4 & H5 & H6 & H7) Hn Ha Hle. unfold wf, push_pages. simpl.
  rewrite wrapu_small by lia. rewrite length_app, length_replicate.
  repeat split; try page; try done.
Qed.

Lemma wf_set_limit s l : wf s -> 0 <= l <= m_paged_size s -> wf (set_limit l s).
Proof. intros (H1 & H2 & H3 & H4 & H5 & H6 & H7) Hl. repeat split; simpl; lia || done. Qed.

Lemma mapped_push_old s v n o : mapped s o -> mapped (push_pages v n s) o.
Proof.
  intros [Ho Hm]. split; [done|]. simpl. rewrite lookup_app_l; [done|].
  by eapply lookup_lt_Some.
Qed.

Lemma mapped_push_new s n o :
  wf s -> n mod PAGE_SIZE = 0 -> m_paged_size s <= o < m_paged_size s + n ->
  mapped (push_pages true n s) o.
Proof.
  intros (H1 & H2 & H3 & H4 & H5 & H6 & H7) Hn Ho. split; [lia|]. simpl.
  rewrite lookup_app_r by page.
  apply lookup_replicate. split; [done|]. page.
Qed.

Lemma mapped_bound s o : wf s -> mapped s o -> o < m_paged_size s.
Proof.
  intros (H1 & H2 & H3 & H4 & H5 & H6 & H7) [Ho Hm]. apply lookup_lt_Some in Hm. page.
Qed.

(** The range covers every page the segment was given. *)
Lemma destroy_covers s o :
  wf s -> mapped s o -> exists l n, destroy s = Some (l, n) /\ l <= m_location s + o < l + n.
Proof.
  intros Hwf Ho. pose proof (mapped_bound s o Hwf Ho). destruct Ho as [Ho _]. destruct Hwf as (H1 & H2 & _).
  unfold destroy. destruct (Z.eqb_spec (m_reserved s) 0); [lia|]. simpl. do 2 eexists. split; [reflexivity|]. lia.
Qed.

(** ** Page probing *)

Lemma probe_pages_spec bm first n ok :
  (first + n <= length bm)%nat ->
  exists b, probe_pages bm first n ok = Ok b /\
    (b = true <-> ok = true /\ forall p, (first <= p < first + n)%nat -> bm !! p = Some true).
Proof.
  revert first ok. induction n as [|n IH]; intros first ok Hl; simpl.
  - exists ok. split; [done|]. split; [|by intros [? _]]. intros ->. split; [done|]. lia.
  - destruct (lookup_lt_is_Some_2 bm first) as [b Hb]; [lia|]. rewrite Hb.
    destruct (IH (S first) (ok && b)%bool) as (r & Hr & Hs); [lia|].
    exists r. split; [done|]. rewrite Hs. rewrite andb_true_iff. split.
    + intros [[-> ->] H]. split; [done|]. intros p Hp.
      destruct (decide (p = first)) as [-> |]; [done|]. apply H. lia.
    + intros [-> H]. split; [split; [done|]|].
      * specialize (H first ltac:(lia)). congruence.
      * intros p Hp. apply H. lia.
Qed.

(** Byte ranges and the pages that cover them. *)
Lemma pages_cover s offset n :
  wf s -> 0 <= offset -> 0 < n -> offset + n <= m_paged_size s ->
  (forall p, (Z.to_nat (offset / PAGE_SIZE) <= p < Z.to_nat (offset / PAGE_SIZE) +
     Z.to_nat (align_page_up (offset + n) / PAGE_SIZE - offset / PAGE_SIZE))%nat ->
     m_bitmap s !! p = Some true) <->
  (forall b, offset <= b < offset + n -> mapped s b).
Proof.
  intros (H1 & H2 & H3 & H4 & H5 & H6 & H7) Ho Hn Hle.
  destruct (align_page_up_spec (offset + n)) as [Hu Ha]; [lia|].
  split.
  - intros H b Hb. split; [lia|]. apply H. page.
  - intros H p Hp.
    set (b := Z.max offset (Z.of_nat p * PAGE_SIZE)).
    assert (Hpb : Z.to_nat (b / PAGE_SIZE) = p) by (subst b; page).
    rewrite <- Hpb. apply H. subst b. page.
Qed.

(** ** Growing *)

(** The extra pages [grow_bytes] asks for fit the reservation. *)
Lemma grow_bytes_pages s n :
  wf s -> 0 <= n -> n + m_limit_size s <= m_reserved s -> m_paged_size s < n + m_limit_size s ->
  let extra := u64 (align_page_up (u64 (n + m_limit_size s)) - m_paged_size s) in
  0 <= extra < 2 ^ 45 /\ extra mod PAGE_SIZE = 0 /\ m_paged_size s + extra <= m_reserved s /\
  n + m_limit_size s <= m_paged_size s + extra /\
  m_paged_size s + extra = align_page_up (n + m_limit_size s).
Proof.
  intros (H1 & H2 & H3 & H4 & H5 & H6 & H7) Hn Hle Hlt extra. subst extra.
  rewrite (wrapu_small 64 (n + _)) by lia.
  destruct (align_page_up_spec (n + m_limit_size s)) as [Hu Ha]; [lia|].
  pose proof (align_page_up_least (n + m_limit_size s) (m_reserved s) ltac:(lia) H4 Hle) as Hl.
  rewrite wrapu_small by (unfold PAGE_SIZE in *; lia). page.
Qed.

Section Facts.
Context (mmap : Z -> Z -> Z -> Z -> option Z).

Lemma grow_paged_internal_inv prot n s s' r :
  wf s -> 0 <= n < 2 ^ 45 -> grow_paged_internal mmap prot n s = (s', r) ->
  (s' = s /\ exists e, r = Throw e) \/
  (s' = push_pages true n s /\ r = Ok () /\ n mod PAGE_SIZE = 0 /\
   m_paged_size s + n <= m_reserved s).
Proof.
  intros Hwf Hn. unfold grow_paged_internal, lift, get, modify, throw, mbind, M_bind.
  destruct (is_page_aligned n) eqn:Ha; simpl; [|intros [= <- <-]; eauto].
  rewrite wrapu_small by (unfold wf in Hwf; lia).
  destruct (m_reserved s <? n + m_paged_size s) eqn:Hr; [intros [= <- <-]; eauto|].
  destruct (mmap _ _ _ _); [|intros [= <- <-]; eauto].
  intros [= <- <-]. right. apply page_aligned_spec in Ha. to_prop. repeat split; done || lia.
Qed.

Lemma grow_paged_internal_ok prot n s :
  wf s -> mmap_total mmap -> 0 <= n < 2 ^ 45 -> n mod PAGE_SIZE = 0 ->
  m_paged_size s + n <= m_reserved s ->
  grow_paged_internal mmap prot n s = (push_pages true n s, Ok ()).
Proof.
  intros Hwf Hm Hn Ha Hle.
  unfold grow_paged_internal, lift, get, modify, throw, mbind, M_bind.
  apply page_aligned_spec in Ha. rewrite Ha. simpl.
  rewrite (wrapu_small _ (n + _)) by (unfold wf in Hwf; lia).
  destruct (Z.ltb_spec (m_reserved s) (n + m_paged_size s)); [lia|].
  by rewrite Hm by reflexivity.
Qed.

Lemma grow_bytes_inv n s s' r :
  wf s -> 0 <= n < 2 ^ 44 -> grow_bytes mmap n s = (s', r) ->
  wf s' /\ m_location s' = m_location s /\ m_reserved s' = m_reserved s /\
  (forall o, mapped s o -> mapped s' o) /\
  ((s' = s /\ exists e, r = Throw e) \/ (r = Ok () /\ size s' = size s + n)).
Proof.
  intros Hwf Hn. pose proof Hwf as (H1 & H2 & H3 & H4 & H5 & H6 & H7).
  unfold grow_bytes, get, throw, modify, mbind, M_bind.
  rewrite (wrapu_small 64 (n + m_limit_size s)) by lia.
  destruct (Z.ltb_spec (m_reserved s) (n + m_limit_size s)) as [Hr|Hr].
  { intros [= <- <-]. eauto 10. }
  destruct (Z.ltb_spec (m_paged_size s) (n + m_limit_size s)) as [Hp|Hp].
  - destruct (grow_bytes_pages s n Hwf ltac:(lia) Hr Hp) as (He1 & He2 & He3 & He4 & _).
    rewrite (wrapu_small 64 (n + m_limit_size s)) in * by lia.
    set (extra := u64 (align_page_up (n + m_limit_size s) - m_paged_size s)) in *.
    destruct (grow_paged_internal mmap _ extra s) as [s1 r1] eqn:Hg.
    apply grow_paged_internal_inv in Hg; [|done|lia].
    destruct Hg as [[-> [e ->]]|(-> & -> & _)]; [intros [= <- <-]; eauto 10|].
    intros [= <- <-]. unfold size. simpl. rewrite wrapu_small by lia.
    split; [apply wf_set_limit; [apply wf_push_pages; [done|lia|done|lia]|]|].
    { simpl. rewrite wrapu_small; lia. }
    split; [done|]. split; [done|]. split; [|by right].
    intros o Ho. exact (mapped_push_old s true extra o Ho).
  - intros [= <- <-]. unfold size. simpl. rewrite wrapu_small by lia.
    split; [apply wf_set_limit; [done|lia]|]. eauto 10.
Qed.

Context (mprotect : Z -> Z -> Z -> bool).

(** Every operation of the class, on its arguments. *)
Inductive op :=
| Reserve (reservation : Z)
| ReserveAt (reservation addr : Z)
| GrowPaged (prot size : Z)
| GrowBytes (size : Z)
| GrowBytes64 (size : Z)
| SkipPaged (size : Z)
| ChangeAccess (prot offset size : Z)
| MakeShared.

Definition run (o : op) : M Segment unit :=
  match o with
  | Reserve n => reserve mmap n
  | ReserveAt n addr => reserve_at mmap n addr
  | GrowPaged prot n => grow_paged mmap prot n
  | GrowBytes n => grow_bytes mmap n
  | GrowBytes64 n => grow_bytes_64capped mmap n
  | SkipPaged n => skip_paged n
  | ChangeAccess prot offset n => change_access mprotect prot offset n
  | MakeShared => make_shared
  end.

(** Sizes of a 32-bit guest. *)
Definition fits (o : op) : Prop :=
  match o with
  | Reserve n | ReserveAt n _ | GrowPaged _ n | GrowBytes n | GrowBytes64 n | SkipPaged n =>
      0 <= n < 2 ^ 43
  | ChangeAccess _ _ _ | MakeShared => True
  end.

(** A reservation at a fixed address, made on a segment without one, that the
    kernel refuses. *)
Definition refused (o : op) (s : Segment) : Prop :=
  match o with
  | ReserveAt n addr => m_reserved s = 0 /\
      mmap addr (align_page_up n) PROT_NONE
        (Z.lor (Z.lor (Z.lor MAP_PRIVATE MAP_ANON) MAP_NORESERVE) MAP_FIXED) = None
  | _ => False
  end.

(** The segment such a call leaves: it starts at [MAP_FAILED]. *)
Definition misplaced (o : op) (s : Segment) : Segment :=
  match o with
  | ReserveAt n _ =>
      mkSegment (2 ^ 64 - 1) 0 (m_limit_size s) (align_page_up n) (m_shared s) (m_bitmap s)
  | _ => s
  end.

Lemma misplaced_broken o s : refused o s -> ~ wf (misplaced o s).
Proof.
  destruct o; simpl; try done. intros _ (_ & Hr & _ & _ & _ & _ & H). simpl in *.
  unfold addr_top in *. lia.
Qed.

Lemma reserve_wf s l n :
  wf s -> m_reserved s = 0 -> 0 <= n < 2 ^ 43 -> 0 <= l -> l + align_page_up n <= addr_top ->
  wf (mkSegment l 0 (m_limit_size s) (align_page_up n) (m_shared s) (m_bitmap s)).
Proof.
  intros (H1 & H2 & H3 & H4 & H5 & H6 & H7) Hr Hn Hl Hle.
  destruct (align_page_up_spec n) as [Hu Ha]; [lia|].
  assert (Hp : m_paged_size s = 0) by lia. rewrite Hp in H5.
  repeat split; simpl; unfold PAGE_SIZE in *; lia || done.
Qed.

Lemma reserve_inv o s s' r :
  (exists n, o = Reserve n) \/ (exists n a, o = ReserveAt n a) ->
  mmap_law mmap -> wf s -> fits o -> run o s = (s', r) ->
  (~ refused o s -> wf s') /\ (refused o s -> r = Ok () /\ s' = misplaced o s) /\
  (forall e, r = Throw e -> s' = s).
Proof.
  intros Ho Hm Hwf Hf. destruct Ho as [[n ->]|(n & a & ->)]; simpl in *.
  - unfold reserve, get, lift, throw, put, mbind, M_bind.
    destruct (m_reserved s =? 0) eqn:Er; simpl; [|by intros [= <- <-]].
    destruct (mmap _ _ _ _) as [l|] eqn:El; intros [= <- <-]; [|done].
    destruct (Hm _ _ _ _ _ El) as (H1 & H2 & _). to_prop. split; [|done]. intros _. by apply reserve_wf.
  - unfold reserve_at, get, lift, throw, put, mbind, M_bind.
    destruct (m_reserved s =? 0) eqn:Er; simpl; to_prop;
      [|intros [= <- <-]; split; [done|]; split; [by intros [? _]|done]].
    destruct (Z.eqb_spec (m_location s) (2 ^ 64 - 1)) as [E|_].
    { destruct Hwf as (_ & Hr & _ & _ & _ & _ & H). unfold addr_top in H. lia. }
    destruct (mmap a _ _ _) as [l|] eqn:El; intros [= <- <-].
    + destruct (Hm _ _ _ _ _ El) as (H1 & H2 & _).
      split; [|split; [by intros [_ ?]|done]]. intros _. by apply reserve_wf.
    + split; [|done]. intros Hn. by destruct Hn.
Qed.
End Facts.

(** Growing inside the reservation. *)
Lemma grow_bytes_ok mmap n s :
  wf s -> mmap_total mmap -> 0 <= n < 2 ^ 43 -> n + size s <= m_reserved s ->
  exists s', grow_bytes mmap n s = (s', Ok ()) /\ wf s' /\
    m_location s' = m_location s /\ size s' = size s + n /\
    paged_size s' = Z.max (paged_size s) (align_page_up (size s + n)) /\
    (forall o, mapped s o -> mapped s' o) /\
    (forall o, paged_size s <= o < paged_size s' -> mapped s' o).
Proof.
  intros Hwf Hm Hn Hle. pose proof Hwf as (H1 & H2 & H3 & H4 & H5 & H6 & H7).
  unfold size, paged_size in *.
  assert (Hrun : exists s', grow_bytes mmap n s = (s', Ok ()) /\
    m_paged_size s' = Z.max (m_paged_size s) (align_page_up (m_limit_size s + n)) /\
    (forall o, m_paged_size s <= o < m_paged_size s' -> mapped s' o)).
  { unfold grow_bytes, get, throw, modify, mbind, M_bind.
    rewrite !(wrapu_small 64 (n + m_limit_size s)) by lia.
    destruct (Z.ltb_spec (m_reserved s) (n + m_limit_size s)) as [|_]; [lia|].
    destruct (Z.ltb_spec (m_paged_size s) (n + m_limit_size s)) as [Hp|Hp].
    - destruct (grow_bytes_pages s n Hwf ltac:(lia) Hle Hp) as (He1 & He2 & He3 & He4 & He5).
      rewrite !(wrapu_small 64 (n + m_limit_size s)) in * by lia.
      set (extra := u64 (align_page_up (n + m_limit_size s) - m_paged_size s)) in *.
      rewrite grow_paged_internal_ok by done. eexists. split; [reflexivity|]. simpl.
      rewrite !wrapu_small by lia. rewrite (Z.add_comm (m_limit_size s) n).
      split; [lia|]. intros o Ho. apply (mapped_push_new s extra o Hwf He2). lia.
    - eexists. split; [reflexivity|]. simpl.
      pose proof (align_page_up_least (m_limit_size s + n) (m_paged_size s) ltac:(lia) H3 ltac:(lia)).
      split; lia. }
  destruct Hrun as (s' & Hg & Hpg & Hnew). exists s'.
  destruct (grow_bytes_inv mmap n s s' (Ok ()) Hwf ltac:(lia) Hg) as (Hw & Hl & _ & Hmap & Hs).
  destruct Hs as [[_ [? ?]]|[_ Hs]]; [done|]. auto 10.
Qed.

Lemma check_bounds_range s offset n :
  wf s -> 0 <= offset < 2 ^ 64 -> 0 < n < 2 ^ 64 ->
  exists b, check_bounds s offset n = Ok b /\
    (b = true <-> forall i, offset <= i < offset + n -> mapped s i) /\
    (if b then pointer s offset n = Ok (m_location s + offset) /\ offset + n <= m_reserved s
     else pointer s offset n = Throw AssertFailed).
Proof.
  intros Hwf Ho Hn. pose proof Hwf as (H1 & H2 & H3 & H4 & H5 & H6 & H7).
  assert (Hb : exists b, check_bounds s offset n = Ok b /\
    (b = true <-> forall i, offset <= i < offset + n -> mapped s i)).
  { unfold check_bounds.
    destruct ((offset <? m_paged_size s) && (n <=? u64 (m_paged_size s - offset)))%bool eqn:E;
      simpl.
    - to_prop. rewrite wrapu_small in * by lia. rewrite (wrapu_small 64 (offset + n)) by lia.
      destruct (align_page_up_spec (offset + n)) as [Hu Ha]; [lia|].
      rewrite align_page_down_spec by lia. rewrite Z.div_mul by (unfold PAGE_SIZE; lia).
      rewrite !wrapu_small by page.
      destruct (probe_pages_spec (m_bitmap s) (Z.to_nat (offset / PAGE_SIZE))
        (Z.to_nat (align_page_up (offset + n) / PAGE_SIZE - offset / PAGE_SIZE)) true)
        as (b & Hb & Hs).
      { pose proof (align_page_up_least (offset + n) (m_paged_size s) ltac:(lia) H3 ltac:(lia)).
        page. }
      exists b. split; [done|]. rewrite Hs, <- pages_cover by done || lia.
      split; [by intros [_ ?]|by split].
    - exists false. split; [done|]. split; [done|]. intros H.
      pose proof (mapped_bound s offset Hwf (H offset ltac:(lia))).
      pose proof (mapped_bound s (offset + n - 1) Hwf (H (offset + n - 1) ltac:(lia))).
      rewrite wrapu_small in E by lia.
      destruct (Z.ltb_spec offset (m_paged_size s)), (Z.leb_spec n (m_paged_size s - offset));
        done || lia. }
  destruct Hb as (b & Hb & Hs). exists b. split; [done|]. split; [done|].
  unfold pointer. rewrite Hb. destruct b; [|done]. simpl.
  pose proof (mapped_bound s (offset + n - 1) Hwf) as Hm.
  assert (offset + n - 1 < m_paged_size s) by (apply Hm, Hs; [done|lia]).
  rewrite wrapu_small by (unfold addr_top in *; lia). split; [done|lia].
Qed.

Lemma run_inv mmap mprotect o s s' r :
  mmap_law mmap -> wf s -> fits o -> run mmap mprotect o s = (s', r) ->
  (~ refused mmap o s -> wf s') /\ (refused mmap o s -> r = Ok () /\ s' = misplaced o s) /\
  (forall e, r = Throw e -> s' = s).
Proof.
  intros Hm Hwf Hf Hrun.
  destruct o as [n|n a|prot n|n|n|n|prot off n|];
    try (eapply reserve_inv; [|exact Hm|exact Hwf|exact Hf|exact Hrun]; eauto; fail);
    (cut (wf s' /\ (forall e, r = Throw e -> s' = s)); [by intros []|]); simpl in *.
  - unfold grow_paged, modify, mbind, M_bind in Hrun.
    destruct (grow_paged_internal mmap prot n s) as [s1 r1] eqn:Hg.
    apply grow_paged_internal_inv in Hg as [[-> [e ->]]|(-> & -> & Ha & Hle)]; [| |done|lia].
    + by injection Hrun as <- <-.
    + injection Hrun as <- <-. split; [|done].
      pose proof (wf_push_pages s true n Hwf ltac:(lia) Ha Hle) as Hw.
      apply wf_set_limit; [done|]. unfold paged_size. destruct Hw as [? _]. simpl in *. lia.
  - destruct (grow_bytes_inv mmap n s s' r Hwf ltac:(lia) Hrun) as (Hw & _ & _ & _ & H).
    split; [done|].
    intros e ->. destruct H as [[-> _]|[? _]]; done.
  - unfold grow_bytes_64capped, get, mbind, M_bind in Hrun.
    destruct (m_limit_size s <? _) eqn:E; [|by injection Hrun as <- <-].
    assert (Hk : 0 <= Z.min (u64 (m_limit_size s + n)) (kilo 64) - m_limit_size s < 2 ^ 44).
    { to_prop. unfold wf in Hwf. change (kilo 64) with 65536 in *. lia. }
    destruct (grow_bytes_inv mmap _ s s' r Hwf Hk Hrun) as (Hw & _ & _ & _ & H).
    split; [done|]. intros e ->. destruct H as [[-> _]|[? _]]; done.
  - unfold skip_paged, lift, get, throw, modify, mbind, M_bind in Hrun.
    destruct (is_page_aligned n) eqn:Ha; simpl in Hrun; [|by injection Hrun as <- <-].
    rewrite wrapu_small in Hrun by (unfold wf in Hwf; lia).
    destruct (m_reserved s <? n + m_paged_size s) eqn:Hr; injection Hrun as <- <-; [done|].
    split; [|done]. apply page_aligned_spec in Ha. to_prop. apply wf_push_pages; done || lia.
  - unfold change_access, lift, get, mbind, M_bind in Hrun.
    destruct (pointer s off n); simpl in Hrun; by injection Hrun as <- <-.
  - by injection Hrun as <- <-.
Qed.

(** ** Properties *)

(** C20. The operations of a segment keep it well formed: the page bitmap
    covers exactly the paged size, the guest-visible limit never exceeds it and
    it never exceeds the reservation; and an operation that throws leaves the
    segment as it was.  There is exactly one exception: a reservation at a
    fixed address that the kernel refuses.  It does not throw — the test looks
    at the address the segment had before — and leaves a segment placed at
    [MAP_FAILED], which is not well formed. *)
Theorem segment_inv mmap mprotect o s s' r :
  mmap_law mmap -> wf s -> fits o -> run mmap mprotect o s = (s', r) ->
  (wf s' <-> ~ refused mmap o s) /\
  (refused mmap o s -> r = Ok () /\ s' = misplaced o s) /\
  (forall e, r = Throw e -> s' = s).
Proof.
  intros Hm Hwf Hf Hrun. destruct (run_inv mmap mprotect o s s' r Hm Hwf Hf Hrun) as (H1 & H2 & H3).
  split; [|done]. split; [|done]. intros Hw Hr. destruct (H2 Hr) as [_ ->].
  by apply (misplaced_broken mmap o s).
Qed.

(** A kernel that places floating mappings at 64 MB. *)
Definition demo_mmap (addr len prot flags : Z) : option Z :=
  if has flags MAP_FIXED then (if addr + len <=? addr_top then
                                 if 0 <=? addr then Some addr else None else None)
  else if len <=? 2 ^ 32 then Some (2 ^ 26) else None.

Lemma demo_mmap_law : mmap_law demo_mmap.
Proof.
  intros addr len prot flags l. unfold demo_mmap, addr_top. destruct (has flags MAP_FIXED).
  - destruct (_ <=? _) eqn:E; [|done]. destruct (0 <=? addr) eqn:E'; [|done].
    intros [= <-]. to_prop. done.
  - destruct (len <=? 2 ^ 32) eqn:E; [|done]. intros [= <-]. to_prop. split; [done|].
    split; [lia|done].
Qed.

(** 8192 reserved bytes, one page mapped, limit 100. *)
Definition demo_segment : Segment := mkSegment (2 ^ 26) 4096 100 8192 false [true].

Lemma wf_demo_segment : wf demo_segment.
Proof. repeat split; vm_compute; done. Qed.

Lemma segment_inv_witness :
  mmap_law demo_mmap /\ wf demo_segment /\
  wf (mkSegment (2 ^ 26) 8192 5100 8192 false [true; true]) /\
  ~ wf (mkSegment (2 ^ 64 - 1) 0 0 4096 false []).
Proof.
  split; [exact demo_mmap_law|]. split; [exact wf_demo_segment|]. split.
  - destruct (segment_inv demo_mmap (fun _ _ _ => true) (GrowBytes 5000) demo_segment
      (mkSegment (2 ^ 26) 8192 5100 8192 false [true; true]) (Ok ()) demo_mmap_law
      wf_demo_segment ltac:(simpl; lia) ltac:(vm_compute; reflexivity)) as [H _].
    apply H. intros [].
  - destruct (segment_inv demo_mmap (fun _ _ _ => true) (ReserveAt 10 (2 ^ 50)) Segment_new
      (mkSegment (2 ^ 64 - 1) 0 0 4096 false []) (Ok ()) demo_mmap_law
      wf_segment_new ltac:(simpl; lia) ltac:(vm_compute; reflexivity)) as [H _].
    intros Hw. apply H in Hw. apply Hw. split; vm_compute; reflexivity.
Defined.

(** C21. Bounds checking never reads outside the page bitmap, and it accepts a
    non-empty range exactly when every byte of it lies in a mapped page; a
    pointer is handed out for such a range only, and stays inside the
    reservation. *)
Theorem check_bounds_spec s offset n :
  wf s -> 0 <= offset < 2 ^ 64 -> 0 < n < 2 ^ 64 ->
  exists b, check_bounds s offset n = Ok b /\
    (b = true <-> forall i, offset <= i < offset + n -> mapped s i) /\
    (if b then pointer s offset n = Ok (m_location s + offset) /\ offset + n <= m_reserved s
     else pointer s offset n = Throw AssertFailed).
Proof. apply check_bounds_range. Qed.

Lemma check_bounds_spec_witness :
  wf demo_segment /\ check_bounds demo_segment 4000 97 = Ok false /\
  exists b, check_bounds demo_segment 4000 96 = Ok b /\
    (b = true <-> forall i, 4000 <= i < 4096 -> mapped demo_segment i).
Proof.
  split; [exact wf_demo_segment|]. split; [reflexivity|].
  destruct (check_bounds_spec demo_segment 4000 96 wf_demo_segment ltac:(lia) ltac:(lia))
    as (b & Hb & Hs & _).
  exists b. split; [exact Hb|exact Hs].
Defined.

(** Growing by bytes inside the reservation succeeds when the kernel grants
    the pages: the guest size grows by exactly that amount, the paged size to
    the next page boundary at most, and every byte up to the new limit that
    was not skipped before becomes usable; beyond the reservation it throws
    and changes nothing.  The 64K-capped form never takes the limit above
    64K and grows by the full amount below it. *)
Theorem grow_bytes_spec mmap n s :
  wf s -> mmap_total mmap -> 0 <= n < 2 ^ 43 ->
  (m_reserved s < n + size s -> grow_bytes mmap n s = (s, Throw BadAlloc)) /\
  (n + size s <= m_reserved s ->
     exists s', grow_bytes mmap n s = (s', Ok ()) /\ size s' = size s + n /\
       paged_size s' = Z.max (paged_size s) (align_page_up (size s + n)) /\
       (forall o, mapped s o -> mapped s' o) /\
       (forall o, paged_size s <= o < size s + n -> mapped s' o)) /\
  (Z.min (size s + n) 65536 <= m_reserved s ->
     exists s', grow_bytes_64capped mmap n s = (s', Ok ()) /\
       size s' = Z.max (size s) (Z.min (size s + n) 65536)).
Proof.
  intros Hwf Hm Hn. pose proof Hwf as (H1 & H2 & H3 & H4 & H5 & H6 & H7).
  assert (Hgrow : forall n, 0 <= n < 2 ^ 43 -> n + size s <= m_reserved s ->
     exists s', grow_bytes mmap n s = (s', Ok ()) /\ size s' = size s + n /\
       paged_size s' = Z.max (paged_size s) (align_page_up (size s + n)) /\
       (forall o, mapped s o -> mapped s' o) /\
       (forall o, paged_size s <= o < size s + n -> mapped s' o)).
  { intros k Hk Hle. destruct (grow_bytes_ok mmap k s Hwf Hm Hk Hle)
      as (s' & Hg & Hw & _ & Hs & Hp & Hold & Hnew).
    exists s'. split; [done|]. split; [done|]. split; [done|]. split; [done|].
    intros o Ho. apply Hnew. unfold size, paged_size, wf in *. lia. }
  split; [|split; [by apply Hgrow|]].
  - intros Hlt. unfold grow_bytes, get, throw, mbind, M_bind, size in *.
    rewrite wrapu_small by lia. destruct (Z.ltb_spec (m_reserved s) (n + m_limit_size s)); [done|lia].
  - intros Hle. unfold grow_bytes_64capped, get, mbind, M_bind. change (kilo 64) with 65536.
    unfold size in *. rewrite wrapu_small by lia.
    destruct (Z.ltb_spec (m_limit_size s) (Z.min (m_limit_size s + n) 65536)) as [Hlt|Hge].
    + destruct (Hgrow (Z.min (m_limit_size s + n) 65536 - m_limit_size s)) as (s' & -> & Hs & _); [lia|lia|].
      exists s'. split; [done|]. lia.
    + exists s. split; [done|]. lia.
Qed.

Definition fixed_mmap (addr len prot flags : Z) : option Z := Some addr.

Lemma grow_bytes_spec_witness :
  wf demo_segment /\
  exists s', grow_bytes fixed_mmap 5000 demo_segment = (s', Ok ()) /\ size s' = 5100.
Proof.
  split; [exact wf_demo_segment|].
  destruct (grow_bytes_spec fixed_mmap 5000 demo_segment wf_demo_segment) as (_ & H & _).
  - intros addr len prot flags _. reflexivity.
  - lia.
  - destruct H as (s' & Hg & Hs & _); [vm_compute; discriminate|]. exists s'.
    split; [exact Hg|exact Hs].
Defined.

(** ** Carving chunks *)

Lemma pointer_zero s o :
  wf s -> mapped s o -> pointer s o 0 = Ok (m_location s + o).
Proof.
  intros Hwf Hm. pose proof (mapped_bound s o Hwf Hm) as Hb.
  pose proof Hwf as (H1 & H2 & H3 & H4 & H5 & H6 & H7). pose proof Hm as [Ho Hbit].
  unfold pointer, check_bounds. rewrite (wrapu_small 64 (m_paged_size s - o)) by lia.
  destruct (Z.ltb_spec o (m_paged_size s)); [|lia].
  destruct (Z.leb_spec 0 (m_paged_size s - o)); [|lia]. simpl.
  rewrite Z.add_0_r, (wrapu_small 64 o) by lia.
  destruct (align_page_up_spec o) as [Hu Ha]; [lia|].
  rewrite align_page_down_spec by lia. rewrite Z.div_mul by (unfold PAGE_SIZE; lia).
  rewrite !(wrapu_small 32) by page.
  destruct (probe_pages_spec (m_bitmap s) (Z.to_nat (o / PAGE_SIZE))
    (Z.to_nat (align_page_up o / PAGE_SIZE - o / PAGE_SIZE)) true) as (b & -> & Hs).
  { pose proof (align_page_up_least o (m_paged_size s) ltac:(lia) H3 ltac:(lia)). page. }
  assert (b = true) as ->.
  { apply Hs. split; [done|]. intros p Hp.
    replace p with (Z.to_nat (o / PAGE_SIZE)) by page. exact Hbit. }
  simpl. rewrite wrapu_small by (unfold addr_top in *; lia). done.
Qed.

(** No page was skipped. *)
Definition dense (s : Segment) : Prop := forall o, 0 <= o < paged_size s -> mapped s o.

Lemma sbrk_fit_spec mmap st :
  mmap_total mmap -> wf (sb_seg st) -> dense (sb_seg st) ->
  0 <= next_offset st < 2 ^ 32 -> next_offset st <= m_reserved (sb_seg st) ->
  exists seg, sbrk_fit mmap st = (mkSbrkState (sb st) seg (sb_mem st), Ok ()) /\
    wf seg /\ dense seg /\ m_location seg = m_location (sb_seg st) /\
    size seg = Z.max (size (sb_seg st)) (next_offset st).
Proof.
  intros Hm Hwf Hd Ho Hres. unfold next_offset in *.
  unfold sbrk_fit, on_segment, get, mbind, M_bind. simpl.
  destruct (Z.ltb_spec (size (sb_seg st)) (sb_offset (sb st))) as [Hs|Hs].
  - assert (0 <= size (sb_seg st)) by (unfold wf, size in *; lia).
    rewrite wrapu_small by lia.
    destruct (grow_bytes_ok mmap (sb_offset (sb st) - size (sb_seg st)) (sb_seg st) Hwf Hm)
      as (s' & -> & Hw & Hl & Hsz & _ & Hold & Hnew); [lia|lia|].
    exists s'. split; [done|]. split; [done|]. split; [|split; [done|lia]].
    intros o Hoo. destruct (decide (o < paged_size (sb_seg st))); [apply Hold, Hd; lia|].
    apply Hnew. lia.
  - exists (sb_seg st). split; [by destruct st|]. split; [done|]. split; [done|]. split; [done|lia].
Qed.

(** Pushing a string on the startup heap, while the reservation has room:
    it occupies the bytes from the old break to the new one, NUL-terminated and
    readable at the segment's address, the break grows by exactly its length,
    every other byte of memory is untouched, and the segment stays well formed
    and large enough. *)
Theorem push_string_spec mmap str st :
  mmap_total mmap -> wf (sb_seg st) -> dense (sb_seg st) -> 0 <= next_offset st ->
  let len := Z.of_nat (length str) + 1 in
  next_offset st + len < 2 ^ 32 -> next_offset st + len <= m_reserved (sb_seg st) ->
  exists st', push_string mmap str st = (st', Ok ()) /\
    sbrk_offset st' = next_offset st /\ next_offset st' = next_offset st + len /\
    wf (sb_seg st') /\ dense (sb_seg st') /\
    size (sb_seg st') = Z.max (size (sb_seg st)) (next_offset st') /\
    let a := m_location (sb_seg st) + next_offset st in
    load (sb_mem st') a (Z.to_nat len) = str ++ [0] /\
    (forall x, x < a \/ a + len <= x -> peek (sb_mem st') x = peek (sb_mem st) x).
Proof.
  intros Hm Hwf Hd Ho len Hlt Hres. subst len.
  unfold push_string, sbrk_alloc, get, modify, lift, mbind, M_bind. cbv beta.
  rewrite (wrapu_small 32 (Z.of_nat (length str) + 1)) by lia. unfold next_offset in *. rewrite (wrapu_small 32) by lia.
  match goal with |- context [sbrk_fit mmap ?s] => set (st1 := s) end.
  destruct (sbrk_fit_spec mmap st1 Hm Hwf Hd) as (seg & -> & Hw & Hdn & Hl & Hsz);
    [unfold next_offset; simpl; lia|exact Hres|].
  unfold next_offset in Hsz. simpl in Hl, Hsz.
  unfold sbrk_ptr, sbrk_offset. simpl. rewrite pointer_zero; [|exact Hw|].
  2: { apply Hdn. unfold wf, size, paged_size in *. lia. }
  eexists. split; [reflexivity|]. simpl. rewrite Hl.
  split; [done|]. split; [done|]. split; [done|]. split; [done|]. split; [done|].
  assert (Hlen : length (str ++ [0]) = S (length str)) by (rewrite length_app; simpl; lia).
  split.
  - replace (Z.to_nat (Z.of_nat (length str) + 1)) with (length (str ++ [0])) by lia.
    apply load_store.
  - intros x Hx. rewrite peek_store.
    match goal with |- (if ?b then _ else _) = _ => destruct b eqn:E end; [|done]. to_prop. lia.
Qed.

Definition demo_sbrk : SbrkState := mkSbrkState (StartupSbrk 96) demo_segment ∅.

Lemma push_string_spec_witness :
  wf demo_segment /\ dense demo_segment /\
  exists st', push_string fixed_mmap [47; 98; 105; 110] demo_sbrk = (st', Ok ()) /\
    load (sb_mem st') (2 ^ 26 + 96) 5 = [47; 98; 105; 110; 0].
Proof.
  assert (Hd : dense demo_segment).
  { intros o Ho. split; [apply Ho|]. unfold paged_size, demo_segment in *. simpl in *.
    rewrite Z.div_small by exact Ho. reflexivity. }
  split; [exact wf_demo_segment|]. split; [exact Hd|].
  destruct (push_string_spec fixed_mmap [47; 98; 105; 110] demo_sbrk)
    as (st' & Hp & _ & _ & _ & _ & _ & Hl & _).
  - intros addr len prot flags _. reflexivity.
  - exact wf_demo_segment.
  - exact Hd.
  - vm_compute. discriminate.
  - vm_compute. reflexivity.
  - vm_compute. discriminate.
  - exists st'. split; [exact Hp|exact Hl].
Defined.
