(* ===== verification/AddressSpace.v ===== *)
(** * AddressSpace: [segment_descriptor.h], [segment_descriptor.cpp] and the
    memory part of [process.cpp]

    Segments live in a store (a [shared_ptr] is a key of it), segment
    descriptors in the 1024-slot id map of the process, and every descriptor is
    published in the processor's local descriptor table with [modify_ldt].
    [translate_segmented] turns a far pointer of the guest into a host address. *)

From S2P Require Import Prelude Types IdMap Segment.

Definition SEL_LDT : Z := Z.shiftl 1 2.

Definition mk_sel (id : Z) : Z := u16 (Z.lor (Z.lor (Z.shiftl id 3) SEL_LDT) 3).
Definition mk_invalid_sel (id : Z) : Z := u16 (256 + Z.shiftl id 3).
Definition sel_to_id (id : Z) : Z := Z.shiftr id 3.

Record Descriptor := mkDescriptor {
  sd_id : Z;
  sd_access : Access;
  sd_seg : nat;
  sd_bits : Bitness
}.

Definition selector (sd : Descriptor) : Z := mk_sel (sd_id sd).
Definition far_pointer (sd : Descriptor) (offset : Z) : FarPointer := mkFarPointer (selector sd) offset.
Definition change_access (a : Access) (sd : Descriptor) : Descriptor :=
  mkDescriptor (sd_id sd) a (sd_seg sd) (sd_bits sd).

(** [struct user_desc] of <asm/ldt.h>. *)
Record user_desc := mkUserDesc {
  entry_number : Z;
  base_addr : Z;
  limit : Z;
  seg_32bit : bool;
  contents : Z;
  read_exec_only : bool;
  limit_in_pages : bool;
  useable : bool
}.

(** What [update_descriptors] hands to the kernel. *)
Definition user_desc_of (sd : Descriptor) (seg : Segment) : user_desc :=
  let big := 64 * 1024 <? size seg in
  let code := match sd_access sd with EXEC_ONLY | EXEC_READ => true | _ => false end in
  mkUserDesc (sd_id sd) (location seg)
    (if big then u32 (MemOps.align_page_up (size seg) / MemOps.PAGE_SIZE - 1)
     else u32 (paged_size seg - 1))
    (match sd_bits sd with B32 => true | B16 => false end)
    (if code then 2 else 0)
    (match sd_access sd with EXEC_ONLY | READ_ONLY => true | _ => false end)
    big true.

Definition empty_desc (entry : Z) : user_desc := mkUserDesc entry 0 0 false 0 false false false.

Record Space := mkSpace {
  segs : gmap nat Segment;
  next_seg : nat;
  m_segments : list nat;
  m_segment_descriptors : IdMap Descriptor;
  ldt : gmap Z user_desc
}.

Definition Space_new : Space := mkSpace ∅ 0 [] (new 1024) ∅.

Section Ops.
(** [modify_ldt(1, ud) = 0]. *)
Context (modify_ldt : user_desc -> bool).

Definition publish (ud : user_desc) : M Space unit := fun sp =>
  if modify_ldt ud
  then (mkSpace (segs sp) (next_seg sp) (m_segments sp) (m_segment_descriptors sp)
          (<[entry_number ud := ud]> (ldt sp)), Ok ())
  else (sp, Throw (LogicError "modify_ldt")).

Definition update_descriptors (sd : Descriptor) : M Space unit :=
  sp ← get;
  match segs sp !! sd_seg sd with
  | None => throw (Undefined "segment")
  | Some seg => publish (user_desc_of sd seg)
  end.

Definition remove_descriptors (sd : Descriptor) : M Space unit := publish (empty_desc (sd_id sd)).

Definition allocate_segment : M Space nat := fun sp =>
  (mkSpace (<[next_seg sp := Segment_new]> (segs sp)) (S (next_seg sp))
     (next_seg sp :: m_segments sp) (m_segment_descriptors sp) (ldt sp), Ok (next_seg sp)).

(** The constructor [SegmentDescriptor(idx, access, mem, bits)]. *)
Definition construct (sp : Space) (access : Access) (mem : nat) (bits : Bitness) (idx : nat)
  : outcome Descriptor :=
  let sd := mkDescriptor (u16 (Z.of_nat idx)) access mem bits in
  '(_, r) ← Ok (update_descriptors sd sp);
  _ ← r;
  Ok sd.

Definition set_descriptors (m : IdMap Descriptor) (sp : Space) : Space :=
  mkSpace (segs sp) (next_seg sp) (m_segments sp) m (ldt sp).

(** Allocation of a slot whose creator constructs the descriptor: the slot is
    taken, and the table entry published, only if the constructor returns. *)
Definition create_with
    (alloc : (nat -> outcome Descriptor) -> M (IdMap Descriptor) Descriptor)
    (access : Access) (mem : nat) (bits : Bitness) : M Space Descriptor := fun sp =>
  let '(m, r) := alloc (construct sp access mem bits) (m_segment_descriptors sp) in
  match r with
  | Throw e => (set_descriptors m sp, Throw e)
  | Ok sd => (fst (update_descriptors sd (set_descriptors m sp)), Ok sd)
  end.

Definition create_segment_descriptor : Access -> nat -> Bitness -> M Space Descriptor :=
  create_with alloc_any.

Definition create_segment_descriptor_at (access : Access) (mem : nat) (bits : Bitness) (id : Z)
  : M Space Descriptor :=
  create_with (alloc_exactly_at (Z.to_nat id)) access mem bits.

Definition descriptor_by_selector (sp : Space) (id : Z) : option Descriptor :=
  at_ (m_segment_descriptors sp) (Z.to_nat (Z.shiftr id 3)).

Definition free_segment_descriptor (sd : Descriptor) (sp : Space) : Space :=
  set_descriptors (fst (free (m_segment_descriptors sp) (Z.to_nat (sd_id sd)))) sp.

Definition translate_segmented (sp : Space) (ptr : FarPointer) (size : Z) (write : RwOp)
  : outcome Z :=
  match descriptor_by_selector sp (Types.m_segment ptr) with
  | None => Throw (SegmentationFault "segment not present")
  | Some sd =>
      match segs sp !! sd_seg sd with
      | None => Throw (Undefined "segment")
      | Some seg =>
          ok ← check_bounds seg (Types.m_offset ptr) size;
          if negb ok then Throw (SegmentationFault "address out of segment bounds")
          else pointer seg (Types.m_offset ptr) size
      end
  end.
End Ops.

(** ** Invariant *)

Definition wf_space (sp : Space) : Prop :=
  (forall r s, segs sp !! r = Some s -> Segment.wf s) /\
  (forall r, is_Some (segs sp !! r) -> (r < next_seg sp)%nat) /\
  IdMap.wf (m_segment_descriptors sp) /\ m_max (m_segment_descriptors sp) = 1024%nat /\
  (forall i sd, at_ (m_segment_descriptors sp) i = Some sd ->
     sd_id sd = Z.of_nat i /\ is_Some (segs sp !! sd_seg sd)).

Lemma wf_space_new : wf_space Space_new.
Proof.
  split; [done|]. split; [by intros r [? ?]|]. split; [apply IdMap.wf_new|]. split; [done|].
  intros i sd. rewrite at_ge by (simpl; lia). done.
Qed.

(** ** Selectors *)

Lemma mk_sel_eq id : 0 <= id < 8192 -> mk_sel id = 8 * id + 7.
Proof.
  intros Hid. unfold mk_sel, SEL_LDT. rewrite Z.shiftl_mul_pow2 by lia.
  change (Z.shiftl 1 2) with 4. rewrite <- Z.lor_assoc. change (Z.lor 4 3) with 7.
  assert (H : Z.lor (id * 2 ^ 3) 7 = id * 2 ^ 3 + 7).
  { rewrite <- Z.lxor_lor, <- Z.add_nocarry_lxor; [done| |];
      apply Z.bits_inj'; intros n Hn; rewrite Z.land_spec, Z.bits_0;
      (destruct (Z.ltb_spec n 3);
       [rewrite Z.mul_pow2_bits_low by lia; done|
        change 7 with (Z.ones 3); rewrite Z.ones_spec_high by lia; by rewrite andb_false_r]). }
  rewrite H. change (2 ^ 3) with 8. rewrite wrapu_small; lia.
Qed.

Lemma sel_to_id_mk_sel id : 0 <= id < 8192 -> sel_to_id (mk_sel id) = id.
Proof. intros Hid. rewrite mk_sel_eq by done. unfold sel_to_id. rewrite Z.shiftr_div_pow2 by lia. zlia. Qed.

(** The bytes a table entry lets the guest address, from its base. *)
Definition extent (ud : user_desc) : Z :=
  if limit_in_pages ud then (limit ud + 1) * MemOps.PAGE_SIZE else limit ud + 1.

(** ** The effect of creating a descriptor *)

Section Facts.
Context (modify_ldt : user_desc -> bool).

Lemma construct_Ok sp access mem bits i sd :
  construct modify_ldt sp access mem bits i = Ok sd ->
  sd = mkDescriptor (u16 (Z.of_nat i)) access mem bits /\
  exists s, segs sp !! mem = Some s /\ modify_ldt (user_desc_of sd s) = true.
Proof.
  unfold construct, update_descriptors, get, throw, publish, mbind, outcome_bind, M_bind. simpl.
  destruct (segs sp !! mem) as [s|] eqn:Es; simpl; [|done].
  destruct (modify_ldt _) eqn:Em; [|done]. intros [= <-]. split; [done|]. by exists s.
Qed.

(** A descriptor [sd] was put in the free slot [i] and published. *)
Definition installed (sp sp' : Space) (i : nat) (sd : Descriptor) : Prop :=
  sd_id sd = Z.of_nat i /\ (i < 1024)%nat /\ at_ (m_segment_descriptors sp) i = None /\
  segs sp' = segs sp /\ next_seg sp' = next_seg sp /\
  IdMap.wf (m_segment_descriptors sp') /\ m_max (m_segment_descriptors sp') = 1024%nat /\
  (forall j, at_ (m_segment_descriptors sp') j =
     if decide (j = i) then Some sd else at_ (m_segment_descriptors sp) j) /\
  exists s, segs sp !! sd_seg sd = Some s /\
    ldt sp' = <[sd_id sd := user_desc_of sd s]> (ldt sp).

Lemma installed_intro sp m i access mem bits sd :
  (i < 1024)%nat -> abs (m_segment_descriptors sp) !! i = None ->
  IdMap.wf m -> m_max m = 1024%nat ->
  construct modify_ldt sp access mem bits i = Ok sd ->
  abs m = <[i := sd]> (abs (m_segment_descriptors sp)) ->
  installed sp (fst (update_descriptors modify_ldt sd (set_descriptors m sp))) i sd /\
  sd_access sd = access /\ sd_seg sd = mem /\ sd_bits sd = bits.
Proof.
  intros Hi Hfree Hwf Hmax Hc Habs.
  destruct (construct_Ok _ _ _ _ _ _ Hc) as (Hsd & s & Hs & Hm).
  assert (Hid : sd_id sd = Z.of_nat i)
    by (rewrite Hsd; simpl; apply wrapu_small; lia).
  assert (Hseg : sd_seg sd = mem) by by rewrite Hsd.
  unfold update_descriptors, get, publish, mbind, M_bind. simpl. rewrite Hseg, Hs, Hm. simpl.
  split; [|by rewrite Hsd]. rewrite abs_lookup in Hfree.
  repeat split; try done.
  - intros j. simpl. rewrite <- abs_lookup, Habs, lookup_insert. case_decide as Hj; subst.
    + by rewrite decide_True.
    + by rewrite decide_False, abs_lookup by congruence.
  - exists s. rewrite Hseg. done.
Qed.

Lemma installed_wf sp sp' i sd : wf_space sp -> installed sp sp' i sd -> wf_space sp'.
Proof.
  intros (H1 & H2 & H3 & H4 & H5)
    (Hid & Hi & Hfree & Hsegs & Hnext & Hwf & Hmax & Hat & s & Hs & Hldt).
  split; [by rewrite Hsegs|]. split; [by rewrite Hsegs, Hnext|]. split; [done|].
  split; [done|]. intros j sd' Hj. rewrite Hat in Hj. rewrite Hsegs.
  case_decide; [|by apply H5]. injection Hj as <-. subst j. split; [done|]. by rewrite Hs.
Qed.

Lemma create_inv sp access mem bits sp' r :
  wf_space sp -> create_segment_descriptor modify_ldt access mem bits sp = (sp', r) ->
  (exists i sd, r = Ok sd /\ installed sp sp' i sd /\
     sd_access sd = access /\ sd_seg sd = mem /\ sd_bits sd = bits /\
     forall j, (j < i)%nat -> is_Some (at_ (m_segment_descriptors sp) j)) \/
  (exists e, r = Throw e /\ wf_space sp' /\ segs sp' = segs sp /\ ldt sp' = ldt sp /\
     abs (m_segment_descriptors sp') = abs (m_segment_descriptors sp)).
Proof.
  intros Hwf. pose proof Hwf as (H1 & H2 & H3 & H4 & H5).
  unfold create_segment_descriptor, create_with.
  pose proof (alloc_from_spec (m_segment_descriptors sp) 0
    (construct modify_ldt sp access mem bits) H3) as Hp.
  unfold alloc_any. destruct (search _ _ _) as [k|].
  2: { intros [= <- <-]. right. eexists. split; [done|]. done. }
  destruct (emplace k _ _) as [m r0]. destruct Hp as (Hwm & Hmm & [Hp|(-> & -> & _)]).
  2: { intros [= <- <-]. right. eexists. split; [done|]. done. }
  destruct Hp as (i & Hi & Hfree & Hmin & Hr & Habs).
  destruct r0 as [sd|e]; intros [= <- <-].
  - left. exists i, sd. split; [done|].
    destruct (installed_intro sp m i access mem bits sd) as (Hin & Ha & Hs & Hb);
      [lia|done|done|congruence|by symmetry|done|].
    split; [done|]. split; [done|]. split; [done|]. split; [done|].
    intros j Hj. rewrite <- abs_lookup. apply Hmin. lia.
  - right. exists e. split; [done|]. split; [|done].
    split; [done|]. split; [done|]. split; [done|]. split; [simpl; congruence|].
    intros j sd. simpl. rewrite <- abs_lookup, Habs, abs_lookup. apply H5.
Qed.
End Facts.

(** ** Properties *)

(** C18. The far-pointer translation that every guest access goes through: an
    access to a selector without descriptor, or outside the mapped bytes of its
    segment, is a segmentation fault of the guest; every other access gets the
    host address of those bytes, inside the segment's own reservation.  No
    assertion of the emulator can fail on a guest-supplied pointer. *)
Theorem translate_spec sp ptr n op :
  wf_space sp -> 0 <= Types.m_segment ptr < 2 ^ 16 -> 0 <= Types.m_offset ptr < 2 ^ 32 ->
  0 < n < 2 ^ 32 ->
  let off := Types.m_offset ptr in
  match descriptor_by_selector sp (Types.m_segment ptr) with
  | None => translate_segmented sp ptr n op = Throw (SegmentationFault "segment not present")
  | Some sd => exists s, segs sp !! sd_seg sd = Some s /\
      ((forall i, off <= i < off + n -> mapped s i) ->
         translate_segmented sp ptr n op = Ok (m_location s + off) /\ off + n <= m_reserved s) /\
      (~ (forall i, off <= i < off + n -> mapped s i) ->
         translate_segmented sp ptr n op =
           Throw (SegmentationFault "address out of segment bounds"))
  end.
Proof.
  intros (H1 & H2 & H3 & H4 & H5) Hseg Hoff Hn off. unfold translate_segmented.
  destruct (descriptor_by_selector sp (Types.m_segment ptr)) as [sd|] eqn:Ed; [|done].
  destruct (H5 _ _ Ed) as (Hid & s & Hs). exists s. split; [done|]. rewrite Hs.
  destruct (check_bounds_range s off n (H1 _ _ Hs)) as (b & Hb & Hiff & Hp); [lia|lia|].
  fold off. rewrite Hb. cbn. destruct b; simpl.
  - split; [intros _; exact Hp|]. intros Hnot. destruct Hnot. by apply Hiff.
  - split; [|done]. intros Hall. by apply Hiff in Hall.
Qed.

Definition demo_sd : Descriptor := mkDescriptor 0 READ_WRITE 0 B32.
Definition demo_space : Space :=
  mkSpace {[ 0%nat := demo_segment ]} 1 [0%nat] (mkIdMap 1024 [Some demo_sd]) ∅.

Lemma wf_demo_space : wf_space demo_space.
Proof.
  split; [|split; [|split; [|split]]].
  - intros r s Hr. simpl in Hr. apply lookup_singleton_Some in Hr as [<- <-]. exact wf_demo_segment.
  - intros r [s Hr]. simpl in Hr. apply lookup_singleton_Some in Hr as [<- _]. simpl. lia.
  - unfold IdMap.wf. simpl. lia.
  - done.
  - intros [|i] sd; [|rewrite at_ge by (simpl; lia); done].
    intros [= <-]. split; [done|]. simpl. rewrite lookup_singleton_eq. done.
Qed.

Lemma translate_spec_witness :
  wf_space demo_space /\
  translate_segmented demo_space (mkFarPointer 7 100) 16 READ = Ok (2 ^ 26 + 100).
Proof.
  split; [exact wf_demo_space|].
  pose proof (translate_spec demo_space (mkFarPointer 7 100) 16 READ wf_demo_space
    ltac:(simpl; lia) ltac:(simpl; lia) ltac:(lia)) as H.
  change (descriptor_by_selector demo_space (Types.m_segment (mkFarPointer 7 100)))
    with (Some demo_sd) in H.
  destruct H as (s & Hs & Hok & _).
  change (segs demo_space !! sd_seg demo_sd) with (Some demo_segment) in Hs. injection Hs as <-.
  apply Hok. intros i Hi. simpl in Hi. split; [lia|]. unfold MemOps.PAGE_SIZE.
  rewrite Z.div_small by lia. reflexivity.
Defined.

(** C19. The life of a descriptor: when creation succeeds the least free slot
    gets it, the selector handed out finds it again and no other selector
    changes meaning, the descriptor table describes the segment; when it fails
    nothing the guest can see has changed.  Freeing withdraws the selector from
    translation - but the processor's table keeps its entry, because the
    destructor that would clear it never runs. *)
Theorem descriptor_lifecycle modify_ldt sp access mem bits sp' r :
  wf_space sp -> create_segment_descriptor modify_ldt access mem bits sp = (sp', r) ->
  match r with
  | Throw _ => wf_space sp' /\ segs sp' = segs sp /\ ldt sp' = ldt sp /\
      forall sel, descriptor_by_selector sp' sel = descriptor_by_selector sp sel
  | Ok sd => wf_space sp' /\ segs sp' = segs sp /\
      0 <= sd_id sd < 1024 /\ sel_to_id (selector sd) = sd_id sd /\
      has (selector sd) SEL_LDT = true /\
      descriptor_by_selector sp (selector sd) = None /\
      (forall sel, 0 <= sel < 2 ^ 16 -> descriptor_by_selector sp' sel =
         if decide (sel_to_id sel = sd_id sd) then Some sd else descriptor_by_selector sp sel) /\
      (exists s, segs sp !! mem = Some s /\ ldt sp' !! sd_id sd = Some (user_desc_of sd s)) /\
      let sp'' := free_segment_descriptor sd sp' in
      wf_space sp'' /\ ldt sp'' = ldt sp' /\
      (forall sel, 0 <= sel < 2 ^ 16 -> descriptor_by_selector sp'' sel =
         descriptor_by_selector sp sel)
  end.
Proof.
  intros Hwf Hrun. destruct (create_inv _ _ _ _ _ _ _ Hwf Hrun)
    as [(i & sd & -> & Hin & Ha & Hs & Hb & _)|(e & -> & Hw & Hsg & Hl & Habs)].
  2: { split; [done|]. split; [done|]. split; [done|]. intros sel.
       unfold descriptor_by_selector. by rewrite <- !abs_lookup, Habs. }
  pose proof (installed_wf _ _ _ _ Hwf Hin) as Hwf'.
  pose proof Hin as (Hid & Hi & Hfree & Hsegs & Hnext & Hwm & Hmax & Hat & s & Hseg & Hldt).
  assert (Hsel : forall sel, 0 <= sel < 2 ^ 16 ->
    (Z.to_nat (Z.shiftr sel 3) = i <-> sel_to_id sel = sd_id sd)).
  { intros sel Hr. unfold sel_to_id. rewrite Z.shiftr_div_pow2 by lia. rewrite Hid.
    split; [intros <-|intros ->]; zlia. }
  assert (Hback : sel_to_id (selector sd) = sd_id sd) by (apply sel_to_id_mk_sel; lia).
  assert (Hrange : 0 <= selector sd < 2 ^ 16) by (unfold selector; rewrite mk_sel_eq; lia).
  split; [done|]. split; [done|]. split; [lia|]. split; [done|]. split; [|split; [|split; [|split]]].
  - unfold has, selector. rewrite mk_sel_eq by lia. apply negb_true_iff, Z.eqb_neq. intros He.
    apply (f_equal (fun z => Z.testbit z 2)) in He. rewrite Z.land_spec, Z.bits_0 in He.
    change (Z.testbit SEL_LDT 2) with true in He. rewrite andb_true_r in He.
    apply Z.testbit_false in He; [|lia]. change (2 ^ 2) with 4 in He. zlia.
  - unfold descriptor_by_selector. by rewrite (proj2 (Hsel _ Hrange) Hback).
  - intros sel Hr. unfold descriptor_by_selector. rewrite Hat.
    destruct (decide (sel_to_id sel = sd_id sd)) as [He|He].
    + by rewrite decide_True by (by apply Hsel).
    + rewrite decide_False; [done|]. intros E. apply He. by apply Hsel.
  - exists s. rewrite <- Hs. split; [done|]. by rewrite Hldt, lookup_insert_eq.
  - assert (Hfr : forall j, at_ (fst (free (m_segment_descriptors sp') (Z.to_nat (sd_id sd)))) j =
        at_ (m_segment_descriptors sp) j).
    { intros j. rewrite Hid, Nat2Z.id. rewrite free_at. rewrite Hat. case_decide; [by subst|done]. }
    split; [|split; [done|]].
    + destruct Hwf as (H1 & H2 & H3 & H4 & H5).
      split; [simpl; by rewrite Hsegs|]. split; [simpl; by rewrite Hsegs, Hnext|].
      split; [simpl; by apply free_wf|]. split; [simpl; by rewrite free_max|].
      intros j sd'. simpl. rewrite Hfr, Hsegs. apply H5.
    + intros sel Hr. unfold descriptor_by_selector, free_segment_descriptor. simpl. apply Hfr.
Qed.

Lemma descriptor_lifecycle_witness :
  wf_space demo_space /\
  let '(sp', r) := create_segment_descriptor (fun _ => true) EXEC_READ 0 B16 demo_space in
  exists sd, r = Ok sd /\ sd_id sd = 1 /\ descriptor_by_selector sp' (selector sd) = Some sd /\
    sel_to_id (selector sd) = 1.
Proof.
  split; [exact wf_demo_space|].
  destruct (create_segment_descriptor (fun _ => true) EXEC_READ 0 B16 demo_space) as [sp' r] eqn:E.
  pose proof (descriptor_lifecycle (fun _ => true) demo_space EXEC_READ 0 B16 sp' r wf_demo_space E) as H.
  vm_compute in E. injection E as _ Er. subst r.
  destruct H as (_ & _ & Hr & Hb & _ & _ & Hs & _).
  eexists. split; [reflexivity|]. split; [reflexivity|]. split; [|exact Hb].
  rewrite Hs by (vm_compute; split; [discriminate|reflexivity]). reflexivity.
Defined.

(** What the guest can reach through a published descriptor: at least its
    segment's size, never more than the pages the segment owns - except for an
    empty segment, whose limit wraps around to the whole address space - with
    execute and write permission as the access mode says. *)
Theorem descriptor_extent sd s :
  Segment.wf s -> paged_size s <= 2 ^ 31 ->
  let ud := user_desc_of sd s in
  (0 < paged_size s -> size s <= extent ud <= paged_size s) /\
  (paged_size s = 0 -> extent ud = 2 ^ 32) /\
  (contents ud = 2 <-> sd_access sd = EXEC_ONLY \/ sd_access sd = EXEC_READ) /\
  (read_exec_only ud = true <-> sd_access sd = EXEC_ONLY \/ sd_access sd = READ_ONLY) /\
  base_addr ud = u32 (m_location s).
Proof.
  intros Hwf Hle ud. pose proof Hwf as (H1 & H2 & H3 & H4 & H5 & H6 & H7).
  unfold size, paged_size in *.
  split; [|split; [|split; [|split; [|done]]]].
  - intros Hpos. unfold ud, extent, user_desc_of. simpl. unfold size, paged_size.
    destruct (Z.ltb_spec (64 * 1024) (m_limit_size s)) as [Hb|Hb].
    + destruct (MemOps.align_page_up_spec (m_limit_size s)) as [Hu Ha]; [lia|].
      pose proof (MemOps.align_page_up_least (m_limit_size s) (m_paged_size s)
        ltac:(lia) H3 ltac:(lia)).
      rewrite wrapu_small by (unfold MemOps.PAGE_SIZE in *; zlia).
      unfold MemOps.PAGE_SIZE in *. zlia.
    + rewrite wrapu_small by lia. lia.
  - intros Hz. unfold ud, extent, user_desc_of. simpl. unfold size, paged_size.
    destruct (Z.ltb_spec (64 * 1024) (m_limit_size s)); [lia|]. rewrite Hz. reflexivity.
  - unfold ud, user_desc_of. simpl. destruct (sd_access sd); simpl; intuition congruence.
  - unfold ud, user_desc_of. simpl. destruct (sd_access sd); simpl; intuition congruence.
Qed.

Lemma descriptor_extent_witness :
  Segment.wf demo_segment /\ paged_size demo_segment <= 2 ^ 31 /\
  extent (user_desc_of demo_sd demo_segment) = 4096 /\
  size demo_segment <= extent (user_desc_of demo_sd demo_segment) <= 4096.
Proof.
  split; [exact wf_demo_segment|]. split; [vm_compute; discriminate|]. split; [reflexivity|].
  apply (descriptor_extent demo_sd demo_segment wf_demo_segment ltac:(vm_compute; discriminate)).
  reflexivity.
Defined.
