(* ===== verification/Msg.v ===== *)
(** * Msg: [msg.h], [msg.cpp]

    A QNX message is scattered over the guest's memory in two lists of chunks,
    one to read the request from and one to write the reply to.  The iterator
    walks a chunk list; [read], [write], the iovec builders and the stream
    reader are loops over it.  They are proved to implement a flat message: the
    list of the host addresses of its bytes, in order. *)

From S2P Require Import Prelude Types Memory.

(** ** The interface to the address space *)

(** What the messages need of [Process::translate_segmented]. *)
Class Translation := { translate : FarPointer -> Z -> RwOp -> outcome Z }.

(** Translating a part of a range that translates gives the part's address. *)
Class TranslationLaws (T : Translation) := translate_part :
  forall p n op a k m op', translate p n op = Ok a -> 0 <= k -> 0 < m -> k + m <= n ->
    0 <= m_segment p < 2 ^ 16 -> 0 <= m_offset p -> m_offset p + n <= 2 ^ 32 ->
    translate (mkFarPointer (m_segment p) (m_offset p + k)) m op' = Ok (a + k).

(** ** Chunks *)

(** [struct mxfer_entry]. *)
Record chunk := mkChunk { mxfer_off : Z; mxfer_seg : Z; mxfer_len : Z }.

Definition decode_entry (bs : list Z) : chunk :=
  mkChunk (u32 (le_val (slice 0 4 bs))) (u16 (le_val (slice 4 2 bs))) (u32 (le_val (slice 8 4 bs))).
Definition decode_entry16 (bs : list Z) : chunk :=
  mkChunk (u16 (le_val (slice 0 2 bs))) (u16 (le_val (slice 4 2 bs))) (u16 (le_val (slice 6 2 bs))).

Definition sizeof_mxfer_entry : nat := 12.
Definition sizeof_mxfer_entry16 : nat := 8.

Definition decode_entries (sz : nat) (dec : list Z -> chunk) (mem : Mem) (a : Z) (n : nat)
  : list chunk :=
  (fun i => dec (load mem (a + Z.of_nat (i * sz)) sz)) <$> seq 0 n.

(** 32-bit messages keep a pointer to the entries in guest memory; 16-bit ones
    keep a translated copy ([m_send_translated_entries]). *)
Inductive entries := InGuest (addr : Z) (parts : nat) | Translated (l : list chunk).

Definition chunks_of (mem : Mem) (e : entries) : list chunk :=
  match e with
  | InGuest a n => decode_entries sizeof_mxfer_entry decode_entry mem a n
  | Translated l => l
  end.

Record Msg := mkMsg { m_send : entries; m_rcv : entries }.

Section Msg.
Context {T : Translation}.

(** The constructor. *)
Definition Msg_new (mem : Mem) (send_parts : nat) (send : FarPointer) (rcv_parts : nat)
    (rcv : FarPointer) (bits : Bitness) : outcome Msg :=
  match bits with
  | B32 =>
      s ← translate send (u32 (Z.of_nat (sizeof_mxfer_entry * send_parts))) READ;
      r ← translate rcv (u32 (Z.of_nat (sizeof_mxfer_entry * rcv_parts))) WRITE;
      Ok (mkMsg (InGuest s send_parts) (InGuest r rcv_parts))
  | B16 =>
      s ← translate send (u32 (Z.of_nat (sizeof_mxfer_entry16 * send_parts))) READ;
      let sl := decode_entries sizeof_mxfer_entry16 decode_entry16 mem s send_parts in
      r ← translate rcv (u32 (Z.of_nat (sizeof_mxfer_entry16 * rcv_parts))) READ;
      let rl := decode_entries sizeof_mxfer_entry16 decode_entry16 mem r rcv_parts in
      Ok (mkMsg (Translated sl) (Translated rl))
  end.

(** ** The iterator *)

Record Iterator := mkIterator { m_i : nat; m_offset_of_chunk : Z; it_offset : Z }.

Definition it_begin : Iterator := mkIterator 0 0 0.

(** The [while] of [normalize] over the chunks from [m_i]. *)
Fixpoint normalize_loop (l : list chunk) (it : Iterator) : Iterator :=
  match l with
  | [] => it
  | c :: l =>
      if mxfer_len c <=? it_offset it
      then normalize_loop l
             (mkIterator (S (m_i it)) (u64 (m_offset_of_chunk it + it_offset it)) 0)
      else it
  end.

Definition normalize (chunks : list chunk) (it : Iterator) : Iterator :=
  normalize_loop (drop (m_i it) chunks) it.

Definition next (chunks : list chunk) (size : Z) (it : Iterator) : FarSlice * Iterator :=
  let it := normalize chunks it in
  match chunks !! m_i it with
  | None => (mkFarSlice FarPointer_null 0, it)
  | Some c =>
      let to_read := mxfer_len c - it_offset it in
      let to_read := if size <? to_read then size else to_read in
      (mkFarSlice (mkFarPointer (mxfer_seg c) (u32 (mxfer_off c + it_offset it))) (u32 to_read),
       mkIterator (m_i it) (m_offset_of_chunk it) (u64 (it_offset it + to_read)))
  end.

Definition eof (chunks : list chunk) (it : Iterator) : bool :=
  (m_i (normalize chunks it) =? length chunks)%nat.

Definition msg_offset (it : Iterator) : Z := u64 (m_offset_of_chunk it + it_offset it).

Fixpoint skip_loop (fuel : nat) (chunks : list chunk) (dst_offset : Z) (it : Iterator)
  : outcome Iterator :=
  match fuel with
  | O => Throw (Undefined "fuel")
  | S fuel =>
      let '(s, it) := next chunks (u64 (dst_offset - msg_offset it)) it in
      if FarSlice_is_empty s then Ok it else skip_loop fuel chunks dst_offset it
  end.

(** Every round but the last moves forward by at least one byte. *)
Definition skip_to (chunks : list chunk) (dst_offset : Z) (it : Iterator) : outcome Iterator :=
  skip_loop (Z.to_nat dst_offset + 2) chunks dst_offset it.

Definition no_limit : Z := 2 ^ 64 - 1.

(** ** Reading *)

Fixpoint read_loop (fuel : nat) (mem : Mem) (chunks : list chunk) (size : Z) (it : Iterator)
    (dst : list Z) : outcome (list Z) :=
  match fuel with
  | O => Throw (Undefined "fuel")
  | S fuel =>
      if size =? 0 then Ok dst
      else
        let '(s, it) := next chunks size it in
        if FarSlice_is_empty s then Ok (dst ++ replicate (Z.to_nat size) 204)
        else
          src ← translate (m_ptr s) (m_size s) READ;
          read_loop fuel mem chunks (size - m_size s) it
            (dst ++ load mem src (Z.to_nat (m_size s)))
  end.

Definition read_chunks (mem : Mem) (e : entries) (offset size : Z) : outcome (list Z) :=
  let chunks := chunks_of mem e in
  it ← skip_to chunks offset it_begin;
  read_loop (Z.to_nat size + 1) mem chunks size it [].

Definition read (mem : Mem) (m : Msg) (offset size : Z) : outcome (list Z) :=
  read_chunks mem (m_send m) offset size.
Definition read_written (mem : Mem) (m : Msg) (offset size : Z) : outcome (list Z) :=
  read_chunks mem (m_rcv m) offset size.

(** ** Writing *)

(** The number of bytes left over is the result. *)
Fixpoint write_loop (fuel : nat) (e : entries) (src : list Z) (it : Iterator) : M Mem Z :=
  match fuel with
  | O => throw (Undefined "fuel")
  | S fuel =>
      let size := Z.of_nat (length src) in
      if size =? 0 then mret 0
      else
        mem ← get;
        let '(s, it) := next (chunks_of mem e) size it in
        if FarSlice_is_empty s then mret size
        else
          dst ← lift (translate (m_ptr s) (m_size s) WRITE);
          _ ← modify (fun mem => store mem dst (take (Z.to_nat (m_size s)) src));
          write_loop fuel e (drop (Z.to_nat (m_size s)) src) it
  end.

Definition write (m : Msg) (offset : Z) (src : list Z) : M Mem Z :=
  mem ← get;
  it ← lift (skip_to (chunks_of mem (m_rcv m)) offset it_begin);
  left ← write_loop (length src + 1) (m_rcv m) src it;
  mret (Z.of_nat (length src) - left).

Definition write_status (m : Msg) (status : Z) : M Mem unit :=
  _ ← write m 0 (le_bytes 2 status); mret ().

(** ** I/O vectors *)

Record iovec := mkIovec { iov_base : Z; iov_len : Z }.

Fixpoint iovec_loop (fuel : nat) (chunks : list chunk) (op : RwOp) (size : Z) (it : Iterator)
    (dst : list iovec) : outcome (Z * list iovec) :=
  match fuel with
  | O => Throw (Undefined "fuel")
  | S fuel =>
      if size =? 0 then Ok (0, dst)
      else
        let '(s, it) := next chunks size it in
        if FarSlice_is_empty s then Ok (size, dst)
        else
          ptr ← translate (m_ptr s) (m_size s) op;
          iovec_loop fuel chunks op (size - m_size s) it (dst ++ [mkIovec ptr (m_size s)])
  end.

Definition sizeof_garbage : Z := 256.

(** Both directions are padded with the constant [garbage_read] array. *)
Fixpoint garbage_loop (fuel : nat) (garbage_read size : Z) (dst : list iovec)
  : outcome (list iovec) :=
  match fuel with
  | O => Throw (Undefined "fuel")
  | S fuel =>
      if size =? 0 then Ok dst
      else
        let len := Z.min size sizeof_garbage in
        garbage_loop fuel garbage_read (size - len) (dst ++ [mkIovec garbage_read len])
  end.

Definition common_iovec (garbage_read : Z) (chunks : list chunk) (op : RwOp) (offset size : Z)
    (dst : list iovec) : outcome (list iovec) :=
  it ← skip_to chunks offset it_begin;
  '(size, dst) ← iovec_loop (Z.to_nat size + 1) chunks op size it dst;
  garbage_loop (Z.to_nat size + 1) garbage_read size dst.

Definition read_iovec (garbage_read : Z) (mem : Mem) (m : Msg) (offset size : Z)
    (dst : list iovec) : outcome (list iovec) :=
  common_iovec garbage_read (chunks_of mem (m_send m)) READ offset size dst.
Definition write_iovec (garbage_read : Z) (mem : Mem) (m : Msg) (offset size : Z)
    (dst : list iovec) : outcome (list iovec) :=
  common_iovec garbage_read (chunks_of mem (m_rcv m)) WRITE offset size dst.

(** ** [MsgStreamReader] *)

Record StreamReader := mkStreamReader { sr_it : Iterator; m_ready : Z; m_buf : Z }.

Definition StreamReader_new (mem : Mem) (m : Msg) (skip : Z) : outcome StreamReader :=
  it ← skip_to (chunks_of mem (m_send m)) skip it_begin;
  Ok (mkStreamReader it 0 0).

Definition get_more (mem : Mem) (m : Msg) (r : StreamReader) : outcome StreamReader :=
  let '(s, it) := next (chunks_of mem (m_send m)) no_limit (sr_it r) in
  if FarSlice_is_empty s then Ok (mkStreamReader it (m_ready r) (m_buf r))
  else
    buf ← translate (m_ptr s) (m_size s) READ;
    Ok (mkStreamReader it (m_size s) buf).

Definition sr_get (mem : Mem) (m : Msg) (fallback : Z) (r : StreamReader)
  : outcome (Z * StreamReader) :=
  r ← (if m_ready r =? 0 then get_more mem m r else Ok r);
  if m_ready r =? 0 then Ok (fallback, r)
  else Ok (peek mem (m_buf r), mkStreamReader (sr_it r) (m_ready r - 1) (m_buf r + 1)).
End Msg.

(** ** Host addresses of the bytes of a message *)

Lemma load_seqZ mem a n : load mem a n = peek mem <$> seqZ a (Z.of_nat n).
Proof.
  revert a. induction n as [|n IH]; intros a; simpl load.
  - done.
  - rewrite seqZ_cons by lia. simpl. rewrite IH.
    replace (Z.pred (Z.of_nat (S n))) with (Z.of_nat n) by lia. by rewrite <- Z.add_1_r.
Qed.

Lemma seqZ_slice a len off n :
  0 <= off -> 0 <= n -> off + n <= len ->
  take (Z.to_nat n) (drop (Z.to_nat off) (seqZ a len)) = seqZ (a + off) n.
Proof.
  intros Ho Hn Hl. replace len with (off + (n + (len - off - n))) by lia.
  rewrite seqZ_app, seqZ_app by lia.
  rewrite drop_app_length' by (rewrite length_seqZ; lia).
  by rewrite take_app_length' by (rewrite length_seqZ; lia).
Qed.

(** Writing bytes to a list of addresses, in order. *)
Fixpoint store_at (m : Mem) (addrs bs : list Z) : Mem :=
  match addrs, bs with
  | a :: addrs, b :: bs => store_at (<[a := b]> m) addrs bs
  | _, _ => m
  end.

Lemma store_insert m a b x bs : x < a -> store (<[x := b]> m) a bs = <[x := b]> (store m a bs).
Proof.
  revert a. induction bs as [|c bs IH]; intros a Hx; simpl; [done|].
  rewrite IH by lia. by rewrite insert_insert_ne by lia.
Qed.

Lemma store_seqZ m a bs : store m a bs = store_at m (seqZ a (Z.of_nat (length bs))) bs.
Proof.
  revert m a. induction bs as [|b bs IH]; intros m a; simpl length; [done|].
  rewrite seqZ_cons by lia. simpl.
  replace (Z.pred (Z.of_nat (S (length bs)))) with (Z.of_nat (length bs)) by lia.
  rewrite <- Z.add_1_r, <- IH. rewrite store_insert by lia. done.
Qed.

Lemma store_at_app m as1 as2 bs1 bs2 :
  length as1 = length bs1 ->
  store_at m (as1 ++ as2) (bs1 ++ bs2) = store_at (store_at m as1 bs1) as2 bs2.
Proof.
  revert m bs1. induction as1 as [|a as1 IH]; intros m [|b bs1] Hl; simpl in *; try done.
  apply IH. lia.
Qed.

Lemma peek_store_at_ne m addrs bs x : x ∉ addrs -> peek (store_at m addrs bs) x = peek m x.
Proof.
  revert m bs. induction addrs as [|a addrs IH]; intros m [|b bs] Hx; simpl; try done.
  apply not_elem_of_cons in Hx as [Hne Hx]. rewrite IH by done.
  unfold peek. by rewrite lookup_insert_ne by congruence.
Qed.

Lemma peek_store_at m addrs bs :
  NoDup addrs -> length addrs = length bs -> peek (store_at m addrs bs) <$> addrs = bs.
Proof.
  revert m bs. induction addrs as [|a addrs IH]; intros m [|b bs] Hnd Hl; simpl in *; try done.
  apply NoDup_cons in Hnd as [Ha Hnd]. f_equal; [|apply IH; [done|lia]].
  rewrite peek_store_at_ne by done. unfold peek. by rewrite lookup_insert_eq.
Qed.

Lemma take_add_drop_ {A} n m (l : list A) : take (n + m) l = take n l ++ take m (drop n l).
Proof. revert l. induction n as [|n IH]; intros [|x l]; simpl; f_equal; [by destruct m|apply IH]. Qed.

Section Flat.
Context {T : Translation}.

Definition chunk_ptr (c : chunk) : FarPointer := mkFarPointer (mxfer_seg c) (mxfer_off c).

Definition chunk_addrs (c : chunk) : list Z :=
  match translate (chunk_ptr c) (mxfer_len c) READ with
  | Ok a => seqZ a (mxfer_len c)
  | Throw _ => []
  end.

(** The message as the guest sees it: one host address per byte. *)
Definition flat (chunks : list chunk) : list Z := concat (chunk_addrs <$> chunks).
Definition total (chunks : list chunk) : Z := Z.of_nat (length (flat chunks)).

(** The fields of an entry are in range and its bytes are mapped. *)
Definition valid_chunk (c : chunk) : Prop :=
  0 <= mxfer_seg c < 2 ^ 16 /\ 0 <= mxfer_off c /\ 0 <= mxfer_len c < 2 ^ 32 /\
  mxfer_off c + mxfer_len c <= 2 ^ 32 /\
  (0 < mxfer_len c -> exists a, translate (chunk_ptr c) (mxfer_len c) READ = Ok a).

Definition valid (chunks : list chunk) : Prop :=
  Forall valid_chunk chunks /\ total chunks < 2 ^ 62.

Lemma length_chunk_addrs c : valid_chunk c -> Z.of_nat (length (chunk_addrs c)) = mxfer_len c.
Proof.
  intros (_ & _ & Hl & _ & Ht). unfold chunk_addrs.
  destruct (translate _ _ _) as [a|e]; [rewrite length_seqZ; lia|].
  simpl. destruct (decide (0 < mxfer_len c)) as [H|]; [by destruct (Ht H)|lia].
Qed.

Lemma flat_app l1 l2 : flat (l1 ++ l2) = flat l1 ++ flat l2.
Proof. unfold flat. by rewrite fmap_app, concat_app. Qed.

Lemma total_app l1 l2 : total (l1 ++ l2) = total l1 + total l2.
Proof. unfold total. rewrite flat_app, length_app. lia. Qed.

Lemma flat_cons c l : flat (c :: l) = chunk_addrs c ++ flat l.
Proof. done. Qed.

Lemma total_cons c l : valid_chunk c -> total (c :: l) = mxfer_len c + total l.
Proof. intros. unfold total. rewrite flat_cons, length_app, Nat2Z.inj_add, length_chunk_addrs; done. Qed.

Lemma total_nonneg l : 0 <= total l.
Proof. unfold total. lia. Qed.

(** ** The iterator *)

Definition pos (it : Iterator) : Z := m_offset_of_chunk it + it_offset it.

Definition it_wf (chunks : list chunk) (it : Iterator) : Prop :=
  exists l1 l2, chunks = l1 ++ l2 /\ m_i it = length l1 /\ m_offset_of_chunk it = total l1 /\
    0 <= it_offset it /\
    match l2 with [] => it_offset it = 0 | c :: _ => it_offset it <= mxfer_len c end.


Lemma it_wf_begin chunks : valid chunks -> it_wf chunks it_begin.
Proof.
  intros [Hv _]. exists [], chunks. repeat split; try done.
  destruct Hv as [|c l Hc _]; [done|]. simpl. by destruct Hc as (_ & _ & [? _] & _).
Qed.

Lemma it_wf_pos chunks it : valid chunks -> it_wf chunks it -> 0 <= pos it <= total chunks.
Proof.
  intros [Hv _] (l1 & l2 & -> & _ & Ho & Hoff & Hc). unfold pos. rewrite Ho, total_app.
  pose proof (total_nonneg l1). pose proof (total_nonneg l2).
  destruct l2 as [|c l2]; [lia|]. apply Forall_app in Hv as [_ Hv].
  apply Forall_cons in Hv as [Hvc _]. rewrite total_cons by done.
  pose proof (total_nonneg l2). lia.
Qed.

(** After [normalize] the iterator is at the end or inside a chunk. *)
Lemma normalize_spec chunks it :
  valid chunks -> it_wf chunks it ->
  let it' := normalize chunks it in
  pos it' = pos it /\
  exists l1 l2, chunks = l1 ++ l2 /\ m_i it' = length l1 /\ m_offset_of_chunk it' = total l1 /\
    0 <= it_offset it' /\
    match l2 with [] => it_offset it' = 0 | c :: _ => it_offset it' < mxfer_len c end.
Proof.
  intros [Hv Ht] (l1 & l2 & -> & Hi & Ho & Hoff & Hc). unfold normalize.
  rewrite Hi, drop_app_length. revert l1 it Hv Ht Hi Ho Hoff Hc.
  induction l2 as [|c l2 IH]; intros l1 it Hv Ht Hi Ho Hoff Hc; simpl.
  - split; [done|]. exists l1, []. done.
  - destruct (Z.leb_spec (mxfer_len c) (it_offset it)) as [Hle|Hlt].
    + assert (Hvc : valid_chunk c)
        by (apply Forall_app in Hv as [_ Hv]; by apply Forall_cons in Hv as [Hv _]).
      assert (Hol : it_offset it = mxfer_len c) by lia.
      assert (Htot : total (l1 ++ [c]) = total l1 + mxfer_len c).
      { rewrite total_app, (total_cons c []) by done. unfold total at 2. simpl. lia. }
      assert (Hsum : total l1 + mxfer_len c < 2 ^ 62).
      { rewrite total_app, total_cons in Ht by done. pose proof (total_nonneg l2). lia. }
      pose proof (total_nonneg l1).
      set (it' := mkIterator _ _ _).
      assert (Hp : pos it' = pos it).
      { unfold pos, it'. simpl. rewrite wrapu_small by lia. lia. }
      rewrite <- Hp. replace (l1 ++ c :: l2) with ((l1 ++ [c]) ++ l2) in * by by rewrite <- app_assoc.
      apply IH; try done.
      * unfold it'. simpl. rewrite length_app. simpl. lia.
      * unfold it'. simpl. rewrite wrapu_small by lia. lia.
      * unfold it'. simpl. destruct l2 as [|c' l2']; [done|].
        apply Forall_app in Hv as [_ Hv]. apply Forall_cons in Hv as [(_ & _ & ? & _) _]. lia.
    + split; [done|]. exists l1, (c :: l2). done.
Qed.

(** [next] yields the host range of the following bytes, none only at the end
    of the message (or when none is asked for). *)
Lemma next_spec (L : TranslationLaws T) chunks size it :
  valid chunks -> it_wf chunks it -> 0 <= size < 2 ^ 64 ->
  let '(s, it') := next chunks size it in
  it_wf chunks it' /\ pos it' = pos it + m_size s /\ 0 <= m_size s <= size /\
  m_size s < 2 ^ 32 /\
  (m_size s = 0 -> size = 0 \/ pos it = total chunks) /\
  (0 < m_size s -> exists a, (forall op, translate (m_ptr s) (m_size s) op = Ok a) /\
     seqZ a (m_size s) =
       take (Z.to_nat (m_size s)) (drop (Z.to_nat (pos it)) (flat chunks))).
Proof.
  intros Hvalid Hit Hs. pose proof Hvalid as [Hv Ht].
  destruct (normalize_spec chunks it Hvalid Hit) as (Hpos & l1 & l2 & Hch & Hi & Ho & Hoff & Hc).
  unfold next. rewrite <- Hpos. set (it' := normalize chunks it) in *. clearbody it'.
  pose proof (total_nonneg l1). subst chunks. rewrite Hi.
  destruct l2 as [|c l2].
  - rewrite app_nil_r in *. rewrite lookup_ge_None_2 by done. simpl.
    split; [|split; [lia|split; [lia|split; [lia|split; [|lia]]]]].
    + exists l1, []. rewrite app_nil_r. repeat split; lia || done.
    + intros _. right. unfold pos. lia.
  - rewrite lookup_app_r, Nat.sub_diag by lia. simpl.
    apply Forall_app in Hv as [_ Hv]. apply Forall_cons in Hv as [Hvc Hv2].
    pose proof Hvc as (Hseg & Hco & Hlen & Hend & Htr).
    set (n := if size <? mxfer_len c - it_offset it' then size else mxfer_len c - it_offset it').
    assert (Hn : 0 <= n <= size /\ n <= mxfer_len c - it_offset it' /\ (n = 0 -> size = 0)).
    { unfold n. destruct (Z.ltb_spec size (mxfer_len c - it_offset it')); lia. }
    destruct Hn as (Hn1 & Hn2 & Hn3).
    rewrite !wrapu_small by lia.
    split; [|split; [unfold pos; simpl; lia|split; [done|split; [lia|split; [auto|]]]]].
    + exists l1, (c :: l2). simpl. repeat split; lia || done.
    + intros Hpos0. destruct (Htr ltac:(lia)) as [a Ha]. exists (a + it_offset it'). split.
      * intros op. exact (L _ _ _ _ _ _ op Ha Hoff Hpos0 ltac:(lia) Hseg Hco Hend).
      * rewrite flat_app, flat_cons. unfold chunk_addrs. rewrite Ha.
        unfold pos. rewrite Ho.
        rewrite Z2Nat.inj_add by lia. unfold total. rewrite Nat2Z.id, <- drop_drop, drop_app_length.
        rewrite <- (seqZ_slice a (mxfer_len c) (it_offset it') n) by lia.
        rewrite drop_app_le by (rewrite length_seqZ; lia).
        rewrite take_app_le; [done|]. rewrite length_drop, length_seqZ. lia.
Qed.

Lemma skip_loop_spec (L : TranslationLaws T) chunks dst : forall fuel it,
  valid chunks -> it_wf chunks it -> pos it <= dst < 2 ^ 63 -> (Z.to_nat (dst - pos it) + 1 < fuel)%nat ->
  exists it', skip_loop fuel chunks dst it = Ok it' /\ it_wf chunks it' /\
    pos it' = Z.min dst (total chunks).
Proof.
  induction fuel as [|fuel IH]; intros it Hv Hit Hd Hf; [lia|]. simpl.
  pose proof (it_wf_pos _ _ Hv Hit) as Hp. destruct Hv as [Hv1 Ht].
  assert (Hmo : msg_offset it = pos it) by (unfold msg_offset, pos in *; apply wrapu_small; lia).
  rewrite Hmo, wrapu_small by lia.
  pose proof (next_spec L chunks (dst - pos it) it (conj Hv1 Ht) Hit ltac:(lia)) as Hn.
  destruct (next chunks (dst - pos it) it) as [s it1].
  destruct Hn as (Hit1 & Hpos & Hsz & _ & Hz & _). unfold FarSlice_is_empty.
  pose proof (it_wf_pos _ _ (conj Hv1 Ht) Hit1) as Hp1.
  destruct (Z.eqb_spec (m_size s) 0) as [He|Hne].
  - exists it1. split; [done|]. split; [done|]. destruct (Hz He); lia.
  - apply IH; [done|done|lia|lia].
Qed.

Lemma skip_to_spec (L : TranslationLaws T) chunks dst :
  valid chunks -> 0 <= dst < 2 ^ 63 ->
  exists it, skip_to chunks dst it_begin = Ok it /\ it_wf chunks it /\
    pos it = Z.min dst (total chunks).
Proof.
  intros Hv Hd. apply (skip_loop_spec L); [done|by apply it_wf_begin| |];
    unfold it_begin, pos; simpl; lia.
Qed.

(** ** Reading *)

(** The [size] bytes from [offset], as far as the message has them. *)
Definition window (chunks : list chunk) (offset size : Z) : list Z :=
  take (Z.to_nat size) (drop (Z.to_nat offset) (flat chunks)).

Lemma length_window chunks offset size :
  0 <= offset <= total chunks -> 0 <= size ->
  Z.of_nat (length (window chunks offset size)) = Z.min size (total chunks - offset).
Proof. intros. unfold window. rewrite length_take, length_drop. unfold total in *. lia. Qed.

Lemma window_step chunks offset n size :
  0 <= offset -> 0 <= n <= size ->
  window chunks offset size = window chunks offset n ++ window chunks (offset + n) (size - n).
Proof.
  intros Ho Hn. unfold window.
  replace (Z.to_nat size) with (Z.to_nat n + Z.to_nat (size - n))%nat by lia.
  rewrite take_add_drop_. f_equal. rewrite drop_drop. do 2 f_equal. lia.
Qed.

(** The bytes read from [offset]: the message's, then padding. *)
Definition read_result (mem : Mem) (chunks : list chunk) (offset size : Z) : list Z :=
  let w := window chunks offset size in
  (peek mem <$> w) ++ replicate (Z.to_nat size - length w) 204.

(** A non-empty step of the iterator, as the loops use it. *)
Lemma next_step (L : TranslationLaws T) chunks size it s it' :
  valid chunks -> it_wf chunks it -> 0 < size < 2 ^ 64 -> next chunks size it = (s, it') ->
  (m_size s = 0 /\ window chunks (pos it) size = []) \/
  (0 < m_size s <= size /\ it_wf chunks it' /\ pos it' = pos it + m_size s /\
   exists a, (forall op, translate (m_ptr s) (m_size s) op = Ok a) /\
     window chunks (pos it) size = seqZ a (m_size s) ++ window chunks (pos it') (size - m_size s)).
Proof.
  intros Hv Hit Hs Hn. pose proof (next_spec L chunks size it Hv Hit ltac:(lia)) as H.
  rewrite Hn in H. destruct H as (Hit' & Hpos & Hsz & Hb & Hz & Ha).
  pose proof (it_wf_pos _ _ Hv Hit) as Hp.
  destruct (decide (m_size s = 0)) as [He|Hne].
  - left. split; [done|]. destruct (Hz He) as [?|Hend]; [lia|].
    unfold window. rewrite Hend, drop_ge by (unfold total; lia). by rewrite take_nil.
  - right. split; [lia|]. split; [done|]. split; [done|].
    destruct (Ha ltac:(lia)) as (a & Htr & Hseq). exists a. split; [done|].
    rewrite (window_step chunks (pos it) (m_size s) size) by lia.
    rewrite <- Hpos. unfold window at 1. by rewrite <- Hseq.
Qed.

Lemma read_loop_spec (L : TranslationLaws T) mem chunks : forall fuel size it dst,
  valid chunks -> it_wf chunks it -> 0 <= size < 2 ^ 64 -> (Z.to_nat size < fuel)%nat ->
  read_loop fuel mem chunks size it dst = Ok (dst ++ read_result mem chunks (pos it) size).
Proof.
  induction fuel as [|fuel IH]; intros size it dst Hv Hit Hs Hf; [lia|]. simpl.
  destruct (Z.eqb_spec size 0) as [-> |Hne].
  { unfold read_result, window. simpl. by rewrite app_nil_r. }
  destruct (next chunks size it) as [s it'] eqn:En. unfold FarSlice_is_empty.
  destruct (next_step L chunks size it s it' Hv Hit ltac:(lia) En)
    as [[Hz Hw]|(Hsz & Hit' & Hpos & a & Ha & Hw)].
  - rewrite Hz. simpl. unfold read_result. rewrite Hw. simpl. by rewrite Nat.sub_0_r.
  - destruct (Z.eqb_spec (m_size s) 0) as [|_]; [lia|]. rewrite Ha. simpl.
    rewrite IH by (done || lia). f_equal. rewrite <- app_assoc. f_equal.
    unfold read_result. rewrite Hw, fmap_app, length_app, load_seqZ, length_seqZ.
    rewrite Z2Nat.id by lia. rewrite <- app_assoc. do 3 f_equal. lia.
Qed.

(** ** Writing *)

(** Writing to the message does not overwrite its own chunk list. *)
Definition stable (mem : Mem) (e : entries) : Prop :=
  forall mem', (forall x, x ∉ flat (chunks_of mem e) -> peek mem' x = peek mem x) ->
    chunks_of mem' e = chunks_of mem e.

Lemma window_sub chunks offset size x : x ∈ window chunks offset size -> x ∈ flat chunks.
Proof.
  unfold window. intros Hx. apply elem_of_take in Hx as (i & Hx & _).
  rewrite lookup_drop in Hx. by apply list_elem_of_lookup_2 in Hx.
Qed.

Lemma write_loop_spec (L : TranslationLaws T) e mem0 : forall fuel src it mem,
  let chunks := chunks_of mem0 e in
  valid chunks -> stable mem0 e ->
  (forall x, x ∉ flat chunks -> peek mem x = peek mem0 x) ->
  it_wf chunks it -> Z.of_nat (length src) < 2 ^ 63 -> (length src < fuel)%nat ->
  let w := window chunks (pos it) (Z.of_nat (length src)) in
  write_loop fuel e src it mem =
    (store_at mem w (take (length w) src), Ok (Z.of_nat (length src) - Z.of_nat (length w))).
Proof.
  induction fuel as [|fuel IH]; intros src it mem chunks Hv Hst Hsame Hit Hlen Hf w; [lia|]. simpl.
  destruct (Z.eqb_spec (Z.of_nat (length src)) 0) as [He|Hne].
  { destruct src; [|done]. unfold w, window. simpl. done. }
  unfold get, lift, modify, mbind, M_bind.
  replace (chunks_of mem e) with chunks by (symmetry; by apply Hst).
  destruct (next chunks (Z.of_nat (length src)) it) as [s it'] eqn:En. unfold FarSlice_is_empty.
  destruct (next_step L chunks (Z.of_nat (length src)) it s it' Hv Hit ltac:(lia) En)
    as [[Hz Hw]|(Hsz & Hit' & Hpos & a & Ha & Hw)].
  - rewrite Hz. simpl. unfold w. rewrite Hw. simpl. by rewrite Z.sub_0_r.
  - destruct (Z.eqb_spec (m_size s) 0) as [|_]; [lia|]. rewrite Ha.
    set (n := Z.to_nat (m_size s)).
    assert (Hln : length (take n src) = n) by (rewrite length_take; lia).
    assert (Hld : length (drop n src) = (length src - n)%nat) by (rewrite length_drop; lia).
    assert (Hzn : Z.of_nat n = m_size s) by lia.
    rewrite store_seqZ, Hln, Hzn.
    rewrite IH; [|done|done| |done|lia|lia].
    + unfold w. rewrite Hw, Hpos, length_app, length_seqZ, Hld. fold n.
      replace (Z.of_nat (length src - n)) with (Z.of_nat (length src) - m_size s) by lia.
      fold chunks. apply f_equal2; [|apply f_equal; lia].
      set (w2 := window _ _ _). rewrite <- store_at_app by (rewrite length_seqZ; lia).
      f_equal. by rewrite take_add_drop_.
    + intros x Hx. rewrite peek_store_at_ne; [by apply Hsame|]. intros Hin. apply Hx.
      apply (window_sub chunks (pos it) (Z.of_nat (length src))). rewrite Hw.
      apply elem_of_app. by left.
Qed.

(** ** I/O vectors *)

Definition iov_addrs (v : iovec) : list Z := seqZ (iov_base v) (iov_len v).
Definition iov_total (vs : list iovec) : Z := foldr (fun v n => iov_len v + n) 0 vs.

Lemma iov_total_app vs1 vs2 : iov_total (vs1 ++ vs2) = iov_total vs1 + iov_total vs2.
Proof. unfold iov_total. induction vs1; simpl; lia. Qed.

Lemma iovec_loop_spec (L : TranslationLaws T) chunks op : forall fuel size it dst,
  valid chunks -> it_wf chunks it -> 0 <= size < 2 ^ 64 -> (Z.to_nat size < fuel)%nat ->
  exists vs left, iovec_loop fuel chunks op size it dst = Ok (left, dst ++ vs) /\
    concat (iov_addrs <$> vs) = window chunks (pos it) size /\
    Forall (fun v => 0 < iov_len v) vs /\ 0 <= left /\ iov_total vs + left = size.
Proof.
  induction fuel as [|fuel IH]; intros size it dst Hv Hit Hs Hf; [lia|]. simpl.
  destruct (Z.eqb_spec size 0) as [-> |Hne].
  { exists [], 0. rewrite app_nil_r. repeat split; done. }
  destruct (next chunks size it) as [s it'] eqn:En. unfold FarSlice_is_empty.
  destruct (next_step L chunks size it s it' Hv Hit ltac:(lia) En)
    as [[Hz Hw]|(Hsz & Hit' & Hpos & a & Ha & Hw)].
  - rewrite Hz. simpl. exists [], size. rewrite app_nil_r, Hw. simpl. repeat split; lia || done.
  - destruct (Z.eqb_spec (m_size s) 0) as [|_]; [lia|]. rewrite Ha. simpl.
    destruct (IH (size - m_size s) it' (dst ++ [mkIovec a (m_size s)]) Hv Hit')
      as (vs & left & -> & Hc & Hpv & Hl & Ht); [lia|lia|].
    exists (mkIovec a (m_size s) :: vs), left. rewrite <- app_assoc.
    split; [done|]. split.
    { change (iov_addrs (mkIovec a (m_size s)) ++ concat (iov_addrs <$> vs) =
        window chunks (pos it) size). by rewrite Hc, Hw. }
    split; [|split; [done|simpl; lia]].
    apply Forall_cons. split; [simpl; lia|done].
Qed.

Lemma garbage_loop_spec g : forall fuel size dst,
  0 <= size -> (Z.to_nat size < fuel)%nat ->
  exists vs, garbage_loop fuel g size dst = Ok (dst ++ vs) /\ iov_total vs = size /\
    Forall (fun v => iov_base v = g /\ 0 < iov_len v <= sizeof_garbage) vs.
Proof.
  induction fuel as [|fuel IH]; intros size dst Hs Hf; [lia|]. simpl.
  destruct (Z.eqb_spec size 0) as [-> |Hne].
  { exists []. by rewrite app_nil_r. }
  unfold sizeof_garbage in *.
  destruct (IH (size - Z.min size 256) (dst ++ [mkIovec g (Z.min size 256)]))
    as (vs & -> & Ht & Hv); [lia|lia|].
  exists (mkIovec g (Z.min size 256) :: vs). rewrite <- app_assoc. split; [done|].
  split; [simpl; lia|]. apply Forall_cons. split; [simpl; lia|done].
Qed.

Lemma window_min chunks offset size :
  0 <= offset -> window chunks (Z.min offset (total chunks)) size = window chunks offset size.
Proof.
  intros Ho. destruct (Z.min_spec offset (total chunks)) as [[_ ->]|[Hge ->]]; [done|].
  unfold window. rewrite !drop_ge by (unfold total in *; lia). done.
Qed.

Lemma read_chunks_spec (L : TranslationLaws T) mem e offset size :
  valid (chunks_of mem e) -> 0 <= offset < 2 ^ 63 -> 0 <= size < 2 ^ 63 ->
  read_chunks mem e offset size = Ok (read_result mem (chunks_of mem e) offset size).
Proof.
  intros Hv Ho Hs. unfold read_chunks.
  destruct (skip_to_spec L _ offset Hv Ho) as (it & -> & Hit & Hpos). simpl.
  rewrite (read_loop_spec L) by (done || lia). unfold read_result.
  rewrite Hpos, window_min by lia. done.
Qed.

Lemma write_spec (L : TranslationLaws T) m offset src mem :
  let chunks := chunks_of mem (m_rcv m) in
  valid chunks -> stable mem (m_rcv m) -> 0 <= offset < 2 ^ 63 ->
  Z.of_nat (length src) < 2 ^ 63 ->
  let w := window chunks offset (Z.of_nat (length src)) in
  write m offset src mem = (store_at mem w (take (length w) src), Ok (Z.of_nat (length w))).
Proof.
  intros chunks Hv Hst Ho Hs w. unfold write, get, lift, mbind, M_bind. fold chunks.
  destruct (skip_to_spec L chunks offset Hv Ho) as (it & -> & Hit & Hpos). simpl.
  rewrite (write_loop_spec L (m_rcv m) mem) by (done || lia). fold chunks.
  rewrite Hpos, window_min by lia. fold w. unfold mret, M_ret. do 2 f_equal. lia.
Qed.

Lemma common_iovec_cover (L : TranslationLaws T) g chunks op offset size dst :
  valid chunks -> 0 <= offset < 2 ^ 63 -> 0 <= size < 2 ^ 63 ->
  exists vs pad, common_iovec g chunks op offset size dst = Ok (dst ++ vs ++ pad) /\
    concat (iov_addrs <$> vs) = window chunks offset size /\
    Forall (fun v => 0 < iov_len v) vs /\
    Forall (fun v => iov_base v = g /\ 0 < iov_len v <= sizeof_garbage) pad /\
    iov_total (vs ++ pad) = size.
Proof.
  intros Hv Ho Hs. unfold common_iovec.
  destruct (skip_to_spec L chunks offset Hv Ho) as (it & -> & Hit & Hpos). simpl.
  destruct (iovec_loop_spec L chunks op (Z.to_nat size + 1) size it dst Hv Hit)
    as (vs & left & -> & Hc & Hpv & Hl & Ht); [lia|lia|]. simpl.
  destruct (garbage_loop_spec g (Z.to_nat left + 1) left (dst ++ vs) Hl) as (pad & -> & Hpt & Hpp);
    [lia|].
  exists vs, pad. rewrite app_assoc. split; [done|].
  split; [by rewrite Hc, Hpos, window_min by lia|]. split; [done|]. split; [done|].
  rewrite iov_total_app. lia.
Qed.

(** ** The stream reader *)

(** What is left to read: the buffered bytes, then the rest of the message. *)
Definition sr_rest (chunks : list chunk) (r : StreamReader) : list Z :=
  seqZ (m_buf r) (m_ready r) ++ drop (Z.to_nat (pos (sr_it r))) (flat chunks).

Definition sr_wf (chunks : list chunk) (r : StreamReader) : Prop :=
  it_wf chunks (sr_it r) /\ 0 <= m_ready r.

Lemma get_more_spec (L : TranslationLaws T) mem m r :
  valid (chunks_of mem (m_send m)) -> sr_wf (chunks_of mem (m_send m)) r -> m_ready r = 0 ->
  exists r', get_more mem m r = Ok r' /\ sr_wf (chunks_of mem (m_send m)) r' /\
    sr_rest (chunks_of mem (m_send m)) r' = sr_rest (chunks_of mem (m_send m)) r /\
    (m_ready r' = 0 -> sr_rest (chunks_of mem (m_send m)) r = []).
Proof.
  intros Hv [Hit Hr] H0. set (chunks := chunks_of mem (m_send m)) in *. unfold get_more.
  fold chunks. destruct (next chunks no_limit (sr_it r)) as [s it'] eqn:En.
  pose proof (next_spec L chunks no_limit (sr_it r) Hv Hit ltac:(unfold no_limit; lia)) as Hn.
  rewrite En in Hn. destruct Hn as (Hit' & Hpos & Hsz & Hb & Hz & Ha).
  pose proof (it_wf_pos _ _ Hv Hit) as Hp. unfold FarSlice_is_empty, sr_rest.
  rewrite H0. simpl. destruct (Z.eqb_spec (m_size s) 0) as [He|Hne].
  - eexists. split; [reflexivity|]. simpl. rewrite Hpos, He, Z.add_0_r.
    split; [by split|]. split; [done|]. intros _.
    destruct (Hz He) as [Hl|Hend]; [discriminate Hl|]. rewrite Hend.
    apply drop_ge. unfold total. lia.
  - destruct (Ha ltac:(lia)) as (a & Htr & Hseq). rewrite Htr. simpl.
    eexists. split; [reflexivity|]. split; [split; simpl; [done|lia]|]. simpl.
    split; [|lia]. rewrite Hseq, Hpos, Z2Nat.inj_add by lia. rewrite <- drop_drop. apply take_drop.
Qed.

Lemma sr_get_spec (L : TranslationLaws T) mem m fb r :
  valid (chunks_of mem (m_send m)) -> sr_wf (chunks_of mem (m_send m)) r ->
  exists b r', sr_get mem m fb r = Ok (b, r') /\ sr_wf (chunks_of mem (m_send m)) r' /\
    match sr_rest (chunks_of mem (m_send m)) r with
    | [] => b = fb /\ sr_rest (chunks_of mem (m_send m)) r' = []
    | a :: rest => b = peek mem a /\ sr_rest (chunks_of mem (m_send m)) r' = rest
    end.
Proof.
  intros Hv Hwf. set (chunks := chunks_of mem (m_send m)) in *. unfold sr_get.
  assert (Hmore : exists r1, (if m_ready r =? 0 then get_more mem m r else Ok r) = Ok r1 /\
    sr_wf chunks r1 /\ sr_rest chunks r1 = sr_rest chunks r /\
    (m_ready r1 = 0 -> sr_rest chunks r = [])).
  { destruct (Z.eqb_spec (m_ready r) 0) as [H0|Hne]; [by apply (get_more_spec L)|].
    exists r. done. }
  destruct Hmore as (r1 & -> & [Hit1 Hr1] & Hrest & Hnil). simpl.
  destruct (Z.eqb_spec (m_ready r1) 0) as [H0|Hne].
  - exists fb, r1. split; [done|]. split; [done|]. rewrite (Hnil H0) in *. done.
  - do 2 eexists. split; [reflexivity|]. split; [split; simpl; [done|lia]|].
    rewrite <- Hrest. unfold sr_rest. simpl. rewrite seqZ_cons by lia. simpl.
    split; [done|]. by rewrite <- Z.add_1_r, Z.sub_1_r.
Qed.

(** [k] successive calls of [get]. *)
Fixpoint sr_gets (mem : Mem) (m : Msg) (fb : Z) (k : nat) (r : StreamReader) : outcome (list Z) :=
  match k with
  | O => Ok []
  | S k => '(b, r) ← sr_get mem m fb r; bs ← sr_gets mem m fb k r; Ok (b :: bs)
  end.

Lemma sr_gets_spec (L : TranslationLaws T) mem m fb : forall k r,
  valid (chunks_of mem (m_send m)) -> sr_wf (chunks_of mem (m_send m)) r ->
  let rest := take k (sr_rest (chunks_of mem (m_send m)) r) in
  sr_gets mem m fb k r = Ok ((peek mem <$> rest) ++ replicate (k - length rest) fb).
Proof.
  induction k as [|k IH]; intros r Hv Hwf; simpl; [done|].
  destruct (sr_get_spec L mem m fb r Hv Hwf) as (b & r' & -> & Hwf' & Hb). simpl.
  rewrite IH by done. simpl. destruct (sr_rest _ r) as [|a rest]; destruct Hb as [-> ->]; simpl.
  - rewrite take_nil. simpl. by rewrite Nat.sub_0_r.
  - done.
Qed.
End Flat.

(** ** Properties *)

(** C22. Reading a scattered request, whatever the chunking (empty chunks
    included), gives the message's bytes from the offset, padded with 0xCC past
    its end; the reply buffers read back the same way. *)
Theorem msg_read_spec (T : Translation) (L : TranslationLaws T) mem m offset size :
  0 <= offset < 2 ^ 63 -> 0 <= size < 2 ^ 63 ->
  (valid (chunks_of mem (m_send m)) ->
     read mem m offset size = Ok (read_result mem (chunks_of mem (m_send m)) offset size)) /\
  (valid (chunks_of mem (m_rcv m)) ->
     read_written mem m offset size = Ok (read_result mem (chunks_of mem (m_rcv m)) offset size)).
Proof. intros Ho Hs. split; intros Hv; by apply (read_chunks_spec L). Qed.

(** A flat address space of 64K at host address 1000, selectors ignored. *)
#[local] Instance demo_translation : Translation := {|
  translate p n op := if m_offset p + n <=? 65536 then Ok (1000 + m_offset p)
                      else Throw (SegmentationFault "bounds") |}.

Lemma demo_translation_laws : TranslationLaws demo_translation.
Proof.
  intros p n op a k m op' Ht Hk Hm Hle _ _ _. unfold translate, demo_translation in *. simpl.
  destruct (m_offset p + n <=? 65536) eqn:E; [|done]. injection Ht as <-. to_prop.
  destruct (Z.leb_spec (m_offset p + k + m) 65536); [f_equal; lia|lia].
Qed.

(** "AB", nothing, "CDE". *)
Definition demo_msg : Msg :=
  mkMsg (Translated [mkChunk 16 7 2; mkChunk 64 7 0; mkChunk 32 7 3])
        (Translated [mkChunk 48 7 4]).
Definition demo_mem : Mem := store (store ∅ 1016 [65; 66]) 1032 [67; 68; 69].

Lemma demo_valid_send : valid (chunks_of demo_mem (m_send demo_msg)).
Proof.
  split; [|vm_compute; reflexivity].
  repeat constructor; try (vm_compute; discriminate); intros _; eexists; reflexivity.
Qed.

Lemma demo_valid_rcv : valid (chunks_of demo_mem (m_rcv demo_msg)).
Proof.
  split; [|vm_compute; reflexivity].
  repeat constructor; try (vm_compute; discriminate); intros _; eexists; reflexivity.
Qed.

Lemma msg_read_spec_witness :
  valid (chunks_of demo_mem (m_send demo_msg)) /\
  read demo_mem demo_msg 1 6 = Ok [66; 67; 68; 69; 204; 204].
Proof.
  split; [exact demo_valid_send|].
  destruct (msg_read_spec demo_translation demo_translation_laws demo_mem demo_msg 1 6
    ltac:(lia) ltac:(lia)) as [H _].
  rewrite (H demo_valid_send). vm_compute. reflexivity.
Defined.

(** C23. Writing a reply fills the message's bytes from the offset, in order, as
    far as there is room, returns how many were written, touches no other byte
    of memory, and - when the chunks do not overlap - what was written is read
    back.  The chunk list itself must not lie inside the reply. *)
Theorem msg_write_roundtrip (T : Translation) (L : TranslationLaws T) mem m offset src :
  let chunks := chunks_of mem (m_rcv m) in
  valid chunks -> stable mem (m_rcv m) -> 0 <= offset < 2 ^ 62 ->
  Z.of_nat (length src) < 2 ^ 62 ->
  exists mem' n, write m offset src mem = (mem', Ok n) /\
    n = Z.max 0 (Z.min (Z.of_nat (length src)) (total chunks - offset)) /\
    (forall x, x ∉ window chunks offset n -> peek mem' x = peek mem x) /\
    (NoDup (flat chunks) -> read_written mem' m offset n = Ok (take (Z.to_nat n) src)).
Proof.
  intros chunks Hv Hst Ho Hs.
  rewrite (write_spec L m offset src mem Hv Hst ltac:(lia) ltac:(lia)). fold chunks.
  set (w := window chunks offset (Z.of_nat (length src))). do 2 eexists. split; [reflexivity|].
  assert (Hlw : Z.of_nat (length w) = Z.max 0 (Z.min (Z.of_nat (length src)) (total chunks - offset))).
  { unfold w. destruct (decide (offset <= total chunks)).
    - rewrite length_window by lia. lia.
    - unfold window. rewrite drop_ge by (unfold total in *; lia). rewrite take_nil. simpl. lia. }
  assert (Hww : window chunks offset (Z.of_nat (length w)) = w).
  { unfold w, window. rewrite !Nat2Z.id, length_take.
    destruct (Nat.min_spec (length src) (length (drop (Z.to_nat offset) (flat chunks))))
      as [[_ ->]|[Hle ->]]; [done|]. by rewrite !take_ge by lia. }
  split; [done|]. split.
  - intros x Hx. rewrite Hww in Hx. by apply peek_store_at_ne.
  - intros Hnd. set (mem' := store_at mem w (take (length w) src)).
    assert (Hsame : forall x, x ∉ flat chunks -> peek mem' x = peek mem x).
    { intros x Hx. apply peek_store_at_ne. intros Hin. apply Hx.
      by apply (window_sub chunks offset (Z.of_nat (length src))). }
    assert (Hch : chunks_of mem' (m_rcv m) = chunks) by by apply Hst.
    unfold read_written. rewrite (read_chunks_spec L); [|by rewrite Hch|lia|lia].
    rewrite Hch. unfold read_result. rewrite Hww, Nat2Z.id, Nat.sub_diag. simpl.
    rewrite app_nil_r. f_equal. unfold mem'. apply peek_store_at.
    + unfold w, window. eapply sublist_NoDup; [exact Hnd|].
      etransitivity; [apply sublist_take|apply sublist_drop].
    + rewrite length_take. lia.
Qed.

Lemma msg_write_roundtrip_witness :
  valid (chunks_of demo_mem (m_rcv demo_msg)) /\
  exists mem' n, write demo_msg 1 [1; 2; 3; 4; 5] demo_mem = (mem', Ok n) /\ n = 3 /\
    read_written mem' demo_msg 1 3 = Ok [1; 2; 3].
Proof.
  split; [exact demo_valid_rcv|].
  destruct (msg_write_roundtrip demo_translation demo_translation_laws demo_mem demo_msg 1
    [1; 2; 3; 4; 5] demo_valid_rcv) as (mem' & n & Hw & Hn & _ & Hr).
  - intros mem' _. reflexivity.
  - lia.
  - vm_compute. reflexivity.
  - vm_compute in Hn. subst n. exists mem', 3. split; [exact Hw|]. split; [reflexivity|].
    apply Hr. apply (bool_decide_eq_true (NoDup _)). vm_compute. reflexivity.
Defined.

(** C24. The I/O vectors cover the requested size exactly, whatever the message
    has: first the message's own bytes in order, then blocks of the shared
    garbage array; no vector is empty.  For a reply this means the kernel is
    told to write into [garbage_read], which is a constant. *)
Theorem msg_iovec_spec (T : Translation) (L : TranslationLaws T) g chunks op offset size dst :
  valid chunks -> 0 <= offset < 2 ^ 63 -> 0 <= size < 2 ^ 63 ->
  exists vs pad, common_iovec g chunks op offset size dst = Ok (dst ++ vs ++ pad) /\
    concat (iov_addrs <$> vs) = window chunks offset size /\
    Forall (fun v => 0 < iov_len v) vs /\
    Forall (fun v => iov_base v = g /\ 0 < iov_len v <= sizeof_garbage) pad /\
    iov_total (vs ++ pad) = size.
Proof. apply (common_iovec_cover L). Qed.

Lemma msg_iovec_spec_witness :
  valid (chunks_of demo_mem (m_send demo_msg)) /\
  common_iovec 7 (chunks_of demo_mem (m_send demo_msg)) READ 1 300 [] =
    Ok [mkIovec 1017 1; mkIovec 1032 3; mkIovec 7 256; mkIovec 7 40] /\
  exists vs pad, common_iovec 7 (chunks_of demo_mem (m_send demo_msg)) READ 1 300 [] =
    Ok ([] ++ vs ++ pad) /\ iov_total (vs ++ pad) = 300.
Proof.
  split; [exact demo_valid_send|]. split; [vm_compute; reflexivity|].
  destruct (msg_iovec_spec demo_translation demo_translation_laws 7 _ READ 1 300 []
    demo_valid_send ltac:(lia) ltac:(lia)) as (vs & pad & H1 & _ & _ & _ & H2).
  exists vs, pad. split; [exact H1|exact H2].
Defined.

(** The byte-by-byte reader started at any position yields exactly the rest
    of the message and then the fallback for ever. *)
Theorem stream_reader_spec (T : Translation) (L : TranslationLaws T) mem m skip fb k :
  valid (chunks_of mem (m_send m)) -> 0 <= skip < 2 ^ 63 ->
  let rest := take k (drop (Z.to_nat skip) (flat (chunks_of mem (m_send m)))) in
  (r ← StreamReader_new mem m skip; sr_gets mem m fb k r) =
    Ok ((peek mem <$> rest) ++ replicate (k - length rest) fb).
Proof.
  intros Hv Hs rest. unfold StreamReader_new.
  destruct (skip_to_spec L _ skip Hv Hs) as (it & -> & Hit & Hpos). simpl.
  rewrite (sr_gets_spec L) by (done || by split). unfold sr_rest, rest. simpl. rewrite Hpos.
  destruct (Z.min_spec skip (total (chunks_of mem (m_send m)))) as [[_ ->]|[Hge ->]]; [done|].
  rewrite !drop_ge; [done| |]; unfold total in *; lia.
Qed.

Lemma stream_reader_spec_witness :
  valid (chunks_of demo_mem (m_send demo_msg)) /\
  (r ← StreamReader_new demo_mem demo_msg 3; sr_gets demo_mem demo_msg 0 4 r) = Ok [68; 69; 0; 0].
Proof.
  split; [exact demo_valid_send|].
  rewrite (stream_reader_spec demo_translation demo_translation_laws demo_mem demo_msg 3 0 4
    demo_valid_send ltac:(lia)). vm_compute. reflexivity.
Defined.
