(* ===== verification/Errno.v ===== *)
(** * Errno: [qnx/errno.h] and [Emu::map_errno]

    The QNX error numbers, the Linux ones the code names (<errno.h>), and the
    translation every handler applies before it reports an error. *)

From S2P Require Import Prelude.

(** ** QNX error numbers *)

Module Qnx.
Definition QEOK : Z := 0.
Definition QEPERM : Z := 1.
Definition QENOENT : Z := 2.
Definition QESRCH : Z := 3.
Definition QEINTR : Z := 4.
Definition QEIO : Z := 5.
Definition QENXIO : Z := 6.
Definition QE2BIG : Z := 7.
Definition QENOEXEC : Z := 8.
Definition QEBADF : Z := 9.
Definition QECHILD : Z := 10.
Definition QEAGAIN : Z := 11.
Definition QENOMEM : Z := 12.
Definition QEACCES : Z := 13.
Definition QEFAULT : Z := 14.
Definition QENOTBLK : Z := 15.
Definition QEBUSY : Z := 16.
Definition QEEXIST : Z := 17.
Definition QEXDEV : Z := 18.
Definition QENODEV : Z := 19.
Definition QENOTDIR : Z := 20.
Definition QEISDIR : Z := 21.
Definition QEINVAL : Z := 22.
Definition QENFILE : Z := 23.
Definition QEMFILE : Z := 24.
Definition QENOTTY : Z := 25.
Definition QETXTBSY : Z := 26.
Definition QEFBIG : Z := 27.
Definition QENOSPC : Z := 28.
Definition QESPIPE : Z := 29.
Definition QEROFS : Z := 30.
Definition QEMLINK : Z := 31.
Definition QEPIPE : Z := 32.
Definition QEDOM : Z := 33.
Definition QERANGE : Z := 34.
Definition QENOMSG : Z := 35.
Definition QEIDRM : Z := 36.
Definition QECHRNG : Z := 37.
Definition QEL2NSYNC : Z := 38.
Definition QEL3HLT : Z := 39.
Definition QEL3RST : Z := 40.
Definition QELNRNG : Z := 41.
Definition QEUNATCH : Z := 42.
Definition QENOCSI : Z := 43.
Definition QEL2HLT : Z := 44.
Definition QEDEADLK : Z := 45.
Definition QENOLCK : Z := 46.
Definition QENOTSUP : Z := 77.
Definition QENAMETOOLONG : Z := 78.
Definition QELIBACC : Z := 83.
Definition QELIBBAD : Z := 84.
Definition QELIBSCN : Z := 85.
Definition QELIBMAX : Z := 86.
Definition QELIBEXEC : Z := 87.
Definition QENOSYS : Z := 89.
Definition QELOOP : Z := 90.
Definition QENOTEMPTY : Z := 93.
Definition QEOPNOTSUPP : Z := 103.
Definition QESTALE : Z := 122.
Definition QEWOULDBLOCK : Z := QEAGAIN.
Definition QEINPROGRESS : Z := 236.
Definition QEALREADY : Z := QEBUSY.
Definition QENOTSOCK : Z := 238.
Definition QEDESTADDRREQ : Z := 239.
Definition QEMSGSIZE : Z := 240.
Definition QEPROTOTYPE : Z := 241.
Definition QENOPROTOOPT : Z := 242.
Definition QEPROTONOSUPPORT : Z := 243.
Definition QESOCKTNOSUPPORT : Z := 244.
Definition QEPFNOSUPPORT : Z := 246.
Definition QEAFNOSUPPORT : Z := 247.
Definition QEADDRINUSE : Z := 248.
Definition QEADDRNOTAVAIL : Z := 249.
Definition QENETDOWN : Z := 250.
Definition QENETUNREACH : Z := 251.
Definition QENETRESET : Z := 252.
Definition QECONNABORTED : Z := 253.
Definition QECONNRESET : Z := 254.
Definition QENOBUFS : Z := 255.
Definition QEISCONN : Z := 256.
Definition QENOTCONN : Z := 257.
Definition QESHUTDOWN : Z := 258.
Definition QETOOMANYREFS : Z := 259.
Definition QETIMEDOUT : Z := 260.
Definition QECONNREFUSED : Z := 261.
Definition QEHOSTDOWN : Z := 264.
Definition QEHOSTUNREACH : Z := 265.
Definition QEREMOTE : Z := 271.
Definition QEBADRPC : Z := 272.
Definition QERPCMISMATCH : Z := 273.
Definition QEPROGUNAVAIL : Z := 274.
Definition QEPROGMISMATCH : Z := 275.
Definition QEPROCUNAVAIL : Z := 276.
Definition QENOREMOTE : Z := 1000.
Definition QENONDP : Z := 1001.
Definition QEBADFSYS : Z := 1002.
Definition QENO32BIT : Z := 1003.
Definition QENOVPE : Z := 1004.
Definition QENONETQ : Z := 1005.
Definition QENONETMAN : Z := 1006.
Definition QEVIDBUF2SML : Z := 1007.
Definition QEVIDBUF2BIG : Z := 1008.
Definition QEMORE : Z := 1009.
Definition QECTRLTERM : Z := 1010.
Definition QENOLIC : Z := 1011.
Definition QEDSTFAULT : Z := 1012.
End Qnx.

(** ** Linux error numbers *)

Module Host.
Definition EPERM : Z := 1.
Definition ENOENT : Z := 2.
Definition ESRCH : Z := 3.
Definition EINTR : Z := 4.
Definition EIO : Z := 5.
Definition ENXIO : Z := 6.
Definition ENOEXEC : Z := 8.
Definition EBADF : Z := 9.
Definition ECHILD : Z := 10.
Definition EAGAIN : Z := 11.
Definition ENOMEM : Z := 12.
Definition EACCES : Z := 13.
Definition EFAULT : Z := 14.
Definition ENOTBLK : Z := 15.
Definition EBUSY : Z := 16.
Definition EEXIST : Z := 17.
Definition EXDEV : Z := 18.
Definition ENODEV : Z := 19.
Definition ENOTDIR : Z := 20.
Definition EISDIR : Z := 21.
Definition EINVAL : Z := 22.
Definition ENFILE : Z := 23.
Definition EMFILE : Z := 24.
Definition ENOTTY : Z := 25.
Definition ETXTBSY : Z := 26.
Definition EFBIG : Z := 27.
Definition ENOSPC : Z := 28.
Definition ESPIPE : Z := 29.
Definition EROFS : Z := 30.
Definition EMLINK : Z := 31.
Definition EPIPE : Z := 32.
Definition EDOM : Z := 33.
Definition ERANGE : Z := 34.
Definition ENOMSG : Z := 42.
Definition EIDRM : Z := 43.
Definition ECHRNG : Z := 44.
Definition EL2NSYNC : Z := 45.
Definition EL3HLT : Z := 46.
Definition EL3RST : Z := 47.
Definition ELNRNG : Z := 48.
Definition EUNATCH : Z := 49.
Definition ENOCSI : Z := 50.
Definition EL2HLT : Z := 51.
Definition EDEADLK : Z := 35.
Definition ENOLCK : Z := 37.
Definition ENOTSUP : Z := 95.
Definition ENAMETOOLONG : Z := 36.
Definition ELIBACC : Z := 79.
Definition ELIBBAD : Z := 80.
Definition ELIBSCN : Z := 81.
Definition ELIBMAX : Z := 82.
Definition ELIBEXEC : Z := 83.
Definition ENOSYS : Z := 38.
Definition ELOOP : Z := 40.
Definition ENOTEMPTY : Z := 39.
Definition ESTALE : Z := 116.
Definition EINPROGRESS : Z := 115.
Definition EALREADY : Z := 114.
Definition ENOTSOCK : Z := 88.
Definition EDESTADDRREQ : Z := 89.
Definition EMSGSIZE : Z := 90.
Definition EPROTOTYPE : Z := 91.
Definition ENOPROTOOPT : Z := 92.
Definition EPROTONOSUPPORT : Z := 93.
Definition ESOCKTNOSUPPORT : Z := 94.
Definition EPFNOSUPPORT : Z := 96.
Definition EAFNOSUPPORT : Z := 97.
Definition EADDRINUSE : Z := 98.
Definition EADDRNOTAVAIL : Z := 99.
Definition ENETDOWN : Z := 100.
Definition ENETUNREACH : Z := 101.
Definition ENETRESET : Z := 102.
Definition ECONNABORTED : Z := 103.
Definition ECONNRESET : Z := 104.
Definition ENOBUFS : Z := 105.
Definition EISCONN : Z := 106.
Definition ENOTCONN : Z := 107.
Definition ESHUTDOWN : Z := 108.
Definition ETOOMANYREFS : Z := 109.
Definition ETIMEDOUT : Z := 110.
Definition ECONNREFUSED : Z := 111.
Definition EHOSTDOWN : Z := 112.
Definition EHOSTUNREACH : Z := 113.
Definition EREMOTE : Z := 66.
Definition E2BIG : Z := 7.
End Host.

(** ** The translation *)

Definition ERRNO_MAP : list (Z * Z) :=
  [ (0, Qnx.QEOK); (Host.EPERM, Qnx.QEPERM);
    (Host.ENOENT, Qnx.QENOENT); (Host.ESRCH, Qnx.QESRCH);
    (Host.EINTR, Qnx.QEINTR); (Host.EIO, Qnx.QEIO);
    (Host.ENXIO, Qnx.QENXIO); (Host.ENOEXEC, Qnx.QENOEXEC);
    (Host.EBADF, Qnx.QEBADF); (Host.ECHILD, Qnx.QECHILD);
    (Host.EAGAIN, Qnx.QEAGAIN); (Host.ENOMEM, Qnx.QENOMEM);
    (Host.EACCES, Qnx.QEACCES); (Host.EFAULT, Qnx.QEFAULT);
    (Host.ENOTBLK, Qnx.QENOTBLK); (Host.EBUSY, Qnx.QEBUSY);
    (Host.EEXIST, Qnx.QEEXIST); (Host.EXDEV, Qnx.QEXDEV);
    (Host.ENODEV, Qnx.QENODEV); (Host.ENOTDIR, Qnx.QENOTDIR);
    (Host.EISDIR, Qnx.QEISDIR); (Host.EINVAL, Qnx.QEINVAL);
    (Host.ENFILE, Qnx.QENFILE); (Host.EMFILE, Qnx.QEMFILE);
    (Host.ENOTTY, Qnx.QENOTTY); (Host.ETXTBSY, Qnx.QETXTBSY);
    (Host.EFBIG, Qnx.QEFBIG); (Host.ENOSPC, Qnx.QENOSPC);
    (Host.ESPIPE, Qnx.QESPIPE); (Host.EROFS, Qnx.QEROFS);
    (Host.EMLINK, Qnx.QEMLINK); (Host.EPIPE, Qnx.QEPIPE);
    (Host.EDOM, Qnx.QEDOM); (Host.ERANGE, Qnx.QERANGE);
    (Host.ENOMSG, Qnx.QENOMSG); (Host.EIDRM, Qnx.QEIDRM);
    (Host.ECHRNG, Qnx.QECHRNG); (Host.EL2NSYNC, Qnx.QEL2NSYNC);
    (Host.EL3HLT, Qnx.QEL3HLT); (Host.EL3RST, Qnx.QEL3RST);
    (Host.ELNRNG, Qnx.QELNRNG); (Host.EUNATCH, Qnx.QEUNATCH);
    (Host.ENOCSI, Qnx.QENOCSI); (Host.EL2HLT, Qnx.QEL2HLT);
    (Host.EDEADLK, Qnx.QEDEADLK); (Host.ENOLCK, Qnx.QENOLCK);
    (Host.ENOTSUP, Qnx.QENOTSUP); (Host.ENAMETOOLONG, Qnx.QENAMETOOLONG);
    (Host.ELIBACC, Qnx.QELIBACC); (Host.ELIBBAD, Qnx.QELIBBAD);
    (Host.ELIBSCN, Qnx.QELIBSCN); (Host.ELIBMAX, Qnx.QELIBMAX);
    (Host.ELIBEXEC, Qnx.QELIBEXEC); (Host.ENOSYS, Qnx.QENOSYS);
    (Host.ELOOP, Qnx.QELOOP); (Host.ENOTEMPTY, Qnx.QENOTEMPTY);
    (Host.ESTALE, Qnx.QESTALE); (Host.EINPROGRESS, Qnx.QEINPROGRESS);
    (Host.EALREADY, Qnx.QEALREADY); (Host.ENOTSOCK, Qnx.QENOTSOCK);
    (Host.EDESTADDRREQ, Qnx.QEDESTADDRREQ); (Host.EMSGSIZE, Qnx.QEMSGSIZE);
    (Host.EPROTOTYPE, Qnx.QEPROTOTYPE); (Host.ENOPROTOOPT, Qnx.QENOPROTOOPT);
    (Host.EPROTONOSUPPORT, Qnx.QEPROTONOSUPPORT); (Host.ESOCKTNOSUPPORT, Qnx.QESOCKTNOSUPPORT);
    (Host.EPFNOSUPPORT, Qnx.QEPFNOSUPPORT); (Host.EAFNOSUPPORT, Qnx.QEAFNOSUPPORT);
    (Host.EADDRINUSE, Qnx.QEADDRINUSE); (Host.EADDRNOTAVAIL, Qnx.QEADDRNOTAVAIL);
    (Host.ENETDOWN, Qnx.QENETDOWN); (Host.ENETUNREACH, Qnx.QENETUNREACH);
    (Host.ENETRESET, Qnx.QENETRESET); (Host.ECONNABORTED, Qnx.QECONNABORTED);
    (Host.ECONNRESET, Qnx.QECONNRESET); (Host.ENOBUFS, Qnx.QENOBUFS);
    (Host.EISCONN, Qnx.QEISCONN); (Host.ENOTCONN, Qnx.QENOTCONN);
    (Host.ESHUTDOWN, Qnx.QESHUTDOWN); (Host.ETOOMANYREFS, Qnx.QETOOMANYREFS);
    (Host.ETIMEDOUT, Qnx.QETIMEDOUT); (Host.ECONNREFUSED, Qnx.QECONNREFUSED);
    (Host.EHOSTDOWN, Qnx.QEHOSTDOWN); (Host.EHOSTUNREACH, Qnx.QEHOSTUNREACH);
    (Host.EREMOTE, Qnx.QEREMOTE) ].

(** The [switch]: the first matching case. *)
Fixpoint errno_switch (l : list (Z * Z)) (v : Z) : option Z :=
  match l with
  | [] => None
  | (h, q) :: l => if v =? h then Some q else errno_switch l v
  end.

Definition map_errno (v : Z) : Z := default Qnx.QEIO (errno_switch ERRNO_MAP v).

(** ** Facts *)

Lemma errno_switch_Some l v q : errno_switch l v = Some q -> (v, q) ∈ l.
Proof.
  induction l as [|[h q'] l IH]; simpl; [done|]. destruct (Z.eqb_spec v h) as [-> |].
  - intros [= ->]. by left.
  - intros H. right. by apply IH.
Qed.

(** A check of every pair of rows of the table. *)
Definition all_rows (p : Z * Z -> bool) : bool := forallb p ERRNO_MAP.

Lemma all_rows_spec p h q : all_rows p = true -> (h, q) ∈ ERRNO_MAP -> p (h, q) = true.
Proof. unfold all_rows. rewrite forallb_forall. intros H Hin. apply H. by apply list_elem_of_In. Qed.

(** ** Properties *)

(** The error translation is total and never turns a failure into success:
    only 0 gives EOK, and every answer is a QNX error number of 16 bits.  On
    the numbers it knows it loses nothing but the distinction between EBUSY and
    EALREADY; a number outside the table - E2BIG among them, although QNX has
    it - is reported as an I/O error. *)
Theorem map_errno_spec :
  (forall v, map_errno v = Qnx.QEOK <-> v = 0) /\
  (forall v, 0 <= map_errno v < 2 ^ 16) /\
  (forall v v' q, errno_switch ERRNO_MAP v = Some q -> errno_switch ERRNO_MAP v' = Some q ->
     v = v' \/ (q = Qnx.QEBUSY /\ (v = Host.EBUSY \/ v = Host.EALREADY))) /\
  (forall v, errno_switch ERRNO_MAP v = None -> map_errno v = Qnx.QEIO) /\
  map_errno Host.E2BIG = Qnx.QEIO /\ map_errno (-1) = Qnx.QEIO.
Proof.
  split; [|split; [|split; [|split; [|done]]]].
  - intros v. unfold map_errno. split; [|by intros ->].
    destruct (errno_switch ERRNO_MAP v) as [q|] eqn:E; simpl; [|done]. intros ->.
    apply errno_switch_Some in E.
    pose proof (all_rows_spec (fun r => (fst r =? 0) || negb (snd r =? 0)) _ _ eq_refl E) as H.
    simpl in H. rewrite orb_false_r in H. by apply Z.eqb_eq.
  - intros v. unfold map_errno.
    destruct (errno_switch ERRNO_MAP v) as [q|] eqn:E; simpl; [|vm_compute; split; [discriminate|done]].
    apply errno_switch_Some in E.
    pose proof (all_rows_spec (fun r => (0 <=? snd r) && (snd r <? 65536)) _ _ eq_refl E) as H.
    simpl in H. to_prop. split; [done|]. change (2 ^ 16) with 65536. done.
  - intros v v' q H1 H2. apply errno_switch_Some in H1, H2.
    pose proof (all_rows_spec (fun r => forallb (fun r' =>
      negb (snd r =? snd r') || (fst r =? fst r') ||
      ((snd r =? Qnx.QEBUSY) && ((fst r =? Host.EBUSY) || (fst r =? Host.EALREADY)))) ERRNO_MAP)
      _ _ eq_refl H1) as H.
    cbv beta in H. rewrite forallb_forall in H. specialize (H (v', q)).
    rewrite <- list_elem_of_In in H. specialize (H H2). cbn [fst snd] in H.
    rewrite Z.eqb_refl in H. cbn [negb orb] in H. apply orb_prop in H as [H|H].
    + left. by apply Z.eqb_eq.
    + right. apply andb_prop in H as [Hq Hv]. apply Z.eqb_eq in Hq. split; [done|].
      apply orb_prop in Hv as [Hv|Hv]; apply Z.eqb_eq in Hv; auto.
  - intros v H. unfold map_errno. by rewrite H.
Qed.
