(* ===== verification/TerminalFilter.v ===== *)
(** * TerminalFilter: [fd_filter.h], [fd_filter.cpp] and [termios_settings.cpp]

    The filter between a host terminal and a guest that expects QNX terminal
    codes: bytes read from the host wait in [m_buffer] until they are known not
    to start an xterm mouse report, and move to [m_ready], where the guest reads
    them from.  The outside world (clock, pending signals, [ppoll], [read]) is a
    list of answers, one record per pass of the reading loop. *)

From stdpp Require Import pretty.
From S2P Require Import Prelude Types Errno Timespec.

(** ** Terminal parameters *)

(** The fields of [struct termios] the filter looks at. *)
Record termios := mkTermios { c_lflag : Z; c_vtime : Z; c_vmin : Z }.

Definition ICANON : Z := 2.

(** [QnxMsg::dev::read_request], the fields used. *)
Record dev_read_request := mkDevRead { r_nbytes : Z; r_timeout : Z; r_time : Z; r_minimum : Z }.

(** [cc_t] is a byte. *)
Definition approximate (r : dev_read_request) (dst : termios) : termios :=
  let lflag := Z.land (c_lflag dst) (u32 (Z.lnot ICANON)) in
  if negb (r_timeout r =? 0) then mkTermios lflag (u8 (r_timeout r)) 0
  else mkTermios lflag (u8 (r_time r)) (u8 (r_minimum r)).

(** [TermiosSettings]: the settings of a host terminal, saved and restored.
    [tcgetattr] answers [None] on error. *)
Record TermiosSettings := mkTermiosSettings { m_settings : termios; m_ok : bool; m_old : termios }.

Definition TermiosSettings_new (tcgetattr : option termios) (uninit : termios) : TermiosSettings :=
  let t := default uninit tcgetattr in
  mkTermiosSettings t (match tcgetattr with Some _ => true | None => false end) t.

Definition from_dev_read (msg : dev_read_request) (t : TermiosSettings) : TermiosSettings :=
  mkTermiosSettings (approximate msg (m_settings t)) (m_ok t) (m_old t).

(** What the destructor sets, if anything. *)
Definition restore (t : TermiosSettings) : option termios := if m_ok t then Some (m_old t) else None.

(** ** Read parameters *)

Record ReadContext := mkReadContext { rc_deadline : Deadline; min_bytes : Z; max_bytes : Z }.

Definition rc_setup (now : Timespec) (read_bytes : Z) (ts : termios) : ReadContext :=
  if c_vmin ts =? 0 then
    if c_vtime ts =? 0 then mkReadContext Deadline_none 0 (u64 read_bytes)
    else mkReadContext (mkDeadline (ts_add now (ms (c_vtime ts * 100)))) 1 (u64 read_bytes)
  else if c_vtime ts =? 0 then mkReadContext Deadline_none (c_vmin ts) (u64 read_bytes)
  else mkReadContext Deadline_none 1 (u64 read_bytes).

(** ** The filter *)

Inductive EscType := UNKNOWN | RECOGNIZED | INCOMPLETE.

Record TerminalFilter := mkFilter {
  m_buttons : Z;
  m_waiting_for_esc : bool;
  m_esc_start_time : Timespec;
  m_buffer : list Z;
  m_ready : list Z
}.

Definition TerminalFilter_new : TerminalFilter := mkFilter 0 false Timespec.ZERO [] [].

Definition esc_timeout : Timespec := ms 200.

Definition ESC : Z := 27.
Definition K_MOUSE_BSELECT : Z := 1024.
Definition K_MOUSE_BADJUST : Z := 512.
Definition K_MOUSE_BMENU : Z := 256.
Definition MOTION : Z := 32.
Definition BTN_RELEASE : Z := 3.
Definition BTN_MASK : Z := 3.

Definition transfer (size : nat) (f : TerminalFilter) : TerminalFilter :=
  mkFilter (m_buttons f) (m_waiting_for_esc f) (m_esc_start_time f)
    (drop size (m_buffer f)) (m_ready f ++ take size (m_buffer f)).

Definition drop_ (size : nat) (f : TerminalFilter) : TerminalFilter :=
  mkFilter (m_buttons f) (m_waiting_for_esc f) (m_esc_start_time f)
    (drop size (m_buffer f)) (m_ready f).

Definition set_waiting (w : bool) (f : TerminalFilter) : TerminalFilter :=
  mkFilter (m_buttons f) w (m_esc_start_time f) (m_buffer f) (m_ready f).

(** [snprintf] of "ESC [ a ; b ; ... t"; the messages are far below 50 bytes. *)
Fixpoint join_dec (l : list Z) : cstring :=
  match l with
  | [] => []
  | [x] => lit (pretty x)
  | x :: l => lit (pretty x) ++ [59] ++ join_dec l
  end.
Definition mouse_report (l : list Z) : cstring := [ESC; 91] ++ join_dec l ++ [116].

(** The translation of one report [b, column, row]: the new pressed buttons and
    the QNX message. *)
Definition mouse_event (buttons b column row : Z) : Z * cstring :=
  if has b MOTION then (buttons, mouse_report [33; row; column; Z.shiftr buttons 8])
  else if Z.land b BTN_MASK =? BTN_RELEASE then
    (0, mouse_report [32; row; column; Z.shiftr buttons 8])
  else
    let qnx_btn :=
      if Z.land b BTN_MASK =? 0 then K_MOUSE_BSELECT
      else if Z.land b BTN_MASK =? 1 then K_MOUSE_BADJUST
      else K_MOUSE_BMENU in
    (Z.lor buttons qnx_btn, mouse_report [31; row; column; Z.shiftr qnx_btn 8; 1]).

Definition parse_esc (f : TerminalFilter) : EscType * TerminalFilter :=
  if (length (m_buffer f) <? 2)%nat then (INCOMPLETE, f)
  else if negb (m_buffer f !!! 1%nat =? 91) then (UNKNOWN, f)
  else if (length (m_buffer f) <? 3)%nat then (INCOMPLETE, f)
  else if m_buffer f !!! 2%nat =? 77 then
    if (length (m_buffer f) <? 3 + 3)%nat then (UNKNOWN, f)
    else
      let '(buttons, msg) :=
        mouse_event (m_buttons f) (m_buffer f !!! 3%nat - 32) (m_buffer f !!! 4%nat - 33)
          (m_buffer f !!! 5%nat - 33) in
      (RECOGNIZED,
       drop_ 6 (mkFilter buttons (m_waiting_for_esc f) (m_esc_start_time f) (m_buffer f)
                  (m_ready f ++ msg)))
  else (UNKNOWN, f).

(** The index of the first ESC, or the size. *)
Fixpoint plain_len (l : list Z) : nat :=
  match l with
  | [] => 0
  | b :: l => if b =? ESC then 0 else S (plain_len l)
  end.

Fixpoint process_loop (fuel : nat) (now : Timespec) (f : TerminalFilter) : option TerminalFilter :=
  match fuel with
  | O => None
  | S fuel =>
      let f := transfer (plain_len (m_buffer f)) f in
      if bool_decide (m_buffer f = []) then Some f
      else
        match parse_esc f with
        | (RECOGNIZED, f) => process_loop fuel now (set_waiting false f)
        | (UNKNOWN, f) => process_loop fuel now (transfer 1 (set_waiting false f))
        | (INCOMPLETE, f) =>
            if m_waiting_for_esc f then
              if ts_ge now (ts_add (m_esc_start_time f) esc_timeout)
              then process_loop fuel now (set_waiting false (transfer 1 f))
              else Some f
            else process_loop fuel now
                   (mkFilter (m_buttons f) true now (m_buffer f) (m_ready f))
        end
  end.

(** Every pass but the one that starts waiting takes a byte out of the buffer. *)
Definition process_fuel (f : TerminalFilter) : nat := 2 * length (m_buffer f) + 2.
Definition process (now : Timespec) (f : TerminalFilter) : option TerminalFilter :=
  process_loop (process_fuel f) now f.

(** ** The reading loop *)

(** The answers of the outside world in one pass; errors carry [errno]. *)
Record Pass := mkPass {
  p_now : Timespec;
  p_preempt : bool;
  p_poll : Z + Z;
  p_read : Z + list Z
}.

(** [inr] is success, [inl e] failure with [*errno_out = e]. *)
Fixpoint common_read_loop (rc : ReadContext) (first_pass : bool) (passes : list Pass)
    (f : TerminalFilter) : option ((Z + unit) * TerminalFilter) :=
  match passes with
  | [] => None
  | p :: passes =>
      if p_preempt p then Some (inl Qnx.QEINTR, f)
      else
        f ← process (p_now p) f;
        let n := Z.of_nat (length (m_ready f)) in
        if ((0 <? n) || negb first_pass) && (min_bytes rc <=? n) then Some (inr (), f)
        else
          let deadline :=
            if m_waiting_for_esc f
            then deadline_or (rc_deadline rc) (mkDeadline (ts_add (m_esc_start_time f) esc_timeout))
            else rc_deadline rc in
          let read_data f :=
            match p_read p with
            | inl e => Some (inl (map_errno e), f)
            | inr bytes =>
                common_read_loop rc false passes
                  (mkFilter (m_buttons f) (m_waiting_for_esc f) (m_esc_start_time f)
                     (m_buffer f ++ bytes) (m_ready f))
            end in
          let polled f :=
            match p_poll p with
            | inl e => Some (inl (map_errno e), f)
            | inr r => if 0 <? r then read_data f else common_read_loop rc false passes f
            end in
          if min_bytes rc =? 0 then polled f
          else if is_set deadline then
            if ts_ge (p_now p) (v deadline) then Some (inr (), f) else polled f
          else read_data f
  end.

Definition common_read (rc : ReadContext) (passes : list Pass) (f : TerminalFilter)
  : option ((Z + unit) * TerminalFilter) :=
  common_read_loop rc true passes f.

(** The reply handed to the guest: status, byte count and bytes. *)
Record read_reply := mkReadReply { rr_status : Z; rr_nbytes : Z; rr_data : list Z }.

(** [std::min(m_ready.size(), nbytes)] stored in the reply's 16-bit field, which
    is unsigned in [io::read_reply] and signed in [dev::read_reply]. *)
Definition take_ready (field : Z -> Z) (nbytes : Z) (f : TerminalFilter) : read_reply * TerminalFilter :=
  let n := field (Z.min (Z.of_nat (length (m_ready f))) (u64 nbytes)) in
  (mkReadReply Qnx.QEOK n (take (Z.to_nat n) (m_ready f)),
   mkFilter (m_buttons f) (m_waiting_for_esc f) (m_esc_start_time f) (m_buffer f)
     (drop (Z.to_nat n) (m_ready f))).

(** [read]: the terminal's own settings apply. *)
Definition filter_read (ts : termios) (now : Timespec) (nbytes : Z) (passes : list Pass)
    (f : TerminalFilter) : option (read_reply * TerminalFilter) :=
  '(r, f) ← common_read (rc_setup now nbytes ts) passes f;
  match r with
  | inl e => Some (mkReadReply e 0 [], f)
  | inr _ => Some (take_ready (wrapu 16) nbytes f)
  end.

(** [dev_read]: the request's settings apply; a failure is reported as the
    current [errno], whatever [common_read] said. *)
Definition filter_dev_read (uninit : termios) (errno : Z) (now : Timespec) (r : dev_read_request)
    (passes : list Pass) (f : TerminalFilter) : option (read_reply * TerminalFilter) :=
  '(res, f) ← common_read (rc_setup now (r_nbytes r) (approximate r uninit)) passes f;
  match res with
  | inl _ => Some (mkReadReply (map_errno errno) 0 [], f)
  | inr _ => Some (take_ready (wraps 16) (r_nbytes r) f)
  end.

(** ** What the filter does to the byte stream *)

(** The buffer starts with a complete mouse report. *)
Definition report_at (l : list Z) : Prop :=
  exists b c r i, l = ESC :: 91 :: 77 :: b :: c :: r :: i.

(** [translates rest b inp out b']: with [rest] already behind it, the input
    [inp] gives the output [out]: complete mouse reports become QNX messages,
    every other byte is copied. *)
Inductive translates (rest : list Z) : Z -> list Z -> list Z -> Z -> Prop :=
| tr_nil b : translates rest b [] [] b
| tr_byte b x i o b' :
    ~ report_at (x :: i ++ rest) -> translates rest b i o b' -> translates rest b (x :: i) (x :: o) b'
| tr_report b x c r i o b1 msg b' :
    mouse_event b (x - 32) (c - 33) (r - 33) = (b1, msg) -> translates rest b1 i o b' ->
    translates rest b (ESC :: 91 :: 77 :: x :: c :: r :: i) (msg ++ o) b'.

(** The same without looking ahead, for streams read in several pieces. *)
Inductive stream : Z -> list Z -> list Z -> Z -> Prop :=
| st_nil b : stream b [] [] b
| st_byte b x i o b' : stream b i o b' -> stream b (x :: i) (x :: o) b'
| st_report b x c r i o b1 msg b' :
    mouse_event b (x - 32) (c - 33) (r - 33) = (b1, msg) -> stream b1 i o b' ->
    stream b (ESC :: 91 :: 77 :: x :: c :: r :: i) (msg ++ o) b'.

Lemma translates_stream rest b i o b' : translates rest b i o b' -> stream b i o b'.
Proof. induction 1; econstructor; eauto. Qed.

Lemma stream_app b i1 o1 b1 i2 o2 b2 :
  stream b i1 o1 b1 -> stream b1 i2 o2 b2 -> stream b (i1 ++ i2) (o1 ++ o2) b2.
Proof.
  induction 1; intros H2; simpl; [done|constructor; auto|].
  rewrite <- app_assoc. econstructor; eauto.
Qed.

Lemma not_report_head x l : x <> ESC -> ~ report_at (x :: l).
Proof. intros Hx (b & c & r & i & [= -> _]). done. Qed.

Lemma translates_plain rest l b i o b' :
  Forall (fun x => x <> ESC) l -> translates rest b i o b' ->
  translates rest b (l ++ i) (l ++ o) b'.
Proof.
  induction 1 as [|x l Hx _ IH]; intros H; simpl; [done|].
  constructor; [by apply not_report_head|by apply IH].
Qed.

Lemma plain_len_spec l :
  (plain_len l <= length l)%nat /\ Forall (fun x => x <> ESC) (take (plain_len l) l) /\
  (drop (plain_len l) l = [] \/ exists t, drop (plain_len l) l = ESC :: t).
Proof.
  induction l as [|b l (H1 & H2 & H3)]; simpl.
  - split; [lia|]. split; [constructor|by left].
  - destruct (Z.eqb_spec b ESC) as [-> |Hb]; simpl.
    + split; [lia|]. split; [constructor|]. right. by exists l.
    + split; [lia|]. split; [by constructor|done].
Qed.

(** The cases of the escape parser. *)
Lemma parse_esc_spec f t :
  m_buffer f = ESC :: t ->
  match parse_esc f with
  | (RECOGNIZED, f') => exists b c r i msg buttons,
      m_buffer f = ESC :: 91 :: 77 :: b :: c :: r :: i /\
      mouse_event (m_buttons f) (b - 32) (c - 33) (r - 33) = (buttons, msg) /\
      f' = mkFilter buttons (m_waiting_for_esc f) (m_esc_start_time f) i (m_ready f ++ msg)
  | (UNKNOWN, f') => f' = f /\ ~ report_at (m_buffer f)
  | (INCOMPLETE, f') => f' = f /\ (m_buffer f = [ESC] \/ m_buffer f = [ESC; 91])
  end.
Proof.
  intros Hb. unfold parse_esc. rewrite Hb.
  destruct t as [|b1 t]; simpl; [by auto|].
  destruct (Z.eqb_spec b1 91) as [-> |H1]; simpl.
  2: { split; [done|]. intros (b & c & r & i & [= -> _]). done. }
  destruct t as [|b2 t]; simpl; [by auto|].
  destruct (Z.eqb_spec b2 77) as [-> |H2]; simpl.
  2: { split; [done|]. intros (b & c & r & i & [= -> _]). done. }
  destruct t as [|b [|c [|r i]]]; simpl;
    try (split; [done|]; intros (? & ? & ? & ? & H); discriminate H).
  destruct (mouse_event (m_buttons f) (b - 32) (c - 33) (r - 33)) as [buttons msg] eqn:Em.
  exists b, c, r, i, msg, buttons. split; [done|]. split; [done|].
  done.
Qed.

(** What [process] leaves behind. *)
Definition settled (now : Timespec) (f : TerminalFilter) : Prop :=
  m_buffer f = [] \/
  ((m_buffer f = [ESC] \/ m_buffer f = [ESC; 91]) /\ m_waiting_for_esc f = true /\
   ts_ge now (ts_add (m_esc_start_time f) esc_timeout) = false).

Definition processed (now : Timespec) (f f' : TerminalFilter) : Prop :=
  exists inp out, m_buffer f = inp ++ m_buffer f' /\ m_ready f' = m_ready f ++ out /\
    translates (m_buffer f') (m_buttons f) inp out (m_buttons f') /\ settled now f'.

Definition pending_passes (f : TerminalFilter) : nat :=
  2 * length (m_buffer f) + (if m_waiting_for_esc f then 0 else 1).

(** One step of the loop in front of a processed tail. *)
Lemma processed_step now f f1 f' inp out :
  m_buffer f = inp ++ m_buffer f1 -> m_ready f1 = m_ready f ++ out ->
  (forall i o, translates (m_buffer f') (m_buttons f1) i o (m_buttons f') ->
     m_buffer f1 = i ++ m_buffer f' ->
     translates (m_buffer f') (m_buttons f) (inp ++ i) (out ++ o) (m_buttons f')) ->
  processed now f1 f' -> processed now f f'.
Proof.
  intros Hb Hr Ht (i & o & Hb1 & Hr1 & Ht1 & Hs). exists (inp ++ i), (out ++ o).
  split; [by rewrite Hb, Hb1, app_assoc|]. split; [by rewrite Hr1, Hr, app_assoc|].
  split; [by apply Ht|done].
Qed.

Lemma process_loop_spec now : forall fuel f,
  (pending_passes f < fuel)%nat ->
  exists f', process_loop fuel now f = Some f' /\ processed now f f'.
Proof.
  induction fuel as [|fuel IH]; intros f Hf; [lia|]. cbn [process_loop].
  destruct (plain_len_spec (m_buffer f)) as (Hle & Hplain & Hhead).
  set (n := plain_len (m_buffer f)) in *. set (f0 := transfer n f).
  assert (Hlen0 : (length (m_buffer f0) <= length (m_buffer f))%nat)
    by (unfold f0; simpl; rewrite length_drop; lia).
  assert (Hpre : forall f', processed now f0 f' -> processed now f f').
  { intros f'. apply (processed_step now f f0 f' (take n (m_buffer f)) (take n (m_buffer f))).
    - unfold f0. simpl. by rewrite take_drop.
    - done.
    - intros i o Ht _. by apply translates_plain. }
  case_bool_decide as Hempty.
  { exists f0. split; [done|]. apply Hpre. exists [], [].
    split; [done|]. split; [by rewrite app_nil_r|]. split; [constructor|by left]. }
  destruct Hhead as [Hnil|[t Ht]]; [done|]. change (m_buffer f0 = ESC :: t) in Ht.
  pose proof (parse_esc_spec f0 t Ht) as Hp.
  assert (Hw0 : m_waiting_for_esc f0 = m_waiting_for_esc f) by done.
  clearbody f0. destruct (parse_esc f0) as [[] f1].
  - (* UNKNOWN *)
    destruct Hp as [-> Hno].
    destruct (IH (transfer 1 (set_waiting false f0))) as (f' & -> & Hpr).
    { unfold pending_passes in *. simpl. rewrite Ht in *. simpl in *. rewrite ?drop_0.
      destruct (m_waiting_for_esc f); lia. }
    exists f'. split; [done|]. apply Hpre. revert Hpr.
    apply (processed_step now f0 _ f' [ESC] [ESC]).
    + simpl. by rewrite Ht.
    + simpl. by rewrite Ht.
    + intros i o Htr Hi. simpl in *. rewrite Ht in Hi, Hno. simpl in Hi. rewrite ?drop_0 in Hi.
      constructor; [by rewrite <- Hi|done].
  - (* RECOGNIZED *)
    destruct Hp as (b & c & r & i & msg & buttons & Hb & Hm & ->).
    destruct (IH (set_waiting false (mkFilter buttons (m_waiting_for_esc f0) (m_esc_start_time f0) i
      (m_ready f0 ++ msg)))) as (f' & -> & Hpr).
    { unfold pending_passes in *. simpl. rewrite Hb in Hlen0. simpl in Hlen0.
      destruct (m_waiting_for_esc f); lia. }
    exists f'. split; [done|]. apply Hpre. revert Hpr.
    apply (processed_step now f0 _ f' [ESC; 91; 77; b; c; r] msg).
    + by rewrite Hb.
    + done.
    + intros i' o Htr Hi. simpl in *. by apply tr_report with (b1 := buttons).
  - (* INCOMPLETE *)
    destruct Hp as [-> Hshort]. destruct (m_waiting_for_esc f0) eqn:Hw.
    + destruct (ts_ge now _) eqn:Hge.
      * destruct (IH (set_waiting false (transfer 1 f0))) as (f' & -> & Hpr).
        { unfold pending_passes in *. simpl. rewrite Ht in *. simpl in *. rewrite ?drop_0.
          destruct (m_waiting_for_esc f); lia. }
        exists f'. split; [done|]. apply Hpre. revert Hpr.
        apply (processed_step now f0 _ f' [ESC] [ESC]).
        -- simpl. by rewrite Ht.
        -- simpl. by rewrite Ht.
        -- intros i o Htr Hi. simpl in *. constructor; [|done].
           rewrite Ht in Hi. simpl in Hi. rewrite ?drop_0 in Hi. rewrite <- Hi, <- Ht.
           destruct Hshort as [-> | ->]; intros (? & ? & ? & ? & E); discriminate E.
      * exists f0. split; [done|]. apply Hpre. exists [], [].
        split; [done|]. split; [by rewrite app_nil_r|]. split; [constructor|].
        right. split; [done|]. split; [done|]. done.
    + destruct (IH (mkFilter (m_buttons f0) true now (m_buffer f0) (m_ready f0))) as (f' & -> & Hpr).
      { unfold pending_passes in *. simpl. rewrite <- Hw0 in Hf. lia. }
      exists f'. split; [done|]. apply Hpre. exact Hpr.
Qed.

(** What the passes hand to the filter, in order. *)
Fixpoint taken_from (fed : list Z) (passes : list Pass) : Prop :=
  match passes with
  | [] => fed = []
  | p :: passes =>
      fed = [] \/ taken_from fed passes \/
      exists bytes fed', p_read p = inr bytes /\ fed = bytes ++ fed' /\ taken_from fed' passes
  end.

Lemma taken_from_nil passes : taken_from [] passes.
Proof. destruct passes; simpl; auto. Qed.

(** The reading loop so far: [fed] came in, [inp] of the old buffer and of it
    went out translated. *)
Definition fed_through (fed : list Z) (f f' : TerminalFilter) : Prop :=
  exists inp out, m_buffer f ++ fed = inp ++ m_buffer f' /\ m_ready f' = m_ready f ++ out /\
    stream (m_buttons f) inp out (m_buttons f').

Lemma fed_through_refl f : fed_through [] f f.
Proof. exists [], []. rewrite !app_nil_r. repeat split. constructor. Qed.

Lemma fed_through_processed now f f' : processed now f f' -> fed_through [] f f'.
Proof.
  intros (i & o & H1 & H2 & H3 & _). exists i, o. rewrite app_nil_r.
  repeat split; try done. by eapply translates_stream.
Qed.

Lemma fed_through_trans fed1 fed2 f f1 f2 bytes :
  fed_through fed1 f f1 ->
  fed_through fed2 (mkFilter (m_buttons f1) (m_waiting_for_esc f1) (m_esc_start_time f1)
                     (m_buffer f1 ++ bytes) (m_ready f1)) f2 ->
  fed_through (fed1 ++ bytes ++ fed2) f f2.
Proof.
  intros (i1 & o1 & B1 & R1 & S1) (i2 & o2 & B2 & R2 & S2). simpl in *.
  exists (i1 ++ i2), (o1 ++ o2). split; [|split].
  - rewrite !app_assoc, B1. rewrite <- !app_assoc. f_equal. by rewrite app_assoc, B2.
  - by rewrite R2, R1, app_assoc.
  - by eapply stream_app.
Qed.

(** Why a successful read ended. *)
Definition read_done (rc : ReadContext) (first : bool) (f : TerminalFilter) : Prop :=
  (min_bytes rc <= Z.of_nat (length (m_ready f)) /\ (m_ready f <> [] \/ first = false)) \/
  (min_bytes rc <> 0 /\
   exists now d, ts_ge now (v d) = true /\ is_set d = true /\
     (d = rc_deadline rc \/ m_waiting_for_esc f = true)).

Lemma deadline_or_cases a b : deadline_or a b = a \/ deadline_or a b = b.
Proof. unfold deadline_or. destruct (_ || _)%bool; auto. Qed.

Lemma common_read_loop_spec rc : forall passes first f res f',
  common_read_loop rc first passes f = Some (res, f') ->
  exists fed, taken_from fed passes /\ fed_through fed f f' /\
    (res = inr () -> exists first', read_done rc first' f').
Proof.
  induction passes as [|p passes IH]; intros first f res f'; cbn [common_read_loop]; [done|].
  destruct (p_preempt p).
  { intros [= <- <-]. exists []. split; [by left|]. split; [apply fed_through_refl|done]. }
  destruct (process_loop_spec (p_now p) (process_fuel f) f) as (f1 & Hp & Hpr).
  { unfold pending_passes, process_fuel. destruct (m_waiting_for_esc f); lia. }
  unfold process. rewrite Hp. cbn [mbind option_bind]. apply fed_through_processed in Hpr.
  destruct (((0 <? Z.of_nat (length (m_ready f1))) || negb first) &&
    (min_bytes rc <=? Z.of_nat (length (m_ready f1))))%bool eqn:Hexit.
  { intros [= <- <-]. exists []. split; [by left|]. split; [done|]. intros _.
    apply andb_prop in Hexit as [Hx Hmin]. exists first. left. to_prop. split; [done|].
    apply orb_prop in Hx as [Hx|Hx]; to_prop; [left|by right].
    intros E. rewrite E in Hx. done. }
  assert (Hgo : forall bytes res f',
    common_read_loop rc false passes (mkFilter (m_buttons f1) (m_waiting_for_esc f1)
      (m_esc_start_time f1) (m_buffer f1 ++ bytes) (m_ready f1)) = Some (res, f') ->
    exists fed, taken_from fed passes /\ fed_through (bytes ++ fed) f f' /\
      (res = inr () -> exists first', read_done rc first' f')).
  { intros bytes res0 f0 Hrun. destruct (IH _ _ _ _ Hrun) as (fed & Ht & Hf & Hd).
    exists fed. split; [done|]. split; [|done].
    exact (fed_through_trans [] fed f f1 f0 bytes Hpr Hf). }
  assert (Hread : forall res f',
    match p_read p with
    | inl e => Some (inl (map_errno e), f1)
    | inr bytes => common_read_loop rc false passes (mkFilter (m_buttons f1)
        (m_waiting_for_esc f1) (m_esc_start_time f1) (m_buffer f1 ++ bytes) (m_ready f1))
    end = Some (res, f') ->
    exists fed, taken_from fed (p :: passes) /\ fed_through fed f f' /\
      (res = inr () -> exists first', read_done rc first' f')).
  { intros res0 f0. destruct (p_read p) as [e|bytes] eqn:Er.
    - intros [= <- <-]. exists []. split; [by left|]. split; done.
    - intros Hrun. destruct (Hgo bytes _ _ Hrun) as (fed & Ht & Hf & Hd).
      exists (bytes ++ fed). split; [|done]. right. right. eauto. }
  assert (Hpoll : forall res f',
    match p_poll p with
    | inl e => Some (inl (map_errno e), f1)
    | inr r => if 0 <? r then
        match p_read p with
        | inl e => Some (inl (map_errno e), f1)
        | inr bytes => common_read_loop rc false passes (mkFilter (m_buttons f1)
            (m_waiting_for_esc f1) (m_esc_start_time f1) (m_buffer f1 ++ bytes) (m_ready f1))
        end else common_read_loop rc false passes f1
    end = Some (res, f') ->
    exists fed, taken_from fed (p :: passes) /\ fed_through fed f f' /\
      (res = inr () -> exists first', read_done rc first' f')).
  { intros res0 f0. destruct (p_poll p) as [e|r].
    - intros [= <- <-]. exists []. split; [by left|]. split; done.
    - destruct (0 <? r); [apply Hread|]. intros Hrun. destruct f1 as [b1 w1 t1 bu1 r1].
      destruct (Hgo [] res0 f0) as (fed & Ht & Hf & Hd); [simpl; by rewrite app_nil_r|].
      exists fed. split; [right; by left|]. done. }
  destruct (min_bytes rc =? 0) eqn:Hmin; [apply Hpoll|].
  match goal with |- (if is_set ?d then _ else _) = _ -> _ => set (dl := d) end.
  destruct (is_set dl) eqn:Hset; [|apply Hread].
  destruct (ts_ge (p_now p) (v dl)) eqn:Hge; [|apply Hpoll].
  intros [= <- <-]. exists []. split; [by left|]. split; [done|]. intros _. exists first. right.
  to_prop. split; [done|]. exists (p_now p), dl. split; [done|]. split; [done|].
  unfold dl. destruct (m_waiting_for_esc f1); [by right|by left].
Qed.

(** What brings the reading loop to its end: a pending signal, the polling mode
    (which takes at most two passes), or the passing of the reader's deadline. *)
Definition ends (rc : ReadContext) (passes : list Pass) : Prop :=
  Exists (fun p => p_preempt p = true) passes \/
  (min_bytes rc <= 0 /\ (2 <= length passes)%nat) \/
  (min_bytes rc <> 0 /\ is_set (rc_deadline rc) = true /\
   Exists (fun p => ts_ge (p_now p) (v (rc_deadline rc)) = true) passes).

(** A pass ends the loop or goes on to the next one, and it goes on only with no
    signal pending, with too few bytes, and before the deadline. *)
Lemma common_read_pass rc p passes first f :
  (exists r, common_read_loop rc first (p :: passes) f = Some r) \/
  (exists f', common_read_loop rc first (p :: passes) f = common_read_loop rc false passes f' /\
     p_preempt p = false /\ (first = false -> 0 < min_bytes rc) /\
     (min_bytes rc <> 0 -> is_set (rc_deadline rc) = true ->
        ts_ge (p_now p) (v (rc_deadline rc)) = false)).
Proof.
  cbn [common_read_loop]. destruct (p_preempt p); [left; eauto|].
  destruct (process_loop_spec (p_now p) (process_fuel f) f) as (f1 & Hp & _).
  { unfold pending_passes, process_fuel. destruct (m_waiting_for_esc f); lia. }
  unfold process. rewrite Hp. cbn [mbind option_bind].
  destruct (((0 <? Z.of_nat (length (m_ready f1))) || negb first) &&
    (min_bytes rc <=? Z.of_nat (length (m_ready f1))))%bool eqn:Hexit; [left; eauto|].
  assert (Hmin : first = false -> 0 < min_bytes rc).
  { intros ->. rewrite orb_true_r in Hexit. cbn [andb] in Hexit. to_prop. lia. }
  assert (Hset : is_set (rc_deadline rc) = true ->
    (if m_waiting_for_esc f1
     then deadline_or (rc_deadline rc) (mkDeadline (ts_add (m_esc_start_time f1) esc_timeout))
     else rc_deadline rc) = rc_deadline rc).
  { intros Hs. destruct (m_waiting_for_esc f1); [|done]. unfold deadline_or, deadline_lt. rewrite Hs.
    by destruct (is_set (mkDeadline _)). }
  revert Hset. destruct (Z.eqb_spec (min_bytes rc) 0) as [H0|H0].
  - intros _. destruct (p_poll p) as [e|r]; [left; eauto|].
    destruct (0 <? r); [destruct (p_read p); [left; eauto|]|]; right; eexists; done.
  - match goal with |- (_ -> ?d = _) -> _ => generalize d end. intros dl Hset.
    destruct (is_set dl) eqn:Hs.
    + destruct (ts_ge (p_now p) (v dl)) eqn:Hge; [left; eauto|].
      assert (Hd : min_bytes rc <> 0 -> is_set (rc_deadline rc) = true ->
        ts_ge (p_now p) (v (rc_deadline rc)) = false) by (intros _ Hx; by rewrite <- Hset).
      destruct (p_poll p) as [e|r]; [left; eauto|].
      destruct (0 <? r); [destruct (p_read p); [left; eauto|]|]; right; eexists; done.
    + destruct (p_read p); [left; eauto|]. right. eexists. split; [reflexivity|].
      split; [done|]. split; [done|]. intros _ Hx. rewrite Hset in Hs by done. congruence.
Qed.

Lemma common_read_ends rc : forall passes first f,
  ends rc passes \/ (first = false /\ min_bytes rc <= 0 /\ passes <> []) ->
  exists r, common_read_loop rc first passes f = Some r.
Proof.
  induction passes as [|p passes IH]; intros first f He.
  { destruct He as [[H|[[_ H]|(_ & _ & H)]]|(_ & _ & H)];
      [by apply Exists_nil in H|simpl in H; lia|by apply Exists_nil in H|done]. }
  destruct (common_read_pass rc p passes first f) as [|(f' & -> & Hp & Hmin & Hd)]; [done|].
  apply IH. destruct He as [[H|[[H1 H2]|(H1 & H2 & H)]]|(-> & H & _)].
  - apply Exists_cons in H as [H|H]; [congruence|]. left. by left.
  - right. split; [done|]. split; [done|]. by destruct passes; [simpl in H2; lia|].
  - apply Exists_cons in H as [H|H]; [rewrite Hd in H by done; done|]. left. right. right. done.
  - specialize (Hmin eq_refl). lia.
Qed.

(** ** Properties *)

(** C34. One pass over the buffer always ends, keeps every byte and their order,
    and translates exactly the complete mouse reports it contains; what stays
    behind is the beginning of an escape sequence that is still within its
    200 ms, or nothing. *)
Theorem process_spec now f :
  exists f', process now f = Some f' /\ processed now f f'.
Proof.
  apply process_loop_spec. unfold pending_passes, process_fuel.
  destruct (m_waiting_for_esc f); lia.
Qed.

(** C35. Reading, over any number of passes and however the input is cut: the
    loop returns once a signal is pending, on the second pass of a polling read,
    or on the first pass after the reader's deadline; whatever the outcome -
    data, time-out, signal or error - the bytes taken from the terminal are all
    either still buffered or delivered, in order and translated, and a read only
    succeeds when enough bytes are ready or a deadline has passed.  A pending
    signal wins before anything is read. *)
Theorem common_read_spec rc passes f :
  (ends rc passes -> exists r, common_read rc passes f = Some r) /\
  forall res f', common_read rc passes f = Some (res, f') ->
    (exists fed, taken_from fed passes /\ fed_through fed f f') /\
    (res = inr () -> exists first', read_done rc first' f') /\
    (forall p rest, passes = p :: rest -> p_preempt p = true -> res = inl Qnx.QEINTR /\ f' = f).
Proof.
  split; [intros He; apply common_read_ends; by left|]. intros res f' H.
  destruct (common_read_loop_spec rc passes true f res f' H) as (fed & Ht & Hf & Hd).
  split; [by exists fed|]. split; [done|]. intros p rest -> Hp.
  unfold common_read in H. cbn [common_read_loop] in H. rewrite Hp in H. by injection H as <- <-.
Qed.

(** "a", then a mouse press at column 5, row 7 cut in the middle of "ESC [". *)
Definition demo_passes : list Pass :=
  [ mkPass (Timespec_new 100 0) false (inr 1) (inr [97; 27]);
    mkPass (Timespec_new 100 1000) false (inr 1) (inr [91; 77; 32; 38; 40]);
    mkPass (Timespec_new 100 2000) false (inr 0) (inr []) ].

Lemma common_read_spec_witness :
  let f := mkFilter K_MOUSE_BSELECT false Timespec.ZERO []
             (97 :: mouse_report [31; 7; 5; 4; 1]) in
  common_read (mkReadContext Deadline_none 2 16) demo_passes TerminalFilter_new = Some (inr (), mkFilter
    (m_buttons f) false (Timespec_new 100 1000) (m_buffer f) (m_ready f)) /\
  exists fed, taken_from fed demo_passes /\
    fed_through fed TerminalFilter_new (mkFilter (m_buttons f) false (Timespec_new 100 1000) [] (m_ready f)).
Proof.
  intros f.
  assert (H : common_read (mkReadContext Deadline_none 2 16) demo_passes TerminalFilter_new =
    Some (inr (), mkFilter (m_buttons f) false (Timespec_new 100 1000) (m_buffer f) (m_ready f)))
    by (vm_compute; reflexivity).
  split; [exact H|]. exact (proj1 (proj2 (common_read_spec _ _ _) _ _ H)).
Defined.

(** A mouse report cut after "ESC [ M" is not waited for: the parser gives
    up at once and the report reaches the guest as raw bytes, although the
    buffer is there to hold a sequence until it can be interpreted. *)
Theorem split_mouse_report_leaks now f t :
  (length t < 3)%nat -> Forall (fun x => x <> ESC) t ->
  m_buffer f = ESC :: 91 :: 77 :: t ->
  parse_esc f = (UNKNOWN, f) /\
  process now f = Some (mkFilter (m_buttons f) false (m_esc_start_time f) []
    (m_ready f ++ ESC :: 91 :: 77 :: t)).
Proof.
  intros Hl Ht Hb.
  assert (Hp : forall f, m_buffer f = ESC :: 91 :: 77 :: t -> parse_esc f = (UNKNOWN, f)).
  { intros g Hg. unfold parse_esc. rewrite Hg. simpl.
    destruct t as [|? [|? [|? ?]]]; simpl in *; try reflexivity; lia. }
  split; [by apply Hp|]. unfold process.
  assert (Hk : exists k, process_fuel f = S (S (S k))).
  { exists (2 * length t + 5)%nat. unfold process_fuel. rewrite Hb. simpl. lia. }
  destruct Hk as [k ->]. cbn [process_loop]. rewrite Hb. cbn [plain_len]. rewrite Z.eqb_refl.
  assert (Hn : plain_len t = length t).
  { clear -Ht. induction Ht as [|x t Hx _ IH]; simpl; [done|].
    destruct (Z.eqb_spec x ESC); [done|]. by rewrite IH. }
  rewrite bool_decide_eq_false_2 by (simpl; by rewrite Hb).
  rewrite Hp by (simpl; by rewrite Hb). simpl. rewrite Hb. simpl. rewrite Hn.
  rewrite drop_all, bool_decide_eq_true_2 by done. unfold transfer, set_waiting. cbn.
  rewrite Hb. cbn. by rewrite drop_all, firstn_all, app_nil_r, <- app_assoc.
Qed.

Lemma split_mouse_report_leaks_witness :
  let f := mkFilter 0 false Timespec.ZERO [27; 91; 77; 32] [] in
  process Timespec.ZERO f = Some (mkFilter 0 false Timespec.ZERO [] [27; 91; 77; 32]).
Proof.
  intros f.
  destruct (split_mouse_report_leaks Timespec.ZERO f [32]) as [_ H]; [simpl; lia| |reflexivity|].
  - constructor; [discriminate|constructor].
  - exact H.
Defined.
