(* ===== verification/FdMap.v ===== *)
(** * FdMap: [unique_fd.h], [qnx_fd.h], [qnx_fd.cpp]

    The file descriptors of the guest.  A [QnxFd] lives in a slot of an id map
    and, once open, owns the host descriptor of the same number.  The host's
    own descriptor table is the kernel's: an interface with the documented
    behaviour of [dup], [dup2], [close] and [fcntl]. *)

From S2P Require Import Prelude Types IdMap PathMapper TerminalFilter.

(** ** The kernel's side *)

Class FdKernel (K : Type) := {
  k_dup : Z -> K -> K * Z;
  k_dup2 : Z -> Z -> K -> K * Z;
  k_close : Z -> K -> K * Z;
  k_closedir : Z -> K -> K * Z;
  k_fdopendir : Z -> K -> K * bool;
  k_set_cloexec : Z -> K -> K * Z;
  k_errno : K -> Z;
  (** the open file behind a descriptor *)
  k_file : K -> Z -> option nat
}.

(** Documented behaviour: a call that succeeds changes one table entry. *)
Class FdKernelLaws (K : Type) {FK : FdKernel K} := {
  dup2_law : forall old new k k' r, k_dup2 old new k = (k', r) ->
    (r < 0 /\ k_file k' = k_file k) \/
    (r = new /\ forall fd, k_file k' fd = if decide (fd = new) then k_file k old else k_file k fd);
  close_law : forall fd0 k k' r, k_close fd0 k = (k', r) ->
    forall fd, fd <> fd0 -> k_file k' fd = k_file k fd;
  cloexec_law : forall fd k k' r, k_set_cloexec fd k = (k', r) -> k_file k' = k_file k
}.

(** ** [UniqueFd] *)

(** The value of [m_fd]; moving out leaves -1. *)
Definition valid (fd : Z) : bool := negb (fd <? 0).

(** [close()]: a descriptor 0 is kept. *)
Definition unique_close {K} `{FdKernel K} (fd : Z) (k : K) : Z * K :=
  if 0 <? fd then (-1, fst (k_close fd k)) else (fd, k).

(** [release()]: the number, and what is left; the move constructor takes it. *)
Definition unique_release (fd : Z) : Z * Z := (fd, -1).

(** [*this = std::move(b)]: the new value of [*this] (that of [b] becomes -1). *)
Definition unique_assign {K} `{FdKernel K} (this b : Z) (k : K) : Z * K :=
  let '(_, k) := unique_close this k in (b, k).

(** ** [QnxFd] *)

Record QnxFd := mkQnxFd {
  m_fd : Z;
  m_nid : Z;
  m_pid : Z;
  m_vid : Z;
  m_flags : Z;
  m_handle : Z;
  m_open : bool;
  m_path : PathInfo;
  m_host_fd : Z;
  m_host_dir : bool;
  m_filter : option TerminalFilter
}.

Definition QnxFd_new (fd nid pid vid flags : Z) : QnxFd :=
  mkQnxFd fd nid pid vid flags 0 false PathInfo_new 0 false None.

Definition is_close_on_exec (f : QnxFd) : bool := has (m_flags f) 64.

Definition opened (host_fd : Z) (f : QnxFd) : QnxFd :=
  mkQnxFd (m_fd f) (m_nid f) (m_pid f) (m_vid f) (m_flags f) (m_handle f) true (m_path f)
    host_fd (m_host_dir f) (m_filter f).

Definition closed (f : QnxFd) : QnxFd :=
  mkQnxFd (m_fd f) (m_nid f) (m_pid f) (m_vid f) (m_flags f) (m_handle f) false (m_path f)
    (-1) false (m_filter f).

Definition set_host_dir (f : QnxFd) : QnxFd :=
  mkQnxFd (m_fd f) (m_nid f) (m_pid f) (m_vid f) (m_flags f) (m_handle f) (m_open f) (m_path f)
    (m_host_fd f) true (m_filter f).

Definition check_open (f : QnxFd) : outcome unit := check (m_open f) BadFdException.

Section QnxFd.
Context {K : Type} `{FK : FdKernel K}.

(** The methods work on the object and the kernel. *)
Definition cloexec : M (QnxFd * K) unit := fun '(f, k) =>
  if is_close_on_exec f then
    let '(k, r) := k_set_cloexec (m_host_fd f) k in
    if r <? 0 then ((f, k), Throw (SystemError (k_errno k))) else ((f, k), Ok ())
  else ((f, k), Ok ()).

Definition assign_fd (tmp_fd : Z) : M (QnxFd * K) bool := fun '(f, k) =>
  if m_open f then ((f, k), Throw AssertFailed)
  else
    let '(k, final_fd) := if negb (tmp_fd =? m_fd f) then k_dup2 tmp_fd (m_fd f) k else (k, tmp_fd) in
    if negb (tmp_fd =? m_fd f) && negb (valid final_fd) then ((f, k), Ok false)
    else
      let '(st, r) := cloexec (opened final_fd f, k) in
      (st, match r with Ok _ => Ok true | Throw e => Throw e end).

Definition close : M (QnxFd * K) bool := fun '(f, k) =>
  if negb (m_open f) then ((f, k), Throw AssertFailed)
  else
    let '(k, r) := if m_host_dir f then k_closedir (m_host_fd f) k else k_close (m_host_fd f) k in
    ((closed f, k), Ok (negb (r <? 0))).

(** [QnxFd::~QnxFd]. *)
Definition destroy : M (QnxFd * K) unit :=
  '(f, _) ← get; if m_open f then _ ← close; mret () else mret ().

Definition prepare_dir : M (QnxFd * K) bool := fun '(f, k) =>
  if m_host_dir f then ((f, k), Ok true)
  else
    let '(k, ok) := k_fdopendir (m_host_fd f) k in
    ((if ok then set_host_dir f else f, k), Ok ok).
End QnxFd.

(** ** [FdMap] *)

Definition FdMap : Type := IdMap QnxFd.
Definition FdMap_new : FdMap := new (1024 * 16).

Definition get_attached_fd (m : FdMap) (fdi : Z) : outcome QnxFd :=
  match at_ m (Z.to_nat fdi) with None => Throw BadFdException | Some f => Ok f end.

Definition get_open_fd (m : FdMap) (fdi : Z) : outcome QnxFd :=
  f ← get_attached_fd m fdi; _ ← check_open f; Ok f.

(** No check at all: the number is handed back. *)
Definition get_host_fd (m : FdMap) (fdi : Z) : Z := fdi.

(** [m_fds[INVAL]] is out of the vector. *)
Definition fd_query (m : FdMap) (start : Z) : option QnxFd :=
  match search m (Z.to_nat start) true with None => None | Some i => at_ m i end.

Definition qnx_fd_attach (first_fd nid pid vid flags : Z) : M FdMap (option QnxFd) :=
  alloc_starting_at (Z.to_nat first_fd)
    (fun fd => Ok (QnxFd_new (u16 (Z.of_nat fd)) nid pid vid flags)).

Definition qnx_fd_detach (fd : Z) (m : FdMap) : FdMap * bool :=
  (fst (free m (Z.to_nat fd)), is_used (at_ m (Z.to_nat fd))).

(** Writing through the [QnxFd*] of a slot. *)
Definition update_fd (fd : Z) (g : QnxFd -> QnxFd) (m : FdMap) : FdMap :=
  mkIdMap (m_max m) (alter (fmap g) (Z.to_nat fd) (m_data m)).

(** [entries]: the names of /proc/self/fd as numbers, without "." and "..". *)
Fixpoint scan_host_fds (entries : list Z) (scan_fd nid pid vid : Z) : M FdMap unit :=
  match entries with
  | [] => mret ()
  | fd :: entries =>
      if fd =? scan_fd then scan_host_fds entries scan_fd nid pid vid
      else
        fdi ← alloc_exactly_at (Z.to_nat fd)
                (fun fd => Ok (QnxFd_new (u16 (Z.of_nat fd)) nid pid vid 0));
        _ ← modify (update_fd fd (opened (m_fd fdi)));
        scan_host_fds entries scan_fd nid pid vid
  end.

(** ** [assign_fds] *)

Section Assign.
Context {K : Type} `{FK : FdKernel K}.

(** The locals of the function: the caller's [UniqueFd] array and
    [fd_to_index]; the objects to open are [to]. *)
Record Assign := mkAssign { host_fds : list Z; fd_to_index : gmap Z nat; a_k : K }.

(** The log call and [fd_to_index[to.get()]] come after [to] was moved from. *)
Definition host_fd_moved (index : nat) (to : Z) : M Assign unit := fun st =>
  match host_fds st !! index with
  | None => (st, Throw (Undefined "host_fds index"))
  | Some from =>
      let '(v, k) := unique_assign from to (a_k st) in
      let to_get := -1 in
      (mkAssign (<[index := v]> (host_fds st))
         (<[to_get := index]> (delete from (fd_to_index st))) k, Ok ())
  end.

(** [it->first] is the descriptor, not its index. *)
Definition realloc_fd (host_fd : Z) : M Assign bool := fun st =>
  match fd_to_index st !! host_fd with
  | None => (st, Ok true)
  | Some _ =>
      let '(k, new_fd) := k_dup host_fd (a_k st) in
      let st := mkAssign (host_fds st) (fd_to_index st) k in
      if negb (valid new_fd) then (st, Ok false)
      else (_ ← host_fd_moved (Z.to_nat host_fd) new_fd; mret true) st
  end.

Fixpoint assign_loop (i : nat) (to : list QnxFd) : M Assign bool :=
  match to with
  | [] => mret true
  | fd :: to =>
      st ← get;
      if m_fd fd =? host_fds st !!! i then
        _ ← modify (fun st => mkAssign (host_fds st) (delete (m_host_fd fd) (fd_to_index st)) (a_k st));
        assign_loop (S i) to
      else
        ok ← realloc_fd (m_fd fd);
        if negb ok then mret false
        else
          st ← get;
          let '(k, new_fd) := k_dup2 (host_fds st !!! i) (m_fd fd) (a_k st) in
          _ ← put (mkAssign (host_fds st) (fd_to_index st) k);
          if negb (valid new_fd) then mret false
          else
            _ ← host_fd_moved i new_fd;
            assign_loop (S i) to
  end.

(** Releasing the host descriptors to the objects. *)
Fixpoint release_loop (i : nat) (to : list QnxFd) : M Assign (list QnxFd) :=
  match to with
  | [] => mret []
  | fd :: to =>
      st ← get;
      let '((fd, k), r) := cloexec (opened (host_fds st !!! i) fd, a_k st) in
      _ ← put (mkAssign (<[i := -1]> (host_fds st)) (fd_to_index st) k);
      _ ← lift r;
      rest ← release_loop (S i) to;
      mret (fd :: rest)
  end.

Fixpoint index_fds (i : nat) (l : list Z) : gmap Z nat :=
  match l with
  | [] => ∅
  | fd :: l => let m := index_fds (S i) l in if decide (is_Some (m !! fd)) then m else <[fd := i]> m
  end.

(** [None] is the [false] of the code. *)
Definition assign_fds (to : list QnxFd) (fds : list Z) (k : K)
  : Assign * outcome (option (list QnxFd)) :=
  (ok ← assign_loop 0 to;
   if ok : bool then l ← release_loop 0 to; mret (Some l) else mret None)
    (mkAssign fds (index_fds 0 fds) k).
End Assign.
Arguments Assign K : clear implicits.

(** ** Facts *)

Section Facts.
Context {K : Type} `{FK : FdKernel K} {L : FdKernelLaws K}.

Lemma cloexec_inv f k st r :
  cloexec (f, k) = (st, r) -> fst st = f /\ k_file (snd st) = k_file k /\
    (r = Ok () \/ exists e, r = Throw (SystemError e) /\ is_close_on_exec f = true).
Proof.
  unfold cloexec. destruct (is_close_on_exec f) eqn:Ec; [|intros [= <- <-]; auto].
  destruct (k_set_cloexec (m_host_fd f) k) as [k' x] eqn:Es. apply cloexec_law in Es.
  destruct (x <? 0); intros [= <- <-]; simpl; eauto 10.
Qed.

(** A destroyed object is closed, and nothing fails. *)
Lemma destroy_closed f k : exists f' k', destroy (f, k) = ((f', k'), Ok ()) /\ m_open f' = false.
Proof.
  unfold destroy, get, mbind, M_bind. destruct (m_open f) eqn:E; [|by exists f, k].
  unfold close. rewrite E. simpl. destruct (if m_host_dir f then _ else _) as [k' r]. by eexists _, _.
Qed.

(** [dup2] that answers a valid descriptor has copied the file. *)
Lemma dup2_ok old new k k' r :
  k_dup2 old new k = (k', r) -> valid r = true -> 
  r = new /\ forall fd, k_file k' fd = if decide (fd = new) then k_file k old else k_file k fd.
Proof.
  unfold valid. intros H Hv. to_prop. destruct (dup2_law _ _ _ _ _ H) as [[? _]|?]; [lia|done].
Qed.

Lemma index_fds_dom i l fd : is_Some (index_fds i l !! fd) -> fd ∈ l.
Proof.
  revert i. induction l as [|x l IH]; intros i; simpl.
  - rewrite lookup_empty. by intros [? ?].
  - case_decide as Hd.
    + intros H. right. by eapply IH.
    + rewrite lookup_insert. case_decide as Hx; [subst; intros _; by left|].
      intros H. right. by eapply IH.
Qed.

Lemma index_fds_in i l fd : fd ∈ l -> is_Some (index_fds i l !! fd).
Proof.
  revert i. induction l as [|x l IH]; intros i; simpl; [by rewrite elem_of_nil|].
  intros [-> |H]%elem_of_cons.
  - case_decide; [done|]. by rewrite lookup_insert_eq.
  - case_decide; [by apply IH|]. rewrite lookup_insert. case_decide; [done|]. by apply IH.
Qed.

(** The state of [assign_loop] before round [i], for targets [to] whose numbers
    do not clash with the descriptors [fds]. *)
Definition assigned (file0 : Z -> option nat) (to fds : list Z) (i : nat) (st : Assign K) : Prop :=
  length (host_fds st) = length fds /\
  (forall fd, is_Some (fd_to_index st !! fd) -> fd = -1 \/ fd ∈ fds) /\
  (forall j t d, to !! j = Some t -> fds !! j = Some d ->
     (j < i)%nat -> host_fds st !! j = Some t /\ k_file (a_k st) t = file0 d) /\
  (forall j d, fds !! j = Some d -> (i <= j)%nat ->
     host_fds st !! j = Some d /\ k_file (a_k st) d = file0 d).

Definition no_clash (to fds : list Z) : Prop :=
  length to = length fds /\ NoDup to /\ NoDup fds /\ Forall (fun t => 0 <= t) to /\
  forall i j t, to !! i = Some t -> fds !! j = Some t -> i = j.

Lemma assigned_step file0 to fds i st t d k new :
  no_clash to fds -> assigned file0 to fds i st ->
  to !! i = Some t -> fds !! i = Some d -> t <> d ->
  k_dup2 d t (a_k st) = (k, new) -> valid new = true ->
  let st1 := mkAssign (host_fds st) (fd_to_index st) k in
  exists st', host_fd_moved i new st1 = (st', Ok ()) /\ assigned file0 to fds (S i) st'.
Proof.
  intros (Hlen & Hnt & Hnf & Hpos & Hcl) (Hl & Hidx & Hdone & Htodo) Ht Hd Hne Hdup Hv st1.
  destruct (dup2_ok _ _ _ _ _ Hdup Hv) as [-> Hfile].
  destruct (Htodo i d Hd (Nat.le_refl i)) as [Hhi Hfd].
  unfold host_fd_moved. simpl. rewrite Hhi. unfold unique_assign, unique_close.
  assert (Hclose : forall k2, (0 < d -> k2 = fst (k_close d k)) -> (d <= 0 -> k2 = k) ->
    forall x, x <> d -> k_file k2 x = k_file k x).
  { intros k2 H1 H2 x Hx. destruct (decide (0 < d)) as [Hp|Hp]; [|by rewrite H2 by lia].
    rewrite H1 by done. destruct (k_close d k) as [k3 r] eqn:E. by rewrite (close_law _ _ _ _ E). }
  assert (Hk2 : exists k2, (if 0 <? d then (-1, fst (k_close d k)) else (d, k)) =
    (if 0 <? d then -1 else d, k2) /\ (0 < d -> k2 = fst (k_close d k)) /\ (d <= 0 -> k2 = k)).
  { destruct (Z.ltb_spec 0 d); eexists; split; try reflexivity; split; done || lia. }
  destruct Hk2 as (k2 & -> & Hk2a & Hk2b). specialize (Hclose k2 Hk2a Hk2b).
  eexists. split; [reflexivity|]. unfold assigned. simpl.
  assert (Hlt : (i < length (host_fds st))%nat) by (by eapply lookup_lt_Some).
  split; [by rewrite length_insert|]. split; [|split].
  - intros fd. rewrite lookup_insert. case_decide as Hx; [by left|].
    rewrite lookup_delete. case_decide; [by intros [? ?]|]. apply Hidx.
  - intros j t' d' Ht' Hd' Hj. destruct (decide (j = i)) as [-> |Hji].
    + rewrite Ht in Ht'. injection Ht' as <-. rewrite Hd in Hd'. injection Hd' as <-.
      rewrite list_lookup_insert_eq by done. split; [done|].
      rewrite Hclose by done. by rewrite Hfile, decide_True.
    + rewrite list_lookup_insert_ne by done.
      destruct (Hdone j t' d' Ht' Hd') as [H1 H2]; [lia|]. split; [done|].
      assert (t' <> d) by (intros ->; by pose proof (Hcl _ _ _ Ht' Hd)).
      assert (t' <> t) by (intros ->; by pose proof (NoDup_lookup _ _ _ _ Hnt Ht' Ht)).
      rewrite Hclose by done. by rewrite Hfile, decide_False.
  - intros j d' Hd' Hj. rewrite list_lookup_insert_ne by lia.
    destruct (Htodo j d' Hd') as [H1 H2]; [lia|]. split; [done|].
    assert (d' <> d) by (intros ->; pose proof (NoDup_lookup _ _ _ _ Hnf Hd' Hd); lia).
    assert (d' <> t) by (intros ->; pose proof (Hcl _ _ _ Ht Hd'); lia).
    rewrite Hclose by done. by rewrite Hfile, decide_False.
Qed.

(** The kernel refused to copy one of [fds] to its target. *)
Definition refused (to fds : list Z) : Prop :=
  exists j t d k, to !! j = Some t /\ fds !! j = Some d /\ valid (snd (k_dup2 d t k)) = false.

Lemma assign_loop_spec file0 to fds : forall to' i st,
  no_clash (m_fd <$> to) fds ->
  assigned file0 (m_fd <$> to) fds i st -> drop i to = to' ->
  exists st' b, assign_loop i to' st = (st', Ok b) /\
    (if b : bool then assigned file0 (m_fd <$> to) fds (length to) st'
     else refused (m_fd <$> to) fds).
Proof.
  induction to' as [|fd to' IH]; intros i st Hnc Hst Hdrop; cbn [assign_loop].
  - exists st, true. split; [done|].
    assert (length to <= i)%nat.
    { pose proof (length_drop to i) as Hl. rewrite Hdrop in Hl. simpl in Hl. lia. }
    destruct Hst as (Hl & Hidx & Hdone & Htodo). split; [done|]. split; [done|]. split.
    + intros j t d Ht Hd Hj. apply (Hdone j t d Ht Hd). lia.
    + intros j d Hd Hj. destruct Hnc as (Hlen & _). rewrite length_fmap in Hlen.
      apply lookup_lt_Some in Hd. lia.
  - assert (Hi : to !! i = Some fd).
    { rewrite <- (Nat.add_0_r i), <- lookup_drop, Hdrop. done. }
    assert (Ht : (m_fd <$> to) !! i = Some (m_fd fd)) by by rewrite list_lookup_fmap, Hi.
    assert (Hnext : drop (S i) to = to').
    { replace (S i) with (i + 1)%nat by lia. rewrite <- drop_drop, Hdrop. done. }
    pose proof Hnc as (Hlen & Hnt & Hnf & Hpos & Hcl). rewrite length_fmap in Hlen.
    destruct (lookup_lt_is_Some_2 fds i) as [d Hd]; [apply lookup_lt_Some in Hi; lia|].
    pose proof Hst as (Hl & Hidx & Hdone & Htodo).
    destruct (Htodo i d Hd (Nat.le_refl i)) as [Hhi Hfd].
    assert (Hnth : host_fds st !!! i = d) by (by apply list_lookup_total_correct).
    unfold get, modify, put, mbind, M_bind. rewrite Hnth.
    destruct (Z.eqb_spec (m_fd fd) d) as [He|Hne].
    + apply (IH (S i)); [done| |done]. split; [done|]. split; [|split].
      * intros x. simpl. rewrite lookup_delete. case_decide; [by intros [? ?]|]. apply Hidx.
      * intros j t' d' Ht' Hd' Hj. simpl. destruct (decide (j = i)) as [-> |].
        -- rewrite Ht in Ht'. injection Ht' as <-. rewrite Hd in Hd'. injection Hd' as <-.
           rewrite He. done.
        -- apply (Hdone j t' d'); [done|done|lia].
      * intros j d' Hd' Hj. apply Htodo; [done|lia].
    + assert (Hnone : fd_to_index st !! m_fd fd = None).
      { destruct (fd_to_index st !! m_fd fd) as [x|] eqn:E; [|done]. exfalso.
        destruct (Hidx (m_fd fd)) as [Hm|Hin]; [by rewrite E| |].
        - assert (0 <= m_fd fd) by exact (Forall_lookup_1 _ _ _ _ Hpos Ht). lia.
        - apply list_elem_of_lookup_1 in Hin as [j Hj]. pose proof (Hcl _ _ _ Ht Hj). subst j.
          congruence. }
      unfold realloc_fd. rewrite Hnone. cbn [negb]. rewrite Hnth.
      destruct (k_dup2 d (m_fd fd) (a_k st)) as [k new] eqn:Edup.
      destruct (valid new) eqn:Ev; cbn [negb].
      2: { eexists _, false. split; [done|]. exists i, (m_fd fd), d, (a_k st). by rewrite Edup. }
      destruct (assigned_step _ _ _ _ _ _ _ _ _ Hnc Hst Ht Hd Hne Edup Ev) as (st' & Hm & Hst').
      simpl in Hm. rewrite Hm. by apply (IH (S i)).
Qed.
End Facts.

Section Release.
Context {K : Type} `{FK : FdKernel K} {L : FdKernelLaws K}.

(** Handing the descriptors over when every array entry has its target number. *)
Lemma release_loop_spec (file : Z -> option nat) : forall to i (st : Assign K),
  (forall j f, to !! j = Some f -> host_fds st !! (i + j)%nat = Some (m_fd f)) ->
  (forall x, k_file (a_k st) x = file x) ->
  exists st' r, release_loop i to st = (st', r) /\
    (forall x, k_file (a_k st') x = file x) /\
    match r with
    | Ok l => l = (fun f => opened (m_fd f) f) <$> to
    | Throw e => exists n, e = SystemError n /\ Exists (fun f => is_close_on_exec f = true) to
    end.
Proof.
  induction to as [|f to IH]; intros i st Hh Hfile; cbn [release_loop].
  - exists st, (Ok []). split; [done|]. done.
  - assert (Hi : host_fds st !!! i = m_fd f).
    { apply list_lookup_total_correct. specialize (Hh 0%nat f eq_refl). by rewrite Nat.add_0_r in Hh. }
    unfold get, put, lift, mbind, M_bind. rewrite Hi.
    destruct (cloexec (opened (m_fd f) f, a_k st)) as [[f1 k1] r1] eqn:Ec.
    apply cloexec_inv in Ec as (Hf1 & Hk1 & Hr1). simpl in Hf1, Hk1. subst f1.
    destruct Hr1 as [-> |(e & -> & Hce)].
    + destruct (IH (S i) (mkAssign (<[i := -1]> (host_fds st)) (fd_to_index st) k1))
        as (st' & r & -> & Hf' & Hr).
      * intros j g Hj. simpl. rewrite list_lookup_insert_ne by lia.
        specialize (Hh (S j) g Hj). by rewrite Nat.add_succ_r in Hh.
      * intros x. simpl. by rewrite Hk1.
      * destruct r as [l|e]; do 2 eexists; (split; [reflexivity|]); (split; [exact Hf'|]).
        -- by rewrite Hr.
        -- destruct Hr as (n & -> & Hx). exists n. split; [done|]. by right.
    + do 2 eexists. split; [reflexivity|]. split; [intros x; simpl; by rewrite Hk1|].
      exists e. split; [done|]. by left.
Qed.
End Release.

(** ** Properties *)

(** Opening a descriptor: exactly when the host descriptor could be brought
    to the guest's number, the object is open on that number, with the file
    the caller provided behind it; otherwise it stays closed and the host table
    is as it was.  Opening an open descriptor is refused by an assertion;
    closing the opened one always leaves it closed. *)
Theorem assign_fd_spec (K : Type) (FK : FdKernel K) (L : FdKernelLaws K) f k tmp st r :
  0 <= m_fd f -> assign_fd tmp (f, k) = (st, r) ->
  (m_open f = true -> r = Throw AssertFailed /\ st = (f, k)) /\
  (m_open f = false ->
     (r = Ok false <-> tmp <> m_fd f /\ valid (snd (k_dup2 tmp (m_fd f) k)) = false) /\
     (r = Ok false -> fst st = f /\ k_file (snd st) = k_file k) /\
     (r <> Ok false -> fst st = opened (m_fd f) f /\
        k_file (snd st) (m_fd f) = k_file k tmp /\
        (is_close_on_exec f = false -> r = Ok true) /\
        (forall st' r', close st = (st', r') -> m_open (fst st') = false /\ m_host_fd (fst st') = -1 /\
           exists b, r' = Ok b))).
Proof.
  intros Hpos Hrun. split; intros Ho; unfold assign_fd in Hrun; rewrite Ho in Hrun.
  { by injection Hrun as <- <-. }
  assert (Hopen : forall k1, k_file k1 (m_fd f) = k_file k tmp ->
    (let '(st, r) := cloexec (opened (m_fd f) f, k1) in
     (st, match r with Ok _ => Ok true | Throw e => Throw e end)) = (st, r) ->
    r <> Ok false /\ fst st = opened (m_fd f) f /\
    k_file (snd st) (m_fd f) = k_file k tmp /\ (is_close_on_exec f = false -> r = Ok true) /\
    (forall st' r', close st = (st', r') -> m_open (fst st') = false /\ m_host_fd (fst st') = -1 /\
       exists b, r' = Ok b)).
  { intros k1 Hk1 H. destruct (cloexec (opened (m_fd f) f, k1)) as [[f1 k2] rc] eqn:Ec.
    apply cloexec_inv in Ec as (Hf & Hk & Hr). simpl in Hf, Hk. subst f1.
    injection H as <- <-. simpl. rewrite Hk. split.
    { destruct Hr as [-> |(e & -> & _)]; done. }
    split; [done|]. split; [done|]. split.
    - destruct Hr as [-> |(e & -> & Hce)]; [done|]. intros Hn. change (is_close_on_exec f = true) in Hce. congruence.
    - intros st' r'. unfold close. simpl. destruct (if m_host_dir f then _ else _) as [k3 x].
      intros [= <- <-]. simpl. eauto. }
  destruct (Z.eqb_spec tmp (m_fd f)) as [-> |Hne]; simpl in Hrun.
  - destruct (Hopen k eq_refl Hrun) as (Hn & Hrest). split; [by split; [intros ->|intros [[] _]]|].
    split; [done|]. intros _. exact Hrest.
  - destruct (k_dup2 tmp (m_fd f) k) as [k1 fin] eqn:Ed. destruct (valid fin) eqn:Ev; simpl in Hrun.
    + destruct (dup2_ok _ _ _ _ _ Ed Ev) as [-> Hfile].
      destruct (Hopen k1) as (Hn & Hrest); [by rewrite Hfile, decide_True|done|].
      split; [by split; [intros ->|intros [_ Hf]; cbn [snd] in Hf; congruence]|].
      split; [done|]. intros _. exact Hrest.
    + injection Hrun as <- <-. split; [done|]. split; [|done]. intros _. split; [done|]. simpl.
      destruct (dup2_law _ _ _ _ _ Ed) as [[_ ->]|[-> _]]; [done|].
      unfold valid in Ev. to_prop. lia.
Qed.

(** A host table with 16 descriptors in use or not, all calls as documented. *)
#[local] Instance demo_kernel : FdKernel (gmap Z nat) := {|
  k_dup fd k := match k !! fd with Some x => (<[9 := x]> k, 9) | None => (k, -1) end;
  k_dup2 old new k := match k !! old with Some x => (<[new := x]> k, new) | None => (k, -1) end;
  k_close fd k := (delete fd k, 0);
  k_closedir fd k := (delete fd k, 0);
  k_fdopendir fd k := (k, true);
  k_set_cloexec fd k := (k, 0);
  k_errno k := 9;
  k_file k fd := k !! fd |}.

#[local] Instance demo_kernel_laws : FdKernelLaws (gmap Z nat).
Proof.
  constructor.
  - intros old new k k' r. simpl. destruct (k !! old) as [x|] eqn:E; intros [= <- <-]; [|by left].
    right. split; [done|]. intros fd. rewrite lookup_insert.
    destruct (decide (new = fd)), (decide (fd = new)); congruence.
  - intros fd0 k k' r. simpl. intros [= <- <-] fd Hne. by rewrite lookup_delete_ne by congruence.
  - intros fd k k' r. simpl. by intros [= <- <-].
Qed.

Lemma assign_fd_spec_witness :
  let k : gmap Z nat := {[ 7 := 70%nat ]} in
  let f := QnxFd_new 5 0 1 1 64 in
  let '(st, r) := assign_fd 7 (f, k) in
  0 <= m_fd f /\ r = Ok true /\ fst st = opened 5 f /\ k_file (snd st) 5 = Some 70%nat.
Proof.
  intros k f. destruct (assign_fd 7 (f, k)) as [st r] eqn:E.
  destruct (assign_fd_spec _ demo_kernel demo_kernel_laws f k 7 st r ltac:(simpl; lia) E) as [_ H].
  specialize (H eq_refl). vm_compute in E. injection E as Est Er. subst r.
  destruct H as (_ & _ & H). destruct (H ltac:(discriminate)) as (H1 & H2 & _).
  split; [simpl; lia|]. split; [reflexivity|]. split; [exact H1|exact H2].
Defined.

(** C31. Opening several descriptors at once, when no target number is in use by
    another of the given host descriptors: every guest descriptor is open on its
    own number with its own file, unless the kernel refuses to copy a descriptor
    ([false], the code's error return) or to set the close-on-exec flag. *)
Theorem assign_fds_spec (K : Type) (FK : FdKernel K) (L : FdKernelLaws K) to fds k :
  no_clash (m_fd <$> to) fds ->
  exists st r, assign_fds to fds k = (st, r) /\
    match r with
    | Ok (Some l) => l = (fun f => opened (m_fd f) f) <$> to /\
        (forall i f d, to !! i = Some f -> fds !! i = Some d ->
           k_file (a_k st) (m_fd f) = k_file k d)
    | Ok None => refused (m_fd <$> to) fds
    | Throw e => exists n, e = SystemError n /\ Exists (fun f => is_close_on_exec f = true) to
    end.
Proof.
  intros Hnc. unfold assign_fds, mbind, M_bind.
  destruct (assign_loop_spec (k_file k) to fds to 0 (mkAssign fds (index_fds 0 fds) k) Hnc)
    as (st & b & Hl & Hb); [|done|].
  { split; [done|]. split; [intros fd H; right; by eapply index_fds_dom|].
    split; [lia|]. done. }
  rewrite Hl. destruct b; [|by exists st, (Ok None)]. destruct Hb as (Hlen & _ & Hdone & _).
  assert (Hall : forall j f, to !! j = Some f -> exists d, fds !! j = Some d /\
    host_fds st !! j = Some (m_fd f) /\ k_file (a_k st) (m_fd f) = k_file k d).
  { intros j f Hj. pose proof Hnc as (Hn & _). rewrite length_fmap in Hn.
    pose proof (lookup_lt_Some _ _ _ Hj) as Hlt.
    destruct (lookup_lt_is_Some_2 fds j) as [d Hd]; [lia|]. exists d. split; [done|].
    apply (Hdone j (m_fd f) d); [by rewrite list_lookup_fmap, Hj|done|lia]. }
  destruct (release_loop_spec (k_file (a_k st)) to 0 st) as (st' & r & -> & Hf & Hr); [|done|].
  { intros j f Hj. by destruct (Hall j f Hj) as (d & _ & ? & _). }
  destruct r as [l|e]; do 2 eexists; (split; [reflexivity|]); [|done].
  split; [done|]. intros i f d Hi Hd. rewrite Hf.
  destruct (Hall i f Hi) as (d' & Hd' & _ & ->). congruence.
Qed.

Lemma assign_fds_spec_witness :
  let to := [QnxFd_new 3 0 1 1 0; QnxFd_new 4 0 1 1 0] in
  let k : gmap Z nat := {[ 6 := 60%nat; 7 := 70%nat ]} in
  no_clash (m_fd <$> to) [6; 7] /\
  let '(st, r) := assign_fds to [6; 7] k in
  r = Ok (Some [opened 3 (QnxFd_new 3 0 1 1 0); opened 4 (QnxFd_new 4 0 1 1 0)]) /\
  k_file (a_k st) 3 = Some 60%nat /\ k_file (a_k st) 4 = Some 70%nat.
Proof.
  intros to k.
  assert (Hnc : no_clash (m_fd <$> to) [6; 7]).
  { split; [reflexivity|]. split; [apply (bool_decide_eq_true (NoDup _)); reflexivity|].
    split; [apply (bool_decide_eq_true (NoDup _)); reflexivity|].
    split; [repeat constructor; simpl; lia|].
    intros [|[|i]] [|[|j]] t Hi Hj; vm_compute in Hi, Hj; congruence. }
  split; [exact Hnc|].
  destruct (assign_fds_spec _ demo_kernel demo_kernel_laws to [6; 7] k Hnc) as (st & r & E & H).
  rewrite E. assert (Hr : snd (assign_fds to [6; 7] k) =
    Ok (Some [opened 3 (QnxFd_new 3 0 1 1 0); opened 4 (QnxFd_new 4 0 1 1 0)])) by (vm_compute; reflexivity).
  rewrite E in Hr. simpl in Hr. subst r. destruct H as [_ Hf].
  split; [reflexivity|]. split.
  - exact (Hf 0%nat _ 6 eq_refl eq_refl).
  - exact (Hf 1%nat _ 7 eq_refl eq_refl).
Defined.

(** When the first target's number is in use by a later one of the given
    host descriptors - the very case the renumbering is for - the descriptor is
    used as an index: with fewer entries than that the array is overrun. *)
Theorem assign_fds_clash (K : Type) (FK : FdKernel K) (L : FdKernelLaws K) f to d fds k k' n :
  m_fd f <> d -> m_fd f ∈ fds -> Z.of_nat (length (d :: fds)) <= m_fd f ->
  k_dup (m_fd f) k = (k', n) -> valid n = true ->
  snd (assign_fds (f :: to) (d :: fds) k) = Throw (Undefined "host_fds index").
Proof.
  intros Hne Hin Hlen Hdup Hv. unfold assign_fds, mbind, M_bind. cbn [assign_loop].
  unfold get, mbind, M_bind. cbn [host_fds]. change ((d :: fds) !!! 0%nat) with d.
  destruct (Z.eqb_spec (m_fd f) d) as [|_]; [done|].
  unfold realloc_fd. cbn [fd_to_index].
  destruct (index_fds_in 0 (d :: fds) (m_fd f)) as [x Hx]; [by right|].
  rewrite Hx. cbn [a_k]. rewrite Hdup, Hv. cbn [negb]. unfold mbind, M_bind, host_fd_moved.
  cbn [host_fds]. rewrite lookup_ge_None_2 by lia. done.
Qed.

(** The two ends of a pipe, the read end landing on the write end's number. *)
Lemma assign_fds_clash_witness :
  let k : gmap Z nat := {[ 5 := 50%nat; 3 := 30%nat ]} in
  snd (assign_fds [QnxFd_new 3 0 1 1 0; QnxFd_new 4 0 1 1 0] [5; 3] k) =
    Throw (Undefined "host_fds index").
Proof.
  intros k.
  refine (assign_fds_clash _ demo_kernel demo_kernel_laws (QnxFd_new 3 0 1 1 0) _ 5 [3] k _ _ _ _ _ _ _).
  - discriminate.
  - apply (bool_decide_eq_true (3 ∈ [3])). reflexivity.
  - simpl. lia.
  - reflexivity.
  - reflexivity.
Defined.
