(* ===== verification/Loader.v ===== *)
(** * Loader: [loader.h], [loader_format.h], [loader.cpp]

    Loading a QNX executable: header, segment table, records, descriptors and
    relocations, for the flat and the segmented layout (the two implementations
    of [AbstractLoader]), and the "#!" line.  The file is its list of bytes with
    a position; [read] of a regular file is short only at its end. *)

From S2P Require Import Prelude Types Memory IdMap Segment AddressSpace PathMapper.

(** ** The format *)

Definition QNX_VERSION : Z := 400.
Definition LMF_HEADER_REC : Z := 0.
Definition LMF_LOAD_REC : Z := 2.
Definition LMF_FIXUP_REC : Z := 3.
Definition LMF_IMAGE_END_REC : Z := 5.
Definition LMF_RW_END_REC : Z := 7.
Definition LMF_LINEAR_FIXUP_REC : Z := 8.
Definition TCF_32BIT : Z := 2.
Definition TCF_FLAT : Z := 16.

Definition u8_at (o : nat) (bs : list Z) : Z := le_val (slice o 1 bs).
Definition u16_at (o : nat) (bs : list Z) : Z := le_val (slice o 2 bs).
Definition u32_at (o : nat) (bs : list Z) : Z := le_val (slice o 4 bs).

Record lmf_record := mkRecord { rec_type : Z; reserved : Z; data_nbytes : Z; spare : Z }.
Definition decode_record (bs : list Z) : lmf_record :=
  mkRecord (u8_at 0 bs) (u8_at 1 bs) (u16_at 2 bs) (u16_at 4 bs).
Definition sizeof_record : nat := 6.

Record lmf_header := mkHeader {
  version : Z; cflags : Z; cpu : Z; fpu : Z;
  code_index : Z; stack_index : Z; heap_index : Z; argv_index : Z;
  code_offset : Z; stack_nbytes : Z; heap_nbytes : Z; image_base : Z
}.
Definition decode_header (bs : list Z) : lmf_header :=
  mkHeader (u16_at 0 bs) (u16_at 2 bs) (u16_at 4 bs) (u16_at 6 bs)
    (u16_at 8 bs) (u16_at 10 bs) (u16_at 12 bs) (u16_at 14 bs)
    (u32_at 24 bs) (u32_at 28 bs) (u32_at 32 bs) (u32_at 36 bs).
Definition sizeof_header : nat := 48.

Record lmf_data := mkLmfData { ld_segment : Z; ld_offset : Z }.
Definition decode_data (bs : list Z) : lmf_data := mkLmfData (u16_at 0 bs) (u32_at 2 bs).
Definition sizeof_data : nat := 6.

Record qnx_reloc_item := mkReloc { r_segment : Z; r_reloc_offset : Z }.
Definition decode_reloc (bs : list Z) : qnx_reloc_item := mkReloc (u16_at 0 bs) (u32_at 2 bs).
Definition sizeof_reloc : nat := 6.

Record LoadInfo := mkLoadInfo {
  bits : Bitness; entry : Z; ss : Z; ds : Z; cs : Z;
  heap_start : Z; stack_low : Z; stack_size : Z
}.
Definition LoadInfo_new : LoadInfo := mkLoadInfo B32 0 0 0 0 0 0 0.

(** ** State *)

(** One segment of a flat image. *)
Record FlatSegment := mkFlatSegment { f_start : Z; f_size : Z; f_type : Access }.

(** The members of the two loaders; a [None] in [l_segs] is a null pointer. *)
Record LoaderState := mkLoaderState {
  l_pos : Z;
  l_space : Space;
  l_mem : Mem;
  l_info : LoadInfo;
  l_flats : list FlatSegment;
  l_segment_pos : Z;
  l_image_base : Z;
  l_flat_mem : option nat;
  l_segs : list (option nat)
}.

Definition set_pos (p : Z) (st : LoaderState) : LoaderState :=
  mkLoaderState p (l_space st) (l_mem st) (l_info st) (l_flats st) (l_segment_pos st)
    (l_image_base st) (l_flat_mem st) (l_segs st).
Definition set_space (sp : Space) (st : LoaderState) : LoaderState :=
  mkLoaderState (l_pos st) sp (l_mem st) (l_info st) (l_flats st) (l_segment_pos st)
    (l_image_base st) (l_flat_mem st) (l_segs st).
Definition set_mem (m : Mem) (st : LoaderState) : LoaderState :=
  mkLoaderState (l_pos st) (l_space st) m (l_info st) (l_flats st) (l_segment_pos st)
    (l_image_base st) (l_flat_mem st) (l_segs st).
Definition set_info (i : LoadInfo) (st : LoaderState) : LoaderState :=
  mkLoaderState (l_pos st) (l_space st) (l_mem st) i (l_flats st) (l_segment_pos st)
    (l_image_base st) (l_flat_mem st) (l_segs st).
Definition set_flats (l : list FlatSegment) (pos base : Z) (st : LoaderState) : LoaderState :=
  mkLoaderState (l_pos st) (l_space st) (l_mem st) (l_info st) l pos base (l_flat_mem st) (l_segs st).
Definition set_flat_mem (r : nat) (st : LoaderState) : LoaderState :=
  mkLoaderState (l_pos st) (l_space st) (l_mem st) (l_info st) (l_flats st) (l_segment_pos st)
    (l_image_base st) (Some r) (l_segs st).
Definition set_segs (l : list (option nat)) (st : LoaderState) : LoaderState :=
  mkLoaderState (l_pos st) (l_space st) (l_mem st) (l_info st) (l_flats st) (l_segment_pos st)
    (l_image_base st) (l_flat_mem st) l.

(** A [Process] operation on the address space. *)
Definition on_space {A} (op : M Space A) : M LoaderState A := fun st =>
  let '(sp, r) := op (l_space st) in (set_space sp st, r).

(** A method of the segment behind a [shared_ptr]. *)
Definition on_seg {A} (p : option nat) (op : M Segment A) : M LoaderState A := fun st =>
  match p ≫= (fun r => (fun s => (r, s)) <$> (segs (l_space st) !! r)) with
  | None => (st, Throw (Undefined "null segment"))
  | Some (r, s) =>
      let '(s', o) := op s in
      let sp := l_space st in
      (set_space (mkSpace (<[r := s']> (segs sp)) (next_seg sp) (m_segments sp)
                    (m_segment_descriptors sp) (ldt sp)) st, o)
  end.

(** [Segment::size()] and [Segment::pointer()]. *)
Definition seg_size (p : option nat) : M LoaderState Z := on_seg p (gets size).
Definition seg_pointer (p : option nat) (off n : Z) : M LoaderState Z :=
  on_seg p (s ← get; lift (pointer s off n)).

Definition format_error {S A} (what : string) : M S A := throw (LoaderFormatException what).

(** ** The interface of the two loaders *)

Record AbstractLoader := {
  prepare_segments : nat -> M LoaderState unit;
  alloc_segment : nat -> Access -> Z -> M LoaderState unit;
  finalize_segments : M LoaderState unit;
  prepare_segment_load : lmf_data -> Z -> M LoaderState Z;
  finalize_loading : M LoaderState unit;
  get_segment : Z -> M LoaderState (option nat)
}.

Section Load.
Context (mmap : Z -> Z -> Z -> Z -> option Z) (mprotect : Z -> Z -> Z -> bool)
        (modify_ldt : user_desc -> bool).
Context (file : list Z).

(** ** [FlatLoader] *)

Definition flat_prepare (hdr : lmf_header) (n : nat) : M LoaderState unit :=
  let base := u32 (MemOps.align_page_up (image_base hdr)) in
  modify (set_flats (replicate n (mkFlatSegment 0 0 READ_WRITE)) base base).

Definition flat_alloc (id : nat) (access : Access) (size : Z) : M LoaderState unit :=
  modify (fun st =>
    set_flats
      (<[id := mkFlatSegment (l_segment_pos st) (u32 (MemOps.align_page_up size)) access]> (l_flats st))
      (u32 (l_segment_pos st + MemOps.align_page_up size)) (l_image_base st) st).

Definition flat_finalize_segments (hdr : lmf_header) : M LoaderState unit :=
  let m_stack := u32 (MemOps.align_page_up (stack_nbytes hdr)) in
  st ← get;
  if l_image_base st <? u32 (m_stack + MemOps.PAGE_SIZE) then format_error "stack does not fit"
  else
    let m_skip := u32 (l_image_base st - m_stack) in
    r ← on_space allocate_segment;
    _ ← modify (set_flat_mem r);
    let rw := Z.lor PROT_READ PROT_WRITE in
    _ ← on_seg (Some r) (reserve mmap (MemOps.mega 512));
    _ ← on_seg (Some r) (skip_paged m_skip);
    _ ← on_seg (Some r) (grow_paged mmap rw m_stack);
    _ ← on_seg (Some r) (grow_paged mmap rw (u32 (l_segment_pos st - l_image_base st)));
    heap_start ← seg_size (Some r);
    _ ← on_seg (Some r) (grow_paged mmap rw (heap_nbytes hdr));
    match l_flats st !! Z.to_nat (code_index hdr) with
    | None => throw (Undefined "code_index")
    | Some code =>
        modify (fun st => let i := l_info st in
          set_info (mkLoadInfo (bits i) (u32 (f_start code + code_offset hdr)) (ss i) (ds i) (cs i)
            (u32 heap_start) m_skip m_stack) st)
    end.

Fixpoint flat_protect (l : list FlatSegment) (p : option nat) : M LoaderState unit :=
  match l with
  | [] => mret ()
  | s :: l =>
      _ ← on_seg p (Segment.change_access mprotect (map_prot (f_type s)) (f_start s)
                      (MemOps.align_page_up (f_size s)));
      flat_protect l p
  end.

Definition flat_segment_load (ld : lmf_data) (data_size : Z) : M LoaderState Z :=
  st ← get;
  match l_flats st !! Z.to_nat (ld_segment ld) with
  | None => format_error "data: invalid segment"
  | Some s => seg_pointer (l_flat_mem st) (u32 (f_start s + ld_offset ld)) data_size
  end.

Definition FlatLoader (hdr : lmf_header) : AbstractLoader := {|
  prepare_segments := flat_prepare hdr;
  alloc_segment := flat_alloc;
  finalize_segments := flat_finalize_segments hdr;
  prepare_segment_load := flat_segment_load;
  finalize_loading := st ← get; flat_protect (l_flats st) (l_flat_mem st);
  get_segment := fun _ => gets l_flat_mem
|}.

(** ** [SegmentLoader] *)

Definition seg_reservation (hdr : lmf_header) (slib : bool) : Z :=
  if negb (has (cflags hdr) TCF_32BIT) then MemOps.kilo 64
  else if slib then MemOps.mega 4 else MemOps.mega 64.

Definition seg_alloc (hdr : lmf_header) (slib : bool) (id : nat) (access : Access) (size : Z)
  : M LoaderState unit :=
  r ← on_space allocate_segment;
  _ ← on_seg (Some r) (reserve mmap (seg_reservation hdr slib));
  _ ← on_seg (Some r) (grow_bytes mmap size);
  modify (fun st => set_segs (<[id := Some r]> (l_segs st)) st).

Definition seg_at (i : Z) : M LoaderState (option nat) :=
  st ← get;
  match l_segs st !! Z.to_nat i with
  | None => throw (Undefined "m_segments index")
  | Some p => mret p
  end.

Definition seg_finalize_segments (hdr : lmf_header) : M LoaderState unit :=
  st ← get;
  let n := Z.of_nat (length (l_segs st)) in
  if n <=? stack_index hdr then format_error "Stack index specifies invalid index"
  else if n <=? heap_index hdr then format_error "Stack index specifies invalid index"
  else
    stack_seg ← seg_at (stack_index hdr);
    stack_start ← seg_size stack_seg;
    _ ← on_seg stack_seg (grow_bytes_64capped mmap (stack_nbytes hdr));
    heap_seg ← seg_at (heap_index hdr);
    heap_start ← seg_size heap_seg;
    _ ← on_seg heap_seg (grow_bytes_64capped mmap (heap_nbytes hdr));
    modify (fun st => let i := l_info st in
      set_info (mkLoadInfo (bits i) (code_offset hdr) (ss i) (ds i) (cs i)
        (u32 heap_start) (u32 stack_start) (stack_nbytes hdr)) st).

Definition seg_segment_load (ld : lmf_data) (data_size : Z) : M LoaderState Z :=
  st ← get;
  match l_segs st !! Z.to_nat (ld_segment ld) with
  | None => format_error "data: invalid segment"
  | Some p => seg_pointer p (ld_offset ld) data_size
  end.

Definition SegmentLoader (hdr : lmf_header) (slib : bool) : AbstractLoader := {|
  prepare_segments := fun n => modify (set_segs (replicate n None));
  alloc_segment := seg_alloc hdr slib;
  finalize_segments := seg_finalize_segments hdr;
  prepare_segment_load := seg_segment_load;
  finalize_loading := mret ();
  get_segment := seg_at
|}.

(** ** [loader_load] *)

Definition checked_read (n : nat) : M LoaderState (list Z) := fun st =>
  let bs := slice (Z.to_nat (l_pos st)) n file in
  let st := set_pos (l_pos st + Z.of_nat (length bs)) st in
  if (length bs <? n)%nat then (st, Throw (LoaderFormatException "EOF")) else (st, Ok bs).

(** A [checked_read] into host memory: what was read is stored even when the
    file is too short. *)
Definition checked_read_to (dst : Z) (n : nat) : M LoaderState unit := fun st =>
  let bs := slice (Z.to_nat (l_pos st)) n file in
  let st := set_mem (store (l_mem st) dst bs) (set_pos (l_pos st + Z.of_nat (length bs)) st) in
  if (length bs <? n)%nat then (st, Throw (LoaderFormatException "EOF")) else (st, Ok ()).

Definition check_value (expected got : Z) : M LoaderState unit :=
  if expected =? got then mret () else format_error "loader value mismatch".

(** Header and checks: the header and the number of segments. *)
Definition load_header : M LoaderState (lmf_header * nat) :=
  bs ← checked_read (sizeof_record + sizeof_header);
  let rec := decode_record bs in
  let hdr := decode_header (drop sizeof_record bs) in
  if data_nbytes rec <? Z.of_nat sizeof_header then format_error "loader: declared header size too small"
  else
    _ ← check_value LMF_HEADER_REC (rec_type rec);
    _ ← check_value 0 (reserved rec);
    _ ← check_value 0 (spare rec);
    _ ← check_value QNX_VERSION (version hdr);
    _ ← modify (fun st => let i := l_info st in
          set_info (mkLoadInfo (if negb (has (cflags hdr) TCF_32BIT) then B16 else B32)
            (entry i) (ss i) (ds i) (cs i) (heap_start i) (stack_low i) (stack_size i)) st);
    if negb ((cpu hdr =? 386) || (cpu hdr =? 486) || (cpu hdr =? 286))
    then format_error "loader: unsupported cpu"
    else
      let tail := data_nbytes rec - Z.of_nat sizeof_header in
      if negb (tail mod 4 =? 0) then format_error "loader: unaligned header size"
      else mret (hdr, Z.to_nat (tail / 4)).

(** The segment table, [n] entries from [si]; the access modes. *)
Fixpoint load_segments (l : AbstractLoader) (si n : nat) : M LoaderState (list Access) :=
  match n with
  | O => mret []
  | S n =>
      bs ← checked_read 4;
      let seg_data := le_val bs in
      let size := Z.land seg_data 268435455 in
      let type := Access_of_Z (Z.shiftr seg_data 28) in
      _ ← alloc_segment l si type size;
      types ← load_segments l (S si) n;
      mret (type :: types)
  end.

Fixpoint decode_relocs (n : nat) (bs : list Z) : list qnx_reloc_item :=
  match n with
  | O => []
  | S n => decode_reloc bs :: decode_relocs n (drop sizeof_reloc bs)
  end.

(** One record: the relocations it adds. *)
Definition load_record (l : AbstractLoader) (rec : lmf_record) : M LoaderState (list qnx_reloc_item) :=
  if rec_type rec =? LMF_FIXUP_REC then
    let relocs := data_nbytes rec / Z.of_nat sizeof_reloc in
    if negb (relocs * Z.of_nat sizeof_reloc =? data_nbytes rec)
    then format_error "Unaligned relocation segment size"
    else
      bs ← checked_read (Z.to_nat relocs * sizeof_reloc);
      mret (decode_relocs (Z.to_nat relocs) bs)
  else if rec_type rec =? LMF_LINEAR_FIXUP_REC then format_error "loader: linear fixup rec unsupported"
  else if rec_type rec =? LMF_LOAD_REC then
    if data_nbytes rec <? Z.of_nat sizeof_data then format_error "loader: data: record too short"
    else
      hd ← checked_read sizeof_data;
      let data_size := data_nbytes rec - Z.of_nat sizeof_data in
      dst ← prepare_segment_load l (decode_data hd) data_size;
      _ ← checked_read_to dst (Z.to_nat data_size);
      mret []
  else
    (* LMF_RW_END_REC only clears a flag nobody reads *)
    _ ← modify (fun st => set_pos (l_pos st + data_nbytes rec) st);
    mret [].

Fixpoint load_records (fuel : nat) (l : AbstractLoader) : M LoaderState (list qnx_reloc_item) :=
  match fuel with
  | O => throw (Undefined "fuel")
  | S fuel =>
      bs ← checked_read sizeof_record;
      let rec := decode_record bs in
      relocs ← load_record l rec;
      if rec_type rec =? LMF_IMAGE_END_REC then mret relocs
      else rest ← load_records fuel l; mret (relocs ++ rest)
  end.

(** Descriptors for the segments from [si]; their selectors. *)
Fixpoint create_descriptors (l : AbstractLoader) (hdr : lmf_header) (si : Z) (types : list Access)
  : M LoaderState (list Z) :=
  match types with
  | [] => mret []
  | t :: types =>
      seg ← get_segment l si;
      st ← get;
      match seg with
      | None => throw (Undefined "null segment")
      | Some r =>
          sd ← on_space (create_segment_descriptor modify_ldt t r (bits (l_info st)));
          let sel := selector sd in
          _ ← modify (fun st => let i := l_info st in
                set_info (mkLoadInfo (bits i) (entry i)
                  (if stack_index hdr =? si then sel else ss i)
                  (if heap_index hdr =? si then sel else ds i)
                  (if code_index hdr =? si then sel else cs i)
                  (heap_start i) (stack_low i) (stack_size i)) st);
          sels ← create_descriptors l hdr (si + 1) types;
          mret (sel :: sels)
      end
  end.

Fixpoint relocate (l : AbstractLoader) (selectors : list Z) (relocs : list qnx_reloc_item)
  : M LoaderState unit :=
  match relocs with
  | [] => mret ()
  | r :: relocs =>
      seg ← get_segment l (r_segment r);
      what ← seg_pointer seg (r_reloc_offset r) 2;
      st ← get;
      let segment := u16 (Z.shiftr (Z.land (le_val (load (l_mem st) what 2)) (u32 (Z.lnot 7))) 3) in
      match selectors !! Z.to_nat segment with
      | None => format_error "relocation out of range"
      | Some value =>
          _ ← modify (fun st => set_mem (store (l_mem st) what (le_bytes 2 value)) st);
          relocate l selectors relocs
      end
  end.

Definition records_fuel : nat := length file + 1.

Definition loader_load (slib : bool) : M LoaderState unit :=
  '(hdr, n) ← load_header;
  let l := if has (cflags hdr) TCF_FLAT then FlatLoader hdr else SegmentLoader hdr slib in
  _ ← prepare_segments l n;
  types ← load_segments l 0 n;
  _ ← finalize_segments l;
  relocs ← load_records records_fuel l;
  _ ← finalize_loading l;
  selectors ← create_descriptors l hdr 0 types;
  relocate l selectors relocs.
End Load.

(** The state a load starts from. *)
Definition LoaderState_new (sp : Space) (mem : Mem) : LoaderState :=
  mkLoaderState 0 sp mem LoadInfo_new [] 0 0 None [].

(** ** [loader_check_interpreter] *)

Record InterpreterInfo := mkInterpreterInfo {
  has_interpreter : bool; interpreter : PathInfo; interpreter_args : cstring;
  original_executable : PathInfo
}.
Definition InterpreterInfo_new : InterpreterInfo := mkInterpreterInfo false PathInfo_new [] PathInfo_new.

(** <ctype.h> in the C locale. *)
Definition isspace (c : Z) : bool := (c =? 32) || ((9 <=? c) && (c <=? 13)).
Definition at_end (c : Z) : bool := (c =? 0) || (c =? 10).

(** [while (p(c) && !end()) c++] over the NUL-terminated buffer: what was passed
    and where [c] stands. *)
Fixpoint scan (p : Z -> bool) (buf : list Z) : list Z * list Z :=
  match buf with
  | [] => ([], [])
  | c :: rest =>
      if p c && negb (at_end c) then let '(a, b) := scan p rest in (c :: a, b) else ([], buf)
  end.

Definition interp_buf_size : nat := 1024.

Definition loader_check_interpreter (file : list Z) (out : InterpreterInfo) : outcome InterpreterInfo :=
  if (length file <? 2)%nat then Ok out
  else if negb ((file !!! 0%nat =? 35) && (file !!! 1%nat =? 33)) then Ok out
  else
    let buf := slice 2 (interp_buf_size - 1) file ++ [0] in
    let '(_, buf) := scan isspace buf in
    let '(interp, buf) := scan (fun c => negb (isspace c)) buf in
    let '(_, buf) := scan isspace buf in
    let '(args, _) := scan (fun _ => true) buf in
    match interp with
    | [] => Throw (LoaderFormatException "Invalid shebang")
    | _ => Ok (mkInterpreterInfo true (mk_qnx_path interp false) args (original_executable out))
    end.

(** ** Positions and termination *)

Definition out_of_fuel {A} (r : outcome A) : Prop := r = Throw (Undefined "fuel").

(** A computation that never runs out of fuel. *)
Definition fueled {S A} (m : M S A) : Prop := forall s s' r, m s = (s', r) -> ~ out_of_fuel r.

(** ... and never moves the file position back. *)
Definition forward {A} (m : M LoaderState A) : Prop :=
  forall st st' r, m st = (st', r) -> 0 <= l_pos st -> l_pos st <= l_pos st' /\ ~ out_of_fuel r.

Create HintDb forward.

Section Fueled.
Context {S A B : Type}.

Lemma fueled_ret (a : A) : fueled (S := S) (mret a).
Proof. intros s s' r [= <- <-]. discriminate. Qed.

Lemma fueled_throw e : e <> Undefined "fuel" -> fueled (S := S) (throw (A := A) e).
Proof. intros He s s' r [= <- <-] [= ->]. by apply He. Qed.

Lemma fueled_lift (o : outcome A) : ~ out_of_fuel o -> fueled (S := S) (lift o).
Proof. by intros He s s' r [= <- <-]. Qed.

Lemma fueled_bind (m : M S A) (f : A -> M S B) :
  fueled m -> (forall a, fueled (f a)) -> fueled (m ≫= f).
Proof.
  intros Hm Hf s s' r. unfold mbind, M_bind. destruct (m s) as [s1 [a|e]] eqn:E; intros H.
  - by apply (Hf a _ _ _ H).
  - injection H as <- <-. intros [= ->]. by apply (Hm _ _ _ E).
Qed.

Lemma fueled_get : fueled (get (S := S)).
Proof. intros s s' r [= <- <-]. discriminate. Qed.

Lemma fueled_gets (f : S -> A) : fueled (gets f).
Proof. intros s s' r [= <- <-]. discriminate. Qed.

Lemma fueled_put (x : S) : fueled (put x).
Proof. intros s s' r [= <- <-]. discriminate. Qed.

Lemma fueled_modify (f : S -> S) : fueled (modify f).
Proof. intros s s' r [= <- <-]. discriminate. Qed.
End Fueled.

Lemma fueled_check b e : e <> Undefined "fuel" -> ~ out_of_fuel (check b e).
Proof. intros He. destruct b; [discriminate|]. intros [= ->]. by apply He. Qed.

#[local] Hint Resolve fueled_ret fueled_get fueled_gets fueled_put fueled_modify : forward.

Lemma pointer_fueled s off n : ~ out_of_fuel (pointer s off n).
Proof.
  assert (Hp : forall bm n first ok, probe_pages bm first n ok <> Throw (Undefined "fuel")).
  { intros bm k. induction k as [|k IH]; intros first ok; simpl; [done|].
    destruct (bm !! first); [apply IH|discriminate]. }
  unfold out_of_fuel, pointer, check_bounds. destruct (negb _); simpl; [discriminate|].
  destruct (probe_pages _ _ _ _) as [b|e] eqn:E; simpl.
  - destruct b; simpl; discriminate.
  - intros [= ->]. by eapply Hp.
Qed.

#[local] Hint Resolve pointer_fueled : forward.

(** Walk through a computation; leaves the calls to other operations. *)
Ltac fueled_step :=
  repeat first
    [ solve [eauto with forward]
    | apply fueled_bind; [|intros]
    | apply fueled_throw; discriminate
    | apply fueled_lift
    | apply fueled_check; discriminate
    | match goal with |- fueled (match ?x with _ => _ end) => destruct x eqn:? end ].

Section SegmentFueled.
Context (mmap : Z -> Z -> Z -> Z -> option Z) (mprotect : Z -> Z -> Z -> bool).

Lemma grow_paged_internal_fueled prot n : fueled (grow_paged_internal mmap prot n).
Proof. unfold grow_paged_internal. fueled_step. Qed.
#[local] Hint Resolve grow_paged_internal_fueled : forward.

Lemma reserve_fueled n : fueled (reserve mmap n).
Proof. unfold reserve. fueled_step. Qed.

Lemma grow_paged_fueled prot n : fueled (grow_paged mmap prot n).
Proof. unfold grow_paged. fueled_step. Qed.

Lemma skip_paged_fueled n : fueled (skip_paged n).
Proof. unfold skip_paged. fueled_step. Qed.

Lemma grow_bytes_fueled n : fueled (grow_bytes mmap n).
Proof. unfold grow_bytes. fueled_step. Qed.
#[local] Hint Resolve grow_bytes_fueled : forward.

Lemma grow_bytes_64capped_fueled n : fueled (grow_bytes_64capped mmap n).
Proof. unfold grow_bytes_64capped. fueled_step. Qed.

Lemma change_access_fueled prot off n : fueled (Segment.change_access mprotect prot off n).
Proof. unfold Segment.change_access. fueled_step. Qed.
End SegmentFueled.

#[local] Hint Resolve reserve_fueled grow_paged_fueled skip_paged_fueled grow_bytes_fueled
  grow_bytes_64capped_fueled change_access_fueled : forward.

Lemma allocate_segment_fueled : fueled allocate_segment.
Proof. intros s s' r [= <- <-]. discriminate. Qed.

Lemma create_segment_descriptor_fueled modify_ldt a r b :
  fueled (create_segment_descriptor modify_ldt a r b).
Proof.
  intros sp sp' o. unfold create_segment_descriptor, create_with, alloc_any, emplace.
  destruct (search _ _ _) as [i|]; [|intros [= <- <-]; discriminate].
  unfold grow, check. destruct (_ <=? m_max _)%nat; cbn -[construct]; [|intros [= <- <-]; discriminate].
  destruct (construct _ _ _ _ _ _) as [sd|e] eqn:Ec; intros [= <- <-]; [discriminate|].
  revert Ec. unfold construct, update_descriptors, publish, get, throw, mbind, outcome_bind, M_bind.
  simpl. destruct (segs sp !! _); simpl; [|intros [= <-]; discriminate].
  destruct (modify_ldt _); simpl; intros [= <-]; discriminate.
Qed.

#[local] Hint Resolve allocate_segment_fueled create_segment_descriptor_fueled : forward.

Section Forward.
Context {A B : Type}.

Lemma forward_fueled (m : M LoaderState A) :
  (forall st, 0 <= l_pos st -> l_pos st <= l_pos (fst (m st))) -> fueled m -> forward m.
Proof.
  intros Hp Hf st st' r E H. split; [|by eapply Hf].
  specialize (Hp st H). by rewrite E in Hp.
Qed.

Lemma forward_bind (m : M LoaderState A) (f : A -> M LoaderState B) :
  forward m -> (forall a, forward (f a)) -> forward (m ≫= f).
Proof.
  intros Hm Hf st st' r. unfold mbind, M_bind. destruct (m st) as [st1 [a|e]] eqn:E; intros H Hp.
  - destruct (Hm _ _ _ E Hp) as [H1 _]. destruct (Hf a _ _ _ H) as [H2 H3]; [lia|].
    split; [lia|done].
  - injection H as <- <-. destruct (Hm _ _ _ E Hp) as [H1 H2]. split; [done|].
    intros [= ->]. by apply H2.
Qed.

Lemma forward_ret (a : A) : forward (mret a).
Proof. apply forward_fueled; [simpl; lia|apply fueled_ret]. Qed.

Lemma forward_throw e : e <> Undefined "fuel" -> forward (throw (A := A) e).
Proof. intros He. apply forward_fueled; [simpl; lia|by apply fueled_throw]. Qed.

Lemma forward_gets (f : LoaderState -> A) : forward (gets f).
Proof. apply forward_fueled; [simpl; lia|apply fueled_gets]. Qed.

Lemma forward_on_seg p (op : M Segment A) : fueled op -> forward (on_seg p op).
Proof.
  intros Hop st st' r. unfold on_seg.
  destruct (p ≫= _) as [[k s]|]; [|intros [= <- <-] H; split; [lia|discriminate]].
  destruct (op s) as [s' o] eqn:E. intros [= <- <-] H. split; [simpl; lia|]. by eapply Hop.
Qed.

Lemma forward_on_space (op : M Space A) : fueled op -> forward (on_space op).
Proof.
  intros Hop st st' r. unfold on_space.
  destruct (op (l_space st)) as [s' o] eqn:E. intros [= <- <-] H. split; [simpl; lia|]. by eapply Hop.
Qed.
End Forward.

Lemma forward_get : forward get.
Proof. apply forward_fueled; [simpl; lia|apply fueled_get]. Qed.

Lemma forward_modify f : (forall st, 0 <= l_pos st -> l_pos st <= l_pos (f st)) -> forward (modify f).
Proof. intros Hf. apply forward_fueled; [done|apply fueled_modify]. Qed.

Lemma forward_checked_read file n : forward (checked_read file n).
Proof.
  intros st st' r. unfold checked_read. destruct (_ <? _)%nat; intros [= <- <-] H; simpl;
    (split; [lia|discriminate]).
Qed.

Lemma forward_checked_read_to file dst n : forward (checked_read_to file dst n).
Proof.
  intros st st' r. unfold checked_read_to. destruct (_ <? _)%nat; intros [= <- <-] H; simpl;
    (split; [lia|discriminate]).
Qed.

Lemma forward_seg_pointer p off n : forward (seg_pointer p off n).
Proof. apply forward_on_seg. fueled_step. Qed.

Lemma forward_seg_size p : forward (seg_size p).
Proof. apply forward_on_seg. fueled_step. Qed.

#[local] Hint Resolve forward_ret forward_get forward_gets forward_seg_pointer forward_seg_size
  forward_checked_read forward_checked_read_to forward_bind forward_on_seg forward_on_space : forward.

Ltac fwd :=
  repeat first
    [ solve [eauto with forward]
    | apply forward_throw; discriminate
    | apply forward_bind; [|intros]
    | apply forward_modify; intros; simpl; lia
    | apply forward_on_seg; fueled_step
    | match goal with |- forward (match ?x with _ => _ end) => destruct x eqn:? end ].

Lemma le_val_nonneg bs : Forall is_byte bs -> 0 <= le_val bs.
Proof. intros H. apply (le_val_range bs H). Qed.

Lemma Forall_slice (P : Z -> Prop) o n l : Forall P l -> Forall P (slice o n l).
Proof. intros H. unfold slice. by apply Forall_take, Forall_drop. Qed.

Lemma data_nbytes_nonneg bs : Forall is_byte bs -> 0 <= data_nbytes (decode_record bs).
Proof. intros H. by apply le_val_nonneg, Forall_slice. Qed.

(** What the loop over the records needs of a loader. *)
Definition forward_loader (l : AbstractLoader) : Prop :=
  (forall n, forward (prepare_segments l n)) /\
  (forall i a n, forward (alloc_segment l i a n)) /\
  forward (finalize_segments l) /\
  (forall ld n, forward (prepare_segment_load l ld n)) /\
  forward (finalize_loading l) /\
  (forall i, forward (get_segment l i)).

Lemma flat_forward mmap mprotect hdr : forward_loader (FlatLoader mmap mprotect hdr).
Proof.
  split_and!; intros; unfold prepare_segments, alloc_segment, finalize_segments,
    prepare_segment_load, finalize_loading, get_segment, FlatLoader,
    flat_prepare, flat_alloc, flat_finalize_segments, flat_segment_load, format_error;
    cbv beta zeta; fwd.
  match goal with |- context [flat_protect _ (l_flats ?st) _] =>
    induction (l_flats st) as [|s l IH]; cbn [flat_protect]; fwd end.
Qed.

Lemma segment_forward mmap hdr slib : forward_loader (SegmentLoader mmap hdr slib).
Proof.
  split_and!; intros; unfold prepare_segments, alloc_segment, finalize_segments,
    prepare_segment_load, finalize_loading, get_segment, SegmentLoader,
    seg_alloc, seg_finalize_segments, seg_segment_load, seg_at, format_error; cbv beta zeta; fwd.
Qed.

Section Records.
Context (file : list Z) (Hfile : Forall is_byte file).

Lemma checked_read_ok n st st' bs :
  checked_read file n st = (st', Ok bs) ->
  bs = slice (Z.to_nat (l_pos st)) n file /\ length bs = n /\
  st' = set_pos (l_pos st + Z.of_nat n) st.
Proof.
  unfold checked_read.
  destruct (Nat.ltb_spec (length (slice (Z.to_nat (l_pos st)) n file)) n) as [|Hge]; [done|].
  intros [= <- <-]. assert (Hl : length (slice (Z.to_nat (l_pos st)) n file) = n).
  { unfold slice in *. rewrite length_take, length_drop in *. lia. }
  by rewrite Hl.
Qed.

Lemma load_record_forward l rec :
  forward_loader l -> 0 <= data_nbytes rec -> forward (load_record file l rec).
Proof.
  intros (_ & _ & _ & Hl & _ & _) Hn. unfold load_record, format_error. fwd.
Qed.

Lemma load_segments_forward l si n : forward_loader l -> forward (load_segments file l si n).
Proof.
  intros (_ & Hl & _). revert si. induction n as [|n IH]; intros si; simpl; fwd.
Qed.

Lemma create_descriptors_forward modify_ldt l hdr si types :
  forward_loader l -> forward (create_descriptors modify_ldt l hdr si types).
Proof.
  intros (_ & _ & _ & _ & _ & Hl). revert si. induction types as [|t ts IH]; intros si; simpl; fwd.
Qed.

Lemma relocate_forward l sels relocs : forward_loader l -> forward (relocate l sels relocs).
Proof.
  intros (_ & _ & _ & _ & _ & Hl).
  induction relocs as [|r rs IH]; cbn [relocate]; unfold format_error; fwd.
Qed.

(** Every round takes a record header out of the file. *)
Lemma load_records_forward l : forward_loader l -> forall fuel st st' r,
  load_records file fuel l st = (st', r) -> 0 <= l_pos st ->
  (length file - Z.to_nat (l_pos st) < fuel)%nat ->
  l_pos st <= l_pos st' /\ ~ out_of_fuel r.
Proof.
  intros Hl. induction fuel as [|fuel IH]; intros st st' r; [lia|]. intros Hrun Hp Hf.
  cbn [load_records] in Hrun. unfold mbind, M_bind in Hrun.
  destruct (checked_read _ _ _) as [st1 [bs|e]] eqn:E1.
  2:{ injection Hrun as <- <-. destruct (forward_checked_read _ _ _ _ _ E1 Hp) as [H1 H2].
      split; [done|]. intros [= ->]. by apply H2. }
  apply checked_read_ok in E1 as (Hbs & Hlen & ->).
  assert (Hin : (Z.to_nat (l_pos st) + sizeof_record <= length file)%nat).
  { rewrite Hbs in Hlen. unfold slice in Hlen. rewrite length_take, length_drop in Hlen.
    unfold sizeof_record in *. lia. }
  assert (Hn : 0 <= data_nbytes (decode_record bs)).
  { apply data_nbytes_nonneg. rewrite Hbs. by apply Forall_slice. }
  destruct (load_record _ _ _ _) as [st2 [rs|e]] eqn:E2;
    destruct (load_record_forward l _ Hl Hn _ _ _ E2) as [H3 H4];
    cbn [l_pos set_pos] in *; unfold sizeof_record in *; try lia.
  2:{ injection Hrun as <- <-. split; [lia|]. intros [= ->]. by apply H4. }
  destruct (_ =? LMF_IMAGE_END_REC); [injection Hrun as <- <-; split; [lia|discriminate]|].
  destruct (load_records file fuel l st2) as [st3 [rest|e]] eqn:E3;
    destruct (IH _ _ _ E3) as [H5 H6]; try lia; injection Hrun as <- <-;
    (split; [lia|]); [discriminate|]. intros [= ->]. by apply H6.
Qed.

(** More fuel than that changes nothing. *)
Lemma load_records_fuel l : forward_loader l -> forall fuel fuel' st,
  0 <= l_pos st -> (length file - Z.to_nat (l_pos st) < fuel)%nat -> (fuel <= fuel')%nat ->
  load_records file fuel' l st = load_records file fuel l st.
Proof.
  intros Hl. induction fuel as [|fuel IH]; intros fuel' st Hp Hf Hle; [lia|].
  destruct fuel' as [|fuel']; [lia|].
  cbn [load_records]. unfold mbind, M_bind.
  destruct (checked_read _ _ _) as [st1 [bs|e]] eqn:E1; [|done].
  apply checked_read_ok in E1 as (Hbs & Hlen & ->).
  assert (Hn : 0 <= data_nbytes (decode_record bs)).
  { apply data_nbytes_nonneg. rewrite Hbs. by apply Forall_slice. }
  rewrite Hbs in Hlen. unfold slice in Hlen. rewrite length_take, length_drop in Hlen.
  destruct (load_record _ _ _ _) as [st2 [rs|e]] eqn:E2; [|done].
  destruct (load_record_forward l _ Hl Hn _ _ _ E2) as [H3 _];
    cbn [l_pos set_pos] in *; unfold sizeof_record in *; [lia|].
  destruct (_ =? LMF_IMAGE_END_REC); [done|].
  rewrite IH by lia. done.
Qed.
End Records.

Lemma load_header_forward file : forward (load_header file).
Proof. unfold load_header, check_value, format_error. cbv zeta. fwd. Qed.

(** ** Properties *)

(** C25. Loading terminates.  The loop over the records is the only one the file
    controls: with the fuel [loader_load] gives it, it never runs out, any larger
    amount gives the same result, and so [loader_load] as a whole ends, with
    success or with one of the program's own errors; the file position never
    moves backwards. *)
Theorem loader_load_terminates mmap mprotect modify_ldt file slib st :
  Forall is_byte file -> 0 <= l_pos st ->
  (let '(st', r) := loader_load mmap mprotect modify_ldt file slib st in
   l_pos st <= l_pos st' /\ ~ out_of_fuel r) /\
  (forall l fuel, forward_loader l -> (records_fuel file <= fuel)%nat ->
     load_records file fuel l st = load_records file (records_fuel file) l st).
Proof.
  intros Hfile Hp. split.
  - destruct (loader_load _ _ _ _ _ _) as [st' r] eqn:E. revert E Hp. revert st st' r.
    change (forward (loader_load mmap mprotect modify_ldt file slib)). unfold loader_load.
    apply forward_bind; [apply load_header_forward|]. intros [hdr n]. cbv zeta.
    set (l := if has _ _ then _ else _).
    assert (Hl : forward_loader l)
      by (subst l; destruct (has _ _); [apply flat_forward|apply segment_forward]).
    clearbody l. pose proof Hl as (H1 & H2 & H3 & H4 & H5 & H6).
    apply forward_bind; [done|intros _].
    apply forward_bind; [by apply load_segments_forward|intros types].
    apply forward_bind; [done|intros _].
    apply forward_bind.
    { intros st st' r Hr Hp. apply (load_records_forward file Hfile l Hl _ _ _ _ Hr Hp).
      unfold records_fuel. lia. }
    intros relocs. apply forward_bind; [done|intros _].
    apply forward_bind; [by apply create_descriptors_forward|intros sels].
    by apply relocate_forward.
  - intros l fuel Hl Hf. apply load_records_fuel; try done. unfold records_fuel. lia.
Qed.

(** A one-page flat executable: code and data segments, one load record. *)
Definition demo_file : list Z :=
  [0;0;56;0;0;0;
   144;1; 18;0; 130;1; 0;0; 0;0; 1;0; 1;0; 0;0; 0;0;0;0;0;0;0;0;
   0;0;0;0; 0;16;0;0; 0;16;0;0; 0;32;0;0; 0;0;0;0;0;0;0;0] ++
  [10;0;0;32] ++ [10;0;0;0] ++
  [2;0;8;0;0;0; 0;0; 4;0;0;0; 171;205] ++ [5;0;0;0;0;0].


Lemma loader_load_terminates_witness :
  (loader_load demo_mmap (fun _ _ _ => true) (fun _ => true) demo_file false
     (LoaderState_new Space_new ∅)).2 = Ok () /\
  (let '(st', r) := loader_load demo_mmap (fun _ _ _ => true) (fun _ => true) demo_file false
     (LoaderState_new Space_new ∅) in
   l_pos (LoaderState_new Space_new ∅) <= l_pos st' /\ ~ out_of_fuel r).
Proof.
  split; [vm_compute; reflexivity|].
  assert (H : Forall is_byte demo_file).
  { repeat (constructor; [split; [lia|reflexivity]|]). constructor. }
  destruct (loader_load_terminates demo_mmap (fun _ _ _ => true) (fun _ => true) demo_file false
              (LoaderState_new Space_new ∅) H (Z.le_refl 0)) as [Hend _].
  exact Hend.
Defined.

(** *** The flat image *)

(** The layout the flat loader promises: the segments in file order from [pos],
    each rounded to pages, without gap or overlap. *)
Fixpoint place (pos : Z) (ws : list Z) : list FlatSegment :=
  match ws with
  | [] => []
  | w :: ws =>
      let n := MemOps.align_page_up (Z.land w 268435455) in
      mkFlatSegment pos n (Access_of_Z (Z.shiftr w 28)) :: place (pos + n) ws
  end.

Fixpoint total (ws : list Z) : Z :=
  match ws with [] => 0 | w :: ws => MemOps.align_page_up (Z.land w 268435455) + total ws end.

Lemma seg_word_size w : 0 <= Z.land w 268435455 < 2 ^ 28.
Proof. change 268435455 with (Z.ones 28). rewrite Z.land_ones by lia. apply Z.mod_pos_bound. lia. Qed.

Lemma page_size_word w :
  let n := MemOps.align_page_up (Z.land w 268435455) in
  0 <= n <= 2 ^ 28 /\ n mod MemOps.PAGE_SIZE = 0.
Proof.
  pose proof (seg_word_size w). cbv zeta.
  destruct (MemOps.align_page_up_spec (Z.land w 268435455)) as [H1 H2]; [lia|].
  pose proof (MemOps.align_page_up_least (Z.land w 268435455) (2 ^ 28) ltac:(lia) eq_refl ltac:(lia)).
  lia.
Qed.

Lemma total_range ws : 0 <= total ws /\ total ws mod MemOps.PAGE_SIZE = 0.
Proof.
  induction ws as [|w ws IH]; simpl; [done|]. destruct (page_size_word w). unfold MemOps.PAGE_SIZE in *.
  split; [lia|zlia].
Qed.

(** The bytes of a table of 32-bit words. *)
Definition words (ws : list Z) : list Z := concat (le_bytes 4 <$> ws).

Lemma slice_words pos file w ws rest :
  drop pos file = words (w :: ws) ++ rest -> slice pos 4 file = le_bytes 4 w /\
  drop (pos + 4) file = words ws ++ rest.
Proof.
  intros H. change (words (w :: ws)) with (le_bytes 4 w ++ words ws) in H.
  rewrite <- (app_assoc (le_bytes 4 w)) in H. unfold slice. rewrite <- drop_drop, H. split.
  - by apply take_app_length'.
  - by apply drop_app_length'.
Qed.

Lemma insert_next {A} (done_ : list A) x y n :
  <[length done_ := x]> (done_ ++ y :: n) = (done_ ++ [x]) ++ n.
Proof. rewrite insert_app_r_alt, Nat.sub_diag by lia. simpl. by rewrite <- app_assoc. Qed.

Lemma checked_read_word file w st rest ws :
  0 <= l_pos st -> drop (Z.to_nat (l_pos st)) file = words (w :: ws) ++ rest ->
  checked_read file 4 st = (set_pos (l_pos st + 4) st, Ok (le_bytes 4 w)) /\
  drop (Z.to_nat (l_pos st + 4)) file = words ws ++ rest.
Proof.
  intros Hp Hf. destruct (slice_words _ _ _ _ _ Hf) as [Hs Hd]. split.
  - unfold checked_read. by rewrite Hs.
  - rewrite <- Hd. f_equal. lia.
Qed.

Lemma flat_alloc_next done_ dflt todo a n st :
  l_flats st = done_ ++ dflt :: todo ->
  0 <= l_segment_pos st -> l_segment_pos st + MemOps.align_page_up n < 2 ^ 32 ->
  0 <= MemOps.align_page_up n ->
  flat_alloc (length done_) a n st =
    (set_flats ((done_ ++ [mkFlatSegment (l_segment_pos st) (MemOps.align_page_up n) a]) ++ todo)
       (l_segment_pos st + MemOps.align_page_up n) (l_image_base st) st, Ok ()).
Proof.
  intros Hl Hp Ht Hn. unfold flat_alloc, modify. rewrite Hl, insert_next.
  by rewrite !(wrapu_small 32) by lia.
Qed.

Lemma load_segments_flat mmap mprotect file hdr ws rest : forall st done_,
  0 <= l_pos st -> drop (Z.to_nat (l_pos st)) file = words ws ++ rest ->
  Forall (fun w => 0 <= w < 2 ^ 32) ws ->
  0 <= l_segment_pos st -> l_segment_pos st + total ws < 2 ^ 32 ->
  l_flats st = done_ ++ replicate (length ws) (mkFlatSegment 0 0 READ_WRITE) ->
  load_segments file (FlatLoader mmap mprotect hdr) (length done_) (length ws) st =
    (set_flats (done_ ++ place (l_segment_pos st) ws) (l_segment_pos st + total ws) (l_image_base st)
       (set_pos (l_pos st + 4 * Z.of_nat (length ws)) st),
     Ok ((fun w => Access_of_Z (Z.shiftr w 28)) <$> ws)).
Proof.
  induction ws as [|w ws IH]; intros st done_ Hp Hf Hw H0 Ht Hl; cbn [length load_segments].
  - simpl. rewrite !app_nil_r in *. subst done_. unfold set_flats, set_pos, mret, M_ret. simpl.
    rewrite !Z.add_0_r. by destruct st.
  - destruct (checked_read_word _ _ _ _ _ Hp Hf) as [Hs Hd].
    cbn [total length replicate] in *.
    destruct (page_size_word w) as [Hn _]. destruct (total_range ws) as [Hr _].
    apply Forall_cons in Hw as [Hw1 Hw2].
    unfold mbind, M_bind. rewrite Hs. rewrite le_val_bytes, wrapu_small by (simpl; lia).
    cbn [alloc_segment FlatLoader].
    rewrite (flat_alloc_next done_ _ _ _ _ (set_pos (l_pos st + 4) st) Hl) by (simpl; lia). cbn [l_segment_pos set_pos l_image_base].
    set (seg := mkFlatSegment _ _ _).
    replace (S (length done_)) with (length (done_ ++ [seg])) by (rewrite length_app; simpl; lia).
    rewrite IH; try done; cbn [l_pos l_segment_pos set_flats set_pos]; try lia.
    unfold set_flats, set_pos, seg, mret, M_ret. cbn. rewrite <- app_assoc. f_equal. f_equal; lia.
Qed.

(** A method of a live segment. *)
Definition put_seg (r : nat) (s : Segment) (st : LoaderState) : LoaderState :=
  let sp := l_space st in
  set_space (mkSpace (<[r := s]> (segs sp)) (next_seg sp) (m_segments sp)
               (m_segment_descriptors sp) (ldt sp)) st.

Lemma put_seg_lookup r s st : segs (l_space (put_seg r s st)) !! r = Some s.
Proof. apply lookup_insert_eq. Qed.

Lemma on_seg_run {A} r (op : M Segment A) st s s' (o : outcome A) :
  segs (l_space st) !! r = Some s -> op s = (s', o) -> on_seg (Some r) op st = (put_seg r s' st, o).
Proof. intros Hs Ho. unfold on_seg. simpl. rewrite Hs. simpl. by rewrite Ho. Qed.

Lemma place_bounds pos ws i seg :
  place pos ws !! i = Some seg ->
  pos <= f_start seg /\ 0 <= f_size seg /\ f_start seg + f_size seg <= pos + total ws.
Proof.
  revert pos i. induction ws as [|w ws IH]; intros pos i; simpl; [done|].
  destruct (page_size_word w) as [Hn _]. destruct (total_range ws) as [Ht _].
  destruct i as [|i]; simpl.
  - intros [= <-]. simpl. lia.
  - intros H. apply IH in H. lia.
Qed.

Lemma place_sorted pos ws i j si sj :
  (i < j)%nat -> place pos ws !! i = Some si -> place pos ws !! j = Some sj ->
  f_start si + f_size si <= f_start sj.
Proof.
  revert pos i j. induction ws as [|w ws IH]; intros pos i j Hij; simpl; [done|].
  destruct j as [|j]; [lia|]. simpl. destruct i as [|i]; simpl.
  - intros [= <-] H. apply place_bounds in H. simpl. lia.
  - intros H1 H2. eapply (IH _ i j); [lia|exact H1|exact H2].
Qed.

Section FlatSegmentOps.
Context (mmap : Z -> Z -> Z -> Z -> option Z) (Hm : mmap_total mmap).

(** A segment grown from its reservation: [o] is mapped from [lo] up. *)
Definition flat_upto (l lo hi : Z) (s : Segment) : Prop :=
  Segment.wf s /\ m_location s = l /\ m_reserved s = MemOps.mega 512 /\ m_paged_size s = hi /\
  (forall o, mapped s o <-> lo <= o < hi).

Lemma flat_reserve l :
  mmap 0 (MemOps.mega 512) PROT_NONE 16482 = Some l -> 0 <= l -> l + MemOps.mega 512 <= addr_top ->
  exists s, reserve mmap (MemOps.mega 512) Segment_new = (s, Ok ()) /\ flat_upto l 0 0 s.
Proof.
  intros Hr H0 H1. exists (mkSegment l 0 0 (MemOps.mega 512) false []). split.
  - unfold reserve, get, mbind, M_bind, lift, check, put. cbn [m_reserved Segment_new Z.eqb].
    change (MemOps.align_page_up (MemOps.mega 512)) with (MemOps.mega 512).
    by replace (mmap _ _ _ _) with (Some l).
  - unfold flat_upto, Segment.wf. simpl. split_and!; try done.
    intros o. split; [|lia]. intros [_ H]. done.
Qed.

Lemma flat_skip l s n :
  flat_upto l 0 0 s -> 0 <= n <= MemOps.mega 512 -> n mod MemOps.PAGE_SIZE = 0 ->
  exists s', skip_paged n s = (s', Ok ()) /\ flat_upto l n n s'.
Proof.
  intros (Hw & Hl & Hr & Hp & Ho) Hn Ha. change (MemOps.mega 512) with 536870912 in *.
  exists (push_pages false n s). split.
  - unfold skip_paged, get, mbind, M_bind, lift, modify, throw.
    apply page_aligned_spec in Ha as ->. simpl. rewrite Hp, Hr, Z.add_0_r, wrapu_small by lia.
    by destruct (Z.ltb_spec 536870912 n); [lia|].
  - assert (Hw' : Segment.wf (push_pages false n s)) by (apply wf_push_pages; done || lia).
    unfold flat_upto. split; [done|]. simpl. rewrite wrapu_small by lia. split_and!; try done; [lia|].
    intros o. split; [|lia]. intros [H1 H2]. simpl in H2. exfalso. revert H2.
    destruct Hw as (_ & _ & _ & _ & Hb & _). rewrite Hp in Hb.
    assert (m_bitmap s = []) as -> by (apply nil_length_inv; change (0 / MemOps.PAGE_SIZE) with 0 in Hb; lia).
    intros H2. by apply lookup_replicate in H2 as [? _].
Qed.

Lemma flat_grow l lo hi s n prot :
  flat_upto l lo hi s -> lo <= hi -> 0 <= n -> hi + n <= MemOps.mega 512 -> n mod MemOps.PAGE_SIZE = 0 ->
  exists s', grow_paged mmap prot n s = (s', Ok ()) /\ flat_upto l lo (hi + n) s' /\
    m_limit_size s' = hi + n.
Proof.
  intros (Hw & Hl & Hr & Hp & Ho) Hlo Hn Hle Ha. change (MemOps.mega 512) with 536870912 in *.
  exists (set_limit (hi + n) (push_pages true n s)).
  assert (Hh : 0 <= hi) by (destruct Hw as (? & _); lia).
  assert (Hw' : Segment.wf (push_pages true n s)) by (apply wf_push_pages; done || lia).
  split.
  - unfold grow_paged, mbind, M_bind, modify. rewrite grow_paged_internal_ok by (done || lia).
    unfold paged_size. simpl. rewrite wrapu_small by lia. by rewrite Hp.
  - split; [|done]. unfold flat_upto. simpl. rewrite wrapu_small by lia. split_and!; try done; try lia.
    + apply wf_set_limit; [done|]. simpl. rewrite wrapu_small by lia. lia.
    + intros o. change (mapped (set_limit (hi + n) (push_pages true n s)) o) with (mapped (push_pages true n s) o).
      split.
      * intros H. pose proof (mapped_bound _ _ Hw' H) as Hb. simpl in Hb. rewrite wrapu_small in Hb by lia.
        destruct (decide (o < hi)) as [Hlt|]; [|lia]. destruct H as [H1 H2]. simpl in H2.
        rewrite lookup_app_l in H2.
        -- split; [|lia]. by apply Ho.
        -- destruct Hw as (_ & _ & H3 & _ & H5 & _). unfold MemOps.PAGE_SIZE in *. zlia.
      * intros H. destruct (decide (o < hi)).
        -- apply mapped_push_old, Ho. lia.
        -- apply mapped_push_new; [done|done|lia].
Qed.
End FlatSegmentOps.

Lemma align32 v : 0 <= v <= 2 ^ 32 - 4096 ->
  u32 (MemOps.align_page_up v) = MemOps.align_page_up v /\
  v <= MemOps.align_page_up v < v + MemOps.PAGE_SIZE /\
  MemOps.align_page_up v mod MemOps.PAGE_SIZE = 0.
Proof.
  intros Hv. destruct (MemOps.align_page_up_spec v) as [H1 H2]; [lia|].
  pose proof (MemOps.align_page_up_least v (2 ^ 32 - 4096) ltac:(lia) eq_refl ltac:(lia)).
  rewrite wrapu_small by lia. done.
Qed.

(** The five calls that build the flat segment: guard, stack, image, heap. *)
Lemma flat_build mmap l base stack pos heap :
  mmap_total mmap ->
  mmap 0 (MemOps.mega 512) PROT_NONE 16482 = Some l -> 0 <= l -> l + MemOps.mega 512 <= addr_top ->
  0 <= stack <= base -> base <= pos -> 0 <= heap -> pos + heap <= MemOps.mega 512 ->
  stack mod MemOps.PAGE_SIZE = 0 -> base mod MemOps.PAGE_SIZE = 0 -> pos mod MemOps.PAGE_SIZE = 0 ->
  heap mod MemOps.PAGE_SIZE = 0 ->
  let rw := Z.lor PROT_READ PROT_WRITE in
  exists s1 s2 s3 s4 s5,
    reserve mmap (MemOps.mega 512) Segment_new = (s1, Ok ()) /\
    skip_paged (base - stack) s1 = (s2, Ok ()) /\
    grow_paged mmap rw stack s2 = (s3, Ok ()) /\
    grow_paged mmap rw (pos - base) s3 = (s4, Ok ()) /\ size s4 = pos /\
    grow_paged mmap rw heap s4 = (s5, Ok ()) /\ flat_upto l (base - stack) (pos + heap) s5.
Proof.
  intros Hm Hr H0 H1 Hs Hb Hh Hfit A1 A2 A3 A4 rw.
  assert (A5 : (base - stack) mod MemOps.PAGE_SIZE = 0) by (unfold MemOps.PAGE_SIZE in *; zlia).
  assert (A6 : (pos - base) mod MemOps.PAGE_SIZE = 0) by (unfold MemOps.PAGE_SIZE in *; zlia).
  destruct (flat_reserve mmap l Hr H0 H1) as (s1 & E1 & F1).
  destruct (flat_skip l s1 (base - stack) F1 ltac:(lia) A5) as (s2 & E2 & F2).
  destruct (flat_grow mmap Hm l _ _ s2 stack rw F2 ltac:(lia) ltac:(lia) ltac:(lia) A1)
    as (s3 & E3 & F3 & _).
  destruct (flat_grow mmap Hm l _ _ s3 (pos - base) rw F3 ltac:(lia) ltac:(lia) ltac:(lia) A6)
    as (s4 & E4 & F4 & L4).
  destruct (flat_grow mmap Hm l _ _ s4 heap rw F4 ltac:(lia) ltac:(lia) ltac:(lia) A4)
    as (s5 & E5 & F5 & _).
  exists s1, s2, s3, s4, s5. split_and!; try done; [unfold size; lia|].
  by replace (pos + heap) with (base - stack + stack + (pos - base) + heap) by lia.
Qed.

Ltac seg_step E := erewrite on_seg_run; [|first [apply put_seg_lookup|apply lookup_insert_eq]|exact E]; cbv beta iota.

(** The flat image as [finalize_segments] leaves it. *)
Definition flat_ready (hdr : lmf_header) (l : Z) (code : FlatSegment) (st st' : LoaderState) : Prop :=
  let base := l_image_base st in
  let stack := MemOps.align_page_up (stack_nbytes hdr) in
  exists r s,
    l_flats st' = l_flats st /\ l_flat_mem st' = Some r /\ segs (l_space st') !! r = Some s /\
    flat_upto l (base - stack) (l_segment_pos st + heap_nbytes hdr) s /\
    l_info st' = mkLoadInfo (bits (l_info st)) (u32 (f_start code + code_offset hdr))
      (ss (l_info st)) (ds (l_info st)) (cs (l_info st))
      (l_segment_pos st) (base - stack) stack.

Lemma flat_finalize mmap hdr st l code :
  mmap_total mmap ->
  mmap 0 (MemOps.mega 512) PROT_NONE 16482 = Some l -> 0 <= l -> l + MemOps.mega 512 <= addr_top ->
  let base := l_image_base st in
  let stack := MemOps.align_page_up (stack_nbytes hdr) in
  0 <= stack_nbytes hdr <= 2 ^ 32 - 4096 -> 0 <= heap_nbytes hdr ->
  heap_nbytes hdr mod MemOps.PAGE_SIZE = 0 -> base mod MemOps.PAGE_SIZE = 0 ->
  base <= l_segment_pos st -> l_segment_pos st mod MemOps.PAGE_SIZE = 0 ->
  stack + MemOps.PAGE_SIZE <= base -> l_segment_pos st + heap_nbytes hdr <= MemOps.mega 512 ->
  l_flats st !! Z.to_nat (code_index hdr) = Some code ->
  exists st', flat_finalize_segments mmap hdr st = (st', Ok ()) /\ flat_ready hdr l code st st'.
Proof.
  intros Hm Hr H0 H1 base stack Hs Hh Hha Hb Hbp Hpa Hsb Hfit Hcode.
  destruct (align32 _ Hs) as (Ha1 & Ha2 & Ha3). fold stack in Ha1, Ha2, Ha3.
  assert (Hps : MemOps.PAGE_SIZE = 4096) by done.
  assert (Hmega : MemOps.mega 512 = 536870912) by done.
  destruct (flat_build mmap l base stack (l_segment_pos st) (heap_nbytes hdr)) as
    (s1 & s2 & s3 & s4 & s5 & E1 & E2 & E3 & E4 & L4 & E5 & F5); try done; try lia.
  eexists. unfold flat_finalize_segments, get, mbind, M_bind. cbv beta iota zeta.
  fold base stack. rewrite Ha1, !(wrapu_small 32 (stack + _)), !(wrapu_small 32 (base - _)),
    !(wrapu_small 32 (l_segment_pos st - _)) by lia.
  destruct (Z.ltb_spec base (stack + MemOps.PAGE_SIZE)); [lia|].
  unfold on_space at 1, allocate_segment, modify at 1, seg_size.
  seg_step E1. seg_step E2. seg_step E3. seg_step E4.
  assert (G : gets size s4 = (s4, Ok (l_segment_pos st))) by (unfold gets; by rewrite L4).
  seg_step G. seg_step E5. 
  change (l_flats _) with (l_flats st). rewrite Hcode.
  split; [reflexivity|]. unfold flat_ready. exists (next_seg (l_space st)), s5.
  split_and!; [reflexivity|reflexivity|apply lookup_insert_eq|done|]. fold base stack.
  rewrite (wrapu_small 32 (l_segment_pos st)) by lia. reflexivity.
Qed.

(** C26. The flat layout.  On a header whose heap is a whole number of pages and
    whose image, stack and heap fit the 512 MB reservation, the loader places the segments of the table one after another
    from the page-rounded image base, in file order and without overlap; the
    memory segment has unmapped guard pages below the stack, the stack ends
    where the image begins, the heap follows the image, and exactly the bytes
    from the bottom of the stack to the end of the heap are mapped; the load
    information gives the entry point, the stack and the start of the heap. *)
Theorem flat_layout mmap mprotect file hdr ws rest l code st :
  mmap_total mmap ->
  mmap 0 (MemOps.mega 512) PROT_NONE 16482 = Some l -> 0 <= l -> l + MemOps.mega 512 <= addr_top ->
  0 <= l_pos st -> drop (Z.to_nat (l_pos st)) file = words ws ++ rest ->
  Forall (fun w => 0 <= w < 2 ^ 32) ws ->
  let base := MemOps.align_page_up (image_base hdr) in
  let stack := MemOps.align_page_up (stack_nbytes hdr) in
  0 <= image_base hdr <= 2 ^ 32 - 4096 -> 0 <= stack_nbytes hdr <= 2 ^ 32 - 4096 ->
  0 <= heap_nbytes hdr -> heap_nbytes hdr mod MemOps.PAGE_SIZE = 0 ->
  stack + MemOps.PAGE_SIZE <= base -> base + total ws + heap_nbytes hdr <= MemOps.mega 512 ->
  place base ws !! Z.to_nat (code_index hdr) = Some code ->
  let ld := FlatLoader mmap mprotect hdr in
  exists st' r s,
    (_ ← prepare_segments ld (length ws); types ← load_segments file ld 0 (length ws);
     _ ← finalize_segments ld; mret types) st
      = (st', Ok ((fun w => Access_of_Z (Z.shiftr w 28)) <$> ws)) /\
    l_flats st' = place base ws /\
    (forall i j si sj, (i < j)%nat -> l_flats st' !! i = Some si -> l_flats st' !! j = Some sj ->
       base <= f_start si /\ f_start si + f_size si <= f_start sj /\
       f_start sj + f_size sj <= base + total ws) /\
    l_flat_mem st' = Some r /\ segs (l_space st') !! r = Some s /\ m_location s = l /\
    (forall o, mapped s o <-> base - stack <= o < base + total ws + heap_nbytes hdr) /\
    entry (l_info st') = u32 (f_start code + code_offset hdr) /\
    stack_low (l_info st') = base - stack /\ stack_size (l_info st') = stack /\
    heap_start (l_info st') = base + total ws.
Proof.
  intros Hm Hr H0 H1 Hp Hf Hw base stack Hib Hsn Hh Hha Hsb Hfit Hcode ld.
  destruct (align32 _ Hib) as (Ha1 & Ha2 & Ha3). fold base in Ha1, Ha2, Ha3.
  destruct (total_range ws) as [Ht1 Ht2].
  assert (Hps : MemOps.PAGE_SIZE = 4096) by done.
  assert (Hmega : MemOps.mega 512 = 536870912) by done.
  set (st1 := set_flats (replicate (length ws) (mkFlatSegment 0 0 READ_WRITE)) base base st).
  pose proof (load_segments_flat mmap mprotect file hdr ws rest st1 [] Hp Hf Hw
                ltac:(simpl; lia) ltac:(simpl; lia) eq_refl) as Hl.
  match type of Hl with _ = (?x, _) => set (st2 := x) in Hl end.
  destruct (flat_finalize mmap hdr st2 l code) as (st' & E & r & s & G1 & G2 & G3 & (G4 & G5 & _ & _ & G6) & G7);
    try done; try (simpl; lia).
  { simpl. rewrite Hps in *. zlia. }
  exists st', r, s. split.
  - unfold mbind, M_bind. cbn [prepare_segments ld FlatLoader flat_prepare]. unfold flat_prepare, modify.
    fold base. rewrite Ha1. fold st1. cbn [length] in Hl. unfold ld. rewrite Hl.
    cbn [finalize_segments FlatLoader]. by rewrite E.
  - rewrite G7. cbn [entry stack_low stack_size heap_start]. rewrite G1. split_and!; try done.
    intros i j si sj Hij Hi Hj. split_and!.
    + by apply place_bounds in Hi as (? & _).
    + by apply (place_sorted _ _ _ _ _ _ Hij Hi Hj).
    + by apply place_bounds in Hj as (_ & _ & ?).
Qed.

Lemma flat_layout_witness :
  let hdr := decode_header (drop 6 demo_file) in
  mmap_total fixed_mmap /\ words [536870922; 10] = slice 54 8 demo_file /\
  exists st' r s,
    (_ ← prepare_segments (FlatLoader fixed_mmap (fun _ _ _ => true) hdr) 2;
     types ← load_segments demo_file (FlatLoader fixed_mmap (fun _ _ _ => true) hdr) 0 2;
     _ ← finalize_segments (FlatLoader fixed_mmap (fun _ _ _ => true) hdr); mret types)
      (set_pos 54 (LoaderState_new Space_new ∅)) = (st', Ok [EXEC_READ; READ_WRITE]) /\
    segs (l_space st') !! r = Some s /\ entry (l_info st') = 8192 /\
    (forall o, mapped s o <-> 4096 <= o < 20480).
Proof.
  assert (Hm : mmap_total fixed_mmap) by (intros addr len prot flags _; reflexivity).
  split; [exact Hm|]. split; [reflexivity|].
  destruct (flat_layout fixed_mmap (fun _ _ _ => true) demo_file (decode_header (drop 6 demo_file))
              [536870922; 10] (drop 62 demo_file) 0 (mkFlatSegment 8192 4096 EXEC_READ)
              (set_pos 54 (LoaderState_new Space_new ∅)) Hm)
    as (st' & r & s & H1 & _ & _ & _ & H2 & _ & H3 & H4 & _).
  1,5,13: vm_compute; reflexivity.
  1,2,3,5,6,7,8: vm_compute; intuition discriminate.
  - repeat (constructor; [lia|]). constructor.
  - vm_compute. discriminate.
  - vm_compute. discriminate.
  - exists st', r, s. split; [exact H1|]. split; [exact H2|]. split; [exact H4|exact H3].
Defined.

(** *** The interpreter line *)

Lemma scan_app p a c rest :
  Forall (fun x => p x = true /\ at_end x = false) a -> p c && negb (at_end c) = false ->
  scan p (a ++ c :: rest) = (a, c :: rest).
Proof.
  intros Ha Hc. induction Ha as [|x a [Hx He] _ IH]; simpl; [by rewrite Hc|].
  by rewrite Hx, He, IH.
Qed.

(** Blank, word and argument characters of the line. *)
Definition blank (c : Z) : Prop := isspace c = true /\ at_end c = false.
Definition word_char (c : Z) : Prop := isspace c = false /\ at_end c = false.

(** The buffer starts with the line, whatever follows it in the file. *)
Lemma interp_buffer line rest :
  (length line < 1023)%nat ->
  exists tl, slice 2 1023 (35 :: 33 :: line ++ 10 :: rest) ++ [0] = line ++ 10 :: tl.
Proof.
  intros Hlen. exists (take (1022 - length line) rest ++ [0]).
  change (slice 2 1023 (35 :: 33 :: line ++ 10 :: rest)) with (take 1023 (line ++ 10 :: rest)).
  rewrite take_app_ge by lia. destruct (1023 - length line)%nat as [|k] eqn:E; [lia|].
  rewrite <- app_assoc. simpl. do 4 f_equal. lia.
Qed.

Lemma check_interpreter_other out file :
  starts_with file (lit "#!") = false -> loader_check_interpreter file out = Ok out.
Proof.
  intros Hf. unfold loader_check_interpreter.
  destruct file as [|a [|b file]]; [done|done|]. cbn [length Nat.ltb Nat.leb].
  destruct (negb _) eqn:E; [done|]. exfalso. apply negb_false_iff, andb_prop in E as [E1 E2].
  simpl in E1, E2. to_prop. subst.
  assert (Ht : starts_with (35 :: 33 :: file) (lit "#!") = true) by (apply starts_with_spec; by exists file).
  congruence.
Qed.

(** The "#!" line.  A file that starts with "#!", blanks, a path, blanks and
    the arguments up to the end of the line gives exactly that path (as a QNX
    path) and those arguments, whatever follows the line; a line with no path
    throws; a file without "#!" leaves the result as it was. *)
Theorem check_interpreter_spec out line rest :
  (length line < 1023)%nat ->
  (forall sp1 interp sp2 args,
     line = sp1 ++ interp ++ sp2 ++ args -> interp <> [] ->
     Forall blank sp1 -> Forall word_char interp -> Forall blank sp2 ->
     Forall (fun c => at_end c = false) args ->
     match args with [] => True | a :: _ => isspace a = false /\ sp2 <> [] end ->
     loader_check_interpreter (lit "#!" ++ line ++ 10 :: rest) out =
       Ok (mkInterpreterInfo true (mk_qnx_path interp false) args (original_executable out))) /\
  (Forall blank line ->
     loader_check_interpreter (lit "#!" ++ line ++ 10 :: rest) out =
       Throw (LoaderFormatException "Invalid shebang")) /\
  (forall file, starts_with file (lit "#!") = false -> loader_check_interpreter file out = Ok out).
Proof.
  intros Hlen. destruct (interp_buffer line rest Hlen) as [tl Hbuf].
  assert (Hrun : loader_check_interpreter (lit "#!" ++ line ++ 10 :: rest) out =
    let '(_, buf) := scan isspace (line ++ 10 :: tl) in
    let '(interp, buf) := scan (fun c => negb (isspace c)) buf in
    let '(_, buf) := scan isspace buf in
    let '(args, _) := scan (fun _ => true) buf in
    match interp with
    | [] => Throw (LoaderFormatException "Invalid shebang")
    | _ => Ok (mkInterpreterInfo true (mk_qnx_path interp false) args (original_executable out))
    end).
  { rewrite <- Hbuf. reflexivity. }
  split; [|split].
  - intros sp1 interp sp2 args -> Hne H1 H2 H3 H4 Hargs. rewrite Hrun, <- !app_assoc.
    destruct interp as [|i interp]; [done|]. inversion H2 as [|? ? [Hi1 Hi2] H2']; subst.
    cbn [app]. rewrite scan_app by (try done; by rewrite Hi1).
    assert (Hs2 : exists c r, sp2 ++ args ++ 10 :: tl = c :: r /\ negb (isspace c) && negb (at_end c) = false).
    { destruct sp2 as [|c sp2]; [destruct args; [|by destruct Hargs]; by eexists _, _|].
      inversion H3 as [|? ? [Hc _]]; subst. eexists _, _. split; [reflexivity|]. by rewrite Hc. }
    destruct Hs2 as (c & r & Hs2 & Hc). rewrite Hs2.
    change (i :: interp ++ c :: r) with ((i :: interp) ++ c :: r).
    rewrite scan_app; [|constructor; [by rewrite Hi1|eapply Forall_impl; [exact H2'|]; intros x [-> ?]; done]|done].
    rewrite <- Hs2. destruct args as [|a args].
    + cbn [app]. rewrite scan_app by done. done.
    + destruct Hargs as [Ha _]. cbn [app]. rewrite scan_app by (try done; by rewrite Ha).
      change (a :: args ++ 10 :: tl) with ((a :: args) ++ 10 :: tl).
      rewrite scan_app; [done| |done]. eapply Forall_impl; [exact H4|]. done.
  - intros H1. rewrite Hrun, scan_app by done. done.
  - apply check_interpreter_other.
Qed.

Lemma check_interpreter_spec_witness :
  loader_check_interpreter (lit "#! /bin/sh -x" ++ [10; 65]) InterpreterInfo_new =
    Ok (mkInterpreterInfo true (mk_qnx_path (lit "/bin/sh") false) (lit "-x") PathInfo_new).
Proof.
  refine (proj1 (check_interpreter_spec InterpreterInfo_new (lit " /bin/sh -x") [65] _)
            (lit " ") (lit "/bin/sh") (lit " ") (lit "-x") _ _ _ _ _ _ _).
  - vm_compute. lia.
  - reflexivity.
  - discriminate.
  - repeat constructor.
  - repeat constructor.
  - repeat constructor.
  - repeat constructor.
  - split; [reflexivity|discriminate].
Defined.
