(* ===== verification/GuestContext.v ===== *)
(** * GuestContext: [guest_context.h], [guest_context.cpp]

    The guest's registers (the saved [ucontext_t] and the [ExtraContext]) and its
    stack.  A register has the width of its accessor; memory is reached through
    the segment registers and the address translation.  [save_context] and
    [restore_context] are the frame the signal emulation leaves on the guest's
    stack.  How the registers get from the processor into the saved context and
    back is in [Cpu]. *)

From S2P Require Import Prelude Types Memory Segment AddressSpace Msg.

(** ** Registers *)

Inductive Reg :=
| EAX | EBX | ECX | EDX | ESI | EDI | EBP | ESP | EIP | EFLAGS
| CS | DS | ES | FS | GS | SS.

#[export] Instance Reg_eq_dec : EqDecision Reg.
Proof. solve_decision. Defined.

Definition width (r : Reg) : Z :=
  match r with CS | DS | ES | FS | GS | SS => 16 | _ => 32 end.

(** The register file, and the file with the values [h]. *)
Record Regs := mkRegs {
  r_eax : Z; r_ebx : Z; r_ecx : Z; r_edx : Z; r_esi : Z; r_edi : Z; r_ebp : Z; r_esp : Z;
  r_eip : Z; r_eflags : Z; r_cs : Z; r_ds : Z; r_es : Z; r_fs : Z; r_gs : Z; r_ss : Z
}.

Definition rget (f : Regs) (r : Reg) : Z :=
  match r with
  | EAX => r_eax f | EBX => r_ebx f | ECX => r_ecx f | EDX => r_edx f
  | ESI => r_esi f | EDI => r_edi f | EBP => r_ebp f | ESP => r_esp f
  | EIP => r_eip f | EFLAGS => r_eflags f | CS => r_cs f | DS => r_ds f
  | ES => r_es f | FS => r_fs f | GS => r_gs f | SS => r_ss f
  end.

Definition tabulate (h : Reg -> Z) : Regs :=
  mkRegs (h EAX) (h EBX) (h ECX) (h EDX) (h ESI) (h EDI) (h EBP) (h ESP)
    (h EIP) (h EFLAGS) (h CS) (h DS) (h ES) (h FS) (h GS) (h SS).

Record Guest := mkGuest { g_regs : Regs; g_b16 : bool; g_mem : Mem }.

Definition gr (g : Guest) (r : Reg) : Z := rget (g_regs g) r.
Arguments gr : simpl never.

Definition upd (f : Regs) (r : Reg) (v : Z) : Regs :=
  tabulate (fun r' => if decide (r' = r) then v else rget f r').

Definition set_regs (f : Regs) (g : Guest) : Guest := mkGuest f (g_b16 g) (g_mem g).
Definition set_gmem (m : Mem) (g : Guest) : Guest := mkGuest (g_regs g) (g_b16 g) m.

(** [reg_x()] read and assigned: the assignment keeps the accessor's width. *)
Definition reg (r : Reg) : M Guest Z := gets (fun g => gr g r).
Definition set_reg (r : Reg) (v : Z) : M Guest unit :=
  modify (fun g => set_regs (upd (g_regs g) r (wrapu (width r) v)) g).

Definition reg_al (g : Guest) : Z := u8 (gr g EAX).
Definition reg_ah (g : Guest) : Z := u8 (Z.shiftr (gr g EAX) 8).
Definition reg_ch (g : Guest) : Z := u8 (Z.shiftr (gr g ECX) 8).

Definition clip16 (g : Guest) (v : Z) : Z := if g_b16 g then Z.land v 65535 else v.

Definition set_carry : M Guest unit := v ← reg EFLAGS; set_reg EFLAGS (Z.lor v 1).
Definition clear_carry : M Guest unit := v ← reg EFLAGS; set_reg EFLAGS (Z.land v (u32 (Z.lnot 1))).
Definition set_syscall_error (qnx_errno : Z) : M Guest unit :=
  _ ← set_reg EAX qnx_errno; set_carry.
(** The carry flag is left as it was. *)
Definition set_syscall_ok : M Guest unit := set_reg EAX 0.

(** [enum SegmentRegister]; GS is not one of them. *)
Inductive SegmentRegister := SegCS | SegDS | SegES | SegFS | SegSS.

Definition get_seg (s : SegmentRegister) (g : Guest) : Z :=
  match s with
  | SegCS => gr g CS | SegDS => gr g DS | SegES => gr g ES
  | SegFS => gr g FS | SegSS => gr g SS
  end.

Section Context.
Context {T : Translation}.

(** ** Memory *)

Definition read_data (s : SegmentRegister) (addr : Z) (size : nat) : M Guest (list Z) :=
  g ← get;
  linear ← lift (translate (mkFarPointer (get_seg s g) (u32 addr)) (Z.of_nat size) READ);
  mret (load (g_mem g) linear size).

Definition write_data (s : SegmentRegister) (addr : Z) (src : list Z) : M Guest unit :=
  g ← get;
  linear ← lift (translate (mkFarPointer (get_seg s g) (u32 addr)) (Z.of_nat (length src)) WRITE);
  modify (fun g => set_gmem (store (g_mem g) linear src) g).

(** [read<T>] and [write<T>] of an [n]-byte integer. *)
Definition read (n : nat) (s : SegmentRegister) (addr : Z) : M Guest Z :=
  bs ← read_data s addr n; mret (le_val bs).
Definition write (n : nat) (s : SegmentRegister) (addr value : Z) : M Guest unit :=
  write_data s addr (le_bytes n value).

Definition decode_u16s (n : nat) (bs : list Z) : list Z :=
  (fun i => u16 (le_val (slice (2 * i) 2 bs))) <$> seq 0 n.
Definition read_stack16 (offset count : nat) : M Guest (list Z) :=
  esp ← reg ESP;
  bs ← read_data SegSS (esp + Z.of_nat offset * 2) (count * 2);
  mret (decode_u16s count bs).

Definition read_string (ptr : FarPointer) (size : nat) : M Guest cstring :=
  g ← get;
  match translate ptr (Z.of_nat size) READ with
  | Ok mem => mret (cstr (load (g_mem g) mem size))
  | Throw (GuestStateException _) => mret (lit "<unreadable>")
  | Throw e => throw e
  end.

(** ** The stack *)

Definition push_n (n : nat) (value : Z) : M Guest unit :=
  esp ← reg ESP;
  _ ← set_reg ESP (esp - Z.of_nat n);
  esp ← reg ESP;
  write n SegSS esp value.

Definition pop_n (n : nat) : M Guest Z :=
  esp ← reg ESP;
  v ← read n SegSS esp;
  esp ← reg ESP;
  _ ← set_reg ESP (esp + Z.of_nat n);
  mret v.

Definition push_stack (value : Z) : M Guest unit := push_n 4 value.
Definition push_stack16 (value : Z) : M Guest unit := push_n 2 value.
Definition pop_stack : M Guest Z := pop_n 4.
Definition pop_stack16 : M Guest Z := pop_n 2.

(** [push_stack(reg_x())] and [reg_x() = pop_stack()]. *)
Definition push_reg (r : Reg) : M Guest unit := v ← reg r; push_stack v.
Definition pop_reg (r : Reg) : M Guest unit := v ← pop_stack; set_reg r v.

Definition save_context : M Guest unit :=
  esp ← reg ESP;
  _ ← push_reg EAX;
  _ ← push_reg ECX;
  _ ← push_reg EDX;
  _ ← push_reg EBX;
  _ ← push_stack esp;
  _ ← push_reg EBP;
  _ ← push_reg ESI;
  _ ← push_reg EDI;
  _ ← push_reg EFLAGS;
  _ ← push_reg CS;
  _ ← push_reg EIP;
  _ ← push_reg DS;
  _ ← push_reg ES;
  _ ← push_reg GS;
  push_reg SS.

Definition restore_context : M Guest unit :=
  _ ← pop_reg SS;
  _ ← pop_reg GS;
  _ ← pop_reg ES;
  _ ← pop_reg DS;
  _ ← pop_reg EIP;
  _ ← pop_reg CS;
  _ ← pop_reg EFLAGS;
  _ ← pop_reg EDI;
  _ ← pop_reg ESI;
  _ ← pop_reg EBP;
  _ ← pop_stack;
  _ ← pop_reg EBX;
  _ ← pop_reg EDX;
  _ ← pop_reg ECX;
  pop_reg EAX.
End Context.

Definition clear_64bit_state (g : Guest) : Guest :=
  set_regs (tabulate (fun r => match r with
    | EIP | EDI | ESI | EBP | ESP | EBX | EDX | ECX | EAX => 0
    | _ => gr g r end)) g.

(** [read_data_partial]: the copy of what lies before the segment's end, at most
    [size] bytes.  The number of bytes is computed as [addr - size()], modulo
    2^32, and [size] bytes are copied whatever it is: a copy past the last mapped
    byte reads outside the segment. *)
Definition read_data_partial (sp : Space) (s : SegmentRegister) (addr size : Z)
  : M Guest (list Z * Z) :=
  g ← get;
  match descriptor_by_selector sp (get_seg s g) ≫= (fun sd => segs sp !! sd_seg sd) with
  | None => throw (Undefined "null descriptor")
  | Some seg =>
      if Segment.size seg <=? addr then throw (SegmentationFault "Read past segment end")
      else
        let effective_size := Z.min size (u32 (addr - u32 (Segment.size seg))) in
        linear ← lift (pointer seg addr effective_size);
        whole ← lift (check_bounds seg addr size);
        _ ← lift (check whole (Undefined "over-read"));
        mret (load (g_mem g) linear (Z.to_nat size), effective_size)
  end.

(** The translation the process provides. *)
Definition space_translation (sp : Space) : Translation := {| translate := translate_segmented sp |}.

(** ** Facts *)

Definition regs_ok (g : Guest) : Prop := forall r, 0 <= gr g r < 2 ^ width r.

Lemma rget_tabulate h r : rget (tabulate h) r = h r.
Proof. by destruct r. Qed.

Lemma rget_upd f r v r' : rget (upd f r v) r' = if decide (r' = r) then v else rget f r'.
Proof. apply rget_tabulate. Qed.

Lemma regs_ext f1 f2 : (forall r, rget f1 r = rget f2 r) -> f1 = f2.
Proof.
  intros H. destruct f1, f2.
  f_equal; [exact (H EAX)|exact (H EBX)|exact (H ECX)|exact (H EDX)|exact (H ESI)|exact (H EDI)
    |exact (H EBP)|exact (H ESP)|exact (H EIP)|exact (H EFLAGS)|exact (H CS)|exact (H DS)
    |exact (H ES)|exact (H FS)|exact (H GS)|exact (H SS)].
Qed.

Lemma upd_upd f r v w : upd (upd f r v) r w = upd f r w.
Proof. apply regs_ext. intros r'. rewrite !rget_upd. by destruct (decide (r' = r)). Qed.

Lemma upd_id f r : upd f r (rget f r) = f.
Proof. apply regs_ext. intros r'. rewrite rget_upd. by destruct (decide (r' = r)) as [-> |]. Qed.

Lemma upd_comm f r1 r2 v1 v2 : r1 <> r2 -> upd (upd f r1 v1) r2 v2 = upd (upd f r2 v2) r1 v1.
Proof.
  intros Hr. apply regs_ext. intros r. rewrite !rget_upd.
  destruct (decide (r = r1)), (decide (r = r2)); congruence.
Qed.

Lemma esp_range g : regs_ok g -> 0 <= gr g ESP < 2 ^ 32.
Proof. intros H. exact (H ESP). Qed.

Lemma ss_range g : regs_ok g -> 0 <= gr g SS < 2 ^ 16.
Proof. intros H. exact (H SS). Qed.

Lemma gr_upd g r v r' :
  gr (set_regs (upd (g_regs g) r v) g) r' = if decide (r' = r) then v else gr g r'.
Proof. apply rget_upd. Qed.

Lemma regs_ok_upd g r v :
  regs_ok g -> 0 <= v < 2 ^ width r -> regs_ok (set_regs (upd (g_regs g) r v) g).
Proof.
  intros Hg Hv r'. rewrite gr_upd.
  destruct (decide (r' = r)) as [-> |]; [done|apply Hg].
Qed.

Lemma set_reg_run r v g :
  set_reg r v g = (set_regs (upd (g_regs g) r (wrapu (width r) v)) g, Ok ()).
Proof. done. Qed.

(** Bytes of a list of 32-bit words. *)
Definition frame (ws : list Z) : list Z := concat (le_bytes 4 <$> ws).

Lemma length_frame ws : length (frame ws) = (4 * length ws)%nat.
Proof.
  unfold frame. induction ws as [|w ws IH]; [done|]. cbn [fmap list_fmap concat].
  rewrite length_app, length_le_bytes, IH. simpl. lia.
Qed.

Lemma frame_app ws1 ws2 : frame (ws1 ++ ws2) = frame ws1 ++ frame ws2.
Proof. unfold frame. by rewrite fmap_app, concat_app. Qed.

Lemma store_app m a bs1 bs2 :
  store m a (bs1 ++ bs2) = store (store m (a + Z.of_nat (length bs1)) bs2) a bs1.
Proof.
  revert a. induction bs1 as [|b bs1 IH]; intros a; simpl.
  - by rewrite Z.add_0_r.
  - rewrite IH. do 3 f_equal. lia.
Qed.

(** The address space implements the interface the messages and the stack rely
    on. *)
Lemma translate_Ok sp p n op a :
  wf_space sp -> 0 < n -> 0 <= Types.m_offset p -> Types.m_offset p + n <= 2 ^ 32 ->
  translate_segmented sp p n op = Ok a <->
  exists sd s, descriptor_by_selector sp (Types.m_segment p) = Some sd /\ segs sp !! sd_seg sd = Some s /\
    (forall i, Types.m_offset p <= i < Types.m_offset p + n -> mapped s i) /\
    a = m_location s + Types.m_offset p.
Proof.
  intros (H1 & _ & _ & _ & H5) Hn Ho Hle. unfold translate_segmented.
  destruct (descriptor_by_selector sp (Types.m_segment p)) as [sd|] eqn:Ed;
    [|split; [done|intros (? & ? & ? & _); done]].
  destruct (H5 _ _ Ed) as (_ & s & Hs). rewrite Hs.
  destruct (check_bounds_range s (Types.m_offset p) n (H1 _ _ Hs)) as (b & Hb & Hiff & Hp); [lia|lia|].
  rewrite Hb. cbn. destruct b; simpl.
  - destruct Hp as [Hp _]. rewrite Hp. split.
    + intros [= <-]. exists sd, s. split; [done|]. split; [done|]. split; [by apply Hiff|done].
    + by intros (sd' & s' & [= <-] & Hs' & _ & ->); simplify_eq.
  - split; [done|]. intros (sd' & s' & [= <-] & Hs' & Hm & _). rewrite Hs in Hs'.
    injection Hs' as <-. apply Hiff in Hm. done.
Qed.

Lemma space_translation_laws sp : wf_space sp -> TranslationLaws (space_translation sp).
Proof.
  intros Hwf p n op a k m op' Ht Hk Hm Hle Hseg Ho Hon. simpl in *.
  apply translate_Ok in Ht as (sd & s & Hd & Hs & Hmap & ->); [|done|lia|done|done].
  apply translate_Ok; simpl; [done|lia|lia|lia|]. exists sd, s. split; [done|]. split; [done|].
  split; [|lia]. intros i Hi. apply Hmap. lia.
Qed.

Section Stack.
Context {T : Translation} (L : TranslationLaws T).

(** [n] bytes below the stack pointer translate to host address [a]. *)
Definition stack_at (g : Guest) (n a : Z) : Prop :=
  regs_ok g /\ 0 < n <= gr g ESP /\ translate (mkFarPointer (gr g SS) (gr g ESP - n)) n WRITE = Ok a.

(** The state after [n] bytes were pushed. *)
Definition pushed (g : Guest) (a : Z) (bs : list Z) : Guest :=
  set_gmem (store (g_mem g) a bs)
    (set_regs (upd (g_regs g) ESP (gr g ESP - Z.of_nat (length bs))) g).

Lemma push_n_run k v g a :
  stack_at g (Z.of_nat k) a -> push_n k v g = (pushed g a (le_bytes k v), Ok ()).
Proof.
  intros (Hr & Hk & Ht). pose proof (esp_range g Hr) as He.
  unfold push_n, reg, set_reg, write, write_data, gets, get, modify, lift, mbind, M_bind.
  cbn [get_seg width]. rewrite !gr_upd, decide_False, decide_True by done.
  assert (E : u32 (gr g ESP - Z.of_nat k) = gr g ESP - Z.of_nat k) by (apply wrapu_small; lia).
  rewrite !E, length_le_bytes.
  rewrite Ht. unfold pushed. by rewrite length_le_bytes.
Qed.

Fixpoint push_all (vs : list Z) : M Guest unit :=
  match vs with [] => mret () | v :: vs => _ ← push_stack v; push_all vs end.

Lemma stack_at_part g n a k :
  stack_at g n a -> 0 < k <= n -> stack_at g k (a + (n - k)).
Proof.
  intros (Hr & Hn & Ht) Hk. pose proof (esp_range g Hr). pose proof (ss_range g Hr).
  split; [done|]. split; [lia|].
  replace (gr g ESP - k) with (gr g ESP - n + (n - k)) by lia.
  apply (L (mkFarPointer (gr g SS) (gr g ESP - n)) n WRITE a (n - k) k WRITE);
    cbn [Types.m_segment Types.m_offset]; done || lia.
Qed.

Lemma stack_at_pushed g n a bs :
  stack_at g n a -> Z.of_nat (length bs) < n ->
  stack_at (pushed g (a + (n - Z.of_nat (length bs))) bs) (n - Z.of_nat (length bs)) a.
Proof.
  intros (Hr & Hn & Ht) Hl. pose proof (esp_range g Hr) as He. pose proof (ss_range g Hr) as Hs.
  assert (Hg1 : gr (pushed g (a + (n - Z.of_nat (length bs))) bs) ESP = gr g ESP - Z.of_nat (length bs)).
  { apply rget_upd. }
  assert (Hg2 : gr (pushed g (a + (n - Z.of_nat (length bs))) bs) SS = gr g SS).
  { apply rget_upd. }
  split; [|split].
  - apply regs_ok_upd; [done|]. cbn [width]. lia.
  - rewrite Hg1. lia.
  - rewrite Hg1, Hg2. pose proof (L _ _ _ _ 0 (n - Z.of_nat (length bs)) WRITE Ht) as Hp.
    cbn [Types.m_segment Types.m_offset] in Hp.
    rewrite !Z.add_0_r in Hp.
    replace (gr g ESP - Z.of_nat (length bs) - (n - Z.of_nat (length bs))) with (gr g ESP - n) by lia.
    apply Hp; lia.
Qed.

Lemma pushed_pushed g a bs1 bs2 :
  pushed (pushed g (a + Z.of_nat (length bs2)) bs1) a bs2 = pushed g a (bs2 ++ bs1).
Proof.
  unfold pushed at 1 3. rewrite store_app, length_app.
  assert (Hg1 : gr (pushed g (a + Z.of_nat (length bs2)) bs1) ESP = gr g ESP - Z.of_nat (length bs1))
    by apply rget_upd.
  rewrite Hg1. unfold pushed, set_gmem, set_regs. cbn [g_regs g_mem g_b16]. rewrite upd_upd.
  do 2 f_equal. lia.
Qed.

(** Pushing a list of words leaves them in memory in the order they pop. *)
Lemma push_all_run vs : forall g a,
  vs <> [] -> stack_at g (4 * Z.of_nat (length vs)) a ->
  push_all vs g = (pushed g a (frame (rev vs)), Ok ()).
Proof.
  induction vs as [|v vs IH]; intros g a Hne Hs; [done|]. cbn [push_all length] in *.
  pose proof (stack_at_part _ _ _ 4 Hs ltac:(lia)) as Hp.
  unfold mbind, M_bind, push_stack. rewrite (push_n_run 4 v g _ Hp).
  destruct vs as [|w vs].
  - simpl. by replace (a + _) with a by lia.
  - pose proof (stack_at_pushed g _ a (le_bytes 4 v) Hs) as Hp'.
    rewrite length_le_bytes in Hp'. specialize (Hp' ltac:(simpl; lia)).
    replace (4 * Z.of_nat (S (length (w :: vs))) - Z.of_nat 4) with (4 * Z.of_nat (length (w :: vs)))
      in Hp' by lia.
    replace (4 * Z.of_nat (S (length (w :: vs))) - 4) with (4 * Z.of_nat (length (w :: vs))) by lia.
    rewrite (IH _ a); [|done|exact Hp'].
    change (rev (v :: w :: vs)) with (rev (w :: vs) ++ [v]). rewrite frame_app.
    change (frame [v]) with (le_bytes 4 v ++ []). rewrite app_nil_r, <- pushed_pushed.
    do 4 f_equal. rewrite length_frame, length_rev. simpl. lia.
Qed.

(** *** Saving *)

(** What [save_context] pushes: a register, or a value read before. *)
Definition push_item (i : Reg + Z) : M Guest unit :=
  match i with inl r => push_reg r | inr v => push_stack v end.
Definition item_value (g : Guest) (i : Reg + Z) : Z :=
  match i with inl r => gr g r | inr v => v end.

Fixpoint push_items (l : list (Reg + Z)) : M Guest unit :=
  match l with
  | [] => mret ()
  | [i] => push_item i
  | i :: l => _ ← push_item i; push_items l
  end.

Lemma push_n_keeps k v g g' r : push_n k v g = (g', r) -> forall x, x <> ESP -> gr g' x = gr g x.
Proof.
  intros H x Hx. revert H.
  unfold push_n, reg, set_reg, write, write_data, gets, get, modify, lift, mbind, M_bind.
  destruct (translate _ _ _); intros [= <- _]; unfold gr; cbn [set_gmem set_regs g_regs];
    rewrite rget_upd; by destruct (decide (x = ESP)).
Qed.

Lemma push_item_value g i : push_item i g = push_stack (item_value g i) g.
Proof. by destruct i. Qed.

Lemma push_items_all l : forall g, inl ESP ∉ l ->
  push_items l g = push_all (item_value g <$> l) g.
Proof.
  induction l as [|i l IH]; intros g Hl; [done|].
  assert (Hi : push_items (i :: l) g = (_ ← push_item i; push_items l) g).
  { destruct l; [|done]. cbn [push_items]. unfold mbind, M_bind.
    by destruct (push_item i g) as [g' [[]|e]]. }
  rewrite Hi. cbn [fmap list_fmap push_all]. unfold mbind, M_bind.
  rewrite push_item_value. destruct (push_stack _ g) as [g' [[]|e]] eqn:E; [|done].
  apply not_elem_of_cons in Hl as [Hl1 Hl2]. rewrite IH by done. f_equal.
  apply list_fmap_ext. intros k x Hx. destruct x as [r|v]; [|done]. simpl.
  apply (push_n_keeps _ _ _ _ _ E). intros ->. apply Hl2. by eapply list_elem_of_lookup_2.
Qed.

(** The words of the frame, from the lowest address. *)
Definition saved_words (g : Guest) : list Z :=
  [gr g SS; gr g GS; gr g ES; gr g DS; gr g EIP; gr g CS; gr g EFLAGS; gr g EDI; gr g ESI;
   gr g EBP; gr g ESP; gr g EBX; gr g EDX; gr g ECX; gr g EAX].

Lemma save_context_run g a :
  stack_at g 60 a -> save_context g = (pushed g a (frame (saved_words g)), Ok ()).
Proof.
  intros Hs.
  change (save_context g) with
    (push_items [inl EAX; inl ECX; inl EDX; inl EBX; inr (gr g ESP); inl EBP; inl ESI; inl EDI;
                 inl EFLAGS; inl CS; inl EIP; inl DS; inl ES; inl GS; inl SS] g).
  rewrite push_items_all by (intros Hin; set_unfold; naive_solver).
  cbn [fmap list_fmap item_value]. rewrite (push_all_run _ g a) by done. done.
Qed.

(** *** Restoring *)

Definition pop_item (o : option Reg) : M Guest unit :=
  match o with Some r => pop_reg r | None => _ ← pop_stack; mret () end.

Fixpoint pop_items (l : list (option Reg)) : M Guest unit :=
  match l with [] => mret () | o :: l => _ ← pop_item o; pop_items l end.

Definition put_reg (f : Regs) (o : option Reg) (w : Z) : Regs :=
  match o with Some r => upd f r (wrapu (width r) w) | None => f end.

(** The registers after popping the words [ws] into [l]. *)
Fixpoint popped (l : list (option Reg)) (ws : list Z) (f : Regs) : Regs :=
  match l, ws with
  | o :: l, w :: ws => popped l ws (put_reg f o w)
  | _, _ => f
  end.

Lemma popped_esp l ws : forall f x y, Some ESP ∉ l ->
  upd (popped l ws (upd f ESP x)) ESP y = upd (popped l ws f) ESP y.
Proof.
  revert ws. induction l as [|o l IH]; intros ws f x y Hl; [destruct ws; apply upd_upd|].
  destruct ws as [|w ws]; [apply upd_upd|]. apply not_elem_of_cons in Hl as [Hl1 Hl2].
  cbn [popped]. destruct o as [r|]; cbn [put_reg]; [|by apply IH].
  rewrite upd_comm by congruence. by apply IH.
Qed.

(** [n] words from the stack pointer translate to [a]. *)
Definition stack_up (g : Guest) (n a : Z) : Prop :=
  regs_ok g /\ 0 < n /\ gr g ESP + n < 2 ^ 32 /\
  translate (mkFarPointer (gr g SS) (gr g ESP)) n WRITE = Ok a.

Lemma pop_n_run k g n a :
  stack_up g n a -> (0 < k)%nat -> Z.of_nat k <= n ->
  pop_n k g = (set_regs (upd (g_regs g) ESP (gr g ESP + Z.of_nat k)) g, Ok (le_val (load (g_mem g) a k))).
Proof.
  intros (Hr & Hn & Hlt & Ht) Hk Hle. pose proof (esp_range g Hr). pose proof (ss_range g Hr).
  unfold pop_n, reg, set_reg, read, read_data, gets, get, modify, lift, mbind, M_bind, mret, M_ret.
  cbn [get_seg width]. rewrite !(wrapu_small 32) by lia.
  pose proof (L _ _ _ _ 0 (Z.of_nat k) READ Ht) as Hp. cbn [Types.m_segment Types.m_offset] in Hp.
  rewrite !Z.add_0_r in Hp. rewrite Hp by lia. by rewrite wrapu_small by lia.
Qed.

Lemma stack_up_next g f n k a :
  stack_up g n a -> 0 <= k < n -> regs_ok (set_regs f g) -> rget f SS = gr g SS ->
  rget f ESP = gr g ESP + k -> stack_up (set_regs f g) (n - k) (a + k).
Proof.
  intros (Hr & Hn & Hlt & Ht) Hk Hf Hss Hesp. pose proof (esp_range g Hr). pose proof (ss_range g Hr).
  split; [done|]. unfold gr at 1 2 3. cbn [set_regs g_regs]. rewrite Hss, Hesp.
  split; [lia|]. split; [lia|].
  apply (L _ _ _ _ k (n - k) WRITE Ht); cbn [Types.m_segment Types.m_offset]; lia.
Qed.

Lemma put_reg_ok f o w g :
  regs_ok (set_regs f g) -> 0 <= w < 2 ^ 32 -> regs_ok (set_regs (put_reg f o w) g).
Proof.
  intros Hf Hw. destruct o as [r|]; [|done]. intros x. unfold gr. cbn [put_reg set_regs g_regs].
  rewrite rget_upd. destruct (decide (x = r)) as [-> |]; [|exact (Hf x)].
  apply wrapu_range. by destruct r.
Qed.

Lemma frame_cons w ws : frame (w :: ws) = le_bytes 4 w ++ frame ws.
Proof. done. Qed.

Lemma load_frame_cons m a w ws :
  load m a (4 * length (w :: ws)) = frame (w :: ws) ->
  load m a 4 = le_bytes 4 w /\ load m (a + 4) (4 * length ws) = frame ws.
Proof.
  replace (4 * length (w :: ws))%nat with (4 + 4 * length ws)%nat by (simpl; lia).
  rewrite load_app, frame_cons. intros H.
  apply app_inj_1 in H; [done|]. by rewrite length_load, length_le_bytes.
Qed.

Lemma pop_items_run l : forall ws g a,
  length ws = length l -> l <> [] -> Some ESP ∉ l -> Forall (fun w => 0 <= w < 2 ^ 32) ws ->
  (forall k w, l !! k = Some (Some SS) -> ws !! k = Some w -> wrapu 16 w = gr g SS) ->
  stack_up g (4 * Z.of_nat (length l)) a -> load (g_mem g) a (4 * length ws) = frame ws ->
  pop_items l g =
    (set_regs (upd (popped l ws (g_regs g)) ESP (gr g ESP + 4 * Z.of_nat (length l))) g, Ok ()).
Proof.
  induction l as [|o l IH]; intros ws g a Hlen Hne Hesp Hws Hss Hst Hld; [done|].
  destruct ws as [|w ws]; [done|]. apply load_frame_cons in Hld as [Hw Hld].
  apply Forall_cons in Hws as [Hw32 Hws]. apply not_elem_of_cons in Hesp as [Ho Hesp].
  injection Hlen as Hlen. cbn [pop_items length popped] in *.
  set (f1 := upd (g_regs g) ESP (gr g ESP + 4)). set (f := put_reg f1 o w).
  assert (Hstep : pop_item o g = (set_regs f g, Ok ())).
  { unfold pop_item, pop_reg, pop_stack, mbind, M_bind.
    pose proof (pop_n_run 4 g _ a Hst ltac:(lia) ltac:(lia)) as Hp.
    rewrite Hw, le_val_bytes, wrapu_small in Hp by (simpl; lia).
    destruct o as [r|]; rewrite Hp; [|done]. by rewrite set_reg_run. }
  unfold mbind, M_bind. rewrite Hstep.
  assert (Hf1 : rget f ESP = gr g ESP + 4).
  { subst f. destruct o as [r|]; cbn [put_reg]; rewrite ?rget_upd.
    - rewrite decide_False by congruence. apply rget_upd.
    - apply rget_upd. }
  assert (Hf2 : rget f SS = gr g SS).
  { subst f. destruct o as [r|]; cbn [put_reg].
    - rewrite rget_upd. destruct (decide (SS = r)) as [<-|]; [|apply rget_upd].
      by apply (Hss 0%nat).
    - apply rget_upd. }
  assert (Hcom : forall ws, upd (popped l ws f) ESP (gr g ESP + 4 * Z.of_nat (S (length l))) =
    upd (popped l ws (put_reg (g_regs g) o w)) ESP (gr g ESP + 4 * Z.of_nat (S (length l)))).
  { intros ws'. subst f f1. destruct o as [r|]; cbn [put_reg]; [|by apply popped_esp].
    rewrite upd_comm by congruence. by apply popped_esp. }
  destruct l as [|o' l].
  - destruct ws; [|done]. specialize (Hcom []). cbn [popped length] in Hcom. cbn [popped pop_items length].
    rewrite <- Hcom. change (4 * Z.of_nat 1) with 4. rewrite <- Hf1. by rewrite upd_id.
  - rewrite (IH ws _ (a + 4)); try done.
    + rewrite <- Hcom. unfold gr at 1. cbn [set_regs g_regs]. rewrite Hf1.
      unfold set_regs. cbn [g_b16 g_mem]. do 3 f_equal. cbn [length]. lia.
    + intros k w' Hk Hw'. unfold gr. cbn [set_regs g_regs]. rewrite Hf2. by apply (Hss (S k)).
    + replace (4 * Z.of_nat (length (o' :: l))) with (4 * Z.of_nat (S (length (o' :: l))) - 4) by lia.
      pose proof Hst as (Hr & _ & Hlt & _). pose proof (esp_range g Hr).
      apply (stack_up_next _ _ _ 4); [done|cbn [length]; lia| |done|done].
      apply put_reg_ok; [|done]. apply regs_ok_upd; [done|]. cbn [width length] in *. lia.
Qed.

(** The frame popped: every saved register as it was when the frame was pushed. *)
Lemma restore_context_run g g0 a :
  regs_ok g0 -> gr g SS = gr g0 SS -> stack_up g 60 a ->
  load (g_mem g) a 60 = frame (saved_words g0) ->
  exists f, restore_context g = (set_regs f g, Ok ()) /\
    forall r, rget f r = if decide (r = ESP) then gr g ESP + 60
                         else if decide (r = FS) then gr g FS else gr g0 r.
Proof.
  intros H0 Hss Hst Hld.
  set (l := [Some SS; Some GS; Some ES; Some DS; Some EIP; Some CS; Some EFLAGS; Some EDI; Some ESI;
             Some EBP; None; Some EBX; Some EDX; Some ECX; Some EAX]).
  assert (Hrun : restore_context g = pop_items l g).
  { unfold l, restore_context. cbn [pop_items pop_item]. unfold mbind, M_bind, mret, M_ret.
    repeat match goal with
    | |- context [match pop_reg ?r ?g with _ => _ end] => destruct (pop_reg r g) as [? [[]|?]]; [|done]
    | |- context [match pop_stack ?g with _ => _ end] => destruct (pop_stack g) as [? [?|?]]; [|done]
    end. done. }
  assert (H16 : forall r, width r = 16 -> 0 <= gr g0 r < 2 ^ 32).
  { intros r Hr. specialize (H0 r). rewrite Hr in H0. lia. }
  assert (H32 : forall r, width r = 32 -> 0 <= gr g0 r < 2 ^ 32).
  { intros r Hr. specialize (H0 r). by rewrite Hr in H0. }
  eexists. split.
  - rewrite Hrun. apply (pop_items_run l (saved_words g0) g a); try done.
    + intros Hin. repeat (apply elem_of_cons in Hin as [?|Hin]; [discriminate|]). by apply elem_of_nil in Hin.
    + unfold saved_words. repeat (apply Forall_cons; split; [first [by apply H16|by apply H32]|]). constructor.
    + intros k w Hk Hw. destruct k as [|k]; [|by do 14 (destruct k as [|k]; [discriminate Hk|])].
      injection Hw as <-. rewrite wrapu_small; [done|]. apply (H0 SS).
  - intros r. rewrite rget_upd. destruct (decide (r = ESP)); [done|].
    unfold l, saved_words. cbn [popped put_reg]. rewrite !rget_upd.
    pose proof (fun r => wrapu_small (width r) (gr g0 r) (H0 r)) as Hw.
    destruct r; first [done | apply (Hw EAX) | apply (Hw EBX) | apply (Hw ECX) | apply (Hw EDX)
      | apply (Hw ESI) | apply (Hw EDI) | apply (Hw EBP) | apply (Hw EIP) | apply (Hw EFLAGS)
      | apply (Hw CS) | apply (Hw DS) | apply (Hw ES) | apply (Hw GS) | apply (Hw SS)].
Qed.
End Stack.

(** ** Properties *)

(** The context saved on the guest's stack comes back.  With 60 accessible
    bytes below the stack pointer, [save_context] succeeds, moves the stack
    pointer by exactly 60 and changes no other register and no memory outside
    those bytes; whatever the guest then does to its registers and to the rest
    of its memory, restoring from that frame gives every register its saved
    value - except FS, which is not part of the frame, and the stack pointer,
    which ends where it was before the save. *)
Theorem context_roundtrip (T : Translation) (L : TranslationLaws T) g a :
  stack_at g 60 a ->
  exists g1, save_context g = (g1, Ok ()) /\
    gr g1 ESP = gr g ESP - 60 /\ (forall r, r <> ESP -> gr g1 r = gr g r) /\
    (forall x, x < a \/ a + 60 <= x -> peek (g_mem g1) x = peek (g_mem g) x) /\
    forall g2,
      regs_ok g2 -> gr g2 SS = gr g SS -> gr g2 ESP = gr g1 ESP ->
      load (g_mem g2) a 60 = load (g_mem g1) a 60 ->
      exists g3, restore_context g2 = (g3, Ok ()) /\ g_mem g3 = g_mem g2 /\
        forall r, gr g3 r = if decide (r = FS) then gr g2 FS else gr g r.
Proof.
  intros Hs. pose proof Hs as (Hr & Hn & Ht).
  pose proof (esp_range g Hr) as He. pose proof (ss_range g Hr).
  set (bs := frame (saved_words g)).
  assert (Hlen : length bs = 60%nat) by apply length_frame.
  assert (Hesp : gr (pushed g a bs) ESP = gr g ESP - 60).
  { unfold gr, pushed. cbn [set_gmem set_regs g_regs]. rewrite rget_upd, Hlen. done. }
  exists (pushed g a bs). split; [by apply save_context_run|]. split; [done|]. split; [|split].
  - intros r Hne. unfold gr, pushed. cbn [set_gmem set_regs g_regs]. rewrite rget_upd.
    by rewrite decide_False.
  - intros x Hx. unfold pushed. cbn [set_gmem g_mem]. rewrite peek_store, Hlen.
    destruct (Z.leb_spec a x), (Z.ltb_spec x (a + Z.of_nat 60)); simpl; done || lia.
  - intros g2 Hr2 Hss Hesp2 Hld. rewrite Hesp in Hesp2.
    assert (Hst : stack_up g2 60 a).
    { split; [done|]. rewrite Hesp2, Hss. split; [lia|]. split; [lia|done]. }
    destruct (restore_context_run L g2 g a Hr Hss Hst) as (f & Hf & Hget).
    { rewrite Hld. unfold pushed. cbn [set_gmem g_mem]. rewrite <- Hlen. apply load_store. }
    exists (set_regs f g2). split; [done|]. split; [done|].
    intros r. unfold gr. cbn [set_regs g_regs]. rewrite Hget.
    destruct (decide (r = ESP)) as [-> |].
    + rewrite decide_False by done. change (gr g2 ESP + 60 = gr g ESP). lia.
    + done.
Qed.

(** A guest with its stack in the page of [demo_space]. *)
Definition demo_guest : Guest :=
  mkGuest (mkRegs 1 2 3 4 5 6 7 2048 100 514 7 7 7 7 7 7) false ∅.

Lemma demo_regs_ok : regs_ok demo_guest.
Proof. intros r. destruct r; vm_compute; intuition discriminate. Qed.

Lemma context_roundtrip_witness :
  stack_at (T := space_translation demo_space) demo_guest 60 (2 ^ 26 + 1988) /\
  exists g1, save_context (T := space_translation demo_space) demo_guest = (g1, Ok ()) /\
    gr g1 ESP = 1988.
Proof.
  assert (Hs : stack_at (T := space_translation demo_space) demo_guest 60 (2 ^ 26 + 1988)).
  { split; [exact demo_regs_ok|]. split; [vm_compute; intuition discriminate|vm_compute; reflexivity]. }
  split; [exact Hs|].
  destruct (context_roundtrip (space_translation demo_space) (space_translation_laws _ wf_demo_space)
              demo_guest (2 ^ 26 + 1988) Hs) as (g1 & H1 & H2 & _).
  exists g1. split; [exact H1|exact H2].
Defined.
