(* ===== verification/Emu.v ===== *)
(** * Emu: [emu.h], [emu.cpp] and [qnx/procenv.h], [qnx/sem.h], [qnx/osinfo.h]

    The emulator proper.  Guest code traps into [handler_segv], which decodes the
    trapping instruction and dispatches the system call; host signals arrive in
    [handler_generic]; both end in [signal_tail], which builds the frame of a
    pending QNX signal on the guest's stack, undone by the [sigreturn] system
    calls.  The message handlers, the dump of a guest that Qine gives up on
    ([GuestContext::dump], in [DebugDump]) and the host kernel are parameters; the
    calls made to the kernel are recorded in order. *)

From S2P Require Import Prelude Types Memory Segment AddressSpace Sigset PidMap Msg GuestContext Errno.

Definition REDLINE : Z := 128.
Definition sizeof_sem : Z := 8.
Definition sizeof_sigaction : Z := 10.

Inductive SigHandler := SigDfl | SigIgn | SigErr | StaticHandlerGeneric | StaticHandlerSegv | StaticHandlerUser.

(** The calls of the host kernel. *)
Inductive HostCall :=
| HKill (pid sig : Z)
| HSigaction (sig : Z) (handler : SigHandler)
| HSigmask (mask : gset Z)
| HUnblock (sig : Z)
| HRaise (sig : Z)
| HPause
| HYield
| HAltstackOff.

(** The state of the process the emulator works on.  [W] is the rest of it, which
    only the message handlers use. *)
Record EmuState (W : Type) := mkEmu {
  e_guest : Guest;
  e_space : Space;
  m_sigpend : Z;
  m_sigmask : Z;
  saved_sigmask : gset Z;
  m_sigtab : option Z;
  m_bits : Bitness;
  m_load_cs : Z;
  m_pids : PidMap;
  m_my_pid : Z;
  m_time_segment : nat;
  e_calls : list HostCall;
  e_world : W
}.
Arguments mkEmu {W}.
Arguments e_guest {W}.
Arguments e_space {W}.
Arguments m_sigpend {W}.
Arguments m_sigmask {W}.
Arguments saved_sigmask {W}.
Arguments m_sigtab {W}.
Arguments m_bits {W}.
Arguments m_load_cs {W}.
Arguments m_pids {W}.
Arguments m_my_pid {W}.
Arguments m_time_segment {W}.
Arguments e_calls {W}.
Arguments e_world {W}.

Section World.
Context {W : Type}.

Definition set_guest (g : Guest) (e : EmuState W) : EmuState W :=
  mkEmu g (e_space e) (m_sigpend e) (m_sigmask e) (saved_sigmask e) (m_sigtab e) (m_bits e)
    (m_load_cs e) (m_pids e) (m_my_pid e) (m_time_segment e) (e_calls e) (e_world e).
Definition set_sigs (pend mask : Z) (e : EmuState W) : EmuState W :=
  mkEmu (e_guest e) (e_space e) pend mask (saved_sigmask e) (m_sigtab e) (m_bits e)
    (m_load_cs e) (m_pids e) (m_my_pid e) (m_time_segment e) (e_calls e) (e_world e).
Definition set_saved (s : gset Z) (e : EmuState W) : EmuState W :=
  mkEmu (e_guest e) (e_space e) (m_sigpend e) (m_sigmask e) s (m_sigtab e) (m_bits e)
    (m_load_cs e) (m_pids e) (m_my_pid e) (m_time_segment e) (e_calls e) (e_world e).

Definition set_space (sp : Space) (e : EmuState W) : EmuState W :=
  mkEmu (e_guest e) sp (m_sigpend e) (m_sigmask e) (saved_sigmask e) (m_sigtab e) (m_bits e)
    (m_load_cs e) (m_pids e) (m_my_pid e) (m_time_segment e) (e_calls e) (e_world e).
Definition set_sigtab (t : option Z) (e : EmuState W) : EmuState W :=
  mkEmu (e_guest e) (e_space e) (m_sigpend e) (m_sigmask e) (saved_sigmask e) t (m_bits e)
    (m_load_cs e) (m_pids e) (m_my_pid e) (m_time_segment e) (e_calls e) (e_world e).
Definition set_pids (p : PidMap) (e : EmuState W) : EmuState W :=
  mkEmu (e_guest e) (e_space e) (m_sigpend e) (m_sigmask e) (saved_sigmask e) (m_sigtab e) (m_bits e)
    (m_load_cs e) p (m_my_pid e) (m_time_segment e) (e_calls e) (e_world e).
Definition set_my_pid (p : Z) (e : EmuState W) : EmuState W :=
  mkEmu (e_guest e) (e_space e) (m_sigpend e) (m_sigmask e) (saved_sigmask e) (m_sigtab e) (m_bits e)
    (m_load_cs e) (m_pids e) p (m_time_segment e) (e_calls e) (e_world e).
Definition set_world (w : W) (e : EmuState W) : EmuState W :=
  mkEmu (e_guest e) (e_space e) (m_sigpend e) (m_sigmask e) (saved_sigmask e) (m_sigtab e) (m_bits e)
    (m_load_cs e) (m_pids e) (m_my_pid e) (m_time_segment e) (e_calls e) w.

(** Record a call of the kernel. *)
Definition host_call (c : HostCall) : M (EmuState W) unit := Prelude.modify (fun e =>
  mkEmu (e_guest e) (e_space e) (m_sigpend e) (m_sigmask e) (saved_sigmask e) (m_sigtab e) (m_bits e)
    (m_load_cs e) (m_pids e) (m_my_pid e) (m_time_segment e) (e_calls e ++ [c]) (e_world e)).

(** A [GuestContext] operation, with the process's address space. *)
Definition on_guest {A} (op : Translation -> M Guest A) : M (EmuState W) A := fun e =>
  let '(g, r) := op (space_translation (e_space e)) (e_guest e) in (set_guest g e, r).

Definition greg (r : Reg) : M (EmuState W) Z := on_guest (fun _ => reg r).
Definition greg_set (r : Reg) (v : Z) : M (EmuState W) unit := on_guest (fun _ => set_reg r v).
Definition syscall_error (qnx_errno : Z) : M (EmuState W) unit :=
  on_guest (fun _ => set_syscall_error qnx_errno).
Definition syscall_ok : M (EmuState W) unit := on_guest (fun _ => set_syscall_ok).

(** Loads and stores through a host pointer into guest memory. *)
Definition host_load (a : Z) (n : nat) : M (EmuState W) (list Z) :=
  gets (fun e => load (g_mem (e_guest e)) a n).
Definition host_store (a : Z) (bs : list Z) : M (EmuState W) unit :=
  Prelude.modify (fun e => set_guest (set_gmem (store (g_mem (e_guest e)) a bs) (e_guest e)) e).

Definition is_segv (e : exn) : bool := match e with SegmentationFault _ => true | _ => false end.

(** ** Masks *)

Definition activesig (e : EmuState W) : Z := Sigset.modify (m_sigpend e) (m_sigmask e) 0.

(** The result is [true] and the errno to return, or [false]. *)
Definition should_preempt (e : EmuState W) : option Z :=
  if Sigset.is_empty (activesig e) then None else Some Errno.Qnx.QEINTR.

Definition sync_host_sigmask : M (EmuState W) unit :=
  e ← get;
  hs ← lift (map_to_host_sigset (m_sigmask e));
  Prelude.modify (set_saved (hs ∖ {[ Sigset.Host.SIGSEGV ]})).

Definition is_special_sighandler (qnx_handler : Z) : bool :=
  (qnx_handler =? Sigset.Qnx.QSIG_DFL) || (qnx_handler =? Sigset.Qnx.QSIG_HOLD)
  || (qnx_handler =? Sigset.Qnx.QSIG_ERR) || (qnx_handler =? Sigset.Qnx.QSIG_IGN).

Definition signal_raise (qnx_sig : Z) : M (EmuState W) unit :=
  e ← get;
  v ← lift (set_qnx_sig (m_sigpend e) qnx_sig);
  put (set_sigs v (m_sigmask e) e).

Definition signal_mask (change_mask bits : Z) : M (EmuState W) unit :=
  Prelude.modify (fun e => set_sigs (m_sigpend e) (Sigset.modify (m_sigmask e) change_mask bits) e).

Definition signal_getmask (e : EmuState W) : Z := m_sigmask e.

(** [qnx_sigtab]: the address of the [Sigaction] of a signal. *)
Definition qnx_sigtab (qnx_signo : Z) (required : bool) : M (EmuState W) (option Z) :=
  _ ← lift (check ((Sigset.Qnx.QSIGMIN <=? qnx_signo) && (qnx_signo <=? Sigset.Qnx.QSIGMAX)) AssertFailed);
  e ← get;
  match m_sigtab e with
  | None => if required then throw (GuestStateException "Sigtab not registered") else mret None
  | Some t => mret (Some (t + 4 + sizeof_sigaction * (qnx_signo - 1)))
  end.

(** [act->handler_fn], [act->mask], [m_sigtab->sigstub]. *)
Definition act_handler (m : Mem) (act : Z) : Z := le_val (load m act 4).
Definition act_mask (m : Mem) (act : Z) : Z := le_val (load m (act + 4) 4).
Definition sigstub (m : Mem) (tab : Z) : Z := le_val (load m tab 4).
Definition sigstub16 (m : Mem) (tab : Z) : FarPointer16 :=
  mkFarPointer16 (le_val (load m (tab + 2) 2)) (le_val (load m tab 2)).

(** [Emu::init]: the guarded alternate signal stack. *)
Definition space_seg {A} (r : nat) (op : M Segment A) : M Space A := fun sp =>
  match segs sp !! r with
  | None => (sp, Throw (Undefined "segment"))
  | Some s =>
      let '(s', o) := op s in
      (mkSpace (<[r := s']> (segs sp)) (next_seg sp) (AddressSpace.m_segments sp)
         (m_segment_descriptors sp) (ldt sp), o)
  end.

Definition init (mmap : Z -> Z -> Z -> Z -> option Z) (sigaltstack : Z -> Z -> bool) : M Space nat :=
  let stack_size := MemOps.PAGE_SIZE * 8 in
  m_emulation_stack ← allocate_segment;
  _ ← space_seg m_emulation_stack (reserve mmap (MemOps.PAGE_SIZE + stack_size));
  _ ← space_seg m_emulation_stack (skip_paged MemOps.PAGE_SIZE);
  _ ← space_seg m_emulation_stack (grow_paged mmap (Z.lor PROT_READ PROT_WRITE) stack_size);
  loc ← space_seg m_emulation_stack (gets location);
  if sigaltstack (u32 (loc + MemOps.PAGE_SIZE)) stack_size then mret m_emulation_stack
  else throw (RuntimeError "sigaltstack").

Section Kernel.
(** [clock_gettime(CLOCK_REALTIME)]; what [GuestContext::dump] raises, which leaves
    the guest as it is; [::kill] and [sigaction] as 0 or an errno. *)
Context (now : Z * Z) (dump : EmuState W -> outcome unit).
Context (host_kill : Z -> Z -> Z) (sigaction : Z -> SigHandler -> Z).

(** *** [Process::update_timesel] *)

Definition timesel_bytes (tv_sec tv_nsec : Z) : list Z :=
  let seconds := i32 tv_sec in
  let cycles := i64 (seconds * 1000 + Z.quot (Z.quot tv_nsec 1000) 1000) in
  le_bytes 4 tv_nsec ++ le_bytes 4 tv_sec ++ le_bytes 4 0 ++ le_bytes 4 1000
  ++ le_bytes 4 cycles ++ le_bytes 4 (Z.shiftr cycles 32) ++ le_bytes 4 0.

Definition update_timesel : M (EmuState W) unit :=
  e ← get;
  match segs (e_space e) !! m_time_segment e with
  | None => throw (Undefined "m_time_segment")
  | Some s =>
      t ← lift (pointer s 0 sizeof_timesel);
      host_store t (timesel_bytes (fst now) (snd now))
  end.

(** *** Signals *)

(** [ctx.dump(...)]. *)
Definition dump_context : M (EmuState W) unit := e ← get; lift (dump e).

(** The arguments of the signal stub, and the program counter at the stub. *)
Definition push_args (qnx_sig act tab : Z) : M (EmuState W) unit :=
  e ← get;
  match m_bits e with
  | B32 =>
      _ ← on_guest (fun _ => push_stack 0);
      _ ← on_guest (fun _ => push_stack qnx_sig);
      handler ← host_load act 4;
      _ ← on_guest (fun _ => push_stack (le_val handler));
      _ ← greg_set CS (m_load_cs e);
      stub ← host_load tab 4;
      greg_set EIP (le_val stub)
  | B16 =>
      _ ← on_guest (fun _ => push_stack16 qnx_sig);
      e ← get;
      let stub := sigstub16 (g_mem (e_guest e)) tab in
      _ ← greg_set CS (m_segment16 stub);
      greg_set EIP (m_offset16 stub)
  end.

(** Below the guest's red zone: its registers, [save_sigmask], the arguments. *)
Definition push_frame (save_sigmask qnx_sig act tab : Z) : M (EmuState W) unit :=
  old_esp ← greg ESP;
  _ ← greg_set ESP (old_esp - REDLINE);
  _ ← on_guest (fun _ => save_context);
  _ ← on_guest (fun _ => push_stack save_sigmask);
  push_args qnx_sig act tab.

Definition signal_tail : M (EmuState W) unit :=
  _ ← update_timesel;
  e ← get;
  let activesig := activesig e in
  if Z.land (gr (e_guest e) CS) SEL_LDT =? 0 then mret ()
  else if Sigset.is_empty activesig then sync_host_sigmask
  else
    qnx_sig ← lift (find_first activesig);
    pend ← lift (clear_qnx_sig (m_sigpend e) qnx_sig);
    _ ← Prelude.modify (set_sigs pend (m_sigmask e));
    act ← qnx_sigtab qnx_sig true;
    match act, m_sigtab e with
    | Some act, Some tab =>
        let m := g_mem (e_guest e) in
        if is_special_sighandler (act_handler m act)
        then
          _ ← dump_context;
          throw (GuestStateException
            "Received signal, but handler not registered -- should not happen")
        else
          mask ← lift (set_qnx_sig (Z.lor (m_sigmask e) (act_mask m act)) qnx_sig);
          _ ← Prelude.modify (set_sigs pend mask);
          _ ← sync_host_sigmask;
          push_frame (m_sigmask e) qnx_sig act tab
    | _, _ => throw (Undefined "sigtab")
    end.

Definition syscall_sigreturn : M (EmuState W) unit :=
  mask ← on_guest (fun _ => pop_stack);
  _ ← Prelude.modify (fun e => set_sigs (m_sigpend e) mask e);
  _ ← on_guest (fun _ => restore_context);
  esp ← greg ESP;
  greg_set ESP (esp + REDLINE).

Definition syscall16_sigreturn : M (EmuState W) unit :=
  (* the syscall number *)
  _ ← on_guest (fun _ => pop_stack16);
  syscall_sigreturn.

Definition handler_generic (sig : Z) : M (EmuState W) unit :=
  let qnx_sig := map_sig_host_to_qnx sig in
  if qnx_sig =? -1
  then throw (GuestStateException "Received signal, it is registered, but not QNX signal.")
  else
    _ ← signal_raise qnx_sig;
    signal_tail.

Definition host_handler (off : Z) : SigHandler :=
  if off =? Sigset.Qnx.QSIG_DFL then SigDfl
  else if off =? Sigset.Qnx.QSIG_IGN then SigIgn
  else if off =? Sigset.Qnx.QSIG_ERR then SigErr
  else StaticHandlerGeneric.

(** The guest's table entry. *)
Definition set_action (qnx_sig : Z) (handler : FarPointer) (mask : Z) : M (EmuState W) Z :=
  si ← qnx_sigtab qnx_sig true;
  match si with
  | None => throw (Undefined "sigtab")
  | Some si =>
      _ ← host_store (si + 8) (le_bytes 2 0);
      e ← get;
      _ ← (match m_bits e with
           | B32 => host_store si (le_bytes 4 (Types.m_offset handler))
           | B16 => host_store si (le_bytes 2 (Types.m_offset handler)
                                   ++ le_bytes 2 (Types.m_segment handler))
           end);
      _ ← host_store (si + 4) (le_bytes 4 mask);
      mret Errno.Qnx.QEOK
  end.

(** The result of [sigaction] that reaches [map_errno] is -1, not an errno. *)
Definition signal_sigact (qnx_sig : Z) (handler : FarPointer) (mask : Z) : M (EmuState W) Z :=
  let off := Types.m_offset handler in
  if off =? Sigset.Qnx.QSIG_HOLD then
    e ← get;
    v ← lift (set_qnx_sig (m_sigmask e) qnx_sig);
    _ ← put (set_sigs (m_sigpend e) v e);
    mret Errno.Qnx.QEOK
  else
    let host_sig := map_sig_qnx_to_host qnx_sig in
    if host_sig =? -1 then mret Errno.Qnx.QEINVAL
    else
      let h := host_handler off in
      r ← (if negb (host_sig =? Sigset.Host.SIGSEGV)
           then _ ← host_call (HSigaction host_sig h);
                mret (if sigaction host_sig h =? 0 then 0 else -1)
           else mret 0);
      if negb (r =? 0) then mret (map_errno r) else set_action qnx_sig handler mask.

(** *** System calls *)

Definition syscall_priority : M (EmuState W) unit := syscall_ok.
Definition syscall_yield : M (EmuState W) unit := _ ← host_call HYield; syscall_ok.

(** What a message handler receives ([MsgContext]). *)
Record MsgContext := mkMsgContext { m_via_fd : bool; m_id : Z; m_msg : Msg }.
Context (handle_msg : MsgContext -> M (EmuState W) unit).

Definition new_msg (send_parts : Z) (send : FarPointer) (recv_parts : Z) (recv : FarPointer) (bits : Bitness)
  : M (EmuState W) Msg :=
  e ← get;
  lift (Msg_new (T := space_translation (e_space e)) (g_mem (e_guest e))
          (Z.to_nat send_parts) send (Z.to_nat recv_parts) recv bits).

Definition send32 (via_fd : bool) : M (EmuState W) unit :=
  e ← get;
  let g := e_guest e in
  msg ← new_msg (reg_ah g) (mkFarPointer (gr g DS) (gr g EBX))
          (reg_ch g) (mkFarPointer (gr g DS) (gr g ESI)) B32;
  _ ← handle_msg (mkMsgContext via_fd (i32 (gr g EDX)) msg);
  syscall_ok.

Definition syscall_sendmx : M (EmuState W) unit := send32 false.
Definition syscall_sendfdmx : M (EmuState W) unit := send32 true.

Definition syscall_receivmx : M (EmuState W) unit :=
  e ← get;
  let pid := i32 (gr (e_guest e) EDX) in
  if (pid =? m_my_pid e) || (pid =? PID_PROC) || (pid =? 0)
  then _ ← host_call HPause; syscall_error Errno.Qnx.QEINTR
  else syscall_error Errno.Qnx.QESRCH.

(** [args[k]] of the 16-bit calls. *)
Definition arg16 (args : list Z) (k : nat) : Z := default 0 (args !! k).

Definition send16 (via_fd : bool) : M (EmuState W) unit :=
  args ← on_guest (fun _ => read_stack16 1 7);
  msg ← new_msg (u8 (arg16 args 1)) (mkFarPointer (arg16 args 4) (arg16 args 3))
          (u8 (arg16 args 2)) (mkFarPointer (arg16 args 6) (arg16 args 5)) B16;
  _ ← handle_msg (mkMsgContext via_fd (arg16 args 0) msg);
  syscall_ok.

Definition syscall16_sendmx : M (EmuState W) unit := send16 false.
Definition syscall16_sendfdmx : M (EmuState W) unit := send16 true.
(** The arguments of this 16-bit call are read from the registers. *)
Definition syscall16_receivmx : M (EmuState W) unit := syscall_receivmx.

(** The host pid a QNX kill code names: a process, or a group when negative. *)
Definition host_code (qnx_code : Z) : M (EmuState W) (option Z) :=
  e ← get;
  if (qnx_code =? 0) || (qnx_code =? -1) then mret (Some qnx_code)
  else if 0 <? qnx_code then
    pi ← lift (qnx_valid_host (m_pids e) (i16 qnx_code));
    mret (q_host_pid <$> pi)
  else
    pi ← lift (qnx_valid_host (m_pids e) (i16 (- qnx_code)));
    mret ((fun p => - q_host_pid p) <$> pi).

Definition kill (qnx_signo qnx_code : Z) : M (EmuState W) unit :=
  let host_signo := map_sig_qnx_to_host qnx_signo in
  if host_signo =? -1 then syscall_error Errno.Qnx.QEINVAL
  else
    code ← host_code qnx_code;
    match code with
    | None => syscall_error Errno.Qnx.QESRCH
    | Some code =>
        _ ← host_call (HKill code host_signo);
        let errno := host_kill code host_signo in
        if errno =? 0 then syscall_ok else syscall_error (map_errno errno)
    end.

Definition syscall_kill : M (EmuState W) unit :=
  e ← get;
  kill (i32 (gr (e_guest e) EBX)) (i32 (gr (e_guest e) EDX)).

(** [catch (const SegmentationFault&)] of the two dispatchers. *)
Definition catch_segv (m : M (EmuState W) unit) : M (EmuState W) unit :=
  try_catch is_segv m (fun _ => syscall_error Errno.Qnx.QEFAULT).

Definition dispatch_syscall : M (EmuState W) unit :=
  catch_segv (
    e ← get;
    let syscall := reg_al (e_guest e) in
    if syscall =? 0 then syscall_sendmx
    else if syscall =? 1 then syscall_receivmx
    else if syscall =? 7 then syscall_sigreturn
    else if syscall =? 8 then syscall_priority
    else if syscall =? 10 then syscall_yield
    else if syscall =? 11 then syscall_sendfdmx
    else if syscall =? 14 then syscall_kill
    else syscall_error Errno.Qnx.QENOSYS).

(** The call number is read from the stack before the [try]. *)
Definition dispatch_syscall16 : M (EmuState W) unit :=
  esp ← greg ESP;
  syscall ← on_guest (fun _ => GuestContext.read 2 SegSS esp);
  catch_segv (
    if syscall =? 0 then syscall16_sendmx
    else if syscall =? 1 then syscall16_receivmx
    else if syscall =? 7 then syscall16_sigreturn
    else if syscall =? 8 then syscall_priority
    else if syscall =? 10 then syscall_yield
    else if syscall =? 11 then syscall16_sendfdmx
    else syscall_error Errno.Qnx.QENOSYS).

(** The semaphore calls translate their pointer outside any [try]. *)
Definition dispatch_syscall_sem : M (EmuState W) unit :=
  e ← get;
  let g := e_guest e in
  let syscall := gr g EBX in
  sem ← lift (translate_segmented (e_space e) (mkFarPointer (gr g DS) (gr g EAX)) sizeof_sem WRITE);
  bs ← host_load sem 4;
  let value := le_val bs in
  let put_value v := host_store sem (le_bytes 4 v) in
  if syscall =? 0 then
    _ ← put_value (u32 (value + 1)); syscall_ok
  else if syscall =? 1 then
    if value =? 0 then syscall_error Errno.Qnx.QEDEADLK
    else _ ← put_value (u32 (value - 1)); syscall_ok
  else if syscall =? 2 then
    if value =? 0 then syscall_error Errno.Qnx.QEAGAIN
    else _ ← syscall_ok; put_value (u32 (value - 1))
  else syscall_error Errno.Qnx.QENOSYS.

(** *** Traps *)

(** The length of the instruction when it is [int int_nr]; a prefix is skipped. *)
Definition matches_syscall (int_nr : Z) : M (EmuState W) (option Z) :=
  try_catch is_segv
    (eip ← greg EIP;
     b1 ← on_guest (fun _ => GuestContext.read 1 SegCS eip);
     '(eip, insn_len, b1) ←
       (if b1 =? 102
        then b1 ← on_guest (fun _ => GuestContext.read 1 SegCS (eip + 1)); mret (eip + 1, 1, b1)
        else mret (eip, 0, b1));
     if b1 =? 205
     then nr ← on_guest (fun _ => GuestContext.read 1 SegCS (eip + 1));
          mret (if nr =? int_nr then Some (insn_len + 2) else None)
     else mret None)
    (fun _ => mret None).

Definition skip_insn (insn_len : Z) : M (EmuState W) unit := eip ← greg EIP; greg_set EIP (eip + insn_len).

Definition handle_guest_segv : M (EmuState W) unit :=
  act ← qnx_sigtab Sigset.Qnx.QSIGSEGV false;
  e ← get;
  match act with
  | None => _ ← dump_context; throw Abort
  | Some act =>
      if is_special_sighandler (act_handler (g_mem (e_guest e)) act)
      then _ ← dump_context; throw Abort
      else signal_raise Sigset.Qnx.QSIGSEGV
  end.

(** Migrate a segment register that holds the magic selector to the LDT. *)
Definition migrate (r : Reg) : M (EmuState W) bool :=
  v ← greg r;
  if v =? MAGIC_PTR_SELECTOR
  then _ ← greg_set r (Z.lor MAGIC_PTR_SELECTOR SEL_LDT); mret true
  else mret false.

Definition trapped_syscall : M (EmuState W) bool :=
  l ← matches_syscall 242;
  match l with
  | Some n => _ ← skip_insn n; _ ← dispatch_syscall; mret true
  | None =>
      l ← matches_syscall 241;
      match l with
      | Some n => _ ← skip_insn n; _ ← dispatch_syscall_sem; mret true
      | None =>
          l ← matches_syscall 240;
          match l with
          | Some n => _ ← skip_insn n; _ ← dispatch_syscall16; mret true
          | None => mret false
          end
      end
  end.

Definition handler_segv (si_code : Z) : M (EmuState W) unit :=
  if si_code <=? 0 then _ ← handle_guest_segv; signal_tail
  else
    cs ← greg CS;
    if Z.land cs SEL_LDT =? 0 then throw Abort
    else
      _ ← host_call (HUnblock Sigset.Host.SIGSEGV);
      es ← migrate ES;
      ds ← migrate DS;
      sys ← trapped_syscall;
      _ ← (if (sys || ds || es : bool) then mret () else handle_guest_segv);
      signal_tail.

(** *** Entering the guest *)

(** [static_handler_user]: EBP is left cleared. *)
Definition static_handler_user (startup g : Guest) : Guest :=
  let g := clear_64bit_state g in
  set_regs (tabulate (fun r => match r with
    | EBP | EFLAGS => gr g r
    | _ => gr startup r end)) g.

Definition enter_emu (current : gset Z) : M (EmuState W) unit :=
  _ ← host_call (HSigaction Sigset.Host.SIGSEGV StaticHandlerSegv);
  _ ← (if sigaction Sigset.Host.SIGSEGV StaticHandlerSegv =? 0 then mret ()
       else throw (RuntimeError "sigaction"));
  mask ← lift (map_sigmask_host_to_qnx current);
  _ ← Prelude.modify (fun e => set_sigs (m_sigpend e) mask e);
  _ ← host_call (HSigmask (current ∖ {[ Sigset.Host.SIGUSR1 ]}));
  _ ← host_call (HSigaction Sigset.Host.SIGUSR1 StaticHandlerUser);
  _ ← (if sigaction Sigset.Host.SIGUSR1 StaticHandlerUser =? 0 then mret ()
       else throw (RuntimeError "sigaction"));
  host_call (HRaise Sigset.Host.SIGUSR1).

(** [Emu::~Emu], once [init] has made the stack. *)
Definition destroy (m_emulation_stack : bool) : M (EmuState W) unit :=
  if negb m_emulation_stack then mret ()
  else
    _ ← host_call (HSigaction Sigset.Host.SIGUSR1 SigDfl);
    _ ← host_call (HSigaction Sigset.Host.SIGSEGV SigDfl);
    host_call HAltstackOff.
End Kernel.

(** ** Stepping *)

Lemma on_guest_run {A} (op : Translation -> M Guest A) e g' (r : outcome A) :
  op (space_translation (e_space e)) (e_guest e) = (g', r) -> on_guest op e = (set_guest g' e, r).
Proof. intros H. unfold on_guest. by rewrite H. Qed.

Lemma on_guest_step {A} (op : Translation -> M Guest A) e g g' (r : outcome A) :
  op (space_translation (e_space e)) g = (g', r) -> on_guest op (set_guest g e) = (set_guest g' e, r).
Proof. intros H. unfold on_guest. cbn [e_space e_guest set_guest]. by rewrite H. Qed.

Lemma greg_run r e : greg r e = (set_guest (e_guest e) e, Ok (gr (e_guest e) r)).
Proof. done. Qed.

Lemma set_guest_id e : set_guest (e_guest e) e = e.
Proof. by destruct e. Qed.

Lemma set_guest_twice g g' e : set_guest g' (set_guest g e) = set_guest g' e.
Proof. done. Qed.

Lemma bind_Ok {A B} (m : M (EmuState W) A) (f : A -> M (EmuState W) B) e e' a :
  m e = (e', Ok a) -> (m ≫= f) e = f a e'.
Proof. intros H. unfold mbind, M_bind. by rewrite H. Qed.

(** The least signal of a non-empty mask. *)
Lemma find_first_nonzero v :
  0 <= v < 2 ^ 32 -> v <> 0 ->
  exists s, find_first v = Ok s /\ sig_ok s /\ Z.testbit v (s - 1) = true /\
    forall t, sig_ok t -> t < s -> Z.testbit v (t - 1) = false.
Proof.
  intros Hv Hne. unfold find_first.
  destruct (find_first_loop_spec v all_sigs all_sigs_ok)
    as [(pre & s & post & Hl & Hf & Ht & Hp)|[Hf Hp]].
  - exists s. assert (Hs : sig_ok s) by (apply elem_of_all_sigs; rewrite Hl; set_solver).
    split_and!; try done. intros t Hto Hlt. apply (proj1 (Forall_forall _ _) Hp).
    apply elem_of_all_sigs in Hto. rewrite Hl in Hto.
    apply elem_of_app in Hto as [|Hin]; [done|]. exfalso.
    pose proof (all_sigs_order pre s post t Hl Hin). lia.
  - exfalso. apply Hne. apply mask_ext; [done|lia|]. intros s Hs.
    rewrite Z.bits_0. apply (proj1 (Forall_forall _ _) Hp). by apply elem_of_all_sigs.
Qed.

Definition mask_ok (v : Z) : Prop := 0 <= v < 2 ^ 32.

Lemma activesig_testbit e s :
  mask_ok (m_sigpend e) -> sig_ok s ->
  Z.testbit (activesig e) (s - 1) =
    (Z.testbit (m_sigpend e) (s - 1) && negb (Z.testbit (m_sigmask e) (s - 1)))%bool.
Proof.
  intros Hp Hs. unfold sig_ok, Sigset.Qnx.QSIGMIN, Sigset.Qnx.QSIGMAX in Hs.
  unfold activesig. rewrite modify_testbit, Z.bits_0 by lia.
  destruct (Z.ltb_spec (s - 1) 32); [|lia].
  destruct (Z.testbit (m_sigmask e) (s - 1)), (Z.testbit (m_sigpend e) (s - 1)); done.
Qed.

Lemma activesig_ok e : mask_ok (m_sigpend e) -> mask_ok (activesig e).
Proof.
  intros H. unfold activesig, Sigset.modify, mask_ok. rewrite Z.land_0_l, Z.lor_0_r. by apply land_range.
Qed.

Lemma sync_host_sigmask_run e :
  exists hs, sync_host_sigmask e = (set_saved hs e, Ok ()) /\
    forall h, h ∈ hs <-> h <> Sigset.Host.SIGSEGV /\
      exists s, sig_ok s /\ map_sig_qnx_to_host s = h /\ 0 <= h /\ Z.testbit (m_sigmask e) (s - 1) = true.
Proof.
  unfold sync_host_sigmask, get, lift, Prelude.modify, mbind, M_bind, map_to_host_sigset.
  destruct (to_host_loop_spec (m_sigmask e) all_sigs ∅ all_sigs_ok) as (hs & -> & Hel).
  eexists. split; [reflexivity|]. intros h. rewrite elem_of_difference, elem_of_singleton, Hel.
  setoid_rewrite elem_of_all_sigs. split.
  - intros [[Hemp|Hx] Hn]; [exfalso; exact (not_elem_of_empty h Hemp)|done].
  - intros [Hn Hx]. auto.
Qed.

(** ** The signal frame *)

Section Frame.
Context {T : Translation} (L : TranslationLaws T).

Lemma push_step k g n a bs v :
  stack_at g n a -> (0 < k)%nat -> Z.of_nat (length bs) + Z.of_nat k <= n ->
  push_n k v (pushed g (a + (n - Z.of_nat (length bs))) bs) =
    (pushed g (a + (n - Z.of_nat (length bs) - Z.of_nat k)) (le_bytes k v ++ bs), Ok ()).
Proof.
  intros Hs Hk Hle. pose proof (stack_at_pushed L _ _ _ bs Hs ltac:(lia)) as H1.
  pose proof (stack_at_part L _ _ _ (Z.of_nat k) H1 ltac:(lia)) as H2.
  rewrite (push_n_run k v _ _ H2). rewrite <- pushed_pushed, length_le_bytes.
  do 3 f_equal. lia.
Qed.

Lemma save_step g n a :
  stack_at g n a -> 60 <= n ->
  save_context g = (pushed g (a + (n - 60)) (frame (saved_words g)), Ok ()).
Proof.
  intros Hs Hn. apply (save_context_run L). by apply (stack_at_part L _ _ _ 60 Hs ltac:(lia)).
Qed.
End Frame.

Lemma gr_pushed g a bs r :
  gr (pushed g a bs) r = if decide (r = ESP) then gr g ESP - Z.of_nat (length bs) else gr g r.
Proof. apply rget_upd. Qed.

(** The part of the frame [sigreturn] reads. *)
Definition sig_frame (save_sigmask : Z) (g : Guest) : list Z := frame (save_sigmask :: saved_words g).

Lemma length_sig_frame m g : length (sig_frame m g) = 64%nat.
Proof. apply length_frame. Qed.

(** The stack pointer moved below the red zone. *)
Definition below_redline (g : Guest) : Guest :=
  set_regs (upd (g_regs g) ESP (gr g ESP - REDLINE)) g.

(** Bytes of the stub's arguments. *)
Definition args_size (b : Bitness) : Z := match b with B32 => 12 | B16 => 2 end.

Definition set_pc (cs_ eip_ : Z) (g : Guest) : Guest :=
  set_regs (upd (upd (g_regs g) CS (u16 cs_)) EIP (u32 eip_)) g.

Lemma gr_set_pc c i g r : r <> CS -> r <> EIP -> gr (set_pc c i g) r = gr g r.
Proof. intros H1 H2. unfold gr, set_pc. cbn [set_regs g_regs]. by rewrite !rget_upd, !decide_False. Qed.

(** The arguments of the stub, from the lowest address, its segment and offset:
    read from the memory [m]. *)
Definition stub_call (m : Mem) (b : Bitness) (load_cs sig act tab : Z) : list Z * (Z * Z) :=
  match b with
  | B32 => (le_bytes 4 (act_handler m act) ++ le_bytes 4 sig ++ le_bytes 4 0, (load_cs, sigstub m tab))
  | B16 => (le_bytes 2 sig, (m_segment16 (sigstub16 m tab), m_offset16 (sigstub16 m tab)))
  end.

(** The stub's address and the handler's lie outside the [n] bytes at [a]. *)
Definition table_apart (tab act a n : Z) : Prop :=
  (tab + 4 <= a \/ a + n <= tab) /\ (act + 4 <= a \/ a + n <= act).

Lemma load_pushed g a bs x k :
  x + Z.of_nat k <= a \/ a + Z.of_nat (length bs) <= x ->
  load (g_mem (pushed g a bs)) x k = load (g_mem g) x k.
Proof. intros H. unfold pushed. cbn [set_gmem g_mem]. apply load_store_disjoint. lia. Qed.

Lemma push_args_run e sig act tab g n a fr :
  let T := space_translation (e_space e) in
  TranslationLaws T -> stack_at (T := T) g n a -> n = Z.of_nat (length fr) + args_size (m_bits e) ->
  exists args c i,
    push_args sig act tab (set_guest (pushed g (a + args_size (m_bits e)) fr) e) =
      (set_guest (set_pc c i (pushed g a (args ++ fr))) e, Ok ()) /\
    Z.of_nat (length args) = args_size (m_bits e) /\
    (table_apart tab act a n -> (args, (c, i)) = stub_call (g_mem g) (m_bits e) (m_load_cs e) sig act tab).
Proof.
  intros T L Hs Hn. unfold push_args. rewrite (bind_Ok get _ _ _ _ eq_refl).
  change (m_bits (set_guest _ e)) with (m_bits e).
  change (m_load_cs (set_guest _ e)) with (m_load_cs e).
  assert (Hstep : forall k bs v, (0 < k)%nat -> Z.of_nat (length bs) + Z.of_nat k <= n ->
    on_guest (fun _ => push_n k v) (set_guest (pushed g (a + (n - Z.of_nat (length bs))) bs) e) =
      (set_guest (pushed g (a + (n - Z.of_nat (length (le_bytes k v ++ bs)))) (le_bytes k v ++ bs)) e, Ok ())).
  { intros k bs v Hk Hle. rewrite (on_guest_step _ _ _ _ _ (push_step L k g n a bs v Hs Hk Hle)).
    rewrite length_app, length_le_bytes. do 4 f_equal. lia. }
  replace (a + args_size (m_bits e)) with (a + (n - Z.of_nat (length fr))) by lia.
  destruct (m_bits e) eqn:Eb; cbn [args_size] in Hn.
  - unfold push_stack. rewrite (bind_Ok _ _ _ _ _ (Hstep 4%nat fr 0 ltac:(lia) ltac:(lia))).
    rewrite (bind_Ok _ _ _ _ _ (Hstep 4%nat (le_bytes 4 0 ++ fr) sig ltac:(lia)
      ltac:(rewrite !length_app, !length_le_bytes; lia))).
    rewrite (bind_Ok (host_load act 4) _ _ _ _ eq_refl).
    match goal with |- context [le_val (load ?m act 4)] => set (h := le_val (load m act 4)) end.
    rewrite (bind_Ok _ _ _ _ _ (Hstep 4%nat (le_bytes 4 sig ++ le_bytes 4 0 ++ fr) h ltac:(lia)
      ltac:(rewrite !length_app, !length_le_bytes; lia))).
    exists (le_bytes 4 h ++ le_bytes 4 sig ++ le_bytes 4 0). eexists _, _. split.
    + rewrite !length_app, !length_le_bytes, <- !app_assoc.
      replace (a + (n - _)) with a by lia. reflexivity.
    + split; [by rewrite !length_app, !length_le_bytes|]. intros [H1 H2]. subst h.
      unfold stub_call, act_handler, sigstub. cbn [e_guest set_guest set_regs g_mem].
      rewrite !load_pushed by (rewrite !length_app, !length_le_bytes; lia). reflexivity.
  - unfold push_stack16. rewrite (bind_Ok _ _ _ _ _ (Hstep 2%nat fr sig ltac:(lia) ltac:(lia))).
    exists (le_bytes 2 sig). eexists _, _. split.
    + rewrite !length_app, !length_le_bytes. replace (a + (n - _)) with a by lia. reflexivity.
    + split; [by rewrite !length_le_bytes|]. intros [H1 H2].
      unfold stub_call, sigstub16. cbn [e_guest set_guest set_regs g_mem].
      rewrite !load_pushed by (rewrite !length_app, !length_le_bytes; lia). reflexivity.
Qed.

Lemma push_frame_run e mask sig act tab a :
  wf_space (e_space e) -> regs_ok (e_guest e) ->
  let g := below_redline (e_guest e) in
  let k := args_size (m_bits e) in
  REDLINE <= gr (e_guest e) ESP ->
  stack_at (T := space_translation (e_space e)) g (64 + k) a ->
  exists args c i, push_frame mask sig act tab e =
      (set_guest (set_pc c i (pushed g a (args ++ sig_frame mask g))) e, Ok ()) /\
    Z.of_nat (length args) = k /\
    (table_apart tab act a (64 + k) ->
       (args, (c, i)) = stub_call (g_mem (e_guest e)) (m_bits e) (m_load_cs e) sig act tab).
Proof.
  intros Hwf Hreg g k Hesp Hs. pose proof (space_translation_laws _ Hwf) as L.
  pose proof (esp_range _ Hreg) as Her. unfold REDLINE in *.
  assert (Hk : k = 12 \/ k = 2) by (unfold k; destruct (m_bits e); auto).
  set (b := a + k). set (fr := sig_frame mask g).
  assert (E1 : greg_set ESP (gr (e_guest e) ESP - 128) e = (set_guest g e, Ok ())).
  { apply on_guest_run. rewrite set_reg_run. cbn [width]. by rewrite wrapu_small by lia. }
  pose proof (save_step L g (64 + k) a Hs ltac:(lia)) as P2.
  replace (a + (64 + k - 60)) with (b + 4) in P2 by (subst b; lia).
  pose proof (push_step L 4 g (64 + k) a (frame (saved_words g)) mask Hs) as P3.
  rewrite length_frame in P3. specialize (P3 ltac:(lia) ltac:(simpl; lia)).
  replace (a + (64 + k - Z.of_nat (4 * length (saved_words g)))) with (b + 4) in P3 by (subst b; simpl; lia).
  replace (a + (64 + k - Z.of_nat (4 * length (saved_words g)) - Z.of_nat 4)) with b in P3 by (subst b; simpl; lia).
  change (le_bytes 4 mask ++ frame (saved_words g)) with fr in P3.
  unfold push_frame. rewrite (bind_Ok _ _ _ _ _ (greg_run _ _)), set_guest_id.
  rewrite (bind_Ok _ _ _ _ _ E1).
  rewrite (bind_Ok _ _ _ _ _ (on_guest_step _ _ _ _ _ P2)).
  rewrite (bind_Ok _ _ _ _ _ (on_guest_step _ _ _ _ _ P3)).
  apply (push_args_run e sig act tab g (64 + k) a fr L Hs).
  unfold fr. by rewrite length_sig_frame.
Qed.

Lemma sigreturn_run e g0 a mask :
  wf_space (e_space e) -> regs_ok g0 -> mask_ok mask ->
  gr (e_guest e) SS = gr g0 SS ->
  stack_up (T := space_translation (e_space e)) (e_guest e) 64 a ->
  gr (e_guest e) ESP + 64 + REDLINE < 2 ^ 32 ->
  load (g_mem (e_guest e)) a 64 = sig_frame mask g0 ->
  exists g', syscall_sigreturn e = (set_guest g' (set_sigs (m_sigpend e) mask e), Ok ()) /\
    g_mem g' = g_mem (e_guest e) /\
    forall r, gr g' r = if decide (r = ESP) then gr (e_guest e) ESP + 64 + REDLINE
                        else if decide (r = FS) then gr (e_guest e) FS else gr g0 r.
Proof.
  intros Hwf H0 Hm Hss Hst Hlt Hld. pose proof (space_translation_laws _ Hwf) as L.
  pose proof Hst as (Hr & _). pose proof (esp_range _ Hr) as He.
  change 64%nat with (4 * length (mask :: saved_words g0))%nat in Hld.
  apply load_frame_cons in Hld as [Hw Hld].
  set (g1 := set_regs (upd (g_regs (e_guest e)) ESP (gr (e_guest e) ESP + 4)) (e_guest e)).
  assert (E1 : pop_stack (T := space_translation (e_space e)) (e_guest e) = (g1, Ok mask)).
  { unfold pop_stack. rewrite (pop_n_run L 4 _ 64 a Hst) by lia.
    rewrite Hw, le_val_bytes, wrapu_small by exact Hm. done. }
  assert (Hg1 : stack_up (T := space_translation (e_space e)) g1 60 (a + 4)).
  { apply (stack_up_next L (e_guest e) _ 64 4 a Hst); [lia| | |].
    - apply regs_ok_upd; [done|]. cbn [width]. unfold REDLINE in Hlt. lia.
    - apply rget_upd.
    - apply rget_upd. }
  destruct (restore_context_run L g1 g0 (a + 4) H0) as (f & E2 & Hget); [|done|done|].
  { unfold g1. rewrite gr_upd. by rewrite decide_False. }
  exists (set_regs (upd f ESP (gr (e_guest e) ESP + 64 + REDLINE)) g1).
  assert (Hesp : rget f ESP = gr (e_guest e) ESP + 64).
  { rewrite Hget, decide_True by done. unfold g1. rewrite gr_upd, decide_True by done. lia. }
  split; [|split; [done|]].
  - unfold syscall_sigreturn.
    rewrite (bind_Ok _ _ _ _ _ (on_guest_run (fun T => pop_stack (T := T)) _ _ _ E1)).
    rewrite (bind_Ok (Prelude.modify _) _ _ _ _ eq_refl).
    assert (E3 : on_guest (fun T => restore_context (T := T)) (set_sigs (m_sigpend e) mask (set_guest g1 e)) =
      (set_guest (set_regs f g1) (set_sigs (m_sigpend e) mask (set_guest g1 e)), Ok ()))
      by (apply on_guest_run; exact E2).
    rewrite (bind_Ok _ _ _ _ _ E3), (bind_Ok _ _ _ _ _ (greg_run _ _)).
    rewrite set_guest_id. unfold greg_set. erewrite on_guest_run; [reflexivity|].
    rewrite set_reg_run. cbn [width e_guest set_guest]. unfold gr at 1. cbn [set_regs g_regs].
    rewrite Hesp, wrapu_small by (unfold REDLINE in *; lia). reflexivity.
  - intros r. unfold gr at 1. cbn [set_regs g_regs]. rewrite rget_upd.
    destruct (decide (r = ESP)); [done|]. rewrite Hget, decide_False by done.
    destruct (decide (r = FS)) as [-> |]; [|done]. unfold g1. rewrite gr_upd. by rewrite decide_False.
Qed.

(** *** Delivery *)

Lemma update_timesel_inv now e e' :
  update_timesel now e = (e', Ok ()) ->
  exists m, e' = set_guest (set_gmem m (e_guest e)) e.
Proof.
  unfold update_timesel, get, throw, lift, host_store, Prelude.modify, mbind, M_bind.
  destruct (segs _ !! _); [|done]. destruct (pointer _ _ _); [|done].
  intros H. apply (f_equal fst) in H. cbn [fst] in H. rewrite <- H. eexists. reflexivity.
Qed.

Lemma clear_qnx_sig_ok v s :
  sig_ok s -> mask_ok v ->
  exists v', clear_qnx_sig v s = Ok v' /\
    forall t, sig_ok t -> Z.testbit v' (t - 1) = (Z.testbit v (t - 1) && negb (t =? s))%bool.
Proof.
  intros Hs Hv. unfold clear_qnx_sig. rewrite get_qnx_mask_ok by done. eexists. split; [done|].
  intros t Ht. unfold sig_ok, Sigset.Qnx.QSIGMIN, Sigset.Qnx.QSIGMAX in *.
  rewrite Z.land_spec, testbit_u32, Z.lnot_spec, Z.pow2_bits_eqb by lia.
  destruct (Z.ltb_spec (t - 1) 32); [|lia]. simpl. f_equal. f_equal.
  destruct (Z.eqb_spec (s - 1) (t - 1)), (Z.eqb_spec t s); lia || done.
Qed.

Lemma set_qnx_sig_ok v s :
  sig_ok s ->
  exists v', set_qnx_sig v s = Ok v' /\
    forall t, sig_ok t -> Z.testbit v' (t - 1) = (Z.testbit v (t - 1) || (t =? s))%bool.
Proof.
  intros Hs. unfold set_qnx_sig. rewrite get_qnx_mask_ok by done. eexists. split; [done|].
  intros t Ht. unfold sig_ok, Sigset.Qnx.QSIGMIN, Sigset.Qnx.QSIGMAX in *.
  rewrite Z.lor_spec, Z.pow2_bits_eqb by lia. f_equal.
  destruct (Z.eqb_spec (s - 1) (t - 1)), (Z.eqb_spec t s); lia || done.
Qed.

(** The address of a signal's [Sigaction]. *)
Definition action_at (tab s : Z) : Z := tab + 4 + sizeof_sigaction * (s - 1).

Lemma qnx_sigtab_run e tab s required :
  sig_ok s -> m_sigtab e = Some tab -> qnx_sigtab s required e = (e, Ok (Some (action_at tab s))).
Proof.
  intros [H1 H2] Ht. unfold qnx_sigtab, lift, get, mbind, M_bind.
  destruct (Z.leb_spec Sigset.Qnx.QSIGMIN s), (Z.leb_spec s Sigset.Qnx.QSIGMAX); try lia.
  cbn [andb check]. by rewrite Ht.
Qed.

Lemma stack_at_up (T : Translation) (L : TranslationLaws T) g n a g2 j :
  stack_at g n a -> 0 <= j < n -> regs_ok g2 -> gr g2 SS = gr g SS -> gr g2 ESP = gr g ESP - n + j ->
  stack_up g2 (n - j) (a + j).
Proof.
  intros (Hr & Hn & Ht) Hj Hr2 Hss Hesp. pose proof (esp_range _ Hr). pose proof (ss_range _ Hr).
  split; [done|]. rewrite Hesp, Hss. split; [lia|]. split; [lia|].
  apply (L _ _ _ _ j (n - j) WRITE Ht); cbn [Types.m_segment Types.m_offset]; lia.
Qed.

(** The state after the delivery of a signal of the mask [act]: its frame at [a]. *)
Definition delivered (e : EmuState W) (sig act_mask a : Z) (e1 : (EmuState W)) : Prop :=
  let g := below_redline (e_guest e) in
  let k := args_size (m_bits e) in
  (forall s, sig_ok s ->
     Z.testbit (m_sigpend e1) (s - 1) = (Z.testbit (m_sigpend e) (s - 1) && negb (s =? sig))%bool) /\
  (forall s, sig_ok s ->
     Z.testbit (m_sigmask e1) (s - 1) =
       (Z.testbit (m_sigmask e) (s - 1) || Z.testbit act_mask (s - 1) || (s =? sig))%bool) /\
  gr (e_guest e1) ESP = gr (e_guest e) ESP - REDLINE - (64 + k) /\
  gr (e_guest e1) SS = gr (e_guest e) SS /\
  load (g_mem (e_guest e1)) (a + k) 64 = sig_frame (m_sigmask e) g.

(** The guest goes on at the stub, with the handler and the signal number on its
    stack: what the table in the memory [m] says. *)
Definition redirected (e : EmuState W) (m : Mem) (sig tab a : Z) (e1 : EmuState W) : Prop :=
  let '(args, (c, i)) := stub_call m (m_bits e) (m_load_cs e) sig (action_at tab sig) tab in
  table_apart tab (action_at tab sig) a (64 + args_size (m_bits e)) ->
  gr (e_guest e1) CS = u16 c /\ gr (e_guest e1) EIP = u32 i /\
  load (g_mem (e_guest e1)) a (length args) = args.

Lemma push_frame_delivered e0 e sig tab a pend mask am :
  wf_space (e_space e) -> regs_ok (e_guest e) -> REDLINE <= gr (e_guest e) ESP ->
  stack_at (T := space_translation (e_space e)) (below_redline (e_guest e)) (64 + args_size (m_bits e)) a ->
  e0 = set_saved (saved_sigmask e0) (set_sigs pend mask e) ->
  (forall s, sig_ok s ->
     Z.testbit pend (s - 1) = (Z.testbit (m_sigpend e) (s - 1) && negb (s =? sig))%bool) ->
  (forall s, sig_ok s -> Z.testbit mask (s - 1) =
     (Z.testbit (m_sigmask e) (s - 1) || Z.testbit am (s - 1) || (s =? sig))%bool) ->
  exists e1, push_frame (m_sigmask e) sig (action_at tab sig) tab e0 = (e1, Ok ()) /\
    delivered e sig am a e1 /\ redirected e (g_mem (e_guest e)) sig tab a e1.
Proof.
  intros Hwf Hr Hesp Hs He0 Hpend Hmask.
  assert (Hg : e_guest e0 = e_guest e) by by rewrite He0.
  assert (Hsp : e_space e0 = e_space e) by by rewrite He0.
  assert (Hb : m_bits e0 = m_bits e) by by rewrite He0.
  assert (Hc : m_load_cs e0 = m_load_cs e) by by rewrite He0.
  destruct (push_frame_run e0 (m_sigmask e) sig (action_at tab sig) tab a) as (args & c & i & Hrun & Hl & Hst);
    rewrite ?Hg, ?Hsp, ?Hb; try done.
  eexists. split; [exact Hrun|]. rewrite Hg, Hb in *. rewrite Hc in Hst. split.
  2: { unfold redirected. destruct (stub_call _ _ _ _ _ _) as [args' [c' i']]. intros Hap.
       injection (Hst Hap) as <- <- <-. cbn [e_guest set_guest]. split_and!.
       - unfold gr, set_pc. cbn [set_regs g_regs]. rewrite rget_upd, decide_False, rget_upd, decide_True by done. done.
       - unfold gr, set_pc. cbn [set_regs g_regs]. by rewrite rget_upd, decide_True.
       - unfold set_pc, pushed. cbn [set_regs set_gmem g_mem]. rewrite store_app. apply load_store. }
  unfold delivered. cbv zeta.
  set (g := below_redline (e_guest e)) in *. set (fr := sig_frame (m_sigmask e) g) in *.
  assert (Hfr : length fr = 64%nat) by apply length_sig_frame.
  assert (Hgr : forall r, r <> ESP -> gr g r = gr (e_guest e) r).
  { intros r Hne. unfold g, below_redline. rewrite gr_upd. by rewrite decide_False. }
  assert (Hge : gr g ESP = gr (e_guest e) ESP - REDLINE).
  { unfold g, below_redline. rewrite gr_upd. by rewrite decide_True. }
  split; [|split; [|split; [|split]]].
  - rewrite He0. exact Hpend.
  - rewrite He0. exact Hmask.
  - cbn [e_guest set_guest]. rewrite gr_set_pc, gr_pushed, decide_True by done.
    rewrite Hge, length_app, Hfr. lia.
  - cbn [e_guest set_guest]. rewrite gr_set_pc, gr_pushed, decide_False by done. by apply Hgr.
  - cbn [e_guest set_guest]. unfold set_pc. cbn [set_regs g_mem]. unfold pushed. cbn [set_gmem g_mem].
    rewrite store_app, Hl, load_store_disjoint by lia. rewrite <- Hfr. apply load_store.
Qed.

(** A signal is waiting: [signal_tail] delivers it. *)
Lemma signal_tail_delivers now dump e e' tab a :
  update_timesel now e = (e', Ok ()) ->
  wf_space (e_space e) -> regs_ok (e_guest e) -> mask_ok (m_sigpend e) ->
  Z.land (gr (e_guest e) CS) SEL_LDT <> 0 -> activesig e <> 0 -> m_sigtab e = Some tab ->
  (forall s, sig_ok s -> Z.testbit (activesig e) (s - 1) = true ->
     is_special_sighandler (act_handler (g_mem (e_guest e')) (action_at tab s)) = false) ->
  REDLINE <= gr (e_guest e) ESP ->
  stack_at (T := space_translation (e_space e)) (below_redline (e_guest e)) (64 + args_size (m_bits e)) a ->
  exists sig e1, signal_tail now dump e = (e1, Ok ()) /\
    sig_ok sig /\ Z.testbit (activesig e) (sig - 1) = true /\
    (forall t, sig_ok t -> t < sig -> Z.testbit (activesig e) (t - 1) = false) /\
    delivered e sig (act_mask (g_mem (e_guest e')) (action_at tab sig)) a e1 /\
    redirected e (g_mem (e_guest e')) sig tab a e1.
Proof.
  intros Hup Hwf Hr Hp Hcs Hne Htab Hh Hesp Hs.
  destruct (update_timesel_inv _ _ _ Hup) as [m ->].
  set (e' := set_guest (set_gmem m (e_guest e)) e) in *.
  destruct (find_first_nonzero _ (activesig_ok _ Hp) Hne) as (sig & Hf & Hso & Hbit & Hlow).
  destruct (clear_qnx_sig_ok _ _ Hso Hp) as (pend & Hc & Hpend).
  destruct (set_qnx_sig_ok (Z.lor (m_sigmask e) (act_mask m (action_at tab sig))) _ Hso) as (mask & Hm & Hmask).
  specialize (Hh sig Hso Hbit).
  set (e0 := set_sigs pend mask e').
  destruct (sync_host_sigmask_run e0) as (hs & Hsync & _).
  assert (Hmask' : forall s, sig_ok s -> Z.testbit mask (s - 1) =
     (Z.testbit (m_sigmask e') (s - 1) || Z.testbit (act_mask m (action_at tab sig)) (s - 1) || (s =? sig))%bool).
  { intros s Hs'. rewrite Hmask by done. f_equal. apply Z.lor_spec. }
  destruct (push_frame_delivered (set_saved hs e0) e' sig tab a pend mask _ Hwf Hr Hesp Hs eq_refl Hpend Hmask')
    as (e1 & Hrun & Hdel).
  exists sig, e1. split; [|split; [exact Hso|split; [exact Hbit|split; [exact Hlow|exact Hdel]]]].
  unfold signal_tail. rewrite (bind_Ok _ _ _ _ _ Hup), (bind_Ok get _ _ _ _ eq_refl). cbv zeta.
  change (activesig e') with (activesig e). change (gr (e_guest e') CS) with (gr (e_guest e) CS).
  destruct (Z.eqb_spec (Z.land (gr (e_guest e) CS) SEL_LDT) 0) as [H0|_]; [contradiction|].
  unfold Sigset.is_empty. destruct (Z.eqb_spec (activesig e) 0) as [H0|_]; [contradiction|].
  assert (Hl : forall {A} (o : outcome A) v, o = Ok v -> lift o e' = (e', Ok v)) by by intros ? ? ? ->.
  rewrite (bind_Ok _ _ _ _ _ (Hl _ _ _ Hf)).
  change (m_sigpend e') with (m_sigpend e). change (m_sigtab e') with (m_sigtab e).
  rewrite (bind_Ok _ _ _ _ _ (Hl _ _ _ Hc)), (bind_Ok (Prelude.modify _) _ _ _ _ eq_refl).
  rewrite (bind_Ok _ _ _ _ _ (qnx_sigtab_run (set_sigs pend (m_sigmask e') e') tab sig true Hso Htab)).
  rewrite Htab, Hh. change (m_sigmask e') with (m_sigmask e). change (g_mem (e_guest e')) with m. rewrite Hm.
  rewrite (bind_Ok (lift (Ok mask)) _ _ _ _ eq_refl), (bind_Ok (Prelude.modify _) _ _ _ _ eq_refl).
  change (set_sigs pend mask (set_sigs pend (m_sigmask e) e')) with e0.
  rewrite (bind_Ok _ _ _ _ _ Hsync). exact Hrun.
Qed.

(** The guest when the signal stub issues its return: the arguments popped, and
    for 16-bit programs the system call number pushed in their place. *)
Definition at_sigreturn (g1 g2 : Guest) (b : Bitness) (a : Z) : Prop :=
  regs_ok g2 /\ gr g2 SS = gr g1 SS /\
  gr g2 ESP = gr g1 ESP + (match b with B32 => 12 | B16 => 0 end) /\
  load (g_mem g2) (a + args_size b) 64 = load (g_mem g1) (a + args_size b) 64.

Definition sigreturn (b : Bitness) : M (EmuState W) unit :=
  match b with B32 => syscall_sigreturn | B16 => syscall16_sigreturn end.

Lemma sigreturn_restores e sig am a e1 e2 :
  wf_space (e_space e) -> regs_ok (e_guest e) -> mask_ok (m_sigmask e) ->
  e_space e2 = e_space e -> REDLINE <= gr (e_guest e) ESP ->
  stack_at (T := space_translation (e_space e)) (below_redline (e_guest e)) (64 + args_size (m_bits e)) a ->
  delivered e sig am a e1 -> at_sigreturn (e_guest e1) (e_guest e2) (m_bits e) a ->
  exists e3, sigreturn (m_bits e) e2 = (e3, Ok ()) /\
    m_sigmask e3 = m_sigmask e /\ m_sigpend e3 = m_sigpend e2 /\
    g_mem (e_guest e3) = g_mem (e_guest e2) /\
    forall r, gr (e_guest e3) r = if decide (r = FS) then gr (e_guest e2) FS else gr (e_guest e) r.
Proof.
  intros Hwf Hr Hm A1 Hesp Hs (_ & _ & D1 & D2 & D3) (A2 & A3 & A4 & A5).
  pose proof (space_translation_laws _ Hwf) as L. pose proof (esp_range _ Hr) as Her.
  rewrite D1 in A4. rewrite D2 in A3. rewrite D3 in A5.
  set (g := below_redline (e_guest e)) in *. set (k := args_size (m_bits e)) in *.
  assert (Hk : 0 < k <= 12) by (unfold k; destruct (m_bits e); cbn [args_size]; lia).
  assert (Hgr : forall r, r <> ESP -> gr g r = gr (e_guest e) r).
  { intros r Hne. unfold g, below_redline. rewrite gr_upd. by rewrite decide_False. }
  assert (Hge : gr g ESP = gr (e_guest e) ESP - REDLINE).
  { unfold g, below_redline. rewrite gr_upd. by rewrite decide_True. }
  pose proof Hs as (Hrg & Hkl & _). unfold REDLINE in *.
  assert (Hcore : forall e2', e_space e2' = e_space e -> regs_ok (e_guest e2') ->
    gr (e_guest e2') SS = gr (e_guest e) SS -> gr (e_guest e2') ESP = gr (e_guest e) ESP - 128 - 64 ->
    load (g_mem (e_guest e2')) (a + k) 64 = sig_frame (m_sigmask e) g ->
    exists e3, syscall_sigreturn e2' = (e3, Ok ()) /\ m_sigmask e3 = m_sigmask e /\
      m_sigpend e3 = m_sigpend e2' /\ g_mem (e_guest e3) = g_mem (e_guest e2') /\
      forall r, gr (e_guest e3) r = if decide (r = FS) then gr (e_guest e2') FS else gr (e_guest e) r).
  { intros e2' B1 B2 B3 B4 B5. pose proof (Hgr SS ltac:(discriminate)) as HSS.
    destruct (sigreturn_run e2' g (a + k) (m_sigmask e)) as (g' & Hrun & Hmem & Hget);
      rewrite ?B1; try assumption.
    - pose proof (stack_at_up _ L g (64 + k) a (e_guest e2') k Hs ltac:(lia) B2) as Hup.
      replace (64 + k - k) with 64 in Hup by lia. apply Hup; [congruence|lia].
    - unfold REDLINE. lia.
    - eexists. split; [exact Hrun|]. cbn [m_sigmask m_sigpend e_guest set_guest set_sigs].
      split; [reflexivity|]. split; [reflexivity|]. split; [exact Hmem|]. intros r. rewrite Hget.
      destruct (decide (r = ESP)) as [-> |Hne].
      + rewrite decide_False by discriminate. unfold REDLINE. lia.
      + destruct (decide (r = FS)); [reflexivity|]. by apply Hgr. }
  destruct (m_bits e) eqn:Eb; cbn [sigreturn args_size] in *.
  - apply (Hcore e2 A1 A2 A3); [unfold k in A4; lia|exact A5].
  - pose proof (stack_at_up _ L g (64 + k) a (e_guest e2) 0 Hs ltac:(lia) A2) as Hup.
    pose proof (Hgr SS ltac:(discriminate)) as HSS.
    rewrite !Z.add_0_r, Z.sub_0_r in Hup. specialize (Hup ltac:(congruence) ltac:(lia)).
    assert (E1 : on_guest (fun T => pop_stack16 (T := T)) e2 =
      (set_guest (set_regs (upd (g_regs (e_guest e2)) ESP (gr (e_guest e2) ESP + 2)) (e_guest e2)) e2,
       Ok (le_val (load (g_mem (e_guest e2)) a 2)))).
    { apply on_guest_run. rewrite A1. apply (pop_n_run L 2 _ (64 + k)); [exact Hup|lia|lia]. }
    set (g2 := set_regs _ (e_guest e2)) in E1.
    destruct (Hcore (set_guest g2 e2) A1) as (e3 & Hrun & H1 & H2 & H3 & H4).
    + apply regs_ok_upd; [exact A2|]. cbn [width]. unfold k in *. lia.
    + cbn [e_guest set_guest]. unfold g2. rewrite gr_upd, decide_False by discriminate. exact A3.
    + cbn [e_guest set_guest]. unfold g2. rewrite gr_upd, decide_True by reflexivity. unfold k in A4. lia.
    + exact A5.
    + exists e3. split; [|split; [exact H1|split; [exact H2|split; [exact H3|]]]].
      * unfold syscall16_sigreturn. rewrite (bind_Ok _ _ _ _ _ E1). exact Hrun.
      * intros r. rewrite H4. destruct (decide (r = FS)); [|reflexivity].
        cbn [e_guest set_guest]. unfold g2. by rewrite gr_upd, decide_False.
Qed.

(** ** Properties *)

(** C16. Signal delivery and return.  When the guest can take a pending, unblocked
    signal (it registered handlers, its stack is accessible), [signal_tail]
    succeeds: it takes the lowest such signal out of the pending set, blocks it
    together with the handler's mask, and leaves a frame below the red zone of
    the guest's stack.  Whatever the handler does to the registers and to the
    rest of memory, the system call the stub ends with gives back the signal
    mask of before the delivery and every register of the interrupted code -
    except FS, which is not in the frame. *)
Theorem signal_delivery_roundtrip now dump e e' tab a :
  update_timesel now e = (e', Ok ()) ->
  wf_space (e_space e) -> regs_ok (e_guest e) -> mask_ok (m_sigpend e) -> mask_ok (m_sigmask e) ->
  Z.land (gr (e_guest e) CS) SEL_LDT <> 0 -> activesig e <> 0 -> m_sigtab e = Some tab ->
  (forall s, sig_ok s -> Z.testbit (activesig e) (s - 1) = true ->
     is_special_sighandler (act_handler (g_mem (e_guest e')) (action_at tab s)) = false) ->
  REDLINE <= gr (e_guest e) ESP ->
  stack_at (T := space_translation (e_space e)) (below_redline (e_guest e)) (64 + args_size (m_bits e)) a ->
  exists sig e1, signal_tail now dump e = (e1, Ok ()) /\
    sig_ok sig /\ Z.testbit (m_sigpend e) (sig - 1) = true /\ Z.testbit (m_sigmask e) (sig - 1) = false /\
    (forall t, sig_ok t -> t < sig -> Z.testbit (activesig e) (t - 1) = false) /\
    delivered e sig (act_mask (g_mem (e_guest e')) (action_at tab sig)) a e1 /\
    forall e2, e_space e2 = e_space e -> at_sigreturn (e_guest e1) (e_guest e2) (m_bits e) a ->
      exists e3, sigreturn (m_bits e) e2 = (e3, Ok ()) /\
        m_sigmask e3 = m_sigmask e /\ m_sigpend e3 = m_sigpend e2 /\
        g_mem (e_guest e3) = g_mem (e_guest e2) /\
        forall r, gr (e_guest e3) r = if decide (r = FS) then gr (e_guest e2) FS else gr (e_guest e) r.
Proof.
  intros Hup Hwf Hr Hp Hm Hcs Hne Htab Hh Hesp Hs.
  destruct (signal_tail_delivers now dump e e' tab a Hup Hwf Hr Hp Hcs Hne Htab Hh Hesp Hs)
    as (sig & e1 & Hrun & Hso & Hbit & Hlow & Hdel & _).
  rewrite activesig_testbit in Hbit by assumption. apply andb_prop in Hbit as [Hb1 Hb2].
  apply negb_true_iff in Hb2.
  exists sig, e1. split_and!; try assumption.
  intros e2 Hsp Hat.
  exact (sigreturn_restores e sig _ a e1 e2 Hwf Hr Hm Hsp Hesp Hs Hdel Hat).
Qed.

End World.

Definition demo_emu : EmuState unit :=
  mkEmu (set_gmem (store ∅ (2 ^ 26 + 100 + 14) (le_bytes 4 5000)) demo_guest) demo_space
    2 0 ∅ (Some (2 ^ 26 + 100)) B32 15 PidMap_new 10 0 [] ().

Lemma signal_delivery_roundtrip_witness :
  activesig demo_emu = 2 /\
  exists sig e1, signal_tail (7, 0) (fun _ => Ok ()) demo_emu = (e1, Ok ()) /\ sig_ok sig /\
    Z.testbit (m_sigpend demo_emu) (sig - 1) = true.
Proof.
  split; [reflexivity|].
  destruct (update_timesel (7, 0) demo_emu) as [e' r] eqn:Hup.
  assert (Hr : r = Ok ()) by (vm_compute in Hup; congruence). subst r.
  destruct (signal_delivery_roundtrip (7, 0) (fun _ => Ok ()) demo_emu e' (2 ^ 26 + 100) (2 ^ 26 + 2048 - 128 - 76) Hup)
    as (sig & e1 & H1 & H2 & H3 & _).
  - exact wf_demo_space.
  - exact demo_regs_ok.
  - split; [discriminate|reflexivity].
  - split; [discriminate|reflexivity].
  - vm_compute. discriminate.
  - vm_compute. discriminate.
  - reflexivity.
  - intros s Hs Hb.
    assert (Hs2 : s = 2).
    { change (activesig demo_emu) with 2 in Hb. destruct Hs as [Hs1 Hs2].
      unfold Sigset.Qnx.QSIGMIN in Hs1. change 2 with (2 ^ 1) in Hb.
      rewrite Z.pow2_bits_eqb in Hb by lia. apply Z.eqb_eq in Hb. lia. }
    subst s. apply (f_equal fst) in Hup. cbn [fst] in Hup. rewrite <- Hup. vm_compute. reflexivity.
  - vm_compute. discriminate.
  - split; [intros r; destruct r; vm_compute; intuition discriminate|].
    split; [vm_compute; intuition discriminate|vm_compute; reflexivity].
  - exists sig, e1. split; [exact H1|]. split; [exact H2|exact H3].
Defined.

Section Semaphores.
Context {W : Type}.

(** *** Semaphores *)

(** The abstract semaphore: the new value, and the errno of a refused call. *)
Definition sem_spec (syscall value : Z) : Z * option Z :=
  if syscall =? 0 then (u32 (value + 1), None)
  else if syscall =? 1 then if value =? 0 then (value, Some Errno.Qnx.QEDEADLK) else (value - 1, None)
  else if syscall =? 2 then if value =? 0 then (value, Some Errno.Qnx.QEAGAIN) else (value - 1, None)
  else (value, Some Errno.Qnx.QENOSYS).

(** The registers after a system call that ended with [err]. *)
Definition syscall_result (err : option Z) (g g' : Guest) : Prop :=
  (forall r, r <> EAX -> r <> EFLAGS -> gr g' r = gr g r) /\
  match err with
  | None => gr g' EAX = 0 /\ gr g' EFLAGS = gr g EFLAGS
  | Some v => gr g' EAX = u32 v /\ gr g' EFLAGS = u32 (Z.lor (gr g EFLAGS) 1)
  end.

Lemma syscall_error_run v (e : EmuState W) :
  exists g', syscall_error v e = (set_guest g' e, Ok ()) /\ syscall_result (Some v) (e_guest e) g' /\
    g_mem g' = g_mem (e_guest e).
Proof.
  eexists. split; [reflexivity|]. unfold syscall_result, gr. cbn [set_regs g_regs g_mem width].
  split_and!; [|rewrite !rget_upd; reflexivity|rewrite !rget_upd; reflexivity|reflexivity].
  intros r H1 H2. by rewrite !rget_upd, !decide_False.
Qed.

Lemma syscall_ok_run (e : EmuState W) :
  exists g', syscall_ok e = (set_guest g' e, Ok ()) /\ syscall_result None (e_guest e) g' /\
    g_mem g' = g_mem (e_guest e).
Proof.
  eexists. split; [reflexivity|]. unfold syscall_result, gr. cbn [set_regs g_regs g_mem width].
  split_and!; [|rewrite !rget_upd; reflexivity|rewrite !rget_upd; reflexivity|reflexivity].
  intros r H1 H2. by rewrite !rget_upd, !decide_False.
Qed.

Lemma sem_post_wait v : 0 <= v < 2 ^ 32 -> v < 2 ^ 32 - 1 -> sem_spec 1 (sem_spec 0 v).1 = (v, None).
Proof.
  intros Hv Hlt. unfold sem_spec. cbn -[wrapu Z.pow]. rewrite wrapu_small by lia.
  destruct (Z.eqb_spec (v + 1) 0); [lia|]. f_equal. lia.
Qed.

(** C38. The semaphore calls implement the abstract semaphore.  On an accessible
    semaphore the counter in guest memory and the result in the registers are
    those of [sem_spec] - in particular the counter never goes below zero and a
    refused wait changes nothing - and no other byte or register changes; a
    wait after a post gives the counter back. *)
Theorem sem_refines (e : EmuState W) p :
  let g := e_guest e in
  let value := le_val (load (g_mem g) p 4) in
  translate_segmented (e_space e) (mkFarPointer (gr g DS) (gr g EAX)) sizeof_sem WRITE = Ok p ->
  Forall is_byte (load (g_mem g) p 4) ->
  exists g', dispatch_syscall_sem e = (set_guest g' e, Ok ()) /\
    le_val (load (g_mem g') p 4) = (sem_spec (gr g EBX) value).1 /\
    syscall_result (sem_spec (gr g EBX) value).2 g g' /\
    (forall x, x < p \/ p + 4 <= x -> peek (g_mem g') x = peek (g_mem g) x) /\
    (value < 2 ^ 32 - 1 -> sem_spec 1 (sem_spec 0 value).1 = (value, None)).
Proof.
  intros g value Ht Hb.
  assert (Hv : 0 <= value < 2 ^ 32).
  { pose proof (le_val_range _ Hb) as H. by rewrite length_load in H. }
  assert (Hlast : value < 2 ^ 32 - 1 -> sem_spec 1 (sem_spec 0 value).1 = (value, None)).
  { intros Hlt. by apply sem_post_wait. }
  assert (Hput : forall v m, le_val (load (store m p (le_bytes 4 v)) p 4) = u32 v).
  { intros v m. rewrite <- (length_le_bytes 4 v) at 2. rewrite load_store. apply (le_val_bytes 4). }
  assert (Hout : forall v m x, x < p \/ p + 4 <= x -> peek (store m p (le_bytes 4 v)) x = peek m x).
  { intros v m x Hx. rewrite peek_store, length_le_bytes.
    destruct (Z.leb_spec p x), (Z.ltb_spec x (p + Z.of_nat 4)); simpl; done || lia. }
  unfold dispatch_syscall_sem. rewrite (bind_Ok get _ _ _ _ eq_refl). cbv zeta.
  fold g. rewrite (bind_Ok (lift _) _ e e p) by (unfold lift; by rewrite Ht).
  rewrite (bind_Ok (host_load p 4) _ _ _ _ eq_refl). fold g value. unfold sem_spec.
  destruct (gr g EBX =? 0); [|destruct (gr g EBX =? 1); [|destruct (gr g EBX =? 2)]].
  - rewrite (bind_Ok (host_store _ _) _ _ _ _ eq_refl).
    match goal with |- context [syscall_ok ?x] => destruct (syscall_ok_run x) as (g' & Hrun & Hres & Hmem) end.
    exists g'. rewrite Hrun, Hmem. cbn [g_mem set_gmem e_guest set_guest fst snd].
    split_and!; [reflexivity|rewrite Hput; apply wrapu_idem; lia|exact Hres|apply Hout|exact Hlast].
  - destruct (Z.eqb_spec value 0) as [Hz|Hz].
    + destruct (syscall_error_run Errno.Qnx.QEDEADLK e) as (g' & Hrun & Hres & Hmem).
      exists g'. rewrite Hrun, Hmem. split_and!; try done.
    + rewrite (bind_Ok (host_store _ _) _ _ _ _ eq_refl).
      match goal with |- context [syscall_ok ?x] => destruct (syscall_ok_run x) as (g' & Hrun & Hres & Hmem) end.
      exists g'. rewrite Hrun, Hmem. cbn [g_mem set_gmem e_guest set_guest fst snd].
      split_and!; [reflexivity| |exact Hres|apply Hout|exact Hlast].
      rewrite Hput, wrapu_idem by lia. apply wrapu_small. lia.
  - destruct (Z.eqb_spec value 0) as [Hz|Hz].
    + destruct (syscall_error_run Errno.Qnx.QEAGAIN e) as (g' & Hrun & Hres & Hmem).
      exists g'. rewrite Hrun, Hmem. split_and!; try done.
    + destruct (syscall_ok_run e) as (g' & Hrun & Hres & Hmem). rewrite (bind_Ok _ _ _ _ _ Hrun).
      eexists. split; [reflexivity|]. cbn [g_mem set_gmem e_guest set_guest]. rewrite Hmem. cbn [fst snd].
      split_and!; [|exact Hres|apply Hout|exact Hlast].
      rewrite Hput, wrapu_idem by lia. apply wrapu_small. lia.
  - destruct (syscall_error_run Errno.Qnx.QENOSYS e) as (g' & Hrun & Hres & Hmem).
    exists g'. rewrite Hrun, Hmem. split_and!; try done.
Qed.

End Semaphores.

Lemma sem_refines_witness :
  let e := set_guest (set_regs (upd (upd (g_regs demo_guest) EAX 40) EBX 0) demo_guest) demo_emu in
  exists g', dispatch_syscall_sem e = (set_guest g' e, Ok ()) /\
    le_val (load (g_mem g') (2 ^ 26 + 40) 4) = 1 /\ gr g' EAX = 0.
Proof.
  cbv zeta.
  destruct (sem_refines (set_guest (set_regs (upd (upd (g_regs demo_guest) EAX 40) EBX 0) demo_guest) demo_emu)
              (2 ^ 26 + 40)) as (g' & H1 & H2 & H3 & _).
  - vm_compute. reflexivity.
  - vm_compute. repeat constructor; discriminate.
  - exists g'. split; [exact H1|]. split; [rewrite H2; vm_compute; reflexivity|]. exact (proj1 (proj2 H3)).
Defined.

Section Errors.
Context {W : Type}.

(** *** Faults *)

(** The calls of the two dispatchers. *)
Definition calls32 (host_kill : Z -> Z -> Z) (handle_msg : MsgContext -> M (EmuState W) unit)
  : list (Z * M (EmuState W) unit) :=
  [(0, syscall_sendmx handle_msg); (1, syscall_receivmx); (7, syscall_sigreturn); (8, syscall_priority);
   (10, syscall_yield); (11, syscall_sendfdmx handle_msg); (14, syscall_kill host_kill)].
Definition calls16 (handle_msg : MsgContext -> M (EmuState W) unit) : list (Z * M (EmuState W) unit) :=
  [(0, syscall16_sendmx handle_msg); (1, syscall16_receivmx); (7, syscall16_sigreturn); (8, syscall_priority);
   (10, syscall_yield); (11, syscall16_sendfdmx handle_msg)].

(** What a dispatcher makes of the outcome of a call. *)
Definition answered (call res : EmuState W * outcome unit) : Prop :=
  match call with
  | (e1, Throw (SegmentationFault _)) =>
      exists g', res = (set_guest g' e1, Ok ()) /\
        syscall_result (Some Errno.Qnx.QEFAULT) (e_guest e1) g' /\ g_mem g' = g_mem (e_guest e1)
  | _ => res = call
  end.

Lemma catch_segv_answers m (e : EmuState W) : answered (m e) (catch_segv m e).
Proof.
  destruct (m e) as [e1 [[]|x]] eqn:E; unfold catch_segv, try_catch; rewrite E; [done|].
  destruct x; try reflexivity. apply syscall_error_run.
Qed.

Lemma catch_segv_ext m m' (e : EmuState W) : m e = m' e -> catch_segv m e = catch_segv m' e.
Proof. intros H. unfold catch_segv, try_catch. by rewrite H. Qed.

(** The number of a 16-bit call is on the guest's stack. *)
Definition number16 (e : EmuState W) (n : Z) : Prop :=
  snd (on_guest (fun T => GuestContext.read (T := T) 2 SegSS (gr (e_guest e) ESP)) e) = Ok n.

Lemma dispatch16_body handle_msg (e : EmuState W) n :
  number16 e n -> dispatch_syscall16 handle_msg e = catch_segv (
    if n =? 0 then syscall16_sendmx handle_msg
    else if n =? 1 then syscall16_receivmx
    else if n =? 7 then syscall16_sigreturn
    else if n =? 8 then syscall_priority
    else if n =? 10 then syscall_yield
    else if n =? 11 then syscall16_sendfdmx handle_msg
    else syscall_error Errno.Qnx.QENOSYS) e.
Proof.
  unfold number16. intros Hn. unfold dispatch_syscall16.
  rewrite (bind_Ok _ _ _ _ _ (greg_run ESP e)), set_guest_id.
  erewrite bind_Ok; [reflexivity|]. revert Hn.
  unfold on_guest, GuestContext.read, read_data, get, lift, mbind, M_bind.
  destruct (translate _ _ _) as [a|x]; [|done]. intros [= <-]. by destruct e.
Qed.

(** An error the call reports by itself. *)
Lemma caught_error v (e : EmuState W) :
  exists g', match syscall_error v e with
             | (s', Ok a) => (s', Ok a)
             | (s', Throw x) => if is_segv x then syscall_error Errno.Qnx.QEFAULT s' else (s', Throw x)
             end = (set_guest g' e, Ok ()) /\
    syscall_result (Some v) (e_guest e) g' /\ g_mem g' = g_mem (e_guest e).
Proof. destruct (syscall_error_run v e) as (g' & -> & H1 & H2). by exists g'. Qed.

Lemma receive_caught (e : EmuState W) :
  let g := e_guest e in
  let pid := i32 (gr g EDX) in
  let mine := pid = m_my_pid e \/ pid = PID_PROC \/ pid = 0 in
  exists g', (mine /\ (exists e1, host_call HPause e = (e1, Ok ()) /\
                 catch_segv syscall_receivmx e = (set_guest g' e1, Ok ())) /\
                 syscall_result (Some Errno.Qnx.QEINTR) g g')
          \/ (~ mine /\ catch_segv syscall_receivmx e = (set_guest g' e, Ok ()) /\
                 syscall_result (Some Errno.Qnx.QESRCH) g g').
Proof.
  cbv zeta. set (g := e_guest e). set (pid := i32 (gr g EDX)).
  unfold catch_segv, try_catch, syscall_receivmx. rewrite (bind_Ok get _ _ _ _ eq_refl).
  cbv zeta. fold g. fold pid.
  destruct ((pid =? m_my_pid e) || (pid =? PID_PROC) || (pid =? 0)) eqn:Em.
  - rewrite (bind_Ok (host_call HPause) _ _ _ _ eq_refl).
    match goal with |- context [syscall_error ?v ?x] =>
      destruct (syscall_error_run v x) as (g' & -> & Hres & _) end.
    exists g'. left. split; [|split; [eexists; split; reflexivity|exact Hres]].
    apply orb_prop in Em as [Em|Em]; [apply orb_prop in Em as [Em|Em]|]; apply Z.eqb_eq in Em; auto.
  - destruct (syscall_error_run Errno.Qnx.QESRCH e) as (g' & -> & Hres & _).
    exists g'. right. split; [|split; [reflexivity|exact Hres]].
    apply orb_false_elim in Em as [Em E3]. apply orb_false_elim in Em as [E1 E2].
    apply Z.eqb_neq in E1, E2, E3. tauto.
Qed.

(** C39. The error paths of the system calls, of 32-bit and of 16-bit programs.
    Whatever call the guest makes, a fault on a guest pointer inside it never
    leaves the dispatcher: the guest gets EFAULT in EAX with the carry flag set,
    on top of whatever the call had done until the fault; every other exception
    of the call leaves it unchanged, and so does its success.  A call number
    that does not exist gives ENOSYS and changes nothing else.  A 16-bit program
    whose stack holds no call number faults outside this protection, and so do
    the semaphore calls: their fault leaves the dispatcher.  A receive gives
    EINTR after a pause, or ESRCH for another process, and a signal number that
    does not exist gives EINVAL without any call of the host kernel. *)
Theorem syscall_errors host_kill (handle_msg : MsgContext -> M (EmuState W) unit) (e : EmuState W) :
  let g := e_guest e in
  let dispatch := dispatch_syscall host_kill handle_msg in
  let dispatch16 := dispatch_syscall16 handle_msg in
  (forall n call, (n, call) ∈ calls32 host_kill handle_msg -> reg_al g = n -> answered (call e) (dispatch e)) /\
  (forall n call, (n, call) ∈ calls16 handle_msg -> number16 e n -> answered (call e) (dispatch16 e)) /\
  (reg_al g ∉ (calls32 host_kill handle_msg).*1 ->
     exists g', dispatch e = (set_guest g' e, Ok ()) /\
       syscall_result (Some Errno.Qnx.QENOSYS) g g' /\ g_mem g' = g_mem g) /\
  (forall n, number16 e n -> n ∉ (calls16 handle_msg).*1 ->
     exists g', dispatch16 e = (set_guest g' e, Ok ()) /\
       syscall_result (Some Errno.Qnx.QENOSYS) g g' /\ g_mem g' = g_mem g) /\
  (forall x, translate_segmented (e_space e) (mkFarPointer (gr g SS) (u32 (gr g ESP))) 2 READ = Throw x ->
     dispatch16 e = (e, Throw x)) /\
  (forall x, translate_segmented (e_space e) (mkFarPointer (gr g DS) (gr g EAX)) sizeof_sem WRITE = Throw x ->
     dispatch_syscall_sem e = (e, Throw x)) /\
  (let pid := i32 (gr g EDX) in
   let mine := pid = m_my_pid e \/ pid = PID_PROC \/ pid = 0 in
   forall d, (reg_al g = 1 /\ d = dispatch) \/ (number16 e 1 /\ d = dispatch16) ->
     exists g', (mine /\ (exists e1, host_call HPause e = (e1, Ok ()) /\ d e = (set_guest g' e1, Ok ())) /\
                   syscall_result (Some Errno.Qnx.QEINTR) g g')
             \/ (~ mine /\ d e = (set_guest g' e, Ok ()) /\
                   syscall_result (Some Errno.Qnx.QESRCH) g g')) /\
  (reg_al g = 14 -> map_sig_qnx_to_host (i32 (gr g EBX)) = -1 ->
     exists g', dispatch e = (set_guest g' e, Ok ()) /\ syscall_result (Some Errno.Qnx.QEINVAL) g g').
Proof.
  intros g dispatch dispatch16. split_and!.
  - intros n call Hin Hal. unfold dispatch, dispatch_syscall.
    rewrite (catch_segv_ext _ call); [apply catch_segv_answers|].
    rewrite (bind_Ok get _ _ _ _ eq_refl). cbv zeta. fold g. rewrite Hal.
    unfold calls32 in Hin. rewrite !elem_of_cons in Hin.
    repeat destruct Hin as [[= -> ->]|Hin]; try reflexivity. by apply elem_of_nil in Hin.
  - intros n call Hin Hn. unfold dispatch16. rewrite (dispatch16_body _ _ _ Hn).
    rewrite (catch_segv_ext _ call); [apply catch_segv_answers|].
    unfold calls16 in Hin. rewrite !elem_of_cons in Hin.
    repeat destruct Hin as [[= -> ->]|Hin]; try reflexivity. by apply elem_of_nil in Hin.
  - intros Hal. unfold dispatch, dispatch_syscall, catch_segv, try_catch.
    rewrite (bind_Ok get _ _ _ _ eq_refl). cbv zeta. fold g.
    cbn [calls32 fmap list_fmap fst] in Hal. rewrite !not_elem_of_cons in Hal.
    destruct Hal as (H0 & H1 & H7 & H8 & H10 & H11 & H14 & _).
    apply Z.eqb_neq in H0 as ->, H1 as ->, H7 as ->, H8 as ->, H10 as ->, H11 as ->, H14 as ->.
    apply caught_error.
  - intros n Hn Hal. unfold dispatch16. rewrite (dispatch16_body _ _ _ Hn). unfold catch_segv, try_catch.
    cbn [calls16 fmap list_fmap fst] in Hal. rewrite !not_elem_of_cons in Hal.
    destruct Hal as (H0 & H1 & H7 & H8 & H10 & H11 & _).
    apply Z.eqb_neq in H0 as ->, H1 as ->, H7 as ->, H8 as ->, H10 as ->, H11 as ->.
    apply caught_error.
  - intros x Ht. unfold dispatch16, dispatch_syscall16.
    rewrite (bind_Ok _ _ _ _ _ (greg_run ESP e)), set_guest_id. fold g.
    unfold on_guest, GuestContext.read, read_data, get, lift, mbind, M_bind.
    change (e_guest e) with g.
    assert (Ht' : @translate (space_translation (e_space e)) (mkFarPointer (get_seg SegSS g) (u32 (gr g ESP)))
      (Z.of_nat 2) READ = Throw x) by exact Ht.
    rewrite Ht'. by destruct e.
  - intros x Ht. unfold dispatch_syscall_sem. rewrite (bind_Ok get _ _ _ _ eq_refl). cbv zeta. fold g.
    unfold lift, mbind, M_bind. by rewrite Ht.
  - intros pid mine d Hd.
    assert (Hr : d e = catch_segv syscall_receivmx e).
    { destruct Hd as [[Hal ->]|[Hn ->]].
      - apply catch_segv_ext. rewrite (bind_Ok get _ _ _ _ eq_refl). cbv zeta. fold g. by rewrite Hal.
      - exact (dispatch16_body _ _ _ Hn). }
    rewrite Hr. apply receive_caught.
  - intros Hal Hsig. unfold dispatch, dispatch_syscall, catch_segv, try_catch.
    rewrite (bind_Ok get _ _ _ _ eq_refl). cbv zeta. fold g.
    rewrite Hal. cbn [Z.eqb Pos.eqb]. unfold syscall_kill. rewrite (bind_Ok get _ _ _ _ eq_refl). fold g.
    unfold kill. rewrite Hsig. cbn [Z.eqb Pos.eqb].
    destruct (caught_error Errno.Qnx.QEINVAL e) as (g' & -> & Hres & _).
    exists g'. split; [reflexivity|exact Hres].
Qed.

(** *** Registering handlers *)

(** The [handler_fn] word of a handler: 16-bit programs keep a far pointer. *)
Definition handler_word (b : Bitness) (h : FarPointer) : list Z :=
  match b with
  | B32 => le_bytes 4 (Types.m_offset h)
  | B16 => le_bytes 2 (Types.m_offset h) ++ le_bytes 2 (Types.m_segment h)
  end.

Lemma length_handler_word b h : length (handler_word b h) = 4%nat.
Proof. by destruct b. Qed.

(** The three stores of [signal_sigact]. *)
Definition store_action (m : Mem) (si : Z) (b : Bitness) (h : FarPointer) (mask : Z) : Mem :=
  store (store (store m (si + 8) (le_bytes 2 0)) si (handler_word b h)) (si + 4) (le_bytes 4 mask).

Lemma store_action_spec m si b h mask :
  load (store_action m si b h mask) si 4 = handler_word b h /\
  act_mask (store_action m si b h mask) si = u32 mask /\
  (forall x, x < si \/ si + sizeof_sigaction <= x -> peek (store_action m si b h mask) x = peek m x).
Proof.
  unfold store_action, act_mask, sizeof_sigaction. split_and!.
  - rewrite load_store_disjoint by lia. rewrite <- (length_handler_word b h) at 1. apply load_store.
  - rewrite <- (length_le_bytes 4 mask) at 1. rewrite load_store. apply (le_val_bytes 4).
  - intros x Hx. rewrite !peek_store, !length_le_bytes, length_handler_word.
    destruct (Z.leb_spec (si + 4) x), (Z.ltb_spec x (si + 4 + Z.of_nat 4)), (Z.leb_spec si x),
      (Z.ltb_spec x (si + Z.of_nat 4)), (Z.leb_spec (si + 8) x), (Z.ltb_spec x (si + 8 + Z.of_nat 2));
      cbn [andb]; first [lia|reflexivity].
Qed.

Lemma set_action_run (e : EmuState W) tab sig h mask :
  m_sigtab e = Some tab -> sig_ok sig ->
  set_action sig h mask e =
    (set_guest (set_gmem (store_action (g_mem (e_guest e)) (action_at tab sig) (m_bits e) h mask)
       (e_guest e)) e, Ok Errno.Qnx.QEOK).
Proof.
  intros Htab Hs. unfold set_action. rewrite (bind_Ok _ _ _ _ _ (qnx_sigtab_run e tab sig true Hs Htab)).
  rewrite (bind_Ok (host_store _ _) _ _ _ _ eq_refl), (bind_Ok get _ _ _ _ eq_refl).
  change (m_bits (set_guest _ e)) with (m_bits e).
  unfold store_action. destruct (m_bits e); reflexivity.
Qed.

(** Registering a signal action.  HOLD blocks the signal and does nothing
    else; a QNX signal without a host counterpart is EINVAL; when the host
    refuses, the result is EIO whatever the host's error was, and nothing was
    written; otherwise the host got the disposition that corresponds to the
    handler (none for SIGSEGV, which the emulator keeps), and the guest's table
    holds exactly the handler, the mask and cleared flags for that signal. *)
Theorem sigact_spec sigaction (e : EmuState W) tab sig h mask :
  m_sigtab e = Some tab -> sig_ok sig ->
  let off := Types.m_offset h in
  let host_sig := map_sig_qnx_to_host sig in
  let run := signal_sigact sigaction sig h mask in
  (off = Sigset.Qnx.QSIG_HOLD -> exists v, run e = (set_sigs (m_sigpend e) v e, Ok Errno.Qnx.QEOK) /\
     forall s, sig_ok s -> Z.testbit v (s - 1) = (Z.testbit (m_sigmask e) (s - 1) || (s =? sig))%bool) /\
  (off <> Sigset.Qnx.QSIG_HOLD ->
     (host_sig = -1 -> run e = (e, Ok Errno.Qnx.QEINVAL)) /\
     (host_sig <> -1 -> host_sig <> Sigset.Host.SIGSEGV -> sigaction host_sig (host_handler off) <> 0 ->
        exists e1, run e = (e1, Ok Errno.Qnx.QEIO) /\ e_guest e1 = e_guest e /\
          e_calls e1 = e_calls e ++ [HSigaction host_sig (host_handler off)]) /\
     (host_sig <> -1 -> host_sig = Sigset.Host.SIGSEGV \/ sigaction host_sig (host_handler off) = 0 ->
        exists e1, run e = (e1, Ok Errno.Qnx.QEOK) /\
          e_calls e1 = e_calls e ++
            (if host_sig =? Sigset.Host.SIGSEGV then [] else [HSigaction host_sig (host_handler off)]) /\
          g_regs (e_guest e1) = g_regs (e_guest e) /\
          let m' := g_mem (e_guest e1) in let si := action_at tab sig in
          load m' si 4 = handler_word (m_bits e) h /\ act_mask m' si = u32 mask /\
          (forall x, x < si \/ si + sizeof_sigaction <= x -> peek m' x = peek (g_mem (e_guest e)) x))).
Proof.
  intros Htab Hs off host_sig run. unfold run, signal_sigact. cbv zeta. fold off host_sig.
  split; [|intros Hoff; apply Z.eqb_neq in Hoff as ->; split; [|split]].
  - intros ->. destruct (set_qnx_sig_ok (m_sigmask e) sig Hs) as (v & Hv & Hb).
    exists v. split; [|exact Hb]. rewrite Z.eqb_refl, (bind_Ok get _ _ _ _ eq_refl). by rewrite Hv.
  - intros ->. reflexivity.
  - intros Hh Hsegv Hr. apply Z.eqb_neq in Hh as ->, Hsegv as ->, Hr.
    cbn [negb]. unfold host_call, Prelude.modify, mbind, M_bind. rewrite Hr.
    eexists. split; [reflexivity|]. split; reflexivity.
  - intros Hh Hok. apply Z.eqb_neq in Hh as ->.
    assert (Hx : exists x, (if negb (host_sig =? Sigset.Host.SIGSEGV)
        then _ ← host_call (HSigaction host_sig (host_handler off));
             mret (if sigaction host_sig (host_handler off) =? 0 then 0 else -1)
        else mret 0) e = (x, Ok 0) /\ e_guest x = e_guest e /\ m_sigtab x = Some tab /\ m_bits x = m_bits e /\
      e_calls x = e_calls e ++
            (if host_sig =? Sigset.Host.SIGSEGV then [] else [HSigaction host_sig (host_handler off)])).
    { destruct (Z.eqb_spec host_sig Sigset.Host.SIGSEGV) as [Hv|Hv]; cbn [negb].
      - exists e. by rewrite app_nil_r.
      - destruct Hok as [Hok|Hok]; [contradiction|]. rewrite Hok. eexists. split; [reflexivity|]. done. }
    destruct Hx as (x & Hx & Hg & Ht & Hb & Hc). rewrite (bind_Ok _ _ _ _ _ Hx). cbn [Z.eqb negb].
    rewrite (set_action_run _ _ _ _ _ Ht Hs). eexists. split; [reflexivity|].
    split; [exact Hc|]. cbn [e_guest set_guest g_regs set_gmem g_mem]. rewrite Hg, Hb.
    split; [reflexivity|]. apply store_action_spec.
Qed.

End Errors.

Lemma sigact_spec_witness :
  exists e1, signal_sigact (fun _ _ => 0) 2 (mkFarPointer 7 5000) 1 demo_emu = (e1, Ok Errno.Qnx.QEOK) /\
    e_calls e1 = [HSigaction 2 StaticHandlerGeneric] /\
    load (g_mem (e_guest e1)) (action_at (2 ^ 26 + 100) 2) 4 = le_bytes 4 5000.
Proof.
  destruct (sigact_spec (fun _ _ => 0) demo_emu (2 ^ 26 + 100) 2 (mkFarPointer 7 5000) 1)
    as [_ H]; [reflexivity|split; discriminate|].
  destruct (H ltac:(discriminate)) as (_ & _ & H3).
  destruct (H3 ltac:(discriminate) (or_intror eq_refl)) as (e1 & H4 & H5 & _ & H6 & _).
  exists e1. split; [exact H4|]. split; [exact H5|exact H6].
Defined.
