(* ===== verification/Layout.v ===== *)
(** * Layout: packed structures, [msg/gen.py]

    The messages are packed C structures generated from the files of [msg/].  A
    structure is a list of named fields; a structure variable is the sequence of
    its bytes.  A field access carries a proof that the field exists and has the
    right shape, so that a wrong name does not type-check; embedded structures
    are flattened, their fields are named with a dot. *)

From stdpp Require Import pretty.
From S2P Require Import Prelude Types.

(** ** Fields *)

Inductive ftype :=
| TInt (signed : bool) (size : nat)
| TBytes (size : nat).

#[export] Instance ftype_eq_dec : EqDecision ftype.
Proof. solve_decision. Defined.

Definition ft_size (t : ftype) : nat := match t with TInt _ n => n | TBytes n => n end.

Definition layout : Type := list (string * ftype).

(** [sizeof] of a packed structure. *)
Fixpoint sizeof (L : layout) : nat :=
  match L with [] => 0 | (_, t) :: L => ft_size t + sizeof L end.

(** The offset and the type of a field. *)
Fixpoint locate (L : layout) (off : nat) (f : string) : option (nat * ftype) :=
  match L with
  | [] => None
  | (g, t) :: L => if String.eqb g f then Some (off, t) else locate L (off + ft_size t) f
  end.
Definition field (L : layout) (f : string) : option (nat * ftype) := locate L 0 f.

Definition int_field (L : layout) (f : string) : bool :=
  match field L f with Some (_, TInt _ _) => true | _ => false end.
Definition bytes_field (L : layout) (f : string) : bool :=
  match field L f with Some (_, TBytes _) => true | _ => false end.

Definition offset_of (L : layout) (f : string) : nat :=
  match field L f with Some (o, _) => o | None => 0%nat end.
Definition size_of (L : layout) (f : string) : nat :=
  match field L f with Some (_, t) => ft_size t | None => 0%nat end.

(** ** Access *)

(** The value of a C++ integer object that was assigned [v]. *)
Definition conv (t : ftype) (v : Z) : Z :=
  match t with
  | TInt true n => wraps (8 * Z.of_nat n) v
  | TInt false n => wrapu (8 * Z.of_nat n) v
  | TBytes _ => v
  end.

Definition fld (L : layout) (f : string) (H : int_field L f = true) (b : list Z) : Z :=
  match field L f with
  | Some (o, t) => conv t (le_val (slice o (ft_size t) b))
  | None => 0
  end.

Definition set_fld (L : layout) (f : string) (H : int_field L f = true) (v : Z) (b : list Z) : list Z :=
  splice (offset_of L f) (le_bytes (size_of L f) v) b.

(** A byte array: its bytes, a C string read from it, and an assignment. *)
Definition arr (L : layout) (f : string) (H : bytes_field L f = true) (b : list Z) : list Z :=
  slice (offset_of L f) (size_of L f) b.
Definition set_arr (L : layout) (f : string) (H : bytes_field L f = true) (v b : list Z) : list Z :=
  splice (offset_of L f) (take (size_of L f) v) b.

(** Reading past the end of an array that holds no NUL is undefined. *)
Definition c_string (bs : list Z) : outcome cstring :=
  if existsb (fun b => b =? 0) bs then Ok (cstr bs) else Throw (Undefined "unterminated string").

(** [qine_strlcpy(x.f, src, sizeof(x.f))]. *)
Definition set_str (L : layout) (f : string) (H : bytes_field L f = true) (src : cstring) (b : list Z)
  : list Z :=
  set_arr L f H (fst (qine_strlcpy (arr L f H b) src (size_of L f))) b.

(** The same with a size that need not be the array's. *)
Definition set_str_max (L : layout) (f : string) (H : bytes_field L f = true) (src : cstring) (max : nat)
    (b : list Z) : list Z :=
  set_arr L f H (fst (qine_strlcpy (arr L f H b) src max)) b.

(** [clear(&x)] and [memset(&x, 0, sizeof(x))]. *)
Definition clear (L : layout) : list Z := replicate (sizeof L) 0.

Notation "b [: L ; f :]" := (fld L f eq_refl b)
  (at level 2, L at level 200, f at level 200, format "b [:  L ;  f  :]") : qine_scope.
Notation "b [: L ; f <- v :]" := (set_fld L f eq_refl v b)
  (at level 2, L at level 200, f at level 200, v at level 200, format "b [:  L ;  f  <-  v  :]")
  : qine_scope.

(** ** Embedded structures *)

Definition sub (f : string) (S : layout) : layout :=
  (fun '(g, t) => (String.append f (String.append "." g), t)) <$> S.

(** Structure [S] is embedded in [L] as [f]. *)
Definition sub_offset (L : layout) (f : string) (S : layout) : nat :=
  match S with [] => 0%nat | (g, _) :: _ => offset_of L (String.append f (String.append "." g)) end.
Definition has_sub (L : layout) (f : string) (S : layout) : bool :=
  forallb (fun '(g, t) =>
    bool_decide (field L (String.append f (String.append "." g))
                 = Some ((sub_offset L f S + offset_of S g)%nat, t))) S.

Definition get_sub (L : layout) (f : string) (S : layout) (H : has_sub L f S = true) (b : list Z) : list Z :=
  slice (sub_offset L f S) (sizeof S) b.
Definition set_sub (L : layout) (f : string) (S : layout) (H : has_sub L f S = true) (v b : list Z) : list Z :=
  splice (sub_offset L f S) v b.

(** ** [gen.py] *)

Fixpoint name_padds (c : nat) (L : layout) : layout :=
  match L with
  | [] => []
  | (f, t) :: L =>
      if String.eqb f "padd" then (String.append "padd_" (pretty (S c)), t) :: name_padds (S c) L
      else (f, t) :: name_padds c L
  end.

(** [prepare] on one definition; the names must end up distinct. *)
Definition struct (fields : layout) : layout := name_padds 0 fields.

Record Message := mkMessage {
  TYPE : Z;
  SUBTYPE : option Z;
  request : layout;
  reply : layout
}.

Definition u16_ : ftype := TInt false 2.

(** An inline request gets the type fields. *)
Definition inline (has_subtype : bool) (fields : layout) : layout :=
  struct (("type", u16_) :: (if has_subtype then [("subtype", u16_)] else []) ++ fields).

(** ** Laws *)

Lemma locate_bound L off f o t :
  locate L off f = Some (o, t) -> (off <= o)%nat /\ (o + ft_size t <= off + sizeof L)%nat.
Proof.
  revert off. induction L as [|[g u] L IH]; intros off; simpl; [done|].
  destruct (String.eqb g f); [intros [= <- <-]; lia|]. intros H. apply IH in H. lia.
Qed.

Lemma locate_disjoint L off f g o1 t1 o2 t2 :
  f <> g -> locate L off f = Some (o1, t1) -> locate L off g = Some (o2, t2) ->
  (o1 + ft_size t1 <= o2)%nat \/ (o2 + ft_size t2 <= o1)%nat.
Proof.
  intros Hne. revert off. induction L as [|[h u] L IH]; intros off; simpl; [done|].
  destruct (String.eqb_spec h f), (String.eqb_spec h g); try congruence.
  - intros [= <- <-] H. apply locate_bound in H. lia.
  - intros H [= <- <-]. apply locate_bound in H. lia.
  - apply IH.
Qed.

Lemma int_field_inv L f : int_field L f = true -> exists o s n, field L f = Some (o, TInt s n).
Proof. unfold int_field. destruct (field L f) as [[o [s n|n]]|]; try done. eauto. Qed.

Lemma bytes_field_inv L f : bytes_field L f = true -> exists o n, field L f = Some (o, TBytes n).
Proof. unfold bytes_field. destruct (field L f) as [[o [s n|n]]|]; try done. eauto. Qed.

Lemma field_bound L f o t : field L f = Some (o, t) -> (o + ft_size t <= sizeof L)%nat.
Proof. intros H. apply locate_bound in H. lia. Qed.

Lemma slice_splice_other o1 n o2 src b :
  (o2 + length src <= length b)%nat -> (o1 + n <= o2 \/ o2 + length src <= o1)%nat ->
  slice o1 n (splice o2 src b) = slice o1 n b.
Proof.
  intros Hb Hd. unfold slice, splice. apply list_eq. intros i.
  destruct (decide (i < n)%nat) as [Hi|Hi].
  2: { rewrite !lookup_take_ge by lia. done. }
  rewrite !lookup_take_lt, !lookup_drop by lia. destruct Hd.
  - rewrite lookup_app_l by (rewrite length_take; lia). by rewrite lookup_take_lt by lia.
  - rewrite lookup_app_r by (rewrite length_take; lia). rewrite length_take.
    rewrite lookup_app_r by lia. rewrite lookup_drop. f_equal. lia.
Qed.

Lemma conv_le t n v : ft_size t = n -> (exists s, t = TInt s n) -> conv t (wrapu (8 * Z.of_nat n) v) = conv t v.
Proof.
  intros _ [s ->]. destruct s; simpl; [|by rewrite wrapu_idem by lia].
  unfold wraps, wrapu. by rewrite Zplus_mod_idemp_l.
Qed.

Section Laws.
Context (L : layout) (b : list Z) (Hb : length b = sizeof L).

Lemma length_set_fld f H v : length (set_fld L f H v b) = sizeof L.
Proof using Hb.
  unfold set_fld, offset_of, size_of. destruct (int_field_inv L f H) as (o & s & n & E). rewrite E.
  rewrite length_splice; [done|]. rewrite length_le_bytes. apply field_bound in E. lia.
Qed.

Lemma length_set_arr f H v : (size_of L f <= length v)%nat -> length (set_arr L f H v b) = sizeof L.
Proof using Hb.
  unfold set_arr, offset_of, size_of. destruct (bytes_field_inv L f H) as (o & n & E). rewrite E.
  intros. simpl in *. rewrite length_splice; [done|]. rewrite length_take.
  apply field_bound in E. simpl in E. lia.
Qed.

(** A field reads back as the value converted to its type. *)
Lemma fld_set_same f H H' v :
  fld L f H' (set_fld L f H v b) = conv (default u16_ (snd <$> field L f)) v.
Proof using Hb.
  unfold fld, set_fld, offset_of, size_of. destruct (int_field_inv L f H) as (o & s & n & E).
  rewrite E. simpl. pose proof (field_bound _ _ _ _ E) as Hbd. simpl in Hbd.
  pose proof (slice_splice o (le_bytes n v) b) as Hs. rewrite length_le_bytes in Hs.
  rewrite Hs, le_val_bytes by lia. by apply (conv_le (TInt s n)); [|eauto].
Qed.

Lemma fld_set_other f g H H' v : f <> g -> fld L g H' (set_fld L f H v b) = fld L g H' b.
Proof using Hb.
  intros Hne. unfold fld, set_fld, offset_of, size_of.
  destruct (int_field_inv L f H) as (o & s & n & E). destruct (int_field_inv L g H') as (o' & s' & n' & E').
  rewrite E, E'. simpl. pose proof (field_bound _ _ _ _ E). pose proof (field_bound _ _ _ _ E').
  pose proof (locate_disjoint _ _ _ _ _ _ _ _ Hne E E') as Hd. simpl in *.
  by rewrite slice_splice_other by (rewrite length_le_bytes; lia).
Qed.

Lemma arr_set_fld f g H H' v : f <> g -> arr L g H' (set_fld L f H v b) = arr L g H' b.
Proof using Hb.
  intros Hne. unfold arr, set_fld, offset_of, size_of.
  destruct (int_field_inv L f H) as (o & s & n & E). destruct (bytes_field_inv L g H') as (o' & n' & E').
  rewrite E, E'. simpl. pose proof (field_bound _ _ _ _ E). pose proof (field_bound _ _ _ _ E').
  pose proof (locate_disjoint _ _ _ _ _ _ _ _ Hne E E') as Hd. simpl in *.
  by rewrite slice_splice_other by (rewrite length_le_bytes; lia).
Qed.

Lemma arr_set_same f H H' v : length v = size_of L f -> arr L f H' (set_arr L f H v b) = v.
Proof using Hb.
  unfold arr, set_arr, offset_of, size_of. destruct (bytes_field_inv L f H) as (o & n & E).
  rewrite E. simpl. intros Hl. pose proof (field_bound _ _ _ _ E) as Hbd. simpl in Hbd.
  rewrite take_ge by lia. pose proof (slice_splice o v b) as Hs. rewrite Hl, Hb in Hs. by apply Hs.
Qed.

Lemma fld_set_arr f g H H' v :
  length v = size_of L f -> f <> g -> fld L g H' (set_arr L f H v b) = fld L g H' b.
Proof using Hb.
  intros Hl Hne. unfold fld, set_arr, offset_of, size_of in *.
  destruct (bytes_field_inv L f H) as (o & n & E). destruct (int_field_inv L g H') as (o' & s' & n' & E').
  rewrite E in *. rewrite E'. simpl in *. pose proof (field_bound _ _ _ _ E). pose proof (field_bound _ _ _ _ E').
  pose proof (locate_disjoint _ _ _ _ _ _ _ _ Hne E E') as Hd. simpl in *.
  rewrite take_ge by lia. by rewrite slice_splice_other by lia.
Qed.
End Laws.

Lemma length_clear L : length (clear L) = sizeof L.
Proof. apply length_replicate. Qed.

Lemma le_val_zeros n : le_val (replicate n 0) = 0.
Proof. induction n as [|n IH]; simpl; [done|]. by rewrite IH. Qed.

Lemma conv_0 t : conv t 0 = 0.
Proof.
  destruct t as [[] n|]; simpl; [| |done]; [|by unfold wrapu; rewrite Z.mod_0_l by lia].
  destruct n as [|n]; [reflexivity|]. apply wraps_small; [lia|]. split; [|apply Z.pow_pos_nonneg; lia].
  assert (0 < 2 ^ (8 * Z.of_nat (S n) - 1)) by (apply Z.pow_pos_nonneg; lia). lia.
Qed.

Lemma fld_clear L f H : fld L f H (clear L) = 0.
Proof.
  unfold fld, clear, slice. destruct (field L f) as [[o t]|] eqn:E; [|done].
  rewrite drop_replicate, take_replicate, le_val_zeros. apply conv_0.
Qed.

Lemma fld_range L f H b o n :
  field L f = Some (o, TInt false n) -> 0 <= fld L f H b < 2 ^ (8 * Z.of_nat n).
Proof. intros E. unfold fld. rewrite E. simpl. apply wrapu_range. lia. Qed.

Lemma fld_set L f H H' v b o t :
  length b = sizeof L -> field L f = Some (o, t) -> fld L f H' (set_fld L f H v b) = conv t v.
Proof. intros Hb E. rewrite fld_set_same by done. by rewrite E. Qed.

(** Fields of an embedded structure. *)
Lemma slice_splice_in so o n v b :
  (so + length v <= length b)%nat -> (o + n <= length v)%nat ->
  slice (so + o) n (splice so v b) = slice o n v.
Proof.
  intros Hb Hn. unfold slice, splice. rewrite <- drop_drop.
  rewrite (drop_app_length' (take so b)) by (rewrite length_take; lia).
  rewrite drop_app_le by lia. rewrite take_app_le by (rewrite length_drop; lia). done.
Qed.

Lemma locate_in L off g o t : locate L off g = Some (o, t) -> (g, t) ∈ L.
Proof.
  revert off. induction L as [|[h u] L IH]; intros off; simpl; [done|].
  destruct (String.eqb_spec h g) as [-> |].
  - intros [= _ <-]. apply list_elem_of_here.
  - intros H. apply list_elem_of_further. by eapply IH.
Qed.

Lemma fld_set_sub L f S (Hs : has_sub L f S = true) g (Hg : int_field S g = true)
    (Hf : int_field L (String.append f (String.append "." g)) = true) v b :
  length v = sizeof S -> (sub_offset L f S + sizeof S <= length b)%nat ->
  fld L (String.append f (String.append "." g)) Hf (set_sub L f S Hs v b) = fld S g Hg v.
Proof.
  intros Hv Hb. unfold fld, set_sub. destruct (int_field_inv S g Hg) as (o & sg & n & E). rewrite E.
  pose proof (proj1 (forallb_forall _ _) Hs (g, TInt sg n)) as Hx. cbn beta iota in Hx.
  pose proof (field_bound _ _ _ _ E) as Hbd. simpl in Hbd.
  assert (Hin : In (g, TInt sg n) S) by (apply list_elem_of_In; by eapply locate_in).
  apply Hx, bool_decide_eq_true in Hin. rewrite Hin. unfold offset_of. rewrite E. cbn [ft_size].
  by rewrite slice_splice_in by lia.
Qed.

Lemma length_set_sub L f S H v b :
  length b = sizeof L -> length v = sizeof S -> (sub_offset L f S + sizeof S <= sizeof L)%nat ->
  length (set_sub L f S H v b) = sizeof L.
Proof. intros Hb Hv Hs. unfold set_sub. by rewrite length_splice by lia. Qed.

Lemma get_set_sub L f S H H' v b :
  length b = sizeof L -> length v = sizeof S -> (sub_offset L f S + sizeof S <= sizeof L)%nat ->
  get_sub L f S H' (set_sub L f S H v b) = v.
Proof. intros Hb Hv Hs. unfold get_sub, set_sub. rewrite <- Hv. apply slice_splice. lia. Qed.

(** A field in front of the embedded structure. *)
Lemma get_sub_set_fld L f S H g Hg v b :
  length b = sizeof L -> (offset_of L g + size_of L g <= sub_offset L f S)%nat ->
  (sub_offset L f S + sizeof S <= sizeof L)%nat ->
  get_sub L f S H (set_fld L g Hg v b) = get_sub L f S H b.
Proof.
  intros Hb Hg' Hs. unfold get_sub, set_fld. apply slice_splice_other; rewrite length_le_bytes; lia.
Qed.

(** The fields of a structure that was filled in. *)
Ltac field_length := repeat first [assumption | apply length_clear | apply length_set_fld].
Ltac fields :=
  repeat first [erewrite fld_set; [|field_length|reflexivity]
               |rewrite fld_set_other; [|field_length|discriminate]
               |rewrite fld_clear];
  repeat match goal with |- context [conv ?t ?v] =>
    let t' := eval hnf in t in progress change (conv t v) with (conv t' v) end;
  cbn [conv]; change (8 * Z.of_nat 1) with 8; change (8 * Z.of_nat 2) with 16; change (8 * Z.of_nat 4) with 32.
