(* ===== verification/WireFormat.v ===== *)
(** * WireFormat: the messages as they lie in memory

    What the message files [msg/*.qmsg] mean to the guest, written out: for every
    message its type, its subtype, the sizes of its request and its reply, and
    the absolute offset and the type of every field, with the embedded structures
    spelled out and without any of the machinery of [Layout].  [QnxMsg] proves
    that the structures it declares come out like this. *)

From S2P Require Import Prelude Types Layout.

(** The fields with their places, and the size. *)
Definition places : Type := nat * list (string * nat * ftype).
Record Wire := mkWire { wire_type : Z; wire_subtype : option Z; wire_request : places; wire_reply : places }.

#[local] Notation U := (TInt false).
#[local] Notation I := (TInt true).
#[local] Notation B := TBytes.

(** [io.qmsg]. *)
Definition wire_io : list (string * Wire) := [
  ("io_open", mkWire 257%Z None
    (280, [
      ("type", 0, U 2); ("open.fd", 2, I 2); ("open.unit", 4, U 2); ("open.version_cycle", 6, U 1);
      ("open.eflag", 7, U 1); ("open.nid", 8, I 4); ("open.pid", 12, I 2); ("open.sflag", 14, U 2);
      ("open.oflag", 16, U 2); ("open.mode", 18, U 2); ("open.zero", 20, U 4); ("file", 24, B 256)])
    (2, [
      ("status", 0, U 2)]));
  ("close", mkWire 258%Z None
    (8, [
      ("type", 0, U 2); ("fd", 2, I 2); ("padd_1", 4, U 4)])
    (2, [
      ("status", 0, U 2)]));
  ("handle", mkWire 265%Z None
    (280, [
      ("type", 0, U 2); ("open.fd", 2, I 2); ("open.unit", 4, U 2); ("open.version_cycle", 6, U 1);
      ("open.eflag", 7, U 1); ("open.nid", 8, I 4); ("open.pid", 12, I 2); ("open.sflag", 14, U 2);
      ("open.oflag", 16, U 2); ("open.mode", 18, U 2); ("open.zero", 20, U 4); ("file", 24, B 256)])
    (2, [
      ("status", 0, U 2)]));
  ("rename", mkWire 262%Z None
    (536, [
      ("type", 0, U 2); ("open.fd", 2, I 2); ("open.unit", 4, U 2); ("open.version_cycle", 6, U 1);
      ("open.eflag", 7, U 1); ("open.nid", 8, I 4); ("open.pid", 12, I 2); ("open.sflag", 14, U 2);
      ("open.oflag", 16, U 2); ("open.mode", 18, U 2); ("open.zero", 20, U 4); ("from", 24, B 256);
      ("to", 280, B 256)])
    (2, [
      ("status", 0, U 2)]));
  ("chdir", mkWire 272%Z None
    (22, [
      ("fd", 0, I 2); ("unit", 2, U 2); ("version_cycle", 4, U 1); ("eflag", 5, U 1);
      ("nid", 6, I 4); ("pid", 10, I 2); ("sflag", 12, U 2); ("oflag", 14, U 2); ("mode", 16, U 2);
      ("zero", 18, U 4)])
    (2, [
      ("status", 0, U 2)]));
  ("read", mkWire 259%Z None
    (8, [
      ("type", 0, U 2); ("fd", 2, I 2); ("nbytes", 4, U 2); ("zero", 6, U 2)])
    (8, [
      ("status", 0, U 2); ("nbytes", 2, U 2); ("zero", 4, U 4)]));
  ("write", mkWire 260%Z None
    (8, [
      ("type", 0, U 2); ("fd", 2, I 2); ("nbytes", 4, U 2); ("zero", 6, U 2)])
    (6, [
      ("status", 0, U 2); ("nbytes", 2, U 2); ("zero", 4, U 2)]));
  ("lseek", mkWire 261%Z None
    (12, [
      ("type", 0, U 2); ("fd", 2, I 2); ("offset", 4, I 4); ("whence", 8, U 2); ("zero", 10, U 2)])
    (8, [
      ("status", 0, U 2); ("zero", 2, U 2); ("offset", 4, U 4)]));
  ("stat", mkWire 277%Z None
    (280, [
      ("type", 0, U 2); ("args.fd", 2, I 2); ("args.unit", 4, U 2); ("args.version_cycle", 6, U 1);
      ("args.eflag", 7, U 1); ("args.nid", 8, I 4); ("args.pid", 12, I 2); ("args.sflag", 14, U 2);
      ("args.oflag", 16, U 2); ("args.mode", 18, U 2); ("args.zero", 20, U 4); ("path", 24, B 256)])
    (60, [
      ("status", 0, U 2); ("padd_1", 2, U 2); ("stat.ino", 4, U 4); ("stat.dev", 8, U 4);
      ("stat.size", 12, I 4); ("stat.rdev", 16, U 4); ("stat.userland_uid", 20, U 4);
      ("stat.userland_gid", 24, U 4); ("stat.ftime", 28, I 4); ("stat.mtime", 32, I 4);
      ("stat.atime", 36, I 4); ("stat.ctime", 40, I 4); ("stat.padd_1", 44, U 2);
      ("stat.mode", 46, U 2); ("stat.uid", 48, U 2); ("stat.gid", 50, U 2);
      ("stat.nlink", 52, U 2); ("stat.padd_2", 54, U 4); ("stat.padd_3", 58, U 1);
      ("stat.status", 59, U 1)]));
  ("fstat", mkWire 266%Z None
    (8, [
      ("type", 0, U 2); ("fd", 2, U 2); ("zero", 4, U 4)])
    (60, [
      ("status", 0, U 2); ("padd_1", 2, U 2); ("stat.ino", 4, U 4); ("stat.dev", 8, U 4);
      ("stat.size", 12, I 4); ("stat.rdev", 16, U 4); ("stat.userland_uid", 20, U 4);
      ("stat.userland_gid", 24, U 4); ("stat.ftime", 28, I 4); ("stat.mtime", 32, I 4);
      ("stat.atime", 36, I 4); ("stat.ctime", 40, I 4); ("stat.padd_1", 44, U 2);
      ("stat.mode", 46, U 2); ("stat.uid", 48, U 2); ("stat.gid", 50, U 2);
      ("stat.nlink", 52, U 2); ("stat.padd_2", 54, U 4); ("stat.padd_3", 58, U 1);
      ("stat.status", 59, U 1)]));
  ("readdir", mkWire 274%Z None
    (8, [
      ("type", 0, U 2); ("fd", 2, U 2); ("ndirs", 4, U 1); ("padd_1", 5, U 1); ("padd_2", 6, U 1);
      ("padd_3", 7, U 1)])
    (8, [
      ("status", 0, U 2); ("ndirs", 2, U 1); ("padd_1", 3, U 1); ("padd_2", 4, U 4)]));
  ("rewinddir", mkWire 275%Z None
    (4, [
      ("type", 0, U 2); ("fd", 2, U 2)])
    (2, [
      ("status", 0, U 2)]));
  ("fcntl_flags", mkWire 270%Z None
    (8, [
      ("type", 0, U 2); ("fd", 2, U 2); ("mask", 4, U 2); ("bits", 6, U 2)])
    (4, [
      ("status", 0, U 2); ("flags", 2, U 2)]));
  ("dup", mkWire 264%Z None
    (12, [
      ("type", 0, U 2); ("src_fd", 2, U 2); ("src_pid", 4, I 2); ("padd_1", 6, U 2);
      ("dst_fd", 8, U 2); ("padd_2", 10, U 2)])
    (2, [
      ("status", 0, U 2)]));
  ("fpathconf", mkWire 263%Z None
    (6, [
      ("type", 0, U 2); ("fd", 2, U 2); ("idx", 4, U 2)])
    (6, [
      ("status", 0, U 2); ("padd_1", 2, U 2); ("value", 4, I 2)]));
  ("chmod", mkWire 267%Z None
    (6, [
      ("type", 0, U 2); ("fd", 2, U 2); ("mode", 4, U 2)])
    (2, [
      ("status", 0, U 2)]));
  ("chown", mkWire 268%Z None
    (8, [
      ("type", 0, U 2); ("fd", 2, U 2); ("gid", 4, U 2); ("uid", 6, U 2)])
    (2, [
      ("status", 0, U 2)]));
  ("utime", mkWire 269%Z None
    (16, [
      ("type", 0, U 2); ("fd", 2, U 2); ("actime", 4, I 4); ("mod", 8, I 4); ("cur_flag", 12, U 2);
      ("zero", 14, U 2)])
    (2, [
      ("status", 0, U 2)]));
  ("ioctl", mkWire 276%Z None
    (12, [
      ("type", 0, U 2); ("fd", 2, I 2); ("request", 4, U 2); ("nbytes", 6, U 2);
      ("padd_1", 8, U 4)])
    (8, [
      ("status", 0, U 2); ("ret_val", 2, U 2); ("padd_1", 4, U 4)]));
  ("qioctl", mkWire 279%Z None
    (12, [
      ("type", 0, U 2); ("fd", 2, I 2); ("request", 4, U 2); ("nbytes", 6, U 2);
      ("padd_1", 8, U 4)])
    (12, [
      ("status", 0, U 2); ("ret_val", 2, U 2); ("padd_1", 4, U 4); ("padd_2", 8, U 4)]));
  ("lock", mkWire 271%Z None
    (22, [
      ("type", 0, U 2); ("lock.fd", 2, I 2); ("lock.cmd", 4, U 2); ("lock.type", 6, U 2);
      ("lock.whence", 8, U 2); ("lock.start", 10, I 4); ("lock.len", 14, U 4);
      ("lock.pid", 18, I 2); ("lock.padd_1", 20, U 2)])
    (22, [
      ("status", 0, U 2); ("lock.fd", 2, I 2); ("lock.cmd", 4, U 2); ("lock.type", 6, U 2);
      ("lock.whence", 8, U 2); ("lock.start", 10, I 4); ("lock.len", 14, U 4);
      ("lock.pid", 18, I 2); ("lock.padd_1", 20, U 2)]))]%nat.

(** [fsys.qmsg]. *)
Definition wire_fsys : list (string * Wire) := [
  ("unlink", mkWire 515%Z None
    (280, [
      ("type", 0, U 2); ("args.fd", 2, I 2); ("args.unit", 4, U 2); ("args.version_cycle", 6, U 1);
      ("args.eflag", 7, U 1); ("args.nid", 8, I 4); ("args.pid", 12, I 2); ("args.sflag", 14, U 2);
      ("args.oflag", 16, U 2); ("args.mode", 18, U 2); ("args.zero", 20, U 4); ("path", 24, B 256)])
    (2, [
      ("status", 0, U 2)]));
  ("mkspecial", mkWire 514%Z None
    (536, [
      ("type", 0, U 2); ("open.fd", 2, I 2); ("open.unit", 4, U 2); ("open.version_cycle", 6, U 1);
      ("open.eflag", 7, U 1); ("open.nid", 8, I 4); ("open.pid", 12, I 2); ("open.sflag", 14, U 2);
      ("open.oflag", 16, U 2); ("open.mode", 18, U 2); ("open.zero", 20, U 4); ("path", 24, B 256);
      ("target", 280, B 256)])
    (2, [
      ("status", 0, U 2)]));
  ("link", mkWire 516%Z None
    (280, [
      ("type", 0, U 2); ("arg.fd", 2, I 2); ("arg.unit", 4, U 2); ("arg.version_cycle", 6, U 1);
      ("arg.eflag", 7, U 1); ("arg.nid", 8, I 4); ("arg.pid", 12, I 2); ("arg.sflag", 14, U 2);
      ("arg.oflag", 16, U 2); ("arg.mode", 18, U 2); ("arg.zero", 20, U 4);
      ("new_path", 24, B 256)])
    (2, [
      ("status", 0, U 2)]));
  ("disk_entry", mkWire 521%Z None
    (4, [
      ("type", 0, U 2); ("fd", 2, I 2)])
    (48, [
      ("status", 0, U 2); ("padd_1", 2, U 2); ("blk_offset", 4, U 4); ("num_sectors", 8, U 4);
      ("disk_sectors", 12, U 4); ("cylinders", 16, U 2); ("heads", 18, U 2);
      ("track_sectors", 20, U 2); ("disk_type", 22, U 1); ("disk_drv", 23, U 1);
      ("padd_2", 24, U 4); ("padd_3", 28, U 4); ("padd_4", 32, U 4); ("drive_name", 36, B 12)]));
  ("sync", mkWire 522%Z None
    (2, [
      ("type", 0, U 2)])
    (2, [
      ("status", 0, U 2)]));
  ("trunc", mkWire 528%Z None
    (12, [
      ("type", 0, U 2); ("fd", 2, I 2); ("offset", 4, I 4); ("whence", 8, U 2);
      ("padd_1", 10, U 2)])
    (8, [
      ("status", 0, U 2); ("padd_1", 2, U 2); ("offset", 4, U 4)]));
  ("readlink", mkWire 534%Z None
    (280, [
      ("type", 0, U 2); ("arg.fd", 2, I 2); ("arg.unit", 4, U 2); ("arg.version_cycle", 6, U 1);
      ("arg.eflag", 7, U 1); ("arg.nid", 8, I 4); ("arg.pid", 12, I 2); ("arg.sflag", 14, U 2);
      ("arg.oflag", 16, U 2); ("arg.mode", 18, U 2); ("arg.zero", 20, U 4); ("path", 24, B 256)])
    (260, [
      ("status", 0, U 2); ("padd_1", 2, U 2); ("path", 4, B 256)]));
  ("fsync", mkWire 536%Z None
    (8, [
      ("type", 0, U 2); ("fd", 2, I 2); ("flags", 4, U 4)])
    (2, [
      ("status", 0, U 2)]));
  ("fdinfo", mkWire 538%Z None
    (12, [
      ("type", 0, U 2); ("pid", 2, I 2); ("padd_1", 4, U 2); ("fd", 6, U 2); ("padd_2", 8, U 4)])
    (280, [
      ("status", 0, U 2); ("pid", 2, I 2); ("padd_1", 4, U 2); ("fd", 6, U 2); ("padd_2", 8, U 4);
      ("offset", 12, U 4); ("fsize", 16, U 4); ("fflags", 20, U 2); ("share", 22, U 2);
      ("path", 24, B 256)]));
  ("get_mount", mkWire 525%Z None
    (280, [
      ("type", 0, U 2); ("open.fd", 2, I 2); ("open.unit", 4, U 2); ("open.version_cycle", 6, U 1);
      ("open.eflag", 7, U 1); ("open.nid", 8, I 4); ("open.pid", 12, I 2); ("open.sflag", 14, U 2);
      ("open.oflag", 16, U 2); ("open.mode", 18, U 2); ("open.zero", 20, U 4); ("path", 24, B 256)])
    (260, [
      ("status", 0, U 2); ("padd_1", 2, U 2); ("path", 4, B 256)]));
  ("disk_space", mkWire 526%Z None
    (8, [
      ("type", 0, U 2); ("fd", 2, I 2); ("padd_1", 4, U 4)])
    (12, [
      ("status", 0, U 2); ("padd_1", 2, U 2); ("free_blocks", 4, U 4); ("total_blocks", 8, U 4)]));
  ("pipe", mkWire 527%Z None
    (8, [
      ("type", 0, U 2); ("unit", 2, U 2); ("fd_in", 4, I 2); ("fd_out", 6, I 2)])
    (2, [
      ("status", 0, U 2)]))]%nat.

(** [dev.qmsg]. *)
Definition wire_dev : list (string * Wire) := [
  ("tcgetattr", mkWire 784%Z None
    (4, [
      ("type", 0, U 2); ("fd", 2, I 2)])
    (118, [
      ("status", 0, I 2); ("state.c_iflag", 2, U 4); ("state.c_oflag", 6, U 4);
      ("state.c_cflag", 10, U 4); ("state.c_lflag", 14, U 4); ("state.c_cc", 18, B 80);
      ("state.zero", 98, B 6); ("state.c_status", 104, U 2); ("state.c_qflag", 106, U 2);
      ("state.handle", 108, U 2); ("state.c_ispeed", 110, I 4); ("state.c_ospeed", 114, I 4)]));
  ("tcsetattr", mkWire 785%Z None
    (122, [
      ("type", 0, U 2); ("fd", 2, I 2); ("state.c_iflag", 4, U 4); ("state.c_oflag", 8, U 4);
      ("state.c_cflag", 12, U 4); ("state.c_lflag", 16, U 4); ("state.c_cc", 20, B 80);
      ("state.zero", 100, B 6); ("state.c_status", 106, U 2); ("state.c_qflag", 108, U 2);
      ("state.handle", 110, U 2); ("state.c_ispeed", 112, I 4); ("state.c_ospeed", 116, I 4);
      ("optional_actions", 120, U 2)])
    (2, [
      ("status", 0, I 2)]));
  ("tcgetpgrp", mkWire 790%Z None
    (4, [
      ("type", 0, U 2); ("fd", 2, I 2)])
    (6, [
      ("status", 0, U 2); ("pgrp", 2, I 2); ("padd_1", 4, U 2)]));
  ("tcsetpgrp", mkWire 791%Z None
    (8, [
      ("type", 0, U 2); ("fd", 2, I 2); ("pgrp", 4, I 2); ("padd_1", 6, U 2)])
    (2, [
      ("status", 0, U 2)]));
  ("dev_info", mkWire 795%Z None
    (4, [
      ("type", 0, U 2); ("fd", 2, I 2)])
    (82, [
      ("status", 0, U 2); ("info.tty", 2, I 2); ("info.nid", 4, I 4); ("info.driver_pid", 8, I 2);
      ("info.padd_1", 10, U 2); ("info.nature", 12, U 2); ("info.attributes", 14, U 2);
      ("info.capabilities", 16, U 2); ("info.driver_type", 18, B 16); ("info.tty_name", 34, B 32);
      ("info.unit", 66, U 2); ("info.open_count", 68, U 2); ("info.pgrp", 70, I 2);
      ("info.padd_2", 72, U 2); ("info.session", 74, I 2); ("info.padd_3", 76, U 2);
      ("info.flags", 78, U 2); ("info.major", 80, U 2)]));
  ("dev_fdinfo", mkWire 800%Z None
    (8, [
      ("type", 0, U 2); ("fd", 2, I 2); ("pid", 4, I 2); ("padd_1", 6, U 2)])
    (82, [
      ("status", 0, U 2); ("info.tty", 2, I 2); ("info.nid", 4, I 4); ("info.driver_pid", 8, I 2);
      ("info.padd_1", 10, U 2); ("info.nature", 12, U 2); ("info.attributes", 14, U 2);
      ("info.capabilities", 16, U 2); ("info.driver_type", 18, B 16); ("info.tty_name", 34, B 32);
      ("info.unit", 66, U 2); ("info.open_count", 68, U 2); ("info.pgrp", 70, I 2);
      ("info.padd_2", 72, U 2); ("info.session", 74, I 2); ("info.padd_3", 76, U 2);
      ("info.flags", 78, U 2); ("info.major", 80, U 2)]));
  ("term_size", mkWire 803%Z None
    (8, [
      ("type", 0, U 2); ("fd", 2, I 2); ("rows", 4, U 2); ("cols", 6, U 2)])
    (22, [
      ("status", 0, U 2); ("oldrows", 2, U 2); ("oldcols", 4, U 2); ("padd_1", 6, U 4);
      ("padd_2", 10, U 4); ("padd_3", 14, U 4); ("padd_4", 18, U 4)]));
  ("tcdrain", mkWire 787%Z None
    (4, [
      ("type", 0, U 2); ("fd", 2, I 2)])
    (2, [
      ("status", 0, U 2)]));
  ("tcflush", mkWire 788%Z None
    (6, [
      ("type", 0, U 2); ("fd", 2, I 2); ("queue", 4, U 2)])
    (2, [
      ("status", 0, U 2)]));
  ("read", mkWire 798%Z None
    (18, [
      ("type", 0, U 2); ("fd", 2, I 2); ("nbytes", 4, I 2); ("minimum", 6, U 2); ("time", 8, U 2);
      ("timeout", 10, U 2); ("proxy", 12, I 2); ("proxy_spare", 14, U 2); ("zero", 16, U 2)])
    (8, [
      ("status", 0, U 2); ("nbytes", 2, I 2); ("timeout", 4, U 2); ("empty", 6, U 2)]));
  ("insert_chars", mkWire 792%Z None
    (6, [
      ("type", 0, U 2); ("fd", 2, I 2); ("nbytes", 4, I 2)])
    (2, [
      ("status", 0, U 2)]));
  ("mode", mkWire 793%Z None
    (12, [
      ("type", 0, U 2); ("fd", 2, I 2); ("mode", 4, U 2); ("mask", 6, U 2); ("zero1", 8, U 2);
      ("zero2", 10, U 2)])
    (8, [
      ("status", 0, U 2); ("oldmode", 2, U 2); ("zero1", 4, U 2); ("zero2", 6, U 2)]))]%nat.

(** [proc.qmsg]. *)
Definition wire_proc : list (string * Wire) := [
  ("slib_register", mkWire 1%Z (Some 0%Z)
    (64, [
      ("type", 0, U 2); ("subtype", 2, U 2); ("offset", 4, U 4); ("segment", 8, U 2);
      ("data.name", 10, B 12); ("data.date", 22, B 12); ("data.version", 34, U 2);
      ("data.letter", 36, U 1); ("data.more", 37, U 1); ("offset_1", 38, U 4);
      ("segment_1", 42, U 2); ("offset_2", 44, U 4); ("segment_2", 48, U 2); ("offset_3", 50, U 4);
      ("segment_3", 54, U 2); ("padd_1", 56, U 4); ("padd_2", 60, U 4)])
    (2, [
      ("status", 0, U 2)]));
  ("spawn", mkWire 3%Z None
    (24, [
      ("type", 0, U 2); ("priority", 2, U 1); ("algorithm", 3, U 1); ("padd_1", 4, U 2);
      ("flags", 6, U 2); ("padd_2", 8, U 1); ("ctfd", 9, U 1); ("stdfds", 10, B 10);
      ("argc", 20, U 2); ("envc", 22, U 2)])
    (6, [
      ("status", 0, U 2); ("son_pid", 2, I 2); ("padd_1", 4, U 2)]));
  ("exec", mkWire 4%Z None
    (24, [
      ("type", 0, U 2); ("priority", 2, U 1); ("algorithm", 3, U 1); ("padd_1", 4, U 2);
      ("flags", 6, U 2); ("padd_2", 8, U 1); ("ctfd", 9, U 1); ("stdfds", 10, B 10);
      ("argc", 20, U 2); ("envc", 22, U 2)])
    (6, [
      ("status", 0, U 2); ("son_pid", 2, I 2); ("padd_1", 4, U 2)]));
  ("fork", mkWire 5%Z None
    (4, [
      ("type", 0, U 2); ("flags", 2, U 2)])
    (6, [
      ("status", 0, U 2); ("son_pid", 2, I 2); ("padd_1", 4, U 2)]));
  ("setpgid", mkWire 7%Z None
    (6, [
      ("type", 0, U 2); ("pid", 2, I 2); ("pgid", 4, I 2)])
    (2, [
      ("status", 0, U 2)]));
  ("name_attach", mkWire 10%Z (Some 0%Z)
    (45, [
      ("type", 0, U 2); ("subtype", 2, U 2); ("cookie", 4, U 2); ("flags", 6, U 2);
      ("padd_1", 8, U 4); ("name", 12, B 33)])
    (45, [
      ("status", 0, U 2); ("padd_1", 2, U 2); ("cookie", 4, U 2); ("pid", 6, I 2); ("nid", 8, I 4);
      ("name", 12, B 33)]));
  ("timer_create", mkWire 11%Z (Some 0%Z)
    (34, [
      ("type", 0, U 2); ("subtype", 2, U 2); ("arg.flags", 4, U 2); ("arg.cookie", 6, U 2);
      ("arg.timer_type", 8, U 1); ("arg.notify_type", 9, U 1); ("arg.sec1", 10, U 4);
      ("arg.nsec1", 14, U 4); ("arg.sec2", 18, U 4); ("arg.nsec2", 22, U 4); ("arg.data", 26, U 4);
      ("arg.padd_1", 30, U 4)])
    (34, [
      ("status", 0, U 2); ("pid", 2, I 2); ("arg.flags", 4, U 2); ("arg.cookie", 6, U 2);
      ("arg.timer_type", 8, U 1); ("arg.notify_type", 9, U 1); ("arg.sec1", 10, U 4);
      ("arg.nsec1", 14, U 4); ("arg.sec2", 18, U 4); ("arg.nsec2", 22, U 4); ("arg.data", 26, U 4);
      ("arg.padd_1", 30, U 4)]));
  ("timer_settime", mkWire 11%Z (Some 9%Z)
    (34, [
      ("type", 0, U 2); ("subtype", 2, U 2); ("arg.flags", 4, U 2); ("arg.cookie", 6, U 2);
      ("arg.timer_type", 8, U 1); ("arg.notify_type", 9, U 1); ("arg.sec1", 10, U 4);
      ("arg.nsec1", 14, U 4); ("arg.sec2", 18, U 4); ("arg.nsec2", 22, U 4); ("arg.data", 26, U 4);
      ("arg.padd_1", 30, U 4)])
    (34, [
      ("status", 0, U 2); ("pid", 2, I 2); ("arg.flags", 4, U 2); ("arg.cookie", 6, U 2);
      ("arg.timer_type", 8, U 1); ("arg.notify_type", 9, U 1); ("arg.sec1", 10, U 4);
      ("arg.nsec1", 14, U 4); ("arg.sec2", 18, U 4); ("arg.nsec2", 22, U 4); ("arg.data", 26, U 4);
      ("arg.padd_1", 30, U 4)]));
  ("timer_alarm", mkWire 11%Z (Some 10%Z)
    (34, [
      ("type", 0, U 2); ("subtype", 2, U 2); ("arg.flags", 4, U 2); ("arg.cookie", 6, U 2);
      ("arg.timer_type", 8, U 1); ("arg.notify_type", 9, U 1); ("arg.sec1", 10, U 4);
      ("arg.nsec1", 14, U 4); ("arg.sec2", 18, U 4); ("arg.nsec2", 22, U 4); ("arg.data", 26, U 4);
      ("arg.padd_1", 30, U 4)])
    (34, [
      ("status", 0, U 2); ("pid", 2, I 2); ("arg.flags", 4, U 2); ("arg.cookie", 6, U 2);
      ("arg.timer_type", 8, U 1); ("arg.notify_type", 9, U 1); ("arg.sec1", 10, U 4);
      ("arg.nsec1", 14, U 4); ("arg.sec2", 18, U 4); ("arg.nsec2", 22, U 4); ("arg.data", 26, U 4);
      ("arg.padd_1", 30, U 4)]));
  ("wait", mkWire 27%Z None
    (12, [
      ("type", 0, U 2); ("options", 2, U 2); ("pid", 4, I 2); ("padd_1", 6, U 2);
      ("xstatus", 8, U 4)])
    (12, [
      ("status", 0, U 2); ("padd_1", 2, U 2); ("pid", 4, I 2); ("padd_2", 6, U 2);
      ("xstatus", 8, U 4)]));
  ("segment_alloc", mkWire 9%Z (Some 1%Z)
    (26, [
      ("type", 0, U 2); ("subtype", 2, U 2); ("sel", 4, U 2); ("srcpid", 6, I 2);
      ("padd_1", 8, U 2); ("dstpid", 10, I 2); ("padd_2", 12, U 2); ("flags", 14, U 2);
      ("padd_3", 16, U 2); ("addr", 18, U 4); ("nbytes", 22, U 4)])
    (14, [
      ("status", 0, U 2); ("sel", 2, U 2); ("flags", 4, U 2); ("addr", 6, U 4);
      ("nbytes", 10, U 4)]));
  ("segment_realloc", mkWire 9%Z (Some 3%Z)
    (26, [
      ("type", 0, U 2); ("subtype", 2, U 2); ("sel", 4, U 2); ("srcpid", 6, I 2);
      ("padd_1", 8, U 2); ("dstpid", 10, I 2); ("padd_2", 12, U 2); ("flags", 14, U 2);
      ("padd_3", 16, U 2); ("addr", 18, U 4); ("nbytes", 22, U 4)])
    (14, [
      ("status", 0, U 2); ("sel", 2, U 2); ("flags", 4, U 2); ("addr", 6, U 4);
      ("nbytes", 10, U 4)]));
  ("segment_free", mkWire 9%Z (Some 4%Z)
    (26, [
      ("type", 0, U 2); ("subtype", 2, U 2); ("sel", 4, U 2); ("srcpid", 6, I 2);
      ("padd_1", 8, U 2); ("dstpid", 10, I 2); ("padd_2", 12, U 2); ("flags", 14, U 2);
      ("padd_3", 16, U 2); ("addr", 18, U 4); ("nbytes", 22, U 4)])
    (14, [
      ("status", 0, U 2); ("sel", 2, U 2); ("flags", 4, U 2); ("addr", 6, U 4);
      ("nbytes", 10, U 4)]));
  ("segment_flags", mkWire 9%Z (Some 7%Z)
    (26, [
      ("type", 0, U 2); ("subtype", 2, U 2); ("sel", 4, U 2); ("srcpid", 6, I 2);
      ("padd_1", 8, U 2); ("dstpid", 10, I 2); ("padd_2", 12, U 2); ("flags", 14, U 2);
      ("padd_3", 16, U 2); ("addr", 18, U 4); ("nbytes", 22, U 4)])
    (14, [
      ("status", 0, U 2); ("sel", 2, U 2); ("flags", 4, U 2); ("addr", 6, U 4);
      ("nbytes", 10, U 4)]));
  ("segment_global", mkWire 9%Z (Some 9%Z)
    (26, [
      ("type", 0, U 2); ("subtype", 2, U 2); ("sel", 4, U 2); ("srcpid", 6, I 2);
      ("padd_1", 8, U 2); ("dstpid", 10, I 2); ("padd_2", 12, U 2); ("flags", 14, U 2);
      ("padd_3", 16, U 2); ("addr", 18, U 4); ("nbytes", 22, U 4)])
    (14, [
      ("status", 0, U 2); ("sel", 2, U 2); ("flags", 4, U 2); ("addr", 6, U 4);
      ("nbytes", 10, U 4)]));
  ("segment_arm", mkWire 9%Z (Some 11%Z)
    (26, [
      ("type", 0, U 2); ("subtype", 2, U 2); ("sel", 4, U 2); ("srcpid", 6, I 2);
      ("padd_1", 8, U 2); ("dstpid", 10, I 2); ("padd_2", 12, U 2); ("flags", 14, U 2);
      ("padd_3", 16, U 2); ("addr", 18, U 4); ("nbytes", 22, U 4)])
    (14, [
      ("status", 0, U 2); ("sel", 2, U 2); ("flags", 4, U 2); ("addr", 6, U 4);
      ("nbytes", 10, U 4)]));
  ("segment_put", mkWire 9%Z (Some 13%Z)
    (26, [
      ("type", 0, U 2); ("subtype", 2, U 2); ("sel", 4, U 2); ("srcpid", 6, I 2);
      ("padd_1", 8, U 2); ("dstpid", 10, I 2); ("padd_2", 12, U 2); ("flags", 14, U 2);
      ("padd_3", 16, U 2); ("addr", 18, U 4); ("nbytes", 22, U 4)])
    (14, [
      ("status", 0, U 2); ("sel", 2, U 2); ("flags", 4, U 2); ("addr", 6, U 4);
      ("nbytes", 10, U 4)]));
  ("segment_priv", mkWire 9%Z (Some 17%Z)
    (26, [
      ("type", 0, U 2); ("subtype", 2, U 2); ("sel", 4, U 2); ("srcpid", 6, I 2);
      ("padd_1", 8, U 2); ("dstpid", 10, I 2); ("padd_2", 12, U 2); ("flags", 14, U 2);
      ("padd_3", 16, U 2); ("addr", 18, U 4); ("nbytes", 22, U 4)])
    (14, [
      ("status", 0, U 2); ("sel", 2, U 2); ("flags", 4, U 2); ("addr", 6, U 4);
      ("nbytes", 10, U 4)]));
  ("time", mkWire 14%Z None
    (12, [
      ("type", 0, U 2); ("padd_1", 2, U 2); ("seconds", 4, U 4); ("nsec", 8, U 4)])
    (12, [
      ("status", 0, U 2); ("padd_1", 2, U 2); ("seconds", 4, U 4); ("nsec", 8, U 4)]));
  ("proc_flags", mkWire 15%Z None
    (12, [
      ("type", 0, U 2); ("padd_1", 2, U 2); ("mask", 4, U 4); ("bits", 8, U 4)])
    (8, [
      ("status", 0, U 2); ("padd_1", 2, U 2); ("old_bits", 4, U 2); ("new_bits", 6, U 2)]));
  ("terminate", mkWire 24%Z None
    (8, [
      ("type", 0, U 2); ("signum", 2, U 2); ("status", 4, U 4)])
    (0, []));
  ("open", mkWire 25%Z None
    (280, [
      ("type", 0, U 2); ("open.fd", 2, I 2); ("open.unit", 4, U 2); ("open.version_cycle", 6, U 1);
      ("open.eflag", 7, U 1); ("open.nid", 8, I 4); ("open.pid", 12, I 2); ("open.sflag", 14, U 2);
      ("open.oflag", 16, U 2); ("open.mode", 18, U 2); ("open.zero", 20, U 4); ("file", 24, B 256)])
    (280, [
      ("status", 0, U 2); ("open.fd", 2, I 2); ("open.unit", 4, U 2);
      ("open.version_cycle", 6, U 1); ("open.eflag", 7, U 1); ("open.nid", 8, I 4);
      ("open.pid", 12, I 2); ("open.sflag", 14, U 2); ("open.oflag", 16, U 2);
      ("open.mode", 18, U 2); ("open.zero", 20, U 4); ("file", 24, B 256)]));
  ("fd_attach", mkWire 22%Z (Some 0%Z)
    (28, [
      ("type", 0, U 2); ("subtype", 2, U 2); ("fd", 4, I 2); ("owner_pid", 6, I 2);
      ("zero1", 8, U 2); ("nid", 10, I 4); ("pid", 14, I 2); ("zero2", 16, U 2); ("vid", 18, I 2);
      ("zero3", 20, U 2); ("flags", 22, U 2); ("handle", 24, U 2); ("zero4", 26, U 2)])
    (8, [
      ("status", 0, U 2); ("fd", 2, I 2); ("padd_1", 4, U 2); ("padd_2", 6, U 2)]));
  ("fd_detach", mkWire 22%Z (Some 1%Z)
    (28, [
      ("type", 0, U 2); ("subtype", 2, U 2); ("fd", 4, I 2); ("owner_pid", 6, I 2);
      ("zero1", 8, U 2); ("nid", 10, I 4); ("pid", 14, I 2); ("zero2", 16, U 2); ("vid", 18, I 2);
      ("zero3", 20, U 2); ("flags", 22, U 2); ("handle", 24, U 2); ("zero4", 26, U 2)])
    (8, [
      ("status", 0, U 2); ("fd", 2, I 2); ("padd_1", 4, U 2); ("padd_2", 6, U 2)]));
  ("fd_query", mkWire 22%Z (Some 2%Z)
    (28, [
      ("type", 0, U 2); ("subtype", 2, U 2); ("fd", 4, I 2); ("owner_pid", 6, I 2);
      ("zero1", 8, U 2); ("nid", 10, I 4); ("pid", 14, I 2); ("zero2", 16, U 2); ("vid", 18, I 2);
      ("zero3", 20, U 2); ("flags", 22, U 2); ("handle", 24, U 2); ("zero4", 26, U 2)])
    (20, [
      ("status", 0, U 2); ("info.nid", 2, I 4); ("info.pid", 6, I 2); ("info.padd_1", 8, U 2);
      ("info.vid", 10, I 2); ("info.padd_2", 12, U 2); ("info.handle", 14, U 2);
      ("info.flags", 16, U 2); ("fd", 18, U 2)]));
  ("fd_action1", mkWire 22%Z (Some 4%Z)
    (28, [
      ("type", 0, U 2); ("subtype", 2, U 2); ("fd", 4, I 2); ("owner_pid", 6, I 2);
      ("zero1", 8, U 2); ("nid", 10, I 4); ("pid", 14, I 2); ("zero2", 16, U 2); ("vid", 18, I 2);
      ("zero3", 20, U 2); ("flags", 22, U 2); ("handle", 24, U 2); ("zero4", 26, U 2)])
    (6, [
      ("status", 0, U 2); ("padd_1", 2, U 2); ("padd_2", 4, U 2)]));
  ("vc_attach", mkWire 31%Z None
    (14, [
      ("type", 0, U 2); ("flags", 2, U 2); ("nid", 4, I 4); ("pid", 8, I 2); ("padd_1", 10, U 2);
      ("length", 12, U 2)])
    (4, [
      ("status", 0, U 2); ("pid", 2, U 2)]));
  ("vc_detach", mkWire 32%Z None
    (14, [
      ("type", 0, U 2); ("flags", 2, U 2); ("nid", 4, I 4); ("pid", 8, I 2); ("padd_1", 10, U 2);
      ("length", 12, U 2)])
    (14, [
      ("type", 0, U 2); ("flags", 2, U 2); ("nid", 4, I 4); ("pid", 8, I 2); ("padd_1", 10, U 2);
      ("length", 12, U 2)]));
  ("psinfo", mkWire 34%Z None
    (8, [
      ("type", 0, U 2); ("pid", 2, I 2); ("padd_1", 4, U 2); ("memindex", 6, U 2)])
    (2, [
      ("status", 0, U 2)]));
  ("sigtab", mkWire 8%Z (Some 0%Z)
    (24, [
      ("type", 0, U 2); ("subtype", 2, U 2); ("signum", 4, U 2); ("pid", 6, I 2);
      ("padd_1", 8, U 2); ("mask", 10, U 4); ("bits", 14, U 4); ("offset", 18, U 4);
      ("segment", 22, U 2)])
    (12, [
      ("status", 0, U 2); ("padd_1", 2, U 2); ("old_bits", 4, U 4); ("new_bits", 8, U 4)]));
  ("sigmask", mkWire 8%Z (Some 2%Z)
    (24, [
      ("type", 0, U 2); ("subtype", 2, U 2); ("signum", 4, U 2); ("pid", 6, I 2);
      ("padd_1", 8, U 2); ("mask", 10, U 4); ("bits", 14, U 4); ("offset", 18, U 4);
      ("segment", 22, U 2)])
    (12, [
      ("status", 0, U 2); ("padd_1", 2, U 2); ("old_bits", 4, U 4); ("new_bits", 8, U 4)]));
  ("sigraise", mkWire 8%Z (Some 3%Z)
    (24, [
      ("type", 0, U 2); ("subtype", 2, U 2); ("signum", 4, U 2); ("pid", 6, I 2);
      ("padd_1", 8, U 2); ("mask", 10, U 4); ("bits", 14, U 4); ("offset", 18, U 4);
      ("segment", 22, U 2)])
    (12, [
      ("status", 0, U 2); ("padd_1", 2, U 2); ("old_bits", 4, U 4); ("new_bits", 8, U 4)]));
  ("sigpending", mkWire 8%Z (Some 4%Z)
    (24, [
      ("type", 0, U 2); ("subtype", 2, U 2); ("signum", 4, U 2); ("pid", 6, I 2);
      ("padd_1", 8, U 2); ("mask", 10, U 4); ("bits", 14, U 4); ("offset", 18, U 4);
      ("segment", 22, U 2)])
    (12, [
      ("status", 0, U 2); ("padd_1", 2, U 2); ("old_bits", 4, U 4); ("new_bits", 8, U 4)]));
  ("sigact", mkWire 8%Z (Some 5%Z)
    (24, [
      ("type", 0, U 2); ("subtype", 2, U 2); ("signum", 4, U 2); ("pid", 6, I 2);
      ("padd_1", 8, U 2); ("mask", 10, U 4); ("bits", 14, U 4); ("offset", 18, U 4);
      ("segment", 22, U 2)])
    (12, [
      ("status", 0, U 2); ("padd_1", 2, U 2); ("old_bits", 4, U 4); ("new_bits", 8, U 4)]));
  ("sigsuspend", mkWire 8%Z (Some 6%Z)
    (24, [
      ("type", 0, U 2); ("subtype", 2, U 2); ("signum", 4, U 2); ("pid", 6, I 2);
      ("padd_1", 8, U 2); ("mask", 10, U 4); ("bits", 14, U 4); ("offset", 18, U 4);
      ("segment", 22, U 2)])
    (12, [
      ("status", 0, U 2); ("padd_1", 2, U 2); ("old_bits", 4, U 4); ("new_bits", 8, U 4)]));
  ("getid", mkWire 12%Z (Some 0%Z)
    (4, [
      ("type", 0, U 2); ("subtype", 2, U 2)])
    (28, [
      ("status", 0, U 2); ("padd_1", 2, U 2); ("padd_2", 4, U 2); ("pid", 6, U 2);
      ("padd_3", 8, U 2); ("ppid", 10, U 2); ("pid_group", 12, U 2); ("padd_4", 14, U 2);
      ("flags", 16, U 4); ("rgid", 20, U 2); ("ruid", 22, U 2); ("egid", 24, U 2);
      ("euid", 26, U 2)]));
  ("osinfo", mkWire 23%Z None
    (2, [
      ("type", 0, U 2)])
    (2, [
      ("status", 0, U 2)]));
  ("prefix", mkWire 26%Z (Some 2%Z)
    (268, [
      ("type", 0, U 2); ("subtype", 2, U 2); ("unit", 4, U 2); ("replace", 6, U 2);
      ("padd_1", 8, U 4); ("path", 12, B 256)])
    (258, [
      ("status", 0, U 2); ("prefix", 2, B 256)]));
  ("sid_query", mkWire 40%Z (Some 2%Z)
    (29, [
      ("type", 0, U 2); ("subtype", 2, U 2); ("sid", 4, U 2); ("padd_1", 6, U 2);
      ("padd_2", 8, U 2); ("padd_3", 10, U 2); ("name", 12, B 17)])
    (65, [
      ("status", 0, U 2); ("padd_1", 2, U 2); ("pid", 4, I 2); ("padd_2", 6, U 2); ("sid", 8, U 2);
      ("padd_3", 10, U 2); ("links", 12, U 2); ("padd_4", 14, U 4); ("name", 18, B 15);
      ("tty_name", 33, B 32)]));
  ("sid_set", mkWire 40%Z (Some 0%Z)
    (29, [
      ("type", 0, U 2); ("subtype", 2, U 2); ("sid", 4, U 2); ("padd_1", 6, U 2);
      ("padd_2", 8, U 2); ("padd_3", 10, U 2); ("name", 12, B 17)])
    (65, [
      ("status", 0, U 2); ("padd_1", 2, U 2); ("pid", 4, I 2); ("padd_2", 6, U 2); ("sid", 8, U 2);
      ("padd_3", 10, U 2); ("links", 12, U 2); ("padd_4", 14, U 4); ("name", 18, B 15);
      ("tty_name", 33, B 32)]));
  ("sem_init", mkWire 44%Z (Some 0%Z)
    (20, [
      ("type", 0, U 2); ("subtype", 2, U 2); ("sem.semid", 4, U 2); ("sem.seg", 6, U 2);
      ("sem.addr", 8, U 4); ("sem.padd_1", 12, U 4); ("sem.padd_2", 16, U 4)])
    (20, [
      ("status", 0, U 2); ("zero", 2, U 2); ("sem.semid", 4, U 2); ("sem.seg", 6, U 2);
      ("sem.addr", 8, U 4); ("sem.padd_1", 12, U 4); ("sem.padd_2", 16, U 4)]));
  ("sem_destroy", mkWire 44%Z (Some 1%Z)
    (20, [
      ("type", 0, U 2); ("subtype", 2, U 2); ("sem.semid", 4, U 2); ("sem.seg", 6, U 2);
      ("sem.addr", 8, U 4); ("sem.padd_1", 12, U 4); ("sem.padd_2", 16, U 4)])
    (20, [
      ("status", 0, U 2); ("zero", 2, U 2); ("sem.semid", 4, U 2); ("sem.seg", 6, U 2);
      ("sem.addr", 8, U 4); ("sem.padd_1", 12, U 4); ("sem.padd_2", 16, U 4)]))]%nat.

Definition wire_format : list (string * Wire) := wire_io ++ wire_fsys ++ wire_dev ++ wire_proc.
