(* ===== verification/QnxMsg.v ===== *)
(** * QnxMsg: the messages of [msg/*.qmsg], [msg/gen.py], [msg/meta.h]

    The structures and messages the guest and the emulator exchange, field by
    field as the message files declare them. *)

From S2P Require Import Prelude Types Layout WireFormat.

(** ** Primitive types *)

Definition u8_ : ftype := TInt false 1.
Definition u32_ : ftype := TInt false 4.
Definition i16_ : ftype := TInt true 2.
Definition i32_ : ftype := TInt true 4.
Definition fd_ : ftype := TInt true 2.
Definition pid_ : ftype := TInt true 2.
Definition nid_ : ftype := TInt true 4.
Definition path_ : ftype := TBytes 256.
Definition time_ : ftype := TInt true 4.
Definition stdfds_ : ftype := TBytes 10.

(** [struct termios] of [qnx/term.h]; the control characters are 16-bit. *)
Definition s_termios : layout :=
  [("c_iflag", u32_); ("c_oflag", u32_); ("c_cflag", u32_); ("c_lflag", u32_);
   ("c_cc", TBytes 80); ("zero", TBytes 6); ("c_status", u16_); ("c_qflag", u16_);
   ("handle", u16_); ("c_ispeed", i32_); ("c_ospeed", i32_)].

(** ** [common.qmsg] *)

Definition s_open : layout := struct (
  [("fd", fd_); ("unit", u16_); ("version_cycle", u8_); ("eflag", u8_); ("nid", nid_);
    ("pid", pid_); ("sflag", u16_); ("oflag", u16_); ("mode", u16_); ("zero", u32_)]).

Definition s_status : layout := struct (
  [("status", u16_)]).

(** ** [io.qmsg] *)

Definition msg_io_io_open : Message := mkMessage 0x101 None
  (inline false (
    sub "open" s_open ++ [("file", path_)]))
  s_status.

Definition msg_io_close : Message := mkMessage 0x102 None
  (inline false (
    [("fd", fd_); ("padd", u32_)]))
  s_status.

Definition msg_io_handle : Message := mkMessage 0x109 None
  (inline false (
    sub "open" s_open ++ [("file", path_)]))
  s_status.

Definition msg_io_rename : Message := mkMessage 0x106 None
  (inline false (
    sub "open" s_open ++ [("from", path_); ("to", path_)]))
  s_status.

Definition msg_io_chdir : Message := mkMessage 0x110 None
  s_open
  s_status.

Definition msg_io_read : Message := mkMessage 0x103 None
  (inline false (
    [("fd", fd_); ("nbytes", u16_); ("zero", u16_)]))
  (struct (
    [("status", u16_); ("nbytes", u16_); ("zero", u32_)])).

Definition msg_io_write : Message := mkMessage 0x104 None
  (inline false (
    [("fd", fd_); ("nbytes", u16_); ("zero", u16_)]))
  (struct (
    [("status", u16_); ("nbytes", u16_); ("zero", u16_)])).

Definition msg_io_lseek : Message := mkMessage 0x105 None
  (inline false (
    [("fd", fd_); ("offset", i32_); ("whence", u16_); ("zero", u16_)]))
  (struct (
    [("status", u16_); ("zero", u16_); ("offset", u32_)])).

Definition s_stat : layout := struct (
  [("ino", u32_); ("dev", u32_); ("size", i32_); ("rdev", u32_); ("userland_uid", u32_);
    ("userland_gid", u32_); ("ftime", time_); ("mtime", time_); ("atime", time_);
    ("ctime", time_); ("padd", u16_); ("mode", u16_); ("uid", u16_); ("gid", u16_);
    ("nlink", u16_); ("padd", u32_); ("padd", u8_); ("status", u8_)]).

Definition msg_io_stat : Message := mkMessage 0x115 None
  (inline false (
    sub "args" s_open ++ [("path", path_)]))
  (struct (
    [("status", u16_); ("padd", u16_)] ++ sub "stat" s_stat)).

Definition msg_io_fstat : Message := mkMessage 0x10a None
  (inline false (
    [("fd", u16_); ("zero", u32_)]))
  (struct (
    [("status", u16_); ("padd", u16_)] ++ sub "stat" s_stat)).

Definition msg_io_readdir : Message := mkMessage 0x112 None
  (inline false (
    [("fd", u16_); ("ndirs", u8_); ("padd", u8_); ("padd", u8_); ("padd", u8_)]))
  (struct (
    [("status", u16_); ("ndirs", u8_); ("padd", u8_); ("padd", u32_)])).

Definition msg_io_rewinddir : Message := mkMessage 0x113 None
  (inline false (
    [("fd", u16_)]))
  s_status.

Definition msg_io_fcntl_flags : Message := mkMessage 0x010E None
  (inline false (
    [("fd", u16_); ("mask", u16_); ("bits", u16_)]))
  (struct (
    [("status", u16_); ("flags", u16_)])).

Definition msg_io_dup : Message := mkMessage 0x108 None
  (inline false (
    [("src_fd", u16_); ("src_pid", pid_); ("padd", u16_); ("dst_fd", u16_); ("padd", u16_)]))
  s_status.

Definition msg_io_fpathconf : Message := mkMessage 0x107 None
  (inline false (
    [("fd", u16_); ("idx", u16_)]))
  (struct (
    [("status", u16_); ("padd", u16_); ("value", i16_)])).

Definition msg_io_chmod : Message := mkMessage 0x010B None
  (inline false (
    [("fd", u16_); ("mode", u16_)]))
  s_status.

Definition msg_io_chown : Message := mkMessage 0x010C None
  (inline false (
    [("fd", u16_); ("gid", u16_); ("uid", u16_)]))
  s_status.

Definition msg_io_utime : Message := mkMessage 0x010D None
  (inline false (
    [("fd", u16_); ("actime", time_); ("mod", time_); ("cur_flag", u16_); ("zero", u16_)]))
  s_status.

Definition msg_io_ioctl : Message := mkMessage 0x0114 None
  (inline false (
    [("fd", fd_); ("request", u16_); ("nbytes", u16_); ("padd", u32_)]))
  (struct (
    [("status", u16_); ("ret_val", u16_); ("padd", u32_)])).

Definition msg_io_qioctl : Message := mkMessage 0x0117 None
  (inline false (
    [("fd", fd_); ("request", u16_); ("nbytes", u16_); ("padd", u32_)]))
  (struct (
    [("status", u16_); ("ret_val", u16_); ("padd", u32_); ("padd", u32_)])).

Definition s_lock : layout := struct (
  [("fd", fd_); ("cmd", u16_); ("type", u16_); ("whence", u16_); ("start", i32_);
    ("len", u32_); ("pid", pid_); ("padd", u16_)]).

Definition msg_io_lock : Message := mkMessage 0x010F None
  (inline false (
    sub "lock" s_lock))
  (struct (
    [("status", u16_)] ++ sub "lock" s_lock)).

(** ** [fsys.qmsg] *)

Definition msg_fsys_unlink : Message := mkMessage 0x203 None
  (inline false (
    sub "args" s_open ++ [("path", path_)]))
  (struct (
    [("status", u16_)])).

Definition msg_fsys_mkspecial : Message := mkMessage 0x0202 None
  (inline false (
    sub "open" s_open ++ [("path", path_); ("target", path_)]))
  s_status.

Definition msg_fsys_link : Message := mkMessage 0x0204 None
  (inline false (
    sub "arg" s_open ++ [("new_path", path_)]))
  s_status.

Definition msg_fsys_disk_entry : Message := mkMessage 0x209 None
  (inline false (
    [("fd", fd_)]))
  (struct (
    [("status", u16_); ("padd", u16_); ("blk_offset", u32_); ("num_sectors", u32_);
      ("disk_sectors", u32_); ("cylinders", u16_); ("heads", u16_); ("track_sectors", u16_);
      ("disk_type", u8_); ("disk_drv", u8_); ("padd", u32_); ("padd", u32_); ("padd", u32_);
      ("drive_name", TBytes 12)])).

Definition msg_fsys_sync : Message := mkMessage 0x20A None
  (inline false [])
  s_status.

Definition msg_fsys_trunc : Message := mkMessage 0x210 None
  (inline false (
    [("fd", fd_); ("offset", i32_); ("whence", u16_); ("padd", u16_)]))
  (struct (
    [("status", u16_); ("padd", u16_); ("offset", u32_)])).

Definition msg_fsys_readlink : Message := mkMessage 0x0216 None
  (inline false (
    sub "arg" s_open ++ [("path", path_)]))
  (struct (
    [("status", u16_); ("padd", u16_); ("path", path_)])).

Definition msg_fsys_fsync : Message := mkMessage 0x218 None
  (inline false (
    [("fd", fd_); ("flags", u32_)]))
  s_status.

Definition msg_fsys_fdinfo : Message := mkMessage 0x021A None
  (inline false (
    [("pid", pid_); ("padd", u16_); ("fd", u16_); ("padd", u32_)]))
  (struct (
    [("status", u16_); ("pid", pid_); ("padd", u16_); ("fd", u16_); ("padd", u32_);
      ("offset", u32_); ("fsize", u32_); ("fflags", u16_); ("share", u16_); ("path", path_)])).

Definition msg_fsys_get_mount : Message := mkMessage 0x20d None
  (inline false (
    sub "open" s_open ++ [("path", path_)]))
  (struct (
    [("status", u16_); ("padd", u16_); ("path", path_)])).

Definition msg_fsys_disk_space : Message := mkMessage 0x20e None
  (inline false (
    [("fd", fd_); ("padd", u32_)]))
  (struct (
    [("status", u16_); ("padd", u16_); ("free_blocks", u32_); ("total_blocks", u32_)])).

Definition msg_fsys_pipe : Message := mkMessage 0x20f None
  (inline false (
    [("unit", u16_); ("fd_in", fd_); ("fd_out", fd_)]))
  (struct (
    [("status", u16_)])).

(** ** [dev.qmsg] *)

Definition msg_dev_tcgetattr : Message := mkMessage 0x310 None
  (inline false (
    [("fd", fd_)]))
  (struct (
    [("status", i16_)] ++ sub "state" s_termios)).

Definition msg_dev_tcsetattr : Message := mkMessage 0x311 None
  (inline false (
    [("fd", fd_)] ++ sub "state" s_termios ++ [("optional_actions", u16_)]))
  (struct (
    [("status", i16_)])).

Definition msg_dev_tcgetpgrp : Message := mkMessage 0x316 None
  (inline false (
    [("fd", fd_)]))
  (struct (
    [("status", u16_); ("pgrp", pid_); ("padd", u16_)])).

Definition msg_dev_tcsetpgrp : Message := mkMessage 0x317 None
  (inline false (
    [("fd", fd_); ("pgrp", pid_); ("padd", u16_)]))
  (struct (
    [("status", u16_)])).

Definition s_dev_info : layout := struct (
  [("tty", i16_); ("nid", nid_); ("driver_pid", pid_); ("padd", u16_); ("nature", u16_);
    ("attributes", u16_); ("capabilities", u16_); ("driver_type", TBytes 16);
    ("tty_name", TBytes 32); ("unit", u16_); ("open_count", u16_); ("pgrp", pid_);
    ("padd", u16_); ("session", pid_); ("padd", u16_); ("flags", u16_); ("major", u16_)]).

Definition msg_dev_dev_info : Message := mkMessage 0x31b None
  (inline false (
    [("fd", fd_)]))
  (struct (
    [("status", u16_)] ++ sub "info" s_dev_info)).

Definition msg_dev_dev_fdinfo : Message := mkMessage 0x320 None
  (inline false (
    [("fd", fd_); ("pid", pid_); ("padd", u16_)]))
  (struct (
    [("status", u16_)] ++ sub "info" s_dev_info)).

Definition msg_dev_term_size : Message := mkMessage 0x0323 None
  (inline false (
    [("fd", fd_); ("rows", u16_); ("cols", u16_)]))
  (struct (
    [("status", u16_); ("oldrows", u16_); ("oldcols", u16_); ("padd", u32_); ("padd", u32_);
      ("padd", u32_); ("padd", u32_)])).

Definition msg_dev_tcdrain : Message := mkMessage 0x0313 None
  (inline false (
    [("fd", fd_)]))
  (struct (
    [("status", u16_)])).

Definition msg_dev_tcflush : Message := mkMessage 0x0314 None
  (inline false (
    [("fd", fd_); ("queue", u16_)]))
  (struct (
    [("status", u16_)])).

Definition msg_dev_read : Message := mkMessage 0x031E None
  (inline false (
    [("fd", fd_); ("nbytes", i16_); ("minimum", u16_); ("time", u16_); ("timeout", u16_);
      ("proxy", pid_); ("proxy_spare", u16_); ("zero", u16_)]))
  (struct (
    [("status", u16_); ("nbytes", i16_); ("timeout", u16_); ("empty", u16_)])).

Definition msg_dev_insert_chars : Message := mkMessage 0x0318 None
  (inline false (
    [("fd", fd_); ("nbytes", i16_)]))
  (struct (
    [("status", u16_)])).

Definition msg_dev_mode : Message := mkMessage 0x0319 None
  (inline false (
    [("fd", fd_); ("mode", u16_); ("mask", u16_); ("zero1", u16_); ("zero2", u16_)]))
  (struct (
    [("status", u16_); ("oldmode", u16_); ("zero1", u16_); ("zero2", u16_)])).

(** ** [proc.qmsg] *)

Definition s_sysmsg_version : layout := struct (
  [("name", TBytes 12); ("date", TBytes 12); ("version", u16_); ("letter", u8_); ("more", u8_)]).

Definition msg_proc_slib_register : Message := mkMessage 1 (Some 0)
  (inline true (
    [("offset", u32_); ("segment", u16_)] ++ sub "data" s_sysmsg_version
      ++ [("offset_1", u32_); ("segment_1", u16_); ("offset_2", u32_); ("segment_2", u16_);
      ("offset_3", u32_); ("segment_3", u16_); ("padd", u32_); ("padd", u32_)]))
  (struct (
    [("status", u16_)])).

Definition s_spawn : layout := struct (
  [("type", u16_); ("priority", u8_); ("algorithm", u8_); ("padd", u16_); ("flags", u16_);
    ("padd", u8_); ("ctfd", u8_); ("stdfds", stdfds_); ("argc", u16_); ("envc", u16_)]).

Definition s_loaded_reply : layout := struct (
  [("status", u16_); ("son_pid", pid_); ("padd", u16_)]).

Definition msg_proc_spawn : Message := mkMessage 3 None
  s_spawn
  s_loaded_reply.

Definition msg_proc_exec : Message := mkMessage 4 None
  s_spawn
  s_loaded_reply.

Definition msg_proc_fork : Message := mkMessage 5 None
  (inline false (
    [("flags", u16_)]))
  s_loaded_reply.

Definition msg_proc_setpgid : Message := mkMessage 7 None
  (inline false (
    [("pid", pid_); ("pgid", pid_)]))
  (struct (
    [("status", u16_)])).

Definition s_timer_args : layout := struct (
  [("flags", u16_); ("cookie", u16_); ("timer_type", u8_); ("notify_type", u8_);
    ("sec1", u32_); ("nsec1", u32_); ("sec2", u32_); ("nsec2", u32_); ("data", u32_);
    ("padd", u32_)]).

Definition s_timer_request : layout := struct (
  [("type", u16_); ("subtype", u16_)] ++ sub "arg" s_timer_args).

Definition s_timer_reply : layout := struct (
  [("status", u16_); ("pid", pid_)] ++ sub "arg" s_timer_args).

Definition s_name_request : layout := struct (
  [("type", u16_); ("subtype", u16_); ("cookie", u16_); ("flags", u16_); ("padd", u32_);
    ("name", TBytes 33)]).

Definition s_name_reply : layout := struct (
  [("status", u16_); ("padd", u16_); ("cookie", u16_); ("pid", pid_); ("nid", nid_);
    ("name", TBytes 33)]).

Definition msg_proc_name_attach : Message := mkMessage 10 (Some 0)
  s_name_request
  s_name_reply.

Definition msg_proc_timer_create : Message := mkMessage 11 (Some 0)
  s_timer_request
  s_timer_reply.

Definition msg_proc_timer_settime : Message := mkMessage 11 (Some 9)
  s_timer_request
  s_timer_reply.

Definition msg_proc_timer_alarm : Message := mkMessage 11 (Some 10)
  s_timer_request
  s_timer_reply.

Definition msg_proc_wait : Message := mkMessage 27 None
  (inline false (
    [("options", u16_); ("pid", pid_); ("padd", u16_); ("xstatus", u32_)]))
  (struct (
    [("status", u16_); ("padd", u16_); ("pid", pid_); ("padd", u16_); ("xstatus", u32_)])).

Definition s_segment_request : layout := struct (
  [("type", u16_); ("subtype", u16_); ("sel", u16_); ("srcpid", pid_); ("padd_1", u16_);
    ("dstpid", pid_); ("padd_2", u16_); ("flags", u16_); ("padd_3", u16_); ("addr", u32_);
    ("nbytes", u32_)]).

Definition s_segment_reply : layout := struct (
  [("status", u16_); ("sel", u16_); ("flags", u16_); ("addr", u32_); ("nbytes", u32_)]).

Definition msg_proc_segment_alloc : Message := mkMessage 9 (Some 1)
  s_segment_request
  s_segment_reply.

Definition msg_proc_segment_realloc : Message := mkMessage 9 (Some 3)
  s_segment_request
  s_segment_reply.

Definition msg_proc_segment_free : Message := mkMessage 9 (Some 4)
  s_segment_request
  s_segment_reply.

Definition msg_proc_segment_flags : Message := mkMessage 9 (Some 7)
  s_segment_request
  s_segment_reply.

Definition msg_proc_segment_global : Message := mkMessage 9 (Some 9)
  s_segment_request
  s_segment_reply.

Definition msg_proc_segment_arm : Message := mkMessage 9 (Some 11)
  s_segment_request
  s_segment_reply.

Definition msg_proc_segment_put : Message := mkMessage 9 (Some 13)
  s_segment_request
  s_segment_reply.

Definition msg_proc_segment_priv : Message := mkMessage 9 (Some 17)
  s_segment_request
  s_segment_reply.

Definition msg_proc_time : Message := mkMessage 14 None
  (inline false (
    [("padd", u16_); ("seconds", u32_); ("nsec", u32_)]))
  (struct (
    [("status", u16_); ("padd", u16_); ("seconds", u32_); ("nsec", u32_)])).

Definition msg_proc_proc_flags : Message := mkMessage 15 None
  (inline false (
    [("padd", u16_); ("mask", u32_); ("bits", u32_)]))
  (struct (
    [("status", u16_); ("padd", u16_); ("old_bits", u16_); ("new_bits", u16_)])).

Definition msg_proc_terminate : Message := mkMessage 24 None
  (inline false (
    [("signum", u16_); ("status", u32_)]))
  (struct []).

Definition msg_proc_open : Message := mkMessage 25 None
  (inline false (
    sub "open" s_open ++ [("file", path_)]))
  (struct (
    [("status", u16_)] ++ sub "open" s_open ++ [("file", path_)])).

Definition s_fd_request : layout := struct (
  [("type", u16_); ("subtype", u16_); ("fd", fd_); ("owner_pid", pid_); ("zero1", u16_);
    ("nid", nid_); ("pid", pid_); ("zero2", u16_); ("vid", pid_); ("zero3", u16_);
    ("flags", u16_); ("handle", u16_); ("zero4", u16_)]).

Definition s_fd_reply1 : layout := struct (
  [("status", u16_); ("fd", fd_); ("padd", u16_); ("padd", u16_)]).

Definition s_fd_entry : layout := struct (
  [("nid", nid_); ("pid", pid_); ("padd", u16_); ("vid", pid_); ("padd", u16_);
    ("handle", u16_); ("flags", u16_)]).

Definition msg_proc_fd_attach : Message := mkMessage 22 (Some 0)
  s_fd_request
  s_fd_reply1.

Definition msg_proc_fd_detach : Message := mkMessage 22 (Some 1)
  s_fd_request
  s_fd_reply1.

Definition msg_proc_fd_query : Message := mkMessage 22 (Some 2)
  s_fd_request
  (struct (
    [("status", u16_)] ++ sub "info" s_fd_entry ++ [("fd", u16_)])).

Definition msg_proc_fd_action1 : Message := mkMessage 22 (Some 4)
  s_fd_request
  (struct (
    [("status", u16_); ("padd", u16_); ("padd", u16_)])).

Definition s_vc : layout := struct (
  [("type", u16_); ("flags", u16_); ("nid", nid_); ("pid", pid_); ("padd", u16_);
    ("length", u16_)]).

Definition msg_proc_vc_attach : Message := mkMessage 31 None
  s_vc
  (struct (
    [("status", u16_); ("pid", u16_)])).

Definition msg_proc_vc_detach : Message := mkMessage 32 None
  s_vc
  s_vc.

Definition msg_proc_psinfo : Message := mkMessage 34 None
  (inline false (
    [("pid", pid_); ("padd", u16_); ("memindex", u16_)]))
  (struct (
    [("status", u16_)])).

Definition s_signal_request : layout := struct (
  [("type", u16_); ("subtype", u16_); ("signum", u16_); ("pid", pid_); ("padd", u16_);
    ("mask", u32_); ("bits", u32_); ("offset", u32_); ("segment", u16_)]).

Definition s_signal_reply : layout := struct (
  [("status", u16_); ("padd", u16_); ("old_bits", u32_); ("new_bits", u32_)]).

Definition msg_proc_sigtab : Message := mkMessage 8 (Some 0)
  s_signal_request
  s_signal_reply.

Definition msg_proc_sigmask : Message := mkMessage 8 (Some 2)
  s_signal_request
  s_signal_reply.

Definition msg_proc_sigraise : Message := mkMessage 8 (Some 3)
  s_signal_request
  s_signal_reply.

Definition msg_proc_sigpending : Message := mkMessage 8 (Some 4)
  s_signal_request
  s_signal_reply.

Definition msg_proc_sigact : Message := mkMessage 8 (Some 5)
  s_signal_request
  s_signal_reply.

Definition msg_proc_sigsuspend : Message := mkMessage 8 (Some 6)
  s_signal_request
  s_signal_reply.

Definition msg_proc_getid : Message := mkMessage 12 (Some 0x0)
  (inline true [])
  (struct (
    [("status", u16_); ("padd", u16_); ("padd", u16_); ("pid", u16_); ("padd", u16_);
      ("ppid", u16_); ("pid_group", u16_); ("padd", u16_); ("flags", u32_); ("rgid", u16_);
      ("ruid", u16_); ("egid", u16_); ("euid", u16_)])).

Definition msg_proc_osinfo : Message := mkMessage 23 None
  (inline false [])
  (struct (
    [("status", u16_)])).

Definition msg_proc_prefix : Message := mkMessage 26 (Some 2)
  (inline true (
    [("unit", u16_); ("replace", u16_); ("padd", u32_); ("path", path_)]))
  (struct (
    [("status", u16_); ("prefix", path_)])).

Definition s_session_request : layout := struct (
  [("type", u16_); ("subtype", u16_); ("sid", u16_); ("padd", u16_); ("padd", u16_);
    ("padd", u16_); ("name", TBytes 17)]).

Definition s_session_reply : layout := struct (
  [("status", u16_); ("padd", u16_); ("pid", pid_); ("padd", u16_); ("sid", u16_);
    ("padd", u16_); ("links", u16_); ("padd", u32_); ("name", TBytes 15);
    ("tty_name", TBytes 32)]).

Definition msg_proc_sid_query : Message := mkMessage 40 (Some 2)
  s_session_request
  s_session_reply.

Definition msg_proc_sid_set : Message := mkMessage 40 (Some 0)
  s_session_request
  s_session_reply.

Definition s_sem : layout := struct (
  [("semid", u16_); ("seg", u16_); ("addr", u32_); ("padd", u32_); ("padd", u32_)]).

Definition msg_proc_sem_init : Message := mkMessage 0x2c (Some 0)
  (inline true (
    sub "sem" s_sem))
  (struct (
    [("status", u16_); ("zero", u16_)] ++ sub "sem" s_sem)).

Definition msg_proc_sem_destroy : Message := mkMessage 0x2c (Some 1)
  (inline true (
    sub "sem" s_sem))
  (struct (
    [("status", u16_); ("zero", u16_)] ++ sub "sem" s_sem)).

(** ** All messages *)

Definition io_list : list Message :=
  [msg_io_io_open; msg_io_close; msg_io_handle; msg_io_rename; msg_io_chdir; msg_io_read;
    msg_io_write; msg_io_lseek; msg_io_stat; msg_io_fstat; msg_io_readdir; msg_io_rewinddir;
    msg_io_fcntl_flags; msg_io_dup; msg_io_fpathconf; msg_io_chmod; msg_io_chown; msg_io_utime;
    msg_io_ioctl; msg_io_qioctl; msg_io_lock].

Definition fsys_list : list Message :=
  [msg_fsys_unlink; msg_fsys_mkspecial; msg_fsys_link; msg_fsys_disk_entry; msg_fsys_sync;
    msg_fsys_trunc; msg_fsys_readlink; msg_fsys_fsync; msg_fsys_fdinfo; msg_fsys_get_mount;
    msg_fsys_disk_space; msg_fsys_pipe].

Definition dev_list : list Message :=
  [msg_dev_tcgetattr; msg_dev_tcsetattr; msg_dev_tcgetpgrp; msg_dev_tcsetpgrp;
    msg_dev_dev_info; msg_dev_dev_fdinfo; msg_dev_term_size; msg_dev_tcdrain; msg_dev_tcflush;
    msg_dev_read; msg_dev_insert_chars; msg_dev_mode].

Definition proc_list : list Message :=
  [msg_proc_slib_register; msg_proc_spawn; msg_proc_exec; msg_proc_fork; msg_proc_setpgid;
    msg_proc_name_attach; msg_proc_timer_create; msg_proc_timer_settime; msg_proc_timer_alarm;
    msg_proc_wait; msg_proc_segment_alloc; msg_proc_segment_realloc; msg_proc_segment_free;
    msg_proc_segment_flags; msg_proc_segment_global; msg_proc_segment_arm;
    msg_proc_segment_put; msg_proc_segment_priv; msg_proc_time; msg_proc_proc_flags;
    msg_proc_terminate; msg_proc_open; msg_proc_fd_attach; msg_proc_fd_detach;
    msg_proc_fd_query; msg_proc_fd_action1; msg_proc_vc_attach; msg_proc_vc_detach;
    msg_proc_psinfo; msg_proc_sigtab; msg_proc_sigmask; msg_proc_sigraise; msg_proc_sigpending;
    msg_proc_sigact; msg_proc_sigsuspend; msg_proc_getid; msg_proc_osinfo; msg_proc_prefix;
    msg_proc_sid_query; msg_proc_sid_set; msg_proc_sem_init; msg_proc_sem_destroy].

Definition all_messages : list Message := io_list ++ fsys_list ++ dev_list ++ proc_list.

(** ** Properties *)

Lemma field_at (L : layout) : NoDup (fst <$> L) ->
  forall k g t, L !! k = Some (g, t) -> field L g = Some (sizeof (take k L), t).
Proof.
  unfold field. intros Hnd k g t Hk.
  assert (H : forall off, locate L off g = Some ((off + sizeof (take k L))%nat, t)); [|apply H].
  revert k Hk. induction L as [|[h u] L IH]; intros k Hk off; [done|]. simpl in *.
  apply NoDup_cons in Hnd as [Hh Hnd]. destruct k as [|k]; simpl in Hk.
  - injection Hk as -> ->. by rewrite String.eqb_refl, Nat.add_0_r.
  - destruct (String.eqb_spec h g) as [-> |Hne].
    + destruct Hh. apply list_elem_of_fmap. exists (g, t). split; [done|].
      by apply list_elem_of_lookup_2 in Hk.
    + simpl. rewrite (IH Hnd k Hk). do 2 f_equal. lia.
Qed.

Lemma messages_nodup :
  Forall (fun m => NoDup (fst <$> request m) /\ NoDup (fst <$> reply m)) all_messages.
Proof. apply (bool_decide_eq_true (Forall _ _)). vm_compute. reflexivity. Qed.

(** What the declarations of a message amount to in memory. *)
Definition placed (L : layout) : places :=
  (sizeof L, (fun '(f, _) => let '(o, t) := default (0%nat, u16_) (field L f) in (f, o, t)) <$> L).
Definition wire (m : Message) : Wire := mkWire (TYPE m) (SUBTYPE m) (placed (request m)) (placed (reply m)).

Lemma messages_placed : wire <$> all_messages = wire_format.*2.
Proof. vm_compute. reflexivity. Qed.

Lemma placed_field (L : layout) : NoDup (fst <$> L) ->
  forall f o t, (f, o, t) ∈ (placed L).2 -> field L f = Some (o, t).
Proof.
  intros Hnd f o t Hin. apply list_elem_of_fmap in Hin as ([g u] & Heq & Hin).
  apply list_elem_of_lookup in Hin as [k Hk]. pose proof (field_at L Hnd k g u Hk) as Hf.
  rewrite Hf in Heq. simpl in Heq. by injection Heq as -> -> ->.
Qed.

(** C6. The messages have the memory format the message files give them.  The
    table [wire_format], message by message, holds the type, the subtype, the
    sizes of the request and the reply, and the name, the absolute offset, the
    width and the sign of each field, in order: that is what the declared
    structures come out as — the headers at 0 and 2, embedded structures in
    place, padding named apart.  And these fields are independent: a value stored
    in an integer field is read back converted to the field's width and sign,
    the structure keeps its size, and no other field, number or array, changes. *)
Theorem message_fields :
  wire <$> all_messages = wire_format.*2 /\
  forall m L b, m ∈ all_messages -> L = request m \/ L = reply m -> length b = sizeof L ->
    (forall f o t, (f, o, t) ∈ (placed L).2 -> field L f = Some (o, t)) /\
    (forall f H v,
       length (set_fld L f H v b) = sizeof L /\
       fld L f H (set_fld L f H v b) = conv (default u16_ (snd <$> field L f)) v /\
       (forall g Hg, g <> f -> fld L g Hg (set_fld L f H v b) = fld L g Hg b) /\
       (forall g Hg, g <> f -> arr L g Hg (set_fld L f H v b) = arr L g Hg b)).
Proof.
  split; [apply messages_placed|]. intros m L b Hm HL Hb.
  pose proof (proj1 (Forall_forall _ _) messages_nodup m Hm) as [H1 H2].
  split; [apply placed_field; by destruct HL as [-> | ->]|]. intros f H v.
  split; [by apply length_set_fld|]. split; [by apply fld_set_same|].
  split; intros g Hg Hne; [by apply fld_set_other|by apply arr_set_fld].
Qed.
