(* ===== verification/QnxMeta.v ===== *)
(** * QnxMeta: the descriptions of messages, [msg/gen.py], [msg/meta.h]

    For each structure and message of [msg/*.qmsg] the generator also writes a
    description, from which messages are dumped.  The declarations are those of
    [QnxMsg] with the formats and presentations of their fields, structures
    inside structures; [c_struct] is the description the generator makes of one,
    with the offsets the C++ compiler gives packed structures.  The descriptions
    agree with the structures the handlers use. *)

From S2P Require Import Prelude Types Layout.
From S2P Require QnxMsg.

Module Meta.

(** ** [msg/meta.h] *)

Inductive Format :=
  SUB | CHAR | U8 | U16 | U32 | I8 | I16 | I32 | PID | NID | FD | PATH | TERMIOS | TIME | STDFDS.

Inductive Presentation := DEFAULT | HEX | OCT.

Inductive Struct :=
| mkStruct (m_fields : list Field) (m_size : nat)
with Field :=
| mkField (m_name : string) (m_offset m_size : nat) (m_format : Format) (m_presentation : Presentation)
    (m_typeref : option Struct) (m_array_len : nat).

Definition m_fields (t : Struct) : list Field := let '(mkStruct l _) := t in l.
Definition m_size (t : Struct) : nat := let '(mkStruct _ n) := t in n.

Definition f_name (f : Field) : string := let '(mkField n _ _ _ _ _ _) := f in n.
Definition m_offset (f : Field) : nat := let '(mkField _ o _ _ _ _ _) := f in o.
Definition m_typeref (f : Field) : option Struct := let '(mkField _ _ _ _ _ r _) := f in r.

Record Message := mkMessage {
  m_name : string;
  m_type : Z;
  m_has_subtype : bool;
  m_subtype : Z;
  m_request : Struct;
  m_reply : Struct
}.

(** ** [msg/gen.py] *)

(** A field: its name, its type, its array size (0: no array), its presentation. *)
Inductive dtype :=
| Prim (f : Format)
| Ref (d : list (string * dtype * nat * Presentation)).
Notation decl := (list (string * dtype * nat * Presentation)).

(** The C++ types of the primitives. *)
Definition prim_size (f : Format) : nat :=
  match f with
  | SUB => 0 | CHAR | U8 | I8 => 1 | U16 | I16 | PID | FD => 2 | U32 | I32 | NID | TIME => 4
  | PATH => 256 | TERMIOS => sizeof QnxMsg.s_termios | STDFDS => 10
  end.

Fixpoint dt_size (t : dtype) : nat :=
  match t with
  | Prim f => prim_size f
  | Ref d => (fix go (d : decl) := match d with [] => 0%nat | (_, t, a, _) :: d => (Nat.max 1 a * dt_size t + go d)%nat end) d
  end.
Definition d_size (d : decl) : nat := dt_size (Ref d).

Definition format (t : dtype) : Format := match t with Prim f => f | Ref _ => SUB end.

(** [write]: the description of a structure.  The size written for a field is the
    size of the structure, times its array size. *)
Fixpoint c_struct (d : dtype) : option Struct :=
  match d with
  | Prim _ => None
  | Ref d =>
      Some (mkStruct
        ((fix go (off : nat) (d : decl) : list Field :=
            match d with
            | [] => []
            | (n, t, a, p) :: rest =>
                mkField n off (Nat.max 1 a * d_size d) (format t) (match t with Prim _ => p | Ref _ => DEFAULT end)
                  (c_struct t) a :: go (off + Nat.max 1 a * dt_size t)%nat rest
            end) 0%nat d)
        (d_size d))
  end.

Definition describe (d : decl) : Struct := match c_struct (Ref d) with Some t => t | None => mkStruct [] 0 end.

(** [prepare]: fields called [padd] are numbered; an inline request gets the type
    fields. *)
Fixpoint number_padds (c : nat) (d : decl) : decl :=
  match d with
  | [] => []
  | (n, t, a, p) :: d =>
      if String.eqb n "padd" then (String.append "padd_" (pretty.pretty (S c)), t, a, p) :: number_padds (S c) d
      else (n, t, a, p) :: number_padds c d
  end.
Definition prepare (d : decl) : decl := number_padds 0 d.

Definition inline (has_subtype : bool) (d : decl) : decl :=
  prepare (("type"%string, Prim U16, 0%nat, HEX) ::
           (if has_subtype then [("subtype"%string, Prim U16, 0%nat, HEX)] else []) ++ d).

Definition message (name : string) (type : Z) (subtype : option Z) (request reply : decl) : Message :=
  mkMessage name type (match subtype with Some _ => true | None => false end) (default 0 subtype)
    (describe request) (describe reply).

Local Open Scope string_scope.

(** ** [common.qmsg] *)

Definition d_open : decl := prepare
  [("fd", Prim FD, 0%nat, DEFAULT); ("unit", Prim U16, 0%nat, HEX);
   ("version_cycle", Prim U8, 0%nat, HEX); ("eflag", Prim U8, 0%nat, HEX);
   ("nid", Prim NID, 0%nat, DEFAULT); ("pid", Prim PID, 0%nat, DEFAULT);
   ("sflag", Prim U16, 0%nat, HEX); ("oflag", Prim U16, 0%nat, HEX);
   ("mode", Prim U16, 0%nat, HEX); ("zero", Prim U32, 0%nat, HEX)].

Definition d_status : decl := prepare
  [("status", Prim U16, 0%nat, DEFAULT)].

(** ** [io.qmsg] *)

Definition meta_io_io_open : Message := message "io_open" 0x101 None
  (inline false
    [("open", Ref d_open, 0%nat, DEFAULT); ("file", Prim PATH, 0%nat, DEFAULT)])
  d_status.

Definition meta_io_close : Message := message "close" 0x102 None
  (inline false
    [("fd", Prim FD, 0%nat, DEFAULT); ("padd", Prim U32, 0%nat, DEFAULT)])
  d_status.

Definition meta_io_handle : Message := message "handle" 0x109 None
  (inline false
    [("open", Ref d_open, 0%nat, DEFAULT); ("file", Prim PATH, 0%nat, DEFAULT)])
  d_status.

Definition meta_io_rename : Message := message "rename" 0x106 None
  (inline false
    [("open", Ref d_open, 0%nat, DEFAULT); ("from", Prim PATH, 0%nat, DEFAULT);
     ("to", Prim PATH, 0%nat, DEFAULT)])
  d_status.

Definition meta_io_chdir : Message := message "chdir" 0x110 None
  d_open
  d_status.

Definition meta_io_read : Message := message "read" 0x103 None
  (inline false
    [("fd", Prim FD, 0%nat, DEFAULT); ("nbytes", Prim U16, 0%nat, HEX);
     ("zero", Prim U16, 0%nat, DEFAULT)])
  (prepare
    [("status", Prim U16, 0%nat, DEFAULT); ("nbytes", Prim U16, 0%nat, HEX);
     ("zero", Prim U32, 0%nat, DEFAULT)]).

Definition meta_io_write : Message := message "write" 0x104 None
  (inline false
    [("fd", Prim FD, 0%nat, DEFAULT); ("nbytes", Prim U16, 0%nat, HEX);
     ("zero", Prim U16, 0%nat, DEFAULT)])
  (prepare
    [("status", Prim U16, 0%nat, DEFAULT); ("nbytes", Prim U16, 0%nat, HEX);
     ("zero", Prim U16, 0%nat, DEFAULT)]).

Definition meta_io_lseek : Message := message "lseek" 0x105 None
  (inline false
    [("fd", Prim FD, 0%nat, DEFAULT); ("offset", Prim I32, 0%nat, DEFAULT);
     ("whence", Prim U16, 0%nat, DEFAULT); ("zero", Prim U16, 0%nat, DEFAULT)])
  (prepare
    [("status", Prim U16, 0%nat, DEFAULT); ("zero", Prim U16, 0%nat, DEFAULT);
     ("offset", Prim U32, 0%nat, DEFAULT)]).

Definition d_stat : decl := prepare
  [("ino", Prim U32, 0%nat, DEFAULT); ("dev", Prim U32, 0%nat, DEFAULT);
   ("size", Prim I32, 0%nat, DEFAULT); ("rdev", Prim U32, 0%nat, DEFAULT);
   ("userland_uid", Prim U32, 0%nat, DEFAULT); ("userland_gid", Prim U32, 0%nat, DEFAULT);
   ("ftime", Prim TIME, 0%nat, DEFAULT); ("mtime", Prim TIME, 0%nat, DEFAULT);
   ("atime", Prim TIME, 0%nat, DEFAULT); ("ctime", Prim TIME, 0%nat, DEFAULT);
   ("padd", Prim U16, 0%nat, DEFAULT); ("mode", Prim U16, 0%nat, OCT);
   ("uid", Prim U16, 0%nat, DEFAULT); ("gid", Prim U16, 0%nat, DEFAULT);
   ("nlink", Prim U16, 0%nat, DEFAULT); ("padd", Prim U32, 0%nat, DEFAULT);
   ("padd", Prim U8, 0%nat, DEFAULT); ("status", Prim U8, 0%nat, DEFAULT)].

Definition meta_io_stat : Message := message "stat" 0x115 None
  (inline false
    [("args", Ref d_open, 0%nat, DEFAULT); ("path", Prim PATH, 0%nat, DEFAULT)])
  (prepare
    [("status", Prim U16, 0%nat, DEFAULT); ("padd", Prim U16, 0%nat, DEFAULT);
     ("stat", Ref d_stat, 0%nat, DEFAULT)]).

Definition meta_io_fstat : Message := message "fstat" 0x10a None
  (inline false
    [("fd", Prim U16, 0%nat, DEFAULT); ("zero", Prim U32, 0%nat, DEFAULT)])
  (prepare
    [("status", Prim U16, 0%nat, DEFAULT); ("padd", Prim U16, 0%nat, DEFAULT);
     ("stat", Ref d_stat, 0%nat, DEFAULT)]).

Definition meta_io_readdir : Message := message "readdir" 0x112 None
  (inline false
    [("fd", Prim U16, 0%nat, DEFAULT); ("ndirs", Prim U8, 0%nat, DEFAULT);
     ("padd", Prim U8, 0%nat, DEFAULT); ("padd", Prim U8, 0%nat, DEFAULT);
     ("padd", Prim U8, 0%nat, DEFAULT)])
  (prepare
    [("status", Prim U16, 0%nat, DEFAULT); ("ndirs", Prim U8, 0%nat, DEFAULT);
     ("padd", Prim U8, 0%nat, DEFAULT); ("padd", Prim U32, 0%nat, DEFAULT)]).

Definition meta_io_rewinddir : Message := message "rewinddir" 0x113 None
  (inline false
    [("fd", Prim U16, 0%nat, DEFAULT)])
  d_status.

Definition meta_io_fcntl_flags : Message := message "fcntl_flags" 0x010E None
  (inline false
    [("fd", Prim U16, 0%nat, DEFAULT); ("mask", Prim U16, 0%nat, DEFAULT);
     ("bits", Prim U16, 0%nat, DEFAULT)])
  (prepare
    [("status", Prim U16, 0%nat, DEFAULT); ("flags", Prim U16, 0%nat, DEFAULT)]).

Definition meta_io_dup : Message := message "dup" 0x108 None
  (inline false
    [("src_fd", Prim U16, 0%nat, DEFAULT); ("src_pid", Prim PID, 0%nat, DEFAULT);
     ("padd", Prim U16, 0%nat, DEFAULT); ("dst_fd", Prim U16, 0%nat, DEFAULT);
     ("padd", Prim U16, 0%nat, DEFAULT)])
  d_status.

Definition meta_io_fpathconf : Message := message "fpathconf" 0x107 None
  (inline false
    [("fd", Prim U16, 0%nat, DEFAULT); ("idx", Prim U16, 0%nat, DEFAULT)])
  (prepare
    [("status", Prim U16, 0%nat, DEFAULT); ("padd", Prim U16, 0%nat, DEFAULT);
     ("value", Prim I16, 0%nat, DEFAULT)]).

Definition meta_io_chmod : Message := message "chmod" 0x010B None
  (inline false
    [("fd", Prim U16, 0%nat, DEFAULT); ("mode", Prim U16, 0%nat, DEFAULT)])
  d_status.

Definition meta_io_chown : Message := message "chown" 0x010C None
  (inline false
    [("fd", Prim U16, 0%nat, DEFAULT); ("gid", Prim U16, 0%nat, DEFAULT);
     ("uid", Prim U16, 0%nat, DEFAULT)])
  d_status.

Definition meta_io_utime : Message := message "utime" 0x010D None
  (inline false
    [("fd", Prim U16, 0%nat, DEFAULT); ("actime", Prim TIME, 0%nat, DEFAULT);
     ("mod", Prim TIME, 0%nat, DEFAULT); ("cur_flag", Prim U16, 0%nat, DEFAULT);
     ("zero", Prim U16, 0%nat, DEFAULT)])
  d_status.

Definition meta_io_ioctl : Message := message "ioctl" 0x0114 None
  (inline false
    [("fd", Prim FD, 0%nat, DEFAULT); ("request", Prim U16, 0%nat, HEX);
     ("nbytes", Prim U16, 0%nat, DEFAULT); ("padd", Prim U32, 0%nat, DEFAULT)])
  (prepare
    [("status", Prim U16, 0%nat, DEFAULT); ("ret_val", Prim U16, 0%nat, DEFAULT);
     ("padd", Prim U32, 0%nat, DEFAULT)]).

Definition meta_io_qioctl : Message := message "qioctl" 0x0117 None
  (inline false
    [("fd", Prim FD, 0%nat, DEFAULT); ("request", Prim U16, 0%nat, HEX);
     ("nbytes", Prim U16, 0%nat, DEFAULT); ("padd", Prim U32, 0%nat, DEFAULT)])
  (prepare
    [("status", Prim U16, 0%nat, DEFAULT); ("ret_val", Prim U16, 0%nat, DEFAULT);
     ("padd", Prim U32, 0%nat, DEFAULT); ("padd", Prim U32, 0%nat, DEFAULT)]).

Definition d_lock : decl := prepare
  [("fd", Prim FD, 0%nat, DEFAULT); ("cmd", Prim U16, 0%nat, DEFAULT);
   ("type", Prim U16, 0%nat, DEFAULT); ("whence", Prim U16, 0%nat, DEFAULT);
   ("start", Prim I32, 0%nat, DEFAULT); ("len", Prim U32, 0%nat, DEFAULT);
   ("pid", Prim PID, 0%nat, DEFAULT); ("padd", Prim U16, 0%nat, DEFAULT)].

Definition meta_io_lock : Message := message "lock" 0x010F None
  (inline false
    [("lock", Ref d_lock, 0%nat, DEFAULT)])
  (prepare
    [("status", Prim U16, 0%nat, DEFAULT); ("lock", Ref d_lock, 0%nat, DEFAULT)]).

(** ** [fsys.qmsg] *)

Definition meta_fsys_unlink : Message := message "unlink" 0x203 None
  (inline false
    [("args", Ref d_open, 0%nat, DEFAULT); ("path", Prim PATH, 0%nat, DEFAULT)])
  (prepare
    [("status", Prim U16, 0%nat, DEFAULT)]).

Definition meta_fsys_mkspecial : Message := message "mkspecial" 0x0202 None
  (inline false
    [("open", Ref d_open, 0%nat, DEFAULT); ("path", Prim PATH, 0%nat, DEFAULT);
     ("target", Prim PATH, 0%nat, DEFAULT)])
  d_status.

Definition meta_fsys_link : Message := message "link" 0x0204 None
  (inline false
    [("arg", Ref d_open, 0%nat, DEFAULT); ("new_path", Prim PATH, 0%nat, DEFAULT)])
  d_status.

Definition meta_fsys_disk_entry : Message := message "disk_entry" 0x209 None
  (inline false
    [("fd", Prim FD, 0%nat, DEFAULT)])
  (prepare
    [("status", Prim U16, 0%nat, DEFAULT); ("padd", Prim U16, 0%nat, DEFAULT);
     ("blk_offset", Prim U32, 0%nat, DEFAULT); ("num_sectors", Prim U32, 0%nat, DEFAULT);
     ("disk_sectors", Prim U32, 0%nat, DEFAULT); ("cylinders", Prim U16, 0%nat, DEFAULT);
     ("heads", Prim U16, 0%nat, DEFAULT); ("track_sectors", Prim U16, 0%nat, DEFAULT);
     ("disk_type", Prim U8, 0%nat, DEFAULT); ("disk_drv", Prim U8, 0%nat, DEFAULT);
     ("padd", Prim U32, 0%nat, DEFAULT); ("padd", Prim U32, 0%nat, DEFAULT);
     ("padd", Prim U32, 0%nat, DEFAULT); ("drive_name", Prim CHAR, 12%nat, DEFAULT)]).

Definition meta_fsys_sync : Message := message "sync" 0x20A None
  (inline false [])
  d_status.

Definition meta_fsys_trunc : Message := message "trunc" 0x210 None
  (inline false
    [("fd", Prim FD, 0%nat, DEFAULT); ("offset", Prim I32, 0%nat, DEFAULT);
     ("whence", Prim U16, 0%nat, DEFAULT); ("padd", Prim U16, 0%nat, DEFAULT)])
  (prepare
    [("status", Prim U16, 0%nat, DEFAULT); ("padd", Prim U16, 0%nat, DEFAULT);
     ("offset", Prim U32, 0%nat, DEFAULT)]).

Definition meta_fsys_readlink : Message := message "readlink" 0x0216 None
  (inline false
    [("arg", Ref d_open, 0%nat, DEFAULT); ("path", Prim PATH, 0%nat, DEFAULT)])
  (prepare
    [("status", Prim U16, 0%nat, DEFAULT); ("padd", Prim U16, 0%nat, DEFAULT);
     ("path", Prim PATH, 0%nat, DEFAULT)]).

Definition meta_fsys_fsync : Message := message "fsync" 0x218 None
  (inline false
    [("fd", Prim FD, 0%nat, DEFAULT); ("flags", Prim U32, 0%nat, DEFAULT)])
  d_status.

Definition meta_fsys_fdinfo : Message := message "fdinfo" 0x021A None
  (inline false
    [("pid", Prim PID, 0%nat, DEFAULT); ("padd", Prim U16, 0%nat, DEFAULT);
     ("fd", Prim U16, 0%nat, DEFAULT); ("padd", Prim U32, 0%nat, DEFAULT)])
  (prepare
    [("status", Prim U16, 0%nat, DEFAULT); ("pid", Prim PID, 0%nat, DEFAULT);
     ("padd", Prim U16, 0%nat, DEFAULT); ("fd", Prim U16, 0%nat, DEFAULT);
     ("padd", Prim U32, 0%nat, DEFAULT); ("offset", Prim U32, 0%nat, DEFAULT);
     ("fsize", Prim U32, 0%nat, DEFAULT); ("fflags", Prim U16, 0%nat, DEFAULT);
     ("share", Prim U16, 0%nat, DEFAULT); ("path", Prim PATH, 0%nat, DEFAULT)]).

Definition meta_fsys_get_mount : Message := message "get_mount" 0x20d None
  (inline false
    [("open", Ref d_open, 0%nat, DEFAULT); ("path", Prim PATH, 0%nat, DEFAULT)])
  (prepare
    [("status", Prim U16, 0%nat, DEFAULT); ("padd", Prim U16, 0%nat, DEFAULT);
     ("path", Prim PATH, 0%nat, DEFAULT)]).

Definition meta_fsys_disk_space : Message := message "disk_space" 0x20e None
  (inline false
    [("fd", Prim FD, 0%nat, DEFAULT); ("padd", Prim U32, 0%nat, DEFAULT)])
  (prepare
    [("status", Prim U16, 0%nat, DEFAULT); ("padd", Prim U16, 0%nat, DEFAULT);
     ("free_blocks", Prim U32, 0%nat, DEFAULT); ("total_blocks", Prim U32, 0%nat, DEFAULT)]).

Definition meta_fsys_pipe : Message := message "pipe" 0x20f None
  (inline false
    [("unit", Prim U16, 0%nat, DEFAULT); ("fd_in", Prim FD, 0%nat, DEFAULT);
     ("fd_out", Prim FD, 0%nat, DEFAULT)])
  (prepare
    [("status", Prim U16, 0%nat, DEFAULT)]).

(** ** [dev.qmsg] *)

Definition meta_dev_tcgetattr : Message := message "tcgetattr" 0x310 None
  (inline false
    [("fd", Prim FD, 0%nat, DEFAULT)])
  (prepare
    [("status", Prim I16, 0%nat, DEFAULT); ("state", Prim TERMIOS, 0%nat, DEFAULT)]).

Definition meta_dev_tcsetattr : Message := message "tcsetattr" 0x311 None
  (inline false
    [("fd", Prim FD, 0%nat, DEFAULT); ("state", Prim TERMIOS, 0%nat, DEFAULT);
     ("optional_actions", Prim U16, 0%nat, DEFAULT)])
  (prepare
    [("status", Prim I16, 0%nat, DEFAULT)]).

Definition meta_dev_tcgetpgrp : Message := message "tcgetpgrp" 0x316 None
  (inline false
    [("fd", Prim FD, 0%nat, DEFAULT)])
  (prepare
    [("status", Prim U16, 0%nat, DEFAULT); ("pgrp", Prim PID, 0%nat, DEFAULT);
     ("padd", Prim U16, 0%nat, DEFAULT)]).

Definition meta_dev_tcsetpgrp : Message := message "tcsetpgrp" 0x317 None
  (inline false
    [("fd", Prim FD, 0%nat, DEFAULT); ("pgrp", Prim PID, 0%nat, DEFAULT);
     ("padd", Prim U16, 0%nat, DEFAULT)])
  (prepare
    [("status", Prim U16, 0%nat, DEFAULT)]).

Definition d_dev_info : decl := prepare
  [("tty", Prim I16, 0%nat, DEFAULT); ("nid", Prim NID, 0%nat, DEFAULT);
   ("driver_pid", Prim PID, 0%nat, DEFAULT); ("padd", Prim U16, 0%nat, DEFAULT);
   ("nature", Prim U16, 0%nat, DEFAULT); ("attributes", Prim U16, 0%nat, DEFAULT);
   ("capabilities", Prim U16, 0%nat, DEFAULT); ("driver_type", Prim CHAR, 16%nat, DEFAULT);
   ("tty_name", Prim CHAR, 32%nat, DEFAULT); ("unit", Prim U16, 0%nat, DEFAULT);
   ("open_count", Prim U16, 0%nat, DEFAULT); ("pgrp", Prim PID, 0%nat, DEFAULT);
   ("padd", Prim U16, 0%nat, DEFAULT); ("session", Prim PID, 0%nat, DEFAULT);
   ("padd", Prim U16, 0%nat, DEFAULT); ("flags", Prim U16, 0%nat, DEFAULT);
   ("major", Prim U16, 0%nat, DEFAULT)].

Definition meta_dev_dev_info : Message := message "dev_info" 0x31b None
  (inline false
    [("fd", Prim FD, 0%nat, DEFAULT)])
  (prepare
    [("status", Prim U16, 0%nat, DEFAULT); ("info", Ref d_dev_info, 0%nat, DEFAULT)]).

Definition meta_dev_dev_fdinfo : Message := message "dev_fdinfo" 0x320 None
  (inline false
    [("fd", Prim FD, 0%nat, DEFAULT); ("pid", Prim PID, 0%nat, DEFAULT);
     ("padd", Prim U16, 0%nat, DEFAULT)])
  (prepare
    [("status", Prim U16, 0%nat, DEFAULT); ("info", Ref d_dev_info, 0%nat, DEFAULT)]).

Definition meta_dev_term_size : Message := message "term_size" 0x0323 None
  (inline false
    [("fd", Prim FD, 0%nat, DEFAULT); ("rows", Prim U16, 0%nat, DEFAULT);
     ("cols", Prim U16, 0%nat, DEFAULT)])
  (prepare
    [("status", Prim U16, 0%nat, DEFAULT); ("oldrows", Prim U16, 0%nat, DEFAULT);
     ("oldcols", Prim U16, 0%nat, DEFAULT); ("padd", Prim U32, 0%nat, DEFAULT);
     ("padd", Prim U32, 0%nat, DEFAULT); ("padd", Prim U32, 0%nat, DEFAULT);
     ("padd", Prim U32, 0%nat, DEFAULT)]).

Definition meta_dev_tcdrain : Message := message "tcdrain" 0x0313 None
  (inline false
    [("fd", Prim FD, 0%nat, DEFAULT)])
  (prepare
    [("status", Prim U16, 0%nat, DEFAULT)]).

Definition meta_dev_tcflush : Message := message "tcflush" 0x0314 None
  (inline false
    [("fd", Prim FD, 0%nat, DEFAULT); ("queue", Prim U16, 0%nat, DEFAULT)])
  (prepare
    [("status", Prim U16, 0%nat, DEFAULT)]).

Definition meta_dev_read : Message := message "read" 0x031E None
  (inline false
    [("fd", Prim FD, 0%nat, DEFAULT); ("nbytes", Prim I16, 0%nat, DEFAULT);
     ("minimum", Prim U16, 0%nat, DEFAULT); ("time", Prim U16, 0%nat, DEFAULT);
     ("timeout", Prim U16, 0%nat, DEFAULT); ("proxy", Prim PID, 0%nat, DEFAULT);
     ("proxy_spare", Prim U16, 0%nat, DEFAULT); ("zero", Prim U16, 0%nat, DEFAULT)])
  (prepare
    [("status", Prim U16, 0%nat, DEFAULT); ("nbytes", Prim I16, 0%nat, DEFAULT);
     ("timeout", Prim U16, 0%nat, DEFAULT); ("empty", Prim U16, 0%nat, DEFAULT)]).

Definition meta_dev_insert_chars : Message := message "insert_chars" 0x0318 None
  (inline false
    [("fd", Prim FD, 0%nat, DEFAULT); ("nbytes", Prim I16, 0%nat, DEFAULT)])
  (prepare
    [("status", Prim U16, 0%nat, DEFAULT)]).

Definition meta_dev_mode : Message := message "mode" 0x0319 None
  (inline false
    [("fd", Prim FD, 0%nat, DEFAULT); ("mode", Prim U16, 0%nat, DEFAULT);
     ("mask", Prim U16, 0%nat, DEFAULT); ("zero1", Prim U16, 0%nat, DEFAULT);
     ("zero2", Prim U16, 0%nat, DEFAULT)])
  (prepare
    [("status", Prim U16, 0%nat, DEFAULT); ("oldmode", Prim U16, 0%nat, DEFAULT);
     ("zero1", Prim U16, 0%nat, DEFAULT); ("zero2", Prim U16, 0%nat, DEFAULT)]).

(** ** [proc.qmsg] *)

Definition d_sysmsg_version : decl := prepare
  [("name", Prim CHAR, 12%nat, DEFAULT); ("date", Prim CHAR, 12%nat, DEFAULT);
   ("version", Prim U16, 0%nat, DEFAULT); ("letter", Prim U8, 0%nat, DEFAULT);
   ("more", Prim U8, 0%nat, DEFAULT)].

Definition meta_proc_slib_register : Message := message "slib_register" 1 (Some 0)
  (inline true
    [("offset", Prim U32, 0%nat, HEX); ("segment", Prim U16, 0%nat, HEX);
     ("data", Ref d_sysmsg_version, 0%nat, DEFAULT); ("offset_1", Prim U32, 0%nat, HEX);
     ("segment_1", Prim U16, 0%nat, HEX); ("offset_2", Prim U32, 0%nat, HEX);
     ("segment_2", Prim U16, 0%nat, HEX); ("offset_3", Prim U32, 0%nat, HEX);
     ("segment_3", Prim U16, 0%nat, HEX); ("padd", Prim U32, 0%nat, DEFAULT);
     ("padd", Prim U32, 0%nat, DEFAULT)])
  (prepare
    [("status", Prim U16, 0%nat, DEFAULT)]).

Definition d_spawn : decl := prepare
  [("type", Prim U16, 0%nat, DEFAULT); ("priority", Prim U8, 0%nat, DEFAULT);
   ("algorithm", Prim U8, 0%nat, DEFAULT); ("padd", Prim U16, 0%nat, DEFAULT);
   ("flags", Prim U16, 0%nat, DEFAULT); ("padd", Prim U8, 0%nat, DEFAULT);
   ("ctfd", Prim U8, 0%nat, DEFAULT); ("stdfds", Prim STDFDS, 0%nat, DEFAULT);
   ("argc", Prim U16, 0%nat, DEFAULT); ("envc", Prim U16, 0%nat, DEFAULT)].

Definition d_loaded_reply : decl := prepare
  [("status", Prim U16, 0%nat, DEFAULT); ("son_pid", Prim PID, 0%nat, DEFAULT);
   ("padd", Prim U16, 0%nat, DEFAULT)].

Definition meta_proc_spawn : Message := message "spawn" 3 None
  d_spawn
  d_loaded_reply.

Definition meta_proc_exec : Message := message "exec" 4 None
  d_spawn
  d_loaded_reply.

Definition meta_proc_fork : Message := message "fork" 5 None
  (inline false
    [("flags", Prim U16, 0%nat, DEFAULT)])
  d_loaded_reply.

Definition meta_proc_setpgid : Message := message "setpgid" 7 None
  (inline false
    [("pid", Prim PID, 0%nat, DEFAULT); ("pgid", Prim PID, 0%nat, DEFAULT)])
  (prepare
    [("status", Prim U16, 0%nat, DEFAULT)]).

Definition d_timer_args : decl := prepare
  [("flags", Prim U16, 0%nat, HEX); ("cookie", Prim U16, 0%nat, DEFAULT);
   ("timer_type", Prim U8, 0%nat, HEX); ("notify_type", Prim U8, 0%nat, HEX);
   ("sec1", Prim U32, 0%nat, DEFAULT); ("nsec1", Prim U32, 0%nat, DEFAULT);
   ("sec2", Prim U32, 0%nat, DEFAULT); ("nsec2", Prim U32, 0%nat, DEFAULT);
   ("data", Prim U32, 0%nat, DEFAULT); ("padd", Prim U32, 0%nat, DEFAULT)].

Definition d_timer_request : decl := prepare
  [("type", Prim U16, 0%nat, DEFAULT); ("subtype", Prim U16, 0%nat, DEFAULT);
   ("arg", Ref d_timer_args, 0%nat, DEFAULT)].

Definition d_timer_reply : decl := prepare
  [("status", Prim U16, 0%nat, DEFAULT); ("pid", Prim PID, 0%nat, DEFAULT);
   ("arg", Ref d_timer_args, 0%nat, DEFAULT)].

Definition d_name_request : decl := prepare
  [("type", Prim U16, 0%nat, DEFAULT); ("subtype", Prim U16, 0%nat, DEFAULT);
   ("cookie", Prim U16, 0%nat, DEFAULT); ("flags", Prim U16, 0%nat, DEFAULT);
   ("padd", Prim U32, 0%nat, DEFAULT); ("name", Prim CHAR, 33%nat, DEFAULT)].

Definition d_name_reply : decl := prepare
  [("status", Prim U16, 0%nat, DEFAULT); ("padd", Prim U16, 0%nat, DEFAULT);
   ("cookie", Prim U16, 0%nat, DEFAULT); ("pid", Prim PID, 0%nat, DEFAULT);
   ("nid", Prim NID, 0%nat, DEFAULT); ("name", Prim CHAR, 33%nat, DEFAULT)].

Definition meta_proc_name_attach : Message := message "name_attach" 10 (Some 0)
  d_name_request
  d_name_reply.

Definition meta_proc_timer_create : Message := message "timer_create" 11 (Some 0)
  d_timer_request
  d_timer_reply.

Definition meta_proc_timer_settime : Message := message "timer_settime" 11 (Some 9)
  d_timer_request
  d_timer_reply.

Definition meta_proc_timer_alarm : Message := message "timer_alarm" 11 (Some 10)
  d_timer_request
  d_timer_reply.

Definition meta_proc_wait : Message := message "wait" 27 None
  (inline false
    [("options", Prim U16, 0%nat, DEFAULT); ("pid", Prim PID, 0%nat, DEFAULT);
     ("padd", Prim U16, 0%nat, DEFAULT); ("xstatus", Prim U32, 0%nat, DEFAULT)])
  (prepare
    [("status", Prim U16, 0%nat, DEFAULT); ("padd", Prim U16, 0%nat, DEFAULT);
     ("pid", Prim PID, 0%nat, DEFAULT); ("padd", Prim U16, 0%nat, DEFAULT);
     ("xstatus", Prim U32, 0%nat, DEFAULT)]).

Definition d_segment_request : decl := prepare
  [("type", Prim U16, 0%nat, DEFAULT); ("subtype", Prim U16, 0%nat, DEFAULT);
   ("sel", Prim U16, 0%nat, HEX); ("srcpid", Prim PID, 0%nat, DEFAULT);
   ("padd_1", Prim U16, 0%nat, DEFAULT); ("dstpid", Prim PID, 0%nat, DEFAULT);
   ("padd_2", Prim U16, 0%nat, DEFAULT); ("flags", Prim U16, 0%nat, HEX);
   ("padd_3", Prim U16, 0%nat, DEFAULT); ("addr", Prim U32, 0%nat, HEX);
   ("nbytes", Prim U32, 0%nat, HEX)].

Definition d_segment_reply : decl := prepare
  [("status", Prim U16, 0%nat, DEFAULT); ("sel", Prim U16, 0%nat, HEX);
   ("flags", Prim U16, 0%nat, HEX); ("addr", Prim U32, 0%nat, HEX);
   ("nbytes", Prim U32, 0%nat, HEX)].

Definition meta_proc_segment_alloc : Message := message "segment_alloc" 9 (Some 1)
  d_segment_request
  d_segment_reply.

Definition meta_proc_segment_realloc : Message := message "segment_realloc" 9 (Some 3)
  d_segment_request
  d_segment_reply.

Definition meta_proc_segment_free : Message := message "segment_free" 9 (Some 4)
  d_segment_request
  d_segment_reply.

Definition meta_proc_segment_flags : Message := message "segment_flags" 9 (Some 7)
  d_segment_request
  d_segment_reply.

Definition meta_proc_segment_global : Message := message "segment_global" 9 (Some 9)
  d_segment_request
  d_segment_reply.

Definition meta_proc_segment_arm : Message := message "segment_arm" 9 (Some 11)
  d_segment_request
  d_segment_reply.

Definition meta_proc_segment_put : Message := message "segment_put" 9 (Some 13)
  d_segment_request
  d_segment_reply.

Definition meta_proc_segment_priv : Message := message "segment_priv" 9 (Some 17)
  d_segment_request
  d_segment_reply.

Definition meta_proc_time : Message := message "time" 14 None
  (inline false
    [("padd", Prim U16, 0%nat, DEFAULT); ("seconds", Prim U32, 0%nat, DEFAULT);
     ("nsec", Prim U32, 0%nat, DEFAULT)])
  (prepare
    [("status", Prim U16, 0%nat, DEFAULT); ("padd", Prim U16, 0%nat, DEFAULT);
     ("seconds", Prim U32, 0%nat, DEFAULT); ("nsec", Prim U32, 0%nat, DEFAULT)]).

Definition meta_proc_proc_flags : Message := message "proc_flags" 15 None
  (inline false
    [("padd", Prim U16, 0%nat, DEFAULT); ("mask", Prim U32, 0%nat, DEFAULT);
     ("bits", Prim U32, 0%nat, DEFAULT)])
  (prepare
    [("status", Prim U16, 0%nat, DEFAULT); ("padd", Prim U16, 0%nat, DEFAULT);
     ("old_bits", Prim U16, 0%nat, DEFAULT); ("new_bits", Prim U16, 0%nat, DEFAULT)]).

Definition meta_proc_terminate : Message := message "terminate" 24 None
  (inline false
    [("signum", Prim U16, 0%nat, DEFAULT); ("status", Prim U32, 0%nat, DEFAULT)])
  (prepare []).

Definition meta_proc_open : Message := message "open" 25 None
  (inline false
    [("open", Ref d_open, 0%nat, DEFAULT); ("file", Prim PATH, 0%nat, DEFAULT)])
  (prepare
    [("status", Prim U16, 0%nat, DEFAULT); ("open", Ref d_open, 0%nat, DEFAULT);
     ("file", Prim PATH, 0%nat, DEFAULT)]).

Definition d_fd_request : decl := prepare
  [("type", Prim U16, 0%nat, HEX); ("subtype", Prim U16, 0%nat, HEX);
   ("fd", Prim FD, 0%nat, DEFAULT); ("owner_pid", Prim PID, 0%nat, DEFAULT);
   ("zero1", Prim U16, 0%nat, DEFAULT); ("nid", Prim NID, 0%nat, DEFAULT);
   ("pid", Prim PID, 0%nat, DEFAULT); ("zero2", Prim U16, 0%nat, DEFAULT);
   ("vid", Prim PID, 0%nat, DEFAULT); ("zero3", Prim U16, 0%nat, DEFAULT);
   ("flags", Prim U16, 0%nat, DEFAULT); ("handle", Prim U16, 0%nat, DEFAULT);
   ("zero4", Prim U16, 0%nat, DEFAULT)].

Definition d_fd_reply1 : decl := prepare
  [("status", Prim U16, 0%nat, DEFAULT); ("fd", Prim FD, 0%nat, DEFAULT);
   ("padd", Prim U16, 0%nat, DEFAULT); ("padd", Prim U16, 0%nat, DEFAULT)].

Definition d_fd_entry : decl := prepare
  [("nid", Prim NID, 0%nat, DEFAULT); ("pid", Prim PID, 0%nat, DEFAULT);
   ("padd", Prim U16, 0%nat, DEFAULT); ("vid", Prim PID, 0%nat, DEFAULT);
   ("padd", Prim U16, 0%nat, DEFAULT); ("handle", Prim U16, 0%nat, DEFAULT);
   ("flags", Prim U16, 0%nat, DEFAULT)].

Definition meta_proc_fd_attach : Message := message "fd_attach" 22 (Some 0)
  d_fd_request
  d_fd_reply1.

Definition meta_proc_fd_detach : Message := message "fd_detach" 22 (Some 1)
  d_fd_request
  d_fd_reply1.

Definition meta_proc_fd_query : Message := message "fd_query" 22 (Some 2)
  d_fd_request
  (prepare
    [("status", Prim U16, 0%nat, DEFAULT); ("info", Ref d_fd_entry, 0%nat, DEFAULT);
     ("fd", Prim U16, 0%nat, DEFAULT)]).

Definition meta_proc_fd_action1 : Message := message "fd_action1" 22 (Some 4)
  d_fd_request
  (prepare
    [("status", Prim U16, 0%nat, DEFAULT); ("padd", Prim U16, 0%nat, DEFAULT);
     ("padd", Prim U16, 0%nat, DEFAULT)]).

Definition d_vc : decl := prepare
  [("type", Prim U16, 0%nat, DEFAULT); ("flags", Prim U16, 0%nat, DEFAULT);
   ("nid", Prim NID, 0%nat, DEFAULT); ("pid", Prim PID, 0%nat, DEFAULT);
   ("padd", Prim U16, 0%nat, DEFAULT); ("length", Prim U16, 0%nat, DEFAULT)].

Definition meta_proc_vc_attach : Message := message "vc_attach" 31 None
  d_vc
  (prepare
    [("status", Prim U16, 0%nat, DEFAULT); ("pid", Prim U16, 0%nat, DEFAULT)]).

Definition meta_proc_vc_detach : Message := message "vc_detach" 32 None
  d_vc
  d_vc.

Definition meta_proc_psinfo : Message := message "psinfo" 34 None
  (inline false
    [("pid", Prim PID, 0%nat, DEFAULT); ("padd", Prim U16, 0%nat, DEFAULT);
     ("memindex", Prim U16, 0%nat, DEFAULT)])
  (prepare
    [("status", Prim U16, 0%nat, DEFAULT)]).

Definition d_signal_request : decl := prepare
  [("type", Prim U16, 0%nat, DEFAULT); ("subtype", Prim U16, 0%nat, DEFAULT);
   ("signum", Prim U16, 0%nat, DEFAULT); ("pid", Prim PID, 0%nat, DEFAULT);
   ("padd", Prim U16, 0%nat, DEFAULT); ("mask", Prim U32, 0%nat, HEX);
   ("bits", Prim U32, 0%nat, HEX); ("offset", Prim U32, 0%nat, HEX);
   ("segment", Prim U16, 0%nat, HEX)].

Definition d_signal_reply : decl := prepare
  [("status", Prim U16, 0%nat, DEFAULT); ("padd", Prim U16, 0%nat, DEFAULT);
   ("old_bits", Prim U32, 0%nat, HEX); ("new_bits", Prim U32, 0%nat, HEX)].

Definition meta_proc_sigtab : Message := message "sigtab" 8 (Some 0)
  d_signal_request
  d_signal_reply.

Definition meta_proc_sigmask : Message := message "sigmask" 8 (Some 2)
  d_signal_request
  d_signal_reply.

Definition meta_proc_sigraise : Message := message "sigraise" 8 (Some 3)
  d_signal_request
  d_signal_reply.

Definition meta_proc_sigpending : Message := message "sigpending" 8 (Some 4)
  d_signal_request
  d_signal_reply.

Definition meta_proc_sigact : Message := message "sigact" 8 (Some 5)
  d_signal_request
  d_signal_reply.

Definition meta_proc_sigsuspend : Message := message "sigsuspend" 8 (Some 6)
  d_signal_request
  d_signal_reply.

Definition meta_proc_getid : Message := message "getid" 12 (Some 0x0)
  (inline true [])
  (prepare
    [("status", Prim U16, 0%nat, DEFAULT); ("padd", Prim U16, 0%nat, DEFAULT);
     ("padd", Prim U16, 0%nat, DEFAULT); ("pid", Prim U16, 0%nat, DEFAULT);
     ("padd", Prim U16, 0%nat, DEFAULT); ("ppid", Prim U16, 0%nat, DEFAULT);
     ("pid_group", Prim U16, 0%nat, DEFAULT); ("padd", Prim U16, 0%nat, DEFAULT);
     ("flags", Prim U32, 0%nat, DEFAULT); ("rgid", Prim U16, 0%nat, DEFAULT);
     ("ruid", Prim U16, 0%nat, DEFAULT); ("egid", Prim U16, 0%nat, DEFAULT);
     ("euid", Prim U16, 0%nat, DEFAULT)]).

Definition meta_proc_osinfo : Message := message "osinfo" 23 None
  (inline false [])
  (prepare
    [("status", Prim U16, 0%nat, DEFAULT)]).

Definition meta_proc_prefix : Message := message "prefix" 26 (Some 2)
  (inline true
    [("unit", Prim U16, 0%nat, DEFAULT); ("replace", Prim U16, 0%nat, DEFAULT);
     ("padd", Prim U32, 0%nat, DEFAULT); ("path", Prim PATH, 0%nat, DEFAULT)])
  (prepare
    [("status", Prim U16, 0%nat, DEFAULT); ("prefix", Prim PATH, 0%nat, DEFAULT)]).

Definition d_session_request : decl := prepare
  [("type", Prim U16, 0%nat, DEFAULT); ("subtype", Prim U16, 0%nat, DEFAULT);
   ("sid", Prim U16, 0%nat, DEFAULT); ("padd", Prim U16, 0%nat, DEFAULT);
   ("padd", Prim U16, 0%nat, DEFAULT); ("padd", Prim U16, 0%nat, DEFAULT);
   ("name", Prim CHAR, 17%nat, DEFAULT)].

Definition d_session_reply : decl := prepare
  [("status", Prim U16, 0%nat, DEFAULT); ("padd", Prim U16, 0%nat, DEFAULT);
   ("pid", Prim PID, 0%nat, DEFAULT); ("padd", Prim U16, 0%nat, DEFAULT);
   ("sid", Prim U16, 0%nat, DEFAULT); ("padd", Prim U16, 0%nat, DEFAULT);
   ("links", Prim U16, 0%nat, DEFAULT); ("padd", Prim U32, 0%nat, DEFAULT);
   ("name", Prim CHAR, 15%nat, DEFAULT); ("tty_name", Prim CHAR, 32%nat, DEFAULT)].

Definition meta_proc_sid_query : Message := message "sid_query" 40 (Some 2)
  d_session_request
  d_session_reply.

Definition meta_proc_sid_set : Message := message "sid_set" 40 (Some 0)
  d_session_request
  d_session_reply.

Definition d_sem : decl := prepare
  [("semid", Prim U16, 0%nat, DEFAULT); ("seg", Prim U16, 0%nat, HEX);
   ("addr", Prim U32, 0%nat, HEX); ("padd", Prim U32, 0%nat, DEFAULT);
   ("padd", Prim U32, 0%nat, DEFAULT)].

Definition meta_proc_sem_init : Message := message "sem_init" 0x2c (Some 0)
  (inline true
    [("sem", Ref d_sem, 0%nat, DEFAULT)])
  (prepare
    [("status", Prim U16, 0%nat, DEFAULT); ("zero", Prim U16, 0%nat, DEFAULT);
     ("sem", Ref d_sem, 0%nat, DEFAULT)]).

Definition meta_proc_sem_destroy : Message := message "sem_destroy" 0x2c (Some 1)
  (inline true
    [("sem", Ref d_sem, 0%nat, DEFAULT)])
  (prepare
    [("status", Prim U16, 0%nat, DEFAULT); ("zero", Prim U16, 0%nat, DEFAULT);
     ("sem", Ref d_sem, 0%nat, DEFAULT)]).

(** ** The lists *)

Definition io_list : list Message :=
  [meta_io_io_open; meta_io_close; meta_io_handle; meta_io_rename; meta_io_chdir; meta_io_read;
   meta_io_write; meta_io_lseek; meta_io_stat; meta_io_fstat; meta_io_readdir; meta_io_rewinddir;
   meta_io_fcntl_flags; meta_io_dup; meta_io_fpathconf; meta_io_chmod; meta_io_chown;
   meta_io_utime; meta_io_ioctl; meta_io_qioctl; meta_io_lock].

Definition fsys_list : list Message :=
  [meta_fsys_unlink; meta_fsys_mkspecial; meta_fsys_link; meta_fsys_disk_entry; meta_fsys_sync;
   meta_fsys_trunc; meta_fsys_readlink; meta_fsys_fsync; meta_fsys_fdinfo; meta_fsys_get_mount;
   meta_fsys_disk_space; meta_fsys_pipe].

Definition dev_list : list Message :=
  [meta_dev_tcgetattr; meta_dev_tcsetattr; meta_dev_tcgetpgrp; meta_dev_tcsetpgrp;
   meta_dev_dev_info; meta_dev_dev_fdinfo; meta_dev_term_size; meta_dev_tcdrain; meta_dev_tcflush;
   meta_dev_read; meta_dev_insert_chars; meta_dev_mode].

Definition proc_list : list Message :=
  [meta_proc_slib_register; meta_proc_spawn; meta_proc_exec; meta_proc_fork; meta_proc_setpgid;
   meta_proc_name_attach; meta_proc_timer_create; meta_proc_timer_settime; meta_proc_timer_alarm;
   meta_proc_wait; meta_proc_segment_alloc; meta_proc_segment_realloc; meta_proc_segment_free;
   meta_proc_segment_flags; meta_proc_segment_global; meta_proc_segment_arm; meta_proc_segment_put;
   meta_proc_segment_priv; meta_proc_time; meta_proc_proc_flags; meta_proc_terminate;
   meta_proc_open; meta_proc_fd_attach; meta_proc_fd_detach; meta_proc_fd_query;
   meta_proc_fd_action1; meta_proc_vc_attach; meta_proc_vc_detach; meta_proc_psinfo;
   meta_proc_sigtab; meta_proc_sigmask; meta_proc_sigraise; meta_proc_sigpending; meta_proc_sigact;
   meta_proc_sigsuspend; meta_proc_getid; meta_proc_osinfo; meta_proc_prefix; meta_proc_sid_query;
   meta_proc_sid_set; meta_proc_sem_init; meta_proc_sem_destroy].

Definition all_messages : list Message := io_list ++ fsys_list ++ dev_list ++ proc_list.

(** ** Agreement with the structures *)

(** The C++ type of a field that is not a structure. *)
Definition leaf_type (f : Format) (a : nat) : ftype :=
  match f with
  | CHAR => TBytes (Nat.max 1 a) | PATH => TBytes 256 | STDFDS => TBytes 10
  | I8 => TInt true 1 | I16 | PID | FD => TInt true 2 | I32 | NID | TIME => TInt true 4
  | U8 => TInt false 1 | U16 => TInt false 2 | U32 => TInt false 4
  | SUB | TERMIOS => TBytes 0
  end.

(** The fields of a structure where they lie. *)
Fixpoint placed (L : layout) (off : nat) : list (string * nat * ftype) :=
  match L with [] => [] | (n, t) :: L => (n, off, t) :: placed L (off + ft_size t) end.

(** The fields of a description, structures opened, with absolute offsets. *)
Fixpoint leaves (prefix : string) (off : nat) (t : Struct) : list (string * nat * ftype) :=
  match t with
  | mkStruct fs _ =>
      (fix go (fs : list Field) :=
         match fs with
         | [] => []
         | mkField n o _ f _ r a :: fs =>
             let name := String.append prefix n in
             (match f, r with
              | SUB, Some t => leaves (String.append name ".") (off + o)%nat t
              | TERMIOS, _ => placed (sub name QnxMsg.s_termios) (off + o)
              | _, _ => [(name, (off + o)%nat, leaf_type f a)]
              end ++ go fs)%list
         end) fs
  end.

Definition describes (t : Struct) (L : layout) : Prop :=
  leaves EmptyString 0 t = placed L 0 /\ m_size t = sizeof L.

(** The description [d] tells of the message [m]. *)
Definition agrees (d : Message) (m : Layout.Message) : Prop :=
  m_type d = TYPE m /\ SUBTYPE m = (if m_has_subtype d then Some (m_subtype d) else None) /\
  describes (m_request d) (request m) /\ describes (m_reply d) (reply m).

(** The names of the messages of a list are distinct, as the generator checks. *)
Definition distinct (l : list Message) : Prop := NoDup (m_name <$> l).

(** The descriptions tell of exactly the messages the handlers use, in order: the
    same types and subtypes, and for requests and replies every field, structures
    opened, under its name, at the offset at which the handlers find it and with
    its C++ type. *)
Theorem descriptions_agree :
  Forall2 agrees io_list QnxMsg.io_list /\ Forall2 agrees fsys_list QnxMsg.fsys_list /\
  Forall2 agrees dev_list QnxMsg.dev_list /\ Forall2 agrees proc_list QnxMsg.proc_list /\
  Forall distinct [io_list; fsys_list; dev_list; proc_list].
Proof.
  split; [|split; [|split; [|split]]]; try (repeat constructor; vm_compute; reflexivity).
  repeat constructor; apply (bool_decide_unpack _); vm_compute; exact I.
Qed.

End Meta.
