(* ===== verification/Magic.v ===== *)
(** * Magic: the magic areas, [qnx/magic.h] and [qnx/types.h]

    The areas through which a program finds its process data.  Unlike the
    messages they are not packed: members lie at the next multiple of their
    alignment and the size is a multiple of the largest one.  On the host, an
    amd64, an integer's alignment is its size, and a guest's pointer is a
    [uint32_t]; a packed member has alignment 1. *)

From S2P Require Import Prelude Layout QnxMsg.

(** ** Natural alignment *)

(** A member: its name, its alignment and its type. *)
Definition member : Type := string * nat * ftype.

Definition padding (off a : nat) : nat := ((a - off mod a) mod a)%nat.

(** Unused bytes in front of a member whose offset is not aligned. *)
Definition pad_to (off a : nat) : layout :=
  match padding off a with O => [] | n => [(EmptyString, TBytes n)] end.

Fixpoint place_members (off top : nat) (ms : list member) : layout :=
  match ms with
  | [] => pad_to off top
  | (f, a, t) :: ms =>
      pad_to off a ++ (f, t) :: place_members (off + padding off a + ft_size t) top ms
  end.

Definition largest (ms : list member) : nat := foldr (fun '(_, a, _) n => Nat.max a n) 1%nat ms.

(** A structure without [packed]. *)
Definition natural (ms : list member) : layout := place_members 0 (largest ms) ms.

(** ** Members *)

Definition int_ (f : string) (t : ftype) : member := (f, ft_size t, t).
Definition ptr (f : string) : member := int_ f u32_.
Definition far16 (f : string) : member := (f, 2%nat, TBytes 4).

(** [struct mxfer_entry] and [struct mxfer_entry16], packed. *)
Definition s_mxfer_entry : layout :=
  [("mxfer_off", u32_); ("mxfer_seg", u16_); ("mxfer_zero", u16_); ("mxfer_len", u32_)].
Definition s_mxfer_entry16 : layout :=
  [("mxfer_off", u16_); ("mxfer_zero", u16_); ("mxfer_seg", u16_); ("mxfer_len", u16_)].

Definition packed (f : string) (S : layout) : member := (f, 1%nat, TBytes (sizeof S)).

(** ** The areas *)

Definition s_magic : layout := natural
  [int_ "my_pid" i16_; int_ "zero0" i16_; int_ "dads_pid" i16_; int_ "zero1" i16_;
   int_ "my_nid" i32_; int_ "Errno" i32_; int_ "my_tid" i16_; int_ "zero2" i16_;
   ("zero4", 4%nat, TBytes 20); ptr "sptrs"; ptr "sigtab"; ptr "cmd"; ptr "cwd"; ptr "root_prefix";
   ptr "termst"; ptr "kernel_emt"; ptr "qw"; int_ "_cs" i32_; ptr "_efgfmt"; ptr "errno_ptr";
   ("unknown_sptrs", 4%nat, TBytes 36); packed "xmsg" s_mxfer_entry;
   packed "msg" (request msg_proc_terminate); ("fpsave", 1%nat, TBytes 1)].

Definition s_magic16 : layout := natural
  [int_ "Errno" u16_; int_ "my_pid" i16_; int_ "dads_pid" i16_; int_ "zero1" u16_;
   int_ "my_nid" i32_; int_ "dgroup" u16_; ("zero2", 2%nat, TBytes 4); int_ "my_tid" u16_;
   far16 "malloc"; far16 "realloc"; far16 "free"; far16 "getenv"; far16 "calloc";
   ("sptrs", 2%nat, TBytes 80); packed "xmsg" s_mxfer_entry16; int_ "xmsg_pad" u32_;
   packed "msg" (request msg_proc_terminate); ("fpsave", 1%nat, TBytes 1)].

Definition sizeof_magic : Z := Z.of_nat (sizeof s_magic).
Definition sizeof_magic16 : Z := Z.of_nat (sizeof s_magic16).

(** The entry of [sptrs] for the shared library's entry point. *)
Definition SPTRS16_SLIB16PTR : Z := 0.

(** The spawn message in front of the arguments. *)
Definition sizeof_spawn : Z := Z.of_nat (sizeof s_spawn).
Definition off_argc : Z := Z.of_nat (offset_of s_spawn "argc").
Definition off_envc : Z := Z.of_nat (offset_of s_spawn "envc").
Definition spawn_TYPE : Z := TYPE msg_proc_spawn.

(** ** Alignment *)

Lemma padding_aligned off a : (0 < a)%nat -> (a | off + padding off a)%nat.
Proof.
  intros Ha. unfold padding. pose proof (Nat.mod_upper_bound off a ltac:(lia)) as Hm.
  pose proof (Nat.div_mod_eq off a) as Hd.
  destruct (decide (off mod a = 0)%nat) as [E|E].
  - rewrite E, Nat.sub_0_r, Nat.Div0.mod_same. exists (off / a)%nat. lia.
  - rewrite Nat.mod_small by lia. exists (off / a + 1)%nat. lia.
Qed.

Lemma padding_least off a : (0 < a)%nat -> (padding off a < a)%nat.
Proof. intros Ha. unfold padding. apply Nat.mod_upper_bound. lia. Qed.

Lemma sizeof_app L L' : sizeof (L ++ L') = (sizeof L + sizeof L')%nat.
Proof. induction L as [|[f t] L IH]; simpl; lia. Qed.

Lemma sizeof_pad off a : sizeof (pad_to off a) = padding off a.
Proof. unfold pad_to. destruct (padding off a) eqn:E; simpl; lia. Qed.

Lemma locate_pad L off f n a : f <> EmptyString ->
  locate (pad_to n a ++ L) off f = locate L (off + padding n a) f.
Proof.
  intros Hf. unfold pad_to. destruct (padding n a) as [|k]; simpl; [by rewrite Nat.add_0_r|].
  by destruct f.
Qed.

(** Every member lies at a multiple of its alignment. *)
Lemma members_aligned ms off top f o t :
  f <> EmptyString -> Forall (fun '(_, a, _) => (0 < a)%nat) ms ->
  locate (place_members off top ms) off f = Some (o, t) ->
  exists a, (f, a, t) ∈ ms /\ (a | o)%nat.
Proof.
  intros Hf. revert off. induction ms as [|[[g a] u] ms IH]; intros off Hms; simpl.
  - intros H. rewrite <- (app_nil_r (pad_to off top)), locate_pad in H by done. done.
  - apply Forall_cons in Hms as [Ha Hms]. rewrite locate_pad by done. simpl.
    destruct (String.eqb_spec g f) as [->|_].
    + intros [= <- <-]. exists a. split; [left|by apply padding_aligned].
    + intros H. destruct (IH _ Hms H) as (b & Hb & Hd). exists b. split; [by right|done].
Qed.

(** The whole size is a multiple of the largest alignment. *)
Lemma place_members_size ms off top : (0 < top)%nat ->
  (top | off + sizeof (place_members off top ms))%nat.
Proof.
  intros Htop. revert off. induction ms as [|[[g a] u] ms IH]; intros off; simpl.
  - rewrite sizeof_pad. by apply padding_aligned.
  - rewrite sizeof_app, sizeof_pad. simpl.
    replace (off + _)%nat with (off + padding off a + ft_size u
      + sizeof (place_members (off + padding off a + ft_size u) top ms))%nat by lia.
    apply IH.
Qed.

(** The offsets the source names, and those the rest of the development uses. *)
Lemma magic_offsets :
  offset_of s_magic <$> ["my_pid"; "dads_pid"; "my_nid"; "Errno"; "zero4"; "sptrs"]
    = [0; 4; 8; 12; 20; 40]%nat /\
  offset_of s_magic16 <$> ["my_pid"; "dads_pid"; "my_nid"; "sptrs"] = [2; 4; 8; 40]%nat /\
  sizeof_magic = 144 /\ sizeof_magic16 = 144.
Proof. by vm_compute. Qed.
