(* ===== verification/Process.v ===== *)
(** * Process: [process.h], [process.cpp], [qnx/magic.h]

    The emulated process: loading the executable and the system libraries, and
    building the state the guest starts in - registers, magic area, time
    segment, the spawn message with the argument and environment strings on the
    startup heap, and, for 32-bit programs, the argument block on the stack.
    The sizes of the structures that contain generated message types are
    parameters, as are the kernel and the contents of files. *)

From S2P Require Import Prelude Types Memory CmdOpts PathMapper PidMap Segment AddressSpace Msg GuestContext Loader Magic.

Record Process := mkProcess {
  p_guest : Guest;
  p_space : Space;
  p_load_exec : LoadInfo;
  p_load_slib : LoadInfo;
  p_slib_entry : Z;
  p_bits : Bitness;
  p_interpreter : InterpreterInfo;
  p_executed_file : PathInfo;
  p_paths : PathMapper;
  p_pids : PidMap;
  p_my_pid : Z;
  p_parent_pid : Z;
  (* [m_magic], [m_magic16]: not initialised by the constructor *)
  p_magic : option Z;
  p_magic16 : option Z;
  p_magic_guest_pointer : FarPointer;
  p_time_segment : nat;
  p_time_selector : Z;
  (* the [StartupSbrk] of [setup_startup_context] and its segment *)
  p_alloc : Sbrk;
  p_data : nat
}.

Definition set_guest (g : Guest) (p : Process) : Process :=
  mkProcess g (p_space p) (p_load_exec p) (p_load_slib p) (p_slib_entry p) (p_bits p) (p_interpreter p)
    (p_executed_file p) (p_paths p) (p_pids p) (p_my_pid p) (p_parent_pid p) (p_magic p) (p_magic16 p)
    (p_magic_guest_pointer p) (p_time_segment p) (p_time_selector p) (p_alloc p) (p_data p).
Definition set_space (s : Space) (p : Process) : Process :=
  mkProcess (p_guest p) s (p_load_exec p) (p_load_slib p) (p_slib_entry p) (p_bits p) (p_interpreter p)
    (p_executed_file p) (p_paths p) (p_pids p) (p_my_pid p) (p_parent_pid p) (p_magic p) (p_magic16 p)
    (p_magic_guest_pointer p) (p_time_segment p) (p_time_selector p) (p_alloc p) (p_data p).
Definition set_exec (li : LoadInfo) (b : Bitness) (ii : InterpreterInfo) (f : PathInfo) (p : Process) : Process :=
  mkProcess (p_guest p) (p_space p) li (p_load_slib p) (p_slib_entry p) b ii
    f (p_paths p) (p_pids p) (p_my_pid p) (p_parent_pid p) (p_magic p) (p_magic16 p)
    (p_magic_guest_pointer p) (p_time_segment p) (p_time_selector p) (p_alloc p) (p_data p).
Definition set_slib (li : LoadInfo) (entry : Z) (p : Process) : Process :=
  mkProcess (p_guest p) (p_space p) (p_load_exec p) li entry (p_bits p) (p_interpreter p)
    (p_executed_file p) (p_paths p) (p_pids p) (p_my_pid p) (p_parent_pid p) (p_magic p) (p_magic16 p)
    (p_magic_guest_pointer p) (p_time_segment p) (p_time_selector p) (p_alloc p) (p_data p).
Definition set_pids (m : PidMap) (my parent : Z) (p : Process) : Process :=
  mkProcess (p_guest p) (p_space p) (p_load_exec p) (p_load_slib p) (p_slib_entry p) (p_bits p)
    (p_interpreter p) (p_executed_file p) (p_paths p) m my parent (p_magic p) (p_magic16 p)
    (p_magic_guest_pointer p) (p_time_segment p) (p_time_selector p) (p_alloc p) (p_data p).
Definition set_magic (a a16 : option Z) (fp : FarPointer) (p : Process) : Process :=
  mkProcess (p_guest p) (p_space p) (p_load_exec p) (p_load_slib p) (p_slib_entry p) (p_bits p)
    (p_interpreter p) (p_executed_file p) (p_paths p) (p_pids p) (p_my_pid p) (p_parent_pid p) a a16
    fp (p_time_segment p) (p_time_selector p) (p_alloc p) (p_data p).
Definition set_time (r : nat) (sel : Z) (p : Process) : Process :=
  mkProcess (p_guest p) (p_space p) (p_load_exec p) (p_load_slib p) (p_slib_entry p) (p_bits p)
    (p_interpreter p) (p_executed_file p) (p_paths p) (p_pids p) (p_my_pid p) (p_parent_pid p)
    (p_magic p) (p_magic16 p) (p_magic_guest_pointer p) r sel (p_alloc p) (p_data p).
Definition set_alloc (b : Sbrk) (r : nat) (p : Process) : Process :=
  mkProcess (p_guest p) (p_space p) (p_load_exec p) (p_load_slib p) (p_slib_entry p) (p_bits p)
    (p_interpreter p) (p_executed_file p) (p_paths p) (p_pids p) (p_my_pid p) (p_parent_pid p)
    (p_magic p) (p_magic16 p) (p_magic_guest_pointer p) (p_time_segment p) (p_time_selector p) b r.

Definition set_paths (m : PathMapper) (p : Process) : Process :=
  mkProcess (p_guest p) (p_space p) (p_load_exec p) (p_load_slib p) (p_slib_entry p) (p_bits p)
    (p_interpreter p) (p_executed_file p) m (p_pids p) (p_my_pid p) (p_parent_pid p)
    (p_magic p) (p_magic16 p) (p_magic_guest_pointer p) (p_time_segment p) (p_time_selector p) (p_alloc p)
    (p_data p).

(** ** Reaching the parts of the process *)

Definition on_guest {A} (op : Translation -> M Guest A) : M Process A := fun p =>
  let '(g, r) := op (space_translation (p_space p)) (p_guest p) in (set_guest g p, r).

Definition on_space {A} (op : M Space A) : M Process A := fun p =>
  let '(s, r) := op (p_space p) in (set_space s p, r).

Definition put_segment (r : nat) (s : Segment) (sp : Space) : Space :=
  mkSpace (<[r := s]> (segs sp)) (next_seg sp) (m_segments sp) (m_segment_descriptors sp) (ldt sp).

Definition on_segment {A} (r : nat) (op : M Segment A) : M Process A := fun p =>
  match segs (p_space p) !! r with
  | None => (p, Throw (Undefined "segment"))
  | Some s => let '(s', o) := op s in (set_space (put_segment r s' (p_space p)) p, o)
  end.

(** A method of the [StartupSbrk]. *)
Definition on_sbrk {A} (op : M SbrkState A) : M Process A := fun p =>
  match segs (p_space p) !! p_data p with
  | None => (p, Throw (Undefined "segment"))
  | Some s =>
      let '(st, o) := op (mkSbrkState (p_alloc p) s (g_mem (p_guest p))) in
      (set_alloc (sb st) (p_data p)
         (set_space (put_segment (p_data p) (sb_seg st) (p_space p))
            (set_guest (set_gmem (sb_mem st) (p_guest p)) p)), o)
  end.

Definition host_store (a : Z) (bs : list Z) : M Process unit :=
  modify (fun p => set_guest (set_gmem (store (g_mem (p_guest p)) a bs) (p_guest p)) p).

Definition greg_set (r : Reg) (v : Z) : M Process unit := on_guest (fun _ => set_reg r v).

(** ** Pids *)

Definition pid_of (p : Process) (q : Z) : outcome Z := e ← deref (p_pids p) q; Ok (q_qnx_pid e).
Definition pid : M Process Z := p ← get; lift (pid_of p (p_my_pid p)).
Definition parent_pid : M Process Z := p ← get; lift (pid_of p (p_parent_pid p)).
Definition nid : Z := 1.

Definition magic_ptr (m : option Z) : M Process Z :=
  match m with Some a => mret a | None => throw (Undefined "m_magic") end.

(** [my_pid], [dads_pid] and [my_nid] of the magic area, at their offsets. *)
Definition write_pids (a o_my o_dads o_nid : Z) : M Process unit :=
  my ← pid;
  _ ← host_store (a + o_my) (le_bytes 2 my);
  dads ← parent_pid;
  _ ← host_store (a + o_dads) (le_bytes 2 dads);
  host_store (a + o_nid) (le_bytes 4 nid).

(** [m_magic] is the 32-bit magic area, whatever the program. *)
Definition update_pids_after_fork (new_pid : Z) : M Process unit :=
  p ← get;
  let '(m, r) := alloc_related_pid new_pid SELF (p_pids p) in
  _ ← put (set_pids m (p_my_pid p) (p_my_pid p) p);
  my ← lift r;
  match my with
  | None => throw (Undefined "null pointer")
  | Some my =>
      _ ← modify (fun p => set_pids (p_pids p) my (p_parent_pid p) p);
      a ← magic_ptr (p_magic p);
      write_pids a 0 4 8
  end.

Definition slib_loaded (p : Process) : bool := negb (p_slib_entry p =? 0).

Definition set_errno (v : Z) : M Process unit :=
  p ← get; a ← magic_ptr (p_magic p); host_store (a + 12) (le_bytes 4 v).

(** ** The startup state *)

Section Startup.
Context (mmap : Z -> Z -> Z -> Z -> option Z) (modify_ldt : user_desc -> bool).
(** [environ] and the working directory. *)
Context (environ : list cstring) (getcwd : cstring).

Definition sbrk_align_ : M Process unit := on_sbrk (sbrk_align mmap).
Definition sbrk_alloc_ (n : Z) : M Process unit := on_sbrk (sbrk_alloc mmap n).
Definition sbrk_offset_ : M Process Z := gets (fun p => sb_last_offset (p_alloc p)).
Definition sbrk_ptr_ : M Process Z := on_sbrk (st ← get; lift (sbrk_ptr st)).

(** The pages of the magic area and of its pointer segment. *)
Definition magic_area (size ptr_size : Z) (data_sd : Descriptor)
    (fill : Z -> FarPointer -> M Process unit) : M Process nat :=
  _ ← sbrk_align_;
  _ ← sbrk_alloc_ size;
  off ← sbrk_offset_;
  let guest := far_pointer data_sd off in
  a ← sbrk_ptr_;
  _ ← fill a guest;
  seg ← on_space allocate_segment;
  _ ← on_segment seg (reserve mmap MemOps.PAGE_SIZE);
  _ ← on_segment seg (grow_bytes mmap ptr_size);
  mret seg.

Definition publish_magic (seg : nat) : M Process unit :=
  _ ← on_space (create_segment_descriptor_at modify_ldt READ_ONLY seg B32 (sel_to_id MAGIC_PTR_SELECTOR));
  mret ().

(** [v], [v + 1], ... at [a], [a + step], ... *)
Fixpoint fill_words (n : nat) (w : nat) (step a v : Z) : M Process unit :=
  match n with
  | O => mret ()
  | S n => _ ← host_store a (le_bytes w v); fill_words n w step (a + step) (v + 1)
  end.

Definition far_pointer_bytes (fp : FarPointer) : list Z :=
  le_bytes 4 (m_offset fp) ++ le_bytes 2 (m_segment fp).
Definition far_pointer16_bytes (fp : FarPointer16) : list Z :=
  le_bytes 2 (m_offset16 fp) ++ le_bytes 2 (m_segment16 fp).

Definition setup_magic (data_sd : Descriptor) : M Process unit :=
  seg ← magic_area sizeof_magic 8 data_sd
          (fun a guest => modify (fun p => set_magic (Some a) (p_magic16 p) guest p));
  _ ← on_segment seg make_shared;
  q ← on_segment seg (s ← get; lift (pointer s 0 8));
  p ← get;
  _ ← host_store q (far_pointer_bytes (p_magic_guest_pointer p));
  _ ← publish_magic seg;
  a ← magic_ptr (p_magic p);
  _ ← fill_words (Z.to_nat (sizeof_magic / 4)) 4 4 a 0xDEADBE00;
  write_pids a 0 4 8.

Definition setup_magic16 (data_sd : Descriptor) : M Process unit :=
  seg ← magic_area sizeof_magic16 6 data_sd
          (fun a guest => modify (fun p => set_magic (p_magic p) (Some a) guest p));
  q ← on_segment seg (s ← get; lift (pointer s 0 8));
  p ← get;
  _ ← host_store q (far_pointer16_bytes (FarPointer16_of (p_magic_guest_pointer p)));
  _ ← publish_magic seg;
  a ← magic_ptr (p_magic16 p);
  _ ← fill_words 20 2 4 (a + 42) 0xDEA0;
  _ ← write_pids a 2 4 8;
  host_store (a + 40 + 4 * SPTRS16_SLIB16PTR)
    (far_pointer16_bytes (mkFarPointer16 (cs (p_load_slib p)) (u16 (p_slib_entry p)))).

(** *** The 32-bit stack *)

Definition push_word (v : Z) : M Process unit := on_guest (fun _ => push_stack v).

Fixpoint push_words (vs : list Z) : M Process unit :=
  match vs with [] => mret () | v :: vs => _ ← push_word v; push_words vs end.

(** The terminator, then the block from its last element. *)
Definition push_pointer_block (block : list Z) : M Process unit :=
  _ ← push_word 0;
  push_words (rev block).

Definition push_stack_env (argv_offsets envp_offsets : list Z) : M Process unit :=
  _ ← push_word 0;
  _ ← push_word nid;
  ppid ← parent_pid;
  _ ← push_word ppid;
  mypid ← pid;
  _ ← push_word mypid;
  _ ← push_pointer_block envp_offsets;
  _ ← push_pointer_block argv_offsets;
  push_word (Z.of_nat (length argv_offsets)).

(** *** Strings *)

Definition push_string_ (s : cstring) : M Process Z :=
  _ ← on_sbrk (push_string mmap s);
  sbrk_offset_.

Fixpoint push_strings (l : list cstring) : M Process (list Z) :=
  match l with
  | [] => mret []
  | s :: l => o ← push_string_ s; os ← push_strings l; mret (o :: os)
  end.

Definition env_cwd_key : cstring := lit "__CWD=".
Definition env_pfx_key : cstring := lit "__PFX=".

(** The last entry with the key, or empty. *)
Definition env_find (key : cstring) : cstring :=
  foldl (fun acc e => if starts_with e key then e else acc) [] environ.

Definition plain_env : list cstring :=
  filter (fun e => starts_with e env_cwd_key = false /\ starts_with e env_pfx_key = false) environ.

(** The arguments the guest sees. *)
Definition guest_argv (p : Process) (argv : list cstring) : outcome (cstring * list cstring) :=
  let ii := p_interpreter p in
  if has_interpreter ii then
    let orig := qnx_path (original_executable ii) in
    let interp := qnx_path (interpreter ii) in
    Ok (orig, [interp] ++ (match interpreter_args ii with [] => [] | a => [a] end) ++ [orig]
                ++ drop 1 argv)
  else match argv with
       | [] => Throw (Undefined "argv[0]")
       | a :: rest => Ok (a, a :: rest)
       end.

(** The environment the guest sees: the other variables, the prefix, the
    working directory. *)
Definition guest_env (p : Process) : outcome (list cstring) :=
  let pfx := match env_find env_pfx_key with [] => lit "__PFX=//1" | e => e end in
  cwd ← (match env_find env_cwd_key with
         | [] => i ← map_path_to_qnx_s (p_paths p) getcwd false;
                 Ok (env_cwd_key ++ qnx_path i)
         | e => Ok e
         end);
  Ok (plain_env ++ [pfx; cwd]).

(** *** [setup_startup_context] *)

Definition startup_regs : M Process unit :=
  p ← get;
  let le := p_load_exec p in
  if (entry le =? 0) || (cs le =? 0) || (ds le =? 0)
  then throw (GuestStateException "Loading incomplete")
  else
    _ ← greg_set SS (ss le);
    _ ← greg_set CS (cs le);
    _ ← greg_set DS (ds le);
    _ ← greg_set ES (ds le);
    _ ← greg_set FS (ds le);
    _ ← greg_set ESP (stack_low le + stack_size le);
    _ ← greg_set EDX (stack_low le);
    mypid ← pid;
    greg_set EBP mypid.

Definition setup_time_segment : M Process unit :=
  seg ← on_space allocate_segment;
  _ ← on_segment seg (reserve mmap MemOps.PAGE_SIZE);
  _ ← on_segment seg (grow_bytes mmap sizeof_timesel);
  sd ← on_space (create_segment_descriptor modify_ldt READ_ONLY seg B32);
  modify (set_time seg (sd_id sd)).

(** The offsets of the arguments and of the environment strings. *)
Definition setup_spawn (argv : list cstring) : M Process (list Z * list Z) :=
  _ ← sbrk_align_;
  _ ← sbrk_alloc_ sizeof_spawn;
  spawn_off ← sbrk_offset_;
  _ ← greg_set EDI spawn_off;
  spawn ← sbrk_ptr_;
  _ ← host_store spawn (le_bytes 2 spawn_TYPE);
  p ← get;
  '(path, args) ← lift (guest_argv p argv);
  _ ← push_string_ path;
  argv_offsets ← push_strings args;
  _ ← push_string_ [];
  env ← lift (guest_env p);
  envp_offsets ← push_strings env;
  _ ← push_string_ [];
  _ ← host_store (spawn + off_argc) (le_bytes 2 (Z.of_nat (length argv_offsets)));
  _ ← host_store (spawn + off_envc) (le_bytes 2 (Z.of_nat (length envp_offsets)));
  _ ← sbrk_align_;
  mret (argv_offsets, envp_offsets).

Definition set_entry : M Process unit :=
  p ← get;
  let le := p_load_exec p in
  if negb (slib_loaded p) || bool_decide (p_bits p = B16)
  then _ ← greg_set CS (cs le); greg_set EIP (entry le)
  else
    _ ← greg_set CS (cs (p_load_slib p));
    _ ← greg_set EIP (p_slib_entry p);
    _ ← push_word (cs le);
    push_word (entry le).

Definition setup_startup_context (argv : list cstring) : M Process unit :=
  _ ← startup_regs;
  p ← get;
  match descriptor_by_selector (p_space p) (ss (p_load_exec p)) with
  | None => throw (GuestStateException
              "Guest does not seem to be loaded properly (no data segment)")
  | Some data_sd =>
      _ ← modify (set_alloc (StartupSbrk (heap_start (p_load_exec p))) (sd_seg data_sd));
      _ ← (match p_bits p with B16 => setup_magic16 data_sd | B32 => setup_magic data_sd end);
      _ ← setup_time_segment;
      '(argv_offsets, envp_offsets) ← setup_spawn argv;
      _ ← (match p_bits p with
           | B32 => push_stack_env argv_offsets envp_offsets
           | B16 => mret ()
           end);
      _ ← set_entry;
      _ ← on_space (update_descriptors modify_ldt data_sd);
      next ← gets (fun p => sb_offset (p_alloc p));
      _ ← greg_set EBX next;
      data_size ← on_segment (sd_seg data_sd) (gets Segment.size);
      greg_set ECX (data_size - next)
  end.

(** *** Loading *)

(** [open] and the contents of a file, [realpath]. *)
Context (mprotect : Z -> Z -> Z -> bool).
Context (open_file : cstring -> option (list Z)) (realpath : cstring -> option cstring).

(** [loader_load] on the process; the load information is the caller's. *)
Definition load_file (file : list Z) (slib : bool) (li : LoadInfo) : M Process LoadInfo := fun p =>
  let st := set_info li (LoaderState_new (p_space p) (g_mem (p_guest p))) in
  let '(st, r) := loader_load mmap mprotect modify_ldt file slib st in
  (set_guest (set_gmem (l_mem st) (p_guest p)) (set_space (l_space st) p),
   _ ← r; Ok (l_info st)).

(** The destinations of the option parser; [entry] is an uninitialised local. *)
Record lib_args := mkLibArgs { la_lib : cstring; la_entry : Z; la_sys : bool; la_sys16 : bool }.
Context (garbage : Z).

Definition lib_spec : CommandSpec lib_args :=
  mkCommandSpec
    [ String_ (fun v a => mkLibArgs v (la_entry a) (la_sys a) (la_sys16 a)) ]
    [ mkKwArg (lit "entry")
        (Integer (mkIntTy false 32) (fun v a => mkLibArgs (la_lib a) v (la_sys a) (la_sys16 a)) 0 (2 ^ 32 - 1));
      mkKwArg (lit "sys") (Flag (fun b a => mkLibArgs (la_lib a) (la_entry a) b (la_sys16 a)));
      mkKwArg (lit "sys16") (Flag (fun b a => mkLibArgs (la_lib a) (la_entry a) (la_sys a) b)) ].

Definition load_library (load_arg : cstring) : M Process unit :=
  let '(a, r) := parse load_arg lib_spec (mkLibArgs [] garbage false false) in
  _ ← lift r;
  let slib := la_sys a in
  let slib16 := la_sys16 a in
  if (slib || slib16) && (la_entry a =? 0)
  then throw (ConfigurationError "Entry point must be specified for slib")
  else
    p ← get;
    if (slib && bool_decide (p_bits p = B16)) || (slib16 && bool_decide (p_bits p = B32))
    then mret ()
    else
      match open_file (la_lib a) with
      | None => throw (LoaderFormatException "Failed to open library for loading")
      | Some file =>
          li ← load_file file true LoadInfo_new;
          if slib || slib16 then modify (set_slib li (la_entry a)) else mret ()
      end.

Definition set_original (o : PathInfo) (ii : InterpreterInfo) (interp : PathInfo) : InterpreterInfo :=
  mkInterpreterInfo (has_interpreter ii) interp (interpreter_args ii) o.

Definition load_executable (path : PathInfo) : M Process unit :=
  let hp := host_path path in
  match open_file hp with
  | None => throw (LoaderFormatException "Failed to open executable for loading")
  | Some file =>
      p ← get;
      ii ← lift (loader_check_interpreter file (p_interpreter p));
      '(ii, current_path) ←
        (if has_interpreter ii
         then i ← lift (map_path_to_host (p_paths p) (interpreter ii));
              let ii := set_original path ii i in mret (ii, i)
         else mret (ii, path));
      _ ← modify (fun p => set_exec (p_load_exec p) (p_bits p) ii (p_executed_file p) p);
      let chp := host_path current_path in
      match open_file chp with
      | None => throw (LoaderFormatException "Failed to open executable for loading")
      | Some file =>
          li ← load_file file false (p_load_exec p);
          _ ← modify (fun p => set_exec li (p_bits p) ii (p_executed_file p) p);
          match realpath chp with
          | None => throw (SystemError 0)
          | Some rp =>
              _ ← modify (fun p => set_exec li (bits li) ii (p_executed_file p) p);
              f ← lift (map_path_to_qnx_s (p_paths p) rp false);
              modify (fun p => set_exec li (bits li) ii f p)
          end
      end
  end.
End Startup.

(** ** The argument block *)

(** A guest operation on the process touches the guest only. *)
Lemma process_guest_run {A} (op : Translation -> M Guest A) p g r :
  op (space_translation (p_space p)) (p_guest p) = (g, r) -> on_guest op p = (set_guest g p, r).
Proof. unfold on_guest. by intros ->. Qed.

Lemma process_guest_id p : set_guest (p_guest p) p = p.
Proof. by destruct p. Qed.

Lemma push_words_all vs : forall p,
  push_words vs p = on_guest (fun T => push_all (T := T) vs) p.
Proof.
  induction vs as [|v vs IH]; intros p; cbn [push_words push_all].
  - symmetry. etransitivity; [by apply process_guest_run|]. by rewrite process_guest_id.
  - unfold push_word, on_guest, mbind, M_bind.
    destruct (push_stack v (p_guest p)) as [g [[]|e]]; [|done].
    rewrite IH. unfold on_guest. cbn [set_guest p_space p_guest].
    by destruct (push_all vs g).
Qed.

Lemma push_words_app vs ws p :
  push_words (vs ++ ws) p = (_ ← push_words vs; push_words ws) p.
Proof.
  revert p. induction vs as [|v vs IH]; intros p; [done|]. cbn [push_words app].
  unfold mbind, M_bind in *. destruct (push_word v p) as [p' [[]|e]]; [|done]. by rewrite IH.
Qed.

Lemma push_word_pids v p p' r : push_word v p = (p', r) ->
  p_pids p' = p_pids p /\ p_my_pid p' = p_my_pid p /\ p_parent_pid p' = p_parent_pid p.
Proof.
  unfold push_word, on_guest. destruct (push_stack v (p_guest p)) as [g o].
  intros H. apply (f_equal fst) in H. cbn [fst] in H. by subst p'.
Qed.

(** The words of the block, from the lowest address. *)
Definition startup_words (argv_offsets envp_offsets : list Z) (my dads : Z) : list Z :=
  [Z.of_nat (length argv_offsets)] ++ argv_offsets ++ [0] ++ envp_offsets ++ [0]
    ++ [my; dads; nid; 0].

Lemma push_stack_env_words argv envp p my dads :
  pid_of p (p_my_pid p) = Ok my -> pid_of p (p_parent_pid p) = Ok dads ->
  push_stack_env argv envp p = push_words (rev (startup_words argv envp my dads)) p.
Proof.
  intros Hm Hd. unfold startup_words. rewrite !rev_app_distr. cbn [rev app].
  rewrite <- !app_assoc. cbn [app push_words].
  unfold push_stack_env, push_pointer_block, parent_pid, pid, get, lift, mbind, M_bind.
  destruct (push_word 0 p) as [p1 [[]|e]] eqn:E1; [|done].
  apply push_word_pids in E1 as (A1 & A2 & A3).
  destruct (push_word nid p1) as [p2 [[]|e]] eqn:E2; [|done].
  apply push_word_pids in E2 as (B1 & B2 & B3).
  assert (Hpid : forall q q' : Process, p_pids q = p_pids q' -> forall x, pid_of q x = pid_of q' x).
  { intros q q' Hq x. unfold pid_of. by rewrite Hq. }
  rewrite (Hpid p2 p) by congruence. rewrite B3, A3, Hd.
  destruct (push_word dads p2) as [p3 [[]|e]] eqn:E3; [|done].
  apply push_word_pids in E3 as (C1 & C2 & C3).
  rewrite (Hpid p3 p) by congruence. rewrite C2, B2, A2, Hm.
  destruct (push_word my p3) as [p4 [[]|e]]; [|done].
  destruct (push_word 0 p4) as [p5 [[]|e]]; [|done].
  rewrite push_words_app. unfold mbind, M_bind. cbn [push_words].
  destruct (push_words (rev envp) p5) as [p6 [[]|e]]; [|done]. unfold mbind, M_bind.
  destruct (push_word 0 p6) as [p7 [[]|e]]; [|done].
  rewrite push_words_app. unfold mbind, M_bind. cbn [push_words].
  destruct (push_words (rev argv) p7) as [p8 [[]|e]]; [|done]. unfold mbind, M_bind.
  by destruct (push_word _ p8) as [p9 [[]|e]].
Qed.

(** C29. The argument block of a 32-bit program.  When the startup stack has
    room for it, [push_stack_env] succeeds and leaves, upwards from the new stack
    pointer, the argument count, the argument pointers in order with their null
    terminator, the environment pointers in order with theirs, the process id,
    the parent's, the node and a zero; it lowers the stack pointer by exactly the
    size of the block, and changes no other register, no memory outside the
    block, and nothing of the process but the guest. *)
Theorem startup_stack argv envp p my dads a :
  wf_space (p_space p) ->
  pid_of p (p_my_pid p) = Ok my -> pid_of p (p_parent_pid p) = Ok dads ->
  let n := (7 + length argv + length envp)%nat in
  stack_at (T := space_translation (p_space p)) (p_guest p) (4 * Z.of_nat n) a ->
  exists g, push_stack_env argv envp p = (set_guest g p, Ok ()) /\
    load (g_mem g) a (4 * n) = frame (startup_words argv envp my dads) /\
    gr g ESP = gr (p_guest p) ESP - 4 * Z.of_nat n /\
    (forall r, r <> ESP -> gr g r = gr (p_guest p) r) /\
    (forall x, x < a \/ a + 4 * Z.of_nat n <= x -> peek (g_mem g) x = peek (g_mem (p_guest p)) x).
Proof.
  intros Hwf Hm Hd n Hs. set (ws := startup_words argv envp my dads).
  assert (Hn : length ws = n).
  { unfold ws, startup_words, n. rewrite !length_app. cbn [length]. lia. }
  assert (Hf : length (frame ws) = (4 * n)%nat) by (rewrite length_frame, Hn; done).
  exists (pushed (p_guest p) a (frame ws)). split; [|split; [|split; [|split]]].
  - rewrite (push_stack_env_words _ _ _ _ _ Hm Hd), push_words_all. apply process_guest_run.
    rewrite (push_all_run (space_translation_laws _ Hwf) _ _ a).
    + by rewrite rev_involutive.
    + intros E. apply (f_equal length) in E. rewrite length_rev in E. fold ws in E. rewrite Hn in E.
      discriminate E.
    + rewrite length_rev. fold ws. by rewrite Hn.
  - unfold pushed. cbn [set_gmem g_mem]. rewrite <- Hf. apply load_store.
  - unfold gr, pushed. cbn [set_gmem set_regs g_regs]. rewrite rget_upd, Hf.
    rewrite decide_True by done. unfold gr. lia.
  - intros r Hr. unfold gr, pushed. cbn [set_gmem set_regs g_regs]. rewrite rget_upd.
    by rewrite decide_False.
  - intros x Hx. unfold pushed. cbn [set_gmem g_mem]. rewrite peek_store, Hf.
    destruct (Z.leb_spec a x), (Z.ltb_spec x (a + Z.of_nat (4 * n))); cbn [andb]; done || lia.
Qed.

(** A 32-bit process on [demo_space], with its own pid 10 and its parent's 11. *)
Definition demo_process : Process :=
  mkProcess demo_guest demo_space LoadInfo_new LoadInfo_new 0 B32 InterpreterInfo_new PathInfo_new
    PathMapper_new
    (mkPidMap {[10 := mkQnxPid SELF 10 500; 11 := mkQnxPid ROOT_PARENT 11 400]} ∅)
    10 11 None None (mkFarPointer 0 0) 0 0 (StartupSbrk 0) 0.

Lemma startup_stack_witness :
  stack_at (T := space_translation demo_space) demo_guest 40 (2 ^ 26 + 2008) /\
  exists g, push_stack_env [300; 310] [320] demo_process = (set_guest g demo_process, Ok ()) /\
    load (g_mem g) (2 ^ 26 + 2008) 40 = frame [2; 300; 310; 0; 320; 0; 10; 11; 1; 0].
Proof.
  assert (Hs : stack_at (T := space_translation demo_space) demo_guest 40 (2 ^ 26 + 2008)).
  { split; [exact demo_regs_ok|]. split; [vm_compute; intuition discriminate|vm_compute; reflexivity]. }
  split; [exact Hs|].
  destruct (startup_stack [300; 310] [320] demo_process 10 11 (2 ^ 26 + 2008) wf_demo_space
              eq_refl eq_refl Hs) as (g & H1 & H2 & _).
  exists g. split; [exact H1|exact H2].
Defined.
