(* ===== verification/Host.v ===== *)
(** * Host: the calls the message handlers make to the host

    The host kernel and C library are parameters.  [Sys A] names a call with its
    arguments; its answer of type [A] is what the call returns: the [int] of the
    C function, paired with the structure it fills in, whose content is
    unspecified when the call fails.  [k_errno] of [FdKernel] is the variable
    [errno]. *)

From S2P Require Import Prelude Types TerminalFilter FdMap.

(** ** Structures of the host *)

(** [struct stat]. *)
Record HostStat := mkHostStat {
  st_dev : Z; st_ino : Z; st_mode : Z; st_nlink : Z; st_uid : Z; st_gid : Z; st_rdev : Z;
  st_size : Z; st_atime : Z; st_mtime : Z; st_ctime : Z
}.

(** [struct flock]. *)
Record Flock := mkFlock { l_type : Z; l_whence : Z; l_start : Z; l_len : Z; l_pid : Z }.

(** [struct termios]; the control characters are bytes. *)
Record HostTermios := mkHostTermios {
  ht_iflag : Z; ht_oflag : Z; ht_cflag : Z; ht_lflag : Z;
  ht_cc : list Z; ht_ispeed : Z; ht_ospeed : Z
}.

Record Winsize := mkWinsize { ws_row : Z; ws_col : Z; ws_xpixel : Z; ws_ypixel : Z }.
Record Statvfs := mkStatvfs { f_blocks : Z; f_bavail : Z }.

(** ** Calls *)

Inductive Sys : Type -> Type :=
(* time and processes *)
| SClockGettime : Sys (Z * (Z * Z))
| SNanosleep (flags : Z) (t : Z * Z) : Sys (Z * (Z * Z))
| SAlarm (sec : Z) : Sys Z
| SGetpid : Sys Z
| SGetpgrp : Sys Z
| SGetpgid (pid : Z) : Sys Z
| SGetsid (pid : Z) : Sys Z
| SSetsid : Sys Z
| SSetpgid (pid pgid : Z) : Sys Z
| SGetuid : Sys Z
| SGeteuid : Sys Z
| SGetgid : Sys Z
| SGetegid : Sys Z
| SFork : Sys Z
| SWaitpid (pid options : Z) : Sys (Z * Z)
(** [true]: the program was replaced *)
| SExecve (path : cstring) (argv envp : list cstring) : Sys bool
(* paths *)
| SAccess (path : cstring) (mode : Z) : Sys Z
| SChdir (path : cstring) : Sys Z
| SOpen (path : cstring) (flags mode : Z) : Sys Z
| SStat (path : cstring) : Sys (Z * HostStat)
| SLstat (path : cstring) : Sys (Z * HostStat)
| SReadlink (path : cstring) (size : Z) : Sys (Z * list Z)
| SRealpath (path : cstring) : Sys (option cstring)
| SRename (from to : cstring) : Sys Z
| SLink (from to : cstring) : Sys Z
| SSymlink (target path : cstring) : Sys Z
| SUnlink (path : cstring) : Sys Z
| SRmdir (path : cstring) : Sys Z
| SMkdir (path : cstring) (mode : Z) : Sys Z
| SMtab : Sys (option (list cstring))
| SSync : Sys unit
(* descriptors *)
| SFstat (fd : Z) : Sys (Z * HostStat)
| SFstatvfs (fd : Z) : Sys (Z * Statvfs)
| SLseek (fd off whence : Z) : Sys Z
| SFtruncate (fd len : Z) : Sys Z
| SFsync (fd : Z) : Sys Z
| SFdatasync (fd : Z) : Sys Z
| SReadv (fd : Z) (lens : list Z) : Sys (Z * list Z)
| SWritev (fd : Z) (data : list Z) : Sys Z
| SReaddir (fd : Z) : Sys (option cstring)
| SRewinddir (fd : Z) : Sys unit
| SFpathconf (fd name : Z) : Sys Z
| SFchmod (fd mode : Z) : Sys Z
| SFchown (fd uid gid : Z) : Sys Z
| SFutimens (fd : Z) (ts : option (Z * Z)) : Sys Z
| SPipe : Sys (Z * (Z * Z))
| SGetfl (fd : Z) : Sys Z
(** [fcntl(fd, F_SETFL)] without its argument *)
| SSetflNoArg (fd : Z) : Sys Z
| SSetfd (fd flags : Z) : Sys Z
| SLock (fd cmd : Z) (l : Flock) : Sys (Z * Flock)
(* terminals *)
| STtyname (fd size : Z) : Sys (Z * list Z)
| SCtermid : Sys cstring
| STcgetattr (fd : Z) : Sys (Z * HostTermios)
| STcsetattr (fd action : Z) (t : HostTermios) : Sys Z
| STcgetpgrp (fd : Z) : Sys Z
| STcsetpgrp (fd pgrp : Z) : Sys Z
| STcgetsid (fd : Z) : Sys Z
| STcflush (fd queue : Z) : Sys Z
| STcdrain (fd : Z) : Sys Z
| SGetWinsize (fd : Z) : Sys (Z * Winsize)
| SSetWinsize (fd : Z) (w : Winsize) : Sys Z
| STiocsti (fd v : Z) : Sys Z
(** the clock, then what happens round by round while a filtered terminal is read *)
| SMonotonic : Sys (Z * Z)
| SFilterPasses (fd : Z) : Sys (list Pass).

Class HostKernel (K : Type) := {
  sys : forall {A}, Sys A -> K -> K * A;
  set_errno : Z -> K -> K
}.
