(* ===== verification/MsgHandler.v ===== *)
(** * MsgHandler: [msg_handler.h], [msg_handler.cpp]

    What the message handlers work with: the state of the process beyond the
    emulator's ([World]), the calls to the host, reading the request and writing
    the reply, the guest's descriptors and paths, and the [Ioctl] helper. *)

From S2P Require Import Prelude Types Memory IdMap PathMapper PidMap FdMap Segment AddressSpace Msg Errno GuestContext Emu Layout QnxMsg Host.

(** ** State *)

(** The part of [Process] that only handlers use, and the host. *)
Record World (K : Type) := mkWorld {
  w_fds : FdMap;
  w_paths : PathMapper;
  w_parent_pid : Z;
  w_magic : option Z;
  w_time_selector : Z;
  w_executed_file : PathInfo;
  w_self_call : list cstring;
  w_kern : K
}.
Arguments mkWorld {K}.
Arguments w_fds {K}.
Arguments w_paths {K}.
Arguments w_parent_pid {K}.
Arguments w_magic {K}.
Arguments w_time_selector {K}.
Arguments w_executed_file {K}.
Arguments w_self_call {K}.
Arguments w_kern {K}.

Definition set_fds {K} (m : FdMap) (w : World K) : World K :=
  mkWorld m (w_paths w) (w_parent_pid w) (w_magic w) (w_time_selector w) (w_executed_file w)
    (w_self_call w) (w_kern w).
Definition set_parent {K} (p : Z) (w : World K) : World K :=
  mkWorld (w_fds w) (w_paths w) p (w_magic w) (w_time_selector w) (w_executed_file w)
    (w_self_call w) (w_kern w).
Definition set_kern {K} (k : K) (w : World K) : World K :=
  mkWorld (w_fds w) (w_paths w) (w_parent_pid w) (w_magic w) (w_time_selector w)
    (w_executed_file w) (w_self_call w) k.

Notation H K A := (M (EmuState (World K)) A).

Section Handler.
Context {K : Type} {FK : FdKernel K} {HK : HostKernel K}.

Definition world : H K (World K) := gets e_world.
Definition kern (e : EmuState (World K)) : K := w_kern (e_world e).

(** ** The host *)

Definition set_k (k : K) (e : EmuState (World K)) : EmuState (World K) :=
  set_world (set_kern k (e_world e)) e.

Definition sysc {A} (c : Sys A) : H K A := fun e =>
  let '(k, a) := sys c (kern e) in (set_k k e, Ok a).

Definition errno : H K Z := gets (fun e => k_errno (kern e)).
Definition errno_assign (v : Z) : H K unit := Prelude.modify (fun e => set_k (set_errno v (kern e)) e).

(** [UniqueFd::~UniqueFd]. *)
Definition unique_drop (fd : Z) : H K unit :=
  Prelude.modify (fun e => set_k (snd (unique_close fd (kern e))) e).

(** ** Messages *)

(** A method of [Msg] that writes guest memory. *)
Definition on_mem {A} (op : Translation -> M Mem A) : H K A := fun e =>
  let '(m, r) := op (space_translation (e_space e)) (g_mem (e_guest e)) in
  (set_guest (set_gmem m (e_guest e)) e, r).

(** [read_type(&x, offset)] for a structure of [n] bytes. *)
Definition read_at (i : MsgContext) (offset : Z) (n : nat) : H K (list Z) :=
  e ← get;
  lift (Msg.read (T := space_translation (e_space e)) (g_mem (e_guest e)) (m_msg i) offset (Z.of_nat n)).
Definition read_type (i : MsgContext) (L : layout) : H K (list Z) := read_at i 0 (sizeof L).

Definition write_at (i : MsgContext) (offset : Z) (bs : list Z) : H K unit :=
  _ ← on_mem (fun T => Msg.write (T := T) (m_msg i) offset bs); mret ().
Definition write_type (i : MsgContext) (bs : list Z) : H K unit := write_at i 0 bs.
Definition write_status (i : MsgContext) (status : Z) : H K unit :=
  on_mem (fun T => Msg.write_status (T := T) (m_msg i) status).

(** [write_status(Emu::map_errno(errno))]. *)
Definition write_errno (i : MsgContext) : H K unit :=
  v ← errno; write_status i (map_errno v).
(** The common end of a handler: 0 is success. *)
Definition write_result (i : MsgContext) (r : Z) : H K unit :=
  if r =? 0 then write_status i Errno.Qnx.QEOK else write_errno i.

(** ** Scattered data *)

(** What [readv] does with the bytes it got. *)
Fixpoint scatter (iov : list iovec) (data : list Z) (m : Mem) : Mem :=
  match iov with
  | [] => m
  | v :: iov =>
      let n := Z.to_nat (iov_len v) in
      scatter iov (drop n data) (store m (iov_base v) (take n data))
  end.

Definition gather (iov : list iovec) (m : Mem) : list Z :=
  concat ((fun v => load m (iov_base v) (Z.to_nat (iov_len v))) <$> iov).

Definition readv (fd : Z) (iov : list iovec) : H K Z :=
  '(r, data) ← sysc (SReadv fd (iov_len <$> iov));
  _ ← on_mem (fun _ => Prelude.modify (scatter iov data));
  mret r.

Definition writev (fd : Z) (iov : list iovec) : H K Z :=
  e ← get; sysc (SWritev fd (gather iov (g_mem (e_guest e)))).

(** The address of the [garbage_read] array of [msg.cpp]. *)
Context (garbage_read : Z).

Definition msg_write_iovec (i : MsgContext) (offset size : Z) : H K (list iovec) :=
  e ← get;
  lift (write_iovec (T := space_translation (e_space e)) garbage_read (g_mem (e_guest e)) (m_msg i)
          offset size []).
Definition msg_read_iovec (i : MsgContext) (offset size : Z) : H K (list iovec) :=
  e ← get;
  lift (read_iovec (T := space_translation (e_space e)) garbage_read (g_mem (e_guest e)) (m_msg i)
          offset size []).

(** ** Descriptors *)

(** [map_fd]: a [Qnx::fd_t] is 16 bits wide. *)
Definition map_fd (qnx_fd : Z) : H K Z := w ← world; mret (get_host_fd (w_fds w) (u16 qnx_fd)).

Definition attached_fd (fd : Z) : H K QnxFd := w ← world; lift (get_attached_fd (w_fds w) (u16 fd)).
Definition open_fd (fd : Z) : H K QnxFd := w ← world; lift (get_open_fd (w_fds w) (u16 fd)).

(** A method of the [QnxFd] in a slot. *)
Definition on_fd {A} (fd : Z) (op : M (QnxFd * K) A) : H K A := fun e =>
  match at_ (w_fds (e_world e)) (Z.to_nat fd) with
  | None => (e, Throw (Undefined "null descriptor"))
  | Some f =>
      let '((f, k), r) := op (f, kern e) in
      (set_world (set_kern k (set_fds (update_fd fd (fun _ => f) (w_fds (e_world e))) (e_world e))) e, r)
  end.

Definition on_fds {A} (op : M FdMap A) : H K A := fun e =>
  let '(m, r) := op (w_fds (e_world e)) in (set_world (set_fds m (e_world e)) e, r).

Definition on_space {A} (op : M Space A) : H K A := fun e =>
  let '(s, r) := op (e_space e) in (set_space s e, r).
Definition on_pids {A} (op : M PidMap A) : H K A := fun e =>
  let '(p, r) := op (m_pids e) in (set_pids p e, r).

(** ** Paths and pids *)

Definition to_host (path : cstring) (normalized : bool) : H K PathInfo :=
  w ← world; lift (map_path_to_host_s (w_paths w) path normalized).
Definition to_host_path (path : cstring) (normalized : bool) : H K cstring :=
  p ← to_host path normalized; mret (host_path p).
Definition to_qnx (path : cstring) : H K PathInfo :=
  w ← world; lift (map_path_to_qnx_s (w_paths w) path false).
Definition to_qnx_path (path : cstring) : H K cstring := p ← to_qnx path; mret (qnx_path p).

(** [proc.pid()], [proc.parent_pid()]. *)
Definition proc_pid : H K Z := e ← get; p ← lift (deref (m_pids e) (m_my_pid e)); mret (q_qnx_pid p).
Definition proc_parent_pid : H K Z :=
  e ← get; p ← lift (deref (m_pids e) (w_parent_pid (e_world e))); mret (q_qnx_pid p).

(** [pids().host(p)] and its QNX pid, or [PID_UNKNOWN]. *)
Definition host_to_qnx (p : Z) : H K Z :=
  e ← get;
  match host (m_pids e) p with
  | None => mret PID_UNKNOWN
  | Some n => q ← lift (deref (m_pids e) n); mret (q_qnx_pid q)
  end.
Definition valid_host (p : Z) : H K (option QnxPid) := e ← get; lift (qnx_valid_host (m_pids e) p).

(** Stack memory that was never written. *)
Context (uninit : nat -> Z).
Definition indeterminate (n : nat) : list Z := (fun k => u8 (uninit k)) <$> seq 0 n.
End Handler.

(** ** [Ioctl] *)

Record Ioctl := mkIoctl { io_status : Z; io_retval : Z; io_header : list Z }.

Definition qioctl_request : layout := request msg_io_qioctl.
Definition qioctl_reply : layout := reply msg_io_qioctl.

Definition Ioctl_new (header : list Z) : Ioctl := mkIoctl Errno.Qnx.QENOSYS 0 header.
Definition set_ioctl_status (v : Z) (i : Ioctl) : Ioctl := mkIoctl (u16 v) 0 (io_header i).
Definition set_ioctl_retval (v : Z) (i : Ioctl) : Ioctl := mkIoctl Errno.Qnx.QEOK (u16 v) (io_header i).
Definition request_code (i : Ioctl) : Z := (io_header i)[: qioctl_request ; "request" :].
Definition request_group (i : Ioctl) : Z := Z.land (Z.shiftr (request_code i) 8) 255.
Definition request_number (i : Ioctl) : Z := Z.land (request_code i) 255.
Definition ioctl_fd (i : Ioctl) : Z := (io_header i)[: qioctl_request ; "fd" :].

(** [m_padd_2] of the reply is never set. *)
Definition response_header (uninit : nat -> Z) (i : Ioctl) : list Z :=
  let r := indeterminate uninit (sizeof qioctl_reply) in
  let r := r[: qioctl_reply ; "padd_1" <- 0 :] in
  let r := r[: qioctl_reply ; "status" <- io_status i :] in
  r[: qioctl_reply ; "ret_val" <- io_retval i :].
