(* ===== verification/IoctlCodes.v ===== *)
(** * IoctlCodes: [qnx/ioctl.h]

    The request codes of the guest's [ioctl]: direction, length of the argument,
    group and number packed into 32 bits, and the structures the lengths are
    taken from.  The code of every declared request decodes to its parts with the
    functions [Ioctl] uses. *)

From S2P Require Import Prelude Types Memory FdMap Segment AddressSpace Msg GuestContext Emu Layout QnxMsg Host MsgHandler.

Definition i8_ : ftype := TInt true 1.

Definition s_termio : layout :=
  [("c_iflag", u16_); ("c_oflag", u16_); ("c_cflag", u16_); ("c_lflag", u16_); ("c_line", i8_); ("c_cc", TBytes 36)].
Definition s_ttysize : layout :=
  [("ts_lines", u16_); ("ts_cols", u16_); ("ts_xxx", u16_); ("ts_yyy", u16_)].
Definition s_sgttyb : layout :=
  [("sg_ispeed", i8_); ("sg_ospeed", i8_); ("sg_erase", i8_); ("sg_kill", i8_); ("sg_flags", i32_)].
Definition s_tchars : layout :=
  [("t_intrc", i8_); ("t_quitc", i8_); ("t_startc", i8_); ("t_stopc", i8_); ("t_eofc", i8_); ("t_brkc", i8_)].
Definition s_ltchars : layout :=
  [("t_suspc", i8_); ("t_dsuspc", i8_); ("t_rprntc", i8_); ("t_flushc", i8_); ("t_werasc", i8_); ("t_lnextc", i8_)].
Definition s_winsize : layout :=
  [("ws_row", u16_); ("ws_col", u16_); ("ws_xpixel", u16_); ("ws_ypixel", u16_)].

Definition QIOCPARM_MASK : Z := 0x1fff.
Definition QIOC_VOID : Z := 0x20000000.
Definition QIOC_OUT : Z := 0x40000000.
Definition QIOC_IN : Z := 0x80000000.
Definition QIOC_INOUT : Z := Z.lor QIOC_IN QIOC_OUT.
Definition QIOC_DIRMASK : Z := 0xe0000000.

Definition ioctl_param (full : Z) : Z := Z.land full 0xFFFF.

Definition Q_IOC (inout group num len : Z) : Z :=
  u32 (Z.lor (Z.lor (Z.lor inout (Z.shiftl (Z.land len QIOCPARM_MASK) 16)) (Z.shiftl group 8)) num).
Definition Q_IO (g n : Z) : Z := Q_IOC QIOC_VOID g n 0.
(** The templates take the type by its size. *)
Definition Q_IOR (T : nat) (g n : Z) : Z := Q_IOC QIOC_OUT g n (Z.of_nat T).
Definition Q_IOW (T : nat) (g n : Z) : Z := Q_IOC QIOC_IN g n (Z.of_nat T).
Definition Q_IORW (T : nat) (g n : Z) : Z := Q_IOC QIOC_INOUT g n (Z.of_nat T).

(** The characters of the groups. *)
Definition GROUP_T : Z := 84.
Definition GROUP_t : Z := 116.
Definition GROUP_u : Z := 117.
Definition GROUP_f : Z := 102.

Definition QTCGETA : Z := Q_IOR (sizeof s_termio) GROUP_T 1.
Definition QTCSETA : Z := Q_IOW (sizeof s_termio) GROUP_T 2.
Definition QTCSETAW : Z := Q_IOW (sizeof s_termio) GROUP_T 3.
Definition QTCSETAF : Z := Q_IOW (sizeof s_termio) GROUP_T 4.
Definition QTCSBRK : Z := Q_IO GROUP_T 5.
Definition QTCXONC : Z := Q_IO GROUP_T 6.
Definition QTCFLSH : Z := Q_IO GROUP_T 7.
Definition QTCGETS : Z := Q_IOR (sizeof s_termios) GROUP_T 8.
Definition QTCSETS : Z := Q_IOW (sizeof s_termios) GROUP_T 9.
Definition QTCSETSW : Z := Q_IOW (sizeof s_termios) GROUP_T 10.
Definition QTCSETSF : Z := Q_IOW (sizeof s_termios) GROUP_T 11.
Definition QTIOCHPCL : Z := Q_IO GROUP_t 2.
Definition QTIOCGETP : Z := Q_IOR (sizeof s_sgttyb) GROUP_t 8.
Definition QTIOCSETP : Z := Q_IOW (sizeof s_sgttyb) GROUP_t 9.
Definition QTIOCSETN : Z := Q_IOW (sizeof s_sgttyb) GROUP_t 10.
Definition QTIOCEXCL : Z := Q_IO GROUP_t 13.
Definition QTIOCNXCL : Z := Q_IO GROUP_t 14.
Definition QTIOCFLUSH : Z := Q_IOW 2 GROUP_t 16.
Definition QTIOCSETC : Z := Q_IOW (sizeof s_tchars) GROUP_t 17.
Definition QTIOCGETC : Z := Q_IOR (sizeof s_tchars) GROUP_t 18.
Definition QTIOCGETA : Z := Q_IOR (sizeof s_termios) GROUP_t 19.
Definition QTIOCSETA : Z := Q_IOW (sizeof s_termios) GROUP_t 20.
Definition QTIOCSETAW : Z := Q_IOW (sizeof s_termios) GROUP_t 21.
Definition QTIOCSETAF : Z := Q_IOW (sizeof s_termios) GROUP_t 22.
Definition QTIOCDRAIN : Z := Q_IO GROUP_t 94.
Definition QTIOCSCTTY : Z := Q_IO GROUP_t 97.
Definition QTIOCSWINSZ : Z := Q_IOW (sizeof s_winsize) GROUP_t 103.
Definition QTIOCGWINSZ : Z := Q_IOR (sizeof s_winsize) GROUP_t 104.
Definition QTIOCMGET : Z := Q_IOR 2 GROUP_t 106.
Definition QTIOCMBIC : Z := Q_IOW 2 GROUP_t 107.
Definition QTIOCMBIS : Z := Q_IOW 2 GROUP_t 108.
Definition QTIOCMSET : Z := Q_IOW 2 GROUP_t 109.
Definition QTIOCSTART : Z := Q_IO GROUP_t 110.
Definition QTIOCSTOP : Z := Q_IO GROUP_t 111.
Definition QTIOCPKT : Z := Q_IOW 2 GROUP_t 112.
Definition QTIOCNOTTY : Z := Q_IO GROUP_t 113.
Definition QTIOCSTI : Z := Q_IOW 1 GROUP_t 114.
Definition QTIOCOUTQ : Z := Q_IOR 2 GROUP_t 115.
Definition QTIOCGLTC : Z := Q_IOR (sizeof s_ltchars) GROUP_t 116.
Definition QTIOCSLTC : Z := Q_IOW (sizeof s_ltchars) GROUP_t 117.
Definition QTIOCSPGRP : Z := Q_IOW 2 GROUP_t 118.
Definition QTIOCGPGRP : Z := Q_IOR 2 GROUP_t 119.
Definition QTIOCCDTR : Z := Q_IO GROUP_t 120.
Definition QTIOCSDTR : Z := Q_IO GROUP_t 121.
Definition QTIOCCBRK : Z := Q_IO GROUP_t 122.
Definition QTIOCSBRK : Z := Q_IO GROUP_t 123.
Definition QTIOCLGET : Z := Q_IOR 2 GROUP_t 124.
Definition QTIOCLSET : Z := Q_IOW 2 GROUP_t 125.
Definition QTIOCSETPGRP : Z := Q_IOW 2 GROUP_t 130.
Definition QTIOCGETPGRP : Z := Q_IOR 2 GROUP_t 131.
Definition QFIOCLEX : Z := Q_IO GROUP_f 1.
Definition QFIONCLEX : Z := Q_IO GROUP_f 2.
Definition QFIOGETOWN : Z := Q_IOR 2 GROUP_f 123.
Definition QFIOSETOWN : Z := Q_IOW 2 GROUP_f 124.
Definition QFIOASYNC : Z := Q_IOW 2 GROUP_f 125.
Definition QFIONBIO : Z := Q_IOW 2 GROUP_f 126.
Definition QFIONREAD : Z := Q_IOR 2 GROUP_f 127.
Definition QUIOCCMD (n : Z) : Z := Q_IO GROUP_u n.

(** The codes with their group and number. *)
Definition codes : list (Z * (Z * Z)) :=
  [(QTCGETA, (GROUP_T, 1)); (QTCSETA, (GROUP_T, 2)); (QTCSETAW, (GROUP_T, 3));
   (QTCSETAF, (GROUP_T, 4)); (QTCSBRK, (GROUP_T, 5)); (QTCXONC, (GROUP_T, 6));
   (QTCFLSH, (GROUP_T, 7)); (QTCGETS, (GROUP_T, 8)); (QTCSETS, (GROUP_T, 9));
   (QTCSETSW, (GROUP_T, 10)); (QTCSETSF, (GROUP_T, 11)); (QTIOCHPCL, (GROUP_t, 2));
   (QTIOCGETP, (GROUP_t, 8)); (QTIOCSETP, (GROUP_t, 9)); (QTIOCSETN, (GROUP_t, 10));
   (QTIOCEXCL, (GROUP_t, 13)); (QTIOCNXCL, (GROUP_t, 14)); (QTIOCFLUSH, (GROUP_t, 16));
   (QTIOCSETC, (GROUP_t, 17)); (QTIOCGETC, (GROUP_t, 18)); (QTIOCGETA, (GROUP_t, 19));
   (QTIOCSETA, (GROUP_t, 20)); (QTIOCSETAW, (GROUP_t, 21)); (QTIOCSETAF, (GROUP_t, 22));
   (QTIOCDRAIN, (GROUP_t, 94)); (QTIOCSCTTY, (GROUP_t, 97)); (QTIOCSWINSZ, (GROUP_t, 103));
   (QTIOCGWINSZ, (GROUP_t, 104)); (QTIOCMGET, (GROUP_t, 106)); (QTIOCMBIC, (GROUP_t, 107));
   (QTIOCMBIS, (GROUP_t, 108)); (QTIOCMSET, (GROUP_t, 109)); (QTIOCSTART, (GROUP_t, 110));
   (QTIOCSTOP, (GROUP_t, 111)); (QTIOCPKT, (GROUP_t, 112)); (QTIOCNOTTY, (GROUP_t, 113));
   (QTIOCSTI, (GROUP_t, 114)); (QTIOCOUTQ, (GROUP_t, 115)); (QTIOCGLTC, (GROUP_t, 116));
   (QTIOCSLTC, (GROUP_t, 117)); (QTIOCSPGRP, (GROUP_t, 118)); (QTIOCGPGRP, (GROUP_t, 119));
   (QTIOCCDTR, (GROUP_t, 120)); (QTIOCSDTR, (GROUP_t, 121)); (QTIOCCBRK, (GROUP_t, 122));
   (QTIOCSBRK, (GROUP_t, 123)); (QTIOCLGET, (GROUP_t, 124)); (QTIOCLSET, (GROUP_t, 125));
   (QTIOCSETPGRP, (GROUP_t, 130)); (QTIOCGETPGRP, (GROUP_t, 131)); (QFIOCLEX, (GROUP_f, 1));
   (QFIONCLEX, (GROUP_f, 2)); (QFIOGETOWN, (GROUP_f, 123)); (QFIOSETOWN, (GROUP_f, 124));
   (QFIOASYNC, (GROUP_f, 125)); (QFIONBIO, (GROUP_f, 126)); (QFIONREAD, (GROUP_f, 127))].

Definition ioctl_of (code : Z) : Ioctl :=
  Ioctl_new (set_fld qioctl_request "request" eq_refl code (clear qioctl_request)).

(** A code taken apart by [Ioctl]; the low 16 bits tell the requests apart. *)
Lemma codes_decode :
  Forall (fun '(c, (g, n)) => request_group (ioctl_of c) = g /\ request_number (ioctl_of c) = n /\
    ioctl_param c = Z.lor (Z.shiftl g 8) n /\ 0 <= c < 2 ^ 32) codes /\
  NoDup ((fun p => ioctl_param p.1) <$> codes).
Proof.
  split; [apply (bool_decide_eq_true (Forall _ _)); vm_compute; reflexivity|].
  apply (bool_decide_eq_true (NoDup _)). vm_compute. reflexivity.
Qed.

(** Any code made of a group, a number and a direction. *)
Lemma low_bits_zero v k i : 0 <= v < 2 ^ k -> k <= i -> Z.testbit v i = false.
Proof.
  intros Hv Hi. destruct (Z.le_gt_cases 0 k) as [Hk|Hk]; [|rewrite Z.pow_neg_r in Hv by lia; lia].
  rewrite <- (Z.mod_small v (2 ^ k)) by lia. apply Z.mod_pow2_bits_high. lia.
Qed.

Lemma direction_bit inout i :
  inout ∈ [QIOC_VOID; QIOC_OUT; QIOC_IN; QIOC_INOUT] -> 0 <= i < 29 -> Z.testbit inout i = false.
Proof.
  intros Hin Hi.
  assert (H : Z.shiftl (Z.shiftr inout 29) 29 = inout).
  { repeat (apply elem_of_cons in Hin as [-> |Hin]; [reflexivity|]). by apply elem_of_nil in Hin. }
  rewrite <- H, Z.shiftl_spec by lia. apply Z.testbit_neg_r. lia.
Qed.

Lemma Q_IOC_bit inout g n len i :
  inout ∈ [QIOC_VOID; QIOC_OUT; QIOC_IN; QIOC_INOUT] -> 0 <= g < 256 -> 0 <= n < 256 -> 0 <= i < 16 ->
  Z.testbit (Q_IOC inout g n len) i = if i <? 8 then Z.testbit n i else Z.testbit g (i - 8).
Proof.
  intros Hd Hg Hn Hi. unfold Q_IOC, wrapu. rewrite Z.mod_pow2_bits_low, !Z.lor_spec by lia.
  rewrite direction_bit by (done || lia). rewrite !Z.shiftl_spec by lia.
  rewrite (Z.testbit_neg_r _ (i - 16)) by lia. cbn [orb].
  destruct (Z.ltb_spec i 8); [by rewrite (Z.testbit_neg_r g) by lia|].
  by rewrite (low_bits_zero n 8), orb_false_r by lia.
Qed.

Lemma Q_IOC_parts inout g n len :
  inout ∈ [QIOC_VOID; QIOC_OUT; QIOC_IN; QIOC_INOUT] -> 0 <= g < 256 -> 0 <= n < 256 ->
  Z.land (Z.shiftr (Q_IOC inout g n len) 8) 255 = g /\ Z.land (Q_IOC inout g n len) 255 = n.
Proof.
  intros Hd Hg Hn. change 255 with (Z.ones 8). split; apply Z.bits_inj'; intros i Hi;
    rewrite Z.land_spec, Z.testbit_ones_nonneg by lia;
    (destruct (Z.ltb_spec i 8); [|by rewrite andb_false_r, (low_bits_zero _ 8) by lia]); rewrite andb_true_r.
  - rewrite Z.shiftr_spec, Q_IOC_bit by (done || lia). destruct (Z.ltb_spec (i + 8) 8); [lia|]. f_equal. lia.
  - rewrite Q_IOC_bit by (done || lia). by destruct (Z.ltb_spec i 8); [|lia].
Qed.
