(* ===== verification/ProcHandler.v ===== *)
(** * ProcHandler: the process manager's messages, [main_handler.cpp]

    The [proc_*] methods of [MainHandler]: processes and their ids, time,
    descriptors, segments, signals, [fork], [exec] and [spawn]. *)

From S2P Require Import Prelude Types Memory IdMap PathMapper PidMap FdMap Segment AddressSpace Sigset Msg Errno GuestContext Emu Layout QnxMsg Host MsgHandler.

Import Errno.Qnx.

(** ** Structures *)

(** [struct psinfo] of [qnx/psinfo.h] up to the union, and its [proc] member. *)
Definition s_psinfo : layout :=
  [("pid", i16_); ("pid_zero", i16_); ("blocked_on", i16_); ("blocked_on_zero", i16_);
   ("pid_group", i16_); ("pid_group_zero", i16_); ("flags", u32_); ("rgid", i16_); ("ruid", i16_);
   ("egid", i16_); ("euid", i16_); ("sp_reg", u32_); ("ss_reg", u16_); ("magic_off", u32_);
   ("magic_sel", u16_); ("ldt", u16_); ("umask", u16_); ("signal_ignore", u32_);
   ("signal_pending", u32_); ("signal_mask", u32_); ("signal_off", u32_); ("signal_sel", u16_);
   ("states", TBytes 6); ("sid", u16_); ("sid_nid", nid_); ("zero1", TBytes 10);
   ("proc.father", u16_); ("proc.father_zero", u16_); ("proc.relatives", TBytes 16);
   ("proc.mpass", TBytes 4); ("proc.name", TBytes 100); ("proc.links", u16_);
   ("proc.file_time", u32_); ("proc.nselectors", u16_); ("proc.start_time", u32_);
   ("proc.times", TBytes 16); ("proc.mxcount", i16_); ("proc.zero2", TBytes 28);
   ("zero3", TBytes 24)].

(** [static_assert(offsetof(psinfo, proc.name) == 104)]. *)
Example psinfo_name_offset : offset_of s_psinfo "proc.name" = 104%nat.
Proof. reflexivity. Qed.

(** [struct osinfo] of [qnx/osinfo.h]. *)
Definition s_osinfo : layout :=
  [("cpu_speed", u16_); ("num_procs", u16_); ("tick_size", u16_); ("version", u16_);
   ("timesel", u16_); ("totmemk", u16_); ("freememk", u16_); ("monitors", TBytes 2);
   ("machinesel", u16_); ("disksel", u16_); ("diskoff", u32_); ("ssinfo_offset", u32_);
   ("ssinfo_sel", u16_); ("microkernel_size", u16_); ("release", TBytes 1); ("zero2", TBytes 1);
   ("sflags", u32_); ("nodename", nid_); ("cpu", u32_); ("fpu", u32_); ("machine", TBytes 16);
   ("bootsrc", TBytes 1); ("zero3", TBytes 9); ("counts", TBytes 14); ("zero4", TBytes 8);
   ("limits", TBytes 20); ("top_of_mem", u32_); ("freepmem", u32_);
   ("freevmem", u32_); ("totpmem", u32_); ("totvmem", u32_); ("cpu_features", u32_);
   ("zero5", TBytes 26)].

Definition sizeof_sigtab : Z := 4 + sizeof_sigaction * 32.

(** [qnx/segment.h], [qnx/timers.h], [qnx/wait.h]. *)
Definition PMF_ACCESS_MASK : Z := 3.
Definition QTNOTIFY_SIGNAL : Z := 2.
Definition QTIMER_ABSTIME : Z := 1.
Definition QTIMER_ADDREL : Z := 256.
Definition QTIMER_PRESERVE_EXEC : Z := 512.
Definition QWNOHANG : Z := 1.

(** The host's constants. *)
Definition TIMER_ABSTIME : Z := 1.
Definition WNOHANG : Z := 1.
Definition FD_CLOEXEC : Z := 1.
Definition X_OK : Z := 1.

Definition nid : Z := 1.

Section Proc.
Context {K : Type} {FK : FdKernel K} {HK : HostKernel K}.

(** ** Processes and time *)

Definition proc_terminate (i : MsgContext) : H K unit :=
  let L := request msg_proc_terminate in
  msg ← read_type i L;
  throw (Exit (i32 msg[: L ; "status" :])).

Definition proc_time (i : MsgContext) : H K unit :=
  let L := request msg_proc_time in
  let R := reply msg_proc_time in
  msg ← read_type i L;
  let r := clear R in
  if msg[: L ; "seconds" :] =? 2 ^ 32 - 1 then
    '(res, (sec, nsec)) ← sysc SClockGettime;
    if res <? 0 then
      err ← errno; write_type i r[: R ; "status" <- map_errno err :]
    else
      let r := r[: R ; "status" <- QEOK :] in
      let r := r[: R ; "seconds" <- sec :] in
      write_type i r[: R ; "nsec" <- nsec :]
  else write_type i r[: R ; "status" <- QENOTSUP :].

(** The host pid for a QNX pid, 0 for 0; [None] when there is none. *)
Definition setpgid_arg (pid : Z) : H K (option Z) :=
  if pid =? 0 then mret (Some 0)
  else p ← valid_host pid; mret (q_host_pid <$> p).

Definition proc_setpgid (i : MsgContext) : H K unit :=
  let L := request msg_proc_setpgid in
  msg ← read_type i L;
  host_pid ← setpgid_arg msg[: L ; "pid" :];
  match host_pid with
  | None => write_status i QESRCH
  | Some host_pid =>
      host_pgid ← setpgid_arg msg[: L ; "pgid" :];
      match host_pgid with
      | None => write_status i QESRCH
      | Some host_pgid =>
          r ← sysc (SSetpgid host_pid host_pgid);
          if r <? 0 then write_errno i else write_status i QEOK
      end
  end.

(** ** Descriptors *)

Definition is_no_free_id (e : exn) : bool := match e with NoFreeId => true | _ => false end.

(** An id past the end of the map yields a null pointer. *)
Definition proc_fd_attach (i : MsgContext) : H K unit :=
  let L := s_fd_request in
  let R := s_fd_reply1 in
  msg ← read_type i L;
  try_catch is_no_free_id
    (fd ← on_fds (qnx_fd_attach (u16 msg[: L ; "fd" :]) msg[: L ; "nid" :] msg[: L ; "pid" :]
                    msg[: L ; "vid" :] msg[: L ; "flags" :]);
     match fd with
     | None => throw (Undefined "null descriptor")
     | Some fd =>
         let r := (clear R)[: R ; "status" <- 0 :] in
         write_type i r[: R ; "fd" <- m_fd fd :]
     end)
    (fun _ => write_status i QEMFILE).

(** [IdMap::free] drops the object without closing it. *)
Definition fd_detach (fd : Z) : H K bool := on_fds (fun m =>
  let '(m, used) := qnx_fd_detach fd m in (m, Ok used)).

Definition proc_fd_detach (i : MsgContext) : H K unit :=
  let L := s_fd_request in
  msg ← read_type i L;
  used ← fd_detach (u16 msg[: L ; "fd" :]);
  write_status i (if used : bool then QEOK else QEBADF).

Definition fd_info (bits : Bitness) (fd : QnxFd) : list Z :=
  let R := reply msg_proc_fd_query in
  let r := (clear R)[: R ; "status" <- QEOK :] in
  let r := r[: R ; "info.handle" <- m_handle fd :] in
  let r := r[: R ; "info.pid" <- m_pid fd :] in
  let r := r[: R ; "info.vid" <- m_vid fd :] in
  let r := r[: R ; "info.nid" <- m_nid fd :] in
  let r := r[: R ; "info.flags" <-
             (match bits with B32 => Z.shiftl (m_flags fd) 8 | B16 => m_flags fd end) :] in
  r[: R ; "fd" <- m_fd fd :].

Definition proc_fd_query (i : MsgContext) : H K unit :=
  let L := s_fd_request in
  let R := reply msg_proc_fd_query in
  msg ← read_type i L;
  w ← world;
  match fd_query (w_fds w) (u16 msg[: L ; "fd" :]) with
  | Some fd => e ← get; write_type i (fd_info (m_bits e) fd)
  | None => write_type i (clear R)[: R ; "status" <- QEINVAL :]
  end.

Definition set_fd_flags (flags : Z) (f : QnxFd) : QnxFd :=
  mkQnxFd (m_fd f) (m_nid f) (m_pid f) (m_vid f) flags (m_handle f) (m_open f) (m_path f)
    (m_host_fd f) (m_host_dir f) (m_filter f).

Definition proc_fd_setfd (i : MsgContext) : H K unit :=
  let L := s_fd_request in
  msg ← read_type i L;
  let fdi := u16 msg[: L ; "fd" :] in
  let flags := msg[: L ; "flags" :] in
  fd ← attached_fd fdi;
  r ← (if m_open fd
       then sysc (SSetfd (m_host_fd fd) (if flags =? 0 then 0 else FD_CLOEXEC))
       else mret 0);
  if r <? 0 then write_errno i
  else
    _ ← on_fds (Prelude.modify (update_fd fdi (set_fd_flags flags)));
    write_status i QEOK.

(** The texts written to the terminal do not matter here, but the name in the
    request is printed with [%s], whether or not it is terminated. *)
Definition proc_slib_register (i : MsgContext) : H K unit :=
  let L := request msg_proc_slib_register in
  msg ← read_type i L;
  _ ← lift (c_string (arr L "data.name" eq_refl msg));
  write_status i QEOK.
End Proc.

(** ** Segments *)

Section Segments.
Context {K : Type} {FK : FdKernel K} {HK : HostKernel K}.
Context (mmap : Z -> Z -> Z -> Z -> option Z) (modify_ldt : user_desc -> bool).

Notation L := s_segment_request.
Notation R := s_segment_reply.

Definition the_segment (r : nat) : H K Segment :=
  e ← get;
  match segs (e_space e) !! r with None => throw (Undefined "segment") | Some s => mret s end.

(** The part of the reply that describes a segment. *)
Definition segment_info (sel : Z) (seg : Segment) : list Z :=
  let r := (clear R)[: R ; "status" <- QEOK :] in
  let r := r[: R ; "sel" <- sel :] in
  let r := r[: R ; "nbytes" <- size seg :] in
  r[: R ; "addr" <- location seg :].

Definition proc_segment_alloc (i : MsgContext) : H K unit :=
  msg ← read_type i L;
  seg ← on_space allocate_segment;
  _ ← on_space (space_seg seg (reserve mmap (MemOps.mega 1)));
  e ← get;
  let nbytes := msg[: L ; "nbytes" :] in
  let nbytes := match m_bits e with B16 => Z.land nbytes 0x1FFFF | B32 => nbytes end in
  _ ← on_space (space_seg seg (grow_bytes mmap nbytes));
  sd ← on_space (create_segment_descriptor modify_ldt READ_WRITE seg (m_bits e));
  s ← the_segment seg;
  write_type i (segment_info (selector sd) s).

Definition no_descriptor (i : MsgContext) : H K unit :=
  write_type i (clear R)[: R ; "status" <- QEINVAL :].

Definition proc_segment_realloc (i : MsgContext) : H K unit :=
  msg ← read_type i L;
  e ← get;
  match descriptor_by_selector (e_space e) msg[: L ; "sel" :] with
  | None => no_descriptor i
  | Some sd =>
      seg ← the_segment (sd_seg sd);
      if is_shared seg then write_type i (clear R)[: R ; "status" <- QEBUSY :]
      else
        let nbytes := msg[: L ; "nbytes" :] in
        _ ← (if size seg <? nbytes then
               _ ← on_space (space_seg (sd_seg sd) (grow_bytes mmap (nbytes - size seg)));
               on_space (update_descriptors modify_ldt sd)
             else mret ());
        seg ← the_segment (sd_seg sd);
        write_type i (segment_info msg[: L ; "sel" :] seg)
  end.

(** The reply's status stays 0. *)
Definition proc_segment_free (i : MsgContext) : H K unit :=
  msg ← read_type i L;
  e ← get;
  match descriptor_by_selector (e_space e) msg[: L ; "sel" :] with
  | None => no_descriptor i
  | Some sd =>
      _ ← on_space (Prelude.modify (free_segment_descriptor sd));
      write_type i (clear R)
  end.

(** Writing through the [SegmentDescriptor*] of a slot. *)
Definition update_slot (sel : Z) (g : Descriptor -> Descriptor) (sp : Space) : Space :=
  let m := m_segment_descriptors sp in
  set_descriptors (mkIdMap (m_max m) (alter (fmap g) (Z.to_nat (Z.shiftr sel 3)) (m_data m))) sp.

(** The selector field of the reply is filled from the flags. *)
Definition proc_segment_flags (i : MsgContext) : H K unit :=
  msg ← read_type i L;
  e ← get;
  let sel := msg[: L ; "sel" :] in
  match descriptor_by_selector (e_space e) sel with
  | None => no_descriptor i
  | Some sd =>
      let flags := msg[: L ; "flags" :] in
      let access := Access_of_Z (Z.land flags PMF_ACCESS_MASK) in
      _ ← on_space (Prelude.modify (update_slot sel (AddressSpace.change_access access)));
      _ ← on_space (update_descriptors modify_ldt (AddressSpace.change_access access sd));
      let r := (clear R)[: R ; "flags" <- flags :] in
      write_type i r[: R ; "sel" <- flags :]
  end.

(** Stubs that accept the message. *)
Definition proc_segment_arm (i : MsgContext) : H K unit := write_status i QEOK.
Definition proc_segment_put (i : MsgContext) : H K unit := write_status i QEOK.
Definition proc_segment_priv (i : MsgContext) : H K unit := write_status i QEOK.
End Segments.

(** ** Names, virtual circuits, sessions *)

Section Names.
Context {K : Type} {FK : FdKernel K} {HK : HostKernel K}.

(** The cookie is set before the reply is cleared. *)
(** So is this one. *)
Definition proc_name_attach (i : MsgContext) : H K unit :=
  msg ← read_type i s_name_request;
  _ ← lift (c_string (arr s_name_request "name" eq_refl msg));
  write_type i (clear s_name_reply).

Definition proc_open (i : MsgContext) : H K unit :=
  let L := request msg_proc_open in
  msg ← read_type i L;
  let msg := msg[: L ; "type" <- QEOK :] in
  let msg := msg[: L ; "open.pid" <- 1 :] in
  write_type i msg[: L ; "open.nid" <- nid :].

Definition proc_vc_attach (i : MsgContext) : H K unit :=
  let R := reply msg_proc_vc_attach in
  vc ← read_type i s_vc;
  let n := vc[: s_vc ; "nid" :] in
  if (n =? 0) || (n =? nid) then
    my ← proc_pid;
    let pid := vc[: s_vc ; "pid" :] in
    if (pid =? my) || (pid =? 1) then
      let r := (clear R)[: R ; "status" <- QEOK :] in
      write_type i r[: R ; "pid" <- pid :]
    else write_status i QESRCH
  else write_status i QENOSYS.

Definition proc_vc_detach (i : MsgContext) : H K unit := write_status i QEOK.

Definition proc_prefix (i : MsgContext) : H K unit :=
  let L := request msg_proc_prefix in
  let R := reply msg_proc_prefix in
  msg ← read_type i L;
  let r := (clear R)[: R ; "status" <- QEOK :] in
  match arr L "path" eq_refl msg with
  | 0 :: _ => write_type i (set_str R "prefix" eq_refl (lit "/=1,a") r)
  | _ => write_type i r
  end.

(** The size given for the terminal's name is that of the other name. *)
Definition session_info (sid : Z) (tty : cstring) : list Z :=
  let R := s_session_reply in
  let r := (clear R)[: R ; "status" <- QEOK :] in
  let r := r[: R ; "links" <- 1 :] in
  let r := set_str R "name" eq_refl (lit "sys") r in
  let r := r[: R ; "pid" <- sid :] in
  let r := r[: R ; "sid" <- sid :] in
  set_str_max R "tty_name" eq_refl tty (size_of R "name") r.

Definition proc_sid_query (i : MsgContext) : H K unit :=
  let L := s_session_request in
  let R := s_session_reply in
  msg ← read_type i L;
  e ← get;
  let sid := msg[: L ; "sid" :] in
  match qnx (m_pids e) (i16 sid) with
  | None => write_type i (clear R)[: R ; "status" <- QEINVAL :]
  | Some _ => tty ← sysc SCtermid; write_type i (session_info sid tty)
  end.

Definition proc_sid_set (i : MsgContext) : H K unit :=
  _ ← read_type i s_session_request;
  r ← sysc SSetsid;
  if r <? 0 then write_errno i else write_status i QEOK.

(** ** Process information *)

Definition proc_psinfo (i : MsgContext) : H K unit :=
  let L := request msg_proc_psinfo in
  msg ← read_type i L;
  my ← proc_pid;
  if msg[: L ; "pid" :] =? my then
    _ ← write_status i QEOK;
    let ps := (clear s_psinfo)[: s_psinfo ; "pid" <- my :] in
    pgid ← sysc (SGetpgid 0);
    group ← host_to_qnx pgid;
    let ps := ps[: s_psinfo ; "pid_group" <- group :] in
    rgid ← sysc SGetgid;
    let ps := ps[: s_psinfo ; "rgid" <- rgid :] in
    ruid ← sysc SGetuid;
    let ps := ps[: s_psinfo ; "ruid" <- ruid :] in
    egid ← sysc SGetegid;
    let ps := ps[: s_psinfo ; "egid" <- egid :] in
    euid ← sysc SGeteuid;
    let ps := ps[: s_psinfo ; "euid" <- euid :] in
    host_sid ← sysc (SGetsid 0);
    sid ← host_to_qnx host_sid;
    let ps := ps[: s_psinfo ; "sid" <- sid :] in
    father ← proc_parent_pid;
    let ps := ps[: s_psinfo ; "proc.father" <- father :] in
    w ← world;
    let ps := set_str s_psinfo "proc.name" eq_refl (qnx_path (w_executed_file w)) ps in
    write_at i 2 ps
  else write_status i QESRCH.

Definition proc_getid (i : MsgContext) : H K unit :=
  let R := reply msg_proc_getid in
  my ← proc_pid;
  let r := (clear R)[: R ; "pid" <- my :] in
  parent ← proc_parent_pid;
  let r := r[: R ; "ppid" <- parent :] in
  pgrp ← sysc SGetpgrp;
  group ← host_to_qnx pgrp;
  let r := r[: R ; "pid_group" <- group :] in
  rgid ← sysc SGetgid;
  let r := r[: R ; "rgid" <- rgid :] in
  egid ← sysc SGetegid;
  let r := r[: R ; "egid" <- egid :] in
  ruid ← sysc SGetuid;
  let r := r[: R ; "ruid" <- ruid :] in
  euid ← sysc SGeteuid;
  write_type i r[: R ; "euid" <- euid :].

Definition osinfo (time_selector : Z) : list Z :=
  let o := (clear s_osinfo)[: s_osinfo ; "cpu" <- 486 :] in
  let o := o[: s_osinfo ; "fpu" <- 487 :] in
  let o := o[: s_osinfo ; "cpu_speed" <- 960 :] in
  let o := o[: s_osinfo ; "nodename" <- nid :] in
  let o := o[: s_osinfo ; "ssinfo_sel" <- mk_invalid_sel 0 :] in
  let o := o[: s_osinfo ; "disksel" <- mk_invalid_sel 1 :] in
  let o := o[: s_osinfo ; "machinesel" <- mk_invalid_sel 2 :] in
  let o := o[: s_osinfo ; "timesel" <- mk_sel time_selector :] in
  set_str s_osinfo "machine" eq_refl (lit "Qine") o.

Definition proc_osinfo (i : MsgContext) : H K unit :=
  w ← world;
  _ ← write_status i QEOK;
  write_at i 2 (osinfo (w_time_selector w)).
End Names.

(** ** Signals *)

Section Signals.
Context {K : Type} {FK : FdKernel K} {HK : HostKernel K}.
Context (sigaction : Z -> SigHandler -> Z).

Notation L := s_signal_request.
Notation R := s_signal_reply.

Definition proc_sigtab (i : MsgContext) : H K unit :=
  msg ← read_type i L;
  e ← get;
  t ← lift (translate_segmented (e_space e)
              (mkFarPointer (gr (e_guest e) DS) msg[: L ; "offset" :]) sizeof_sigtab READ);
  _ ← Prelude.modify (set_sigtab (Some t));
  write_status i QEOK.

(** [signal_sigact] returns QNX errors, which are positive. *)
Definition proc_sigact (i : MsgContext) : H K unit :=
  msg ← read_type i L;
  r ← signal_sigact sigaction msg[: L ; "signum" :]
        (mkFarPointer msg[: L ; "segment" :] msg[: L ; "offset" :]) msg[: L ; "mask" :];
  if r <? 0 then err ← errno; write_type i (clear R)[: R ; "status" <- map_errno err :]
  else write_type i (clear R)[: R ; "status" <- QEOK :].

Definition proc_sigraise (i : MsgContext) : H K unit :=
  msg ← read_type i L;
  _ ← signal_raise msg[: L ; "signum" :];
  write_type i (clear R).

Definition proc_sigmask (i : MsgContext) : H K unit :=
  msg ← read_type i L;
  old ← gets signal_getmask;
  let r := (clear R)[: R ; "old_bits" <- old :] in
  _ ← signal_mask msg[: L ; "mask" :] msg[: L ; "bits" :];
  new ← gets signal_getmask;
  write_type i r[: R ; "new_bits" <- new :].

(** ** Semaphores *)

Definition proc_sem_init (i : MsgContext) : H K unit :=
  let S := request msg_proc_sem_init in
  msg ← read_type i S;
  let msg := msg[: S ; "type" <- QEOK :] in
  write_type i msg[: S ; "sem.semid" <- 711 :].

Definition proc_sem_destroy (i : MsgContext) : H K unit := write_status i QEOK.

(** ** Timers *)

Notation T := s_timer_request.
Notation TR := s_timer_reply.

Definition proc_timer_create (i : MsgContext) : H K unit :=
  _ ← read_type i T;
  let r := (clear TR)[: TR ; "status" <- QEOK :] in
  write_type i r[: TR ; "arg.cookie" <- 3 :].

(** [clock_nanosleep] returns the error instead of setting [errno]; the
    remaining seconds go to the nanoseconds of the reply and vice versa. *)
Definition proc_timer_settime (i : MsgContext) : H K unit :=
  msg ← read_type i T;
  let flags := msg[: T ; "arg.flags" :] in
  let host_flags := if has flags QTIMER_ABSTIME then TIMER_ABSTIME else 0 in
  if has flags (Z.lor QTIMER_PRESERVE_EXEC QTIMER_ADDREL) then write_status i QENOTSUP
  else
    '(r, (rem_sec, rem_nsec)) ←
      sysc (SNanosleep host_flags (msg[: T ; "arg.sec1" :], msg[: T ; "arg.nsec1" :]));
    err ← errno;
    let rep := if r =? 0 then clear TR else (clear TR)[: TR ; "status" <- map_errno err :] in
    let rep := rep[: TR ; "arg.nsec1" <- rem_sec :] in
    write_type i rep[: TR ; "arg.sec1" <- rem_nsec :].

Definition proc_timer_alarm (i : MsgContext) : H K unit :=
  msg ← read_type i T;
  if negb (msg[: T ; "arg.notify_type" :] =? QTNOTIFY_SIGNAL)
     || negb (msg[: T ; "arg.data" :] =? Sigset.Qnx.QSIGALRM)
  then write_status i QENOTSUP
  else
    r ← sysc (SAlarm msg[: T ; "arg.sec1" :]);
    let rep := set_sub TR "arg" s_timer_args eq_refl
                 (get_sub T "arg" s_timer_args eq_refl msg) (clear TR) in
    let rep := rep[: TR ; "status" <- QEOK :] in
    write_type i rep[: TR ; "arg.sec1" <- r :].
End Signals.

(** ** Waiting *)

(** [<sys/wait.h>]. *)
Definition WTERMSIG (st : Z) : Z := Z.land st 127.
Definition WEXITSTATUS (st : Z) : Z := Z.shiftr (Z.land st 65280) 8.
Definition WSTOPSIG (st : Z) : Z := WEXITSTATUS st.
Definition WIFSIGNALED (st : Z) : bool := 0 <? Z.shiftr (wraps 8 (Z.land st 127 + 1)) 1.
Definition WIFSTOPPED (st : Z) : bool := Z.land st 255 =? 127.

(** The status of a child in QNX form: exit code above, signal below. *)
Definition qnx_status (host_status : Z) : Z :=
  if WIFSIGNALED host_status then map_sig_host_to_qnx (WTERMSIG host_status)
  else if WIFSTOPPED host_status then map_sig_host_to_qnx (WSTOPSIG host_status)
  else Z.shiftl (WEXITSTATUS host_status) 8.

Section Wait.
Context {K : Type} {FK : FdKernel K} {HK : HostKernel K}.

(** The host's argument for the guest's. *)
Definition wait_code (pid : Z) : H K (option Z) :=
  if (pid =? -1) || (pid =? 0) then mret (Some pid)
  else if 0 <? pid then p ← valid_host pid; mret (q_host_pid <$> p)
  else p ← valid_host (i16 (- pid)); mret ((fun p => - q_host_pid p) <$> p).

(** The child's QNX pid, which is given back. *)
Definition reap (child_host_pid : Z) : H K Z :=
  e ← get;
  match host (m_pids e) child_host_pid with
  | None => mret PID_UNKNOWN
  | Some n =>
      q ← lift (deref (m_pids e) n);
      _ ← on_pids (free_pid n);
      mret (q_qnx_pid q)
  end.

Definition proc_wait (i : MsgContext) : H K unit :=
  let L := request msg_proc_wait in
  let R := reply msg_proc_wait in
  msg ← read_type i L;
  code ← wait_code msg[: L ; "pid" :];
  match code with
  | None => write_status i QECHILD
  | Some code =>
      let options := if has msg[: L ; "options" :] QWNOHANG then WNOHANG else 0 in
      '(child, status) ← sysc (SWaitpid code options);
      if child <? 0 then
        err ← errno;
        let r := (clear R)[: R ; "status" <- map_errno err :] in
        write_type i r[: R ; "pid" <- -1 :]
      else if child =? 0 then
        let r := (clear R)[: R ; "status" <- QEOK :] in
        write_type i r[: R ; "pid" <- 0 :]
      else
        pid ← reap child;
        let r := (clear R)[: R ; "pid" <- pid :] in
        let r := r[: R ; "status" <- QEOK :] in
        write_type i r[: R ; "xstatus" <- qnx_status status :]
  end.
End Wait.

(** ** [exec] *)

(** [isalnum] in the C locale. *)
Definition isalnum (c : Z) : bool :=
  ((48 <=? c) && (c <=? 57)) || ((65 <=? c) && (c <=? 90)) || ((97 <=? c) && (c <=? 122)).

Fixpoint skip_alnum (s : cstring) : cstring :=
  match s with c :: s' => if isalnum c then skip_alnum s' else s | [] => [] end.

(** The network node in front of a path. *)
Definition strip_node (path : cstring) : cstring :=
  match path with
  | c1 :: c2 :: path' => if (c1 =? SLASH) && (c2 =? SLASH) then skip_alnum path' else path
  | _ => path
  end.

(** What follows the [spawn] structure. *)
Record ExecArgs := mkExecArgs { ea_path : cstring; ea_argv : list cstring; ea_envp : list cstring }.

Section Exec.
Context {K : Type} {FK : FdKernel K} {HK : HostKernel K}.

(** [read_string]: up to a NUL; the end of the message counts as one. *)
Fixpoint read_string (fuel : nat) (mem : Mem) (T : Translation) (m : Msg) (r : StreamReader)
  : outcome (cstring * StreamReader) :=
  match fuel with
  | O => Throw (Undefined "fuel")
  | S fuel =>
      '(c, r) ← sr_get (T := T) mem m 0 r;
      if c =? 0 then Ok ([], r)
      else '(s, r) ← read_string fuel mem T m r; Ok (c :: s, r)
  end.

Fixpoint read_strings (n fuel : nat) (mem : Mem) (T : Translation) (m : Msg) (r : StreamReader)
  : outcome (list cstring * StreamReader) :=
  match n with
  | O => Ok ([], r)
  | S n =>
      '(s, r) ← read_string fuel mem T m r;
      '(l, r) ← read_strings n fuel mem T m r;
      Ok (s :: l, r)
  end.

(** Every byte of the message is read at most once. *)
Definition read_fuel (mem : Mem) (m : Msg) : nat :=
  Z.to_nat (foldr (fun c n => mxfer_len c + n) 0 (chunks_of mem (m_send m))) + 1.

Definition read_exec_args (mem : Mem) (T : Translation) (m : Msg) (argc envc : nat) : outcome ExecArgs :=
  let fuel := read_fuel mem m in
  r ← StreamReader_new mem m (Z.of_nat (sizeof s_spawn));
  '(path, r) ← read_string fuel mem T m r;
  '(argv, r) ← read_strings argc fuel mem T m r;
  '(_, r) ← read_string fuel mem T m r;
  '(envp, r) ← read_strings envc fuel mem T m r;
  '(_, _) ← read_string fuel mem T m r;
  Ok (mkExecArgs path argv envp).

Definition cwd_prefix : cstring := lit "__CWD=".

(** The variables that are left; the one behind an erased variable is not
    looked at. *)
Fixpoint filter_cwd (envp : list cstring) : H K (list cstring) :=
  match envp with
  | [] => mret []
  | v :: envp =>
      if starts_with v cwd_prefix then
        cwd ← to_host_path (drop (length cwd_prefix) v) false;
        _ ← sysc (SChdir cwd);
        match envp with
        | [] => mret []
        | v' :: envp => l ← filter_cwd envp; mret (v' :: l)
        end
      else l ← filter_cwd envp; mret (v :: l)
  end.

(** The ten standard descriptors of the new program. *)
Fixpoint redirect (stdfds : list Z) (fdi : Z) : H K unit :=
  match stdfds with
  | [] => mret ()
  | fd :: stdfds =>
      _ ← (if fd =? 255 then mret ()
           else
             _ ← (if fd =? fdi then mret ()
                  else
                    from ← map_fd fd;
                    Prelude.modify (fun e => set_k (fst (k_dup2 from fdi (kern e))) e));
             _ ← sysc (SSetfd fdi 0);
             mret ());
      redirect stdfds (fdi + 1)
  end.

(** The arguments and environment given to [execve]. *)
Definition exec_host (p : PathInfo) (a : ExecArgs) : H K (cstring * list cstring * list cstring) :=
  t ← lift (exec_type p);
  match t with
  | EXEC_HOST => envp ← filter_cwd (ea_envp a); mret (host_path p, ea_argv a, envp)
  | EXEC_QNX =>
      w ← world;
      let argv := w_self_call w ++ [lit "--exec"; host_path p; lit "--"] ++ ea_argv a in
      mret (default [] (head argv), argv, ea_envp a)
  end.

Definition proc_exec_common (i : MsgContext) : H K unit :=
  msg ← read_type i s_spawn;
  e ← get;
  a ← lift (read_exec_args (g_mem (e_guest e)) (space_translation (e_space e)) (m_msg i)
              (Z.to_nat msg[: s_spawn ; "argc" :]) (Z.to_nat msg[: s_spawn ; "envc" :]));
  p ← to_host (strip_node (ea_path a)) false;
  r ← sysc (SAccess (host_path p) X_OK);
  if r <? 0 then mret ()
  else
    '(final_exec, argv, envp) ← exec_host p a;
    _ ← redirect (arr s_spawn "stdfds" eq_refl msg) 0;
    done ← sysc (SExecve final_exec argv envp);
    if done : bool then throw Replaced else mret ().

Definition proc_exec (i : MsgContext) : H K unit :=
  _ ← proc_exec_common i;
  err ← errno;
  write_type i (clear s_loaded_reply)[: s_loaded_reply ; "status" <- map_errno err :].

(** ** [fork] and [spawn] *)

Definition magic_ptr : H K Z :=
  w ← world; match w_magic w with Some a => mret a | None => throw (Undefined "m_magic") end.

(** [Process::update_pids_after_fork]. *)
Definition update_pids_after_fork (new_pid : Z) : H K unit :=
  _ ← Prelude.modify (fun e => set_world (set_parent (m_my_pid e) (e_world e)) e);
  my ← on_pids (alloc_related_pid new_pid SELF);
  match my with
  | None => throw (Undefined "null pointer")
  | Some my =>
      _ ← Prelude.modify (set_my_pid my);
      a ← magic_ptr;
      my ← proc_pid;
      _ ← host_store a (le_bytes 2 my);
      dads ← proc_parent_pid;
      _ ← host_store (a + 4) (le_bytes 2 dads);
      host_store (a + 8) (le_bytes 4 nid)
  end.

Definition loaded (status son_pid : Z) : list Z :=
  let r := (clear s_loaded_reply)[: s_loaded_reply ; "status" <- status :] in
  r[: s_loaded_reply ; "son_pid" <- son_pid :].

(** The pid of a new child. *)
Definition child_pid (host_pid : Z) : H K Z :=
  p ← on_pids (alloc_child_pid host_pid);
  e ← get; q ← lift (deref (m_pids e) p); mret (q_qnx_pid q).

Definition proc_fork (i : MsgContext) : H K unit :=
  r ← sysc SFork;
  if r <? 0 then err ← errno; write_type i (loaded (map_errno err) 0)
  else if r =? 0 then
    me ← sysc SGetpid;
    _ ← update_pids_after_fork me;
    write_type i (loaded QEOK 0)
  else son ← child_pid r; write_type i (loaded QEOK son).

Definition proc_spawn (i : MsgContext) : H K unit :=
  r ← sysc SFork;
  if r <? 0 then err ← errno; write_type i (loaded (map_errno err) 0)
  else if r =? 0 then
    _ ← proc_exec_common i;
    throw (Exit 255)
  else son ← child_pid r; write_type i (loaded QEOK son).
End Exec.
