(* ===== verification/IoHandler.v ===== *)
(** * IoHandler: files and file systems, [main_handler.cpp], [fsutil.cpp]

    The [io_*] and [fsys_*] methods of [MainHandler]: they translate paths,
    descriptors and flags, make the host call, and translate the answer. *)

From S2P Require Import Prelude Types Memory IdMap PathMapper PidMap Timespec TerminalFilter FdMap Segment AddressSpace Msg Errno GuestContext Emu Layout QnxMsg Host MsgHandler ProcHandler.

Import Errno.Qnx.

(** ** Constants *)

(** [qnx/io.h]. *)
Definition IO_HNDL_RDDIR : Z := 2.
Definition IO_HNDL_CHANGE : Z := 3.
Definition IO_HNDL_UTIME : Z := 4.
Definition QO_RDONLY : Z := 0.
Definition QO_WRONLY : Z := 1.
Definition QO_RDWR : Z := 2.
Definition QO_ACCMODE : Z := 3.
Definition QO_APPEND : Z := 8.
Definition QO_DSYNC : Z := 0x10.
Definition QO_SYNC : Z := 0x20.
Definition QO_CREAT : Z := 0x100.
Definition QO_TRUNC : Z := 0x200.
Definition QO_EXCL : Z := 0x400.
Definition QO_NOCTTY : Z := 0x800.

(** The host's [fcntl.h]. *)
Definition O_RDONLY : Z := 0.
Definition O_WRONLY : Z := 1.
Definition O_RDWR : Z := 2.
Definition O_CREAT : Z := 0x40.
Definition O_EXCL : Z := 0x80.
Definition O_NOCTTY : Z := 0x100.
Definition O_TRUNC : Z := 0x200.
Definition O_APPEND : Z := 0x400.
Definition O_DSYNC : Z := 0x1000.
Definition O_DIRECTORY : Z := 0x10000.
Definition O_NOFOLLOW : Z := 0x20000.
Definition O_SYNC : Z := 0x101000.
Definition O_PATH : Z := 0x200000.

(** [qnx/stat.h]. *)
Definition QS_IFIFO : Z := 0x1000.
Definition QS_IFCHR : Z := 0x2000.
Definition QS_IFDIR : Z := 0x4000.
Definition QS_IFBLK : Z := 0x6000.
Definition QS_IFREG : Z := 0x8000.
Definition QS_IFLNK : Z := 0xA000.
Definition QS_IFSOCK : Z := 0xC000.
Definition QS_ISUID : Z := 0x800.
Definition QS_ISGID : Z := 0x400.
Definition QS_ISVTX : Z := 0x200.
Definition QS_QNX_SPECIAL : Z := 0x4000.

(** The host's [sys/stat.h]. *)
Definition S_IFMT : Z := 0xf000.
Definition S_IFIFO : Z := 0x1000.
Definition S_IFCHR : Z := 0x2000.
Definition S_IFDIR : Z := 0x4000.
Definition S_IFBLK : Z := 0x6000.
Definition S_IFREG : Z := 0x8000.
Definition S_IFLNK : Z := 0xa000.
Definition S_IFSOCK : Z := 0xc000.
Definition S_ISUID : Z := 0x800.
Definition S_ISGID : Z := 0x400.
Definition S_ISVTX : Z := 0x200.
Definition ACCESSPERMS : Z := 0x1ff.
Definition ALLPERMS : Z := 0xfff.
Definition S_ISLNK (mode : Z) : bool := Z.land mode S_IFMT =? S_IFLNK.
Definition S_ISDIR (mode : Z) : bool := Z.land mode S_IFMT =? S_IFDIR.

Definition SEEK_SET : Z := 0.
Definition SEEK_CUR : Z := 1.

(** [qnx/lock.h] and the host's. *)
Definition QF_SETLK : Z := 6.
Definition QF_SETLKW : Z := 7.
Definition QF_GETLK : Z := 14.
Definition QF_RDLCK : Z := 1.
Definition QF_WRLCK : Z := 2.
Definition QF_UNLCK : Z := 3.
Definition F_GETLK : Z := 5.
Definition F_SETLK : Z := 6.
Definition F_SETLKW : Z := 7.
Definition F_RDLCK : Z := 0.
Definition F_WRLCK : Z := 1.
Definition F_UNLCK : Z := 2.

(** [qnx/types.h]. *)
Definition QPATH_MAX : Z := 255.
Definition QNAME_MAX : Z := 48.
Definition QNAME_MAX_T : nat := 49.

(** Indices of the host's control characters. *)
Definition VTIME : nat := 5.
Definition VMIN : nat := 6.

(** ** Flags and modes *)

(** [if (v & bit) r |= flag]. *)
Definition flag_if (v bit flag : Z) : Z := if has v bit then flag else 0.

Definition map_file_flags_to_host (oflag : Z) : Z :=
  let acc := Z.land oflag QO_ACCMODE in
  let m := 0 in
  let m := if acc =? QO_RDONLY then Z.lor m O_RDONLY else m in
  let m := if acc =? QO_WRONLY then Z.lor m O_WRONLY else m in
  let m := if acc =? QO_RDWR then Z.lor m O_RDWR else m in
  let m := Z.lor m (flag_if oflag QO_APPEND O_APPEND) in
  let m := Z.lor m (flag_if oflag QO_CREAT O_CREAT) in
  let m := if has oflag QO_TRUNC && ((acc =? QO_RDWR) || (acc =? QO_WRONLY)) then Z.lor m O_TRUNC else m in
  let m := Z.lor m (flag_if oflag QO_NOCTTY O_NOCTTY) in
  let m := Z.lor m (flag_if oflag QO_EXCL O_EXCL) in
  let m := Z.lor m (flag_if oflag QO_SYNC O_SYNC) in
  Z.lor m (flag_if oflag QO_DSYNC O_DSYNC).

(** The flags [fcntl_flags] reports for those of the host. *)
Definition map_file_flags_to_qnx (r : Z) : Z :=
  let m := flag_if r O_WRONLY QO_WRONLY in
  let m := Z.lor m (flag_if r O_RDWR QO_RDWR) in
  let m := Z.lor m (flag_if r O_APPEND QO_APPEND) in
  let m := Z.lor m (flag_if r O_CREAT QO_CREAT) in
  let m := Z.lor m (flag_if r O_TRUNC QO_TRUNC) in
  let m := Z.lor m (flag_if r O_NOCTTY QO_NOCTTY) in
  let m := Z.lor m (flag_if r O_EXCL QO_EXCL) in
  let m := Z.lor m (flag_if r O_SYNC QO_SYNC) in
  Z.lor m (flag_if r O_DSYNC QO_DSYNC).

(** The QNX type bits for the host's. *)
Definition map_file_type (st_mode : Z) : Z :=
  let t := Z.land st_mode S_IFMT in
  if t =? S_IFIFO then QS_IFIFO
  else if t =? S_IFCHR then QS_IFCHR
  else if t =? S_IFDIR then QS_IFDIR
  else if t =? S_IFBLK then QS_IFBLK
  else if t =? S_IFREG then QS_IFREG
  else if t =? S_IFLNK then QS_IFLNK
  else if t =? S_IFSOCK then QS_IFSOCK
  else QS_IFCHR.

Definition map_mode (st_mode : Z) : Z :=
  let m := Z.land st_mode ACCESSPERMS in
  let m := Z.lor m (map_file_type st_mode) in
  let m := Z.lor m (flag_if st_mode S_ISUID QS_ISUID) in
  let m := Z.lor m (flag_if st_mode S_ISGID QS_ISGID) in
  Z.lor m (flag_if st_mode S_ISVTX QS_ISVTX).

(** [transfer_stat(dst.stat, src)], on the reply [dst] that holds the structure. *)
Definition transfer_stat (src : HostStat) (dst : list Z) : list Z :=
  let S := s_stat in
  let d := dst[: S ; "ino" <- st_ino src :] in
  let d := d[: S ; "dev" <- st_dev src :] in
  let d := d[: S ; "size" <- st_size src :] in
  let d := d[: S ; "rdev" <- st_rdev src :] in
  let d := d[: S ; "ftime" <- 0 :] in
  let d := d[: S ; "mtime" <- st_mtime src :] in
  let d := d[: S ; "atime" <- st_atime src :] in
  let d := d[: S ; "ctime" <- st_ctime src :] in
  let d := d[: S ; "mode" <- map_mode (st_mode src) :] in
  let d := d[: S ; "uid" <- st_uid src :] in
  let d := d[: S ; "gid" <- st_gid src :] in
  let d := d[: S ; "nlink" <- st_nlink src :] in
  d[: S ; "status" <- 0 :].

Definition with_stat (R : layout) (H : has_sub R "stat" s_stat = true) (src : HostStat) (r : list Z)
  : list Z :=
  set_sub R "stat" s_stat H (transfer_stat src (get_sub R "stat" s_stat H r)) r.

(** ** [fsutil.cpp]: the calls with a growing buffer *)

(** [std::string::resize]. *)
Definition resize (n : nat) (s : list Z) : list Z := take n (s ++ replicate n 0).

Section Fsutil.
Context {K : Type} {FK : FdKernel K} {HK : HostKernel K}.

(** The buffer keeps its bytes when it grows; the result has the size of the
    buffer, the link's target is its prefix. *)
Fixpoint readlink_loop (fuel : nat) (path : cstring) (size : nat) (dst : list Z)
  : H K (option (list Z)) :=
  match fuel with
  | O => throw (Undefined "fuel")
  | S fuel =>
      let dst := resize (S size) dst in
      '(r, data) ← sysc (SReadlink path (Z.of_nat (S size)));
      if r <? 0 then mret None
      else
        let dst := splice 0 data dst in
        if r =? Z.of_nat (S size) then readlink_loop fuel path (size * 2) dst
        else mret (Some (resize size dst))
  end.

(** Eight doublings pass the longest path of the host. *)
Definition readlink (path : cstring) : H K (option (list Z)) := readlink_loop 8 path 256 [].

Definition realpath (path : cstring) : H K cstring :=
  r ← sysc (SRealpath path); mret (default [] r).

(** [ttyname_r] returns a positive error, which is taken for success. *)
Definition ttyname (host_fd : Z) : H K (option cstring) :=
  '(r, data) ← sysc (STtyname host_fd 257);
  if r <? 0 then _ ← errno_assign r; mret None
  else mret (Some (cstr (resize 257 data ++ [0]))).
End Fsutil.

(** ** Opening *)

(** An exception that unwinds the stack, as opposed to an end of the program. *)
Definition unwinds (e : exn) : bool :=
  match e with
  | AssertFailed | Abort | Exit _ | Replaced | Blocked | Undefined _ => false
  | _ => true
  end.

Section Io.
Context {K : Type} {FK : FdKernel K} {HK : HostKernel K}.

(** A scope that owns [UniqueFd]s, destroyed in this order when it is left. *)
Definition scoped {A} (fds : list Z) (m : H K A) : H K A := fun e =>
  let drop_all e := foldl (fun e fd => fst (unique_drop fd e)) e fds in
  match m e with
  | (e, Throw x) => (if unwinds x then drop_all e else e, Throw x)
  | (e, Ok a) => (drop_all e, Ok a)
  end.

Definition set_fd_path (p : PathInfo) (f : QnxFd) : QnxFd :=
  mkQnxFd (m_fd f) (m_nid f) (m_pid f) (m_vid f) (m_flags f) (m_handle f) (m_open f) p
    (m_host_fd f) (m_host_dir f) (m_filter f).

Definition set_host_fd (n : Z) (f : QnxFd) : QnxFd :=
  mkQnxFd (m_fd f) (m_nid f) (m_pid f) (m_vid f) (m_flags f) (m_handle f) (m_open f) (m_path f)
    n (m_host_dir f) (m_filter f).

(** The host's flags for an [open] or a [handle] request. *)
Definition open_flags (type oflag mode : Z) : Z :=
  if type =? TYPE msg_io_io_open then map_file_flags_to_host oflag
  else if type =? TYPE msg_io_handle then
    if oflag =? IO_HNDL_RDDIR then Z.lor O_RDONLY O_DIRECTORY
    else if (oflag =? IO_HNDL_CHANGE) || (oflag =? IO_HNDL_UTIME) then Z.lor O_RDONLY O_RDONLY
    else
      let m := Z.lor O_RDONLY O_PATH in
      if has mode QS_IFLNK then Z.lor m O_NOFOLLOW else m
  else O_RDONLY.

(** Resolve the path kept in a descriptor. *)
Definition resolve_fd_path (fdi : Z) : H K cstring :=
  f ← attached_fd fdi;
  w ← world;
  p ← lift (map_path_to_host (w_paths w) (m_path f));
  _ ← on_fds (Prelude.modify (update_fd fdi (set_fd_path p)));
  mret (host_path p).

(** The descriptor [tmp] is left to its [UniqueFd] unless it was taken over. *)
Definition open_into (i : MsgContext) (fdi tmp : Z) : H K unit :=
  f ← attached_fd fdi;
  scoped (if tmp =? m_fd f then [] else [tmp])
    (ok ← on_fd fdi (assign_fd tmp);
     if negb ok then write_errno i else write_status i QEOK).

Definition io_open (i : MsgContext) : H K unit :=
  let L := request msg_io_io_open in
  msg ← read_type i L;
  let fdi := u16 msg[: L ; "open.fd" :] in
  _ ← attached_fd fdi;
  let flags := open_flags msg[: L ; "type" :] msg[: L ; "open.oflag" :] msg[: L ; "open.mode" :] in
  file ← lift (c_string (arr L "file" eq_refl msg));
  _ ← on_fds (Prelude.modify (update_fd fdi (set_fd_path (mk_qnx_path file true))));
  path ← resolve_fd_path fdi;
  tmp ← sysc (SOpen path flags msg[: L ; "open.mode" :]);
  if negb (FdMap.valid tmp) then write_errno i else open_into i fdi tmp.

Definition io_chdir (i : MsgContext) : H K unit :=
  let L := request msg_io_io_open in
  msg ← read_type i L;
  file ← lift (c_string (arr L "file" eq_refl msg));
  p ← to_host_path file true;
  r ← sysc (SAccess p X_OK);
  write_result i r.

Definition io_rename (i : MsgContext) : H K unit :=
  let L := request msg_io_rename in
  msg ← read_type i L;
  from ← lift (c_string (arr L "from" eq_refl msg));
  from ← to_host_path from false;
  to ← lift (c_string (arr L "to" eq_refl msg));
  to ← to_host_path to false;
  r ← sysc (SRename from to);
  write_result i r.

(** [close] leaves the object closed even when the host reports an error. *)
Definition io_close (i : MsgContext) : H K unit :=
  let L := request msg_io_close in
  msg ← read_type i L;
  let fdi := u16 msg[: L ; "fd" :] in
  _ ← open_fd fdi;
  ok ← on_fd fdi close;
  if negb ok then write_errno i else write_status i QEOK.

(** The target is closed first; it may be the source itself. *)
Definition io_dup (i : MsgContext) : H K unit :=
  let L := request msg_io_dup in
  msg ← read_type i L;
  let src := msg[: L ; "src_fd" :] in
  let dst := msg[: L ; "dst_fd" :] in
  _ ← open_fd src;
  d ← attached_fd dst;
  _ ← (if m_open d then on_fd dst close else mret true);
  s ← attached_fd src;
  e ← get;
  let '(k, new_fd) := k_dup2 (m_host_fd s) (m_fd d) (kern e) in
  _ ← put (set_k k e);
  if negb (FdMap.valid new_fd) then write_errno i
  else
    scoped (if new_fd =? m_fd d then [] else [new_fd])
      (_ ← on_fd dst (assign_fd new_fd);
       _ ← on_fds (Prelude.modify (update_fd dst (set_host_fd dst)));
       write_status i QEOK).

(** ** Status *)

Definition io_stat (i : MsgContext) : H K unit :=
  let L := request msg_io_stat in
  let R := reply msg_io_stat in
  msg ← read_type i L;
  file ← lift (c_string (arr L "path" eq_refl msg));
  p ← to_host_path file true;
  '(r, sb) ← sysc (if has msg[: L ; "args.mode" :] QS_IFLNK then SLstat p else SStat p);
  if r <? 0 then err ← errno; write_type i (clear R)[: R ; "status" <- map_errno err :]
  else
    let rep := with_stat R eq_refl sb (clear R) in
    rep ← (if S_ISLNK (st_mode sb) then
             target ← readlink p;
             match target with
             | Some (c :: t) =>
                 if c =? SLASH then
                   q ← to_qnx_path (cstr (c :: t));
                   mret rep[: R ; "stat.size" <- Z.of_nat (length q) :]
                 else mret rep
             | Some [] => q ← to_qnx_path []; mret rep[: R ; "stat.size" <- Z.of_nat (length q) :]
             | None => mret rep
             end
           else mret rep);
    write_type i rep[: R ; "status" <- QEOK :].

Definition io_fstat (i : MsgContext) : H K unit :=
  let L := request msg_io_fstat in
  let R := reply msg_io_fstat in
  msg ← read_type i L;
  fd ← map_fd msg[: L ; "fd" :];
  '(r, sb) ← sysc (SFstat fd);
  if r <? 0 then err ← errno; write_type i (clear R)[: R ; "status" <- map_errno err :]
  else write_type i (with_stat R eq_refl sb (clear R)).

(** ** Directories *)

Context (uninit : nat -> Z).

Definition dirent_size : Z := Z.of_nat (sizeof s_stat + QNAME_MAX_T).

(** The [for] over the entries; [path_buf] keeps the bytes behind a shorter
    name.  [None]: an error, the method returns without a reply. *)
Fixpoint readdir_loop (n : nat) (i : MsgContext) (host_fd dst_off ndirs : Z) (path_buf : list Z)
  : H K (option Z) :=
  match n with
  | O => mret (Some ndirs)
  | S n =>
      d ← sysc (SReaddir host_fd);
      match d with
      | None => err ← errno; mret (if err =? 0 then Some ndirs else None)
      | Some name =>
          let path_buf := fst (qine_strlcpy path_buf name QNAME_MAX_T) in
          _ ← write_at i dst_off (clear s_stat);
          _ ← write_at i (dst_off + Z.of_nat (sizeof s_stat)) path_buf;
          readdir_loop n i host_fd (dst_off + dirent_size) (u8 (ndirs + 1)) path_buf
      end
  end.

Definition io_readdir (i : MsgContext) : H K unit :=
  let L := request msg_io_readdir in
  let R := reply msg_io_readdir in
  msg ← read_type i L;
  let fdi := msg[: L ; "fd" :] in
  _ ← open_fd fdi;
  ok ← on_fd fdi prepare_dir;
  if negb ok then write_errno i
  else
    fd ← attached_fd fdi;
    _ ← errno_assign 0;
    n ← readdir_loop (Z.to_nat msg[: L ; "ndirs" :]) i (m_host_fd fd) (Z.of_nat (sizeof R)) 0
          (indeterminate uninit QNAME_MAX_T);
    match n with
    | None => mret ()
    | Some n =>
        let r := (clear R)[: R ; "ndirs" <- n :] in
        write_type i r[: R ; "status" <- QEOK :]
    end.

Definition io_rewinddir (i : MsgContext) : H K unit :=
  let L := request msg_io_readdir in
  msg ← read_type i L;
  let fdi := msg[: L ; "fd" :] in
  _ ← open_fd fdi;
  ok ← on_fd fdi prepare_dir;
  if negb ok then write_errno i
  else
    fd ← attached_fd fdi;
    _ ← sysc (SRewinddir (m_host_fd fd));
    write_status i QEOK.
End Io.

(** ** Reading and writing *)

Section Data.
Context {K : Type} {FK : FdKernel K} {HK : HostKernel K}.
Context (garbage_read : Z) (uninit : nat -> Z).

Notation RL := (request msg_io_read).
Notation RR := (reply msg_io_read).

(** The reply of [io_read] and of [io_write]; an error is the host's number. *)
Definition read_info (r err : Z) : list Z :=
  let rep := indeterminate uninit (sizeof RR) in
  let rep := rep[: RR ; "zero" <- 0 :] in
  if r <? 0 then
    let rep := rep[: RR ; "status" <- err :] in rep[: RR ; "nbytes" <- 0 :]
  else
    let rep := rep[: RR ; "status" <- QEOK :] in rep[: RR ; "nbytes" <- r :].

Definition set_filter (fl : TerminalFilter) (f : QnxFd) : QnxFd :=
  mkQnxFd (m_fd f) (m_nid f) (m_pid f) (m_vid f) (m_flags f) (m_handle f) (m_open f) (m_path f)
    (m_host_fd f) (m_host_dir f) (Some fl).

Definition filter_termios (t : HostTermios) : TerminalFilter.termios :=
  mkTermios (ht_lflag t) (ht_cc t !!! VTIME) (ht_cc t !!! VMIN).

(** The clock is asked when only a time is given. *)
Definition filter_now (ts : TerminalFilter.termios) : H K Timespec :=
  if (c_vmin ts =? 0) && negb (c_vtime ts =? 0)
  then '(s, n) ← sysc SMonotonic; mret (Timespec_new s n)
  else mret Timespec.ZERO.

(** [TerminalFilter::read]. *)
Definition io_read_filtered (i : MsgContext) (fdi : Z) (fd : QnxFd) (fl : TerminalFilter) (nbytes : Z)
  : H K unit :=
  '(r, t) ← sysc (STcgetattr (m_host_fd fd));
  _ ← lift (check (r =? 0) AssertFailed);
  let ts := filter_termios t in
  now ← filter_now ts;
  passes ← sysc (SFilterPasses (m_host_fd fd));
  match common_read (rc_setup now nbytes ts) passes fl with
  | None => throw Blocked
  | Some (res, fl) =>
      _ ← on_fds (Prelude.modify (update_fd fdi (set_filter fl)));
      match res with
      | inl err => write_type i (clear RR)[: RR ; "status" <- err :]
      | inr _ =>
          let '(rep, fl) := take_ready (wrapu 16) nbytes fl in
          let b := (clear RR)[: RR ; "status" <- rr_status rep :] in
          _ ← write_type i b[: RR ; "nbytes" <- rr_nbytes rep :];
          _ ← write_at i (Z.of_nat (sizeof RR)) (rr_data rep);
          on_fds (Prelude.modify (update_fd fdi (set_filter fl)))
      end
  end.

(** The data starts at the size of the request, which is that of the reply. *)
Definition io_read (i : MsgContext) : H K unit :=
  msg ← read_type i RL;
  let fdi := u16 msg[: RL ; "fd" :] in
  let nbytes := msg[: RL ; "nbytes" :] in
  fd ← open_fd fdi;
  match m_filter fd with
  | Some fl => io_read_filtered i fdi fd fl nbytes
  | None =>
      iov ← msg_write_iovec garbage_read i (Z.of_nat (sizeof RL)) nbytes;
      host_fd ← map_fd fdi;
      r ← readv host_fd iov;
      err ← errno;
      write_type i (read_info r err)
  end.

Notation WL := (request msg_io_write).
Notation WR := (reply msg_io_write).

Definition write_info (r err : Z) : list Z :=
  let rep := indeterminate uninit (sizeof WR) in
  let rep := rep[: WR ; "zero" <- 0 :] in
  if r <? 0 then
    let rep := rep[: WR ; "status" <- err :] in rep[: WR ; "nbytes" <- 0 :]
  else
    let rep := rep[: WR ; "status" <- QEOK :] in rep[: WR ; "nbytes" <- r :].

Definition io_write (i : MsgContext) : H K unit :=
  msg ← read_type i WL;
  iov ← msg_read_iovec garbage_read i (Z.of_nat (sizeof WL)) msg[: WL ; "nbytes" :];
  host_fd ← map_fd msg[: WL ; "fd" :];
  r ← writev host_fd iov;
  err ← errno;
  write_type i (write_info r err).

Definition io_lseek (i : MsgContext) : H K unit :=
  let L := request msg_io_lseek in
  let R := reply msg_io_lseek in
  msg ← read_type i L;
  fd ← map_fd msg[: L ; "fd" :];
  off ← sysc (SLseek fd msg[: L ; "offset" :] msg[: L ; "whence" :]);
  err ← errno;
  let r := clear R in
  let r := if off =? -1
           then (r[: R ; "status" <- map_errno err :])[: R ; "offset" <- -1 :]
           else (r[: R ; "status" <- QEOK :])[: R ; "offset" <- off :] in
  write_type i r.

(** ** Control *)

(** No terminal request is served; the buffer of the reply is not cleared. *)
Definition terminal_qioctl (c : Ioctl) : Ioctl := set_ioctl_status QENOSYS c.

Definition io_qioctl (i : MsgContext) : H K unit :=
  _ ← read_type i qioctl_request;
  header ← read_type i qioctl_request;
  let c := Ioctl_new header in
  let c := if request_group c =? 116 then terminal_qioctl c else set_ioctl_status QENOSYS c in
  write_type i (response_header uninit c).

Definition io_ioctl (i : MsgContext) : H K unit :=
  _ ← read_type i (request msg_io_ioctl);
  write_status i QENOSYS.

Definition host_lock_type (t : Z) : Z :=
  if t =? QF_RDLCK then F_RDLCK
  else if t =? QF_WRLCK then F_WRLCK
  else if t =? QF_UNLCK then F_UNLCK
  else 0.
Definition qnx_lock_type (t : Z) : Z :=
  if t =? F_RDLCK then QF_RDLCK else if t =? F_WRLCK then QF_WRLCK else QF_UNLCK.
Definition host_lock_cmd (c : Z) : option Z :=
  if c =? QF_SETLK then Some F_SETLK
  else if c =? QF_SETLKW then Some F_SETLKW
  else if c =? QF_GETLK then Some F_GETLK
  else None.

Definition lock_info (cmd fd pid : Z) (l : Flock) : list Z :=
  let R := reply msg_io_lock in
  let r := (clear R)[: R ; "status" <- QEOK :] in
  let r := r[: R ; "lock.cmd" <- cmd :] in
  let r := r[: R ; "lock.fd" <- fd :] in
  let r := r[: R ; "lock.start" <- l_start l :] in
  let r := r[: R ; "lock.len" <- l_len l :] in
  let r := r[: R ; "lock.pid" <- pid :] in
  let r := r[: R ; "lock.whence" <- SEEK_SET :] in
  r[: R ; "lock.type" <- qnx_lock_type (l_type l) :].

Definition io_lock (i : MsgContext) : H K unit :=
  let L := request msg_io_lock in
  msg ← read_type i L;
  fd ← map_fd msg[: L ; "lock.fd" :];
  let lock := mkFlock (host_lock_type msg[: L ; "lock.type" :]) msg[: L ; "lock.whence" :]
                msg[: L ; "lock.start" :] msg[: L ; "lock.len" :] 0 in
  match host_lock_cmd msg[: L ; "lock.cmd" :] with
  | None => write_status i QEINVAL
  | Some cmd =>
      '(r, lock) ← sysc (SLock fd cmd lock);
      if r <? 0 then write_errno i
      else if (2 ^ 31 - 1 <=? l_start lock) || (2 ^ 31 - 1 <=? l_len lock) then write_status i QERANGE
      else
        pid ← host_to_qnx (l_pid lock);
        write_type i (lock_info msg[: L ; "lock.cmd" :] msg[: L ; "lock.fd" :] pid lock)
  end.

(** After an update the flags are those of the second [fcntl]'s return value:
    the third one's is kept in a variable of an inner scope. *)
Definition io_fcntl_flags (i : MsgContext) : H K unit :=
  let L := request msg_io_fcntl_flags in
  let R := reply msg_io_fcntl_flags in
  let fail := (err ← errno; write_type i (clear R)[: R ; "status" <- map_errno err :]) in
  let report r :=
    let b := (clear R)[: R ; "status" <- QEOK :] in
    write_type i b[: R ; "flags" <- map_file_flags_to_qnx r :] in
  msg ← read_type i L;
  let fdi := msg[: L ; "fd" :] in
  fd ← map_fd fdi;
  r ← sysc (SGetfl fd);
  if r <? 0 then fail
  else if msg[: L ; "mask" :] =? 0 then report r
  else
    r ← sysc (SSetflNoArg fdi);
    if r <? 0 then fail
    else
      r' ← sysc (SGetfl fdi);
      if r' <? 0 then fail else report r.

(** [qnx/pathconf.h]. *)
Definition QPC_LINK_MAX : Z := 1.
Definition QPC_MAX_CANON : Z := 2.
Definition QPC_MAX_INPUT : Z := 3.
Definition QPC_NAME_MAX : Z := 4.
Definition QPC_PATH_MAX : Z := 5.
Definition QPC_PIPE_BUF : Z := 6.
Definition QPC_CHOWN_RESTRICTED : Z := 7.
Definition QPC_NO_TRUNC : Z := 8.
Definition QPC_VDISABLE : Z := 9.
Definition QPC_DOS_SHARE : Z := 10.
Definition QPC_DOS_LOCKS : Z := 11.

(** The limit of a known [pathconf] index; [inr] is a constant answer. *)
Definition fpathconf_limit (idx : Z) : option (Z + Z) :=
  if idx =? QPC_NAME_MAX then Some (inl QNAME_MAX)
  else if idx =? QPC_PATH_MAX then Some (inl QPATH_MAX)
  else if existsb (Z.eqb idx) [QPC_LINK_MAX; QPC_MAX_CANON; QPC_MAX_INPUT; QPC_PIPE_BUF;
                               QPC_CHOWN_RESTRICTED; QPC_NO_TRUNC; QPC_VDISABLE]
  then Some (inl (2 ^ 16 - 1))
  else if (idx =? QPC_DOS_SHARE) || (idx =? QPC_DOS_LOCKS) then Some (inr 0)
  else None.

(** The host is asked with the guest's index. *)
Definition io_fpathconf (i : MsgContext) : H K unit :=
  let L := request msg_io_fpathconf in
  let R := reply msg_io_fpathconf in
  msg ← read_type i L;
  let idx := msg[: L ; "idx" :] in
  match fpathconf_limit idx with
  | None =>
      let r := (clear R)[: R ; "status" <- QEINVAL :] in
      write_type i r[: R ; "value" <- -1 :]
  | Some (inr v) =>
      let r := (clear R)[: R ; "status" <- QEOK :] in
      write_type i r[: R ; "value" <- v :]
  | Some (inl limit) =>
      _ ← errno_assign 0;
      fd ← map_fd msg[: L ; "fd" :];
      r ← sysc (SFpathconf fd idx);
      err ← errno;
      if (r <? 0) && negb (err =? 0) then write_errno i
      else
        let b := (clear R)[: R ; "status" <- QEOK :] in
        write_type i b[: R ; "value" <- Z.min limit r :]
  end.

Definition io_chmod (i : MsgContext) : H K unit :=
  let L := request msg_io_chmod in
  msg ← read_type i L;
  fd ← map_fd msg[: L ; "fd" :];
  r ← sysc (SFchmod fd msg[: L ; "mode" :]);
  write_result i r.

Definition io_chown (i : MsgContext) : H K unit :=
  let L := request msg_io_chown in
  msg ← read_type i L;
  fd ← map_fd msg[: L ; "fd" :];
  r ← sysc (SFchown fd msg[: L ; "uid" :] msg[: L ; "gid" :]);
  write_result i r.

Definition io_utime (i : MsgContext) : H K unit :=
  let L := request msg_io_utime in
  msg ← read_type i L;
  r ← (if negb (msg[: L ; "cur_flag" :] =? 0)
       then fd ← map_fd msg[: L ; "fd" :]; sysc (SFutimens fd None)
       else sysc (SFutimens msg[: L ; "fd" :] (Some (msg[: L ; "actime" :], msg[: L ; "mod" :]))));
  write_result i r.
End Data.

(** ** File systems *)

Section Fsys.
Context {K : Type} {FK : FdKernel K} {HK : HostKernel K}.

Definition fsys_unlink (i : MsgContext) : H K unit :=
  let L := request msg_fsys_unlink in
  msg ← read_type i L;
  path ← lift (c_string (arr L "path" eq_refl msg));
  p ← to_host_path path true;
  r ← sysc (if msg[: L ; "args.mode" :] =? QS_QNX_SPECIAL then SRmdir p else SUnlink p);
  write_result i r.

(** Only a link with an absolute target has the target translated. *)
Definition fsys_mkspecial (i : MsgContext) : H K unit :=
  let L := request msg_fsys_mkspecial in
  msg ← read_type i L;
  let mode := msg[: L ; "open.mode" :] in
  path ← lift (c_string (arr L "path" eq_refl msg));
  p ← to_host_path path true;
  if S_ISDIR mode then
    r ← sysc (SMkdir p (Z.land mode ALLPERMS)); write_result i r
  else if has mode S_IFLNK then
    target ← lift (c_string (arr L "target" eq_refl msg));
    target ← (if is_abs target then to_host_path target false else mret target);
    r ← sysc (SSymlink target p); write_result i r
  else write_status i QENOSYS.

Definition fsys_readlink (i : MsgContext) : H K unit :=
  let L := request msg_fsys_readlink in
  let R := reply msg_fsys_readlink in
  msg ← read_type i L;
  path ← lift (c_string (arr L "path" eq_refl msg));
  p ← to_host_path path true;
  raw ← readlink p;
  match raw with
  | None => write_errno i
  | Some raw =>
      target ← (if is_abs raw then to_qnx_path (cstr raw) else mret (cstr raw));
      write_type i (set_str R "path" eq_refl target (clear R))[: R ; "status" <- QEOK :]
  end.

(** The path of a descriptor that was inherited is not known. *)
Definition fsys_link (i : MsgContext) : H K unit :=
  let L := request msg_fsys_link in
  msg ← read_type i L;
  let fdi := u16 msg[: L ; "arg.fd" :] in
  _ ← open_fd fdi;
  from ← resolve_fd_path fdi;
  path ← lift (c_string (arr L "new_path" eq_refl msg));
  to ← to_host_path path false;
  r ← sysc (SLink from to);
  write_result i r.

Definition fsys_sync (i : MsgContext) : H K unit := _ ← sysc SSync; write_status i QEOK.

(** The offset is found by seeking there and back. *)
Definition fsys_trunc (i : MsgContext) : H K unit :=
  let L := request msg_fsys_trunc in
  let R := reply msg_fsys_trunc in
  msg ← read_type i L;
  fd ← map_fd msg[: L ; "fd" :];
  prev ← sysc (SLseek fd 0 SEEK_CUR);
  if prev =? -1 then write_errno i
  else
    to ← sysc (SLseek fd msg[: L ; "offset" :] msg[: L ; "whence" :]);
    if to =? -1 then write_errno i
    else
      _ ← sysc (SLseek fd prev SEEK_SET);
      r ← sysc (SFtruncate fd to);
      if r <? 0 then write_errno i
      else
        let b := (clear R)[: R ; "status" <- QEOK :] in
        write_type i b[: R ; "offset" <- to :].

Definition fsys_fsync (i : MsgContext) : H K unit :=
  let L := request msg_fsys_fsync in
  msg ← read_type i L;
  fd ← map_fd msg[: L ; "fd" :];
  r ← sysc (if has msg[: L ; "flags" :] 255 then SFdatasync fd else SFsync fd);
  write_result i r.

(** The objects [assign_fds] opened, with their slots: those whose descriptor was
    released to them; those behind a failing [fcntl] stay as they were. *)
Definition opened_fds (slots : list Z) (to : list QnxFd) (fds : list Z) (k : K) : list (Z * QnxFd) :=
  match assign_loop 0 to (mkAssign fds (index_fds 0 fds) k) with
  | (before, Ok true) =>
      let st := fst (release_loop 0 to before) in
      mjoin (imap (fun j '(s, f) => if bool_decide (host_fds st !! j = Some (-1))
                                    then [(s, opened (host_fds before !!! j) f)] else [])
               (zip slots to))
  | _ => []
  end.

(** The descriptors left over are returned in the order of their destruction. *)
Definition assign_pipe (slots : list Z) (to : list QnxFd) (fds : list Z) : H K (bool * list Z) := fun e =>
  let '(st, r) := assign_fds to fds (kern e) in
  let m := foldl (fun m '(s, f) => update_fd s (fun _ => f) m) (w_fds (e_world e))
             (opened_fds slots to fds (kern e)) in
  let e := set_world (set_kern (a_k st) (set_fds m (e_world e))) e in
  match r with
  | Ok l => (e, Ok (bool_decide (is_Some l), rev (host_fds st)))
  | Throw x => scoped (rev (host_fds st)) (throw x) e
  end.

Definition fsys_pipe (i : MsgContext) : H K unit :=
  let L := request msg_fsys_pipe in
  msg ← read_type i L;
  let slots := [u16 msg[: L ; "fd_in" :]; u16 msg[: L ; "fd_out" :]] in
  f_in ← attached_fd msg[: L ; "fd_in" :];
  f_out ← attached_fd msg[: L ; "fd_out" :];
  '(r, (p0, p1)) ← sysc SPipe;
  if r <? 0 then write_errno i
  else
    '(ok, owned) ← assign_pipe slots [f_in; f_out] [p0; p1];
    scoped owned (if negb ok then write_errno i else write_status i QEOK).

Definition fsys_disk_entry (i : MsgContext) : H K unit :=
  let L := request msg_fsys_disk_entry in
  let R := reply msg_fsys_disk_entry in
  msg ← read_type i L;
  fd ← map_fd msg[: L ; "fd" :];
  '(r, st) ← sysc (SFstatvfs fd);
  if r <? 0 then write_errno i
  else
    let b := set_str R "drive_name" eq_refl (lit "/deasd") (clear R) in
    let b := b[: R ; "disk_sectors" <- f_blocks st :] in
    let b := b[: R ; "num_sectors" <- f_blocks st :] in
    let b := b[: R ; "blk_offset" <- 0 :] in
    let b := b[: R ; "disk_drv" <- 1 :] in
    write_type i b[: R ; "disk_type" <- 2 :].

(** The mount points in turn. *)
Fixpoint mount_loop (mnt_dirs : list cstring) (i : MsgContext) (host : cstring) (query : HostStat)
  : H K unit :=
  let R := reply msg_fsys_get_mount in
  match mnt_dirs with
  | [] => write_errno i
  | dir :: mnt_dirs =>
      if path_starts_with host dir then
        p ← to_qnx dir;
        '(r, st) ← sysc (SStat (host_path p));
        if r <? 0 then write_errno i
        else if st_dev st =? st_dev query then
          let b := (clear R)[: R ; "status" <- QEOK :] in
          write_type i (set_str R "path" eq_refl (qnx_path p) b)
        else mount_loop mnt_dirs i host query
      else mount_loop mnt_dirs i host query
  end.

Definition fsys_get_mount (i : MsgContext) : H K unit :=
  let L := request msg_fsys_get_mount in
  msg ← read_type i L;
  path ← lift (c_string (arr L "path" eq_refl msg));
  host ← to_host_path path false;
  real ← realpath host;
  '(r, query) ← sysc (SStat real);
  if r <? 0 then write_errno i
  else
    mtab ← sysc SMtab;
    match mtab with
    | None => throw (Undefined "null stream")
    | Some dirs => mount_loop dirs i host query
    end.

Definition fsys_disk_space (i : MsgContext) : H K unit :=
  let L := request msg_fsys_disk_space in
  let R := reply msg_fsys_disk_space in
  msg ← read_type i L;
  fd ← map_fd msg[: L ; "fd" :];
  '(r, st) ← sysc (SFstatvfs fd);
  if r <? 0 then write_errno i
  else
    let b := (clear R)[: R ; "free_blocks" <- f_bavail st :] in
    write_type i b[: R ; "total_blocks" <- f_blocks st :].
End Fsys.
