(* ===== verification/TermHandler.v ===== *)
(** * TermHandler: terminals, [term_handler.cpp]

    The [dev_*] methods of [MainHandler] and the terminal helpers: attributes
    are translated field by field, sizes, process groups and modes are passed
    on, and a terminal is read with the request's timeouts. *)

From S2P Require Import Prelude Types Memory IdMap PathMapper PidMap Timespec TerminalFilter FdMap Segment AddressSpace Msg Errno GuestContext Emu Layout QnxMsg Host MsgHandler IoctlCodes ProcHandler IoHandler.

Import Errno.Qnx.

(** ** Attributes *)

(** [qnx/term.h]: input, output, control and local modes, indices of control
    characters, actions and device modes. *)
Definition QIGNBRK : Z := 0x1.
Definition QBRKINT : Z := 0x2.
Definition QIGNPAR : Z := 0x4.
Definition QPARMRK : Z := 0x8.
Definition QINPCK : Z := 0x10.
Definition QISTRIP : Z := 0x20.
Definition QINLCR : Z := 0x40.
Definition QIGNCR : Z := 0x80.
Definition QICRNL : Z := 0x100.
Definition QIXON : Z := 0x400.
Definition QIXOFF : Z := 0x1000.
Definition QOPOST : Z := 0x1.
Definition QIHFLOW : Z := 0x1.
Definition QOHFLOW : Z := 0x2.
Definition QCSIZE : Z := 0x30.
Definition QCS5 : Z := 0x0.
Definition QCS6 : Z := 0x10.
Definition QCS7 : Z := 0x20.
Definition QCS8 : Z := 0x30.
Definition QCSTOPB : Z := 0x40.
Definition QCREAD : Z := 0x80.
Definition QPARENB : Z := 0x100.
Definition QPARODD : Z := 0x200.
Definition QHUPCL : Z := 0x400.
Definition QCLOCAL : Z := 0x800.
Definition QISIG : Z := 0x1.
Definition QICANON : Z := 0x2.
Definition QECHO : Z := 0x8.
Definition QECHOE : Z := 0x10.
Definition QECHOK : Z := 0x20.
Definition QECHONL : Z := 0x40.
Definition QNOFLSH : Z := 0x80.
Definition QTOSTOP : Z := 0x100.
Definition QIEXTEN : Z := 0x8000.
Definition QVINTR : nat := 0.
Definition QVQUIT : nat := 1.
Definition QVERASE : nat := 2.
Definition QVKILL : nat := 3.
Definition QVEOF : nat := 4.
Definition QVEOL : nat := 5.
Definition QVSTART : nat := 8.
Definition QVSTOP : nat := 9.
Definition QVSUSP : nat := 10.
Definition QVMIN : nat := 16.
Definition QVTIME : nat := 17.
Definition QTCSANOW : Z := 0x1.
Definition QTCSADRAIN : Z := 0x2.
Definition QTCSAFLUSH : Z := 0x4.
Definition DEV_ECHO : Z := 0x1.
Definition DEV_EDIT : Z := 0x2.
Definition DEV_ISIG : Z := 0x4.
Definition DEV_OPOST : Z := 0x8.

(** The host's [termios.h]. *)
Definition IGNBRK : Z := 0x1.
Definition BRKINT : Z := 0x2.
Definition IGNPAR : Z := 0x4.
Definition PARMRK : Z := 0x8.
Definition INPCK : Z := 0x10.
Definition ISTRIP : Z := 0x20.
Definition INLCR : Z := 0x40.
Definition IGNCR : Z := 0x80.
Definition ICRNL : Z := 0x100.
Definition IXON : Z := 0x400.
Definition IXOFF : Z := 0x1000.
Definition OPOST : Z := 0x1.
Definition ONLCR : Z := 0x4.
Definition CSIZE : Z := 0x30.
Definition CS5 : Z := 0x0.
Definition CS6 : Z := 0x10.
Definition CS7 : Z := 0x20.
Definition CS8 : Z := 0x30.
Definition CSTOPB : Z := 0x40.
Definition CREAD : Z := 0x80.
Definition PARENB : Z := 0x100.
Definition PARODD : Z := 0x200.
Definition HUPCL : Z := 0x400.
Definition CLOCAL : Z := 0x800.
Definition CRTSCTS : Z := 0x80000000.
Definition ISIG : Z := 0x1.
Definition ICANON : Z := 0x2.
Definition ECHO : Z := 0x8.
Definition ECHOE : Z := 0x10.
Definition ECHOK : Z := 0x20.
Definition ECHONL : Z := 0x40.
Definition NOFLSH : Z := 0x80.
Definition TOSTOP : Z := 0x100.
Definition IEXTEN : Z := 0x8000.
Definition TCSANOW : Z := 0x0.
Definition TCSADRAIN : Z := 0x1.
Definition TCSAFLUSH : Z := 0x2.
Definition VINTR : nat := 0.
Definition VQUIT : nat := 1.
Definition VERASE : nat := 2.
Definition VKILL : nat := 3.
Definition VEOF : nat := 4.
Definition VEOL : nat := 11.
Definition VSTART : nat := 8.
Definition VSTOP : nat := 9.
Definition VSUSP : nat := 10.

(** The maps of [term_handler.cpp]: pairs of QNX and host bits or indices. *)
Definition IFLAG_MAP : list (Z * Z) :=
  [(QIGNBRK, IGNBRK); (QBRKINT, BRKINT); (QIGNPAR, IGNPAR); (QPARMRK, PARMRK);
   (QINPCK, INPCK); (QISTRIP, ISTRIP); (QINLCR, INLCR); (QIGNCR, IGNCR);
   (QICRNL, ICRNL); (QIXOFF, IXOFF); (QIXON, IXON)].
Definition OFLAG_MAP : list (Z * Z) :=
  [(QOPOST, OPOST)].
Definition CFLAG_MAP : list (Z * Z) :=
  [(QCSIZE, CSIZE); (QCS5, CS5); (QCS6, CS6); (QCS7, CS7);
   (QCS8, CS8); (QCSTOPB, CSTOPB); (QCREAD, CREAD); (QPARENB, PARENB);
   (QPARODD, PARODD); (QHUPCL, HUPCL); (QCLOCAL, CLOCAL)].
Definition LFLAG_MAP : list (Z * Z) :=
  [(QISIG, ISIG); (QICANON, ICANON); (QECHO, ECHO); (QECHOE, ECHOE);
   (QECHOK, ECHOK); (QECHONL, ECHONL); (QNOFLSH, NOFLSH); (QTOSTOP, TOSTOP);
   (QIEXTEN, IEXTEN)].
Definition CC_MAP : list (nat * nat) :=
  [(QVINTR, VINTR); (QVQUIT, VQUIT); (QVERASE, VERASE); (QVKILL, VKILL);
   (QVEOF, VEOF); (QVEOL, VEOL); (QVSTART, VSTART); (QVSTOP, VSTOP);
   (QVSUSP, VSUSP); (QVMIN, VMIN); (QVTIME, VTIME)].

(** [d &= ~bit]. *)
Definition clear_bits (d bits : Z) : Z := Z.land d (Z.lnot bits).

(** [MAP_FIELD] over a list of (bit of the target, bit of the source). *)
Definition map_field (m : list (Z * Z)) (src dst : Z) : Z :=
  foldl (fun d '(to, from) =>
           let d := clear_bits d to in if has src from then Z.lor d to else d) dst m.

Definition swap (m : list (Z * Z)) : list (Z * Z) := (fun '(q, h) => (h, q)) <$> m.

Notation TS := s_termios.

(** [c_cc[n]] of the QNX structure: 16-bit entries. *)
Definition get_cc (n : nat) (b : list Z) : Z :=
  le_val (slice (2 * n) 2 (arr TS "c_cc" eq_refl b)).
Definition put_cc (n : nat) (v : Z) (b : list Z) : list Z :=
  set_arr TS "c_cc" eq_refl (splice (2 * n) (le_bytes 2 v) (arr TS "c_cc" eq_refl b)) b.

Definition to_qnx_flow (host_cflag q : Z) : Z :=
  let q := clear_bits q (Z.lor QIHFLOW QOHFLOW) in
  if has host_cflag CRTSCTS then Z.lor q (Z.lor QIHFLOW QOHFLOW) else q.
Definition to_host_flow (qnx_cflag h : Z) : Z :=
  let h := clear_bits h CRTSCTS in
  if has qnx_cflag (Z.lor QIHFLOW QOHFLOW) then Z.lor h CRTSCTS else h.

(** The host's attributes written into a QNX structure: the control characters,
    then the flags and the speeds. *)
Definition put_ccs (cc : list Z) (b : list Z) : list Z := foldl (fun b '(q, h) => put_cc q (cc !!! h) b) b CC_MAP.

Definition put_flags (a : HostTermios) (b : list Z) : list Z :=
  let b := b[: TS ; "c_iflag" <- map_field IFLAG_MAP (ht_iflag a) b[: TS ; "c_iflag" :] :] in
  let b := b[: TS ; "c_oflag" <- map_field OFLAG_MAP (ht_oflag a) b[: TS ; "c_oflag" :] :] in
  let b := b[: TS ; "c_cflag" <- map_field CFLAG_MAP (ht_cflag a) b[: TS ; "c_cflag" :] :] in
  let b := b[: TS ; "c_lflag" <- map_field LFLAG_MAP (ht_lflag a) b[: TS ; "c_lflag" :] :] in
  let b := b[: TS ; "c_cflag" <- to_qnx_flow (ht_cflag a) b[: TS ; "c_cflag" :] :] in
  let b := b[: TS ; "c_ispeed" <- ht_ispeed a :] in
  b[: TS ; "c_ospeed" <- ht_ospeed a :].

Definition to_qnx_termios (a : HostTermios) (b : list Z) : list Z := put_flags a (put_ccs (ht_cc a) b).

(** A QNX structure written over the host's attributes: the control characters
    go from the host's index to the QNX index. *)
Definition to_host_termios (b : list Z) (a : HostTermios) : HostTermios :=
  let cc := foldl (fun cc '(q, h) => <[q := u8 (get_cc h b)]> cc) (ht_cc a) CC_MAP in
  mkHostTermios
    (map_field (swap IFLAG_MAP) b[: TS ; "c_iflag" :] (ht_iflag a))
    (Z.lor (map_field (swap OFLAG_MAP) b[: TS ; "c_oflag" :] (ht_oflag a)) ONLCR)
    (to_host_flow b[: TS ; "c_cflag" :] (map_field (swap CFLAG_MAP) b[: TS ; "c_cflag" :] (ht_cflag a)))
    (map_field (swap LFLAG_MAP) b[: TS ; "c_lflag" :] (ht_lflag a))
    cc (u32 b[: TS ; "c_ispeed" :]) (u32 b[: TS ; "c_ospeed" :]).

Definition tcset_action (qnx_action : Z) : Z :=
  let a := 0 in
  let a := if has qnx_action QTCSANOW then TCSANOW else a in
  let a := if has qnx_action QTCSADRAIN then TCSADRAIN else a in
  if has qnx_action QTCSAFLUSH then TCSAFLUSH else a.

Section Term.
Context {K : Type} {FK : FdKernel K} {HK : HostKernel K}.

(** The status, and the structure filled in. *)
Definition handle_tcgetattr (qnx_fd : Z) (b : list Z) : H K (Z * list Z) :=
  fd ← map_fd qnx_fd;
  '(r, a) ← sysc (STcgetattr fd);
  if r <? 0 then err ← errno; mret (map_errno err, b)
  else mret (QEOK, to_qnx_termios a b).

(** The attributes are set on the descriptor the message was sent to. *)
Definition handle_tcsetattr (i : MsgContext) (qnx_fd : Z) (b : list Z) (qnx_action : Z) : H K Z :=
  fd ← map_fd qnx_fd;
  '(r, a) ← sysc (STcgetattr fd);
  if r <? 0 then err ← errno; mret (map_errno err)
  else
    fd ← map_fd (m_id i);
    r ← sysc (STcsetattr fd (tcset_action qnx_action) (to_host_termios b a));
    if r <? 0 then err ← errno; mret (map_errno err) else mret QEOK.

Definition handle_tcsetpgrp (qnx_fd qnx_pgrp : Z) : H K Z :=
  fd ← map_fd qnx_fd;
  p ← valid_host qnx_pgrp;
  match p with
  | None => mret QEINVAL
  | Some p =>
      r ← sysc (STcsetpgrp fd (q_host_pid p));
      if r <? 0 then err ← errno; mret (map_errno err) else mret QEOK
  end.

(** The status and, when it succeeds, the group. *)
Definition handle_tcgetpgrp (qnx_fd : Z) : H K (Z * option Z) :=
  fd ← map_fd qnx_fd;
  pgrp ← sysc (STcgetpgrp fd);
  if pgrp <? 0 then err ← errno; mret (map_errno err, None)
  else q ← host_to_qnx pgrp; mret (QEOK, Some q).

Definition dev_tcgetattr (i : MsgContext) : H K unit :=
  let L := request msg_dev_tcgetattr in
  let R := reply msg_dev_tcgetattr in
  msg ← read_type i L;
  let b := clear R in
  '(st, state) ← handle_tcgetattr msg[: L ; "fd" :] (get_sub R "state" TS eq_refl b);
  write_type i (set_sub R "state" TS eq_refl state b)[: R ; "status" <- st :].

Definition dev_tcsetattr (i : MsgContext) : H K unit :=
  let L := request msg_dev_tcsetattr in
  msg ← read_type i L;
  st ← handle_tcsetattr i msg[: L ; "fd" :] (get_sub L "state" TS eq_refl msg)
         msg[: L ; "optional_actions" :];
  write_status i st.

Definition no_change : Z := 2 ^ 16 - 1.

Definition new_winsize (rows cols : Z) (w : Winsize) : Winsize :=
  mkWinsize (if rows =? no_change then ws_row w else rows)
    (if cols =? no_change then ws_col w else cols) (ws_xpixel w) (ws_ypixel w).

Definition dev_term_size (i : MsgContext) : H K unit :=
  let L := request msg_dev_term_size in
  let R := reply msg_dev_term_size in
  msg ← read_type i L;
  fd ← map_fd msg[: L ; "fd" :];
  '(r, w) ← sysc (SGetWinsize fd);
  if r <? 0 then write_errno i
  else
    let rows := msg[: L ; "rows" :] in
    let cols := msg[: L ; "cols" :] in
    let b := (clear R)[: R ; "oldcols" <- ws_col w :] in
    let b := b[: R ; "oldrows" <- ws_row w :] in
    r ← (if negb (cols =? no_change) || negb (rows =? no_change)
         then sysc (SSetWinsize fd (new_winsize rows cols w)) else mret 0);
    if r <? 0 then write_errno i
    else write_type i b[: R ; "status" <- QEOK :].

Definition dev_tcgetpgrp (i : MsgContext) : H K unit :=
  let L := request msg_dev_tcgetpgrp in
  let R := reply msg_dev_tcgetpgrp in
  msg ← read_type i L;
  '(st, pgrp) ← handle_tcgetpgrp msg[: L ; "fd" :];
  let b := match pgrp with
           | Some p => (clear R)[: R ; "pgrp" <- p :]
           | None => clear R
           end in
  write_type i b[: R ; "status" <- st :].

Definition dev_tcsetpgrp (i : MsgContext) : H K unit :=
  let L := request msg_dev_tcsetpgrp in
  msg ← read_type i L;
  st ← handle_tcsetpgrp msg[: L ; "fd" :] msg[: L ; "pgrp" :];
  write_status i st.

(** The result of the call, not [errno], is taken for the error. *)
Definition dev_tcflush (i : MsgContext) : H K unit :=
  let L := request msg_dev_tcflush in
  msg ← read_type i L;
  fd ← map_fd msg[: L ; "fd" :];
  r ← sysc (STcflush fd msg[: L ; "queue" :]);
  write_status i (map_errno r).

Definition dev_tcdrain (i : MsgContext) : H K unit :=
  let L := request msg_dev_tcdrain in
  msg ← read_type i L;
  fd ← map_fd msg[: L ; "fd" :];
  r ← sysc (STcdrain fd);
  write_status i (map_errno r).

(** The sizes for [ioctl]; no request reaches them any more. *)
Definition ioctl_terminal_get_size (i : MsgContext) (c : Ioctl) : H K Ioctl :=
  fd ← map_fd (ioctl_fd c);
  '(r, w) ← sysc (SGetWinsize fd);
  let b := (clear s_winsize)[: s_winsize ; "ws_row" <- ws_row w :] in
  let b := b[: s_winsize ; "ws_col" <- ws_col w :] in
  let b := b[: s_winsize ; "ws_xpixel" <- ws_xpixel w :] in
  let b := b[: s_winsize ; "ws_ypixel" <- ws_ypixel w :] in
  _ ← write_at i (Z.of_nat (sizeof qioctl_reply)) b;
  err ← errno;
  mret (set_ioctl_retval (if r <? 0 then map_errno err else 0) c).

Definition ioctl_terminal_set_size (i : MsgContext) (c : Ioctl) : H K Ioctl :=
  b ← read_at i (Z.of_nat (sizeof qioctl_request)) (sizeof s_winsize);
  let w := mkWinsize b[: s_winsize ; "ws_row" :] b[: s_winsize ; "ws_col" :]
             b[: s_winsize ; "ws_xpixel" :] b[: s_winsize ; "ws_ypixel" :] in
  fd ← map_fd (ioctl_fd c);
  r ← sysc (SSetWinsize fd w);
  err ← errno;
  mret (set_ioctl_retval (if r <? 0 then map_errno err else 0) c).
End Term.

(** ** Reading a terminal *)

Section Read.
Context {K : Type} {FK : FdKernel K} {HK : HostKernel K}.
Context (garbage_read : Z) (uninit : nat -> Z).

Notation L := (request msg_dev_read).
Notation R := (reply msg_dev_read).

Definition dev_read_args (msg : list Z) : dev_read_request :=
  mkDevRead msg[: L ; "nbytes" :] msg[: L ; "timeout" :] msg[: L ; "time" :] msg[: L ; "minimum" :].

(** [TerminalFilter::dev_read]; the rest of its [termios] is never set. *)
Definition dev_read_filtered (i : MsgContext) (fdi : Z) (fd : QnxFd) (fl : TerminalFilter) (msg : list Z)
  : H K unit :=
  let a := dev_read_args msg in
  let ts := TerminalFilter.approximate a (mkTermios (uninit 0) (uninit 1) (uninit 2)) in
  now ← filter_now ts;
  passes ← sysc (SFilterPasses (m_host_fd fd));
  match common_read (rc_setup now (r_nbytes a) ts) passes fl with
  | None => throw Blocked
  | Some (res, fl) =>
      _ ← on_fds (Prelude.modify (update_fd fdi (set_filter fl)));
      match res with
      | inl _ => err ← errno; write_type i (clear R)[: R ; "status" <- map_errno err :]
      | inr _ =>
          let '(rep, fl) := take_ready (wraps 16) (r_nbytes a) fl in
          _ ← write_type i (clear R)[: R ; "nbytes" <- rr_nbytes rep :];
          _ ← write_at i (Z.of_nat (sizeof R)) (rr_data rep);
          on_fds (Prelude.modify (update_fd fdi (set_filter fl)))
      end
  end.

(** [TermiosSettings::approximate] on the host's structure, whose control
    characters are bytes. *)
Definition approximate_host (a : dev_read_request) (t : HostTermios) : HostTermios :=
  let s := TerminalFilter.approximate a (filter_termios t) in
  mkHostTermios (ht_iflag t) (ht_oflag t) (ht_cflag t) (c_lflag s)
    (<[VTIME := u8 (c_vtime s)]> (<[VMIN := u8 (c_vmin s)]> (ht_cc t))) (ht_ispeed t) (ht_ospeed t).

(** [~TermiosSettings] when the scope is left. *)
Definition restoring {A} (fd : Z) (old : HostTermios) (m : H K A) : H K A := fun e =>
  let restore e := fst (sysc (STcsetattr fd TCSANOW old) e) in
  match m e with
  | (e, Throw x) => (if unwinds x then restore e else e, Throw x)
  | (e, Ok a) => (restore e, Ok a)
  end.

Definition dev_read_info (r err : Z) : list Z :=
  if r <? 0 then
    let b := (clear R)[: R ; "status" <- map_errno err :] in b[: R ; "nbytes" <- 0 :]
  else
    let b := (clear R)[: R ; "status" <- QEOK :] in b[: R ; "nbytes" <- r :].

(** A negative count is a huge size: the vector exhausts the memory. *)
Definition dev_read (i : MsgContext) : H K unit :=
  msg ← read_type i L;
  if negb (msg[: L ; "proxy" :] =? 0) then write_status i QENOTSUP
  else
    let fdi := u16 msg[: L ; "fd" :] in
    fd ← open_fd fdi;
    match m_filter fd with
    | Some fl => dev_read_filtered i fdi fd fl msg
    | None =>
        '(r, old) ← sysc (STcgetattr (m_host_fd fd));
        if negb (r =? 0) then write_errno i
        else restoring (m_host_fd fd) old (
          r ← sysc (STcsetattr (m_host_fd fd) TCSANOW (approximate_host (dev_read_args msg) old));
          if negb (r =? 0) then write_errno i
          else
            let nbytes := msg[: L ; "nbytes" :] in
            iov ← (if nbytes <? 0 then throw BadAlloc
                   else msg_write_iovec garbage_read i (Z.of_nat (sizeof R)) nbytes);
            r ← readv (m_host_fd fd) iov;
            err ← errno;
            write_type i (dev_read_info r err))
    end.

(** ** Modes and characters *)

(** The characters in turn; an error is answered and the loop goes on. *)
Fixpoint insert_loop (n : nat) (i : MsgContext) (fd off : Z) : H K unit :=
  match n with
  | O => mret ()
  | S n =>
      v ← read_at i off 1;
      r ← sysc (STiocsti fd (wraps 8 (le_val v)));
      _ ← (if r =? 0 then mret () else write_errno i);
      insert_loop n i fd (off + 1)
  end.

(** The descriptor is taken from the request before it is read. *)
Definition dev_insert_chars (i : MsgContext) : H K unit :=
  let L := request msg_dev_insert_chars in
  fd ← map_fd (indeterminate uninit (sizeof L))[: L ; "fd" :];
  msg ← read_type i L;
  _ ← insert_loop (Z.to_nat msg[: L ; "nbytes" :]) i fd (Z.of_nat (sizeof L));
  write_status i QEOK.

(** The flags are cleared whatever the mask, and some of the bits set are those
    of QNX modes. *)
Definition dev_mode_termios (mask mode : Z) (t : HostTermios) : HostTermios :=
  let l := clear_bits (ht_lflag t) (Z.lor (Z.lor ECHO ICANON) ISIG) in
  let o := clear_bits (ht_oflag t) OPOST in
  let l := if has mask DEV_ECHO then
             let l := clear_bits l ECHO in if has mode DEV_ECHO then Z.lor l ECHO else l
           else l in
  let i := if has mask DEV_EDIT then clear_bits (ht_iflag t) (Z.lor (Z.lor ICRNL IGNCR) INLCR)
           else ht_iflag t in
  let l := if has mask DEV_EDIT then
             let l := clear_bits l ICANON in if has mode DEV_EDIT then Z.lor l ICANON else l
           else l in
  let l := if has mask DEV_ISIG then
             let l := clear_bits l ISIG in if has mode DEV_ISIG then Z.lor l DEV_ISIG else l
           else l in
  let l := if has mask DEV_OPOST then
             let l := clear_bits l OPOST in if has mode DEV_OPOST then Z.lor l DEV_OPOST else l
           else l in
  mkHostTermios i o (ht_cflag t) l (ht_cc t) (ht_ispeed t) (ht_ospeed t).

(** The old mode is collected in a reply that is not sent. *)
Definition dev_mode (i : MsgContext) : H K unit :=
  let L := request msg_dev_mode in
  msg ← read_type i L;
  fd ← map_fd msg[: L ; "fd" :];
  '(r, t) ← sysc (STcgetattr fd);
  if r <? 0 then write_errno i
  else
    r ← sysc (STcsetattr fd TCSANOW (dev_mode_termios msg[: L ; "mask" :] msg[: L ; "mode" :] t));
    write_status i (map_errno r).

(** ** Device information *)

Notation D := s_dev_info.

Definition dev_info_base (pgrp session : Z) : list Z :=
  let d := (clear D)[: D ; "tty" <- 1 :] in
  let d := d[: D ; "nid" <- nid :] in
  let d := d[: D ; "driver_pid" <- PID_PROC :] in
  let d := d[: D ; "open_count" <- 1 :] in
  let d := d[: D ; "unit" <- 1 :] in
  let d := d[: D ; "flags" <- 15 :] in
  let d := d[: D ; "pgrp" <- pgrp :] in
  d[: D ; "session" <- session :].

(** Whether it worked, and the structure. *)
Definition fill_dev_info (fd : QnxFd) : H K (bool * list Z) :=
  g ← sysc (STcgetpgrp (m_host_fd fd));
  pgrp ← host_to_qnx g;
  s ← sysc (STcgetsid (m_host_fd fd));
  session ← host_to_qnx s;
  let d := dev_info_base pgrp session in
  name ← ttyname (m_host_fd fd);
  match name with
  | None => mret (false, d)
  | Some name =>
      let d := set_str D "driver_type" eq_refl (lit "pseudo") d in
      path ← to_qnx_path name;
      let shown := if (size_of D "tty_name" <? length path + 1)%nat then lit "/dev/too-long" else path in
      mret (true, set_str D "tty_name" eq_refl shown d)
  end.

Definition reply_dev_info (i : MsgContext) (fd : Z) : H K unit :=
  let R := reply msg_dev_dev_info in
  fd ← open_fd fd;
  '(ok, d) ← fill_dev_info fd;
  err ← errno;
  let b := set_sub R "info" D eq_refl d (clear R) in
  write_type i b[: R ; "status" <- (if ok : bool then QEOK else map_errno err) :].

Definition dev_info (i : MsgContext) : H K unit :=
  let L := request msg_dev_dev_info in
  msg ← read_type i L;
  reply_dev_info i msg[: L ; "fd" :].

Definition dev_fdinfo (i : MsgContext) : H K unit :=
  let L := request msg_dev_dev_fdinfo in
  msg ← read_type i L;
  my ← proc_pid;
  if negb (msg[: L ; "pid" :] =? my) then write_status i QESRCH
  else reply_dev_info i msg[: L ; "fd" :].
End Read.
