(* ===== verification/MainHandler.v ===== *)
(** * MainHandler: the dispatch of messages, [main_handler.cpp]

    [receive] reads the type of a message and calls its handler; the emulator
    calls it for every message the guest sends. *)

From S2P Require Import Prelude Types Memory IdMap PathMapper PidMap FdMap Segment AddressSpace Msg Errno GuestContext Emu Layout QnxMsg Host MsgHandler ProcHandler IoHandler TermHandler.

Import Errno.Qnx.

(** [struct MsgHeader] of [qnx/msg.h]. *)
Definition s_header : layout := [("type", u16_); ("subtype", u16_)].

Definition is_bad_fd (e : exn) : bool := match e with BadFdException => true | _ => false end.

Section Main.
Context {K : Type} {FK : FdKernel K} {HK : HostKernel K}.
Context (mmap : Z -> Z -> Z -> Z -> option Z) (modify_ldt : user_desc -> bool).
Context (sigaction : Z -> SigHandler -> Z).
Context (garbage_read : Z) (uninit : nat -> Z).

Definition unhandled_msg (i : MsgContext) : H K unit := write_status i QENOSYS.

(** The [switch] over [hdr.subtype] of a type; the default is [other]. *)
Definition sub_switch (cases : list (Message * (MsgContext -> H K unit))) (other : H K unit)
    (i : MsgContext) (subtype : Z) : H K unit :=
  foldr (fun '(m, h) rest => if bool_decide (SUBTYPE m = Some subtype) then h i else rest) other cases.

Definition segment_switch : MsgContext -> Z -> H K unit := fun i st =>
  sub_switch [(msg_proc_segment_realloc, proc_segment_realloc mmap modify_ldt);
              (msg_proc_segment_alloc, proc_segment_alloc mmap modify_ldt);
              (msg_proc_segment_free, proc_segment_free);
              (msg_proc_segment_flags, proc_segment_flags modify_ldt);
              (msg_proc_segment_put, proc_segment_put);
              (msg_proc_segment_arm, proc_segment_arm);
              (msg_proc_segment_priv, proc_segment_priv)] (unhandled_msg i) i st.

Definition fd_switch : MsgContext -> Z -> H K unit := fun i st =>
  sub_switch [(msg_proc_fd_attach, proc_fd_attach);
              (msg_proc_fd_detach, proc_fd_detach);
              (msg_proc_fd_query, proc_fd_query);
              (msg_proc_fd_action1, proc_fd_setfd)] (unhandled_msg i) i st.

Definition signal_switch : MsgContext -> Z -> H K unit := fun i st =>
  sub_switch [(msg_proc_sigtab, proc_sigtab);
              (msg_proc_sigraise, proc_sigraise);
              (msg_proc_sigact, proc_sigact sigaction);
              (msg_proc_sigmask, proc_sigmask)] (unhandled_msg i) i st.

Definition timer_switch : MsgContext -> Z -> H K unit := fun i st =>
  sub_switch [(msg_proc_timer_create, proc_timer_create);
              (msg_proc_timer_settime, proc_timer_settime);
              (msg_proc_timer_alarm, proc_timer_alarm)] (unhandled_msg i) i st.

Definition session_switch : MsgContext -> Z -> H K unit := fun i st =>
  sub_switch [(msg_proc_sid_query, proc_sid_query);
              (msg_proc_sid_set, proc_sid_set)] (unhandled_msg i) i st.

(** This switch has no default: nothing is answered. *)
Definition sem_switch : MsgContext -> Z -> H K unit := fun i st =>
  sub_switch [(msg_proc_sem_init, proc_sem_init);
              (msg_proc_sem_destroy, proc_sem_destroy)] (mret ()) i st.

(** The cases of the process manager. *)
Definition proc_switch (i : MsgContext) (type subtype : Z) (next : H K unit) : H K unit :=
  if type =? TYPE msg_proc_slib_register then proc_slib_register i
  else if type =? TYPE msg_proc_segment_realloc then segment_switch i subtype
  else if type =? TYPE msg_proc_name_attach then
    sub_switch [(msg_proc_name_attach, proc_name_attach)] (unhandled_msg i) i subtype
  else if type =? TYPE msg_proc_time then proc_time i
  else if type =? TYPE msg_proc_setpgid then proc_setpgid i
  else if type =? TYPE msg_proc_terminate then proc_terminate i
  else if type =? TYPE msg_proc_open then proc_open i
  else if type =? TYPE msg_proc_fd_attach then fd_switch i subtype
  else if type =? TYPE msg_proc_vc_attach then proc_vc_attach i
  else if type =? TYPE msg_proc_vc_detach then proc_vc_detach i
  else if type =? TYPE msg_proc_psinfo then proc_psinfo i
  else if type =? TYPE msg_proc_sigtab then signal_switch i subtype
  else if type =? TYPE msg_proc_getid then
    sub_switch [(msg_proc_getid, proc_getid)] (unhandled_msg i) i subtype
  else if type =? TYPE msg_proc_osinfo then proc_osinfo i
  else if type =? TYPE msg_proc_spawn then proc_spawn i
  else if type =? TYPE msg_proc_fork then proc_fork i
  else if type =? TYPE msg_proc_exec then proc_exec i
  else if type =? TYPE msg_proc_timer_create then timer_switch i subtype
  else if type =? TYPE msg_proc_wait then proc_wait i
  else if type =? TYPE msg_proc_prefix then proc_prefix i
  else if type =? TYPE msg_proc_sid_query then session_switch i subtype
  else if type =? TYPE msg_proc_sem_init then sem_switch i subtype
  else next.

(** The cases of the file manager. *)
Definition io_switch (i : MsgContext) (type : Z) (next : H K unit) : H K unit :=
  if (type =? TYPE msg_io_handle) || (type =? TYPE msg_io_io_open) then io_open i
  else if type =? TYPE msg_io_chdir then io_chdir i
  else if type =? TYPE msg_io_rename then io_rename i
  else if type =? TYPE msg_io_stat then io_stat i
  else if type =? TYPE msg_io_fstat then io_fstat i
  else if type =? TYPE msg_io_close then io_close i
  else if type =? TYPE msg_io_read then io_read garbage_read uninit i
  else if type =? TYPE msg_io_write then io_write garbage_read uninit i
  else if type =? TYPE msg_io_lseek then io_lseek i
  else if type =? TYPE msg_io_readdir then io_readdir uninit i
  else if type =? TYPE msg_io_rewinddir then io_rewinddir i
  else if type =? TYPE msg_io_fcntl_flags then io_fcntl_flags i
  else if type =? TYPE msg_io_dup then io_dup i
  else if type =? TYPE msg_io_fpathconf then io_fpathconf i
  else if type =? TYPE msg_io_chmod then io_chmod i
  else if type =? TYPE msg_io_chown then io_chown i
  else if type =? TYPE msg_io_utime then io_utime i
  else if type =? TYPE msg_io_ioctl then io_ioctl i
  else if type =? TYPE msg_io_qioctl then io_qioctl uninit i
  else if type =? TYPE msg_io_lock then io_lock i
  else next.

Definition fsys_switch (i : MsgContext) (type : Z) (next : H K unit) : H K unit :=
  if type =? TYPE msg_fsys_unlink then fsys_unlink i
  else if type =? TYPE msg_fsys_mkspecial then fsys_mkspecial i
  else if type =? TYPE msg_fsys_link then fsys_link i
  else if type =? TYPE msg_fsys_sync then fsys_sync i
  else if type =? TYPE msg_fsys_readlink then fsys_readlink i
  else if type =? TYPE msg_fsys_trunc then fsys_trunc i
  else if type =? TYPE msg_fsys_fsync then fsys_fsync i
  else if type =? TYPE msg_fsys_pipe then fsys_pipe i
  else if type =? TYPE msg_fsys_disk_entry then fsys_disk_entry i
  else if type =? TYPE msg_fsys_get_mount then fsys_get_mount i
  else if type =? TYPE msg_fsys_disk_space then fsys_disk_space i
  else next.

(** The cases of the device manager. *)
Definition dev_switch (i : MsgContext) (type : Z) (next : H K unit) : H K unit :=
  if type =? TYPE msg_dev_tcgetattr then dev_tcgetattr i
  else if type =? TYPE msg_dev_tcsetattr then dev_tcsetattr i
  else if type =? TYPE msg_dev_dev_info then dev_info i
  else if type =? TYPE msg_dev_dev_fdinfo then dev_fdinfo i
  else if type =? TYPE msg_dev_tcgetpgrp then dev_tcgetpgrp i
  else if type =? TYPE msg_dev_tcsetpgrp then dev_tcsetpgrp i
  else if type =? TYPE msg_dev_term_size then dev_term_size i
  else if type =? TYPE msg_dev_tcdrain then dev_tcdrain i
  else if type =? TYPE msg_dev_tcflush then dev_tcflush i
  else if type =? TYPE msg_dev_read then dev_read garbage_read uninit i
  else if type =? TYPE msg_dev_insert_chars then dev_insert_chars uninit i
  else if type =? TYPE msg_dev_mode then dev_mode i
  else next.

Definition dispatch (i : MsgContext) (type subtype : Z) : H K unit :=
  proc_switch i type subtype
    (io_switch i type (fsys_switch i type (dev_switch i type (unhandled_msg i)))).

Definition receive_inner (i : MsgContext) : H K unit :=
  hdr ← read_type i s_header;
  dispatch i hdr[: s_header ; "type" :] hdr[: s_header ; "subtype" :].

(** A descriptor that is not there is answered for all handlers. *)
Definition receive (i : MsgContext) : H K unit :=
  try_catch is_bad_fd (receive_inner i) (fun _ => write_status i QEBADF).
End Main.
