(* ===== verification/Main.v ===== *)
(** * Main: starting the emulator, [qine.cpp]

    The command line as [getopt_long] delivers it - the options in their order
    with the words they were given as, and what follows them - configures the
    process, then the program and the libraries are loaded and the guest's first
    state is built.  What the theorem shows: the libraries are put off until the
    program is loaded, so where their options stand among the others changes
    nothing but the order of the words Qine remembers for calling itself. *)

From S2P Require Import Prelude Types Memory IdMap CmdOpts PathMapper PidMap Log TerminalFilter FdMap Segment AddressSpace GuestContext Loader IoHandler Process.

(** The values [getopt_long] returns, with their argument; [NoSlib] is the flag
    it sets itself. *)
Inductive Opt :=
| Help | Unrecognised | NoSlib | TermEmu
| Debug (arg : cstring) | Map (arg : cstring) | Lib (arg : cstring) | Exec (arg : cstring).

#[export] Instance Opt_eq_dec : EqDecision Opt.
Proof. solve_decision. Defined.

(** The command line when [getopt_long] is through, which moves the operands
    behind the options: the name of the program, the options with the words of
    [argv] each was given as, whether a separator ends them, and the operands. *)
Record CommandLine := mkCommandLine {
  c_argv0 : cstring;
  c_options : list (Opt * list cstring);
  c_separator : bool;
  c_operands : list cstring
}.
Definition opts (cl : CommandLine) : list Opt := (c_options cl).*1.

(** [argv] up to [optind]. *)
Definition head (cl : CommandLine) : list cstring :=
  c_argv0 cl :: concat (c_options cl).*2 ++ (if c_separator cl then [lit "--"] else []).

(** The variables of [main], the process with its descriptors, the enabled log
    categories and the environment. *)
Record Boot := mkBoot {
  b_log : Z;
  b_process : Process;
  b_fds : FdMap;
  b_environ : list cstring;
  b_delayed : list cstring;
  b_exec : cstring;
  b_no_slib : bool;
  b_self_call : list cstring
}.

Definition set_log (v : Z) (b : Boot) : Boot :=
  mkBoot v (b_process b) (b_fds b) (b_environ b) (b_delayed b) (b_exec b) (b_no_slib b) (b_self_call b).
Definition set_process (p : Process) (b : Boot) : Boot :=
  mkBoot (b_log b) p (b_fds b) (b_environ b) (b_delayed b) (b_exec b) (b_no_slib b) (b_self_call b).
Definition set_terminal (m : FdMap) (env : list cstring) (b : Boot) : Boot :=
  mkBoot (b_log b) (b_process b) m env (b_delayed b) (b_exec b) (b_no_slib b) (b_self_call b).
Definition set_delayed (l : list cstring) (b : Boot) : Boot :=
  mkBoot (b_log b) (b_process b) (b_fds b) (b_environ b) l (b_exec b) (b_no_slib b) (b_self_call b).
Definition set_exec (e : cstring) (b : Boot) : Boot :=
  mkBoot (b_log b) (b_process b) (b_fds b) (b_environ b) (b_delayed b) e (b_no_slib b) (b_self_call b).
Definition set_no_slib (b : Boot) : Boot :=
  mkBoot (b_log b) (b_process b) (b_fds b) (b_environ b) (b_delayed b) (b_exec b) true (b_self_call b).
Definition set_self_call (l : list cstring) (b : Boot) : Boot :=
  mkBoot (b_log b) (b_process b) (b_fds b) (b_environ b) (b_delayed b) (b_exec b) (b_no_slib b) l.

Definition on_process {A} (op : M Process A) : M Boot A := fun b =>
  let '(p, r) := op (b_process b) in (set_process p b, r).

(** [setenv(name, value, 1)]: the variable is replaced where it is, or added. *)
Fixpoint setenv (name value : cstring) (env : list cstring) : list cstring :=
  match env with
  | [] => [name ++ 61 :: value]
  | e :: env => if starts_with e (name ++ [61]) then (name ++ 61 :: value) :: env
                else e :: setenv name value env
  end.

Definition is_configuration (e : exn) : bool := match e with ConfigurationError _ => true | _ => false end.

Section Main.
Context (mmap : Z -> Z -> Z -> Z -> option Z) (modify_ldt : user_desc -> bool).
Context (mprotect : Z -> Z -> Z -> bool).
Context (getcwd : cstring) (open_file : cstring -> option (list Z)) (realpath : cstring -> option cstring).
Context (garbage : Z) (isatty : Z -> bool) (main_exe : outcome cstring).

(** ** Options *)

(** [Process::attach_term_emu]. *)
Definition attach_term_emu : M Boot unit :=
  b ← get;
  match get_open_fd (b_fds b) 0 with
  | Ok fd =>
      if isatty (m_host_fd fd)
      then put (set_terminal (update_fd 0 (set_filter TerminalFilter_new) (b_fds b))
                  (setenv (lit "TERM") (lit "xterm-qine1") (b_environ b)) b)
      else mret ()
  | Throw BadFdException => mret ()
  | Throw e => throw e
  end.

Definition run_option (o : Opt) : M Boot unit :=
  b ← get;
  match o with
  | Help => throw (Exit 0)
  | Unrecognised => throw (Exit 1)
  | NoSlib => put (set_no_slib b)
  | TermEmu => attach_term_emu
  | Debug arg =>
      let '(m, r) := handle_log_opt arg (b_log b) in _ ← put (set_log m b); lift r
  | Map arg =>
      m ← lift (add_map arg (p_paths (b_process b)));
      put (set_process (set_paths m (b_process b)) b)
  | Lib arg => put (set_delayed (b_delayed b ++ [arg]) b)
  | Exec arg => put (set_exec arg b)
  end.

Fixpoint run_options (l : list Opt) : M Boot unit :=
  match l with [] => mret () | o :: l => _ ← run_option o; run_options l end.

(** [initialize_self_call]: the arguments before [optind], without every word
    [--] among them; the first is replaced by the path of the executable. *)
Definition initialize_self_call (head : list cstring) : M Boot unit :=
  match filter (fun a => a <> lit "--") head with
  | [] => throw (Undefined "self_call[0]")
  | _ :: rest => exe ← lift main_exe; Prelude.modify (set_self_call (exe :: rest))
  end.

Definition configure (cl : CommandLine) : M Boot unit :=
  try_catch is_configuration (_ ← run_options (opts cl); initialize_self_call (head cl)) (fun _ => throw (Exit 1)).

(** ** Loading and starting *)

(** The program to load: [--exec], or the first argument. *)
Definition exec_path (argv : list cstring) (b : Boot) : outcome PathInfo :=
  let m := p_paths (b_process b) in
  if negb (bool_decide (b_exec b = [])) then map_path_to_qnx_s m (b_exec b) false
  else match argv with
       | [] => Throw (Undefined "argv[0]")
       | a :: _ => if is_abs a then map_path_to_host_s m a false
                   else map_path_to_qnx_s m (default [] (realpath a)) false
       end.

Fixpoint load_libraries (l : list cstring) : M Boot unit :=
  match l with
  | [] => mret ()
  | a :: l => _ ← on_process (load_library mmap modify_ldt mprotect open_file garbage a); load_libraries l
  end.

(** What comes after the options. *)
Definition start (argv : list cstring) : M Boot unit :=
  b ← get;
  if bool_decide (argv = []) && bool_decide (b_exec b = []) then throw (Exit 1)
  else
    path ← lift (exec_path argv b);
    _ ← on_process (load_executable mmap modify_ldt mprotect open_file realpath path);
    _ ← load_libraries (b_delayed b);
    b ← get;
    if negb (slib_loaded (b_process b)) && negb (b_no_slib b) then throw (Exit 1)
    else on_process (setup_startup_context mmap modify_ldt (b_environ b) getcwd argv).

Definition main (cl : CommandLine) : M Boot unit :=
  _ ← configure cl; start (c_operands cl).
End Main.

(** ** The order of the options *)

Definition is_lib (o : Opt) : bool := match o with Lib _ => true | _ => false end.
Definition libs (opts : list Opt) : list cstring := omap (fun o => match o with Lib a => Some a | _ => None end) opts.

(** Boots that differ at most in the libraries put off. *)
Definition same_but_delayed (b b' : Boot) : Prop := set_delayed [] b = set_delayed [] b'.

#[export] Instance same_but_delayed_equiv : Equivalence same_but_delayed.
Proof.
  unfold same_but_delayed. split; [intros b|intros b b'|intros b b' b'']; congruence.
Qed.

Lemma set_delayed_same l b : same_but_delayed (set_delayed l b) b.
Proof. reflexivity. Qed.

Lemma same_delayed_eq b b' : same_but_delayed b b' -> b_delayed b = b_delayed b' -> b = b'.
Proof. unfold same_but_delayed. destruct b, b'. simpl. by intros [=] ->; subst. Qed.

Section Order.
Context (mmap : Z -> Z -> Z -> Z -> option Z) (modify_ldt : user_desc -> bool).
Context (mprotect : Z -> Z -> Z -> bool).
Context (getcwd : cstring) (open_file : cstring -> option (list Z)) (realpath : cstring -> option cstring).
Context (garbage : Z) (isatty : Z -> bool) (main_exe : outcome cstring).

Notation run_options := (run_options isatty).
Notation configure := (configure isatty main_exe).
Notation start := (start mmap modify_ldt mprotect getcwd open_file realpath garbage).
Notation main := (main mmap modify_ldt mprotect getcwd open_file realpath garbage isatty main_exe).

(** Every other option leaves the list of libraries alone and does not look at it. *)
Lemma run_option_delayed o b l :
  is_lib o = false ->
  run_option isatty o (set_delayed l b) =
    (set_delayed l (fst (run_option isatty o b)), snd (run_option isatty o b)) /\
  b_delayed (fst (run_option isatty o b)) = b_delayed b.
Proof.
  destruct o as [| | | |arg|arg|arg|arg]; intros Ho; try discriminate Ho; try (split; reflexivity).
  - unfold run_option, attach_term_emu, mbind, M_bind, get, put, mret, M_ret. simpl.
    destruct (get_open_fd (b_fds b) 0) as [fd|[]]; try (split; reflexivity).
    destruct (isatty (m_host_fd fd)); split; reflexivity.
  - unfold run_option, mbind, M_bind, get, put, lift. simpl.
    destruct (handle_log_opt arg (b_log b)) as [m r]. split; reflexivity.
  - unfold run_option, mbind, M_bind, get, put, lift. simpl.
    destruct (add_map arg (p_paths (b_process b))) as [m|x]; split; reflexivity.
Qed.

Lemma run_options_delayed opts : forall b l,
  forallb (fun o => negb (is_lib o)) opts = true ->
  run_options opts (set_delayed l b) =
    (set_delayed l (fst (run_options opts b)), snd (run_options opts b)) /\
  b_delayed (fst (run_options opts b)) = b_delayed b.
Proof.
  induction opts as [|o opts IH]; intros b l H; [split; reflexivity|].
  cbn [forallb] in H. apply andb_prop in H as [Ho Hr]. apply negb_true_iff in Ho.
  destruct (run_option_delayed o b l Ho) as [H1 H2]. cbn [Main.run_options]. unfold mbind, M_bind.
  rewrite H1. destruct (run_option isatty o b) as [b1 [[]|x]]; [|split; [reflexivity|exact H2]].
  cbn [fst snd] in *. destruct (IH b1 l Hr) as [H3 H4]. split; [exact H3|congruence].
Qed.

Lemma run_options_app o1 o2 b :
  run_options (o1 ++ o2) b = (_ ← run_options o1; run_options o2) b.
Proof.
  revert b. induction o1 as [|o o1 IH]; intros b; [reflexivity|]. simpl. unfold mbind, M_bind.
  destruct (run_option isatty o b) as [b1 [[]|x]]; [apply IH|reflexivity].
Qed.

Lemma run_options_libs l b : run_options (Lib <$> l) b = (set_delayed (b_delayed b ++ l) b, Ok ()).
Proof.
  revert b. induction l as [|a l IH]; intros b; [rewrite app_nil_r; by destruct b|].
  change (run_options (Lib <$> l) (set_delayed (b_delayed b ++ [a]) b) =
    (set_delayed (b_delayed b ++ a :: l) b, Ok ())).
  rewrite IH. cbn [set_delayed b_delayed]. by rewrite <- app_assoc.
Qed.

(** The options other than libraries, then the libraries. *)
Definition sorted (opts : list Opt) : list Opt := filter (fun o => is_lib o = false) opts ++ (Lib <$> libs opts).

(** What the options do, split into both kinds. *)
Lemma run_options_split opts : forall b,
  let b1 := fst (run_options (filter (fun o => is_lib o = false) opts) b) in
  let r := snd (run_options (filter (fun o => is_lib o = false) opts) b) in
  snd (run_options opts b) = r /\ same_but_delayed (fst (run_options opts b)) b1 /\
  (r = Ok () -> fst (run_options opts b) = set_delayed (b_delayed b ++ libs opts) b1).
Proof.
  induction opts as [|o opts IH]; intros b.
  - repeat split. intros _. rewrite app_nil_r. by destruct b.
  - destruct (is_lib o) eqn:Ho.
    + rewrite filter_cons_False by (by rewrite Ho). destruct o as [| | | | | |a|]; try discriminate Ho.
      set (b' := set_delayed (b_delayed b ++ [a]) b).
      change (run_options (Lib a :: opts) b) with (run_options opts b').
      assert (Hf : forallb (fun o => negb (is_lib o)) (filter (fun o => is_lib o = false) opts) = true).
      { apply forallb_forall. intros o Hin. apply list_elem_of_In, list_elem_of_filter in Hin as [E _]. by rewrite E. }
      destruct (run_options_delayed _ b (b_delayed b ++ [a]) Hf) as [H1 H2].
      destruct (IH b') as (H3 & H4 & H5). fold b' in H1. rewrite H1 in H3, H4, H5. cbn [fst snd] in *.
      cbv zeta. split; [exact H3|]. split; [etransitivity; [exact H4|apply set_delayed_same]|].
      intros Hr. rewrite H5 by exact Hr. unfold b'. cbn [set_delayed b_delayed]. by rewrite <- app_assoc.
    + rewrite filter_cons_True by exact Ho. cbn [Main.run_options]. unfold mbind, M_bind.
      pose proof (run_option_delayed o b (b_delayed b) Ho) as [_ Hd].
      destruct (run_option isatty o b) as [b1 [[]|x]]; [|repeat split; by intros].
      destruct (IH b1) as (H1 & H2 & H3). cbn [fst] in Hd. rewrite Hd in H3. split; [exact H1|].
      split; [exact H2|]. destruct o; try discriminate Ho; exact H3.
Qed.

(** The words Qine keeps for calling itself. *)
Definition self_call (cl : CommandLine) (exe : cstring) : list cstring :=
  exe :: tail (filter (fun a => a <> lit "--") (head cl)).

(** The same command line but for where the libraries stand. *)
Definition reordered (cl cl' : CommandLine) : Prop :=
  c_argv0 cl' = c_argv0 cl /\ c_separator cl' = c_separator cl /\ c_operands cl' = c_operands cl /\
  filter (fun p => is_lib p.1 = false) (c_options cl') = filter (fun p => is_lib p.1 = false) (c_options cl) /\
  filter (fun p => is_lib p.1 = true) (c_options cl') = filter (fun p => is_lib p.1 = true) (c_options cl).

Lemma filter_opts (l : list (Opt * list cstring)) (b : bool) :
  filter (fun o => is_lib o = b) l.*1 = (filter (fun p => is_lib p.1 = b) l).*1.
Proof.
  induction l as [|[o w] l IH]; [done|]. rewrite fmap_cons, !filter_cons. cbn [fst].
  destruct (decide (is_lib o = b)); [by rewrite fmap_cons, IH|exact IH].
Qed.

Lemma libs_filter (l : list Opt) : libs l = libs (filter (fun o => is_lib o = true) l).
Proof.
  induction l as [|o l IH]; [done|]. rewrite filter_cons.
  destruct o; simpl; unfold libs in *; simpl; congruence.
Qed.

Lemma reordered_opts cl cl' : reordered cl cl' ->
  filter (fun o => is_lib o = false) (opts cl) = filter (fun o => is_lib o = false) (opts cl') /\
  libs (opts cl) = libs (opts cl').
Proof.
  intros (_ & _ & _ & H1 & H2). unfold opts. split; [by rewrite !filter_opts, H1|].
  rewrite (libs_filter (c_options cl).*1), (libs_filter (c_options cl').*1). by rewrite !filter_opts, H2.
Qed.

(** The words in front of the operands are the same, in another order. *)
Lemma split_perm (l : list (Opt * list cstring)) :
  filter (fun p => is_lib p.1 = false) l ++ filter (fun p => is_lib p.1 = true) l ≡ₚ l.
Proof.
  induction l as [|[o w] l IH]; [done|]. rewrite !filter_cons. cbn [fst]. destruct (is_lib o).
  - rewrite decide_False, decide_True by done. by rewrite <- Permutation_middle, IH.
  - rewrite decide_True, decide_False by done. cbn [app]. by rewrite IH.
Qed.

Lemma concat_perm (l l' : list (list cstring)) : l ≡ₚ l' -> concat l ≡ₚ concat l'.
Proof.
  induction 1 as [|x l l' _ IH|x y l|l l' l'' _ IH1 _ IH2]; simpl; [done|by rewrite IH| |by rewrite IH1].
  rewrite !app_assoc. f_equiv. apply Permutation_app_comm.
Qed.

Lemma head_perm cl cl' : reordered cl cl' -> head cl ≡ₚ head cl'.
Proof.
  intros (Ha & Hs & _ & H1 & H2). unfold head. rewrite Ha, Hs.
  assert (Hp : c_options cl ≡ₚ c_options cl')
    by (rewrite <- (split_perm (c_options cl)), <- (split_perm (c_options cl')), H1, H2; done).
  assert (Hw : concat (c_options cl).*2 ≡ₚ concat (c_options cl').*2) by (apply concat_perm; by rewrite Hp).
  by rewrite Hw.
Qed.

Lemma self_call_perm cl cl' exe : reordered cl cl' -> c_argv0 cl <> lit "--" ->
  self_call cl exe ≡ₚ self_call cl' exe.
Proof.
  intros Hr Hn. pose proof (head_perm cl cl' Hr) as Hp. destruct Hr as (Ha & _).
  assert (Hf : filter (fun a => a <> lit "--") (head cl) ≡ₚ filter (fun a => a <> lit "--") (head cl')) by by rewrite Hp.
  unfold self_call, head in *. rewrite Ha in Hf |- *. rewrite !filter_cons_True in Hf |- * by done.
  cbn [tail]. apply Permutation_cons_inv in Hf. by rewrite Hf.
Qed.

Lemma initialize_self_call_run cl b :
  initialize_self_call main_exe (head cl) b =
    match filter (fun a => a <> lit "--") (head cl), main_exe with
    | [], _ => (b, Throw (Undefined "self_call[0]"))
    | _, Throw x => (b, Throw x)
    | _, Ok exe => (set_self_call (self_call cl exe) b, Ok ())
    end.
Proof.
  unfold initialize_self_call, self_call. destruct (filter _ _) as [|a l]; [done|]. by destruct main_exe.
Qed.

Lemma run_options_self_call l : forall b, b_self_call (fst (run_options l b)) = b_self_call b.
Proof.
  assert (H : forall o b, b_self_call (fst (run_option isatty o b)) = b_self_call b).
  { intros [| | | |arg|arg|arg|arg] b; try reflexivity.
    - unfold run_option, attach_term_emu, mbind, M_bind, get, put, mret, M_ret. simpl.
      destruct (get_open_fd (b_fds b) 0) as [fd|[]]; try reflexivity. by destruct (isatty (m_host_fd fd)).
    - unfold run_option, mbind, M_bind, get, put, lift. simpl. by destruct (handle_log_opt arg (b_log b)) as [m r].
    - unfold run_option, mbind, M_bind, get, put, lift. simpl. by destruct (add_map arg (p_paths (b_process b))). }
  induction l as [|o l IH]; intros b; [done|]. cbn [Main.run_options]. unfold mbind, M_bind.
  specialize (H o b). destruct (run_option isatty o b) as [b1 [[]|x]]; [|exact H]. cbn [fst] in H.
  by rewrite IH.
Qed.

(** Interleaved differently, the same options configure the same. *)
Lemma configure_order cl cl' b : reordered cl cl' ->
  snd (configure cl b) = snd (configure cl' b) /\
  match snd (configure cl b) with
  | Ok _ => exists exe, main_exe = Ok exe /\ b_self_call (fst (configure cl b)) = self_call cl exe /\
              fst (configure cl' b) = set_self_call (self_call cl' exe) (fst (configure cl b))
  | Throw _ => same_but_delayed (fst (configure cl b)) (fst (configure cl' b))
  end.
Proof.
  intros Hr. destruct (reordered_opts cl cl' Hr) as [Hf Hl].
  destruct (run_options_split (opts cl) b) as (H1 & H2 & H3).
  destruct (run_options_split (opts cl') b) as (H4 & H5 & H6).
  rewrite <- Hf in H4, H5, H6. rewrite <- Hl in H6.
  assert (Hp : filter (fun a => a <> lit "--") (head cl) ≡ₚ filter (fun a => a <> lit "--") (head cl'))
    by by rewrite (head_perm cl cl' Hr).
  unfold Main.configure, try_catch, mbind, M_bind.
  destruct (run_options (opts cl) b) as [b1 r1], (run_options (opts cl') b) as [b2 r2]. cbn [fst snd] in *.
  destruct (run_options _ b) as [b0 r0]. cbn [fst snd] in *. subst r1 r2.
  assert (Hs : same_but_delayed b1 b2) by (etransitivity; [exact H2|by symmetry]).
  destruct r0 as [[]|x]; [|by destruct (is_configuration x)].
  rewrite (H3 eq_refl), (H6 eq_refl), !initialize_self_call_run.
  destruct (filter _ (head cl)) as [|a l], (filter _ (head cl')) as [|a' l'].
  - done.
  - by apply Permutation_nil_cons in Hp.
  - symmetry in Hp. by apply Permutation_nil_cons in Hp.
  - destruct main_exe as [exe|x]; [|by destruct (is_configuration x)]. split; [done|]. by exists exe.
Qed.

(** The options do not touch the guest. *)
Lemma run_option_guest o b :
  p_space (b_process (fst (run_option isatty o b))) = p_space (b_process b) /\
  p_guest (b_process (fst (run_option isatty o b))) = p_guest (b_process b).
Proof.
  destruct o as [| | | |arg|arg|arg|arg]; try (split; reflexivity).
  - unfold run_option, attach_term_emu, mbind, M_bind, get, put, mret, M_ret. simpl.
    destruct (get_open_fd (b_fds b) 0) as [fd|[]]; try (split; reflexivity).
    destruct (isatty (m_host_fd fd)); split; reflexivity.
  - unfold run_option, mbind, M_bind, get, put, lift. simpl.
    destruct (handle_log_opt arg (b_log b)) as [m r]. split; reflexivity.
  - unfold run_option, mbind, M_bind, get, put, lift. simpl.
    destruct (add_map arg (p_paths (b_process b))) as [m|x]; split; reflexivity.
Qed.

Lemma configure_guest cl b :
  p_space (b_process (fst (configure cl b))) = p_space (b_process b) /\
  p_guest (b_process (fst (configure cl b))) = p_guest (b_process b).
Proof.
  assert (H : forall b, p_space (b_process (fst (run_options (opts cl) b))) = p_space (b_process b) /\
    p_guest (b_process (fst (run_options (opts cl) b))) = p_guest (b_process b)).
  { induction (opts cl) as [|o l IH]; intros b0; [split; reflexivity|]. cbn [Main.run_options]. unfold mbind, M_bind.
    pose proof (run_option_guest o b0) as [H1 H2]. destruct (run_option isatty o b0) as [b1 [[]|x]]; [|by split].
    destruct (IH b1) as [H3 H4]. cbn [fst] in *. split; congruence. }
  specialize (H b). unfold Main.configure, try_catch, mbind, M_bind.
  destruct (run_options (opts cl) b) as [b1 [[]|x]]; [|by destruct (is_configuration x)].
  unfold initialize_self_call. destruct (filter _ (head cl)) as [|a rest]; [exact H|].
  destruct main_exe as [exe|x]; [exact H|]. unfold mbind, M_bind, lift. by destruct (is_configuration x).
Qed.

Definition with_self (l : list cstring) (r : Boot * outcome unit) : Boot * outcome unit := (set_self_call l r.1, r.2).

(** [start] does not look at what Qine calls itself with. *)
Lemma start_self_call argv l b : start argv (set_self_call l b) = with_self l (start argv b).
Proof.
  assert (Hp : forall (op : M Process unit) b, on_process op (set_self_call l b) = with_self l (on_process op b)).
  { intros op b0. unfold on_process. cbn [set_self_call b_process]. by destruct (op (b_process b0)). }
  assert (Hl : forall args b, load_libraries mmap modify_ldt mprotect open_file garbage args (set_self_call l b)
      = with_self l (load_libraries mmap modify_ldt mprotect open_file garbage args b)).
  { induction args as [|a args IH]; intros b0; [done|]. cbn [load_libraries]. unfold mbind, M_bind. rewrite Hp.
    destruct (on_process _ b0) as [b1 [[]|x]]; [apply IH|done]. }
  unfold Main.start, get, throw, lift, mbind, M_bind.
  change (exec_path realpath argv (set_self_call l b)) with (exec_path realpath argv b).
  change (b_exec (set_self_call l b)) with (b_exec b). change (b_delayed (set_self_call l b)) with (b_delayed b).
  destruct (_ && _); [done|]. destruct (exec_path realpath argv b) as [path|x]; [|done]. rewrite Hp.
  destruct (on_process _ b) as [b1 [[]|x]]; [|done]. unfold with_self at 1. cbn [fst snd]. rewrite Hl.
  destruct (load_libraries _ _ _ _ _ _ b1) as [b2 [[]|x]]; [|done]. unfold with_self at 1. cbn [fst snd].
  change (b_process (set_self_call l b2)) with (b_process b2). change (b_no_slib (set_self_call l b2)) with (b_no_slib b2).
  change (b_environ (set_self_call l b2)) with (b_environ b2).
  destruct (_ && _); [done|]. apply Hp.
Qed.

Lemma start_keeps_self argv b : b_self_call (fst (start argv b)) = b_self_call b.
Proof.
  assert (H : start argv b = with_self (b_self_call b) (start argv b))
    by (rewrite <- start_self_call; f_equal; by destruct b).
  rewrite H. done.
Qed.

Lemma configure_errors cl b x :
  (snd (configure cl b) = Throw x -> is_configuration x = false) /\
  (snd (run_options (opts cl) b) = Throw x ->
     snd (configure cl b) = Throw (if is_configuration x then Exit 1 else x)).
Proof.
  unfold Main.configure, try_catch. split.
  - destruct ((_ ← run_options (opts cl); initialize_self_call main_exe (head cl)) b) as [b0 [[]|y]]; [discriminate|].
    destruct (is_configuration y) eqn:E; intros [= <-]; done.
  - unfold mbind, M_bind. destruct (run_options (opts cl) b) as [b0 [[]|y]]; [discriminate|].
    intros [= ->]. by destruct (is_configuration x).
Qed.

(** C40. The libraries are loaded after the program, in their order, wherever
    their options stand: two command lines that differ only in how the library
    options are interleaved with the others (each kind keeping its order) have
    the same result.  When the options are in order the states agree on
    everything but the words Qine keeps for calling itself: these are, for each,
    the path of the executable and its own words in front of the operands, as
    they stand and without the separators; so one is a permutation of the
    other.  When the options are wrong, or ask for the help, nothing was loaded
    and the states agree on everything but the list of libraries put off; a
    configuration error is an exit with status 1. *)
Theorem main_order cl cl' b :
  reordered cl cl' ->
  snd (main cl b) = snd (main cl' b) /\
  match snd (configure cl b) with
  | Ok _ =>
      exists exe, main_exe = Ok exe /\
        b_self_call (fst (main cl b)) = self_call cl exe /\
        fst (main cl' b) = set_self_call (self_call cl' exe) (fst (main cl b)) /\
        (c_argv0 cl <> lit "--" -> self_call cl exe ≡ₚ self_call cl' exe)
  | Throw x =>
      main cl b = (fst (configure cl b), Throw x) /\ is_configuration x = false /\
      same_but_delayed (fst (main cl b)) (fst (main cl' b)) /\
      p_space (b_process (fst (main cl b))) = p_space (b_process b) /\
      p_guest (b_process (fst (main cl b))) = p_guest (b_process b)
  end /\
  (forall x, snd (run_options (opts cl) b) = Throw x ->
     snd (main cl b) = Throw (if is_configuration x then Exit 1 else x)).
Proof.
  intros Hr. destruct (configure_order cl cl' b Hr) as [Hsnd Hc].
  pose proof (configure_guest cl b) as Hg. pose proof (configure_errors cl b) as He.
  assert (Ho : c_operands cl' = c_operands cl) by apply Hr.
  unfold Main.main, mbind, M_bind. rewrite Ho.
  destruct (configure cl b) as [b1 r1], (configure cl' b) as [b2 r2]. cbn [fst snd] in *. subst r2.
  destruct r1 as [[]|x]; cbn [fst snd].
  - destruct Hc as (exe & Hm & Hb & ->). rewrite start_self_call. split; [done|]. split.
    + exists exe. split; [done|]. split; [by rewrite start_keeps_self|]. split; [done|]. by apply self_call_perm.
    + intros x Hx. discriminate (proj2 (He x) Hx).
  - split; [done|]. split; [|by intros y Hy; apply He]. split; [done|]. by split; [apply He|].
Qed.
End Order.

(** A library before the mapping it is found through, and after it. *)
Definition demo_boot : Boot := mkBoot 0 demo_process (mkIdMap 16 []) [] [] [] false [].
Definition demo_lib_first : CommandLine := mkCommandLine (lit "qine")
  [(Lib (lit "lib,sys,entry=16"), [lit "-l"; lit "lib,sys,entry=16"]); (Map (lit "/host,/"), [lit "--map=/host,/"])]
  true [lit "/bin/ls"].
Definition demo_map_first : CommandLine := mkCommandLine (lit "qine")
  [(Map (lit "/host,/"), [lit "--map=/host,/"]); (Lib (lit "lib,sys,entry=16"), [lit "-l"; lit "lib,sys,entry=16"])]
  true [lit "/bin/ls"].

Lemma main_order_witness :
  let run cl := Main.main demo_mmap (fun _ => true) (fun _ _ _ => true) [] (fun _ => None)
    (fun _ => None) 0 (fun _ => false) (Ok (lit "/qine")) cl demo_boot in
  head demo_lib_first = [lit "qine"; lit "-l"; lit "lib,sys,entry=16"; lit "--map=/host,/"; lit "--"] /\
  snd (run demo_lib_first) = snd (run demo_map_first) /\
  b_self_call (fst (run demo_lib_first)) = [lit "/qine"; lit "-l"; lit "lib,sys,entry=16"; lit "--map=/host,/"] /\
  b_self_call (fst (run demo_map_first)) = [lit "/qine"; lit "--map=/host,/"; lit "-l"; lit "lib,sys,entry=16"].
Proof.
  intros run. split; [reflexivity|].
  destruct (main_order demo_mmap (fun _ => true) (fun _ _ _ => true) [] (fun _ => None)
    (fun _ => None) 0 (fun _ => false) (Ok (lit "/qine")) demo_lib_first demo_map_first demo_boot) as (H1 & H2 & _).
  - repeat split; vm_compute; reflexivity.
  - split; [exact H1|].
    change (snd (configure (fun _ => false) (Ok (lit "/qine")) demo_lib_first demo_boot)) with (Ok ()) in H2.
    destruct H2 as (exe & [= <-] & H3 & H4 & _). unfold run. rewrite H3, H4. split; reflexivity.
Defined.
