(* ===== verification/Cpu.v ===== *)
(** * Cpu: between the processor and the saved context

    [ExtraContext] and [TlsFixup] of [guest_context.h], and the signal handlers of
    [emu.cpp] from the interruption of the guest to its resumption.  The kernel
    saves the registers in a [ucontext_t] and loads them from it when the handler
    returns - all but DS, ES, FS and GS, which stay in the processor; [ExtraContext]
    carries these four.  The emulator's view, on which [Emu] works, is made of
    both.  What the theorem shows: the guest resumes with the registers the
    handlers left in that view - but for FS and GS, whose accessors look into the
    [ucontext_t]: whatever is assigned to them, the guest keeps those it had. *)

From S2P Require Import Prelude Types Memory Segment AddressSpace Sigset PidMap Msg GuestContext Emu.

(** ** The processor *)

(** The registers of the thread, and the addresses its thread-local storage is
    found at. *)
Record Cpu := mkCpu { c_regs : Regs; c_fs_base : Z; c_gs_base : Z }.

(** The registers no signal frame holds. *)
Definition unframed (r : Reg) : bool := match r with DS | ES | FS | GS => true | _ => false end.

Inductive ArchPrctl := ARCH_GET_FS | ARCH_GET_GS | ARCH_SET_FS (v : Z) | ARCH_SET_GS (v : Z).

(** What the processor and the kernel do: the base behind a selector that is
    loaded, [arch_prctl] with its result and the value it stores, the frame of a
    signal, and the return from its handler. *)
Class Thread := {
  load_base : Z -> Z -> Z;
  arch_prctl : ArchPrctl -> Cpu -> Cpu * (Z * Z);
  deliver : Cpu -> Regs;
  rt_sigreturn : Regs -> Cpu -> Cpu
}.

(** The documented behaviour. *)
Class ThreadLaws {T : Thread} := {
  deliver_law : forall c r, unframed r = false -> rget (deliver c) r = rget (c_regs c) r;
  rt_sigreturn_law : forall f c r,
    rget (c_regs (rt_sigreturn f c)) r = if unframed r then rget (c_regs c) r else rget f r;
  prctl_law : forall q c c' n v, arch_prctl q c = (c', (n, v)) -> 0 <= n ->
    c_regs c' = c_regs c /\
    match q with
    | ARCH_GET_FS => c' = c /\ v = c_fs_base c
    | ARCH_GET_GS => c' = c /\ v = c_gs_base c
    | ARCH_SET_FS b => c_fs_base c' = b /\ c_gs_base c' = c_gs_base c
    | ARCH_SET_GS b => c_gs_base c' = b /\ c_fs_base c' = c_fs_base c
    end
}.

(** ** [ExtraContext] *)

Record ExtraContext := mkExtra { x_ds : Z; x_es : Z; x_fs : Z; x_gs : Z }.

Definition from_cpu (c : Cpu) : ExtraContext :=
  mkExtra (rget (c_regs c) DS) (rget (c_regs c) ES) (rget (c_regs c) FS) (rget (c_regs c) GS).

Section Thread.
Context {T : Thread}.

Definition to_cpu (x : ExtraContext) (c : Cpu) : Cpu :=
  mkCpu (upd (upd (upd (upd (c_regs c) DS (x_ds x)) ES (x_es x)) FS (x_fs x)) GS (x_gs x))
    (load_base (x_fs x) (c_fs_base c)) (load_base (x_gs x) (c_gs_base c)).

(** ** [TlsFixup] *)

Record TlsFixup := mkTls { fsbase : Z; gsbase : Z }.

Definition prctl (q : ArchPrctl) : M (TlsFixup * Cpu) Z := fun '(t, c) =>
  let '(c, (n, v)) := arch_prctl q c in
  ((t, c), if n <? 0 then Throw (LogicError "arch_prctl failed") else Ok v).

Definition save : M (TlsFixup * Cpu) unit :=
  v ← prctl ARCH_GET_FS; _ ← Prelude.modify (fun '(t, c) => (mkTls v (gsbase t), c));
  v ← prctl ARCH_GET_GS; Prelude.modify (fun '(t, c) => (mkTls (fsbase t) v, c)).

Definition restore : M (TlsFixup * Cpu) unit :=
  '(t, _) ← get; _ ← prctl (ARCH_SET_FS (fsbase t));
  '(t, _) ← get; _ ← prctl (ARCH_SET_GS (gsbase t)); mret ().

(** ** [GuestContext]: registers *)

(** The accessors: [reg_ds()] and [reg_es()] are members of the [ExtraContext], all
    others of the [ucontext_t]. *)
Definition view (m : Regs) (x : ExtraContext) : Regs :=
  tabulate (fun r => match r with DS => x_ds x | ES => x_es x | _ => rget m r end).

(** Where assignments through them end. *)
Definition ucontext_of (f m : Regs) : Regs :=
  tabulate (fun r => match r with DS | ES => rget m r | _ => rget f r end).
Definition extra_of (f : Regs) (x : ExtraContext) : ExtraContext :=
  mkExtra (rget f DS) (rget f ES) (x_fs x) (x_gs x).

(** ** The signal handlers *)

Section Handlers.
Context {W : Type} (now : Z * Z) (dump : EmuState W -> outcome unit).
Notation St := (EmuState W).

(** What the handlers do before [signal_tail]. *)
Definition segv_body (host_kill : Z -> Z -> Z) (handle_msg : MsgContext -> M St unit) (si_code : Z) : M St unit :=
  if si_code <=? 0 then handle_guest_segv dump
  else
    cs ← greg CS;
    if Z.land cs SEL_LDT =? 0 then throw Abort
    else
      _ ← host_call (HUnblock Sigset.Host.SIGSEGV);
      es ← migrate ES;
      ds ← migrate DS;
      sys ← trapped_syscall host_kill handle_msg;
      if (sys || ds || es : bool) then mret () else handle_guest_segv dump.

Definition generic_body (sig : Z) : M St unit :=
  let qnx_sig := map_sig_host_to_qnx sig in
  if qnx_sig =? -1
  then throw (GuestStateException "Received signal, it is registered, but not QNX signal.")
  else signal_raise qnx_sig.

Definition in_guest (e : St) : bool := negb (Z.land (gr (e_guest e) CS) SEL_LDT =? 0).

Definition set_view (f : Regs) (e : St) : St := set_guest (set_regs f (e_guest e)) e.

(** From the delivery of the signal to the return from the handler; [signal_tail]
    loads the segment registers when it returns to the guest. *)
Definition on_signal (body : M St unit) : M (St * (TlsFixup * Cpu)) unit := fun '(e, (t, c)) =>
  let m := deliver c in
  let ectx := from_cpu c in
  match restore (t, c) with
  | (tc, Throw x) => ((e, tc), Throw x)
  | ((t, c), Ok _) =>
      match body (set_view (view m ectx) e) with
      | (e, Throw x) => ((e, (t, c)), Throw x)
      | (e1, Ok _) =>
          match signal_tail now dump e1 with
          | (e, Throw x) => ((e, (t, c)), Throw x)
          | (e, Ok _) =>
              let f := g_regs (e_guest e) in
              let c := if in_guest e1 then to_cpu (extra_of f ectx) c else c in
              ((e, (t, rt_sigreturn (ucontext_of f m) c)), Ok ())
          end
      end
  end.

(** The signals the emulator handles: a fault with its code, or any other. *)
Inductive Event := Segv (si_code : Z) | Signal (sig : Z).

Section Events.
Context (host_kill : Z -> Z -> Z) (handle_msg : MsgContext -> M St unit).

Definition body (ev : Event) : M St unit :=
  match ev with Segv si_code => segv_body host_kill handle_msg si_code | Signal sig => generic_body sig end.

(** [static_handler_segv] and [static_handler_generic]. *)
Definition static_handler (ev : Event) : M (St * (TlsFixup * Cpu)) unit := on_signal (body ev).

(** The same in the emulator's view. *)
Definition handler (ev : Event) : M St unit :=
  match ev with Segv si_code => handler_segv now dump host_kill handle_msg si_code | Signal sig => handler_generic now dump sig end.
End Events.

(** [static_handler_user]: the startup registers are assigned, [ectx] loaded. *)
Definition enter_guest (startup : Guest) : M (St * (TlsFixup * Cpu)) unit := fun '(e, (t, c)) =>
  let m := deliver c in
  let ectx := from_cpu c in
  let g := static_handler_user startup (set_regs (view m ectx) (e_guest e)) in
  let c := to_cpu (extra_of (g_regs g) ectx) c in
  ((set_guest g e, (t, rt_sigreturn (ucontext_of (g_regs g) m) c)), Ok ()).

(** ** Facts *)

(** The handlers of [Emu] are those bodies with their tail. *)
Lemma handler_tail host_kill handle_msg ev e :
  handler host_kill handle_msg ev e = (_ ← body host_kill handle_msg ev; signal_tail now dump) e.
Proof.
  destruct ev as [si_code|sig]; cbn [handler body].
  - unfold handler_segv, segv_body. destruct (si_code <=? 0); [done|]. unfold mbind, M_bind.
    destruct (greg CS e) as [e1 [cs|x]]; [|done]. destruct (Z.land cs SEL_LDT =? 0); [done|].
    destruct (host_call _ e1) as [e2 [[]|x]]; [|done]. destruct (migrate ES e2) as [e3 [es|x]]; [|done].
    destruct (migrate DS e3) as [e4 [ds|x]]; [|done]. destruct (trapped_syscall _ _ e4) as [e5 [sys|x]]; [|done].
    by destruct (sys || ds || es).
  - unfold handler_generic, generic_body. by destruct (_ =? _).
Qed.

Context {TL : ThreadLaws}.

Lemma prctl_run q t c t' c' v :
  prctl q (t, c) = ((t', c'), Ok v) -> t' = t /\ exists n, arch_prctl q c = (c', (n, v)) /\ 0 <= n.
Proof.
  unfold prctl. destruct (arch_prctl q c) as [c1 [n w]]. destruct (Z.ltb_spec n 0); [done|].
  intros [= <- <- <-]. split; [done|]. by exists n.
Qed.

Lemma save_run t c t' c' :
  save (t, c) = ((t', c'), Ok ()) -> c' = c /\ t' = mkTls (c_fs_base c) (c_gs_base c).
Proof using TL.
  unfold save, mbind, M_bind, Prelude.modify. destruct (prctl ARCH_GET_FS (t, c)) as [[t1 c1] [v|x]] eqn:E1; [|done].
  apply prctl_run in E1 as (-> & n1 & E1 & H1). apply prctl_law in E1 as (_ & -> & ->); [|done].
  destruct (prctl ARCH_GET_GS _) as [[t2 c2] [v|x]] eqn:E2; [|done].
  apply prctl_run in E2 as (-> & n2 & E2 & H2). apply prctl_law in E2 as (_ & -> & ->); [|done].
  by intros [= <- <-].
Qed.

Lemma restore_run t c t' c' :
  restore (t, c) = ((t', c'), Ok ()) ->
  t' = t /\ c_regs c' = c_regs c /\ c_fs_base c' = fsbase t /\ c_gs_base c' = gsbase t.
Proof using TL.
  unfold restore, mbind, M_bind, get. destruct (prctl _ (t, c)) as [[t1 c1] [v|x]] eqn:E1; [|done].
  apply prctl_run in E1 as (-> & n1 & E1 & H1). apply prctl_law in E1 as (R1 & F1 & G1); [|done].
  destruct (prctl _ (t, c1)) as [[t2 c2] [w|x]] eqn:E2; [|done].
  apply prctl_run in E2 as (-> & n2 & E2 & H2). apply prctl_law in E2 as (R2 & G2 & F2); [|done].
  intros [= <- <-]. split; [done|]. split; [congruence|]. split; congruence.
Qed.

(** What the emulator sees of an interrupted thread. *)
Lemma view_deliver c r : r <> FS -> r <> GS -> rget (view (deliver c) (from_cpu c)) r = rget (c_regs c) r.
Proof using TL. intros H1 H2. unfold view. rewrite rget_tabulate. destruct r; try done; by apply deliver_law. Qed.

(** What the thread gets back. *)
Lemma resume_regs m f x c r :
  rget (c_regs (rt_sigreturn (ucontext_of f m) (to_cpu (extra_of f x) c))) r =
  match r with FS => x_fs x | GS => x_gs x | _ => rget f r end.
Proof using TL.
  rewrite rt_sigreturn_law. unfold to_cpu, extra_of, ucontext_of. cbn [c_regs]. rewrite !rget_upd, rget_tabulate.
  by destruct r.
Qed.
(** ** Properties *)

(** A signal interrupts the guest and is handled; the guest goes on with exactly
    the registers the handlers of [Emu] computed from those it was interrupted
    with.  Two registers are the exception: FS and GS are read from a frame the
    kernel does not keep them in, what is assigned to them is lost, and the guest
    has the selectors it had.  Interrupted host code gets all four selectors the
    frame lacks back unchanged.  While the handler runs, thread-local storage is where
    [enter_emu] saved it, whatever the guest loaded. *)
Theorem signal_resumes host_kill handle_msg ev e t c e' t' c' :
  static_handler host_kill handle_msg ev (e, (t, c)) = ((e', (t', c')), Ok ()) ->
  let e0 := set_view (view (deliver c) (from_cpu c)) e in
  (forall r, r <> FS -> r <> GS -> gr (e_guest e0) r = rget (c_regs c) r) /\
  handler host_kill handle_msg ev e0 = (e', Ok ()) /\ t' = t /\
  (exists c0, restore (t, c) = ((t, c0), Ok ()) /\ c_fs_base c0 = fsbase t /\ c_gs_base c0 = gsbase t) /\
  exists e1, body host_kill handle_msg ev e0 = (e1, Ok ()) /\
    forall r, rget (c_regs c') r =
      if (if in_guest e1 then match r with FS | GS => true | _ => false end else unframed r) : bool
      then rget (c_regs c) r else gr (e_guest e') r.
Proof using TL.
  unfold static_handler, on_signal. destruct (restore (t, c)) as [[t0 c0] [[]|x]] eqn:Er; [|done].
  destruct (restore_run _ _ _ _ Er) as (-> & Hc0 & Hf0 & Hg0).
  destruct (body _ _ _ _) as [e1 [[]|x]] eqn:Eb; [|done].
  destruct (signal_tail now dump e1) as [e2 [[]|x]] eqn:Et; [|done]. intros [= <- <- <-].
  split; [intros r H1 H2; by apply view_deliver|].
  split; [rewrite handler_tail; unfold mbind, M_bind; by rewrite Eb|]. split; [done|].
  split; [exists c0; by rewrite Hf0, Hg0|]. exists e1. split; [done|]. intros r. destruct (in_guest e1) eqn:Ei.
  - rewrite resume_regs. by destruct r.
  - rewrite rt_sigreturn_law, Hc0. unfold ucontext_of. rewrite rget_tabulate. by destruct r.
Qed.

(** The first entry: the guest starts with the registers [setup_startup_context]
    chose, but with EBP 0 and with the host's FS and GS. *)
Theorem enter_guest_regs startup e t c e' t' c' :
  enter_guest startup (e, (t, c)) = ((e', (t', c')), Ok ()) ->
  forall r, r <> EFLAGS ->
    rget (c_regs c') r =
      match r with EBP => 0 | FS | GS => rget (c_regs c) r | _ => gr startup r end.
Proof using TL.
  unfold enter_guest. intros [= <- <- <-] r Hr. rewrite resume_regs. unfold static_handler_user, clear_64bit_state.
  destruct r; try done; unfold set_regs, gr; cbn [g_regs]; by rewrite ?rget_tabulate.
Qed.
End Handlers.
End Thread.

(** A thread whose frames leave the four registers 0. *)
#[local] Instance demo_thread : Thread := {|
  load_base sel old := sel;
  arch_prctl q c := match q with
    | ARCH_GET_FS => (c, (0, c_fs_base c)) | ARCH_GET_GS => (c, (0, c_gs_base c))
    | ARCH_SET_FS v => (mkCpu (c_regs c) v (c_gs_base c), (0, 0))
    | ARCH_SET_GS v => (mkCpu (c_regs c) (c_fs_base c) v, (0, 0))
    end;
  deliver c := tabulate (fun r => if unframed r then 0 else rget (c_regs c) r);
  rt_sigreturn f c := mkCpu (tabulate (fun r => if unframed r then rget (c_regs c) r else rget f r))
                        (c_fs_base c) (c_gs_base c)
|}.

#[local] Instance demo_thread_laws : ThreadLaws.
Proof.
  constructor.
  - intros c r Hr. simpl. by rewrite rget_tabulate, Hr.
  - intros f c r. simpl. by rewrite rget_tabulate.
  - intros q c c' n w. destruct q; simpl; by intros [= <- <- <-].
Qed.

(** The guest of [Emu] gets signal 2. *)
Definition demo_cpu : Cpu := mkCpu (g_regs demo_guest) 11 12.

Lemma signal_resumes_witness :
  exists e' c', static_handler (7, 0) (fun _ => Ok ()) (fun _ _ => 0) (fun _ => mret ()) (Signal 2) (demo_emu, (mkTls 5 6, demo_cpu)) =
                  ((e', (mkTls 5 6, c')), Ok ()) /\
    rget (c_regs c') EIP = gr (e_guest e') EIP /\ rget (c_regs c') FS = gr demo_guest FS.
Proof.
  destruct (static_handler (7, 0) (fun _ => Ok ()) (fun _ _ => 0) (fun _ => mret ()) (Signal 2) (demo_emu, (mkTls 5 6, demo_cpu)))
    as [[e' [t' c']] r] eqn:E.
  assert (Hr : r = Ok ()) by (apply (f_equal snd) in E; vm_compute in E; congruence). subst r.
  destruct (signal_resumes (7, 0) (fun _ => Ok ()) (fun _ _ => 0) (fun _ => mret ()) (Signal 2) demo_emu (mkTls 5 6) demo_cpu e' t' c' E)
    as (_ & _ & -> & _ & e1 & Hb & Hc).
  exists e', c'. split; [reflexivity|].
  assert (Hg : in_guest e1 = true) by (apply (f_equal fst) in Hb; cbn [fst] in Hb; rewrite <- Hb; vm_compute; reflexivity).
  rewrite Hg in Hc. split; [exact (Hc EIP)|exact (Hc FS)].
Defined.
