(* ===== verification/Boot.v ===== *)
(** * Boot: from nothing to the guest's first instruction

    [Process::create], the whole of [main] behind it, and [Emu::enter_emu]: the
    state [qine] is in before any option is read, and the state of the emulator
    when the guest starts.  Every byte of the startup registers is 0xCC until it
    is set; members no constructor initialises are parameters. *)

From S2P Require Import Prelude Types Memory IdMap CmdOpts PathMapper PidMap FdMap Segment AddressSpace Sigset GuestContext Emu Host MsgHandler Loader Process Main.

(** ** [Process::create] *)

(** [memset] of the startup context. *)
Definition startup_regs_new : Regs := tabulate (fun r => wrapu (width r) 0xCCCCCCCC).

Section Boot.
Context (mmap : Z -> Z -> Z -> Z -> option Z) (modify_ldt : user_desc -> bool).
Context (mprotect : Z -> Z -> Z -> bool) (sigaltstack : Z -> Z -> bool).
Context (getcwd : cstring) (open_file : cstring -> option (list Z)) (realpath : cstring -> option cstring).
Context (garbage : Z) (isatty : Z -> bool) (main_exe : outcome cstring).
Context (sigaction : Z -> SigHandler -> Z).

(** The host's memory, its environment, its ids and its open descriptors. *)
Record Machine := mkMachine {
  m_memory : Mem;
  m_environ : list cstring;
  m_ids : host_ids;
  m_entries : list Z;
  m_scan_fd : Z
}.

(** The constructor: [m_my_pid], [m_parent_pid] and the magic pointers are not
    initialised; [p_alloc], [p_data] and the time segment do not exist yet. *)
Definition Process_new (m : Machine) : Process :=
  mkProcess (mkGuest startup_regs_new false (m_memory m)) Space_new LoadInfo_new LoadInfo_new 0 B32
    InterpreterInfo_new PathInfo_new PathMapper_new PidMap_new 0 0 None None (mkFarPointer 0 0) 0 0
    (StartupSbrk 0) 0.

Definition Boot_new (m : Machine) : Boot :=
  mkBoot 0 (Process_new m) FdMap_new (m_environ m) [] [] false [].

Definition on_boot_fds {A} (op : M FdMap A) : M Boot A := fun b =>
  let '(fds, r) := op (b_fds b) in (set_terminal fds (b_environ b) b, r).

(** [Process::initialize_pids], and the two pids it remembers. *)
Definition process_pids (h : host_ids) : M Process unit :=
  p ← get;
  let '(m, r) := initialize_pids h (p_pids p) in
  _ ← put (Process.set_pids m (p_my_pid p) (p_parent_pid p) p);
  ids ← lift r;
  match ids with
  | (Some parent, Some my) => Prelude.modify (fun p => Process.set_pids (p_pids p) my parent p)
  | _ => throw (Undefined "null pointer")
  end.

Definition initialize (m : Machine) : M Boot unit :=
  _ ← on_boot_fds (scan_host_fds (m_entries m) (m_scan_fd m) Process.nid 1 1);
  _ ← on_process (Process.on_space (Emu.init mmap sigaltstack));
  on_process (process_pids (m_ids m)).

(** [main] up to [enter_emu]. *)
Definition start_up (m : Machine) (cl : CommandLine) : M Boot unit :=
  _ ← initialize m;
  main mmap modify_ldt mprotect getcwd open_file realpath garbage isatty main_exe cl.

(** ** Entering the guest *)

Section Enter.
Context {K : Type}.

(** The emulator's view of the process; [m_sigpend] is not initialised. *)
Definition emulator (uninit_sigpend : Z) (b : Boot) (k : K) : EmuState (World K) :=
  let p := b_process b in
  mkEmu (p_guest p) (p_space p) (u32 uninit_sigpend) 0 ∅ None (p_bits p) (cs (p_load_exec p))
    (p_pids p) (p_my_pid p) (p_time_segment p) []
    (mkWorld (b_fds b) (p_paths p) (p_parent_pid p) (p_magic p) (p_time_selector p)
       (p_executed_file p) (b_self_call b) k).

(** The raised signal runs [static_handler_user] with the host's registers
    [host]; returning from it starts the guest. *)
Definition launch (current : gset Z) (host : Regs) (e : EmuState (World K)) : EmuState (World K) * outcome unit :=
  let '(e', r) := enter_emu sigaction current e in
  match r with
  | Throw x => (e', Throw x)
  | Ok _ =>
      let g := e_guest e' in
      (Emu.set_guest (static_handler_user g (mkGuest host (g_b16 g) (g_mem g))) e', Ok ())
  end.

(** The program: the emulator the guest starts under, or why it does not start. *)
Definition program (m : Machine) (cl : CommandLine)
    (uninit_sigpend : Z) (current : gset Z) (host : Regs) (k : K)
  : Boot * outcome (EmuState (World K)) :=
  let '(b, r) := start_up m cl (Boot_new m) in
  match r with
  | Throw x => (b, Throw x)
  | Ok _ =>
      let '(e, r) := launch current host (emulator uninit_sigpend b k) in
      (b, _ ← r; Ok e)
  end.
End Enter.
End Boot.
