(* ===== verification/Descriptors.v ===== *)
(** * Descriptors: every open descriptor lives on its own number

    [FdMap::get_host_fd] hands the guest's number to the host unchanged.  It may:
    whatever the messages do to the table - attaching, opening, closing, duplicating,
    making pipes -, an open [QnxFd] in slot [i] has the host descriptor [i].  The
    calls to the host are assumed to do what their manual pages say. *)

From S2P Require Import Prelude Types IdMap TerminalFilter FdMap Host MsgHandler ProcHandler IoHandler.

(** What keeps the relations of [Sandbox]. *)
Create HintDb keeps.

(** Documented behaviour of [dup], [pipe] and [fcntl(F_SETFD)] on the open files. *)
Class DescriptorLaws (K : Type) {FK : FdKernel K} {HK : HostKernel K} := {
  descriptor_fd_laws :: FdKernelLaws K;
  dup_law : forall old k k' r, k_dup old k = (k', r) ->
    r < 0 \/ (k_file k r = None /\ k_file k' r = k_file k old /\ forall fd, fd <> r -> k_file k' fd = k_file k fd);
  cloexec_open : forall fd k k' r, k_set_cloexec fd k = (k', r) -> is_Some (k_file k fd) -> 0 <= r;
  pipe_law : forall k k' r p0 p1, sys SPipe k = (k', (r, (p0, p1))) -> 0 <= r ->
    0 <= p0 /\ 0 <= p1 /\ p0 <> p1 /\ is_Some (k_file k' p0) /\ is_Some (k_file k' p1)
}.

(** ** The table *)

Definition on_number (f : QnxFd) : Prop := m_open f = true -> m_host_fd f = m_fd f.

Definition tidy (m : FdMap) : Prop :=
  IdMap.wf m /\ Z.of_nat (m_max m) <= 2 ^ 16 /\
  forall i f, at_ m i = Some f -> m_fd f = Z.of_nat i /\ on_number f.

Lemma tidy_new : tidy FdMap_new.
Proof. split; [apply wf_new|]. split; [simpl; lia|]. intros i f. by rewrite at_ge by (simpl; lia). Qed.

(** What the code relies on: the host descriptor behind an open descriptor is the
    one [get_host_fd] names. *)
Lemma tidy_open m fd f :
  tidy m -> 0 <= fd -> get_open_fd m fd = Ok f -> m_host_fd f = get_host_fd m fd.
Proof.
  intros (_ & _ & H) Hfd. unfold get_open_fd, get_attached_fd, get_host_fd.
  destruct (at_ m (Z.to_nat fd)) as [g|] eqn:E; [|done]. cbn. unfold check_open, check.
  destruct (m_open g) eqn:Eo; [|done]. cbn. intros [= <-]. destruct (H _ _ E) as [Hn Ho].
  rewrite Ho by done. lia.
Qed.

Lemma update_at fd g m i :
  at_ (update_fd fd g m) i = if decide (i = Z.to_nat fd) then g <$> at_ m i else at_ m i.
Proof.
  unfold update_fd, at_. simpl. rewrite list_lookup_alter. case_decide as H; case_decide as H'; subst; try done.
  by destruct (m_data m !! _).
Qed.

Lemma wf_update_fd fd g m : IdMap.wf m -> IdMap.wf (update_fd fd g m).
Proof. unfold IdMap.wf, update_fd. simpl. by rewrite length_alter. Qed.

(** A change of the object in slot [fd] that leaves it in order. *)
Definition steady (fd : Z) (g : QnxFd -> QnxFd) : Prop :=
  forall f, m_fd f = Z.of_nat (Z.to_nat fd) -> on_number f -> m_fd (g f) = m_fd f /\ on_number (g f).

Lemma tidy_update fd g m : steady fd g -> tidy m -> tidy (update_fd fd g m).
Proof.
  intros Hg (H1 & H2 & H3). split; [by apply wf_update_fd|]. split; [done|]. intros i f. rewrite update_at.
  case_decide as Hi; [|apply H3]. subst i. destruct (at_ m _) as [f0|] eqn:E; [|done]. intros [= <-].
  destruct (H3 _ _ E) as [Hn Ho]. destruct (Hg f0 Hn Ho) as [Hn' Ho']. split; [congruence|done].
Qed.

Lemma steady_path fd p : steady fd (set_fd_path p).
Proof. by intros f. Qed.
Lemma steady_filter fd fl : steady fd (set_filter fl).
Proof. by intros f. Qed.
Lemma steady_flags fd fl : steady fd (set_fd_flags fl).
Proof. by intros f. Qed.
Lemma steady_host_fd fd : 0 <= fd -> steady fd (set_host_fd fd).
Proof. intros Hfd f Hn Ho. split; [done|]. intros _. simpl. lia. Qed.
Lemma steady_opened fd f0 : m_fd f0 = Z.of_nat (Z.to_nat fd) -> steady fd (opened (m_fd f0)).
Proof. intros H f Hn Ho. split; [done|]. intros _. simpl. congruence. Qed.

(** ** Attaching and detaching *)

Lemma tidy_emplace m i n p v fl m' r :
  tidy m -> (i < m_max m)%nat ->
  emplace i (fun fd => Ok (QnxFd_new (u16 (Z.of_nat fd)) n p v fl)) m = (m', r) -> tidy m'.
Proof.
  intros (H1 & H2 & H3) Hi Hrun.
  destruct (emplace_spec m i (fun fd => Ok (QnxFd_new (u16 (Z.of_nat fd)) n p v fl)) H1 Hi) as (m1 & E & Hw & Hm & Ha).
  rewrite E in Hrun. injection Hrun as <- _. split; [done|]. split; [by rewrite Hm|]. intros j f.
  rewrite <- abs_lookup, Ha, lookup_insert. case_decide as Hj.
  - subst j. intros [= <-]. split; [|done]. simpl. apply wrapu_small. lia.
  - rewrite abs_lookup. apply H3.
Qed.

Lemma tidy_attach m fd n p v fl m' r : tidy m -> qnx_fd_attach fd n p v fl m = (m', r) -> tidy m'.
Proof.
  intros Hm. unfold qnx_fd_attach, alloc_starting_at. destruct (_ <=? _)%nat; [by intros [= <- _]|].
  destruct (search m _ _) as [k|] eqn:Es; [|by intros [= <- _]].
  destruct (emplace _ _ m) as [m1 x] eqn:Ee. intros [= <- _]. eapply tidy_emplace; [done| |exact Ee].
  apply search_Some in Es as (_ & _ & _ & Hk). specialize (Hk eq_refl). destruct Hm as [Hw _]. unfold IdMap.wf in Hw.
  destruct Hk; lia.
Qed.

Lemma tidy_exactly m i n p v fl m' r :
  tidy m -> alloc_exactly_at i (fun fd => Ok (QnxFd_new (u16 (Z.of_nat fd)) n p v fl)) m = (m', r) ->
  tidy m' /\ forall f, r = Ok f -> m_fd f = Z.of_nat i.
Proof.
  intros Hm. unfold alloc_exactly_at. destruct (Nat.leb_spec (m_max m) i) as [|Hi]; [by intros [= <- <-]|].
  destruct (at_ m i); [by intros [= <- <-]|]. intros Hrun. split; [by eapply tidy_emplace|].
  intros f ->. destruct Hm as (H1 & H2 & _).
  destruct (emplace_spec m i (fun fd => Ok (QnxFd_new (u16 (Z.of_nat fd)) n p v fl)) H1 Hi) as (m1 & E & _).
  rewrite E in Hrun. injection Hrun as _ <-. simpl. apply wrapu_small. lia.
Qed.

Lemma tidy_detach m fd : tidy m -> tidy (fst (qnx_fd_detach fd m)).
Proof.
  intros (H1 & H2 & H3). unfold qnx_fd_detach. simpl. split; [by apply free_wf|]. split; [by rewrite free_max|].
  intros i f. rewrite free_at. case_decide; [done|apply H3].
Qed.

(** The descriptors the emulator inherits. *)
Lemma tidy_scan entries scan_fd n q v : forall m m' r,
  tidy m -> scan_host_fds entries scan_fd n q v m = (m', r) -> tidy m'.
Proof.
  induction entries as [|fd l IH]; intros m m' r Hm; cbn [scan_host_fds]; [by intros [= <- _]|].
  destruct (fd =? scan_fd); [by apply IH|]. unfold mbind, M_bind, modify.
  destruct (alloc_exactly_at _ _ m) as [m1 [f|e]] eqn:E; apply tidy_exactly in E as [Hm1 Hf]; try done; [|by intros [= <- _]].
  apply IH, tidy_update; [|done]. by apply steady_opened, Hf.
Qed.

(** ** The methods of [QnxFd] *)

Section Methods.
Context {K : Type} {FK : FdKernel K}.

(** A method that leaves the object it works on in order. *)
Definition orderly {A} (op : M (QnxFd * K) A) : Prop :=
  forall f k f' k' r, op (f, k) = ((f', k'), r) -> on_number f -> m_fd f' = m_fd f /\ on_number f'.

Lemma orderly_close : orderly close.
Proof.
  intros f k f' k' r. unfold close. destruct (m_open f); simpl; [|by intros [= <- _ _]].
  destruct (if m_host_dir f then _ else _) as [k1 x]. by intros [= <- _ _].
Qed.

Lemma orderly_prepare_dir : orderly prepare_dir.
Proof.
  intros f k f' k' r. unfold prepare_dir. destruct (m_host_dir f); [by intros [= <- _ _]|].
  destruct (k_fdopendir _ k) as [k1 []]; by intros [= <- _ _].
Qed.

Context {L : FdKernelLaws K}.

Lemma orderly_assign_fd tmp : orderly (assign_fd tmp).
Proof using L.
  intros f k f' k' r. unfold assign_fd. destruct (m_open f); [by intros [= <- _ _]|].
  destruct (if negb (tmp =? m_fd f) then _ else _) as [k1 final] eqn:Ed.
  destruct (negb (tmp =? m_fd f) && negb (valid final)) eqn:Ev; [by intros [= <- _ _]|].
  assert (Hf : final = m_fd f).
  { destruct (Z.eqb_spec tmp (m_fd f)) as [Ht|]; simpl in Ed, Ev; [by injection Ed as _ <-|].
    apply negb_false_iff in Ev. by destruct (dup2_ok _ _ _ _ _ Ed Ev). }
  destruct (cloexec _) as [[f1 k2] x] eqn:Ec. apply cloexec_inv in Ec as [Hf1 _]. simpl in Hf1. subst f1.
  intros [= <- _ _] _. split; [done|]. by intros _.
Qed.
End Methods.

#[export] Hint Resolve steady_path steady_filter steady_flags orderly_close orderly_prepare_dir : keeps.

(** ** Two descriptors at once *)

Section Pair.
Context {K : Type} {FK : FdKernel K} {HK : HostKernel K} {L : DescriptorLaws K}.

(** The body of [assign_loop]. *)
Definition assign_round (i : nat) (fd : QnxFd) : M (Assign K) bool :=
  st ← get;
  if m_fd fd =? host_fds st !!! i then
    _ ← modify (fun st => mkAssign (host_fds st) (delete (m_host_fd fd) (fd_to_index st)) (a_k st)); mret true
  else
    ok ← realloc_fd (m_fd fd);
    if negb ok then mret false
    else
      st ← get;
      let '(k, new_fd) := k_dup2 (host_fds st !!! i) (m_fd fd) (a_k st) in
      _ ← put (mkAssign (host_fds st) (fd_to_index st) k);
      if negb (valid new_fd) then mret false else _ ← host_fd_moved i new_fd; mret true.

Lemma assign_loop_round i fd to st :
  assign_loop i (fd :: to) st =
  (ok ← assign_round i fd; if ok : bool then assign_loop (S i) to else mret false) st.
Proof.
  cbn [assign_loop]. unfold assign_round, get, modify, put, mbind, M_bind.
  destruct (m_fd fd =? _); [done|]. destruct (realloc_fd _ _) as [st1 [[]|e]]; try done. cbn [negb].
  destruct (k_dup2 _ _ _) as [k new]. destruct (valid new); [|done]. cbn [negb].
  by destruct (host_fd_moved _ _ _) as [st2 [[]|e]].
Qed.

Lemma host_fd_moved_inv index to (st st' : Assign K) :
  host_fd_moved index to st = (st', Ok ()) ->
  exists from, host_fds st !! index = Some from /\ host_fds st' = <[index := to]> (host_fds st) /\
    fd_to_index st' = <[-1 := index]> (delete from (fd_to_index st)) /\
    a_k st' = snd (unique_assign from to (a_k st)).
Proof.
  unfold host_fd_moved. destruct (host_fds st !! index) as [from|]; [|done].
  assert (Hv : fst (unique_assign from to (a_k st)) = to) by (unfold unique_assign; by destruct (unique_close from (a_k st))).
  destruct (unique_assign from to (a_k st)) as [v k] eqn:E. simpl in Hv. subst v. intros [= <-].
  exists from. by rewrite E.
Qed.

(** A number still in the index is not one that was replaced in the array. *)
Definition indexed (st st' : Assign K) : Prop :=
  forall x, is_Some (fd_to_index st' !! x) -> x = -1 \/
    (is_Some (fd_to_index st !! x) /\ forall j, host_fds st' !!! j <> host_fds st !!! j -> x <> host_fds st !!! j).

Lemma moved_indexed index to (st st' : Assign K) :
  host_fd_moved index to st = (st', Ok ()) -> indexed st st'.
Proof.
  intros H. apply host_fd_moved_inv in H as (from & Hf & Hh & Hi & _). intros x. rewrite Hi, Hh, lookup_insert.
  case_decide as Hx; [by left|]. rewrite lookup_delete. case_decide as Hd; [by intros [? ?]|]. intros Hs.
  right. split; [done|]. intros j Hj. destruct (decide (j = index)) as [-> |Hne].
  - rewrite (list_lookup_total_correct _ _ _ Hf). congruence.
  - by rewrite list_lookup_total_insert_ne in Hj by congruence.
Qed.

Lemma indexed_trans st1 st2 st3 : indexed st1 st2 -> indexed st2 st3 -> indexed st1 st3.
Proof.
  intros H12 H23 x Hx. destruct (H23 x Hx) as [|[H2 H2']]; [by left|].
  destruct (H12 x H2) as [|[H1 H1']]; [by left|]. right. split; [done|]. intros j Hj.
  destruct (decide (host_fds st2 !!! j = host_fds st1 !!! j)) as [He|Hne]; [|by apply H1'].
  rewrite <- He. apply H2'. congruence.
Qed.

(** One round: the target is in its place; another entry changes only when it is
    mistaken for the target's. *)
Lemma assign_round_inv i fd (st st' : Assign K) :
  (i < length (host_fds st))%nat -> assign_round i fd st = (st', Ok true) ->
  length (host_fds st') = length (host_fds st) /\ host_fds st' !!! i = m_fd fd /\ indexed st st' /\
  (m_fd fd = host_fds st !!! i -> host_fds st' = host_fds st /\ a_k st' = a_k st) /\
  (forall j, j <> i -> host_fds st' !!! j <> host_fds st !!! j ->
     j = Z.to_nat (m_fd fd) /\ m_fd fd <> host_fds st !!! i /\ is_Some (fd_to_index st !! m_fd fd)).
Proof using L.
  intros Hi. unfold assign_round, get, modify, put, mbind, M_bind, mret, M_ret.
  destruct (Z.eqb_spec (m_fd fd) (host_fds st !!! i)) as [He|Hne].
  { intros [= <-]. simpl. split; [done|]. split; [done|]. split; [|done]. intros x. simpl.
    rewrite lookup_delete. case_decide; [by intros [? ?]|]. intros Hx. by right. }
  destruct (realloc_fd _ st) as [st1 [ok|e]] eqn:Er; [|done]. destruct ok; [|done]. cbn [negb].
  assert (H1 : length (host_fds st1) = length (host_fds st) /\ indexed st st1 /\
    forall j, host_fds st1 !!! j <> host_fds st !!! j ->
      j = Z.to_nat (m_fd fd) /\ is_Some (fd_to_index st !! m_fd fd)).
  { revert Er. unfold realloc_fd. destruct (fd_to_index st !! m_fd fd) as [x|] eqn:Ex.
    2: { intros [= <-]. split; [done|]. split; [|done]. intros x Hx. by right. }
    destruct (k_dup _ _) as [k new]. destruct (valid new); [|done]. cbn [negb]. unfold mbind, M_bind.
    destruct (host_fd_moved _ _ _) as [st2 [[]|e]] eqn:Em; [|done]. intros [= <-].
    pose proof (moved_indexed _ _ _ _ Em) as Hx. apply host_fd_moved_inv in Em as (from & Hf & Hh & _).
    rewrite Hh. simpl. rewrite length_insert. split; [done|]. split; [exact Hx|].
    intros j Hj. split; [|done]. destruct (decide (j = Z.to_nat (m_fd fd))) as [|Hd]; [done|].
    by rewrite list_lookup_total_insert_ne in Hj by congruence. }
  destruct H1 as (Hl & Hx & Hj). destruct (k_dup2 _ _ (a_k st1)) as [k new] eqn:Ed.
  destruct (valid new) eqn:Ev; [|done]. cbn [negb]. destruct (dup2_ok _ _ _ _ _ Ed Ev) as [-> _].
  destruct (host_fd_moved _ _ _) as [st2 [[]|e]] eqn:Em; [|done]. intros [= <-].
  pose proof (moved_indexed _ _ _ _ Em) as Hx2. apply host_fd_moved_inv in Em as (from & Hf & Hh & _).
  rewrite Hh. simpl in *. rewrite length_insert. split; [done|]. split; [by rewrite list_lookup_total_insert_eq by lia|].
  split; [exact (indexed_trans _ _ _ Hx Hx2)|]. split; [done|]. intros j Hji Hjc.
  rewrite list_lookup_total_insert_ne in Hjc by congruence. destruct (Hj j Hjc). done.
Qed.

(** The array's first entry taken for the target's: its file stays open. *)
Lemma assign_round_clash fd p1 (st st' : Assign K) :
  host_fds st = [0; p1] -> p1 <> 0 -> m_fd fd = 0 ->
  is_Some (k_file (a_k st) 0) -> is_Some (k_file (a_k st) p1) ->
  assign_round 1 fd st = (st', Ok true) -> is_Some (k_file (a_k st') (host_fds st' !!! 0%nat)).
Proof using L.
  intros Hh Hp Hfd H0 H1. unfold assign_round, get, modify, put, mbind, M_bind, mret, M_ret.
  rewrite Hh, Hfd. simpl (_ !!! 1%nat). destruct (Z.eqb_spec 0 p1); [congruence|].
  destruct (realloc_fd 0 st) as [st1 [ok|e]] eqn:Er; [|done]. destruct ok; [|done]. cbn [negb].
  assert (Hst1 : exists p0, host_fds st1 = [p0; p1] /\ p0 <> p1 /\ is_Some (k_file (a_k st1) p0) /\
    is_Some (k_file (a_k st1) p1)).
  { revert Er. unfold realloc_fd. destruct (fd_to_index st !! 0) as [x|]; [|intros [= <-]; rewrite Hh; eauto 10].
    destruct (k_dup 0 (a_k st)) as [k new] eqn:Ed. destruct (valid new) eqn:Ev; [|done]. cbn [negb].
    unfold valid in Ev. to_prop. destruct (dup_law _ _ _ _ Ed) as [|(Hn & Hf & Ho)]; [lia|].
    unfold mbind, M_bind. destruct (host_fd_moved _ _ _) as [st2 [[]|e]] eqn:Em; [|done]. intros [= <-].
    apply host_fd_moved_inv in Em as (from & Hfr & Hh2 & _ & Hk). simpl in Hfr, Hh2, Hk. rewrite Hh in Hfr, Hh2.
    injection Hfr as <-. simpl in Hh2. exists new. rewrite Hh2, Hk. simpl.
    assert (p1 <> new) by (intros ->; rewrite Hn in H1; by destruct H1).
    split; [done|]. split; [congruence|]. by rewrite Hf, Ho. }
  destruct Hst1 as (p0 & Hh1 & Hpp & Hf0 & Hf1). rewrite Hh1. simpl (_ !!! 1%nat).
  destruct (k_dup2 p1 0 (a_k st1)) as [k new] eqn:Ed. destruct (valid new) eqn:Ev; [|done]. cbn [negb].
  destruct (dup2_ok _ _ _ _ _ Ed Ev) as [-> Hfile].
  destruct (host_fd_moved _ _ _) as [st2 [[]|e]] eqn:Em; [|done]. intros [= <-].
  apply host_fd_moved_inv in Em as (from & Hfr & Hh2 & _ & Hk). simpl in Hfr, Hh2, Hk.
  injection Hfr as <-. rewrite Hh2, Hk. simpl. unfold unique_assign, unique_close.
  assert (Hopen : is_Some (k_file k p0)) by (rewrite Hfile; by case_decide).
  destruct (0 <? p1); [|exact Hopen]. destruct (k_close p1 k) as [k2 r] eqn:Ec. simpl.
  by rewrite (close_law _ _ _ _ Ec) by done.
Qed.

(** Both descriptors of a pipe: the second is in its place; so is the first, or
    both are the same object and the first's file is open. *)
Lemma assign_pair_inv a b p0 p1 k (st : Assign K) :
  0 <= m_fd a -> 0 <= m_fd b -> 0 <= p0 -> p0 <> p1 -> (m_fd a = m_fd b -> a = b) ->
  is_Some (k_file k p0) -> is_Some (k_file k p1) ->
  assign_loop 0 [a; b] (mkAssign [p0; p1] (index_fds 0 [p0; p1]) k) = (st, Ok true) ->
  length (host_fds st) = 2%nat /\ host_fds st !!! 1%nat = m_fd b /\
  (host_fds st !!! 0%nat = m_fd a \/ (a = b /\ is_Some (k_file (a_k st) (host_fds st !!! 0%nat)))).
Proof using L.
  intros Ha Hb Hp0 Hp Hab H0 H1. rewrite assign_loop_round. unfold mbind, M_bind.
  destruct (assign_round 0 a _) as [st1 [[]|e]] eqn:E0; [| |done].
  2: { unfold mret, M_ret. done. }
  rewrite assign_loop_round. unfold mbind, M_bind. destruct (assign_round 1 b st1) as [st2 [[]|e]] eqn:E1; [| |done].
  2: { unfold mret, M_ret. done. }
  cbn [assign_loop]. intros [= <-].
  apply assign_round_inv in E0 as (L1 & A1 & X1 & S1 & C1); [|simpl; lia]. simpl in L1.
  pose proof E1 as E1'. apply assign_round_inv in E1 as (L2 & A2 & _ & _ & C2); [|lia].
  split; [congruence|]. split; [exact A2|].
  destruct (decide (host_fds st2 !!! 0%nat = host_fds st1 !!! 0%nat)) as [Hs|Hs]; [left; congruence|right].
  destruct (C2 0%nat ltac:(done) Hs) as (Hz & Hne & Hin). assert (Hb0 : m_fd b = 0) by lia. rewrite Hb0 in *.
  destruct (X1 0 Hin) as [|[Hidx Hold]]; [done|]. apply index_fds_dom in Hidx.
  simpl in Hold. assert (Hp1 : p1 <> 0).
  { intros ->. destruct (decide (host_fds st1 !!! 1%nat = 0)) as [|Hd]; [congruence|]. by destruct (Hold 1%nat Hd). }
  assert (Hz0 : p0 = 0) by (apply elem_of_cons in Hidx as [|Hidx]; [done|apply list_elem_of_singleton in Hidx; congruence]).
  subst p0. assert (Ha0 : m_fd a = 0).
  { destruct (decide (host_fds st1 !!! 0%nat = 0)) as [|Hd]; [congruence|]. by destruct (Hold 0%nat Hd). }
  destruct (S1 Ha0) as [Hh Hk]. split; [apply Hab; congruence|].
  apply (assign_round_clash b p1 st1 st2); rewrite ?Hh, ?Hk; done.
Qed.

Lemma steady_released s f : m_fd f = Z.of_nat (Z.to_nat s) -> steady s (fun _ => opened (m_fd f) f).
Proof. intros H f0 Hn _. split; [simpl; congruence|by intros _]. Qed.

Lemma update_twice s s' f f' (m : FdMap) :
  Z.to_nat s = Z.to_nat s' ->
  update_fd s' (fun _ => f') (update_fd s (fun _ => f) m) = update_fd s' (fun _ => f') m.
Proof.
  intros E. unfold update_fd. simpl. f_equal. rewrite E. apply list_eq. intros i. rewrite !list_lookup_alter.
  repeat case_decide; try done. by destruct (m_data m !! Z.to_nat s') as [[]|].
Qed.

#[local] Arguments cloexec : simpl never.

(** Whatever [fsys_pipe] opens, in one slot or in two. *)
Lemma tidy_pair s0 s1 a b p0 p1 k m :
  tidy m -> at_ m (Z.to_nat s0) = Some a -> at_ m (Z.to_nat s1) = Some b ->
  0 <= p0 -> p0 <> p1 -> is_Some (k_file k p0) -> is_Some (k_file k p1) ->
  tidy (foldl (fun m '(s, f) => update_fd s (fun _ => f) m) m (opened_fds [s0; s1] [a; b] [p0; p1] k)).
Proof using L.
  intros Hm Ha Hb Hp0 Hp H0 H1. pose proof Hm as (_ & _ & Hall).
  destruct (Hall _ _ Ha) as [Na Oa], (Hall _ _ Hb) as [Nb Ob].
  assert (Hab : m_fd a = m_fd b -> a = b).
  { intros E. rewrite Na, Nb in E. apply Nat2Z.inj in E. rewrite E in Ha. congruence. }
  unfold opened_fds. destruct (assign_loop _ _ _) as [st [[]|x]] eqn:E; try exact Hm.
  destruct (assign_pair_inv a b p0 p1 k st ltac:(lia) ltac:(lia) Hp0 Hp Hab H0 H1 E) as (Hl & A1 & A0).
  assert (Hst : host_fds st = [host_fds st !!! 0%nat; m_fd b]).
  { destruct (host_fds st) as [|x0 [|x1 [|]]]; try discriminate Hl. simpl in A1 |- *. by rewrite A1. }
  set (h0 := host_fds st !!! 0%nat) in *. unfold zip, release_loop, get, put, lift, mbind, M_bind, mret, M_ret.
  rewrite Hst. simpl (_ !!! 0%nat). destruct (cloexec (opened h0 a, a_k st)) as [[f1 k1] r1] eqn:Ec.
  pose proof Ec as Ec'. apply cloexec_inv in Ec' as (_ & Hk1 & Hr1). simpl in Hk1.
  assert (Hboth : tidy (update_fd s1 (fun _ => opened (m_fd b) b) (update_fd s0 (fun _ => opened h0 a) m))).
  { destruct A0 as [E0 |[-> _]].
    - rewrite E0. apply tidy_update; [by apply steady_released|]. apply tidy_update; [by apply steady_released|done].
    - rewrite update_twice by lia. apply tidy_update; [by apply steady_released|done]. }
  destruct r1 as [[]|x].
  - simpl. destruct (cloexec (opened (m_fd b) b, k1)) as [[f2 k2] [[]|x]];
      rewrite !bool_decide_eq_true_2 by reflexivity; exact Hboth.
  - destruct A0 as [E0 |[-> Hopen]].
    + simpl. destruct (bool_decide _); [exact Hboth|]. rewrite E0.
      apply tidy_update; [by apply steady_released|done].
    + exfalso. revert Ec. unfold cloexec. destruct (is_close_on_exec _); [|by intros].
      destruct (k_set_cloexec _ _) as [k2 y] eqn:Es. apply cloexec_open in Es; [|exact Hopen].
      destruct (Z.ltb_spec y 0); [lia|by intros].
Qed.
End Pair.
