(* ===== verification/Sandbox.v ===== *)
(** * Sandbox: what no message can make the emulator do

    For every message, whatever its bytes and whatever the host answers, the
    handlers keep the invariants of the process and touch no memory but the
    guest's own segments.  Handlers are composed of a few operations; each keeps
    a reflexive and transitive relation between the states before and after, and
    so does their composition. *)

From S2P Require Import Prelude Types Memory IdMap PathMapper PidMap TerminalFilter FdMap Segment AddressSpace Sigset Msg Errno GuestContext Emu Layout QnxMsg Host MsgHandler ProcHandler IoHandler TermHandler MainHandler Descriptors.

(** ** Runs that keep a relation *)

Section Keeps.
Context {S : Type} (R : S -> S -> Prop) `{!PreOrder R}.

Definition keeps {A} (m : M S A) : Prop := forall s s' r, m s = (s', r) -> R s s'.

Lemma keeps_ret {A} (a : A) : keeps (mret a).
Proof using PreOrder0. intros s s' r [= <- _]. done. Qed.

Lemma keeps_throw {A} e : keeps (throw (A := A) e).
Proof using PreOrder0. intros s s' r [= <- _]. done. Qed.

Lemma keeps_get : keeps get.
Proof using PreOrder0. intros s s' r [= <- _]. done. Qed.

Lemma keeps_gets {A} (f : S -> A) : keeps (gets f).
Proof using PreOrder0. intros s s' r [= <- _]. done. Qed.

Lemma keeps_lift {A} (o : outcome A) : keeps (lift o).
Proof using PreOrder0. intros s s' r [= <- _]. done. Qed.

Lemma keeps_bind {A B} (m : M S A) (f : A -> M S B) :
  keeps m -> (forall a, keeps (f a)) -> keeps (m ≫= f).
Proof using PreOrder0.
  intros Hm Hf s s' r. unfold mbind, M_bind. destruct (m s) as [s1 [a|e]] eqn:E.
  - intros Hr. etrans; [by eapply Hm|by eapply Hf].
  - intros [= <- _]. by eapply Hm.
Qed.

(** What is known of every result of the first part. *)
Lemma keeps_bind_post {A B} (P : A -> Prop) (m : M S A) (f : A -> M S B) :
  keeps m -> (forall s s' a, m s = (s', Ok a) -> P a) -> (forall a, P a -> keeps (f a)) ->
  keeps (m ≫= f).
Proof using PreOrder0.
  intros Hm HP Hf s s' r. unfold mbind, M_bind. destruct (m s) as [s1 [a|e]] eqn:E.
  - intros Hr. etrans; [by eapply Hm|]. eapply Hf; [by eapply HP|exact Hr].
  - intros [= <- _]. by eapply Hm.
Qed.

Lemma keeps_lift_bind {A B} (a : A) (f : A -> M S B) : keeps (f a) -> keeps (lift (Ok a) ≫= f).
Proof. done. Qed.

Lemma keeps_try {A} sel (m : M S A) h :
  keeps m -> (forall e, keeps (h e)) -> keeps (try_catch sel m h).
Proof using PreOrder0.
  intros Hm Hh s s' r. unfold try_catch. destruct (m s) as [s1 [a|e]] eqn:E.
  - intros [= <- _]. by eapply Hm.
  - destruct (sel e); [|intros [= <- _]; by eapply Hm].
    intros Hr. etrans; [by eapply Hm|by eapply Hh].
Qed.

Lemma keeps_modify f : (forall s, R s (f s)) -> keeps (Prelude.modify f).
Proof. intros Hf s s' r [= <- _]. apply Hf. Qed.
End Keeps.

(** Take a handler apart down to its operations. *)
Ltac keeps_step :=
  match goal with
  | |- forall _, _ => intro
  | |- keeps _ (mret _) => apply keeps_ret, _
  | |- keeps _ (throw _) => apply keeps_throw, _
  | |- keeps _ get => apply keeps_get, _
  | |- keeps _ (gets _) => apply keeps_gets, _
  | |- keeps _ (lift _) => apply keeps_lift, _
  | |- keeps _ (_ ≫= _) => apply keeps_bind; [apply _| |]
  | |- keeps _ (try_catch _ _ _) => apply keeps_try; [apply _| |]
  | |- keeps _ (let _ := _ in _) => cbv zeta
  | |- keeps _ (match ?x with _ => _ end) => destruct x
  | |- keeps _ _ => solve [auto with keeps]
  end.
Ltac keeps := repeat keeps_step.

(** ** Guest memory *)

(** A host address inside a grown page of a segment of the process. *)
Definition guest_byte (sp : Space) (x : Z) : Prop :=
  exists r s o, segs sp !! r = Some s /\ mapped s o /\ x = m_location s + o.

Definition guest_range (sp : Space) (a n : Z) : Prop := forall k, 0 <= k < n -> guest_byte sp (a + k).

Lemma guest_range_part sp a n k m :
  guest_range sp a n -> 0 <= k -> k + m <= n -> guest_range sp (a + k) m.
Proof. intros H Hk Hm j Hj. replace (a + k + j) with (a + (k + j)) by lia. apply H. lia. Qed.

(** What a translated pointer points to. *)
Lemma translate_guest sp p n op a :
  wf_space sp -> 0 <= Types.m_offset p < 2 ^ 64 -> 0 < n < 2 ^ 64 ->
  translate_segmented sp p n op = Ok a -> guest_range sp a n.
Proof.
  intros (H1 & _ & _ & _ & H5) Ho Hn. unfold translate_segmented.
  destruct (descriptor_by_selector sp (Types.m_segment p)) as [sd|]; [|done].
  destruct (segs sp !! sd_seg sd) as [s|] eqn:Hs; [|done].
  destruct (check_bounds_range s (Types.m_offset p) n (H1 _ _ Hs)) as (b & Hb & Hiff & Hp); [lia|lia|].
  rewrite Hb. cbn. destruct b; simpl; [|done]. destruct Hp as [-> _]. intros [= <-] k Hk.
  exists (sd_seg sd), s, (Types.m_offset p + k). split; [done|]. split; [|lia].
  apply Hiff; [done|lia].
Qed.

(** Memory that differs only inside the guest's segments and [extra]. *)
Definition only_guest (sp : Space) (extra : Z -> Prop) (m m' : Mem) : Prop :=
  forall x, ~ guest_byte sp x -> ~ extra x -> peek m' x = peek m x.

#[export] Instance only_guest_pre sp extra : PreOrder (only_guest sp extra).
Proof.
  split; [by intros m x _ _|]. intros m1 m2 m3 H12 H23 x Hg He. by rewrite H23, H12.
Qed.

Lemma store_guest sp extra a n bs m :
  guest_range sp a n -> Z.of_nat (length bs) <= n -> only_guest sp extra m (store m a bs).
Proof.
  intros Hr Hn x Hg _. rewrite peek_store.
  destruct (Z.leb_spec a x), (Z.ltb_spec x (a + Z.of_nat (length bs))); simpl; try done.
  exfalso. apply Hg. replace x with (a + (x - a)) by lia. apply Hr. lia.
Qed.

(** ** Messages *)

Lemma next_range chunks size it s it' :
  next chunks size it = (s, it') -> FarSlice_is_empty s = false ->
  0 <= Types.m_offset (m_ptr s) < 2 ^ 64 /\ 0 < m_size s < 2 ^ 64.
Proof.
  unfold next, FarSlice_is_empty. destruct (chunks !! m_i (normalize chunks it)) as [c|].
  - set (n := if _ <? _ then _ else _). intros [= <- <-] Hne. simpl in *. to_prop.
    pose proof (wrapu_range 32 (mxfer_off c + it_offset (normalize chunks it))).
    pose proof (wrapu_range 32 n). lia.
  - intros [= <- <-]. done.
Qed.

Lemma write_loop_guest sp extra fuel e : forall src it,
  wf_space sp -> keeps (only_guest sp extra) (write_loop (T := space_translation sp) fuel e src it).
Proof.
  induction fuel as [|fuel IH]; intros src it Hwf; [apply keeps_throw, _|].
  cbn [write_loop]. cbv zeta. destruct (_ =? 0); [apply keeps_ret, _|].
  apply keeps_bind; [apply _|apply keeps_get, _|]. intros mem.
  destruct (next _ _ _) as [s it'] eqn:En. destruct (FarSlice_is_empty s) eqn:Es.
  { apply keeps_ret, _. }
  destruct (next_range _ _ _ _ _ En Es) as [Ho Hn].
  intros m m' r. unfold mbind, M_bind, lift, Prelude.modify.
  destruct (translate _ _ _) as [a|x] eqn:Et; [|by intros [= <- _]].
  intros Hrun. etrans; [|exact (IH _ _ Hwf _ _ _ Hrun)].
  eapply store_guest; [exact (translate_guest _ _ _ _ _ Hwf Ho Hn Et)|]. rewrite length_take. lia.
Qed.

Lemma write_guest sp extra m off src :
  wf_space sp -> keeps (only_guest sp extra) (Msg.write (T := space_translation sp) m off src).
Proof.
  intros Hwf. unfold Msg.write. apply keeps_bind; [apply _|apply keeps_get, _|]. intros mem.
  apply keeps_bind; [apply _|apply keeps_lift, _|]. intros it.
  apply keeps_bind; [apply _|by apply write_loop_guest|]. intros l. apply keeps_ret, _.
Qed.

(** The vectors handed to the host point into the guest or into the garbage. *)
Definition iov_ok (sp : Space) (garbage : Z) (v : iovec) : Prop :=
  guest_range sp (iov_base v) (iov_len v) \/ (iov_base v = garbage /\ iov_len v <= sizeof_garbage).

Lemma iovec_loop_guest sp garbage chunks op fuel : forall size it dst n dst',
  wf_space sp -> Forall (iov_ok sp garbage) dst ->
  iovec_loop (T := space_translation sp) fuel chunks op size it dst = Ok (n, dst') ->
  Forall (iov_ok sp garbage) dst'.
Proof.
  induction fuel as [|fuel IH]; intros size it dst n dst' Hwf Hdst; [done|].
  cbn [iovec_loop]. destruct (size =? 0); [by intros [= _ <-]|].
  destruct (next _ _ _) as [s it'] eqn:En. destruct (FarSlice_is_empty s) eqn:Es.
  { by intros [= _ <-]. }
  destruct (next_range _ _ _ _ _ En Es) as [Ho Hn].
  destruct (translate _ _ _) as [a|x] eqn:Et; [|done]. cbn. intros Hrun.
  eapply IH; [done| |exact Hrun]. apply Forall_app. split; [done|]. apply Forall_singleton. left.
  exact (translate_guest _ _ _ _ _ Hwf Ho Hn Et).
Qed.

Lemma garbage_loop_guest sp garbage fuel : forall size dst dst',
  Forall (iov_ok sp garbage) dst -> garbage_loop fuel garbage size dst = Ok dst' ->
  Forall (iov_ok sp garbage) dst'.
Proof.
  induction fuel as [|fuel IH]; intros size dst dst' Hdst; [done|]. cbn [garbage_loop].
  destruct (size =? 0); [by intros [= <-]|]. intros Hrun. eapply IH; [|exact Hrun].
  apply Forall_app. split; [done|]. apply Forall_singleton. right. simpl. split; [done|lia].
Qed.

Lemma common_iovec_guest sp garbage chunks op off size dst' :
  wf_space sp ->
  common_iovec (T := space_translation sp) garbage chunks op off size [] = Ok dst' ->
  Forall (iov_ok sp garbage) dst'.
Proof.
  intros Hwf. unfold common_iovec.
  destruct (skip_to _ _ _) as [it|]; [|done]. cbn.
  destruct (iovec_loop _ _ _ _ _ _) as [[n dst]|] eqn:Ei; [|done]. cbn. intros Hg.
  eapply garbage_loop_guest; [|exact Hg]. eapply iovec_loop_guest; [done|done|exact Ei].
Qed.

Definition garbage_area (garbage : Z) (x : Z) : Prop := garbage <= x < garbage + sizeof_garbage.

Lemma scatter_guest sp garbage iov : forall data m,
  Forall (iov_ok sp garbage) iov -> only_guest sp (garbage_area garbage) m (scatter iov data m).
Proof.
  induction iov as [|v iov IH]; intros data m H; [done|].
  apply Forall_cons in H as [Hv H]. simpl. etrans; [|by apply IH].
  assert (Hl : Z.of_nat (length (take (Z.to_nat (iov_len v)) data)) <= Z.max 0 (iov_len v))
    by (rewrite length_take; lia).
  destruct Hv as [Hv|[Hb Hv]].
  - destruct (Z.le_gt_cases 0 (iov_len v)); [eapply store_guest; [exact Hv|lia]|].
    destruct (take _ _); [intros x _ _; done|simpl in Hl; lia].
  - intros x _ Hx. rewrite peek_store. rewrite Hb. unfold garbage_area, sizeof_garbage in *.
    destruct (Z.leb_spec garbage x), (Z.ltb_spec x (garbage + Z.of_nat (length (take (Z.to_nat (iov_len v)) data))));
      simpl; try done. lia.
Qed.

(** ** The address space *)

(** The segments stay where they are referred to, with the pages they have. *)
Definition segs_kept (sp sp' : Space) : Prop :=
  forall r s, segs sp !! r = Some s -> exists s', segs sp' !! r = Some s' /\ forall o, mapped s o -> mapped s' o.

#[export] Instance segs_kept_pre : PreOrder segs_kept.
Proof.
  split; [intros sp r s Hs; by exists s|]. intros s1 s2 s3 H12 H23 r s Hs.
  destruct (H12 r s Hs) as (s' & Hs' & Hm), (H23 r s' Hs') as (s'' & Hs'' & Hm'). exists s''. auto.
Qed.

Definition space_grows (sp sp' : Space) : Prop :=
  wf_space sp -> wf_space sp' /\ (forall x, guest_byte sp x -> guest_byte sp' x) /\ segs_kept sp sp'.

#[export] Instance space_grows_pre : PreOrder space_grows.
Proof.
  split; [by intros sp H|]. intros s1 s2 s3 H12 H23 H1. destruct (H12 H1) as (H2 & Hg & Hk).
  destruct (H23 H2) as (H3 & Hg' & Hk'). split; [done|]. split; [auto|by etrans].
Qed.

Definition segment_grows (s s' : Segment) : Prop :=
  Segment.wf s -> Segment.wf s' /\
    forall o, mapped s o -> mapped s' o /\ m_location s' = m_location s.

(** Spaces with the same segments. *)
Lemma grows_same_segs sp sp' :
  segs sp' = segs sp -> (wf_space sp -> wf_space sp') -> space_grows sp sp'.
Proof.
  intros Hs Hwf H. split; [by apply Hwf|]. split.
  - intros x (r & s & o & H1 & H2). exists r, s, o. by rewrite Hs.
  - intros r s Hr. exists s. by rewrite Hs.
Qed.

Lemma space_seg_grows {A} r (op : M Segment A) :
  keeps segment_grows op -> keeps space_grows (space_seg r op).
Proof.
  intros Hop sp sp' o. unfold space_seg. destruct (segs sp !! r) as [s|] eqn:Es.
  2: { by intros [= <- _]. }
  destruct (op s) as [s' o'] eqn:Eo. intros [= <- _] Hsp.
  pose proof Hsp as (H1 & H2 & H3 & H4 & H5). destruct (Hop _ _ _ Eo (H1 _ _ Es)) as [Hw Hm]. split.
  - split; [|split; [|split; [done|split; [done|]]]]; simpl.
    + intros r2 s2. rewrite lookup_insert. case_decide; [by intros [= <-]|apply H1].
    + intros r2. rewrite lookup_insert. case_decide; [subst; intros _; apply H2; by rewrite Es|apply H2].
    + intros j sd Hj. destruct (H5 j sd Hj) as [Hid Hseg]. split; [done|].
      rewrite lookup_insert. case_decide; [done|exact Hseg].
  - split.
    + intros x (r2 & s2 & o2 & Hr & Hmap & ->). destruct (decide (r2 = r)) as [-> |Hne].
      * rewrite Es in Hr. injection Hr as <-. destruct (Hm _ Hmap) as [Hm' Hl].
        exists r, s', o2. simpl. rewrite lookup_insert_eq, Hl. done.
      * exists r2, s2, o2. simpl. by rewrite lookup_insert_ne.
    + intros r2 s2 Hr. simpl. destruct (decide (r2 = r)) as [-> |Hne].
      * exists s'. rewrite lookup_insert_eq. rewrite Es in Hr. injection Hr as <-. split; [done|]. apply Hm.
      * exists s2. by rewrite lookup_insert_ne.
Qed.

Lemma allocate_segment_grows : keeps space_grows allocate_segment.
Proof.
  intros sp sp' r [= <- _] (H1 & H2 & H3 & H4 & H5).
  assert (Hn : segs sp !! next_seg sp = None).
  { destruct (segs sp !! next_seg sp) eqn:E; [|done]. assert (next_seg sp < next_seg sp)%nat; [|lia].
    apply H2. by rewrite E. }
  split.
  - split; [|split; [|split; [done|split; [done|]]]]; simpl.
    + intros r2 s2. rewrite lookup_insert. case_decide; [intros [= <-]; apply wf_segment_new|apply H1].
    + intros r2. rewrite lookup_insert. case_decide; [subst; lia|]. intros Hx. apply H2 in Hx. lia.
    + intros j sd Hj. destruct (H5 j sd Hj) as [Hid Hseg]. split; [done|].
      rewrite lookup_insert. by case_decide.
  - split.
    + intros x (r2 & s2 & o2 & Hr & Hrest). exists r2, s2, o2. simpl.
      rewrite lookup_insert_ne by congruence. done.
    + intros r2 s2 Hr. exists s2. simpl. by rewrite lookup_insert_ne by congruence.
Qed.

Section Space.
Context (mmap : Z -> Z -> Z -> Z -> option Z) (Hmmap : mmap_law mmap).
Context (modify_ldt : user_desc -> bool).

Lemma grow_bytes_grows n : 0 <= n < 2 ^ 44 -> keeps segment_grows (grow_bytes mmap n).
Proof.
  intros Hn s s' r Hrun Hwf. destruct (grow_bytes_inv _ _ _ _ _ Hwf Hn Hrun) as (Hw & Hl & _ & Hm & _).
  split; [done|]. intros o Ho. auto.
Qed.

(** A reservation is made before any page is there. *)
Lemma reserve_grows n : 0 <= n < 2 ^ 43 -> keeps segment_grows (reserve mmap n).
Proof using Hmmap.
  intros Hn s s' r Hrun Hwf.
  destruct (reserve_inv mmap (fun _ _ _ => true) (Reserve n) s s' r) as [Hw _]; eauto.
  split; [apply Hw; intros []|]. intros o Ho. revert Hrun. unfold reserve, get, lift, throw, put, mbind, M_bind.
  destruct (m_reserved s =? 0) eqn:Er; simpl; [|by intros [= <- _]]. to_prop.
  apply (mapped_bound _ _ Hwf) in Ho as Hlt. destruct Ho as [Ho _]. destruct Hwf. lia.
Qed.

Lemma publish_grows ud : keeps space_grows (publish modify_ldt ud).
Proof.
  intros sp sp' r. unfold publish. destruct (modify_ldt ud); intros [= <- _]; [|done].
  by apply grows_same_segs.
Qed.

Lemma update_descriptors_grows sd : keeps space_grows (update_descriptors modify_ldt sd).
Proof.
  unfold update_descriptors. apply keeps_bind; [apply _|apply keeps_get, _|]. intros sp.
  destruct (segs sp !! sd_seg sd); [apply publish_grows|apply keeps_throw, _].
Qed.

Lemma create_grows access mem bits :
  keeps space_grows (create_segment_descriptor modify_ldt access mem bits).
Proof.
  intros sp sp' r Hrun Hwf. destruct (create_inv _ _ _ _ _ _ _ Hwf Hrun)
    as [(i & sd & _ & Hin & _)|(e & _ & Hw & Hs & _)].
  - revert Hwf. apply grows_same_segs; [by destruct Hin as (_ & _ & _ & Hs & _)|].
    intros Hwf. by eapply installed_wf.
  - by apply grows_same_segs.
Qed.

Lemma free_descriptor_grows sd : keeps space_grows (Prelude.modify (free_segment_descriptor sd)).
Proof.
  intros sp sp' r [= <- _]. apply grows_same_segs; [done|]. intros (H1 & H2 & H3 & H4 & H5).
  split; [done|]. split; [done|]. unfold free_segment_descriptor. simpl.
  split; [by apply free_wf|]. split; [by rewrite free_max|].
  intros j sd'. rewrite free_at. case_decide; [done|apply H5].
Qed.

Lemma update_slot_grows sel access :
  keeps space_grows (Prelude.modify (update_slot sel (AddressSpace.change_access access))).
Proof.
  intros sp sp' r [= <- _]. apply grows_same_segs; [done|]. intros (H1 & H2 & H3 & H4 & H5).
  split; [done|]. split; [done|]. unfold update_slot. simpl.
  split; [unfold IdMap.wf in *; simpl; by rewrite length_alter|]. split; [done|].
  intros j sd'. unfold at_. simpl. rewrite list_lookup_alter. case_decide as Hj; [subst j|apply H5].
  destruct (m_data (m_segment_descriptors sp) !! _) as [[sd|]|] eqn:E; simpl; try done.
  intros [= <-]. simpl. apply H5. unfold at_. by rewrite E.
Qed.
End Space.

#[export] Hint Resolve publish_grows update_descriptors_grows create_grows free_descriptor_grows
  update_slot_grows allocate_segment_grows : keeps.

(** ** The process *)

(** The pointers into guest memory the emulator keeps. *)
Definition pointers_ok {W} (magic : W -> option Z) (e : EmuState W) : Prop :=
  (forall t, m_sigtab e = Some t -> guest_range (e_space e) t sizeof_sigtab) /\
  (forall a, magic (e_world e) = Some a -> guest_range (e_space e) a 12).

Section Process.
Context {K : Type} {FK : FdKernel K} {HK : HostKernel K}.
Context (garbage_read : Z).
Notation St := (EmuState (World K)).

Definition sane (e : St) : Prop :=
  wf_space (e_space e) /\ tidy (w_fds (e_world e)) /\ pointers_ok w_magic e.

(** What never changes, or only grows, beside the invariants. *)
Definition lasts (e e' : St) : Prop :=
  w_paths (e_world e') = w_paths (e_world e) /\ m_time_segment e' = m_time_segment e /\
  segs_kept (e_space e) (e_space e').

#[export] Instance lasts_pre : PreOrder lasts.
Proof.
  split; [by intros e|]. intros e1 e2 e3 (P12 & T12 & K12) (P23 & T23 & K23).
  split; [congruence|]. split; [congruence|by etrans].
Qed.

(** One step of a handler: the invariants, the registers and the path maps stay,
    guest memory only grows and nothing else changes. *)
Definition evolves (e e' : St) : Prop :=
  sane e ->
  sane e' /\ g_regs (e_guest e') = g_regs (e_guest e) /\
  (forall x, guest_byte (e_space e) x -> guest_byte (e_space e') x) /\
  only_guest (e_space e') (garbage_area garbage_read) (g_mem (e_guest e)) (g_mem (e_guest e')) /\
  lasts e e'.

#[export] Instance evolves_pre : PreOrder evolves.
Proof.
  split.
  - intros e He. by split_and!.
  - intros e1 e2 e3 H12 H23 H1. destruct (H12 H1) as (H2 & Hr & Hg & Hm & Hp).
    destruct (H23 H2) as (H3 & Hr' & Hg' & Hm' & Hp'). split; [done|]. split; [congruence|].
    split; [auto|]. split; [|by etrans]. intros x Hx He. rewrite Hm', Hm; auto.
Qed.

(** Steps that leave memory and address space alone. *)
Lemma evolves_world e w :
  (tidy (w_fds (e_world e)) -> tidy (w_fds w)) -> w_magic w = w_magic (e_world e) ->
  w_paths w = w_paths (e_world e) -> evolves e (set_world w e).
Proof.
  intros Hf Hm Hp (H1 & H2 & H3 & H4). split; [|by split_and!].
  split; [done|]. split; [by apply Hf|]. split; [done|]. simpl. by rewrite Hm.
Qed.

Lemma evolves_memory e m :
  only_guest (e_space e) (garbage_area garbage_read) (g_mem (e_guest e)) m ->
  evolves e (set_guest (set_gmem m (e_guest e)) e).
Proof. intros Hm He. by split_and!. Qed.

Lemma evolves_space e sp : space_grows (e_space e) sp -> evolves e (set_space sp e).
Proof.
  intros Hg (H1 & H2 & H3 & H4). destruct (Hg H1) as (Hw & Hx & Hk).
  split; [|by split_and!].
  split; [done|]. split; [done|].
  split; intros a Ha; [pose proof (H3 a Ha) as Hr|pose proof (H4 a Ha) as Hr]; intros j Hj; by apply Hx, Hr.
Qed.

Lemma keeps_evolves_bind {A B} (P : A -> Prop) (m : H K A) (f : A -> H K B) :
  keeps evolves m -> (forall e e' a, sane e -> m e = (e', Ok a) -> P a) ->
  (forall a, P a -> keeps evolves (f a)) -> keeps evolves (m ≫= f).
Proof.
  intros Hm HP Hf e e' r. unfold mbind, M_bind. destruct (m e) as [e1 [a|x]] eqn:E.
  - intros Hr He. refine (transitivity (R := evolves) _ _ He); [by eapply Hm|].
    eapply Hf; [|exact Hr]. by eapply HP.
  - intros [= <- _]. by eapply Hm.
Qed.
End Process.

(** ** The operations of the handlers *)

Section Operations.
Context {K : Type} {FK : FdKernel K} {HK : HostKernel K}.
Context (garbage_read : Z).
Notation St := (EmuState (World K)).
Notation ok := (keeps (evolves (K := K) garbage_read)).

Lemma world_ok : ok world.
Proof. apply keeps_gets, _. Qed.

Lemma set_k_evolves k (e : St) : evolves garbage_read e (set_k k e).
Proof. by apply evolves_world. Qed.

Lemma sysc_ok {A} (c : Sys A) : ok (sysc c).
Proof.
  intros e e' r. unfold sysc. destruct (sys c (kern e)) as [k a]. intros [= <- _]. apply set_k_evolves.
Qed.

Lemma errno_ok : ok errno.
Proof. apply keeps_gets, _. Qed.

Lemma errno_assign_ok v : ok (errno_assign v).
Proof. apply keeps_modify. intros e. apply set_k_evolves. Qed.

Lemma unique_drop_ok fd : ok (unique_drop fd).
Proof. apply keeps_modify. intros e. apply set_k_evolves. Qed.

Lemma read_at_ok i off n : ok (read_at i off n).
Proof. unfold read_at. keeps. Qed.

Lemma read_type_ok i L : ok (read_type i L).
Proof. apply read_at_ok. Qed.

Lemma on_mem_ok {A} (op : Translation -> M Mem A) :
  (forall sp, wf_space sp -> keeps (only_guest sp (garbage_area garbage_read)) (op (space_translation sp))) ->
  ok (on_mem op).
Proof.
  intros Hop e e' r. unfold on_mem. destruct (op _ _) as [m x] eqn:E. intros [= <- _] He.
  by apply evolves_memory; [apply (Hop _ (proj1 He) _ _ _ E)|].
Qed.

Lemma write_at_ok i off bs : ok (write_at i off bs).
Proof.
  unfold write_at. apply keeps_bind; [apply _|..]; [|intros; apply keeps_ret, _].
  apply on_mem_ok. intros sp Hsp. by apply write_guest.
Qed.

Lemma write_type_ok i bs : ok (write_type i bs).
Proof. apply write_at_ok. Qed.

Lemma write_status_ok i v : ok (write_status i v).
Proof.
  apply on_mem_ok. intros sp Hsp. unfold Msg.write_status.
  apply keeps_bind; [apply _|by apply write_guest|]. intros. apply keeps_ret, _.
Qed.

Lemma write_errno_ok i : ok (write_errno i).
Proof. unfold write_errno. apply keeps_bind; [apply _|apply errno_ok|]. intros. apply write_status_ok. Qed.

Lemma write_result_ok i r : ok (write_result i r).
Proof. unfold write_result. destruct (r =? 0); [apply write_status_ok|apply write_errno_ok]. Qed.

Lemma map_fd_ok fd : ok (map_fd fd).
Proof. unfold map_fd, world. keeps. Qed.
Lemma attached_fd_ok fd : ok (attached_fd fd).
Proof. unfold attached_fd, world. keeps. Qed.
Lemma open_fd_ok fd : ok (open_fd fd).
Proof. unfold open_fd, world. keeps. Qed.

Lemma on_fd_ok {A} fd (op : M (QnxFd * K) A) : orderly op -> ok (on_fd fd op).
Proof.
  intros Hop e e' r. unfold on_fd. destruct (at_ _ _) as [f|] eqn:Ef; [|by intros [= <- _]].
  destruct (op _) as [[f' k] x] eqn:E. intros [= <- _]. apply evolves_world; [|done|done]. intros Ht.
  pose proof Ht as (_ & _ & Hall). destruct (Hall _ _ Ef) as [Hn Ho]. destruct (Hop _ _ _ _ _ E Ho) as [Hn' Ho'].
  apply tidy_update; [|done]. intros f0 H0 _. split; [congruence|done].
Qed.

Definition fds_ok (m m' : FdMap) : Prop := tidy m -> tidy m'.

Lemma on_fds_ok {A} (op : M FdMap A) : keeps fds_ok op -> ok (on_fds op).
Proof.
  intros Hop e e' r. unfold on_fds. destruct (op _) as [m x] eqn:E. intros [= <- _].
  apply evolves_world; [|done|done]. exact (Hop _ _ _ E).
Qed.

Lemma update_fds_ok fd g : steady fd g -> ok (on_fds (Prelude.modify (update_fd fd g))).
Proof. intros Hg. apply on_fds_ok. intros m m' r [= <- _] Hm. by apply tidy_update. Qed.

Lemma attach_ok fd n p v fl : ok (on_fds (qnx_fd_attach fd n p v fl)).
Proof. apply on_fds_ok. intros m m' r Hrun Hm. by eapply tidy_attach. Qed.

Lemma detach_ok fd : ok (fd_detach fd).
Proof. apply on_fds_ok. intros m m' r [= <- _] Hm. by apply (tidy_detach _ fd). Qed.

Lemma on_space_ok {A} (op : M Space A) : keeps space_grows op -> ok (on_space op).
Proof.
  intros Hop e e' r. unfold on_space. destruct (op _) as [s x] eqn:E. intros [= <- _].
  apply evolves_space. exact (Hop _ _ _ E).
Qed.

Lemma on_pids_ok {A} (op : M PidMap A) : ok (on_pids op).
Proof. intros e e' r. unfold on_pids. destruct (op _) as [m x]. intros [= <- _]. by intros He. Qed.

Lemma to_host_ok p n : ok (to_host p n).
Proof. unfold to_host, world. keeps. Qed.
Lemma to_host_path_ok p n : ok (to_host_path p n).
Proof. unfold to_host_path, to_host, world. keeps. Qed.
Lemma to_qnx_ok p : ok (to_qnx p).
Proof. unfold to_qnx, world. keeps. Qed.
Lemma to_qnx_path_ok p : ok (to_qnx_path p).
Proof. unfold to_qnx_path, to_qnx, world. keeps. Qed.
Lemma proc_pid_ok : ok proc_pid.
Proof. unfold proc_pid. keeps. Qed.
Lemma proc_parent_pid_ok : ok proc_parent_pid.
Proof. unfold proc_parent_pid. keeps. Qed.
Lemma host_to_qnx_ok p : ok (host_to_qnx p).
Proof. unfold host_to_qnx. keeps. Qed.
Lemma valid_host_ok p : ok (valid_host p).
Proof. unfold valid_host. keeps. Qed.
Lemma the_segment_ok r : ok (the_segment r).
Proof. unfold the_segment. keeps. Qed.

Lemma msg_write_iovec_ok i off n : ok (msg_write_iovec garbage_read i off n).
Proof. unfold msg_write_iovec. keeps. Qed.
Lemma msg_read_iovec_ok i off n : ok (msg_read_iovec garbage_read i off n).
Proof. unfold msg_read_iovec. keeps. Qed.
Lemma writev_ok fd iov : ok (writev fd iov).
Proof.
  unfold writev. apply keeps_bind; [apply _|apply keeps_get, _|]. intros. apply sysc_ok.
Qed.

(** [readv] writes where its vectors point. *)
Lemma readv_evolves fd iov e e' r :
  Forall (iov_ok (e_space e) garbage_read) iov -> readv fd iov e = (e', r) -> evolves garbage_read e e'.
Proof.
  intros Hiov. unfold readv, mbind, M_bind, sysc.
  destruct (sys _ _) as [k [res data]]. unfold on_mem, Prelude.modify. cbn. intros [= <- _].
  etrans; [apply (set_k_evolves k)|]. refine (evolves_memory _ (set_k k e) _ _). by apply scatter_guest.
Qed.

Lemma msg_write_iovec_points i off n (e e' : St) r :
  sane e -> msg_write_iovec garbage_read i off n e = (e', r) ->
  e' = e /\ forall iov, r = Ok iov -> Forall (iov_ok (e_space e) garbage_read) iov.
Proof.
  intros He [= <- <-]. split; [done|]. intros iov. apply common_iovec_guest. apply He.
Qed.

Lemma read_into_ok {A} i off n (g : H K Z) (f : Z -> H K A) :
  (forall e, exists h, g e = (e, h)) -> (forall r, ok (f r)) ->
  ok (iov ← msg_write_iovec garbage_read i off n; fd ← g; r ← readv fd iov; f r).
Proof.
  intros Hg Hf e e' r Hrun He. revert Hrun He. unfold mbind, M_bind.
  destruct (msg_write_iovec _ _ _ _ e) as [e1 [iov|x]] eqn:Ei; intros Hrun He.
  2: { injection Hrun as <- _. by apply (msg_write_iovec_ok _ _ _ _ _ _ Ei). }
  destruct (msg_write_iovec_points _ _ _ _ _ _ He Ei) as [-> Hiov]. specialize (Hiov _ eq_refl).
  destruct (Hg e) as [[fd|x] Hh]; rewrite Hh in Hrun; [|by injection Hrun as <- _].
  destruct (readv fd iov e) as [e1 [n1|x]] eqn:Er.
  - pose proof (readv_evolves _ _ _ _ _ Hiov Er) as H1. pose proof (Hf _ _ _ _ Hrun) as H2.
    by apply (transitivity (R := evolves garbage_read) H1 H2).
  - injection Hrun as <- _. by apply (readv_evolves _ _ _ _ _ Hiov Er).
Qed.

Lemma scoped_ok {A} fds (m : H K A) : ok m -> ok (scoped fds m).
Proof.
  intros Hm e e' r. unfold scoped.
  assert (Hd : forall l e, evolves garbage_read e (foldl (fun e fd => fst (unique_drop fd e)) e l)).
  { induction l as [|fd l IH]; intros e1; [done|]. simpl. etrans; [|apply IH]. apply set_k_evolves. }
  destruct (m e) as [e1 [a|x]] eqn:E; intros [= <- _].
  - etrans; [by eapply Hm|apply Hd].
  - etrans; [by eapply Hm|]. destruct (unwinds x); [apply Hd|done].
Qed.

Lemma restoring_ok {A} fd old (m : H K A) : ok m -> ok (restoring fd old m).
Proof.
  intros Hm e e' r. unfold restoring.
  assert (Hd : forall e, evolves garbage_read e (fst (sysc (STcsetattr fd TCSANOW old) e))).
  { intros e1. destruct (sysc _ e1) as [e2 x] eqn:E. exact (sysc_ok _ _ _ _ E). }
  destruct (m e) as [e1 [a|x]] eqn:E; intros [= <- _].
  - etrans; [by eapply Hm|apply Hd].
  - etrans; [by eapply Hm|]. destruct (unwinds x); [apply Hd|done].
Qed.
End Operations.

#[export] Hint Resolve world_ok sysc_ok errno_ok errno_assign_ok unique_drop_ok read_at_ok read_type_ok
  write_at_ok write_type_ok write_status_ok write_errno_ok write_result_ok map_fd_ok attached_fd_ok
  open_fd_ok on_fd_ok update_fds_ok attach_ok detach_ok on_pids_ok to_host_ok to_host_path_ok to_qnx_ok
  to_qnx_path_ok proc_pid_ok proc_parent_pid_ok host_to_qnx_ok valid_host_ok the_segment_ok
  msg_write_iovec_ok msg_read_iovec_ok writev_ok on_space_ok : keeps.
