(* ===== verification/SignalSpec.v ===== *)
(** * SignalSpec: a signal and the return from it, at the processor

    The signal frames of [Emu], the decoding of traps and the switch of registers
    of [Cpu] put together: when the host interrupts the guest with a signal, the
    guest's handler runs, and its stub makes the system call that ends it, the
    processor has every register it was interrupted with. *)

From S2P Require Import Prelude Types Memory Segment AddressSpace Sigset PidMap Msg GuestContext Emu Cpu Sandbox.

(** ** What a trap reads *)

Section Spec.
Context {W : Type}.
Notation St := (EmuState W).

Definition fetch (e : St) (n : nat) (s : SegmentRegister) (addr : Z) : Guest * outcome Z :=
  GuestContext.read (T := space_translation (e_space e)) n s addr (e_guest e).

(** The guest is at the [int] instruction of its bitness, asking for [sigreturn]. *)
Definition at_sigreturn_call (b : Bitness) (e : St) : Prop :=
  let g := e_guest e in
  fetch e 1 SegCS (gr g EIP) = (g, Ok 205) /\
  match b with
  | B32 => fetch e 1 SegCS (gr g EIP + 1) = (g, Ok 242) /\ reg_al g = 7
  | B16 => fetch e 1 SegCS (gr g EIP + 1) = (g, Ok 240) /\ fetch e 2 SegSS (gr g ESP) = (g, Ok 7)
  end.

(** States that differ in the data segment registers, the program counter and what
    the guest does not see. *)
Definition same_trap (e e' : St) : Prop :=
  e_space e' = e_space e /\ m_sigpend e' = m_sigpend e /\ m_sigmask e' = m_sigmask e /\
  m_time_segment e' = m_time_segment e /\ m_bits e' = m_bits e /\
  g_mem (e_guest e') = g_mem (e_guest e) /\ (regs_ok (e_guest e) -> regs_ok (e_guest e')) /\
  forall r, r <> DS -> r <> ES -> r <> EIP -> gr (e_guest e') r = gr (e_guest e) r.

#[export] Instance same_trap_pre : PreOrder same_trap.
Proof.
  split; [by intros e; split_and!|].
  intros e1 e2 e3 (A1 & A2 & A3 & A4 & A5 & A6 & A7 & A8) (B1 & B2 & B3 & B4 & B5 & B6 & B7 & B8).
  split_and!; try congruence; [auto|]. intros r H1 H2 H3. by rewrite B8, A8.
Qed.

Lemma fetch_same e e' n s addr v :
  fetch e n s addr = (e_guest e, Ok v) -> e_space e' = e_space e ->
  get_seg s (e_guest e') = get_seg s (e_guest e) -> g_mem (e_guest e') = g_mem (e_guest e) ->
  fetch e' n s addr = (e_guest e', Ok v).
Proof.
  unfold fetch, GuestContext.read, read_data, get, lift, mbind, M_bind. intros H Hs Hr Hm. rewrite Hs, Hr, Hm.
  destruct (translate _ _ _); [|done]. unfold mret, M_ret in *. congruence.
Qed.

Lemma on_guest_fetch e n s addr v :
  fetch e n s addr = (e_guest e, Ok v) -> on_guest (fun T => GuestContext.read (T := T) n s addr) e = (e, Ok v).
Proof. intros H. erewrite on_guest_run by exact H. by rewrite set_guest_id. Qed.

Lemma greg_same r (e : St) : greg r e = (e, Ok (gr (e_guest e) r)).
Proof. rewrite greg_run. by rewrite set_guest_id. Qed.

Lemma greg_set_run r v (e : St) :
  r = DS \/ r = ES \/ r = EIP -> exists e', greg_set r v e = (e', Ok ()) /\ same_trap e e' /\
    forall q, q <> r -> gr (e_guest e') q = gr (e_guest e) q.
Proof.
  intros Hr. eexists. split; [apply on_guest_run, set_reg_run|]. split.
  - split_and!; try done; cbn [set_guest e_guest].
    + intros Hok. apply regs_ok_upd; [done|]. apply wrapu_range. by destruct r.
    + intros q H1 H2 H3. rewrite gr_upd, decide_False; [done|]. by destruct Hr as [-> |[-> | ->]].
  - intros q Hq. cbn [set_guest e_guest]. by rewrite gr_upd, decide_False.
Qed.

Lemma migrate_run r (e : St) :
  r = DS \/ r = ES -> exists e' b, migrate r e = (e', Ok b) /\ same_trap e e' /\
    forall q, q <> r -> gr (e_guest e') q = gr (e_guest e) q.
Proof.
  intros Hr. unfold migrate. rewrite (bind_Ok _ _ _ _ _ (greg_same r e)).
  destruct (_ =? _); [|by exists e, false].
  destruct (greg_set_run r (Z.lor MAGIC_PTR_SELECTOR SEL_LDT) e) as (e' & H1 & H2 & H3); [tauto|].
  exists e', true. by rewrite (bind_Ok _ _ _ _ _ H1).
Qed.

(** *** Decoding *)

Lemma matches_int nr nr' (e : St) :
  fetch e 1 SegCS (gr (e_guest e) EIP) = (e_guest e, Ok 205) ->
  fetch e 1 SegCS (gr (e_guest e) EIP + 1) = (e_guest e, Ok nr) ->
  matches_syscall nr' e = (e, Ok (if nr =? nr' then Some 2 else None)).
Proof.
  intros H1 H2. unfold matches_syscall, try_catch. rewrite (bind_Ok _ _ _ _ _ (greg_same EIP e)).
  rewrite (bind_Ok _ _ _ _ _ (on_guest_fetch _ _ _ _ _ H1)). cbn [Z.eqb Pos.eqb].
  unfold mret, M_ret, mbind at 1, M_bind at 1. cbn [Z.eqb Pos.eqb].
  rewrite (bind_Ok _ _ _ _ _ (on_guest_fetch _ _ _ _ _ H2)). by destruct (nr =? nr').
Qed.

Lemma dispatch_sigreturn b (e e' : St) :
  (match b with B32 => reg_al (e_guest e) = 7 | B16 => fetch e 2 SegSS (gr (e_guest e) ESP) = (e_guest e, Ok 7) end) ->
  sigreturn b e = (e', Ok ()) ->
  forall host_kill handle_msg,
  (match b with B32 => dispatch_syscall host_kill handle_msg | B16 => dispatch_syscall16 handle_msg end) e = (e', Ok ()).
Proof.
  intros Hn Hrun hk hm. destruct b.
  - unfold dispatch_syscall, catch_segv, try_catch. rewrite (bind_Ok get _ _ _ _ eq_refl), Hn. cbv zeta. cbn [Z.eqb Pos.eqb].
    cbn [sigreturn] in Hrun. by rewrite Hrun.
  - unfold dispatch_syscall16. rewrite (bind_Ok _ _ _ _ _ (greg_same ESP e)).
    rewrite (bind_Ok _ _ _ _ _ (on_guest_fetch _ _ _ _ _ Hn)). unfold catch_segv, try_catch. cbn [Z.eqb Pos.eqb].
    cbn [sigreturn] in Hrun. by rewrite Hrun.
Qed.

Lemma call_same b (e e' : St) :
  at_sigreturn_call b e -> same_trap e e' -> gr (e_guest e') EIP = gr (e_guest e) EIP -> at_sigreturn_call b e'.
Proof.
  intros [H1 H2] (A1 & _ & _ & _ & _ & A6 & _ & A8) Hip. unfold at_sigreturn_call. rewrite Hip.
  assert (Hf : forall n s addr v, s = SegCS \/ s = SegSS -> fetch e n s addr = (e_guest e, Ok v) ->
    fetch e' n s addr = (e_guest e', Ok v)).
  { intros n s addr v Hs Hf. apply (fetch_same e); try done. destruct Hs as [-> | ->]; by apply A8. }
  split; [by apply Hf; [left|]|]. destruct b; destruct H2 as [H2 H3].
  - split; [by apply Hf; [left|]|]. unfold reg_al in *. by rewrite A8.
  - split; [by apply Hf; [left|]|]. rewrite A8 by done. by apply Hf; [right|].
Qed.

Section Handling.
Context (host_kill : Z -> Z -> Z) (handle_msg : MsgContext -> M St unit).

Lemma trapped_sigreturn b (e : St) :
  at_sigreturn_call b e -> exists e', same_trap e e' /\
    forall e3, sigreturn b e' = (e3, Ok ()) -> trapped_syscall host_kill handle_msg e = (e3, Ok true).
Proof.
  intros [H1 H2].
  destruct (greg_set_run EIP (gr (e_guest e) EIP + 2) e) as (e' & Hs & Hsame & Hq); [tauto|].
  assert (Hskip : skip_insn 2 e = (e', Ok ())).
  { unfold skip_insn. by rewrite (bind_Ok _ _ _ _ _ (greg_same EIP e)). }
  exists e'. split; [exact Hsame|]. intros e3 Hrun. unfold trapped_syscall. destruct b; destruct H2 as [H2 H3].
  - rewrite (bind_Ok _ _ _ _ _ (matches_int 242 242 e H1 H2)). cbn [Z.eqb Pos.eqb].
    rewrite (bind_Ok _ _ _ _ _ Hskip). rewrite (bind_Ok _ _ e' e3 ()); [done|].
    apply (dispatch_sigreturn B32); [|done]. unfold reg_al in *. by rewrite Hq.
  - rewrite (bind_Ok _ _ _ _ _ (matches_int 240 242 e H1 H2)). cbn [Z.eqb Pos.eqb].
    rewrite (bind_Ok _ _ _ _ _ (matches_int 240 241 e H1 H2)). cbn [Z.eqb Pos.eqb].
    rewrite (bind_Ok _ _ _ _ _ (matches_int 240 240 e H1 H2)). cbn [Z.eqb Pos.eqb].
    rewrite (bind_Ok _ _ _ _ _ Hskip). rewrite (bind_Ok _ _ e' e3 ()); [done|].
    refine (dispatch_sigreturn B16 e' e3 _ Hrun host_kill handle_msg). rewrite Hq by done.
    destruct Hsame as (A1 & _ & _ & _ & _ & A6 & _). apply (fetch_same e); try done. by apply Hq.
Qed.

Lemma segv_body_sigreturn dump b si_code (e : St) :
  0 < si_code -> in_guest e = true -> at_sigreturn_call b e -> exists e', same_trap e e' /\
    forall e3, sigreturn b e' = (e3, Ok ()) -> segv_body dump host_kill handle_msg si_code e = (e3, Ok ()).
Proof.
  intros Hc Hg Hcall. unfold in_guest in Hg. apply negb_true_iff in Hg.
  set (h := fst (host_call (HUnblock Sigset.Host.SIGSEGV) e)).
  assert (Hh : same_trap e h) by by split_and!.
  destruct (migrate_run ES h) as (m1 & b1 & Hm1 & Hs1 & Hq1); [tauto|].
  destruct (migrate_run DS m1) as (m2 & b2 & Hm2 & Hs2 & Hq2); [tauto|].
  assert (Hs : same_trap e m2) by (etrans; [exact Hh|]; etrans; [exact Hs1|exact Hs2]).
  destruct (trapped_sigreturn b m2) as (e' & Hs' & Hrun).
  { apply (call_same b e); [done|done|]. by rewrite Hq2, Hq1. }
  exists e'. split; [by etrans|]. intros e3 H3. specialize (Hrun e3 H3). unfold segv_body.
  destruct (Z.leb_spec si_code 0); [lia|]. rewrite (bind_Ok _ _ _ _ _ (greg_same CS e)), Hg.
  rewrite (bind_Ok (host_call _) _ e h () eq_refl), (bind_Ok _ _ _ _ _ Hm1), (bind_Ok _ _ _ _ _ Hm2).
  by rewrite (bind_Ok _ _ _ _ _ Hrun).
Qed.
End Handling.

(** ** What [sigreturn] and the tail leave alone *)

Definition kept (e e' : St) : Prop := e_space e' = e_space e /\ m_time_segment e' = m_time_segment e.

#[export] Instance kept_pre : PreOrder kept.
Proof. split; [by intros e|]. intros e1 e2 e3 [] []. split; congruence. Qed.

Lemma on_guest_kept {A} (op : Translation -> M Guest A) : keeps kept (on_guest op).
Proof. intros e e' r. unfold on_guest. destruct (op _ _). by intros [= <- _]. Qed.

Lemma sigreturn_kept b : keeps kept (sigreturn b).
Proof.
  assert (H : keeps kept syscall_sigreturn).
  { unfold syscall_sigreturn, greg, greg_set. apply keeps_bind; [apply _|apply on_guest_kept|]. intros mask.
    apply keeps_bind; [apply _|by apply keeps_modify|]. intros _.
    apply keeps_bind; [apply _|apply on_guest_kept|]. intros _.
    apply keeps_bind; [apply _|apply on_guest_kept|]. intros esp. apply on_guest_kept. }
  destruct b; [exact H|]. unfold sigreturn, syscall16_sigreturn. apply keeps_bind; [apply _|apply on_guest_kept|by intros _].
Qed.

Lemma update_timesel_again now (e e' e1 : St) :
  update_timesel now e1 = (e', Ok ()) -> e_space e = e_space e1 -> m_time_segment e = m_time_segment e1 ->
  exists m, update_timesel now e = (set_guest (set_gmem m (e_guest e)) e, Ok ()).
Proof.
  unfold update_timesel, get, throw, lift, host_store, Prelude.modify, mbind, M_bind. intros H -> ->.
  destruct (segs _ !! _); [|done]. destruct (pointer _ _ _); [|done]. eexists. reflexivity.
Qed.

(** Nothing to deliver. *)
Lemma signal_tail_idle now dump (e e' e1 : St) :
  update_timesel now e1 = (e', Ok ()) -> e_space e = e_space e1 -> m_time_segment e = m_time_segment e1 ->
  in_guest e = true -> activesig e = 0 ->
  exists e2, signal_tail now dump e = (e2, Ok ()) /\ m_sigmask e2 = m_sigmask e /\ m_sigpend e2 = m_sigpend e /\
    g_regs (e_guest e2) = g_regs (e_guest e).
Proof.
  intros Hup Hs Ht Hg Ha. destruct (update_timesel_again _ _ _ _ Hup Hs Ht) as [m Hm].
  unfold signal_tail. rewrite (bind_Ok _ _ _ _ _ Hm), (bind_Ok get _ _ _ _ eq_refl). cbv zeta.
  set (em := set_guest _ e). change (activesig em) with (activesig e). change (gr (e_guest em) CS) with (gr (e_guest e) CS).
  unfold in_guest in Hg. apply negb_true_iff in Hg. rewrite Hg, Ha.
  destruct (sync_host_sigmask_run em) as (hs & Hsync & _). exists (set_saved hs em). by split_and!.
Qed.
End Spec.

(** ** Properties *)

Section Transparent.
Context {W : Type} {T : Thread} {TL : ThreadLaws}.
Context (now : Z * Z) (dump : EmuState W -> outcome unit).
Context (host_kill : Z -> Z -> Z) (handle_msg : MsgContext -> M (EmuState W) unit).
Notation St := (EmuState W).
Notation static_handler := (static_handler now dump host_kill handle_msg).
Notation body := (body dump host_kill handle_msg).

(** The emulator's view of a thread. *)
Definition seen (c : Cpu) (e : St) : St := set_view (view (deliver c) (from_cpu c)) e.

(** The guest can take the signals that wait in [e], with the frame at [a]. *)
Definition takes_signals (e : St) (a : Z) : Prop :=
  wf_space (e_space e) /\ regs_ok (e_guest e) /\ mask_ok (m_sigpend e) /\ mask_ok (m_sigmask e) /\
  in_guest e = true /\ activesig e <> 0 /\ REDLINE <= gr (e_guest e) ESP /\
  stack_at (T := space_translation (e_space e)) (below_redline (e_guest e)) (64 + args_size (m_bits e)) a /\
  exists e' tab, update_timesel now e = (e', Ok ()) /\ m_sigtab e = Some tab /\
    forall s, sig_ok s -> Z.testbit (activesig e) (s - 1) = true ->
      is_special_sighandler (act_handler (g_mem (e_guest e')) (action_at tab s)) = false.

Lemma on_signal_run bd e t c c0 e1 e2 :
  restore (t, c) = ((t, c0), Ok ()) -> bd (seen c e) = (e1, Ok ()) -> in_guest e1 = true ->
  signal_tail now dump e1 = (e2, Ok ()) ->
  exists c2, on_signal now dump bd (e, (t, c)) = ((e2, (t, c2)), Ok ()) /\
    forall r, rget (c_regs c2) r = match r with FS | GS => rget (c_regs c) r | _ => gr (e_guest e2) r end.
Proof using TL.
  intros Hr Hb Hg Ht. unfold on_signal. rewrite Hr. fold (seen c e). rewrite Hb, Ht, Hg.
  eexists. split; [reflexivity|]. intros r. rewrite resume_regs. by destruct r.
Qed.

(** The guest's table of handlers, the memory after the time is updated, the
    least signal that waits. *)
Definition taken (e : St) (tab : Z) (m : Mem) (s : Z) : Prop :=
  m_sigtab e = Some tab /\ (exists e', update_timesel now e = (e', Ok ()) /\ m = g_mem (e_guest e')) /\
  sig_ok s /\ Z.testbit (activesig e) (s - 1) = true /\
  (forall t, sig_ok t -> t < s -> Z.testbit (activesig e) (t - 1) = false).

(** The processor runs the signal stub of the table, on a stack [frame_size] bytes
    below the red zone; the stub finds the handler and the number of the signal
    on it (a 16-bit stub only the number). *)
Definition in_stub (e : St) (s tab : Z) (m : Mem) (a : Z) (c2 : Cpu) (m2 : Mem) : Prop :=
  rget (c_regs c2) ESP = gr (e_guest e) ESP - REDLINE - (64 + args_size (m_bits e)) /\
  rget (c_regs c2) SS = gr (e_guest e) SS /\
  match m_bits e with
  | B32 =>
      rget (c_regs c2) CS = u16 (m_load_cs e) /\ rget (c_regs c2) EIP = u32 (sigstub m tab) /\
      load m2 a 12 = le_bytes 4 (act_handler m (action_at tab s)) ++ le_bytes 4 s ++ le_bytes 4 0
  | B16 =>
      rget (c_regs c2) CS = u16 (m_segment16 (sigstub16 m tab)) /\
      rget (c_regs c2) EIP = u32 (m_offset16 (sigstub16 m tab)) /\ load m2 a 2 = le_bytes 2 s
  end.

Lemma delivered_in_stub e s am a e2 tab m c2 :
  delivered e s am a e2 -> redirected e m s tab a e2 ->
  table_apart tab (action_at tab s) a (64 + args_size (m_bits e)) ->
  (forall r, r <> FS -> r <> GS -> rget (c_regs c2) r = gr (e_guest e2) r) ->
  in_stub e s tab m a c2 (g_mem (e_guest e2)).
Proof using Type.
  intros (_ & _ & H1 & H2 & _) Hre Hap Hc. unfold in_stub. rewrite !Hc by done. split; [done|]. split; [done|].
  unfold redirected, stub_call in Hre. destruct (m_bits e); exact (Hre Hap).
Qed.

(** C17. Signals are transparent to the code they interrupt.  A host signal
    arrives while the processor [c] runs the guest: the guest is resumed in the
    signal stub it registered - its segment and offset in CS and EIP, below the
    red zone of its own stack, with the handler registered for the least waiting
    signal and that signal's number as arguments, as long as the frame does not
    overlap the table they are registered in; and whenever, after whatever the handler did, its stub traps with
    the [sigreturn] call - at an [int] instruction, the frame untouched, no other
    signal having come in -, the processor gets back every register it was
    interrupted with, and the emulator its signal mask.  Only FS and GS, which no
    signal changes, are as the handler left them. *)
Theorem signal_transparent sig si_code e t c e1 a :
  body (Signal sig) (seen c e) = (e1, Ok ()) -> takes_signals e1 a -> 0 < si_code ->
  (forall c, exists c', restore (t, c) = ((t, c'), Ok ())) ->
  exists e2 c2, static_handler (Signal sig) (e, (t, c)) = ((e2, (t, c2)), Ok ()) /\
    (forall r, rget (c_regs c2) r = match r with FS | GS => rget (c_regs c) r | _ => gr (e_guest e2) r end) /\
    (exists tab m s, taken e1 tab m s /\
       (table_apart tab (action_at tab s) a (64 + args_size (m_bits e1)) ->
          in_stub e1 s tab m a c2 (g_mem (e_guest e2)))) /\
    forall e3 c3,
      e_space e3 = e_space e -> m_time_segment e3 = m_time_segment e ->
      Sigset.modify (m_sigpend e3) (m_sigmask e) 0 = 0 ->
      at_sigreturn (e_guest e2) (e_guest (seen c3 e3)) (m_bits e) a ->
      at_sigreturn_call (m_bits e) (seen c3 e3) -> in_guest (seen c3 e3) = true ->
      exists e4 c4, static_handler (Segv si_code) (e3, (t, c3)) = ((e4, (t, c4)), Ok ()) /\
        m_sigmask e4 = m_sigmask e /\ m_sigpend e4 = m_sigpend e3 /\
        forall r, rget (c_regs c4) r = match r with FS | GS => rget (c_regs c3) r | _ => rget (c_regs c) r end.
Proof using TL.
  intros Hb (Hwf & Hr & Hp & Hm & Hg & Ha & Hesp & Hst & e' & tab & Hup & Htab & Hh) Hc Hrest.
  assert (Hraise : e_space e1 = e_space e /\ m_time_segment e1 = m_time_segment e /\ m_sigmask e1 = m_sigmask e /\
    m_bits e1 = m_bits e /\ e_guest e1 = e_guest (seen c e)).
  { revert Hb. cbn [Cpu.body]. unfold generic_body. destruct (_ =? -1); [done|].
    unfold signal_raise, get, lift, put, mbind, M_bind. destruct (set_qnx_sig _ _); [|done]. by intros [= <-]. }
  destruct Hraise as (Hsp & Hts & Hma & Hbi & Hgu).
  assert (Hldt : Z.land (gr (e_guest e1) CS) SEL_LDT <> 0) by (unfold in_guest in Hg; to_prop; done).
  destruct (signal_tail_delivers now dump e1 e' tab a Hup Hwf Hr Hp Hldt Ha Htab Hh Hesp Hst)
    as (s & e2 & Htail & Hs1 & Hs2 & Hs3 & Hdel & Hre).
  destruct (Hrest c) as [c0 Hc0].
  destruct (on_signal_run _ e t c c0 e1 e2 Hc0 Hb Hg Htail) as (c2 & Hrun & Hregs).
  exists e2, c2. split; [exact Hrun|]. split; [exact Hregs|]. split.
  { exists tab, (g_mem (e_guest e')), s. split; [split_and!; eauto|]. intros Hap.
    refine (delivered_in_stub e1 s _ a e2 tab _ c2 Hdel Hre Hap _). intros r H1 H2. rewrite Hregs. by destruct r. }
  intros e3 c3 Hsp3 Hts3 Hpend Hat Hcall Hg3. rewrite <- Hbi in Hat, Hcall.
  destruct (segv_body_sigreturn host_kill handle_msg dump (m_bits e1) si_code (seen c3 e3) Hc Hg3 Hcall)
    as (e3' & (S1 & S2 & _ & S4 & _ & S6 & S7 & S8) & Hbody).
  assert (Hat' : at_sigreturn (e_guest e2) (e_guest e3') (m_bits e1) a).
  { destruct Hat as (B1 & B2 & B3 & B4). split; [by apply S7|]. rewrite !S8, S6 by done. done. }
  assert (Hsp' : e_space e3' = e_space e1) by (rewrite S1; change (e_space e3 = e_space e1); congruence).
  destruct (sigreturn_restores e1 s _ a e2 e3' Hwf Hr Hm Hsp' Hesp Hst Hdel Hat') as (e4' & Hret & M1 & M2 & M3 & M4).
  destruct (sigreturn_kept _ _ _ _ Hret) as [K1 K2]. specialize (Hbody e4' Hret).
  assert (Hg4 : in_guest e4' = true) by (unfold in_guest in *; by rewrite M4).
  assert (Hts4 : m_time_segment e4' = m_time_segment e1)
    by (rewrite K2, S4; change (m_time_segment e3 = m_time_segment e1); congruence).
  assert (Ha4 : activesig e4' = 0) by (unfold activesig; rewrite M1, M2, S2, Hma; exact Hpend).
  destruct (signal_tail_idle now dump e4' e' e1 Hup ltac:(by rewrite K1) Hts4 Hg4 Ha4) as (e4 & Htail4 & T1 & T2 & T3).
  destruct (Hrest c3) as [c5 Hc5].
  destruct (on_signal_run _ e3 t c3 c5 e4' e4 Hc5 Hbody Hg4 Htail4) as (c4 & Hrun4 & Hregs4).
  exists e4, c4. split; [exact Hrun4|]. split; [congruence|]. split; [rewrite T2, M2, S2; done|].
  intros r. rewrite Hregs4. assert (Hr4 : r <> FS -> r <> GS -> gr (e_guest e4) r = rget (c_regs c) r).
  { intros H1 H2. unfold gr. rewrite T3. fold (gr (e_guest e4') r). rewrite M4, decide_False, Hgu by done.
    by apply view_deliver. }
  by destruct r; try apply Hr4.
Qed.
End Transparent.

(** The guest of [Emu] gets signal 2; its handler returns to a stub at 600. *)
Definition demo_arrival : (EmuState unit * (TlsFixup * Cpu)) * outcome unit :=
  static_handler (T := demo_thread) (7, 0) (fun _ => Ok ()) (fun _ _ => 0) (fun _ => mret ()) (Signal 2) (demo_emu, (mkTls 5 6, demo_cpu)).

Definition demo_stub : EmuState unit :=
  let e := fst (fst demo_arrival) in
  set_guest (set_gmem (store (g_mem (e_guest e)) (2 ^ 26 + 600) [205; 242]) (e_guest e)) e.

Definition demo_stub_cpu : Cpu :=
  let f := c_regs (snd (snd (fst demo_arrival))) in
  mkCpu (upd (upd (upd (upd f ESP (rget f ESP + 12)) CS 7) EIP 600) EAX 7) 31 32.

Lemma signal_transparent_witness :
  exists e4 c4,
    static_handler (T := demo_thread) (7, 0) (fun _ => Ok ()) (fun _ _ => 0) (fun _ => mret ()) (Segv 1)
      (demo_stub, (mkTls 5 6, demo_stub_cpu)) = ((e4, (mkTls 5 6, c4)), Ok ()) /\
    rget (c_regs c4) EAX = 1 /\ rget (c_regs c4) ESP = 2048 /\ rget (c_regs c4) EIP = 100.
Proof.
  destruct (body (fun _ => Ok ()) (fun _ _ => 0) (fun _ => mret ()) (Signal 2) (seen (T := demo_thread) demo_cpu demo_emu))
    as [e1 r] eqn:Eb.
  assert (Hr : r = Ok ()) by (apply (f_equal snd) in Eb; vm_compute in Eb; congruence). subst r.
  assert (He1 : e1 = fst (body (fun _ => Ok ()) (fun _ _ => 0) (fun _ => mret ()) (Signal 2) (seen (T := demo_thread) demo_cpu demo_emu)))
    by (rewrite Eb; reflexivity).
  assert (Ht : takes_signals (7, 0) e1 (2 ^ 26 + 2048 - 128 - 76)).
  { rewrite He1. split; [exact wf_demo_space|]. split; [intros r; destruct r; vm_compute; intuition discriminate|].
    split; [vm_compute; intuition discriminate|]. split; [vm_compute; intuition discriminate|].
    split; [vm_compute; reflexivity|]. split; [vm_compute; discriminate|]. split; [vm_compute; discriminate|].
    split; [split; [intros r; destruct r; vm_compute; intuition discriminate|
            split; [vm_compute; intuition discriminate|vm_compute; reflexivity]]|].
    set (e := fst _). destruct (update_timesel (7, 0) e) as [e' r] eqn:Hup.
    assert (Hr : r = Ok ()) by (apply (f_equal snd) in Hup; vm_compute in Hup; congruence). subst r.
    exists e', (2 ^ 26 + 100). split; [reflexivity|]. split; [vm_compute; reflexivity|]. intros s Hs Hb.
    assert (Hs2 : s = 2).
    { assert (Ha : activesig e = 2) by (vm_compute; reflexivity). rewrite Ha in Hb. destruct Hs as [Hs1 Hs2].
      unfold Sigset.Qnx.QSIGMIN in Hs1. change 2 with (2 ^ 1) in Hb.
      rewrite Z.pow2_bits_eqb in Hb by lia. apply Z.eqb_eq in Hb. lia. }
    subst s. apply (f_equal fst) in Hup. cbn [fst] in Hup. rewrite <- Hup. vm_compute. reflexivity. }
  assert (Hrest : forall c, exists c', restore (T := demo_thread) (mkTls 5 6, c) = ((mkTls 5 6, c'), Ok ()))
    by (intros c; eexists; reflexivity).
  destruct (signal_transparent (TL := demo_thread_laws) (7, 0) (fun _ => Ok ()) (fun _ _ => 0) (fun _ => mret ()) 2 1 demo_emu
              (mkTls 5 6) demo_cpu e1 _ Eb Ht ltac:(lia) Hrest) as (e2 & c2 & Hrun & _ & _ & Hback).
  assert (He2 : e2 = fst (fst demo_arrival)) by (unfold demo_arrival; rewrite Hrun; reflexivity).
  destruct (Hback demo_stub demo_stub_cpu) as (e4 & c4 & H4 & _ & _ & Hc).
  - vm_compute; reflexivity.
  - vm_compute; reflexivity.
  - vm_compute; reflexivity.
  - rewrite He2. split; [intros r; destruct r; vm_compute; intuition discriminate|].
    split; [vm_compute; reflexivity|]. split; [vm_compute; reflexivity|vm_compute; reflexivity].
  - split; [vm_compute; reflexivity|]. split; [vm_compute; reflexivity|vm_compute; reflexivity].
  - vm_compute; reflexivity.
  - exists e4, c4. split; [exact H4|]. split; [exact (Hc EAX)|]. split; [exact (Hc ESP)|exact (Hc EIP)].
Defined.
