(* ===== verification/HostUtil.v ===== *)
(** * HostUtil: the rest of [util.cpp], [log.cpp], [fsutil.cpp] and [unique_fd.h]

    Formatting into a string, printing to the log, and the helpers of the host's
    files and pipes.  What the theorems show: [std_vprintf] is exactly what
    [vsnprintf] would print without a bound; [readlink] ends and finds the whole
    target of every link the host can have; a pipe is two distinct open
    descriptors or two invalid ones. *)

From S2P Require Import Prelude Types Log FdMap Emu Host MsgHandler IoHandler Descriptors.

(** ** [util.cpp]: [std_printf] and [std_vprintf] *)

(** [vsnprintf] with the format and its arguments fixed: the size of the buffer
    to its result and the bytes it writes. *)
Section Printf.
Context (vsnprintf : nat -> Z * list Z).

Definition std_vprintf : outcome cstring :=
  let '(req, _) := vsnprintf 0 in
  if req <? 0 then Throw (LogicError "vsprintf returned an errro")
  else
    let buf := replicate (Z.to_nat (req + 1)) 0 in
    let '(_, data) := vsnprintf (Z.to_nat (req + 1)) in
    Ok (take (Z.to_nat req) (splice 0 data buf)).

Definition std_printf : outcome cstring := std_vprintf.

(** Documented: the text's length is returned; as much of it as fits is written,
    and a NUL. *)
Definition prints (text : cstring) : Prop :=
  forall n, vsnprintf n = (Z.of_nat (length text), if decide (n = 0)%nat then [] else take (n - 1) text ++ [0]).

Lemma std_vprintf_text text : prints text -> std_vprintf = Ok text.
Proof.
  intros H. unfold std_vprintf. rewrite !H. destruct (Z.ltb_spec (Z.of_nat (length text)) 0); [lia|].
  replace (Z.to_nat (Z.of_nat (length text) + 1)) with (S (length text)) by lia. rewrite decide_False by done.
  rewrite Nat2Z.id, (take_ge text) by lia. unfold splice. f_equal.
  rewrite take_0, app_nil_l, <- app_assoc, take_app_length. done.
Qed.
End Printf.

(** ** [log.h], [log.cpp]: printing *)

(** The state is [m_enabled] and what standard error was given. *)
Definition if_enabled (c : Category) (logf : M cstring unit) : M (Z * cstring) unit := fun '(m, out) =>
  if is_enabled c m then let '(out, r) := logf out in ((m, out), r) else ((m, out), Ok ()).

(** [text] is what [vfprintf] makes of the format and its arguments. *)
Definition log_print (c : Category) (text : cstring) : M (Z * cstring) unit :=
  if_enabled c (modify (fun out => out ++ text)).
Definition dbg (text : cstring) : M (Z * cstring) unit := log_print DEBUG text.

(** What [-d] switched on is what is printed. *)
Lemma log_print_enable c c' en m out text :
  log_print c' text (enable c en m, out) =
  ((enable c en m, if (if decide (c = c') then en else is_enabled c' m) : bool then out ++ text else out), Ok ()).
Proof. unfold log_print, if_enabled. rewrite enable_spec. by destruct (if decide (c = c') then _ else _). Qed.

(** ** [unique_fd.h]: pipes *)

Section Host.
Context {K : Type} {FK : FdKernel K} {HK : HostKernel K}.

Definition create_pipe : H K (Z * Z) :=
  '(r, (p0, p1)) ← sysc SPipe;
  if negb (r =? 0) then mret (-1, -1) else mret (p0, p1).

Lemma create_pipe_spec {L : DescriptorLaws K} e :
  exists e' p0 p1, create_pipe e = (e', Ok (p0, p1)) /\
    (p0 = -1 /\ p1 = -1 \/
     FdMap.valid p0 = true /\ FdMap.valid p1 = true /\ p0 <> p1 /\
       is_Some (k_file (kern e') p0) /\ is_Some (k_file (kern e') p1)).
Proof.
  unfold create_pipe, sysc, mbind, M_bind. destruct (sys SPipe (kern e)) as [k [r [p0 p1]]] eqn:E.
  destruct (Z.eqb_spec r 0) as [->|Hr]; simpl; do 3 eexists; (split; [reflexivity|]); [right|by left].
  destruct (pipe_law _ _ _ _ _ E) as (H0 & H1 & Hne & Hp0 & Hp1); [done|]. unfold FdMap.valid.
  split_and!; try done; apply negb_true_iff, Z.ltb_ge; lia.
Qed.

(** ** [fsutil.cpp] *)

(** A null pointer is no string. *)
Definition getcwd (current_dir_name : option cstring) : outcome cstring :=
  match current_dir_name with None => Throw (Undefined "string(nullptr)") | Some s => Ok s end.

Definition proc_main_exe : H K (list Z) :=
  exe ← readlink (lit "/proc/self/exe");
  match exe with
  | Some exe => mret exe
  | None => err ← errno; throw (SystemError err)
  end.

(** Documented: as much of the target as fits the buffer, and its length; the
    kernel is not changed. *)
Definition links (path target : cstring) (k : K) : Prop :=
  forall size, 0 < size ->
    sys (SReadlink path size) k =
      (k, (Z.min (Z.of_nat (length target)) size, take (Z.to_nat size) target)).

(** One round with a buffer that holds the start of the target. *)
Lemma round_buffer target n size :
  (n <= length target)%nat -> (n <= S size)%nat ->
  splice 0 (take (S size) target) (resize (S size) (take n target)) =
  take (S size) target ++ replicate (S size - length target) 0.
Proof.
  intros Hn Hs. unfold splice, resize. rewrite take_0, app_nil_l. f_equal.
  rewrite take_app, (take_ge (take n target)) by (rewrite length_take; lia).
  rewrite !length_take, take_replicate, Nat.add_0_l, drop_app, length_take.
  rewrite (drop_ge (take n target)) by (rewrite length_take; lia). rewrite app_nil_l, drop_replicate.
  f_equal. lia.
Qed.

Lemma set_k_same (e : EmuState (World K)) : set_k (kern e) e = e.
Proof. destruct e as [g sp a b c d f h i j k l [w1 w2 w3 w4 w5 w6 w7 w8]]. done. Qed.

Lemma readlink_round path target e fuel size n :
  links path target (kern e) -> (n <= length target)%nat -> (n <= S size)%nat ->
  readlink_loop (S fuel) path size (take n target) e =
    if decide (length target <= size)%nat
    then (e, Ok (Some (target ++ replicate (size - length target) 0)))
    else readlink_loop fuel path (size * 2) (take (S size) target) e.
Proof.
  intros Hl Hn Hs. cbn [readlink_loop]. unfold sysc, mbind, M_bind. rewrite (Hl (Z.of_nat (S size))), set_k_same by lia.
  rewrite Nat2Z.id, round_buffer by done. destruct (Z.ltb_spec (Z.min (Z.of_nat (length target)) (Z.of_nat (S size))) 0); [lia|].
  case_decide as Hd; destruct (Z.eqb_spec (Z.min (Z.of_nat (length target)) (Z.of_nat (S size))) (Z.of_nat (S size))); try lia.
  - rewrite take_ge by lia. unfold mret, M_ret, resize. repeat f_equal.
    rewrite take_app_le by (rewrite length_app, length_replicate; lia). rewrite take_app, (take_ge target) by lia.
    rewrite take_replicate. repeat f_equal. lia.
  - replace (S size - length target)%nat with 0%nat by lia. by rewrite app_nil_r.
Qed.

Lemma readlink_loop_spec path target e fuel : links path target (kern e) -> forall size n,
  (length target <= size * 2 ^ fuel)%nat -> (n <= length target)%nat -> (n <= S size)%nat ->
  exists size' : nat, (length target <= size')%nat /\
    readlink_loop (S fuel) path size (take n target) e =
      (e, Ok (Some (target ++ replicate (size' - length target) 0))).
Proof.
  intros Hl. induction fuel as [|fuel IH]; intros size n Hf Hn Hs; rewrite readlink_round by done;
    (case_decide; [by exists size|]).
  - simpl in Hf. lia.
  - apply IH; [|lia|lia]. rewrite Nat.pow_succ_r' in Hf. lia.
Qed.

(** Every link the host can have is read in whole: its target, as a C string, is
    the string returned.  The string itself goes on with NULs up to the size of
    the buffer. *)
Theorem readlink_finds path target e :
  links path target (kern e) -> Z.of_nat (length target) <= 4096 -> 0 ∉ target ->
  exists dst, readlink path e = (e, Ok (Some dst)) /\ cstr (dst ++ [0]) = target /\
    exists size : nat, (length target <= size)%nat /\ dst = target ++ replicate (size - length target) 0.
Proof.
  intros Hl Hn Hz. destruct (readlink_loop_spec path target e 7 Hl 256 0) as (size & Hs & Hr); [|lia..|].
  { apply Nat2Z.inj_le. rewrite Nat2Z.inj_mul, Nat2Z.inj_pow. change (Z.of_nat 256 * Z.of_nat 2 ^ Z.of_nat 7) with 32768. lia. }
  eexists. split; [exact Hr|]. split; [|by exists size]. rewrite <- app_assoc.
  assert (Hc : exists l, replicate (size - length target) 0 ++ [0] = 0 :: l)
    by (destruct (size - length target)%nat; simpl; eauto). destruct Hc as [l ->].
  clear -Hz. induction target as [|c t IH]; [done|]. apply not_elem_of_cons in Hz as [H0 Hz]. simpl.
  destruct (Z.eqb_spec c 0); [congruence|]. by rewrite IH.
Qed.

(** The executable is found when it is a link. *)
Lemma proc_main_exe_finds target e :
  links (lit "/proc/self/exe") target (kern e) -> Z.of_nat (length target) <= 4096 -> 0 ∉ target ->
  exists exe, proc_main_exe e = (e, Ok exe) /\ cstr (exe ++ [0]) = target.
Proof.
  intros Hl Hn Hz. destruct (readlink_finds _ _ _ Hl Hn Hz) as (dst & Hr & Hc & _).
  exists dst. unfold proc_main_exe, mbind, M_bind. by rewrite Hr.
Qed.
End Host.
