(* ===== verification/Exchange.v ===== *)
(** * Exchange: requests and replies as the guest sees them

    A request is the flat sequence of bytes of the guest's message, a reply a
    flat sequence of bytes written over the guest's receive buffers.  When the
    buffers are mapped, reading the request returns its bytes and writing the
    reply puts the bytes there and nowhere else; the handlers' theorems are
    stated with these. *)

From S2P Require Import Prelude Types Memory IdMap PathMapper PidMap TerminalFilter FdMap Segment AddressSpace Sigset Msg Errno GuestContext Emu Layout QnxMsg Host MsgHandler.

Section Exchange.
Context {K : Type}.
Notation St := (EmuState (World K)).

Definition tr (e : St) : Translation := space_translation (e_space e).
Definition asks (e : St) (i : MsgContext) : list chunk := chunks_of (g_mem (e_guest e)) (m_send (m_msg i)).
Definition gets_back (e : St) (i : MsgContext) : list chunk :=
  chunks_of (g_mem (e_guest e)) (m_rcv (m_msg i)).

(** The request's and the reply's buffers are mapped. *)
Definition can_ask (e : St) (i : MsgContext) : Prop :=
  wf_space (e_space e) /\ valid (T := tr e) (asks e i).
Definition can_reply (e : St) (i : MsgContext) : Prop :=
  wf_space (e_space e) /\ valid (T := tr e) (gets_back e i) /\
  stable (T := tr e) (g_mem (e_guest e)) (m_rcv (m_msg i)).

(** [n] bytes of the request from [off], padded as [Msg::read] does. *)
Definition asked (e : St) (i : MsgContext) (off : Z) (n : nat) : list Z :=
  read_result (T := tr e) (g_mem (e_guest e)) (asks e i) off (Z.of_nat n).
(** [n] bytes of the receive buffers. *)
Definition reply_at (e : St) (i : MsgContext) (off : Z) (n : nat) : list Z :=
  peek (g_mem (e_guest e)) <$> window (T := tr e) (gets_back e i) off (Z.of_nat n).

(** The state after [bs] was written at [off] of the reply. *)
Definition replied (i : MsgContext) (off : Z) (bs : list Z) (e : St) : St :=
  let w := window (T := tr e) (gets_back e i) off (Z.of_nat (length bs)) in
  set_guest (set_gmem (store_at (g_mem (e_guest e)) w (take (length w) bs)) (e_guest e)) e.

Lemma read_at_run e i off n :
  can_ask e i -> 0 <= off < 2 ^ 63 -> Z.of_nat n < 2 ^ 63 ->
  read_at i off n e = (e, Ok (asked e i off n)).
Proof.
  intros [Hw Hv] Ho Hn. unfold read_at, mbind, M_bind, get, lift, Msg.read.
  by rewrite (read_chunks_spec (T := tr e) (space_translation_laws _ Hw)) by (done || lia).
Qed.

Lemma read_type_run e i L :
  can_ask e i -> Z.of_nat (sizeof L) < 2 ^ 63 -> read_type i L e = (e, Ok (asked e i 0 (sizeof L))).
Proof. intros. by apply read_at_run. Qed.

Lemma on_mem_write_run e i off bs :
  can_reply e i -> 0 <= off < 2 ^ 63 -> Z.of_nat (length bs) < 2 ^ 63 ->
  exists n, on_mem (fun T => Msg.write (T := T) (m_msg i) off bs) e = (replied i off bs e, Ok n).
Proof.
  intros (Hw & Hv & Hs) Ho Hn. unfold on_mem.
  rewrite (write_spec (T := tr e) (space_translation_laws _ Hw) (m_msg i)) by done.
  by eexists.
Qed.

Lemma write_at_run e i off bs :
  can_reply e i -> 0 <= off < 2 ^ 63 -> Z.of_nat (length bs) < 2 ^ 63 ->
  write_at i off bs e = (replied i off bs e, Ok ()).
Proof.
  intros Hr Ho Hn. destruct (on_mem_write_run e i off bs Hr Ho Hn) as [n E].
  unfold write_at. by rewrite (bind_Ok _ _ _ _ _ E).
Qed.

Lemma write_type_run e i bs :
  can_reply e i -> Z.of_nat (length bs) < 2 ^ 63 -> write_type i bs e = (replied i 0 bs e, Ok ()).
Proof. intros. by apply write_at_run. Qed.

Lemma write_status_run e i v :
  can_reply e i -> write_status i v e = (replied i 0 (le_bytes 2 v) e, Ok ()).
Proof.
  intros Hr. destruct (on_mem_write_run e i 0 (le_bytes 2 v) Hr ltac:(lia) ltac:(rewrite length_le_bytes; lia))
    as [n E].
  revert E. unfold write_status, on_mem, Msg.write_status, mbind, M_bind.
  generalize (le_bytes 2 v). intros bs.
  destruct (Msg.write _ _ _ _) as [m [l|x]]; by intros [= -> _].
Qed.

(** What was written is what the guest finds. *)
Lemma replied_reads e i off bs :
  can_reply e i -> NoDup (flat (T := tr e) (gets_back e i)) ->
  0 <= off -> off + Z.of_nat (length bs) <= total (T := tr e) (gets_back e i) ->
  reply_at (replied i off bs e) i off (length bs) = bs.
Proof.
  intros (Hw & Hv & Hs) Hnd Ho Hl. unfold reply_at, replied.
  set (w := window (T := tr e) (gets_back e i) off (Z.of_nat (length bs))).
  assert (Hlw : length w = length bs).
  { pose proof (length_window (T := tr e) (gets_back e i) off (Z.of_nat (length bs))). fold w in H. lia. }
  unfold gets_back at 1, tr at 1. cbn [e_guest e_space set_guest set_gmem g_mem].
  rewrite Hs.
  2: { intros x Hx. apply peek_store_at_ne. intros Hin. apply Hx. by eapply window_sub. }
  fold (gets_back e i). fold (tr e). fold w. rewrite Hlw, firstn_all.
  apply peek_store_at; [|done].
  rewrite <- (take_drop (Z.to_nat off) (flat _)) in Hnd. apply NoDup_app in Hnd as (_ & _ & Hnd).
  rewrite <- (take_drop (length bs) (drop _ _)) in Hnd. apply NoDup_app in Hnd as (Hnd & _ & _).
  unfold w, window. by rewrite Nat2Z.id.
Qed.

(** Everything outside the receive buffers stays. *)
Lemma replied_elsewhere e i off bs x :
  x ∉ flat (T := tr e) (gets_back e i) ->
  peek (g_mem (e_guest (replied i off bs e))) x = peek (g_mem (e_guest e)) x.
Proof. intros Hx. apply peek_store_at_ne. intros Hin. apply Hx. by eapply window_sub. Qed.

Lemma gets_back_replied e i off bs :
  can_reply e i -> gets_back (replied i off bs e) i = gets_back e i.
Proof. intros (_ & _ & Hs). apply Hs. intros x Hx. by apply replied_elsewhere. Qed.

Lemma can_reply_replied e i off bs : can_reply e i -> can_reply (replied i off bs e) i.
Proof.
  intros Hr. pose proof (gets_back_replied e i off bs Hr) as Hg. destruct Hr as (Hw & Hv & Hs).
  split; [exact Hw|]. split; [by rewrite Hg|]. intros m' Hm'.
  fold (gets_back (replied i off bs e) i) in *. change (tr (replied i off bs e)) with (tr e) in Hm'.
  rewrite Hg in *. apply Hs. intros x Hx. rewrite (Hm' _ Hx). by apply replied_elsewhere.
Qed.

(** A later write in front of it does not touch what was written. *)
Lemma replied_reads_behind e i off bs off2 n :
  can_reply e i -> NoDup (flat (T := tr e) (gets_back e i)) ->
  0 <= off -> off + Z.of_nat (length bs) <= off2 ->
  reply_at (replied i off bs e) i off2 n = reply_at e i off2 n.
Proof.
  intros Hr Hnd Ho Hoff. unfold reply_at. rewrite gets_back_replied by done.
  change (tr (replied i off bs e)) with (tr e). apply list_fmap_ext. intros j x Hx.
  apply list_elem_of_lookup_2 in Hx. apply peek_store_at_ne. intros Hin.
  unfold window in Hx, Hin. rewrite Nat2Z.id in Hin. set (l := flat (gets_back e i)) in *.
  apply elem_of_take in Hx as (a & Ha & _). rewrite lookup_drop in Ha.
  apply elem_of_take in Hin as (b & Hb & Hlt). rewrite lookup_drop in Hb.
  pose proof (NoDup_lookup _ _ _ _ Hnd Ha Hb). lia.
Qed.

(** States with the same guest and the same address space. *)
Lemma can_ask_same e e' i :
  e_guest e' = e_guest e -> e_space e' = e_space e -> can_ask e i -> can_ask e' i.
Proof. unfold can_ask, asks, tr. by intros -> ->. Qed.
Lemma can_reply_same e e' i :
  e_guest e' = e_guest e -> e_space e' = e_space e -> can_reply e i -> can_reply e' i.
Proof. unfold can_reply, gets_back, tr. by intros -> ->. Qed.
End Exchange.

(** ** Stepping *)

Section Step.
Context {K : Type} {FK : FdKernel K} {HK : HostKernel K}.
Notation St := (EmuState (World K)).

Lemma on_space_run {A} (op : M Space A) (e : St) sp' r :
  op (e_space e) = (sp', r) -> on_space op e = (set_space sp' e, r).
Proof. intros H. unfold on_space. by rewrite H. Qed.

Lemma on_fds_run {A} (op : M FdMap A) (e : St) m r :
  op (w_fds (e_world e)) = (m, r) -> on_fds op e = (set_world (set_fds m (e_world e)) e, r).
Proof. intros H. unfold on_fds. by rewrite H. Qed.

Lemma on_pids_run {A} (op : M PidMap A) (e : St) m r :
  op (m_pids e) = (m, r) -> on_pids op e = (set_pids m e, r).
Proof. intros H. unfold on_pids. by rewrite H. Qed.

Lemma sysc_run {A} (c : Sys A) (e : St) k a : sys c (kern e) = (k, a) -> sysc c e = (set_k k e, Ok a).
Proof. intros H. unfold sysc. by rewrite H. Qed.

Lemma bind_Throw {A B} (m : H K A) (f : A -> H K B) e e' x :
  m e = (e', Throw x) -> (m ≫= f) e = (e', Throw x).
Proof. intros H. unfold mbind, M_bind. by rewrite H. Qed.
End Step.
