(* ===== verification/MsgMeta.v ===== *)
(** * MsgMeta: descriptions of messages, [msg/dump.cpp], [Process::handle_msg]

    Which description a request is dumped with: the class is the high byte of
    the type, and the first message of the class whose type and, if it has one,
    subtype agree is taken.  With the message categories of the log switched off, a
    message goes straight to [receive]; [Dump] has the log. *)

From S2P Require Import Prelude Types Memory IdMap PathMapper PidMap TerminalFilter FdMap Segment AddressSpace Sigset Msg Errno GuestContext Emu Layout QnxMsg Host MsgHandler ProcHandler IoHandler TermHandler MainHandler Exchange.

Definition match_msg (type subtype : Z) (t : Message) : bool :=
  (TYPE t =? type) && match SUBTYPE t with None => true | Some s => s =? subtype end.

Definition find_message (l : list Message) (type subtype : Z) : option Message :=
  find (match_msg type subtype) l.

(** The list of the class, if there is one. *)
Definition message_list (type : Z) : option (list Message) :=
  let msg_class := u8 (Z.shiftr type 8) in
  if msg_class =? 0 then Some proc_list
  else if msg_class =? 1 then Some io_list
  else if msg_class =? 2 then Some fsys_list
  else if msg_class =? 3 then Some dev_list
  else None.

Definition find_msg (type subtype : Z) : option Message :=
  ml ← message_list type; find_message ml type subtype.

(** A request names at most one message. *)
Definition exclusive (m m' : Message) : bool :=
  negb (TYPE m =? TYPE m') ||
  match SUBTYPE m, SUBTYPE m' with Some s, Some s' => negb (s =? s') | _, _ => false end.

Lemma match_exclusive type st m m' :
  match_msg type st m = true -> match_msg type st m' = true -> exclusive m m' = false.
Proof.
  unfold match_msg, exclusive. intros [H1 H2]%andb_prop [H3 H4]%andb_prop.
  apply Z.eqb_eq in H1, H3. rewrite H1, H3, Z.eqb_refl. cbn [negb orb].
  destruct (SUBTYPE m), (SUBTYPE m'); try done. apply Z.eqb_eq in H2, H4. by rewrite H2, H4, Z.eqb_refl.
Qed.

Fixpoint all_exclusive (l : list Message) : bool :=
  match l with [] => true | m :: l => forallb (exclusive m) l && all_exclusive l end.

Lemma find_message_unique l type st m :
  all_exclusive l = true -> m ∈ l -> match_msg type st m = true -> find_message l type st = Some m.
Proof.
  unfold find_message. induction l as [|m' l IH]; [by intros _ ?%elem_of_nil|]. simpl.
  intros [He Ha]%andb_prop Hin Hm. apply elem_of_cons in Hin as [-> |Hin]; [by rewrite Hm|].
  destruct (match_msg type st m') eqn:E; [|by apply IH].
  pose proof (proj1 (forallb_forall _ _) He m (proj1 (list_elem_of_In _ _) Hin)).
  by rewrite (match_exclusive _ _ _ _ E Hm) in H.
Qed.

(** Every message lies in the list of its class. *)
Lemma class_lists :
  Forall (fun m => message_list (TYPE m) = Some proc_list) proc_list /\
  Forall (fun m => message_list (TYPE m) = Some io_list) io_list /\
  Forall (fun m => message_list (TYPE m) = Some fsys_list) fsys_list /\
  Forall (fun m => message_list (TYPE m) = Some dev_list) dev_list.
Proof. repeat split; repeat (apply Forall_cons; split; [reflexivity|]); apply Forall_nil; exact I. Qed.

Lemma message_list_of m :
  m ∈ all_messages -> exists l, message_list (TYPE m) = Some l /\ m ∈ l /\ all_exclusive l = true.
Proof.
  destruct class_lists as (Hp & Hi & Hf & Hd). rewrite Forall_forall in Hp, Hi, Hf, Hd.
  unfold all_messages. rewrite !elem_of_app.
  intros [H|[H|[H|H]]]; [exists io_list|exists fsys_list|exists dev_list|exists proc_list];
    (split; [auto|split; [exact H|vm_compute; reflexivity]]).
Qed.

Lemma message_list_sub type l m : message_list type = Some l -> m ∈ l -> m ∈ all_messages.
Proof.
  unfold message_list, all_messages. rewrite !elem_of_app.
  repeat case_match; intros [= <-]; auto.
Qed.

(** The description of a request is found by type and subtype: it is the one
    message of the message files with that type whose subtype, if it has one, is
    the request's; there is none only when no message fits. *)
Theorem find_msg_spec type st :
  match find_msg type st with
  | Some m => m ∈ all_messages /\ match_msg type st m = true /\
              forall m', m' ∈ all_messages -> match_msg type st m' = true -> m' = m
  | None => forall m, m ∈ all_messages -> match_msg type st m = false
  end.
Proof.
  assert (Hfound : forall m, m ∈ all_messages -> match_msg type st m = true -> find_msg type st = Some m).
  { intros m Hm Hmatch. destruct (message_list_of m Hm) as (l & Hl & Hin & He).
    assert (Ht : TYPE m = type) by (by apply andb_prop in Hmatch as [?%Z.eqb_eq _]).
    unfold find_msg. rewrite <- Ht, Hl. simpl. rewrite Ht. by apply find_message_unique. }
  destruct (find_msg type st) as [m|] eqn:E.
  - unfold find_msg in E. destruct (message_list type) as [l|] eqn:Hl; [|discriminate].
    apply find_some in E as [Hin Hm]. apply list_elem_of_In in Hin.
    split; [by eapply message_list_sub|]. split; [exact Hm|].
    intros m' Hm' Hmatch. specialize (Hfound m' Hm' Hmatch). congruence.
  - intros m Hm. destruct (match_msg type st m) eqn:Hx; [|done]. by specialize (Hfound m Hm Hx).
Qed.

(** ** [Process::handle_msg] *)

Section Handle.
Context {K : Type} {FK : FdKernel K} {HK : HostKernel K}.
Context (receive : MsgContext -> H K unit).

(** The header is read for the log, which is off. *)
Definition handle_msg (i : MsgContext) : H K unit := _ ← read_type i s_header; receive i.

Lemma handle_msg_receive i e : can_ask e i -> handle_msg i e = receive i e.
Proof. intros Hi. unfold handle_msg. by rewrite (bind_Ok _ _ _ _ _ (read_type_run e i s_header Hi eq_refl)). Qed.
End Handle.
