(* ===== verification/Dump.v ===== *)
(** * Dump: [msg/dump.cpp], the log of messages, dumps for debugging

    The text [qine] writes about messages when the log asks for it: a request
    before it is handled and the reply behind it, field by field after their
    descriptions, or byte by byte when there is none.  What is printed never
    changes what a message does, the text of a number reads back as its value,
    and the dump of a structure of numbers is defined for every content. *)

From S2P Require Import Prelude Types Memory IdMap PathMapper PidMap TerminalFilter FdMap Segment AddressSpace Sigset Msg Log Errno GuestContext Emu Layout QnxMsg QnxMeta Host MsgHandler ProcHandler IoHandler TermHandler MainHandler Exchange MsgMeta Text.
Import QnxMeta.Meta.

(** ** A structure *)

Definition print_indent (indent : nat) : cstring := concat (replicate indent (lit "  ")).

(** [%d] takes the [uint32_t] for an [int]. *)
Definition print_int (p : Presentation) (v : Z) : cstring :=
  match p with
  | DEFAULT => fmt_d (i32 v)
  | OCT => fmt_o v ++ lit "o"
  | HEX => fmt_X 0 v ++ lit "h"
  end.

(** [n] bytes of the buffer; reading past its end is undefined. *)
Definition buf_at (buf : list Z) (offset n : nat) : outcome (list Z) :=
  if (offset + n <=? length buf)%nat then Ok (slice offset n buf) else Throw (Undefined "end of the buffer").
Definition buf_int (buf : list Z) (offset n : nat) : outcome Z := bs ← buf_at buf offset n; Ok (le_val bs).

Definition fd_names : list string := ["stdin"; "stdout"; "stderr"]%string.

Definition print_stdfd (i : nat) (fd : Z) : cstring :=
  if fd =? 255 then []
  else if (i <? 2)%nat then lit " " ++ lit (fd_names !!! i) ++ lit " = " ++ fmt_d fd ++ lit ","
  else lit " [" ++ fmt_d (Z.of_nat i) ++ lit "] = " ++ fmt_d fd ++ lit ",".

(** A field that is not a structure. *)
Definition print_value (f : Format) (p : Presentation) (array_len offset : nat) (buf : list Z) : outcome cstring :=
  match f with
  | CHAR =>
      if (array_len =? 0)%nat then c ← buf_at buf offset 1; Ok (lit "'" ++ c ++ lit "'")
      else s ← c_string (drop offset buf); Ok ([34] ++ s ++ [34])
  | U8 | I8 => v ← buf_int buf offset 1; Ok (print_int p v)
  | U16 | I16 => v ← buf_int buf offset 2; Ok (print_int p v)
  | U32 | I32 => v ← buf_int buf offset 4; Ok (print_int p v)
  | PID => v ← buf_int buf offset 2; Ok (lit "pid " ++ fmt_d (i16 v))
  | NID => v ← buf_int buf offset 4; Ok (lit "nid " ++ fmt_d (i32 v))
  | Meta.FD => v ← buf_int buf offset 2; Ok (lit "fd " ++ fmt_d (i16 v))
  | PATH => bs ← buf_at buf offset 256; Ok (cstr bs)
  | STDFDS => fds ← buf_at buf offset 10; Ok (lit "{" ++ concat (imap print_stdfd fds) ++ lit "}")
  | SUB | TERMIOS | TIME => Ok (lit "unknown field type")
  end.

(** A structure within a structure is printed by [dump], [dump_substructure]. *)
Definition print_field (dump : Struct -> nat -> nat -> outcome cstring) (f : Field) (indent offset : nat)
    (buf : list Z) : outcome cstring :=
  match f with
  | mkField _ _ _ f p r a =>
      match f with
      | SUB =>
          match r with
          | Some t =>
              s ← dump t (S indent) offset;
              Ok (lit "{" ++ [10] ++ s ++ print_indent indent ++ lit "   }")
          | None => Throw (Undefined "null pointer")
          end
      | _ => print_value f p a offset buf
      end
  end.

(** A line for each field: its offset, its name, its value. *)
Definition line_head (indent at_ : nat) (f : Field) : cstring :=
  lit "@" ++ fmt_x 2 (Z.of_nat at_) ++ lit " " ++ print_indent indent ++ lit (f_name f) ++ lit ": ".
Arguments line_head : simpl never.

Definition dump_fields (dump : Struct -> nat -> nat -> outcome cstring) (indent offset : nat) (buf : list Z)
    : list Field -> outcome cstring :=
  fix go fs :=
    match fs with
    | [] => Ok []
    | f :: fs =>
        let at_ := (offset + m_offset f)%nat in
        v ← print_field dump f indent at_ buf;
        rest ← go fs;
        Ok (line_head indent at_ f ++ v ++ [10] ++ rest)
    end.

Fixpoint dump_substructure (t : Struct) (indent offset : nat) (buf : list Z) : outcome cstring :=
  match t with
  | mkStruct fs _ => dump_fields (fun t i o => dump_substructure t i o buf) indent offset buf fs
  end.

(** ** Messages *)

Section Log.
Context {K : Type} {FK : FdKernel K} {HK : HostKernel K}.

(** The log and the emulator. *)
Definition L (A : Type) : Type := M (cstring * EmuState (World K)) A.
Definition say (s : cstring) : L unit := Prelude.modify (fun '(o, e) => (o ++ s, e)).
Definition act {A} (m : H K A) : L A := fun '(o, e) => let '(e', r) := m e in ((o, e'), r).

(** [Meta::dump_structure], [Meta::dump_structure_written]. *)
Definition dump_bytes (t : Struct) (buf : list Z) : L unit :=
  s ← lift (dump_substructure t 1 0 buf); say s.

Definition dump_structure (t : Struct) (i : MsgContext) : L unit :=
  bs ← act (read_at i 0 (m_size t)); dump_bytes t bs.

Definition read_written_at (i : MsgContext) (offset : Z) (n : nat) : H K (list Z) :=
  e ← get;
  lift (Msg.read_written (T := space_translation (e_space e)) (g_mem (e_guest e)) (m_msg i) offset (Z.of_nat n)).
Definition dump_structure_written (t : Struct) (i : MsgContext) : L unit :=
  bs ← act (read_written_at i 0 (m_size t)); dump_bytes t bs.

(** [Msg::dump_send]: byte by byte.  Each byte is translated with size 0. *)
Fixpoint dump_send_loop (fuel : nat) (T : Translation) (mem : Mem) (chunks : list chunk) (it : Iterator) : L unit :=
  match fuel with
  | O => throw (Undefined "fuel")
  | S fuel =>
      let '(s, it) := next chunks 1 it in
      if FarSlice_is_empty s then mret ()
      else
        a ← lift (translate (m_ptr s) 0 READ);
        _ ← say (fmt_X 2 (peek mem a) ++ lit " ");
        dump_send_loop fuel T mem chunks it
  end.

(** More rounds than bytes. *)
Definition send_bytes (chunks : list chunk) : Z := foldr (fun c n => mxfer_len c + n) 0 chunks.

(** [int rs += mxfer_len]. *)
Definition reply_size (chunks : list chunk) : Z := foldl (fun rs c => i32 (rs + mxfer_len c)) 0 chunks.

Definition dump_send (i : MsgContext) : L unit :=
  e ← act get;
  let mem := g_mem (e_guest e) in
  let chunks := chunks_of mem (m_send (m_msg i)) in
  _ ← dump_send_loop (S (Z.to_nat (send_bytes chunks))) (space_translation (e_space e)) mem chunks it_begin;
  say (lit ", reply size " ++ fmt_d (reply_size (chunks_of mem (m_rcv (m_msg i)))) ++ [10]).

(** [Msg::dump_structure]: where the chunks of the message and of the reply lie. *)
Fixpoint dump_chunks (what : cstring) (start : Z) (l : list chunk) : cstring :=
  match l with
  | [] => []
  | c :: l =>
      let stop := u64 (start + mxfer_len c) in
      what ++ lit ": " ++ fmt_x 4 start ++ lit " - " ++ fmt_x 4 stop ++ lit " -> " ++
      fmt_x 4 (mxfer_seg c) ++ lit ":" ++ fmt_x 8 (mxfer_off c) ++ [10] ++ dump_chunks what stop l
  end.
Definition dump_message_structure (mem : Mem) (m : Msg) : cstring :=
  dump_chunks (lit "snd") 0 (chunks_of mem (m_send m)) ++ dump_chunks (lit "rcv") 0 (chunks_of mem (m_rcv m)).

(** ** [Process::handle_msg] with the log *)

(** [match_msg] on a description. *)
Definition match_meta (type subtype : Z) (t : Meta.Message) : bool :=
  (m_type t =? type) && (negb (m_has_subtype t) || (m_subtype t =? subtype)).

Definition meta_list (type : Z) : option (list Meta.Message) :=
  let msg_class := u8 (Z.shiftr type 8) in
  if msg_class =? 0 then Some Meta.proc_list
  else if msg_class =? 1 then Some Meta.io_list
  else if msg_class =? 2 then Some Meta.fsys_list
  else if msg_class =? 3 then Some Meta.dev_list
  else None.

(** The [find_msg] of [handle_msg]. *)
Definition find_meta (type subtype : Z) : L (option Meta.Message) :=
  match meta_list type with
  | Some l => mret (find (match_meta type subtype) l)
  | None => _ ← say (lit "Msg receiver unknown, cannot dump" ++ [10]); mret None
  end.

Context (receive : MsgContext -> H K unit).

Definition log_request (i : MsgContext) (msg_type : option Meta.Message) : L unit :=
  match msg_type with
  | Some t =>
      _ ← say (lit "request " ++ lit (m_name t) ++ (if m_via_fd i then lit " fd " ++ fmt_d (m_id i) else lit " pid " ++ fmt_d (i16 (m_id i))) ++ lit " {" ++ [10]);
      _ ← dump_structure (m_request t) i;
      say (lit "}" ++ [10])
  | None => dump_send i
  end.

Definition log_reply (i : MsgContext) (msg_type : option Meta.Message) : L unit :=
  match msg_type with
  | Some t =>
      _ ← say (lit "reply " ++ lit (m_name t) ++ lit " {" ++ [10]);
      _ ← dump_structure_written (m_reply t) i;
      say (lit "}" ++ [10])
  | None => mret ()
  end.

(** The search is made once, when the log first needs it. *)
Definition handle_msg_log (m_enabled : Z) (i : MsgContext) : L unit :=
  hdr ← act (read_type i s_header);
  let search := find_meta hdr[: s_header ; "type" :] hdr[: s_header ; "subtype" :] in
  found ← (if is_enabled MSG m_enabled
           then t ← search; _ ← log_request i t; mret (Some t)
           else mret None);
  _ ← act (receive i);
  if is_enabled MSG_REPLY m_enabled
  then t ← (match found with Some t => mret t | None => search end); log_reply i t
  else mret ().

(** The same as the system calls see it, the text put aside. *)
Definition logged (m_enabled : Z) (i : MsgContext) : H K unit := fun e =>
  let '((_, e'), r) := handle_msg_log m_enabled i ([], e) in (e', r).
End Log.
