(* ===== verification/DumpSpec.v ===== *)
(** * DumpSpec: what the log of messages tells

    The dump of a structure of numbers is defined whatever the bytes and
    determines them, and logging changes nothing of what a message does. *)

From S2P Require Import Prelude Types Memory IdMap PathMapper PidMap TerminalFilter FdMap Segment AddressSpace Sigset Msg Log Errno GuestContext Emu Layout QnxMsg QnxMeta Host MsgHandler ProcHandler IoHandler TermHandler MainHandler Exchange MsgMeta Text Dump.
Import QnxMeta.Meta.

(** ** Induction over descriptions *)

Definition on_typeref (P : Struct -> Prop) (f : Field) : Prop :=
  match m_typeref f with Some t => P t | None => True end.

Fixpoint Struct_ind' (P : Struct -> Prop)
    (H : forall fs n, Forall (on_typeref P) fs -> P (mkStruct fs n)) (t : Struct) : P t :=
  match t with
  | mkStruct fs n =>
      H fs n ((fix go (fs : list Field) : Forall (on_typeref P) fs :=
        match fs with
        | [] => List.Forall_nil (on_typeref P)
        | f :: fs =>
            @List.Forall_cons _ (on_typeref P) f fs
              (match f return on_typeref P f with
               | mkField _ _ _ _ _ r _ =>
                   match r return match r with Some t => P t | None => True end with
                   | Some t => Struct_ind' P H t
                   | None => I
                   end
               end) (go fs)
        end) fs)
  end.

(** ** Structures of numbers *)

(** The bytes of a field printed as a number. *)
Definition number_size (f : Format) : option nat :=
  match f with
  | U8 | I8 => Some 1%nat | U16 | I16 | PID | Meta.FD => Some 2%nat | U32 | I32 | NID => Some 4%nat
  | _ => None
  end.

(** Only numbers, one behind the other from [pos]; where the last one ends. *)
Definition numeric_fields (sub : nat -> Struct -> option nat) (pos n : nat) : nat -> list Field -> option nat :=
  fix go q fs :=
    match fs with
    | [] => if (q =? pos + n)%nat then Some q else None
    | mkField _ o _ f _ r _ :: fs =>
        if negb (pos + o =? q)%nat then None
        else match f, r with
             | SUB, Some t => match sub q t with Some q => go q fs | None => None end
             | _, _ => match number_size f with Some k => go (q + k)%nat fs | None => None end
             end
    end.

Fixpoint numeric (pos : nat) (t : Struct) : option nat :=
  match t with mkStruct fs n => numeric_fields (fun q t => numeric q t) pos n pos fs end.

Definition numbers_only (t : Struct) : bool := bool_decide (numeric 0 t = Some (m_size t)).

(** A structure all of whose fields, those of the structures in it included, are
    printed as numbers: plain ones, and ids of processes, nodes and descriptors.
    There is no text among them, no time, no terminal attributes - these two are
    printed as [unknown field type] - and no list of descriptors. *)
Fixpoint of_numbers (t : Struct) : bool :=
  match t with
  | mkStruct fs _ =>
      forallb (fun f => let '(mkField _ _ _ f _ r _) := f in
        match f, r with
        | SUB, Some t => of_numbers t
        | _, _ => match number_size f with Some _ => true | None => false end
        end) fs
  end.

(** The structures of all messages. *)
Definition all_structs : list Struct := (m_request <$> Meta.all_messages) ++ (m_reply <$> Meta.all_messages).

Lemma of_numbers_count :
  length (filter (fun t => of_numbers t = true) all_structs) = 141%nat /\ length all_structs = 174%nat /\
  of_numbers (m_request Meta.meta_io_utime) = false /\ of_numbers (m_reply Meta.meta_io_fstat) = false /\
  of_numbers (m_reply Meta.meta_dev_tcgetattr) = false.
Proof. vm_compute. repeat split. Qed.

Lemma of_numbers_only : Forall (fun t => of_numbers t = true -> numbers_only t = true) all_structs.
Proof.
  apply Forall_forall. intros t Ht. apply list_elem_of_In in Ht.
  assert (H : forallb (fun t => negb (of_numbers t) || numbers_only t) all_structs = true) by (vm_compute; reflexivity).
  pose proof (proj1 (forallb_forall _ _) H t Ht) as Hx. simpl in Hx. intros Hl. by rewrite Hl in Hx.
Qed.

(** ** The text of a number *)

Definition number_text (f : Format) (p : Presentation) (v : Z) : cstring :=
  match f with
  | PID => lit "pid " ++ fmt_d (i16 v)
  | NID => lit "nid " ++ fmt_d (i32 v)
  | Meta.FD => lit "fd " ++ fmt_d (i16 v)
  | _ => print_int p v
  end.

Lemma print_value_number f k p a off buf :
  number_size f = Some k ->
  print_value f p a off buf = (v ← buf_int buf off k; Ok (number_text f p v)).
Proof. destruct f; intros [= <-]; reflexivity. Qed.

Lemma wraps_inj w v1 v2 : 0 < w -> 0 <= v1 < 2 ^ w -> 0 <= v2 < 2 ^ w -> wraps w v1 = wraps w v2 -> v1 = v2.
Proof.
  intros Hw H1 H2 E. unfold wraps in E. set (h := 2 ^ (w - 1)) in *.
  assert (Hp : 2 ^ w = 2 * h) by (unfold h; rewrite <- Z.pow_succ_r by lia; f_equal; lia).
  rewrite Hp in *. assert (E' : (v1 + h) mod (2 * h) = (v2 + h) mod (2 * h)) by lia.
  pose proof (Z.div_mod (v1 + h) (2 * h) ltac:(lia)). pose proof (Z.div_mod (v2 + h) (2 * h) ltac:(lia)).
  assert (H3 : 0 <= (v1 + h) / (2 * h) < 2) by (split; [apply Z.div_pos; lia|apply Z.div_lt_upper_bound; lia]).
  assert (H4 : 0 <= (v2 + h) / (2 * h) < 2) by (split; [apply Z.div_pos; lia|apply Z.div_lt_upper_bound; lia]).
  assert (Hq : forall q, 0 <= q < 2 -> q = 0 \/ q = 1) by lia.
  destruct (Hq _ H3) as [E1|E1], (Hq _ H4) as [E2|E2]; rewrite E1, E2 in *; lia.
Qed.

Lemma wraps_range w v : 0 < w -> - 2 ^ (w - 1) <= wraps w v < 2 ^ (w - 1).
Proof.
  intros Hw. unfold wraps. assert (2 ^ w = 2 * 2 ^ (w - 1)) by (rewrite <- Z.pow_succ_r by lia; f_equal; lia).
  pose proof (Z.mod_pos_bound (v + 2 ^ (w - 1)) (2 ^ w) ltac:(lia)). lia.
Qed.

Lemma fmt_d_inj v1 v2 : - 2 ^ 63 <= v1 < 2 ^ 63 -> - 2 ^ 63 <= v2 < 2 ^ 63 -> fmt_d v1 = fmt_d v2 -> v1 = v2.
Proof. intros H1 H2 E. rewrite <- (parse_fmt_d v1), <- (parse_fmt_d v2) by done. by rewrite E. Qed.

Lemma number_inj base upper v1 v2 :
  2 <= base <= 16 -> 0 <= v1 < 2 ^ 64 -> 0 <= v2 < 2 ^ 64 -> number base upper v1 = number base upper v2 -> v1 = v2.
Proof.
  intros Hb H1 H2 E. rewrite <- (parse_fmt base upper 0 v1), <- (parse_fmt base upper 0 v2) by done. by rewrite !pad_zero, E.
Qed.

Lemma fmt_d_wraps_inj w v1 v2 :
  0 < w <= 32 -> 0 <= v1 < 2 ^ w -> 0 <= v2 < 2 ^ w -> fmt_d (wraps w v1) = fmt_d (wraps w v2) -> v1 = v2.
Proof.
  intros Hw H1 H2 E. apply (wraps_inj w); [lia|done|done|]. 
  pose proof (Z.pow_le_mono_r 2 (w - 1) 63 ltac:(lia) ltac:(lia)).
  pose proof (wraps_range w v1 ltac:(lia)). pose proof (wraps_range w v2 ltac:(lia)).
  apply fmt_d_inj; [lia|lia|done].
Qed.

(** The text tells the value. *)
Lemma number_text_inj f k p v1 v2 :
  number_size f = Some k -> 0 <= v1 < 2 ^ (8 * Z.of_nat k) -> 0 <= v2 < 2 ^ (8 * Z.of_nat k) ->
  number_text f p v1 = number_text f p v2 -> v1 = v2.
Proof.
  intros Hk H1 H2 E.
  assert (Hi : 2 ^ (8 * Z.of_nat k) <= 2 ^ 32 -> print_int p v1 = print_int p v2 -> v1 = v2).
  { intros Hle Ep. destruct p; simpl in Ep.
    - by apply (fmt_d_wraps_inj 32) in Ep; lia.
    - apply app_inv_tail in Ep. unfold fmt_X in Ep. rewrite !pad_zero in Ep. apply number_inj in Ep; [done|lia..].
    - apply app_inv_tail in Ep. apply number_inj in Ep; [done|lia..]. }
  destruct f; simpl in Hk; try discriminate Hk; injection Hk as <-; simpl Z.of_nat in *;
    try (by apply Hi; [lia|exact E]); apply app_inv_head in E.
  - by apply (fmt_d_wraps_inj 16) in E; lia.
  - by apply (fmt_d_wraps_inj 32) in E; lia.
  - by apply (fmt_d_wraps_inj 16) in E; lia.
Qed.

(** *** One line *)

Definition inline_char (c : Z) : Prop := c <> 10.

Lemma number_inline base upper n : 2 <= base <= 16 -> Forall inline_char (number base upper n).
Proof.
  intros Hb. eapply Forall_impl; [by apply number_digits|]. intros c Hc. unfold is_digit, inline_char in *. lia.
Qed.

Lemma fmt_d_inline v : Forall inline_char (fmt_d v).
Proof. unfold fmt_d. destruct (v <? 0); [constructor; [done|]|]; apply number_inline; lia. Qed.

Lemma number_text_inline f p v : Forall inline_char (number_text f p v).
Proof.
  assert (Hi : Forall inline_char (print_int p v)).
  { destruct p; simpl; [apply fmt_d_inline| |]; apply Forall_app; split; try apply number_inline; try lia;
      by repeat constructor. }
  destruct f; try exact Hi; apply Forall_app; split; try apply fmt_d_inline; by repeat constructor.
Qed.

Lemma line_inj v1 v2 r1 r2 :
  Forall inline_char v1 -> Forall inline_char v2 -> v1 ++ 10 :: r1 = v2 ++ 10 :: r2 -> v1 = v2 /\ r1 = r2.
Proof.
  revert v2. induction v1 as [|c v1 IH]; intros [|c' v2] H1 H2 E; simpl in E.
  - by injection E.
  - injection E as <- _. apply Forall_cons in H2 as [H2 _]. by destruct H2.
  - injection E as -> _. apply Forall_cons in H1 as [H1 _]. by destruct H1.
  - injection E as -> E. apply Forall_cons in H1 as [_ H1], H2 as [_ H2].
    by destruct (IH _ H1 H2 E) as [-> ->].
Qed.

(** The bytes of two buffers from [q] to [e] agree. *)
Definition same_bytes (b1 b2 : list Z) (q e : nat) : Prop := forall x, (q <= x < e)%nat -> b1 !! x = b2 !! x.

Lemma buf_at_Ok buf o n bs : buf_at buf o n = Ok bs -> bs = slice o n buf /\ length bs = n.
Proof.
  unfold buf_at. destruct (Nat.leb_spec (o + n) (length buf)); [|done]. intros [= <-].
  split; [done|]. by apply length_slice.
Qed.

Lemma buf_int_inj b1 b2 o n v :
  Forall is_byte b1 -> Forall is_byte b2 -> buf_int b1 o n = Ok v -> buf_int b2 o n = Ok v ->
  same_bytes b1 b2 o (o + n).
Proof.
  unfold buf_int. intros H1 H2 E1 E2. apply outcome_bind_Ok in E1 as (s1 & E1 & [= V1]), E2 as (s2 & E2 & [= V2]).
  apply buf_at_Ok in E1 as [-> L1], E2 as [-> L2]. 
  assert (E : slice o n b1 = slice o n b2).
  { rewrite <- (le_bytes_val (slice o n b1)), <- (le_bytes_val (slice o n b2)) by
      (unfold slice; apply Forall_take, Forall_drop; done). by rewrite V1, V2, L1, L2. }
  intros x Hx. apply (f_equal (fun l => l !! (x - o)%nat)) in E. unfold slice in E.
  rewrite !lookup_take_lt, !lookup_drop in E by lia. by replace (o + (x - o))%nat with x in E by lia.
Qed.

Lemma buf_int_range buf o n v : Forall is_byte buf -> buf_int buf o n = Ok v -> 0 <= v < 2 ^ (8 * Z.of_nat n).
Proof.
  intros H E. apply outcome_bind_Ok in E as (s & E & [= <-]). apply buf_at_Ok in E as [-> L].
  pose proof (le_val_range (slice o n buf)) as Hr. rewrite L in Hr. apply Hr. unfold slice. by apply Forall_take, Forall_drop.
Qed.

(** *** A structure *)

Definition tells (t : Struct) : Prop := forall pos e indent b1 b2 s1 s2 r1 r2,
  numeric pos t = Some e -> Forall is_byte b1 -> Forall is_byte b2 ->
  dump_substructure t indent pos b1 = Ok s1 -> dump_substructure t indent pos b2 = Ok s2 ->
  s1 ++ r1 = s2 ++ r2 -> same_bytes b1 b2 pos e /\ (pos <= e)%nat /\ r1 = r2.

(** A number, and a structure within the structure. *)
Lemma field_tells f pos indent b1 b2 v1 v2 r1 r2 q :
  on_typeref tells f -> (pos + m_offset f = q)%nat -> Forall is_byte b1 -> Forall is_byte b2 ->
  print_field (fun t i o => dump_substructure t i o b1) f indent q b1 = Ok v1 ->
  print_field (fun t i o => dump_substructure t i o b2) f indent q b2 = Ok v2 ->
  v1 ++ 10 :: r1 = v2 ++ 10 :: r2 ->
  forall e, (match f with mkField _ _ _ f _ r _ => match f, r with
             | SUB, Some t => numeric q t
             | _, _ => k ← number_size f; Some (q + k)%nat end end) = Some e ->
  same_bytes b1 b2 q e /\ (q <= e)%nat /\ r1 = r2.
Proof.
  intros Hf Ho Hb1 Hb2 E1 E2 Ev e He. destruct f as [n o m f p r a]. simpl in *.
  destruct (number_size f) as [k|] eqn:Ek.
  - assert (He' : e = (q + k)%nat) by (destruct f; try discriminate Ek; simpl in He; congruence). subst e.
    assert (Hp : forall b, print_field (fun t i o => dump_substructure t i o b) (mkField n o m f p r a) indent q b
      = (v ← buf_int b q k; Ok (number_text f p v))).
    { intros b. rewrite <- (print_value_number f k p a q b Ek). destruct f; first [discriminate Ek|reflexivity]. }
    unfold print_field in Hp. rewrite Hp in E1, E2. apply outcome_bind_Ok in E1 as (x1 & E1 & [= <-]), E2 as (x2 & E2 & [= <-]).
    apply line_inj in Ev as [Ev ->]; [|apply number_text_inline..].
    pose proof (buf_int_range _ _ _ _ Hb1 E1) as R1. pose proof (buf_int_range _ _ _ _ Hb2 E2) as R2.
    pose proof (number_text_inj f k p x1 x2 Ek R1 R2 Ev) as ->.
    split; [by apply (buf_int_inj _ _ _ _ x2)|]. split; [lia|done].
  - assert (f = SUB) as -> by (destruct f; try discriminate Ek; try done; destruct r; discriminate He).
    destruct r as [t|]; [|discriminate He]. unfold on_typeref in Hf. simpl in Hf.
    apply outcome_bind_Ok in E1 as (s1 & E1 & [= <-]), E2 as (s2 & E2 & [= <-]). simpl in Ev.
    rewrite <- !app_assoc in Ev. injection Ev as Ev.
    destruct (Hf q e (S indent) b1 b2 s1 s2 _ _ He Hb1 Hb2 E1 E2 Ev) as (H1 & H2 & Er). split; [done|]. split; [done|].
    apply app_inv_head in Er. by injection Er.
Qed.

Lemma Ok_inj {A} (a b : A) : Ok a = Ok b -> a = b.
Proof. by intros [= ->]. Qed.

(** [numeric] on the first field. *)
Lemma numeric_cons sub pos n q f fs e :
  numeric_fields sub pos n q (f :: fs) = Some e ->
  (pos + m_offset f = q)%nat /\
  exists q', (match f with mkField _ _ _ f _ r _ => match f, r with
             | SUB, Some t => sub q t
             | _, _ => k ← number_size f; Some (q + k)%nat end end) = Some q' /\
    numeric_fields sub pos n q' fs = Some e.
Proof.
  destruct f as [nm o m f p r a]. cbn [numeric_fields m_offset].
  destruct (Nat.eqb_spec (pos + o) q) as [Hq|]; [|done]. cbn [negb]. intros H. split; [exact Hq|].
  destruct f; try destruct r as [t|]; cbn [number_size] in *; try discriminate H; try (eexists; split; [reflexivity|exact H]).
  destruct (sub q t) as [q'|]; [|discriminate H]. by exists q'.
Qed.

Lemma tells_all t : tells t.
Proof.
  induction t as [fs n IH] using Struct_ind'. intros pos e indent b1 b2 s1 s2 r1 r2 Hn Hb1 Hb2.
  cbn [dump_substructure numeric] in *. set (sub := fun q t => numeric q t) in Hn.
  assert (H : forall q s1 s2, numeric_fields sub pos n q fs = Some e ->
    dump_fields (fun t i o => dump_substructure t i o b1) indent pos b1 fs = Ok s1 ->
    dump_fields (fun t i o => dump_substructure t i o b2) indent pos b2 fs = Ok s2 ->
    s1 ++ r1 = s2 ++ r2 -> same_bytes b1 b2 q e /\ (q <= e)%nat /\ r1 = r2); [|by apply H].
  clear Hn s1 s2. induction IH as [|f fs Hf _ IHfs]; intros q s1 s2 Hn E1 E2 Es.
  - cbn in Hn. destruct (q =? pos + n)%nat; [|discriminate Hn]. injection Hn as <-.
    injection E1 as <-. injection E2 as <-. split; [intros x Hx; lia|]. by split.
  - apply numeric_cons in Hn as (Hq & q' & Hq' & Hn). cbn [dump_fields] in E1, E2.
    apply outcome_bind_Ok in E1 as (v1 & E1 & E1'), E2 as (v2 & E2 & E2').
    apply outcome_bind_Ok in E1' as (t1 & E1' & H1), E2' as (t2 & E2' & H2).
    apply Ok_inj in H1 as <-, H2 as <-.
    rewrite <- !app_assoc in Es. apply app_inv_head in Es. cbn [app] in Es. rewrite Hq in E1, E2.
    destruct (field_tells f pos indent b1 b2 v1 v2 _ _ q Hf Hq Hb1 Hb2 E1 E2 Es q' Hq') as (H1 & Hle & Et).
    destruct (IHfs q' t1 t2 Hn E1' E2' Et) as (H2 & Hle' & Er). split; [|by split; [lia|]].
    intros x Hx. destruct (decide (x < q')%nat); [apply H1|apply H2]; lia.
Qed.

(** *** Numbers can always be printed *)

Definition printable (t : Struct) : Prop := forall pos e indent b,
  numeric pos t = Some e -> (e <= length b)%nat -> (pos <= e)%nat /\ exists s, dump_substructure t indent pos b = Ok s.

Lemma printable_all t : printable t.
Proof.
  induction t as [fs n IH] using Struct_ind'. intros pos e indent b Hn Hb. cbn [dump_substructure numeric] in *.
  set (sub := fun q t => numeric q t) in Hn.
  assert (H : forall q, numeric_fields sub pos n q fs = Some e ->
    (q <= e)%nat /\ exists s, dump_fields (fun t i o => dump_substructure t i o b) indent pos b fs = Ok s); [|by apply H].
  clear Hn. induction IH as [|f fs Hf _ IHfs]; intros q Hn.
  - cbn in Hn. destruct (q =? pos + n)%nat; [|discriminate Hn]. injection Hn as <-. split; [done|]. by exists [].
  - apply numeric_cons in Hn as (Hq & q' & Hq' & Hn). destruct (IHfs q' Hn) as (Hle & s & Es).
    assert (Hv : (q <= q')%nat /\ exists v, print_field (fun t i o => dump_substructure t i o b) f indent q b = Ok v).
    { destruct f as [nm o m f p r a]. cbn [on_typeref m_typeref] in *. destruct (number_size f) as [k|] eqn:Ek.
      - assert (q' = q + k)%nat as -> by (destruct f; try discriminate Ek; simpl in *; congruence). split; [lia|].
        assert (E : print_value f p a q b = Ok (number_text f p (le_val (slice q k b)))).
        { rewrite (print_value_number f k) by done. unfold buf_int, buf_at.
          by destruct (Nat.leb_spec (q + k) (length b)); [|lia]. }
        destruct f; first [discriminate Ek|by eexists].
      - assert (f = SUB) as -> by (destruct f; try discriminate Ek; try done; destruct r; discriminate Hq').
        destruct r as [t|]; [|discriminate Hq']. unfold on_typeref in Hf. simpl in Hf.
        destruct (Hf q q' (S indent) b Hq' ltac:(lia)) as (Hp & s' & Es'). split; [done|]. simpl. rewrite Es'. by eexists. }
    destruct Hv as [Hle2 [v Ev]]. split; [lia|]. cbn [dump_fields]. rewrite Hq, Ev. cbn. rewrite Es. by eexists.
Qed.

(** C37. The dump of a structure whose fields are all printed as numbers - no texts,
    no times, no terminal attributes, no lists of descriptors, so not the request
    of [utime] nor the replies of [fstat] and [tcgetattr] - is defined whatever the
    bytes of the message, and it tells all of them: no other content of the
    message gives the same dump.  This is so for 141 of the 174 structures. *)
Theorem dump_faithful t indent b :
  t ∈ all_structs -> of_numbers t = true -> Forall is_byte b -> length b = m_size t ->
  exists s, dump_substructure t indent 0 b = Ok s /\
    forall b', Forall is_byte b' -> length b' = m_size t -> dump_substructure t indent 0 b' = Ok s -> b' = b.
Proof.
  intros Ht Hl Hb Hn. pose proof (proj1 (Forall_forall _ _) of_numbers_only t Ht Hl) as Hnum.
  apply bool_decide_eq_true in Hnum. destruct (printable_all t 0%nat (m_size t) indent b Hnum) as [_ [s Es]]; [lia|].
  exists s. split; [done|]. intros b' Hb' Hn' Es'.
  destruct (tells_all t 0%nat (m_size t) indent b' b s s [] [] Hnum Hb' Hb Es' Es eq_refl) as (Hs & _).
  apply list_eq. intros x. destruct (decide (x < m_size t)%nat); [apply Hs; lia|].
  rewrite !lookup_ge_None_2 by lia. done.
Qed.

Lemma dump_faithful_witness :
  let b := [1; 1; 5; 0; 0x34; 0x12; 0; 0] in
  m_request Meta.meta_io_read ∈ all_structs /\
  exists s, dump_substructure (m_request Meta.meta_io_read) 1 0 b = Ok s /\
    s = lit "@00   type: 101h" ++ [10] ++ lit "@02   fd: fd 5" ++ [10] ++
        lit "@04   nbytes: 1234h" ++ [10] ++ lit "@06   zero: 0" ++ [10] /\
    forall b', Forall is_byte b' -> length b' = 8%nat -> dump_substructure (m_request Meta.meta_io_read) 1 0 b' = Ok s -> b' = b.
Proof.
  intros b. assert (H : m_request Meta.meta_io_read ∈ all_structs).
  { unfold all_structs. apply elem_of_app. left. apply list_elem_of_fmap_2.
    unfold Meta.all_messages, Meta.io_list. cbn [app]. repeat first [apply list_elem_of_here|apply list_elem_of_further]. }
  split; [exact H|].
  destruct (dump_faithful (m_request Meta.meta_io_read) 1 b H eq_refl ltac:(repeat constructor; done) eq_refl) as (s & Es & Hs).
  exists s. split; [exact Es|]. split; [|exact Hs]. vm_compute in Es. injection Es as <-. reflexivity.
Defined.

(** ** Logging changes nothing *)

Section Log.
Context {K : Type} {FK : FdKernel K} {HK : HostKernel K}.

(** A computation that appends to the log and reads the emulator. *)
Definition logs {A} (m : L (K := K) A) : Prop :=
  forall o e, exists text r, m (o, e) = ((o ++ text, e), r).

Lemma logs_bind {A B} (m : L (K := K) A) (f : A -> L B) : logs m -> (forall a, logs (f a)) -> logs (m ≫= f).
Proof.
  intros Hm Hf o e. destruct (Hm o e) as (t1 & r1 & E1). unfold mbind, M_bind. rewrite E1. destruct r1 as [a|x].
  - destruct (Hf a (o ++ t1) e) as (t2 & r2 & E2). exists (t1 ++ t2), r2. etransitivity; [exact E2|]. by rewrite app_assoc.
  - by exists t1, (Throw x).
Qed.

Lemma logs_say s : logs (say s).
Proof. intros o e. by exists s, (Ok ()). Qed.
Lemma logs_ret {A} (a : A) : logs (mret a).
Proof. intros o e. exists [], (Ok a). by rewrite app_nil_r. Qed.
Lemma logs_throw {A} x : logs (throw x : L A).
Proof. intros o e. exists [], (Throw x). by rewrite app_nil_r. Qed.
Lemma logs_lift {A} (r : outcome A) : logs (lift r).
Proof. destruct r; [apply logs_ret|apply logs_throw]. Qed.
Lemma logs_read {A} (f : EmuState (World K) -> outcome A) : logs (act (e ← get; lift (f e))).
Proof. intros o e. exists [], (f e). rewrite app_nil_r. unfold act, get, mbind, M_bind. by destruct (f e). Qed.
Lemma logs_get : logs (act get).
Proof. intros o e. exists [], (Ok e). by rewrite app_nil_r. Qed.

Hint Resolve logs_bind logs_say logs_ret logs_throw logs_lift logs_get : logs.

Lemma dump_bytes_logs t bs : logs (dump_bytes t bs).
Proof. unfold dump_bytes. auto with logs. Qed.

Lemma dump_structure_logs t i : logs (dump_structure t i).
Proof. apply logs_bind; [apply logs_read|]. intros. apply dump_bytes_logs. Qed.
Lemma dump_structure_written_logs t i : logs (dump_structure_written t i).
Proof. apply logs_bind; [apply logs_read|]. intros. apply dump_bytes_logs. Qed.

Lemma dump_send_logs i : logs (dump_send i).
Proof.
  apply logs_bind; [apply logs_get|]. intros e. apply logs_bind; [|auto with logs].
  generalize (S (Z.to_nat (send_bytes (chunks_of (g_mem (e_guest e)) (m_send (m_msg i)))))) as fuel.
  intros fuel. generalize it_begin as it. induction fuel as [|fuel IH]; intros it; [apply logs_throw|].
  simpl. destruct (next _ _ _) as [s it']. destruct (FarSlice_is_empty s); auto with logs.
Qed.

Lemma find_meta_logs ty st : logs (find_meta ty st).
Proof. unfold find_meta. destruct (meta_list ty); auto with logs. Qed.

Lemma log_request_logs i t : logs (log_request i t).
Proof. destruct t as [t|]; [|apply dump_send_logs]. unfold log_request. auto using dump_structure_logs with logs. Qed.
Lemma log_reply_logs i t : logs (log_reply i t).
Proof. destruct t as [t|]; [|apply logs_ret]. unfold log_reply. auto using dump_structure_written_logs with logs. Qed.

(** C36. Whatever categories the log has enabled: the log is only appended to, and the
    emulator ends in the state it started in, when printing the request threw, or
    in the one the manager left.  Then the result is the manager's as well,
    unless printing the reply of a message that was handled threw.  A category
    that is off prints nothing and cannot throw. *)
Theorem log_harmless (receive : MsgContext -> H K unit) en i o e :
  let '((o', e'), r) := handle_msg_log receive en i (o, e) in
  let '(e1, r1) := handle_msg receive i e in
  (exists text, o' = o ++ text) /\
  (is_enabled MSG en = false -> is_enabled MSG_REPLY en = false -> o' = o) /\
  ((e', r) = (e1, r1) \/
   (is_enabled MSG en = true /\ e' = e /\ exists x, r = Throw x) \/
   (is_enabled MSG_REPLY en = true /\ e' = e1 /\ r1 = Ok () /\ exists x, r = Throw x)).
Proof.
  destruct (read_type i s_header e) as [e0 r0] eqn:E0.
  assert (e0 = e) as ->.
  { unfold read_type, read_at, get, mbind, M_bind in E0. destruct (Msg.read _ _ _ _) in E0; by injection E0. }
  assert (Eh : handle_msg receive i e = match r0 with Ok _ => receive i e | Throw x => (e, Throw x) end).
  { unfold handle_msg, mbind, M_bind. rewrite E0. by destruct r0. }
  rewrite Eh. unfold handle_msg_log, mbind at 1, M_bind at 1, act at 1. rewrite E0.
  destruct r0 as [hdr|x]; [|split; [exists []; by rewrite app_nil_r|split; [by intros|by left]]].
  set (search := find_meta _ _). unfold mbind at 1, M_bind at 1.
  set (first := if is_enabled MSG en then _ else _).
  assert (Hfirst : logs first).
  { unfold first. destruct (is_enabled MSG en); [|apply logs_ret].
    apply logs_bind; [apply find_meta_logs|]. intros t. apply logs_bind; [apply log_request_logs|]. intros. apply logs_ret. }
  destruct (Hfirst o e) as (t1 & r1 & E1). rewrite E1.
  assert (Hoff : is_enabled MSG en = false -> t1 = [] /\ exists a, r1 = Ok a).
  { intros Hen. unfold first in E1. rewrite Hen in E1. injection E1 as Et <-. split; [|by eexists].
    apply (f_equal length) in Et. rewrite length_app in Et. destruct t1; [done|simpl in Et; lia]. }
  destruct r1 as [found|x].
  2: { destruct (receive i e) as [e2 r2]. split; [by exists t1|]. split; [intros Hen; destruct (Hoff Hen) as [_ [a Ha]]; discriminate|].
       right; left. split; [|split; [done|by exists x]]. destruct (is_enabled MSG en); [done|]. destruct (Hoff eq_refl) as [_ [a Ha]]. discriminate. }
  unfold mbind at 1, M_bind at 1, act at 1. destruct (receive i e) as [e2 [[]|x]] eqn:E2.
  2: { split; [by exists t1|]. split; [|by left]. intros Hen _. destruct (Hoff Hen) as [-> _]. by rewrite app_nil_r. }
  destruct (is_enabled MSG_REPLY en) eqn:Er.
  2: { split; [by exists t1|]. split; [|by left]. intros Hen _. destruct (Hoff Hen) as [-> _]. by rewrite app_nil_r. }
  set (second := match found with Some t => mret t | None => search end ≫= fun t => log_reply i t).
  assert (Hsecond : logs second).
  { apply logs_bind; [destruct found; [apply logs_ret|apply find_meta_logs]|]. intros t. apply log_reply_logs. }
  destruct (Hsecond (o ++ t1) e2) as (t2 & r2 & E3). fold second.
  assert (Hgoal : forall x, second (o ++ t1, e2) = x -> x = (((o ++ t1) ++ t2, e2), r2)) by (intros x <-; exact E3).
  match goal with |- context [second ?p] => destruct (second p) as [[o' e'] r] eqn:E4 end.
  apply Hgoal in E4. injection E4 as -> -> ->.
  split; [exists (t1 ++ t2); by rewrite app_assoc|]. split; [done|].
  destruct r2 as [[]|x]; [by left|]. right; right. split; [done|]. split; [done|]. split; [done|]. by exists x.
Qed.
End Log.

(** ** The description that is found *)

Lemma match_agrees ty st d m : agrees d m -> match_meta ty st d = match_msg ty st m.
Proof.
  intros (Ht & Hs & _). unfold match_meta, match_msg. rewrite Ht, Hs. by destruct (m_has_subtype d).
Qed.

Lemma find_agrees ty st ds ms : Forall2 agrees ds ms ->
  match find (match_meta ty st) ds, find_message ms ty st with
  | Some d, Some m => agrees d m | None, None => True | _, _ => False end.
Proof.
  unfold find_message. induction 1 as [|d m ds ms Hd _ IH]; [done|]. cbn [find]. rewrite (match_agrees ty st d m Hd).
  by destruct (match_msg ty st m).
Qed.

(** A message is dumped with the description of the structures its handler
    reads: the search by type and subtype in the descriptions and that in the
    messages find the same. *)
Theorem find_meta_agrees ty st :
  match (l ← meta_list ty; find (match_meta ty st) l), find_msg ty st with
  | Some d, Some m => agrees d m
  | None, None => True
  | _, _ => False
  end.
Proof.
  destruct descriptions_agree as (Hio & Hfs & Hdev & Hproc & _). unfold find_msg, meta_list, message_list.
  destruct (_ =? 0); [by apply find_agrees|]. destruct (_ =? 1); [by apply find_agrees|].
  destruct (_ =? 2); [by apply find_agrees|]. destruct (_ =? 3); [by apply find_agrees|]. done.
Qed.
