(* ===== verification/DebugDump.v ===== *)
(** * DebugDump: [GuestContext::dump], [Process::debug_dump_segments]

    What [qine] prints about the guest when it gives up on a fault: registers,
    code, stack, and what the magic area says of the process; and the list of
    the segments.  The text is the state of the computation, since a dump can
    throw on its way. *)

From S2P Require Import Prelude Types Memory IdMap PathMapper PidMap TerminalFilter FdMap Segment AddressSpace Sigset Msg GuestContext Emu Layout QnxMsg Magic Host MsgHandler Text.

Definition print (s : cstring) : M cstring unit := Prelude.modify (fun o => o ++ s).

(** ** The segments *)

Definition Access_int (a : Access) : Z :=
  match a with READ_WRITE => 0 | READ_ONLY => 1 | EXEC_READ => 2 | EXEC_ONLY => 3 | ACCESS_OTHER v => v end.

Definition descriptor_line (sd : Descriptor) (seg : Segment) : cstring :=
  lit "sel " ++ fmt_x 0 (mk_sel (sd_id sd)) ++ lit ": size " ++ fmt_x 4 (Segment.size seg) ++
  lit ", access " ++ fmt_x 0 (u32 (Access_int (sd_access sd))) ++ lit ", " ++
  fmt_x 8 (location seg) ++ lit "," ++ [10].

Definition print_descriptor (sp : Space) (sd : Descriptor) : M cstring unit :=
  match segs sp !! sd_seg sd with
  | None => throw (Undefined "segment")
  | Some seg => print (descriptor_line sd seg)
  end.

(** One round for each slot that can be used, and the last. *)
Fixpoint debug_dump_loop (fuel : nat) (sp : Space) (i : nat) : M cstring unit :=
  match fuel with
  | O => throw (Undefined "fuel")
  | S fuel =>
      match search (m_segment_descriptors sp) i true with
      | None => mret ()
      | Some i =>
          match at_ (m_segment_descriptors sp) i with
          | None => throw (Undefined "null descriptor")
          | Some sd => _ ← print_descriptor sp sd; debug_dump_loop fuel sp (S i)
          end
      end
  end.
Definition debug_dump_segments (sp : Space) : M cstring unit :=
  debug_dump_loop (S (length (m_data (m_segment_descriptors sp)))) sp 0.

(** ** The guest *)

Section Dump.
Context {K : Type}.

(** What [ndisasm] writes about the code from [eip], or why it is not run; what the
    signal context says of the fault; [m_magic_guest_pointer]. *)
Context (ndisasm : Z -> bool -> list Z -> cstring) (cr2 trapno err : Z) (magic_guest_pointer : FarPointer).

Definition hex (width : nat) (name : string) (v : Z) : cstring := lit name ++ lit ": " ++ fmt_X width (u32 v).

Definition dump_ip (e : EmuState (World K)) : outcome cstring :=
  let g := e_guest e in
  let ip := lit "ip " ++ fmt_x 0 (gr g CS) ++ lit ":" ++ fmt_x 0 (gr g EIP) in
  match translate_segmented (e_space e) (mkFarPointer (gr g CS) (gr g EIP)) 0 READ with
  | Ok linear => Ok (ip ++ lit ", linear 0x" ++ fmt_x 0 linear ++ [10])
  | Throw (GuestStateException what) => Ok (ip ++ lit ", " ++ lit what ++ [10])
  | Throw (SegmentationFault _) => Ok (ip ++ lit ", linear unavailable" ++ [10])
  | Throw x => Throw x
  end.

Definition dump_registers (g : Guest) : cstring :=
  hex 8 "EAX" (gr g EAX) ++ lit "  EBX: " ++ fmt_x 8 (gr g EBX) ++ lit "  " ++ hex 8 "ECX" (gr g ECX) ++
  lit "  " ++ hex 8 "EDX" (gr g EDX) ++ [10] ++
  lit "ESI: " ++ fmt_x 8 (gr g ESI) ++ lit "  " ++ hex 8 "EDI" (gr g EDI) ++ lit "  " ++ hex 8 "EBP" (gr g EBP) ++ [10] ++
  hex 8 "ESP" (gr g ESP) ++ lit "  " ++ hex 8 "EFL" (gr g EFLAGS) ++ lit "  " ++ hex 8 "EIP" (gr g EIP) ++ [10] ++
  hex 4 "CS" (gr g CS) ++ lit "  " ++ hex 4 "SS" (gr g SS) ++ lit "  " ++ hex 4 "DS" (gr g DS) ++
  lit "  " ++ hex 4 "ES" (gr g ES) ++ lit " " ++ hex 4 "FS" (gr g FS) ++ lit " " ++ hex 4 "GS" (gr g GS) ++ [10] ++
  hex 4 "CR2" cr2 ++ lit " " ++ hex 4 "TRAPNO" trapno ++ lit " " ++ hex 4 "ERR" err ++ [10].

(** A computation of the guest, which the dump leaves as it is. *)
Definition of_guest {A} (e : EmuState (World K)) (op : Translation -> M Guest A) : M cstring A :=
  lift (snd (op (space_translation (e_space e)) (e_guest e))).

Definition dump_code (e : EmuState (World K)) : M cstring unit :=
  let g := e_guest e in
  '(code_buf, code_size) ← of_guest e (fun _ => read_data_partial (e_space e) SegCS (gr g EIP) 50);
  print (ndisasm (gr g EIP) (bool_decide (m_bits e = B16)) (take (Z.to_nat code_size) code_buf)).

(** The words from the stack pointer. *)
Definition dump_word (e : EmuState (World K)) (i : nat) : M cstring unit :=
  let g := e_guest e in
  if g_b16 g then
    let addr := u32 (gr g ESP + Z.of_nat i * 2) in
    v ← of_guest e (fun T => GuestContext.read (T := T) 2 SegSS addr);
    print (fmt_X 4 addr ++ lit ": " ++ fmt_X 4 v ++ [10])
  else
    let addr := u32 (gr g ESP + Z.of_nat i * 4) in
    v ← of_guest e (fun T => GuestContext.read (T := T) 4 SegSS addr);
    print (fmt_X 8 addr ++ lit ": " ++ fmt_X 8 v ++ [10]).

Fixpoint dump_words (e : EmuState (World K)) (l : list nat) : M cstring unit :=
  match l with [] => mret () | i :: l => _ ← dump_word e i; dump_words e l end.

Definition dump_magic (e : EmuState (World K)) : M cstring unit :=
  match w_magic (e_world e) with
  | None => throw (Undefined "m_magic")
  | Some a =>
      let m := load (g_mem (e_guest e)) a (sizeof s_magic) in
      let user_ptr := mkFarPointer (Types.m_segment magic_guest_pointer) in
      cwd ← of_guest e (fun T => GuestContext.read_string (T := T) (user_ptr m[: s_magic ; "cwd" :]) 256);
      root ← of_guest e (fun T => GuestContext.read_string (T := T) (user_ptr m[: s_magic ; "root_prefix" :]) 256);
      print (lit "exec=" ++ qnx_path (w_executed_file (e_world e)) ++ [10] ++
             lit "cwd=" ++ cwd ++ lit ", root=" ++ root ++ lit ", pid=" ++ fmt_d m[: s_magic ; "my_pid" :] ++
             lit ", ppid=" ++ fmt_d m[: s_magic ; "dads_pid" :] ++ lit ", nid=" ++ fmt_d m[: s_magic ; "my_nid" :] ++ [10])
  end.

Definition dump (stack : nat) (e : EmuState (World K)) : M cstring unit :=
  ip ← lift (dump_ip e);
  _ ← print (ip ++ dump_registers (e_guest e) ++ lit "-- code --" ++ [10]);
  _ ← dump_code e;
  _ ← print (lit "-- stack --" ++ [10]);
  _ ← dump_words e (seq 0 (if (stack =? 0)%nat then 16 else stack));
  if g_b16 (e_guest e) then mret () else _ ← print (lit "-- magic --" ++ [10]); dump_magic e.
End Dump.

(** What the operating system says of a fault, and what [ndisasm] makes of the code. *)
Record Fault := mkFault {
  f_ndisasm : Z -> bool -> list Z -> cstring;
  f_cr2 : Z;
  f_trapno : Z;
  f_err : Z;
  f_magic_guest_pointer : FarPointer
}.

(** What [ctx.dump(stderr)] raises: the default is 16 words of the stack. *)
Definition dumped {K} (f : Fault) (e : EmuState (World K)) : outcome unit :=
  snd (dump (f_ndisasm f) (f_cr2 f) (f_trapno f) (f_err f) (f_magic_guest_pointer f) 0 e []).

(** ** Properties *)

(** The line of a descriptor of the space. *)
Definition space_line (sp : Space) (sd : Descriptor) : cstring :=
  match segs sp !! sd_seg sd with Some seg => descriptor_line sd seg | None => [] end.

Lemma omap_gap (m : IdMap Descriptor) k : forall i, (i <= k)%nat ->
  (forall j, (i <= j < k)%nat -> at_ m j = None) ->
  omap id (drop i (m_data m)) = omap id (drop k (m_data m)).
Proof.
  intros i Hle. induction Hle as [|k Hle IH]; intros Hn; [done|]. rewrite IH by (intros j Hj; apply Hn; lia).
  specialize (Hn k ltac:(lia)). unfold at_ in Hn. destruct (m_data m !! k) as [o|] eqn:E.
  - rewrite (drop_S _ _ _ E). simpl in Hn. by subst o.
  - apply lookup_ge_None in E. by rewrite !drop_ge by lia.
Qed.

(** The list of the segments ends, and has one line for each descriptor in use, in
    the order of their ids. *)
Theorem debug_dump_spec sp o :
  wf_space sp ->
  debug_dump_segments sp o =
    (o ++ concat (space_line sp <$> omap id (m_data (m_segment_descriptors sp))), Ok ()).
Proof.
  intros (_ & _ & _ & _ & Hsd). unfold debug_dump_segments. set (m := m_segment_descriptors sp) in *.
  assert (H : forall fuel i o, (length (m_data m) - i < fuel)%nat ->
    debug_dump_loop fuel sp i o = (o ++ concat (space_line sp <$> omap id (drop i (m_data m))), Ok ())).
  2: { rewrite H by lia. done. }
  induction fuel as [|fuel IH]; intros i o' Hf; [lia|]. simpl. fold m. destruct (search m i true) as [k|] eqn:Es.
  - apply search_Some in Es as (Hle & Hk & Hgap & _).
    assert (Hnone : forall j, (i <= j < k)%nat -> at_ m j = None).
    { intros j Hj. apply Hgap in Hj. unfold slot_is in Hj. rewrite abs_lookup in Hj. destruct (at_ m j); [|done]. by destruct Hj. }
    unfold slot_is in Hk. rewrite abs_lookup in Hk. destruct (at_ m k) as [sd|] eqn:Ek; [|done]. pose proof (Hsd k sd Ek) as (_ & seg & Eseg).
    rewrite (omap_gap m k i Hle Hnone). unfold at_ in Ek. destruct (m_data m !! k) as [x|] eqn:El; [|done].
    simpl in Ek. subst x. rewrite (drop_S _ _ _ El). cbn. unfold space_line at 1. rewrite Eseg.
    unfold print_descriptor. rewrite Eseg. unfold mbind, M_bind, print, Prelude.modify.
    rewrite IH by (apply lookup_lt_Some in El; lia). by rewrite app_assoc.
  - rewrite (omap_gap m (length (m_data m) `max` i) i ltac:(lia)).
    2: { intros j Hj. pose proof (search_None m i true Es j ltac:(lia) ltac:(done)) as Hn.
         unfold slot_is in Hn. rewrite abs_lookup in Hn. destruct (at_ m j); [by destruct Hn|done]. }
    rewrite drop_ge by lia. by rewrite app_nil_r.
Qed.

Lemma debug_dump_spec_witness :
  wf_space demo_space /\
  debug_dump_segments demo_space [] = (lit "sel 7: size 0064, access 0, 04000000," ++ [10], Ok ()).
Proof. split; [exact wf_demo_space|]. rewrite (debug_dump_spec demo_space [] wf_demo_space). vm_compute. reflexivity. Defined.
