(* ===== verification/Demo.v ===== *)
(** * Demo: a process and a host to evaluate the handlers on

    One segment with one mapped page holds the request, the reply's buffer and
    the guest's stack; the host answers every call from a script.  The theorems
    about messages are instantiated here. *)

From S2P Require Import Prelude Types Memory IdMap PathMapper PidMap TerminalFilter FdMap Segment AddressSpace Sigset Msg Errno GuestContext Emu Layout QnxMsg Host MsgHandler Descriptors Exchange.

(** The number and the bytes in all answers, and [errno]. *)
Record Script := mkScript { sc_n : Z; sc_bs : list Z; sc_errno : Z }.

Definition demo_stat : HostStat := mkHostStat 5 77 0x81a4 2 1000 100 0 4096 11 12 13.
Definition demo_termios : HostTermios := mkHostTermios 0x500 0x5 0xbf 0x803b (seqZ 1 32) 15 15.

Definition answer {A} (c : Sys A) (n : Z) (bs : list Z) : A :=
  match c with
  | SClockGettime => (n, (n, n)) | SNanosleep _ _ => (n, (n, n)) | SAlarm _ => n | SGetpid => n
  | SGetpgrp => n | SGetpgid _ => n | SGetsid _ => n | SSetsid => n | SSetpgid _ _ => n
  | SGetuid => n | SGeteuid => n | SGetgid => n | SGetegid => n | SFork => n
  | SWaitpid _ _ => (n, n) | SExecve _ _ _ => false | SAccess _ _ => n | SChdir _ => n
  | SOpen _ _ _ => n | SStat _ => (n, demo_stat)
  | SLstat _ => (n, demo_stat) | SReadlink _ _ => (Z.min n 4096, bs)
  | SRealpath _ => Some bs | SRename _ _ => n | SLink _ _ => n | SSymlink _ _ => n
  | SUnlink _ => n | SRmdir _ => n | SMkdir _ _ => n | SMtab => Some [bs] | SSync => ()
  | SFstat _ => (n, demo_stat) | SFstatvfs _ => (n, mkStatvfs 0 0)
  | SLseek _ _ _ => n | SFtruncate _ _ => n | SFsync _ => n | SFdatasync _ => n
  | SReadv _ _ => (n, bs) | SWritev _ _ => n | SReaddir _ => Some bs | SRewinddir _ => ()
  | SFpathconf _ _ => n | SFchmod _ _ => n | SFchown _ _ _ => n | SFutimens _ _ => n | SPipe => (n, (n, n + 1))
  | SGetfl _ => n | SSetflNoArg _ => n | SSetfd _ _ => n | SLock _ _ _ => (n, mkFlock 0 0 0 0 0)
  | STtyname _ _ => (n, bs) | SCtermid => bs
  | STcgetattr _ => (n, demo_termios) | STcsetattr _ _ _ => n
  | STcgetpgrp _ => n | STcsetpgrp _ _ => n | STcgetsid _ => n | STcflush _ _ => n
  | STcdrain _ => n | SGetWinsize _ => (n, mkWinsize 25 80 0 0) | SSetWinsize _ _ => n
  | STiocsti _ _ => n | SMonotonic => (n, n) | SFilterPasses _ => []
  end.

#[export] Instance script_fds : FdKernel Script := {|
  k_dup fd k := (k, -1);
  k_dup2 old new k := (k, if old =? sc_n k then -1 else new);
  k_close fd k := (k, 0);
  k_closedir fd k := (k, 0);
  k_fdopendir fd k := (k, true);
  k_set_cloexec fd k := (k, 0);
  k_errno := sc_errno;
  k_file k fd := Some 0%nat |}.

#[export] Instance script_host : HostKernel Script := {|
  sys A c k := (k, answer c (sc_n k) (sc_bs k));
  set_errno v k := mkScript (sc_n k) (sc_bs k) v |}.

#[export] Instance script_laws : DescriptorLaws Script.
Proof.
  constructor.
  - constructor.
    + intros old new k k' r [= <- <-]. destruct (old =? sc_n k); [by left|right]. split; [done|]. intros fd. by case_decide.
    + by intros fd0 k k' r [= <- <-].
    + by intros fd k k' r [= <- <-].
  - intros old k k' r [= <- <-]. by left.
  - by intros fd k k' r [= <- <-] _.
  - intros k k' r p0 p1 [= <- <- <- <-] Hn. repeat split; done || lia.
Qed.

Definition demo_world (fds : FdMap) (k : Script) : World Script :=
  mkWorld fds demo_mapper 500 (Some (2 ^ 26 + 3000)) 23 PathInfo_new [] k.

(** The request lies at the start of the segment. *)
Definition demo_proc (fds : FdMap) (k : Script) (request : list Z) : EmuState (World Script) :=
  mkEmu (set_gmem (store ∅ (2 ^ 26) request) demo_guest) demo_space 0 0 ∅ (Some (2 ^ 26 + 3500)) B32 15
    demo_pids 500 0 [] (demo_world fds k).

(** The request's buffer takes 512 bytes, the reply's 1024 from offset 1024. *)
Definition demo_ctx : MsgContext :=
  mkMsgContext true 3 (mkMsg (Translated [mkChunk 0 7 512]) (Translated [mkChunk 1024 7 1024])).

Definition demo_fds : FdMap :=
  mkIdMap 16 [None; None; None; Some (opened 3 (QnxFd_new 3 1 1 5 2))].

Lemma demo_tidy : tidy demo_fds.
Proof.
  split; [unfold IdMap.wf; simpl; lia|]. split; [simpl; lia|].
  intros [|[|[|[|i]]]] f; try done. by intros [= <-].
Qed.

Lemma demo_can_ask fds k bs : can_ask (demo_proc fds k bs) demo_ctx.
Proof.
  split; [exact wf_demo_space|]. split; [|vm_compute; reflexivity].
  apply Forall_singleton. repeat split; try (vm_compute; discriminate). intros _. eexists. reflexivity.
Qed.

Lemma demo_can_reply fds k bs : can_reply (demo_proc fds k bs) demo_ctx.
Proof.
  split; [exact wf_demo_space|]. split; [|by intros m' _]. split; [|vm_compute; reflexivity].
  apply Forall_singleton. repeat split; try (vm_compute; discriminate). intros _. eexists. reflexivity.
Qed.

#[export] Hint Resolve demo_can_ask demo_can_reply : core.

(** A message that asks for a segment of 5000 bytes. *)
Definition demo_alloc : list Z :=
  (clear s_segment_request)[: s_segment_request ; "type" <- 9 :]
    [: s_segment_request ; "subtype" <- 1 :][: s_segment_request ; "nbytes" <- 5000 :].
