(* ===== verification/Isolation.v ===== *)
(** * Isolation: every handler stays in the sandbox

    Each handler of each kind of message, and [receive] itself, is taken apart
    into the operations of [Sandbox]. *)

From S2P Require Import Prelude Types Memory IdMap PathMapper PidMap TerminalFilter FdMap Segment AddressSpace Sigset Msg Errno GuestContext Emu Layout QnxMsg Host MsgHandler ProcHandler IoHandler TermHandler MainHandler Descriptors Sandbox Exchange Demo.

Tactic Notation "handler" reference(h) := unfold h; keeps.

Section Handlers.
#[local] Set Default Proof Using "L Type".
Context {K : Type} {FK : FdKernel K} {HK : HostKernel K} {L : DescriptorLaws K}.
Context (mmap : Z -> Z -> Z -> Z -> option Z) (Hmmap : mmap_law mmap).
Context (modify_ldt : user_desc -> bool) (sigaction : Z -> SigHandler -> Z).
Context (garbage_read : Z) (uninit : nat -> Z).
Notation St := (EmuState (World K)).
Notation ok := (keeps (evolves (K := K) garbage_read)).

(** ** The process manager *)

Lemma proc_terminate_ok i : ok (proc_terminate i).
Proof. handler proc_terminate. Qed.
Lemma proc_time_ok i : ok (proc_time i).
Proof. handler proc_time. Qed.
Lemma setpgid_arg_ok p : ok (setpgid_arg p).
Proof. handler setpgid_arg. Qed.
Hint Resolve setpgid_arg_ok : keeps.
Lemma proc_setpgid_ok i : ok (proc_setpgid i).
Proof. handler proc_setpgid. Qed.
Lemma proc_fd_attach_ok i : ok (proc_fd_attach i).
Proof. handler proc_fd_attach. Qed.
Lemma proc_fd_detach_ok i : ok (proc_fd_detach i).
Proof. handler proc_fd_detach. Qed.
Lemma proc_fd_query_ok i : ok (proc_fd_query i).
Proof. handler proc_fd_query. Qed.
Lemma proc_fd_setfd_ok i : ok (proc_fd_setfd i).
Proof. handler proc_fd_setfd. Qed.
Lemma proc_slib_register_ok i : ok (proc_slib_register i).
Proof. handler proc_slib_register. Qed.

(** ** Segments *)

Lemma seg_ok {A} r (op : M Segment A) : keeps segment_grows op -> ok (on_space (space_seg r op)).
Proof. intros H. by apply on_space_ok, space_seg_grows. Qed.

Lemma the_segment_wf r (e e' : St) s : sane e -> the_segment r e = (e', Ok s) -> Segment.wf s.
Proof.
  intros [[H _] _]. unfold the_segment, mbind, M_bind, get. destruct (segs (e_space e) !! r) as [s'|] eqn:E.
  - intros [= <- <-]. by eapply H.
  - done.
Qed.

Lemma no_descriptor_ok i : ok (no_descriptor i).
Proof. handler no_descriptor. Qed.
Hint Resolve no_descriptor_ok : keeps.

Lemma proc_segment_alloc_ok i : ok (proc_segment_alloc mmap modify_ldt i).
Proof using L Hmmap.
  unfold proc_segment_alloc. apply keeps_bind; [apply _|apply read_type_ok|]. intros msg.
  apply keeps_bind; [apply _|apply on_space_ok, allocate_segment_grows|]. intros seg.
  apply keeps_bind; [apply _|apply seg_ok, reserve_grows; [exact Hmmap|done]|]. intros _.
  apply keeps_bind; [apply _|apply keeps_get, _|]. intros e. cbv zeta.
  assert (Hn : 0 <= msg[: s_segment_request ; "nbytes" :] < 2 ^ 32) by exact (fld_range s_segment_request "nbytes" eq_refl _ _ 4 eq_refl).
  apply keeps_bind; [apply _|apply seg_ok, grow_bytes_grows|intros; keeps].
  destruct (m_bits e); [lia|]. change 0x1FFFF with (Z.ones 17). rewrite (Z.land_ones _ 17) by lia. pose proof (Z.mod_pos_bound msg[: s_segment_request ; "nbytes" :] (2 ^ 17)). lia.
Qed.

Lemma proc_segment_realloc_ok i : ok (proc_segment_realloc mmap modify_ldt i).
Proof using L Hmmap.
  unfold proc_segment_realloc. apply keeps_bind; [apply _|apply read_type_ok|]. intros msg.
  apply keeps_bind; [apply _|apply keeps_get, _|]. intros e.
  destruct (descriptor_by_selector _ _) as [sd|]; [|keeps].
  apply (keeps_evolves_bind garbage_read Segment.wf); [apply the_segment_ok|apply the_segment_wf|].
  intros s Hs. destruct (is_shared s); [keeps|]. cbv zeta.
  assert (Hn : 0 <= msg[: s_segment_request ; "nbytes" :] < 2 ^ 32) by exact (fld_range s_segment_request "nbytes" eq_refl _ _ 4 eq_refl).
  apply keeps_bind; [apply _| |intros; keeps].
  destruct (Z.ltb_spec (size s) msg[: s_segment_request ; "nbytes" :]); [|keeps].
  apply keeps_bind; [apply _| |intros; keeps].
  apply seg_ok, grow_bytes_grows. destruct Hs. unfold size in *. lia.
Qed.

Lemma proc_segment_free_ok i : ok (proc_segment_free i).
Proof. handler proc_segment_free. Qed.

Lemma proc_segment_flags_ok i : ok (proc_segment_flags modify_ldt i).
Proof. handler proc_segment_flags. Qed.
Lemma proc_segment_arm_ok i : ok (proc_segment_arm i).
Proof. handler proc_segment_arm. Qed.
Lemma proc_segment_put_ok i : ok (proc_segment_put i).
Proof. handler proc_segment_put. Qed.
Lemma proc_segment_priv_ok i : ok (proc_segment_priv i).
Proof. handler proc_segment_priv. Qed.

(** ** Names and sessions *)

Lemma proc_name_attach_ok i : ok (proc_name_attach i).
Proof. handler proc_name_attach. Qed.
Lemma proc_open_ok i : ok (proc_open i).
Proof. handler proc_open. Qed.
Lemma proc_vc_attach_ok i : ok (proc_vc_attach i).
Proof. handler proc_vc_attach. Qed.
Lemma proc_vc_detach_ok i : ok (proc_vc_detach i).
Proof. handler proc_vc_detach. Qed.
Lemma proc_prefix_ok i : ok (proc_prefix i).
Proof. handler proc_prefix. Qed.
Lemma proc_sid_query_ok i : ok (proc_sid_query i).
Proof. handler proc_sid_query. Qed.
Lemma proc_sid_set_ok i : ok (proc_sid_set i).
Proof. handler proc_sid_set. Qed.
Lemma proc_psinfo_ok i : ok (proc_psinfo i).
Proof. handler proc_psinfo. Qed.
Lemma proc_getid_ok i : ok (proc_getid i).
Proof. handler proc_getid. Qed.
Lemma proc_osinfo_ok i : ok (proc_osinfo i).
Proof. handler proc_osinfo. Qed.

(** ** Signals *)

(** The fields outside the invariant. *)
Lemma evolves_same (e e' : St) :
  e_guest e' = e_guest e -> e_space e' = e_space e -> m_sigtab e' = m_sigtab e -> e_world e' = e_world e ->
  m_time_segment e' = m_time_segment e -> evolves garbage_read e e'.
Proof using Type.
  intros H1 H2 H3 H4 H5 He. unfold evolves, lasts, sane, pointers_ok in *. rewrite H1, H2, H3, H4, H5.
  split; [done|]. by split_and!.
Qed.

Lemma signal_raise_ok s : ok (signal_raise s).
Proof using Type.
  unfold signal_raise. intros e e' r. unfold mbind, M_bind, get, lift, put.
  destruct (set_qnx_sig _ _); intros [= <- _]; [by apply evolves_same|done].
Qed.

Lemma signal_mask_ok c b : ok (signal_mask c b).
Proof using Type. apply keeps_modify. intros e. by apply evolves_same. Qed.

Lemma host_call_ok c : ok (host_call c).
Proof using Type. apply keeps_modify. intros e. by apply evolves_same. Qed.
Hint Resolve signal_raise_ok signal_mask_ok host_call_ok : keeps.

Lemma host_store_evolves a n bs (e e' : St) r :
  guest_range (e_space e) a n -> Z.of_nat (length bs) <= n -> host_store a bs e = (e', r) ->
  evolves garbage_read e e'.
Proof using Type. intros Ha Hn [= <- _]. apply evolves_memory. by eapply store_guest. Qed.

Lemma set_action_ok sig h mask : ok (set_action sig h mask).
Proof.
  intros e e' r Hrun He. pose proof (proj1 (proj2 (proj2 He))) as Hp. revert Hrun He.
  destruct ((Sigset.Qnx.QSIGMIN <=? sig) && (sig <=? Sigset.Qnx.QSIGMAX)) eqn:Es.
  2: { unfold set_action, qnx_sigtab, mbind, M_bind, lift. rewrite Es. intros [= <- _]. by apply evolves_same. }
  destruct (m_sigtab e) as [t|] eqn:Et.
  2: { unfold set_action, qnx_sigtab, mbind, M_bind, lift, get. rewrite Es. cbn. rewrite Et. intros [= <- _]. by apply evolves_same. }
  to_prop. rewrite (set_action_run _ _ _ _ _ Et) by (unfold sig_ok; lia). intros [= <- _].
  apply evolves_memory. intros x Hx _.
  apply store_action_spec. unfold action_at, sizeof_sigaction, Sigset.Qnx.QSIGMIN, Sigset.Qnx.QSIGMAX in *.
  destruct (Z.le_gt_cases t x), (Z.lt_ge_cases x (t + 324)); try lia.
  exfalso. apply Hx. replace x with (t + (x - t)) by lia. apply (Hp _ eq_refl).
  unfold sizeof_sigtab, sizeof_sigaction. lia.
Qed.

Lemma signal_sigact_ok sig h mask : ok (signal_sigact sigaction sig h mask).
Proof.
  unfold signal_sigact. cbv zeta. destruct (_ =? _).
  - intros e e' r. unfold mbind, M_bind, get, lift, put.
    destruct (set_qnx_sig _ _); intros [= <- _]; [by apply evolves_same|done].
  - pose proof set_action_ok. keeps.
Qed.
Hint Resolve signal_sigact_ok : keeps.

Lemma proc_sigtab_ok i : ok (proc_sigtab i).
Proof.
  unfold proc_sigtab. apply keeps_bind; [apply _|keeps|]. intros msg e e' r.
  unfold mbind, M_bind, get, lift. destruct (translate_segmented _ _ _ _) as [t|] eqn:Et; [|by intros [= <- _]].
  change (write_status i Errno.Qnx.QEOK (set_sigtab (Some t) e) = (e', r) -> evolves garbage_read e e').
  intros Hrun. etrans; [|exact (write_status_ok _ _ _ _ _ _ Hrun)]. intros He.
  apply translate_guest in Et; [|apply He| |done].
  - split; [|by split_and!]. destruct He as (H1 & H2 & H3 & H4).
    split; [done|]. split; [done|]. split; [by intros ? [= <-]|done].
  - pose proof (fld_range s_signal_request "offset" eq_refl msg _ 4 eq_refl). simpl in *. lia.
Qed.

Lemma proc_sigact_ok i : ok (proc_sigact sigaction i).
Proof. handler proc_sigact. Qed.
Lemma proc_sigraise_ok i : ok (proc_sigraise i).
Proof. handler proc_sigraise. Qed.
Lemma proc_sigmask_ok i : ok (proc_sigmask i).
Proof. handler proc_sigmask. Qed.
Lemma proc_sem_init_ok i : ok (proc_sem_init i).
Proof. handler proc_sem_init. Qed.
Lemma proc_sem_destroy_ok i : ok (proc_sem_destroy i).
Proof. handler proc_sem_destroy. Qed.
Lemma proc_timer_create_ok i : ok (proc_timer_create i).
Proof. handler proc_timer_create. Qed.
Lemma proc_timer_settime_ok i : ok (proc_timer_settime i).
Proof. handler proc_timer_settime. Qed.
Lemma proc_timer_alarm_ok i : ok (proc_timer_alarm i).
Proof. handler proc_timer_alarm. Qed.

(** ** Processes *)

Lemma wait_code_ok p : ok (wait_code p).
Proof. handler wait_code. Qed.
Lemma reap_ok p : ok (reap p).
Proof. handler reap. Qed.
Hint Resolve wait_code_ok reap_ok : keeps.
Lemma proc_wait_ok i : ok (proc_wait i).
Proof. handler proc_wait. Qed.

Lemma filter_cwd_ok n : forall envp, (length envp <= n)%nat -> ok (filter_cwd envp).
Proof.
  induction n as [|n IH]; intros [|v envp] Hn; simpl in *; try lia; try apply keeps_ret, _.
  destruct (starts_with _ _).
  - apply keeps_bind; [apply _|keeps|]. intros cwd. apply keeps_bind; [apply _|keeps|]. intros _.
    destruct envp as [|v' envp]; [keeps|]. apply keeps_bind; [apply _|apply IH; simpl in *; lia|keeps].
  - apply keeps_bind; [apply _|apply IH; lia|keeps].
Qed.

Lemma redirect_ok l : forall fdi, ok (redirect l fdi).
Proof.
  induction l as [|fd l IH]; intros fdi; [apply keeps_ret, _|]. cbn [redirect].
  apply keeps_bind; [apply _| |intros _; apply IH]. destruct (fd =? 255); [keeps|].
  apply keeps_bind; [apply _| |keeps]. destruct (fd =? fdi); [keeps|].
  apply keeps_bind; [apply _|keeps|]. intros from. apply keeps_modify. intros e. apply set_k_evolves.
Qed.

Lemma exec_host_ok p a : ok (exec_host p a).
Proof. pose proof (fun l => filter_cwd_ok _ l (le_n _)). handler exec_host. Qed.
Hint Resolve redirect_ok exec_host_ok : keeps.

Lemma proc_exec_common_ok i : ok (proc_exec_common i).
Proof. handler proc_exec_common. Qed.
Hint Resolve proc_exec_common_ok : keeps.
Lemma proc_exec_ok i : ok (proc_exec i).
Proof. handler proc_exec. Qed.

(** Steps that keep the magic area at [a] as well. *)
Definition magic_stays (a : Z) (e e' : St) : Prop :=
  w_magic (e_world e) = Some a -> evolves garbage_read e e' /\ w_magic (e_world e') = Some a.

Instance magic_stays_pre a : PreOrder (magic_stays a).
Proof.
  split; [by intros e He|]. intros e1 e2 e3 H12 H23 H1. destruct (H12 H1) as [H2 H3].
  destruct (H23 H3) as [H4 H5]. split; [by etrans|done].
Qed.

Lemma magic_store_stays a o bs :
  0 <= o -> o + Z.of_nat (length bs) <= 12 -> keeps (magic_stays a) (host_store (a + o) bs).
Proof.
  intros Ho Hn e e' r Hrun Ha. split; [|by injection Hrun as <- _].
  intros He. refine (host_store_evolves _ (Z.of_nat (length bs)) _ _ _ _ _ _ Hrun He); [|lia].
  apply (guest_range_part _ a 12); [|lia|lia]. by apply He.
Qed.

Lemma proc_pid_stays a : keeps (magic_stays a) proc_pid.
Proof. handler proc_pid. Qed.
Lemma proc_parent_pid_stays a : keeps (magic_stays a) proc_parent_pid.
Proof. handler proc_parent_pid. Qed.

Lemma magic_ptr_ok {A} (f : Z -> H K A) :
  (forall a, keeps (magic_stays a) (f a)) -> ok (a ← magic_ptr; f a).
Proof.
  intros Hf e e' r. unfold mbind, M_bind. destruct (magic_ptr e) as [e1 o] eqn:E. revert E.
  unfold magic_ptr, world, gets, mbind, M_bind.
  destruct (w_magic (e_world e)) as [a|] eqn:Ea; intros [= <- <-]; [|by intros [= <- _]].
  intros Hrun. by apply (Hf a _ _ _ Hrun).
Qed.

Lemma update_pids_ok p : ok (update_pids_after_fork p).
Proof.
  unfold update_pids_after_fork. apply keeps_bind; [apply _| |intros _].
  { apply keeps_modify. intros e. by apply evolves_world. }
  apply keeps_bind; [apply _|keeps|]. intros [my|]; [|keeps].
  apply keeps_bind; [apply _| |intros _].
  { apply keeps_modify. intros e. by apply evolves_same. }
  apply magic_ptr_ok. intros a.
  apply keeps_bind; [apply _|apply proc_pid_stays|]. intros q.
  replace (host_store a) with (host_store (W := World K) (a + 0)) by (f_equal; lia).
  apply keeps_bind; [apply _|apply magic_store_stays; simpl; lia|]. intros _.
  apply keeps_bind; [apply _|apply proc_parent_pid_stays|]. intros dad.
  apply keeps_bind; [apply _|apply magic_store_stays; simpl; lia|]. intros _.
  apply magic_store_stays; simpl; lia.
Qed.

Lemma child_pid_ok p : ok (child_pid p).
Proof. handler child_pid. Qed.
Hint Resolve child_pid_ok update_pids_ok : keeps.

Lemma proc_fork_ok i : ok (proc_fork i).
Proof. handler proc_fork. Qed.
Lemma proc_spawn_ok i : ok (proc_spawn i).
Proof. handler proc_spawn. Qed.

(** ** Files *)

Lemma readlink_loop_ok fuel p : forall size dst, ok (readlink_loop fuel p size dst).
Proof.
  induction fuel as [|fuel IH]; intros size dst; [apply keeps_throw, _|]. cbn [readlink_loop]. keeps.
Qed.
Lemma readlink_ok p : ok (readlink p).
Proof. apply readlink_loop_ok. Qed.
Lemma realpath_ok p : ok (realpath p).
Proof. handler realpath. Qed.
Lemma ttyname_ok fd : ok (ttyname fd).
Proof. handler ttyname. Qed.
Lemma resolve_fd_path_ok fdi : ok (resolve_fd_path fdi).
Proof. handler resolve_fd_path. Qed.
Hint Resolve readlink_ok realpath_ok ttyname_ok resolve_fd_path_ok : keeps.

Lemma assign_fd_ok fdi tmp : ok (on_fd fdi (assign_fd tmp)).
Proof. apply on_fd_ok, orderly_assign_fd. Qed.
Hint Resolve assign_fd_ok : keeps.

Lemma open_into_ok i fdi tmp : ok (open_into i fdi tmp).
Proof.
  unfold open_into. apply keeps_bind; [apply _|keeps|]. intros f. apply scoped_ok. keeps.
Qed.
Hint Resolve open_into_ok : keeps.

Lemma io_open_ok i : ok (io_open i).
Proof. handler io_open. Qed.
Lemma io_chdir_ok i : ok (io_chdir i).
Proof. handler io_chdir. Qed.
Lemma io_rename_ok i : ok (io_rename i).
Proof. handler io_rename. Qed.
Lemma io_close_ok i : ok (io_close i).
Proof. handler io_close. Qed.

Lemma io_dup2_ok {A} x y (f : Z -> H K A) :
  (forall n, ok (f n)) ->
  ok (e ← get; let '(k, n) := k_dup2 x y (kern e) in _ ← put (set_k k e); f n).
Proof.
  intros Hf e e' r. unfold mbind, M_bind, get, put. destruct (k_dup2 _ _ _) as [k n].
  intros Hrun. etrans; [apply (set_k_evolves _ k)|]. exact (Hf _ _ _ _ Hrun).
Qed.

Lemma io_dup_ok i : ok (io_dup i).
Proof.
  unfold io_dup. apply keeps_bind; [apply _|keeps|]. intros msg. cbv zeta.
  assert (Hd : 0 <= msg[: request msg_io_dup ; "dst_fd" :])
    by apply (fld_range (request msg_io_dup) "dst_fd" eq_refl _ _ 2 eq_refl).
  apply steady_host_fd in Hd. do 4 (apply keeps_bind; [apply _|keeps|]; intros ?).
  apply io_dup2_ok. intros n. destruct (negb _); [keeps|]. apply scoped_ok. keeps.
Qed.

Lemma io_stat_ok i : ok (io_stat i).
Proof. handler io_stat. Qed.
Lemma io_fstat_ok i : ok (io_fstat i).
Proof. handler io_fstat. Qed.

Lemma readdir_loop_ok n : forall i fd off ndirs buf, ok (readdir_loop n i fd off ndirs buf).
Proof.
  induction n as [|n IH]; intros i fd off ndirs buf; [apply keeps_ret, _|]. cbn [readdir_loop]. keeps.
Qed.
Hint Resolve readdir_loop_ok : keeps.
Lemma io_readdir_ok i : ok (io_readdir uninit i).
Proof. handler io_readdir. Qed.
Lemma io_rewinddir_ok i : ok (io_rewinddir i).
Proof. handler io_rewinddir. Qed.

Lemma filter_now_ok ts : ok (filter_now ts).
Proof. handler filter_now. Qed.
Hint Resolve filter_now_ok : keeps.

Lemma io_read_filtered_ok i fdi fd fl n : ok (io_read_filtered i fdi fd fl n).
Proof. handler io_read_filtered. Qed.

Lemma map_fd_result fd (e : St) : exists h, map_fd fd e = (e, h).
Proof. eexists. reflexivity. Qed.

Lemma io_read_ok i : ok (io_read garbage_read uninit i).
Proof.
  unfold io_read. apply keeps_bind; [apply _|keeps|]. intros msg. cbv zeta.
  apply keeps_bind; [apply _|keeps|]. intros fd.
  destruct (m_filter fd); [apply io_read_filtered_ok|].
  apply read_into_ok; [apply map_fd_result|]. intros r. keeps.
Qed.

Lemma io_write_ok i : ok (io_write garbage_read uninit i).
Proof. handler io_write. Qed.
Lemma io_lseek_ok i : ok (io_lseek i).
Proof. handler io_lseek. Qed.
Lemma io_qioctl_ok i : ok (io_qioctl uninit i).
Proof. handler io_qioctl. Qed.
Lemma io_ioctl_ok i : ok (io_ioctl i).
Proof. handler io_ioctl. Qed.
Lemma io_lock_ok i : ok (io_lock i).
Proof. handler io_lock. Qed.
Lemma io_fcntl_flags_ok i : ok (io_fcntl_flags i).
Proof. handler io_fcntl_flags. Qed.
Lemma io_fpathconf_ok i : ok (io_fpathconf i).
Proof. handler io_fpathconf. Qed.
Lemma io_chmod_ok i : ok (io_chmod i).
Proof. handler io_chmod. Qed.
Lemma io_chown_ok i : ok (io_chown i).
Proof. handler io_chown. Qed.
Lemma io_utime_ok i : ok (io_utime i).
Proof. handler io_utime. Qed.

(** ** File systems *)

Lemma fsys_unlink_ok i : ok (fsys_unlink i).
Proof. handler fsys_unlink. Qed.
Lemma fsys_mkspecial_ok i : ok (fsys_mkspecial i).
Proof. handler fsys_mkspecial. Qed.
Lemma fsys_readlink_ok i : ok (fsys_readlink i).
Proof. handler fsys_readlink. Qed.
Lemma fsys_link_ok i : ok (fsys_link i).
Proof. handler fsys_link. Qed.
Lemma fsys_sync_ok i : ok (fsys_sync i).
Proof. handler fsys_sync. Qed.
Lemma fsys_trunc_ok i : ok (fsys_trunc i).
Proof. handler fsys_trunc. Qed.
Lemma fsys_fsync_ok i : ok (fsys_fsync i).
Proof. handler fsys_fsync. Qed.

(** The two descriptors of a pipe, in the slots they were taken from. *)
Lemma assign_pipe_evolves s0 s1 a b p0 p1 (e e' : St) r :
  at_ (w_fds (e_world e)) (Z.to_nat s0) = Some a -> at_ (w_fds (e_world e)) (Z.to_nat s1) = Some b ->
  0 <= p0 -> p0 <> p1 -> is_Some (k_file (kern e) p0) -> is_Some (k_file (kern e) p1) ->
  assign_pipe [s0; s1] [a; b] [p0; p1] e = (e', r) -> evolves garbage_read e e'.
Proof.
  intros Ha Hb Hp0 Hp H0 H1. unfold assign_pipe. destruct (assign_fds _ _ _) as [st o].
  set (m := foldl _ _ _).
  assert (Hw : evolves garbage_read e (set_world (set_kern (a_k st) (set_fds m (e_world e))) e)).
  { apply evolves_world; [|done|done]. intros Hm. by apply (tidy_pair s0 s1 a b p0 p1 (kern e)). }
  destruct o as [l|x].
  - by intros [= <- _].
  - intros Hrun. etrans; [exact Hw|]. refine (scoped_ok _ _ _ _ _ _ _ Hrun). keeps.
Qed.

Lemma fsys_pipe_ok i : ok (fsys_pipe i).
Proof.
  unfold fsys_pipe. apply keeps_bind; [apply _|keeps|]. intros msg. cbv zeta.
  intros e e' r. unfold attached_fd, get_attached_fd, world, gets, get, lift, sysc, mbind, M_bind.
  destruct (at_ _ _) as [f_in|] eqn:Ea; [|by intros [= <- _]].
  destruct (at_ _ (Z.to_nat (u16 msg[: request msg_fsys_pipe ; "fd_out" :]))) as [f_out|] eqn:Eb; [|by intros [= <- _]].
  destruct (sys SPipe (kern e)) as [k [n [p0 p1]]] eqn:Es. destruct (Z.ltb_spec n 0) as [|Hn].
  { intros Hrun. etrans; [apply (set_k_evolves _ k)|]. exact (write_errno_ok _ _ _ _ _ Hrun). }
  destruct (pipe_law _ _ _ _ _ Es Hn) as (H1 & H2 & H3 & H4 & H5).
  destruct (assign_pipe _ _ _ (set_k k e)) as [e1 [[ok owned]|x]] eqn:Ep;
    pose proof (assign_pipe_evolves _ _ _ _ _ _ (set_k k e) _ _ Ea Eb H1 H3 H4 H5 Ep) as Hp.
  - intros Hrun. etrans; [apply (set_k_evolves _ k)|]. etrans; [exact Hp|].
    refine (scoped_ok _ _ _ _ _ _ _ Hrun). keeps.
  - intros [= <- _]. etrans; [apply (set_k_evolves _ k)|exact Hp].
Qed.

Lemma mount_loop_ok dirs : forall i host q, ok (mount_loop dirs i host q).
Proof. induction dirs as [|d dirs IH]; intros i host q; cbn [mount_loop]; keeps. Qed.
Hint Resolve mount_loop_ok : keeps.

Lemma fsys_disk_entry_ok i : ok (fsys_disk_entry i).
Proof. handler fsys_disk_entry. Qed.
Lemma fsys_get_mount_ok i : ok (fsys_get_mount i).
Proof. handler fsys_get_mount. Qed.
Lemma fsys_disk_space_ok i : ok (fsys_disk_space i).
Proof. handler fsys_disk_space. Qed.

(** ** Terminals *)

Lemma handle_tcgetattr_ok fd b : ok (handle_tcgetattr fd b).
Proof. handler handle_tcgetattr. Qed.
Lemma handle_tcsetattr_ok i fd b a : ok (handle_tcsetattr i fd b a).
Proof. handler handle_tcsetattr. Qed.
Lemma handle_tcsetpgrp_ok fd p : ok (handle_tcsetpgrp fd p).
Proof. handler handle_tcsetpgrp. Qed.
Lemma handle_tcgetpgrp_ok fd : ok (handle_tcgetpgrp fd).
Proof. handler handle_tcgetpgrp. Qed.
Hint Resolve handle_tcgetattr_ok handle_tcsetattr_ok handle_tcsetpgrp_ok handle_tcgetpgrp_ok : keeps.

Lemma dev_tcgetattr_ok i : ok (dev_tcgetattr i).
Proof. handler dev_tcgetattr. Qed.
Lemma dev_tcsetattr_ok i : ok (dev_tcsetattr i).
Proof. handler dev_tcsetattr. Qed.
Lemma dev_term_size_ok i : ok (dev_term_size i).
Proof. handler dev_term_size. Qed.
Lemma dev_tcgetpgrp_ok i : ok (dev_tcgetpgrp i).
Proof. handler dev_tcgetpgrp. Qed.
Lemma dev_tcsetpgrp_ok i : ok (dev_tcsetpgrp i).
Proof. handler dev_tcsetpgrp. Qed.
Lemma dev_tcflush_ok i : ok (dev_tcflush i).
Proof. handler dev_tcflush. Qed.
Lemma dev_tcdrain_ok i : ok (dev_tcdrain i).
Proof. handler dev_tcdrain. Qed.

Lemma dev_read_filtered_ok i fdi fd fl msg : ok (dev_read_filtered uninit i fdi fd fl msg).
Proof. handler dev_read_filtered. Qed.

Lemma throw_bind_ok {A B} x (f : A -> H K B) : ok (throw x ≫= f).
Proof. intros e e' r [= <- _]. done. Qed.

Lemma dev_read_ok i : ok (dev_read garbage_read uninit i).
Proof.
  unfold dev_read. apply keeps_bind; [apply _|keeps|]. intros msg. destruct (negb _); [keeps|]. cbv zeta.
  apply keeps_bind; [apply _|keeps|]. intros fd.
  destruct (m_filter fd); [apply dev_read_filtered_ok|].
  apply keeps_bind; [apply _|keeps|]. intros [r old]. destruct (negb _); [keeps|].
  apply restoring_ok. apply keeps_bind; [apply _|keeps|]. intros r2. destruct (negb _); [keeps|].
  destruct (_ <? 0); [apply throw_bind_ok|].
  refine (read_into_ok garbage_read i _ _ (mret (m_host_fd fd))
    (fun r => err ← errno; write_type i (dev_read_info r err)) _ _); [by eexists|]. intros n. keeps.
Qed.

Lemma insert_loop_ok n : forall i fd off, ok (insert_loop n i fd off).
Proof. induction n as [|n IH]; intros i fd off; cbn [insert_loop]; keeps. Qed.
Hint Resolve insert_loop_ok : keeps.
Lemma dev_insert_chars_ok i : ok (dev_insert_chars uninit i).
Proof. handler dev_insert_chars. Qed.
Lemma dev_mode_ok i : ok (dev_mode i).
Proof. handler dev_mode. Qed.

Lemma fill_dev_info_ok fd : ok (fill_dev_info fd).
Proof. handler fill_dev_info. Qed.
Hint Resolve fill_dev_info_ok : keeps.
Lemma reply_dev_info_ok i fd : ok (reply_dev_info i fd).
Proof. handler reply_dev_info. Qed.
Hint Resolve reply_dev_info_ok : keeps.
Lemma dev_info_ok i : ok (dev_info i).
Proof. handler dev_info. Qed.
Lemma dev_fdinfo_ok i : ok (dev_fdinfo i).
Proof. handler dev_fdinfo. Qed.

(** ** All messages *)

Hint Resolve proc_terminate_ok proc_time_ok proc_setpgid_ok proc_fd_attach_ok proc_fd_detach_ok
  proc_fd_query_ok proc_fd_setfd_ok proc_slib_register_ok proc_segment_alloc_ok proc_segment_realloc_ok
  proc_segment_free_ok proc_segment_flags_ok proc_segment_arm_ok proc_segment_put_ok proc_segment_priv_ok
  proc_name_attach_ok proc_open_ok proc_vc_attach_ok proc_vc_detach_ok proc_prefix_ok proc_sid_query_ok
  proc_sid_set_ok proc_psinfo_ok proc_getid_ok proc_osinfo_ok proc_sigtab_ok proc_sigact_ok
  proc_sigraise_ok proc_sigmask_ok proc_sem_init_ok proc_sem_destroy_ok proc_timer_create_ok
  proc_timer_settime_ok proc_timer_alarm_ok proc_wait_ok proc_exec_ok proc_fork_ok proc_spawn_ok
  io_open_ok io_chdir_ok io_rename_ok io_close_ok io_dup_ok io_stat_ok io_fstat_ok io_readdir_ok
  io_rewinddir_ok io_read_ok io_write_ok io_lseek_ok io_qioctl_ok io_ioctl_ok io_lock_ok
  io_fcntl_flags_ok io_fpathconf_ok io_chmod_ok io_chown_ok io_utime_ok fsys_unlink_ok
  fsys_mkspecial_ok fsys_readlink_ok fsys_link_ok fsys_sync_ok fsys_trunc_ok fsys_fsync_ok fsys_pipe_ok
  fsys_disk_entry_ok fsys_get_mount_ok fsys_disk_space_ok dev_tcgetattr_ok dev_tcsetattr_ok
  dev_term_size_ok dev_tcgetpgrp_ok dev_tcsetpgrp_ok dev_tcflush_ok dev_tcdrain_ok dev_read_ok
  dev_insert_chars_ok dev_mode_ok dev_info_ok dev_fdinfo_ok : keeps.

Lemma unhandled_ok i : ok (unhandled_msg i).
Proof. handler unhandled_msg. Qed.
Hint Resolve unhandled_ok : keeps.

Lemma sub_switch_ok cases other i st :
  Forall (fun p => forall i, ok (p.2 i)) cases -> ok other -> ok (sub_switch cases other i st).
Proof.
  intros Hc Ho. induction Hc as [|[m h] cases Hh Hc IH]; [exact Ho|]. simpl.
  case_bool_decide; [apply Hh|exact IH].
Qed.

Ltac cases := apply sub_switch_ok; [repeat (apply Forall_cons; split; [cbn [snd]; intros; keeps|]); by apply Forall_nil|keeps].
Ltac chain := repeat match goal with |- ok (if ?c then _ else _) => destruct c end; try solve [keeps|cases].

Lemma proc_switch_ok i t st next : ok next -> ok (proc_switch mmap modify_ldt sigaction i t st next).
Proof using L Hmmap.
  intros Hn. unfold proc_switch, segment_switch, fd_switch, signal_switch, timer_switch, session_switch,
    sem_switch. chain.
Qed.

Lemma io_switch_ok i t next : ok next -> ok (io_switch garbage_read uninit i t next).
Proof. intros Hn. unfold io_switch. chain. Qed.
Lemma fsys_switch_ok i t next : ok next -> ok (fsys_switch i t next).
Proof. intros Hn. unfold fsys_switch. chain. Qed.
Lemma dev_switch_ok i t next : ok next -> ok (dev_switch garbage_read uninit i t next).
Proof. intros Hn. unfold dev_switch. chain. Qed.

Lemma dispatch_ok i t st : ok (dispatch mmap modify_ldt sigaction garbage_read uninit i t st).
Proof using L Hmmap.
  apply proc_switch_ok, io_switch_ok, fsys_switch_ok, dev_switch_ok, unhandled_ok.
Qed.

Lemma receive_ok i : ok (receive mmap modify_ldt sigaction garbage_read uninit i).
Proof using L Hmmap.
  pose proof dispatch_ok. unfold receive, receive_inner. keeps.
Qed.
End Handlers.

(** ** Properties *)

Lemma demo_sane fds k bs : tidy fds -> sane (demo_proc fds k bs).
Proof.
  intros Hf. split; [exact wf_demo_space|]. split; [exact Hf|].
  assert (H : forall a n, 2 ^ 26 <= a -> a + n <= 2 ^ 26 + 4096 -> guest_range demo_space a n).
  { intros a n Ha Hn k' Hk. exists 0%nat, demo_segment, (a + k' - 2 ^ 26). split; [done|]. split.
    - split; [lia|]. simpl. replace (_ / MemOps.PAGE_SIZE) with 0; [done|].
      unfold MemOps.PAGE_SIZE. symmetry. apply Z.div_small. lia.
    - simpl. lia. }
  split; intros a [= <-]; apply H; unfold sizeof_sigtab, sizeof_sigaction; lia.
Qed.

(** C2. No message makes the emulator write outside the guest's segments, unless
    its handling runs into undefined behaviour of Qine's own code (the handlers
    that can, and how, are the rows [Undefined] of the table [special] in
    [Endings]: a pipe's descriptor stored beyond the array [host_fds] among them):
    for every message, whatever its bytes, chunks and descriptor, whatever the
    host answers to the calls made, and however else the handler ends (a reply,
    an exception, a failed assertion, an end of the program), the invariants of the process are kept,
    the registers are the caller's, the guest's memory only grows, and every
    other byte is as before but for the array that takes discarded data.  Every
    open descriptor of the guest stays on the host descriptor of its number, on
    which [get_host_fd] relies; the maps between the two name spaces of paths
    are never changed. *)
Theorem receive_isolated {K} {FK : FdKernel K} {HK : HostKernel K} {L : DescriptorLaws K} mmap modify_ldt sigaction
    garbage_read uninit i (e e' : EmuState (World K)) r :
  mmap_law mmap -> sane e ->
  receive mmap modify_ldt sigaction garbage_read uninit i e = (e', r) -> defined r ->
  sane e' /\ g_regs (e_guest e') = g_regs (e_guest e) /\
  (forall x, guest_byte (e_space e) x -> guest_byte (e_space e') x) /\
  (forall x, ~ guest_byte (e_space e') x -> ~ (garbage_read <= x < garbage_read + sizeof_garbage) ->
     peek (g_mem (e_guest e')) x = peek (g_mem (e_guest e)) x) /\
  (forall fd f, 0 <= fd -> get_open_fd (w_fds (e_world e')) fd = Ok f ->
     m_host_fd f = get_host_fd (w_fds (e_world e')) fd) /\
  w_paths (e_world e') = w_paths (e_world e).
Proof.
  intros Hm He Hrun _.
  destruct (receive_ok mmap Hm modify_ldt sigaction garbage_read uninit i _ _ _ Hrun He) as (H1 & H2 & H3 & H4 & H5 & _).
  split; [done|]. split_and!; try done. intros fd f Hfd. apply tidy_open; [apply H1|done].
Qed.

Lemma receive_isolated_witness :
  mmap_law demo_mmap /\ sane (demo_proc demo_fds (mkScript 0 [] 0) demo_alloc) /\
  exists e', receive demo_mmap (fun _ => true) (fun _ _ => 0) 77 (fun _ => 0) demo_ctx
               (demo_proc demo_fds (mkScript 0 [] 0) demo_alloc) = (e', Ok ()) /\ sane e'.
Proof.
  assert (Hs : sane (demo_proc demo_fds (mkScript 0 [] 0) demo_alloc))
    by apply demo_sane, demo_tidy.
  split; [exact demo_mmap_law|]. split; [exact Hs|].
  destruct (receive demo_mmap (fun _ => true) (fun _ _ => 0) 77 (fun _ => 0) demo_ctx
              (demo_proc demo_fds (mkScript 0 [] 0) demo_alloc)) as [e' r] eqn:E.
  assert (Hr : r = Ok ()) by (apply (f_equal snd) in E; vm_compute in E; congruence). subst r.
  exists e'. split; [reflexivity|].
  exact (proj1 (receive_isolated demo_mmap (fun _ => true) (fun _ _ => 0) 77 (fun _ => 0) demo_ctx _ e' _
    demo_mmap_law Hs E ltac:(discriminate))).
Defined.
