(* ===== verification/Raises.v ===== *)
(** * Raises: how a computation can end otherwise than by returning

    A calculus beside that of [Sandbox]: which exceptions the operations of the
    handlers raise.  It needs the invariants - a segment behind every
    descriptor, absolute path maps -, which the operations keep.  That no loop
    runs out of fuel, whatever the guest's chunks, is part of it. *)

From S2P Require Import Prelude Types Memory IdMap PathMapper PidMap TerminalFilter FdMap Segment AddressSpace Sigset Msg Errno GuestContext Emu Layout QnxMsg Host MsgHandler ProcHandler IoHandler TermHandler MainHandler Descriptors Sandbox Isolation.

(** ** Runs that raise only what [P] allows *)

Definition only {A} (P : exn -> Prop) (o : outcome A) : Prop :=
  match o with Ok _ => True | Throw x => P x end.

Definition ends {S A} (P : exn -> Prop) (run : S * outcome A) : Prop := only P run.2.

Lemma only_bind {A B} P (o : outcome A) (f : A -> outcome B) :
  only P o -> (forall a, o = Ok a -> only P (f a)) -> only P (o ≫= f).
Proof. destruct o as [a|x]; intros Ho Hf; [by apply Hf|exact Ho]. Qed.

Lemma only_mono {A} (P Q : exn -> Prop) (o : outcome A) : (forall x, P x -> Q x) -> only P o -> only Q o.
Proof. destruct o; [done|]. intros H. apply H. Qed.

Lemma ends_bind {S A B} P (m : M S A) (f : A -> M S B) s :
  ends P (m s) -> (forall s' a, m s = (s', Ok a) -> ends P (f a s')) -> ends P ((m ≫= f) s).
Proof.
  unfold mbind, M_bind. destruct (m s) as [s' [a|x]]; intros Hm Hf; [by apply Hf|exact Hm].
Qed.

Lemma ends_mono {S A} (P Q : exn -> Prop) (run : S * outcome A) :
  (forall x, P x -> Q x) -> ends P run -> ends Q run.
Proof. apply only_mono. Qed.

(** The exceptions of one kind: their arguments do not matter. *)
Definition kind_of (x : exn) : exn :=
  match x with
  | SegmentationFault _ => SegmentationFault EmptyString
  | GuestStateException _ => GuestStateException EmptyString
  | LoaderFormatException _ => LoaderFormatException EmptyString
  | ConfigurationError _ => ConfigurationError EmptyString
  | LogicError _ => LogicError EmptyString
  | RuntimeError _ => RuntimeError EmptyString
  | SystemError _ => SystemError 0
  | Exit _ => Exit 0
  | x => x
  end.

(** A bad pointer of the guest, and the kinds of [l]. *)
Definition faults (l : list exn) (x : exn) : Prop := kind_of x ∈ SegmentationFault EmptyString :: l.

(** What handlers raise freely: a bad pointer and a bad descriptor of the guest. *)
Definition may (l : list exn) : exn -> Prop := faults (BadFdException :: l).

Lemma may_mono l l' x : l ⊆ l' -> may l x -> may l' x.
Proof. unfold may, faults. set_solver. Qed.

Lemma faults_fault l w : faults l (SegmentationFault w).
Proof. by left. Qed.
Lemma may_bad_fd l : may l BadFdException.
Proof. right. by left. Qed.

(** ** Guest pointers *)

(** An access of no bytes looks at no page but that of its address. *)
Lemma check_bounds_empty s offset :
  Segment.wf s -> 0 <= offset < 2 ^ 64 -> exists b, check_bounds s offset 0 = Ok b.
Proof.
  intros Hwf Ho. pose proof Hwf as (H1 & H2 & H3 & H4 & H5 & H6 & H7). unfold check_bounds.
  destruct ((offset <? m_paged_size s) && _)%bool eqn:E; simpl; [|by exists false]. to_prop.
  rewrite Z.add_0_r, (wrapu_small 64 offset) by lia. destruct (MemOps.align_page_up_spec offset) as [Hu Ha]; [lia|].
  rewrite MemOps.align_page_down_spec by lia. rewrite Z.div_mul by (unfold MemOps.PAGE_SIZE; lia).
  rewrite !wrapu_small by page.
  destruct (probe_pages_spec (m_bitmap s) (Z.to_nat (offset / MemOps.PAGE_SIZE))
    (Z.to_nat (MemOps.align_page_up offset / MemOps.PAGE_SIZE - offset / MemOps.PAGE_SIZE)) true) as (b & Hb & _);
    [|by exists b].
  pose proof (MemOps.align_page_up_least offset (m_paged_size s) ltac:(lia) H3 ltac:(lia)). page.
Qed.

Lemma translate_only sp p n op l :
  wf_space sp -> 0 <= Types.m_offset p < 2 ^ 64 -> 0 <= n < 2 ^ 64 ->
  only (faults l) (translate_segmented sp p n op).
Proof.
  intros (H1 & _ & _ & _ & H5) Ho Hn. unfold translate_segmented, descriptor_by_selector.
  destruct (at_ _ _) as [sd|] eqn:Ed; [|apply faults_fault].
  destruct (H5 _ _ Ed) as [_ [s Hs]]. rewrite Hs. destruct (decide (n = 0)) as [-> |Hne].
  - destruct (check_bounds_empty s _ (H1 _ _ Hs) Ho) as [b Hb]. rewrite Hb. cbn.
    destruct b; simpl; [|apply faults_fault]. unfold pointer. by rewrite Hb.
  - destruct (check_bounds_range s (Types.m_offset p) n (H1 _ _ Hs)) as (b & -> & _ & Hp); [lia|lia|].
    cbn. destruct b; simpl; [|apply faults_fault]. by destruct Hp as [-> _].
Qed.

(** ** Messages: the loops make progress on any chunks *)

Lemma normalize_loop_sum l : forall it,
  0 <= m_offset_of_chunk it -> 0 <= it_offset it -> m_offset_of_chunk it + it_offset it < 2 ^ 64 ->
  let it' := normalize_loop l it in
  m_offset_of_chunk it' + it_offset it' = m_offset_of_chunk it + it_offset it /\
  0 <= m_offset_of_chunk it' /\ 0 <= it_offset it'.
Proof.
  induction l as [|c l IH]; intros it H1 H2 H3; [done|]. simpl.
  destruct (mxfer_len c <=? it_offset it); [|done].
  destruct (IH (mkIterator (S (m_i it)) (u64 (m_offset_of_chunk it + it_offset it)) 0)) as (E & H4 & H5);
    simpl in *; rewrite ?wrapu_small in * by lia; [lia..|]. split_and!; [lia|done|done].
Qed.

Lemma normalize_loop_up l : forall it, (m_i it <= m_i (normalize_loop l it))%nat.
Proof.
  induction l as [|c l IH]; intros it; [done|]. simpl. destruct (_ <=? _); [|done].
  specialize (IH (mkIterator (S (m_i it)) (u64 (m_offset_of_chunk it + it_offset it)) 0)). simpl in IH. lia.
Qed.

(** Where the loop stopped, something is left of the chunk. *)
Lemma normalize_loop_inside l : forall it c,
  l !! (m_i (normalize_loop l it) - m_i it)%nat = Some c -> it_offset (normalize_loop l it) < mxfer_len c.
Proof.
  induction l as [|d l IH]; intros it c; [done|]. simpl.
  destruct (Z.leb_spec (mxfer_len d) (it_offset it)) as [Hle|Hlt].
  - set (it1 := mkIterator _ _ _). intros Hc. pose proof (normalize_loop_up l it1) as Hup. simpl in Hup.
    destruct (m_i (normalize_loop l it1) - m_i it)%nat as [|k] eqn:Ek; [lia|]. simpl in Hc.
    apply IH. rewrite <- Hc. f_equal. simpl. lia.
  - rewrite Nat.sub_diag. by intros [= <-].
Qed.

Lemma normalize_inside chunks it c :
  chunks !! m_i (normalize chunks it) = Some c -> it_offset (normalize chunks it) < mxfer_len c.
Proof.
  unfold normalize. intros Hc. pose proof (normalize_loop_up (drop (m_i it) chunks) it).
  apply (normalize_loop_inside (drop (m_i it) chunks) it c). rewrite lookup_drop, <- Hc. f_equal. lia.
Qed.

(** A slice is not larger than what was asked for. *)
Lemma next_bounded chunks size it s it' :
  0 <= size -> next chunks size it = (s, it') -> 0 <= m_size s <= size.
Proof.
  intros Hs. unfold next. destruct (_ !! _) as [c|] eqn:Ec; [|intros [= <- _]; simpl; lia].
  apply normalize_inside in Ec. set (n := if _ <? _ then _ else _). intros [= <- _]. simpl.
  assert (0 <= n <= size) by (unfold n; destruct (Z.ltb_spec size (mxfer_len c - it_offset (normalize chunks it))); lia).
  pose proof (wrapu_range 32 n ltac:(lia)). assert (u32 n <= n) by (apply Z.mod_le; lia). lia.
Qed.

(** Seeking: the position grows up to the target. *)
Lemma skip_loop_only l chunks dst : forall fuel it,
  dst < 2 ^ 64 -> 0 <= m_offset_of_chunk it -> 0 <= it_offset it ->
  m_offset_of_chunk it + it_offset it <= dst ->
  (Z.to_nat (dst - (m_offset_of_chunk it + it_offset it)) < fuel)%nat ->
  only (faults l) (skip_loop fuel chunks dst it).
Proof.
  induction fuel as [|fuel IH]; intros it Hd H1 H2 H3 Hf; [lia|]. cbn [skip_loop].
  unfold msg_offset. rewrite (wrapu_small 64 (_ + _)) by lia. rewrite wrapu_small by lia.
  destruct (normalize_loop_sum (drop (m_i it) chunks) it H1 H2 ltac:(lia)) as (E & H4 & H5).
  fold (normalize chunks it) in E, H4, H5.
  destruct (next chunks _ it) as [s it'] eqn:En. destruct (FarSlice_is_empty s) eqn:Es; [done|].
  unfold next in En. destruct (_ !! _) as [c|] eqn:Ec; [|injection En as <- <-; discriminate Es].
  apply normalize_inside in Ec. revert En. set (n := if _ <? _ then _ else _).
  assert (Hn : 0 <= n <= dst - (m_offset_of_chunk it + it_offset it))
    by (unfold n; destruct (Z.ltb_spec (dst - (m_offset_of_chunk it + it_offset it)) (mxfer_len c - it_offset (normalize chunks it))); lia).
  intros [= <- <-]. unfold FarSlice_is_empty in Es. simpl in *. to_prop.
  assert (n <> 0) by (intros Hz; by rewrite Hz in Es).
  apply IH; simpl; rewrite ?(wrapu_small 64 (_ + n)) by lia; lia.
Qed.

Lemma skip_to_only l chunks dst : 0 <= dst < 2 ^ 64 -> only (faults l) (skip_to chunks dst it_begin).
Proof. intros Hd. apply skip_loop_only; simpl; lia. Qed.

(** ** Reading, writing, vectors *)

Section Transport.
Context (sp : Space) (Hsp : wf_space sp) (l : list exn).
#[local] Instance T : Translation := space_translation sp.

(** Each round of a loop translates a slice, which is not empty. *)
Lemma slice_only chunks size it s it' op :
  next chunks size it = (s, it') -> FarSlice_is_empty s = false ->
  only (faults l) (translate (m_ptr s) (m_size s) op).
Proof using Hsp.
  intros En Es. destruct (next_range _ _ _ _ _ En Es). apply translate_only; [done|done|lia].
Qed.

Lemma slice_progress chunks size it s it' :
  0 <= size -> next chunks size it = (s, it') -> FarSlice_is_empty s = false -> 0 < m_size s <= size.
Proof.
  intros Hs En Es. pose proof (next_bounded _ _ _ _ _ Hs En). unfold FarSlice_is_empty in Es. to_prop. lia.
Qed.

Lemma read_loop_only mem chunks : forall fuel size it dst,
  0 <= size -> (Z.to_nat size < fuel)%nat -> only (faults l) (read_loop fuel mem chunks size it dst).
Proof using Hsp.
  induction fuel as [|fuel IH]; intros size it dst Hs Hf; [lia|]. cbn [read_loop].
  destruct (size =? 0); [done|]. destruct (next _ _ _) as [s it'] eqn:En.
  destruct (FarSlice_is_empty s) eqn:Es; [done|]. pose proof (slice_progress _ _ _ _ _ Hs En Es).
  apply only_bind; [by eapply slice_only|]. intros a _. apply IH; lia.
Qed.

Lemma write_loop_ends e : forall fuel src it mem,
  (length src < fuel)%nat -> ends (faults l) (write_loop fuel e src it mem).
Proof using Hsp.
  induction fuel as [|fuel IH]; intros src it mem Hf; [lia|]. cbn [write_loop]. cbv zeta.
  destruct (_ =? 0); [done|]. unfold mbind at 1, M_bind at 1, get at 1.
  destruct (next _ _ _) as [s it'] eqn:En. destruct (FarSlice_is_empty s) eqn:Es; [done|].
  pose proof (slice_progress _ _ _ _ _ (Nat2Z.is_nonneg _) En Es).
  apply ends_bind; [exact (slice_only _ _ _ _ _ WRITE En Es)|]. intros m1 a _.
  apply ends_bind; [done|]. intros m2 u _. apply IH. rewrite length_drop. lia.
Qed.

Lemma iovec_loop_only chunks op : forall fuel size it dst,
  0 <= size -> (Z.to_nat size < fuel)%nat ->
  only (faults l) (iovec_loop fuel chunks op size it dst) /\
  forall n d, iovec_loop fuel chunks op size it dst = Ok (n, d) -> 0 <= n.
Proof using Hsp.
  induction fuel as [|fuel IH]; intros size it dst Hs Hf; [lia|]. cbn [iovec_loop].
  destruct (size =? 0); [split; [done|by intros n d [= <- _]]|].
  destruct (next _ _ _) as [s it'] eqn:En.
  destruct (FarSlice_is_empty s) eqn:Es; [split; [done|by intros n d [= <- _]]|].
  pose proof (slice_progress _ _ _ _ _ Hs En Es). pose proof (slice_only _ _ _ _ _ op En Es) as Ho.
  destruct (translate _ _ _); [|done]. apply IH; lia.
Qed.

Lemma garbage_loop_only g : forall fuel size dst,
  0 <= size -> (Z.to_nat size < fuel)%nat -> only (faults l) (garbage_loop fuel g size dst).
Proof.
  induction fuel as [|fuel IH]; intros size dst Hs Hf; [lia|]. cbn [garbage_loop].
  destruct (Z.eqb_spec size 0); [done|]. cbv zeta. unfold sizeof_garbage. apply IH; lia.
Qed.

Lemma read_only mem m off n :
  0 <= off < 2 ^ 64 -> 0 <= n -> only (faults l) (Msg.read mem m off n).
Proof using Hsp.
  intros Ho Hn. unfold Msg.read, read_chunks. apply only_bind; [by apply skip_to_only|].
  intros it _. apply read_loop_only; lia.
Qed.

Lemma write_ends m off src mem : 0 <= off < 2 ^ 64 -> ends (faults l) (Msg.write m off src mem).
Proof using Hsp.
  intros Ho. unfold Msg.write. apply ends_bind; [done|]. intros m1 a _.
  apply ends_bind; [by apply skip_to_only|]. intros m2 it _.
  apply ends_bind; [apply write_loop_ends; lia|done].
Qed.

Lemma common_iovec_only g chunks op off n :
  0 <= off < 2 ^ 64 -> 0 <= n -> only (faults l) (common_iovec g chunks op off n []).
Proof using Hsp.
  intros Ho Hn. unfold common_iovec. apply only_bind; [by apply skip_to_only|]. intros it _.
  destruct (iovec_loop_only chunks op (Z.to_nat n + 1) n it [] Hn ltac:(lia)) as [H1 H2].
  apply only_bind; [exact H1|]. intros [n' d] E. apply garbage_loop_only; [by eapply H2|lia].
Qed.
End Transport.

(** ** Streams

    The bytes a reader has left: those of the chunk it is in and of the chunks
    behind. *)

Definition sized (chunks : list chunk) : Prop := Forall (fun c => 0 <= mxfer_len c < 2 ^ 32) chunks.

(** The entries of a 16-bit message were copied with their widths. *)
Definition entries_sized (e : entries) : Prop := match e with InGuest _ _ => True | Translated l => sized l end.

Lemma chunks_sized mem e : entries_sized e -> sized (chunks_of mem e).
Proof.
  destruct e as [a n|l]; simpl; [intros _|done]. apply Forall_fmap, Forall_true. intros k. apply wrapu_range. lia.
Qed.

Lemma decoded_sized mem a n : sized (decode_entries sizeof_mxfer_entry16 decode_entry16 mem a n).
Proof.
  apply Forall_fmap, Forall_true. intros k. simpl. unfold decode_entry16. simpl.
  pose proof (wrapu_range 16 (le_val (slice 6 2 (load mem (a + Z.of_nat (k * sizeof_mxfer_entry16)) sizeof_mxfer_entry16))) ltac:(lia)).
  simpl in *. lia.
Qed.

Lemma Msg_new_sized {T : Translation} mem n1 p1 n2 p2 b m :
  Msg_new mem n1 p1 n2 p2 b = Ok m -> entries_sized (m_send m).
Proof. unfold Msg_new. destruct b; intros H; inv_ok; [done|apply decoded_sized]. Qed.

Definition lengths (chunks : list chunk) : Z := foldr (fun c n => mxfer_len c + n) 0 chunks.

Definition ahead (chunks : list chunk) (off : Z) : Z :=
  match chunks with [] => 0 | c :: l => Z.max 0 (mxfer_len c - off) + lengths l end.

Definition bytes_ahead (chunks : list chunk) (it : Iterator) : Z := ahead (drop (m_i it) chunks) (it_offset it).

Lemma lengths_nonneg chunks : sized chunks -> 0 <= lengths chunks.
Proof. induction 1; simpl; lia. Qed.

Lemma ahead_nonneg chunks off : sized chunks -> 0 <= ahead chunks off.
Proof. destruct 1 as [|c l Hc Hl]; simpl; [done|]. pose proof (lengths_nonneg l Hl). lia. Qed.

Lemma ahead_zero chunks : sized chunks -> ahead chunks 0 = lengths chunks.
Proof. destruct 1; simpl; lia. Qed.

Lemma normalize_ahead chunks it :
  sized chunks -> 0 <= it_offset it ->
  bytes_ahead chunks (normalize chunks it) = bytes_ahead chunks it /\ 0 <= it_offset (normalize chunks it).
Proof.
  intros Hc. unfold normalize, bytes_ahead. remember (drop (m_i it) chunks) as l eqn:E.
  assert (Hl : sized l) by (subst l; by apply Forall_drop). revert it E.
  induction l as [|c l IH]; intros it E Ho; simpl.
  { rewrite <- E. done. }
  apply Forall_cons in Hl as [Hc0 Hl]. destruct (Z.leb_spec (mxfer_len c) (it_offset it)) as [Hle|Hlt].
  - destruct (IH Hl (mkIterator (S (m_i it)) (u64 (m_offset_of_chunk it + it_offset it)) 0)) as [H1 H2]; [|done|].
    + simpl. replace (S (m_i it)) with (m_i it + 1)%nat by lia. by rewrite <- drop_drop, <- E.
    + split; [|done]. rewrite H1. simpl. rewrite ahead_zero by done. lia.
  - rewrite <- E. done.
Qed.

Lemma next_ahead chunks size it s it' :
  sized chunks -> 0 <= it_offset it -> 0 <= size -> next chunks size it = (s, it') ->
  0 <= it_offset it' /\ bytes_ahead chunks it' = bytes_ahead chunks it - m_size s.
Proof.
  intros Hc Ho Hs. destruct (normalize_ahead chunks it Hc Ho) as [H1 H2]. unfold next.
  destruct (_ !! _) as [c|] eqn:Ec.
  2: { intros [= <- <-]. simpl. rewrite H1. lia. }
  pose proof (normalize_inside _ _ _ Ec) as Hin.
  assert (Hlen : 0 <= mxfer_len c < 2 ^ 32) by exact (proj1 (Forall_lookup _ _) Hc _ _ Ec).
  set (n := if _ <? _ then _ else _).
  assert (Hn : 0 <= n <= mxfer_len c - it_offset (normalize chunks it))
    by (unfold n; destruct (Z.ltb_spec size (mxfer_len c - it_offset (normalize chunks it))); lia).
  intros [= <- <-]. simpl. rewrite !wrapu_small by lia. split; [lia|].
  rewrite <- H1. unfold bytes_ahead. simpl. rewrite (drop_S _ _ _ Ec). simpl. lia.
Qed.

Lemma skip_loop_ahead chunks dst : forall fuel it it',
  sized chunks -> 0 <= it_offset it -> skip_loop fuel chunks dst it = Ok it' ->
  0 <= it_offset it' /\ bytes_ahead chunks it' <= bytes_ahead chunks it.
Proof.
  induction fuel as [|fuel IH]; intros it it' Hc Ho; [done|]. cbn [skip_loop].
  destruct (next chunks _ it) as [s it1] eqn:En.
  assert (Hs : 0 <= u64 (dst - msg_offset it)) by (apply wrapu_range; lia).
  destruct (next_ahead _ _ _ _ _ Hc Ho Hs En) as [Ho1 Ha1]. pose proof (next_bounded _ _ _ _ _ Hs En).
  destruct (FarSlice_is_empty s); [intros [= <-]; split; [done|lia]|].
  intros Hrun. destruct (IH _ _ Hc Ho1 Hrun). split; [done|lia].
Qed.

Section Streams.
Context (sp : Space) (Hsp : wf_space sp) (l : list exn) (mem : Mem) (m : Msg).
Context (Hm : entries_sized (m_send m)).
#[local] Instance T' : Translation := space_translation sp.
Notation chunks := (chunks_of mem (m_send m)).

Definition budget (r : StreamReader) : Z := m_ready r + bytes_ahead chunks (sr_it r).
Definition reading (r : StreamReader) : Prop := 0 <= m_ready r /\ 0 <= it_offset (sr_it r).

Lemma budget_nonneg r : reading r -> 0 <= budget r.
Proof using Hm.
  intros [Hr _]. unfold budget, bytes_ahead.
  pose proof (ahead_nonneg (drop (m_i (sr_it r)) chunks) (it_offset (sr_it r))
    (Forall_drop _ _ _ (chunks_sized mem _ Hm))). lia.
Qed.

Lemma get_more_only r : reading r -> m_ready r = 0 ->
  only (faults l) (get_more mem m r) /\
  forall r', get_more mem m r = Ok r' -> reading r' /\ budget r' = budget r.
Proof using Hsp Hm.
  intros [_ Ho] Hz. unfold get_more. destruct (next _ _ _) as [s it'] eqn:En.
  assert (Hl : 0 <= no_limit) by (unfold no_limit; lia).
  destruct (next_ahead _ _ _ _ _ (chunks_sized mem _ Hm) Ho Hl En) as [Ho' Ha].
  pose proof (next_bounded _ _ _ _ _ Hl En) as [Hs _]. destruct (FarSlice_is_empty s) eqn:Es.
  - split; [done|]. intros r' [= <-]. unfold FarSlice_is_empty in Es. to_prop.
    split; [by split; simpl; lia|]. unfold budget. simpl. lia.
  - pose proof (slice_only sp Hsp l _ _ _ _ _ READ En Es) as Ht.
    destruct (translate _ _ _) as [a|x]; [|done]. split; [done|]. intros r' [= <-].
    split; [by split|]. unfold budget. simpl. lia.
Qed.

(** A byte other than the fallback uses up one of those left. *)
Lemma sr_get_only r : reading r ->
  only (faults l) (sr_get mem m 0 r) /\
  forall c r', sr_get mem m 0 r = Ok (c, r') ->
    reading r' /\ budget r' <= budget r /\ (c <> 0 -> budget r' < budget r).
Proof using Hsp Hm.
  intros Hr. unfold sr_get.
  assert (H : only (faults l) (if m_ready r =? 0 then get_more mem m r else Ok r) /\
    forall r', (if m_ready r =? 0 then get_more mem m r else Ok r) = Ok r' -> reading r' /\ budget r' = budget r).
  { destruct (Z.eqb_spec (m_ready r) 0); [by apply get_more_only|]. split; [done|]. by intros r' [= <-]. }
  destruct H as [H1 H2]. destruct (if _ =? 0 then _ else _) as [r1|x]; [|done]. cbn.
  destruct (H2 _ eq_refl) as [[Hr1 Ho1] Hb]. destruct (Z.eqb_spec (m_ready r1) 0).
  - split; [done|]. intros c r' [= <- <-]. split; [done|]. split; [lia|done].
  - split; [done|]. intros c r' [= <- <-]. unfold budget in *. simpl.
    split; [by split; simpl; [lia|]|]. split; [lia|]. intros _. lia.
Qed.

Lemma read_string_only : forall fuel r, reading r -> (Z.to_nat (budget r) < fuel)%nat ->
  only (faults l) (read_string fuel mem T' m r) /\
  forall s r', read_string fuel mem T' m r = Ok (s, r') -> reading r' /\ budget r' <= budget r.
Proof using Hsp Hm.
  induction fuel as [|fuel IH]; intros r Hr Hf; [lia|]. cbn [read_string].
  destruct (sr_get_only r Hr) as [H1 H2].
  destruct (sr_get mem m 0 r) as [[c r1]|x]; [|done]. cbn.
  destruct (H2 _ _ eq_refl) as (Hr1 & Hb1 & Hlt). destruct (Z.eqb_spec c 0) as [|Hc].
  - split; [done|]. by intros s r' [= _ <-].
  - pose proof (budget_nonneg r1 Hr1). destruct (IH r1 Hr1) as [H3 H4]; [lia|].
    destruct (read_string fuel mem T' m r1) as [[s r2]|x]; [|done]. cbn. split; [done|].
    intros s' r' [= _ <-]. destruct (H4 _ _ eq_refl). split; [done|lia].
Qed.

Lemma read_strings_only fuel : forall n r, reading r -> (Z.to_nat (budget r) < fuel)%nat ->
  only (faults l) (read_strings n fuel mem T' m r) /\
  forall s r', read_strings n fuel mem T' m r = Ok (s, r') -> reading r' /\ budget r' <= budget r.
Proof using Hsp Hm.
  induction n as [|n IH]; intros r Hr Hf; [split; [done|by intros s r' [= _ <-]]|]. cbn [read_strings].
  destruct (read_string_only fuel r Hr Hf) as [H1 H2].
  destruct (read_string fuel mem T' m r) as [[s r1]|x]; [|done]. cbn.
  destruct (H2 _ _ eq_refl) as [Hr1 Hb1]. pose proof (budget_nonneg r Hr).
  destruct (IH r1 Hr1) as [H3 H4]; [lia|].
  destruct (read_strings n fuel mem T' m r1) as [[l1 r2]|x]; [|done]. cbn. split; [done|].
  intros s' r' [= _ <-]. destruct (H4 _ _ eq_refl). split; [done|lia].
Qed.

Lemma read_exec_args_only argc envc : only (faults l) (read_exec_args mem T' m argc envc).
Proof using Hsp Hm.
  unfold read_exec_args, StreamReader_new. cbv zeta.
  pose proof (skip_to_only l chunks (Z.of_nat (sizeof s_spawn)) ltac:(split; [lia|by vm_compute])) as H0.
  destruct (skip_to _ _ _) as [it|x] eqn:Ei; [|exact H0]. cbn [mbind outcome_bind].
  destruct (skip_loop_ahead _ _ _ it_begin _ (chunks_sized mem _ Hm) (Z.le_refl 0) Ei) as [Ho Ha].
  set (r := mkStreamReader it 0 0). set (fuel := read_fuel mem m).
  assert (Hr : reading r) by (by split).
  assert (Hb : budget r <= lengths chunks).
  { unfold budget, r. simpl. etrans; [exact Ha|]. unfold bytes_ahead. simpl.
    rewrite drop_0, ahead_zero; [done|by apply chunks_sized]. }
  assert (Hf : forall r', reading r' -> budget r' <= budget r -> (Z.to_nat (budget r') < fuel)%nat).
  { intros r' Hr' Hle. pose proof (budget_nonneg _ Hr').
    assert (Hfuel : fuel = (Z.to_nat (lengths chunks) + 1)%nat) by reflexivity. lia. }
  clearbody r fuel. clear Ei Ho Ha H0 Hb.
  destruct (read_string_only fuel r Hr (Hf _ Hr ltac:(lia))) as [H1 H2].
  apply only_bind; [exact H1|]. intros [path r1] E1. destruct (H2 _ _ E1) as [Hr1 Hb1].
  destruct (read_strings_only fuel argc r1 Hr1 (Hf _ Hr1 Hb1)) as [H3 H4].
  apply only_bind; [exact H3|]. intros [argv r2] E2. destruct (H4 _ _ E2) as [Hr2 Hb2].
  destruct (read_string_only fuel r2 Hr2 (Hf _ Hr2 ltac:(lia))) as [H5 H6].
  apply only_bind; [exact H5|]. intros [gap r3] E3. destruct (H6 _ _ E3) as [Hr3 Hb3].
  destruct (read_strings_only fuel envc r3 Hr3 (Hf _ Hr3 ltac:(lia))) as [H7 H8].
  apply only_bind; [exact H7|]. intros [envp r4] E4. destruct (H8 _ _ E4) as [Hr4 Hb4].
  destruct (read_string_only fuel r4 Hr4 (Hf _ Hr4 ltac:(lia))) as [H9 _].
  apply only_bind; [exact H9|]. by intros [s r5] _.
Qed.
End Streams.

(** ** Paths *)

Definition past_path : exn := Undefined "pointer past the path".

Lemma change_prefix_only l p p' path :
  normal_path true p -> normal_path true p' ->
  past_path ∈ l \/ (length p <= length path)%nat ->
  only (may l) (change_prefix p p' path).
Proof.
  intros (s & -> & Hs) (s' & -> & Hs') Hl. unfold change_prefix. rewrite !is_abs_render by done. cbn [check mbind outcome_bind].
  destruct (Nat.leb_spec (length (render true s)) (length path)); [exact I|]. destruct Hl as [Hl|]; [|lia].
  by do 2 right.
Qed.

(** To the host: only an empty path is too short for the root's prefix. *)
Lemma map_path_to_host_only l m i :
  wf_mapper m -> pi_qnx_valid i = true -> past_path ∈ l -> only (may l) (map_path_to_host m i).
Proof.
  intros Hm Hv Hl. unfold map_path_to_host. rewrite Hv. cbn. destruct (pi_host_valid i); [done|].
  destruct (wf_most_specific m (pi_qnx_path i) Hm) as [Hq Hh]. cbv zeta.
  apply only_bind; [by apply change_prefix_only; [..|left]|done].
Qed.

Lemma map_path_to_host_prefix m i j :
  pi_host_valid i = false -> map_path_to_host m i = Ok j -> is_Some (pi_prefix j).
Proof. intros Hv. unfold map_path_to_host. rewrite Hv. intros H. inv_ok. by eexists. Qed.

Lemma most_general_spec m h p :
  most_general m h = Some p -> path_starts_with h (m_host_path p) = true /\ p ∈ m_root m :: m_prefixes m.
Proof.
  unfold most_general. destruct (path_starts_with h (m_host_path (m_root m))) eqn:Er.
  { intros [= <-]. split; [done|by left]. }
  revert p. induction (m_prefixes m) as [|c l IH] using rev_ind; [done|]. intros p. rewrite foldl_app. simpl.
  destruct (foldl _ _ _) as [q|].
  - destruct (IH q eq_refl) as [H1 H2].
    assert (Hq : q ∈ m_root m :: l ++ [c]) by (revert H2; rewrite !elem_of_cons, elem_of_app; tauto).
    destruct (path_starts_with h (m_host_path c)) eqn:Ec; [|by intros [= <-]].
    destruct (_ <? _)%nat; intros [= <-]; [|done]. split; [done|]. rewrite elem_of_cons, elem_of_app. right. right. by left.
  - destruct (path_starts_with h (m_host_path c)) eqn:Ec; [|done]. intros [= <-]. split; [done|].
    rewrite elem_of_cons, elem_of_app. right. right. by left.
Qed.

Lemma map_path_to_qnx_only l m path n : wf_mapper m -> only (may l) (map_path_to_qnx_s m path n).
Proof.
  intros (_ & Hf & _). unfold map_path_to_qnx_s, map_path_to_qnx, mk_host_path. cbn.
  destruct (most_general _ _) as [p|] eqn:Ep; [|done]. apply most_general_spec in Ep as [Hs Hin].
  destruct (proj1 (Forall_forall _ _) Hf p Hin) as [Hq Hh].
  apply only_bind; [|done]. apply change_prefix_only; [done|done|right].
  apply starts_with_spec in Hs as [rest ->]. rewrite length_app. lia.
Qed.

(** ** Pids: the search does not run out of fuel *)

Definition dangling : exn := Undefined "dangling pointer".
Definition null_pid : exn := Undefined "null pointer".

Definition around (try start : Z) : Z := if try <? start then start - try else start - try + (m_last_pid - m_start_pid + 1).

Lemma probe_loop_only l m start : forall fuel try it,
  PidMapFull ∈ l -> m_start_pid <= start <= m_last_pid -> m_start_pid <= try <= m_last_pid ->
  around try start <= Z.of_nat fuel -> only (may l) (probe_loop fuel m try it start).
Proof.
  induction fuel as [|fuel IH]; intros try it Hl Hs Ht Hf.
  { unfold around, m_start_pid, m_last_pid in *. destruct (Z.ltb_spec try start); lia. }
  cbn [probe_loop]. destruct it as [k|]; [|done]. destruct (k =? try); [|done].
  assert (Hw : u16 (try + 1) = try + 1) by (unfold m_start_pid, m_last_pid in *; apply wrapu_small; lia).
  rewrite Hw. destruct (Z.eqb_spec try m_last_pid) as [-> |Hne].
  - destruct (Z.eqb_spec m_start_pid start); [by right; right|]. apply IH; [done|done|unfold m_start_pid, m_last_pid; lia|].
    unfold around, m_start_pid, m_last_pid in *. destruct (Z.ltb_spec 32767 start), (Z.ltb_spec 10 start); lia.
  - destruct (Z.eqb_spec (try + 1) start); [by right; right|]. apply IH; [done|done|lia|].
    unfold around, m_start_pid, m_last_pid in *. destruct (Z.ltb_spec try start), (Z.ltb_spec (try + 1) start); lia.
Qed.

Lemma find_pid_only l m h : PidMapFull ∈ l -> only (may l) (find_pid m h).
Proof.
  intros Hl. unfold find_pid. destruct (find_ m (compress_pid h)); [|done]. cbv zeta.
  pose proof (randomize_range h). apply probe_loop_only; [done|lia|lia|].
  unfold around, probe_fuel. rewrite Z.ltb_irrefl. lia.
Qed.

Lemma alloc_empty_ends l h m : PidMapFull ∈ l -> ends (may l) (alloc_empty h m).
Proof.
  intros Hl. unfold alloc_empty. pose proof (find_pid_only l (m_qnx_map m) h Hl). by destruct (find_pid _ _).
Qed.

Lemma alloc_related_ends l h m : PidMapFull ∈ l -> ends (may l) (alloc_related_pid h SELF m).
Proof.
  intros Hl. unfold alloc_related_pid. apply ends_bind; [done|]. intros m1 [] _.
  destruct (h =? -1); [done|]. apply ends_bind; [done|]. intros m2 m3 _. destruct (_ !! _); [done|].
  apply ends_bind; [by apply alloc_empty_ends|done].
Qed.

(** The assertion that the host pid is not known. *)
Lemma alloc_child_ends l h m : PidMapFull ∈ l -> AssertFailed ∈ l -> ends (may l) (alloc_child_pid h m).
Proof.
  intros Hl Ha. unfold alloc_child_pid. apply ends_bind; [done|]. intros m1 m2 _. apply ends_bind.
  { destruct (0 <=? h); [|done]. unfold ends, lift, check. simpl. case_bool_decide; [done|]. by right; right. }
  intros m3 [] _. apply ends_bind; [by apply alloc_empty_ends|]. intros m4 pi _.
  apply ends_bind; [done|]. intros m5 [] _. apply ends_bind; [|done]. by destruct (0 <=? h).
Qed.

Lemma alloc_child_known h m m' p : alloc_child_pid h m = (m', Ok p) -> is_Some (m_qnx_map m' !! p).
Proof.
  unfold alloc_child_pid. intros H. apply M_bind_Ok in H as (m1 & m2 & _ & H).
  apply M_bind_Ok in H as (m3 & [] & _ & H). apply M_bind_Ok in H as (m4 & pi & Ha & H).
  apply M_bind_Ok in H as (m5 & [] & [= <-] & H). apply M_bind_Ok in H as (m6 & [] & Hr & H).
  injection H as <- <-. revert Ha. unfold alloc_empty. destruct (find_pid _ _) as [q|]; [|done]. intros [= <- <-].
  revert Hr. destruct (0 <=? h); intros [= <-]; unfold set_node; simpl; by rewrite alter_insert_eq, lookup_insert_eq.
Qed.

(** ** Segments and descriptors *)

Definition ldt_refused : exn := LogicError EmptyString.

Section Segments.
Context (mmap : Z -> Z -> Z -> Z -> option Z) (modify_ldt : user_desc -> bool) (l : list exn).

Lemma throw_ends {S A} x (s : S) : kind_of x ∈ l -> ends (may l) (throw (A := A) x s).
Proof. by do 2 right. Qed.

Lemma reserve_ends n s : BadAlloc ∈ l -> m_reserved s = 0 -> ends (may l) (reserve mmap n s).
Proof.
  intros Hl Hr. unfold reserve. apply ends_bind; [done|]. intros s1 s2 [= <- <-]. rewrite Hr.
  apply ends_bind; [done|]. intros s1 [] _. cbv zeta. destruct (mmap _ _ _ _); [done|by apply throw_ends].
Qed.

(** The pages asked for are whole ones: no assertion fails. *)
Lemma grow_bytes_ends n s : BadAlloc ∈ l -> Segment.wf s -> 0 <= n < 2 ^ 44 -> ends (may l) (grow_bytes mmap n s).
Proof.
  intros Hl Hwf Hn. pose proof Hwf as (H1 & H2 & _). unfold grow_bytes. apply ends_bind; [done|]. intros s1 s2 [= <- <-].
  assert (Hu : u64 (n + m_limit_size s) = n + m_limit_size s) by (apply wrapu_small; lia).
  destruct (Z.ltb_spec (m_reserved s) (u64 (n + m_limit_size s))) as [|Hle]; [by apply throw_ends|].
  apply ends_bind; [|done]. destruct (Z.ltb_spec (m_paged_size s) (u64 (n + m_limit_size s))) as [Hlt|]; [|done].
  destruct (grow_bytes_pages s n Hwf ltac:(lia) ltac:(lia) ltac:(lia)) as (_ & Ha & _).
  apply page_aligned_spec in Ha. unfold grow_paged_internal. rewrite Ha.
  apply ends_bind; [done|]. intros s1 [] [= <-]. apply ends_bind; [done|]. intros s1 s2 [= <- <-].
  destruct (_ <? _); [by apply throw_ends|]. destruct (mmap _ _ _ _); [done|by apply throw_ends].
Qed.

Lemma publish_ends ud sp : ldt_refused ∈ l -> ends (may l) (publish modify_ldt ud sp).
Proof. intros Hl. unfold publish. destruct (modify_ldt ud); [done|by do 2 right]. Qed.

Lemma update_descriptors_ends sd sp :
  ldt_refused ∈ l -> is_Some (segs sp !! sd_seg sd) -> ends (may l) (update_descriptors modify_ldt sd sp).
Proof.
  intros Hl [s Hs]. unfold update_descriptors. apply ends_bind; [done|]. intros sp1 sp2 [= <- <-]. rewrite Hs.
  by apply publish_ends.
Qed.

Lemma create_ends access mem bits sp :
  NoFreeId ∈ l -> ldt_refused ∈ l -> wf_space sp -> is_Some (segs sp !! mem) ->
  ends (may l) (create_segment_descriptor modify_ldt access mem bits sp).
Proof.
  intros Hf Hl Hwf Hs. pose proof Hwf as (_ & _ & H3 & _). unfold create_segment_descriptor, create_with, alloc_any.
  pose proof (alloc_from_spec (m_segment_descriptors sp) 0 (construct modify_ldt sp access mem bits) H3) as Hp.
  destruct (search _ _ _) as [k|]; [|by do 2 right].
  destruct (emplace k _ _) as [m r]. destruct Hp as (_ & _ & [(i & _ & _ & _ & Hr & _)|(-> & _)]).
  - destruct r as [sd|x]; [done|]. change (may l x).
    assert (Hc : only (may l) (construct modify_ldt sp access mem bits i)); [|by rewrite <- Hr in Hc].
    unfold construct. cbn [mbind outcome_bind].
    assert (Hu := update_descriptors_ends (mkDescriptor (u16 (Z.of_nat i)) access mem bits) sp Hl Hs).
    destruct (update_descriptors _ _ _) as [sp1 [[]|x1]]; [done|exact Hu].
  - by do 2 right.
Qed.
End Segments.

(** ** Computations on the process *)

(** Lists of exceptions, compared by evaluation. *)
Ltac listed := solve [assumption | repeat (first [by apply list_elem_of_here | apply list_elem_of_further])].

Create HintDb raises.
#[export] Hint Extern 1 (_ ∈ _) => listed : raises.

Section Raises.
Context {K : Type} {FK : FdKernel K} {HK : HostKernel K}.
Context (garbage_read : Z).
Notation St := (EmuState (World K)).
Notation ok := (keeps (evolves (K := K) garbage_read)).

Definition fit (e : St) : Prop := sane e /\ wf_mapper (w_paths (e_world e)).

Definition raises {A} (l : list exn) (m : H K A) : Prop := forall e, fit e -> ends (may l) (m e).

Lemma ok_fit {A} (m : H K A) e e' r : ok m -> fit e -> m e = (e', r) -> fit e'.
Proof. intros Hm [He Hp] Hrun. destruct (Hm _ _ _ Hrun He) as (H1 & _ & _ & _ & H2 & _). split; [done|by rewrite H2]. Qed.

Lemma fit_set_k k e : fit e -> fit (set_k k e).
Proof. intros [He Hp]. split; [|exact Hp]. by apply (set_k_evolves garbage_read k e He). Qed.

Lemma raises_ret {A} l (a : A) : raises l (mret a).
Proof. done. Qed.
Lemma raises_get l : raises l get.
Proof. done. Qed.
Lemma raises_gets {A} l (f : St -> A) : raises l (gets f).
Proof. done. Qed.
Lemma raises_modify l f : raises l (Prelude.modify f).
Proof. done. Qed.
Lemma raises_put l e : raises l (put e).
Proof. done. Qed.
Lemma raises_lift {A} l (o : outcome A) : only (may l) o -> raises l (lift o).
Proof. intros Ho e _. exact Ho. Qed.
Lemma raises_throw {A} l x : kind_of x ∈ l -> raises l (throw (A := A) x).
Proof. intros Hx e _. by do 2 right. Qed.

(** After a step that keeps the invariants the next one may rely on them. *)
Lemma raises_bind {A B} l (m : H K A) (f : A -> H K B) :
  ok m -> raises l m -> (forall a, raises l (f a)) -> raises l (m ≫= f).
Proof.
  intros Hm H1 H2 e He. apply ends_bind; [by apply H1|]. intros e' a Hrun.
  apply H2. exact (ok_fit _ _ _ _ Hm He Hrun).
Qed.

(** The same with what is known of the result. *)
Lemma raises_bind_post {A B} (Q : A -> Prop) l (m : H K A) (f : A -> H K B) :
  ok m -> raises l m -> (forall e e' a, fit e -> m e = (e', Ok a) -> Q a) ->
  (forall a, Q a -> raises l (f a)) -> raises l (m ≫= f).
Proof.
  intros Hm H1 HQ H2 e He. apply ends_bind; [by apply H1|]. intros e' a Hrun.
  apply H2; [by eapply HQ|]. exact (ok_fit _ _ _ _ Hm He Hrun).
Qed.

Lemma raises_try {A} l l' sel (m : H K A) h :
  ok m -> raises l' m -> (forall x, may l' x -> sel x = false -> may l x) -> (forall x, raises l (h x)) ->
  raises l (try_catch sel m h).
Proof.
  intros Hm H1 H2 H3 e He. unfold try_catch. specialize (H1 e He).
  destruct (m e) as [e1 [a|x]] eqn:E; [done|]. destruct (sel x) eqn:Es; [|by apply H2].
  apply H3. exact (ok_fit _ _ _ _ Hm He E).
Qed.

Lemma scoped_ends {A} l fds (m : H K A) e : ends (may l) (m e) -> ends (may l) (scoped fds m e).
Proof. unfold scoped. by destruct (m e) as [e1 [a|x]]. Qed.
Lemma raises_scoped {A} l fds (m : H K A) : raises l m -> raises l (scoped fds m).
Proof. intros Hm e He. by apply scoped_ends, Hm. Qed.

Lemma raises_restoring {A} l fd old (m : H K A) : raises l m -> raises l (restoring fd old m).
Proof. intros Hm e He. specialize (Hm e He). unfold restoring. by destruct (m e) as [e1 [a|x]]. Qed.

(** *** Operations *)

Lemma sysc_raises {A} l (c : Sys A) : raises l (sysc c).
Proof. intros e _. unfold sysc. by destruct (sys c _). Qed.
Lemma errno_raises l : raises l errno.
Proof. done. Qed.
Lemma errno_assign_raises l v : raises l (errno_assign v).
Proof. done. Qed.
Lemma world_raises l : raises l world.
Proof. done. Qed.
Lemma map_fd_raises l fd : raises l (map_fd fd).
Proof. done. Qed.

Lemma read_at_faults l i off n e : 0 <= off < 2 ^ 64 -> fit e -> ends (faults l) (read_at i off n e).
Proof. intros Ho [[Hsp _] _]. unfold read_at, ends. simpl. apply read_only; [done|done|lia]. Qed.
Lemma read_at_raises l i off n : 0 <= off < 2 ^ 64 -> raises l (read_at i off n).
Proof. intros Ho e He. by apply read_at_faults. Qed.
Lemma read_type_raises l i L : raises l (read_type i L).
Proof. apply read_at_raises. lia. Qed.

Lemma on_mem_raises {A} l (op : Translation -> M Mem A) :
  (forall sp mem, wf_space sp -> ends (may l) (op (space_translation sp) mem)) -> raises l (on_mem op).
Proof.
  intros Hop e [[Hsp _] _]. unfold on_mem. specialize (Hop (e_space e) (g_mem (e_guest e)) Hsp).
  by destruct (op _ _).
Qed.

Lemma write_at_raises l i off bs : 0 <= off < 2 ^ 64 -> raises l (write_at i off bs).
Proof.
  intros Ho e He. unfold write_at. apply ends_bind; [|done].
  apply (on_mem_raises l (fun T => Msg.write (T := T) (m_msg i) off bs)); [|done].
  intros sp mem Hsp. by apply write_ends.
Qed.
Lemma write_type_raises l i bs : raises l (write_type i bs).
Proof. apply write_at_raises. lia. Qed.
Lemma write_status_ends l i v (e : St) : wf_space (e_space e) -> ends (faults l) (write_status i v e).
Proof.
  intros Hsp. unfold write_status, on_mem.
  assert (Hw : ends (faults l) (Msg.write_status (T := space_translation (e_space e)) (m_msg i) v (g_mem (e_guest e)))).
  { unfold Msg.write_status. apply ends_bind; [|done]. apply write_ends; [done|lia]. }
  by destruct (Msg.write_status _ _ _).
Qed.
Lemma write_status_raises l i v : raises l (write_status i v).
Proof. intros e [[Hsp _] _]. by apply write_status_ends. Qed.
Lemma write_errno_ends l i (e : St) : wf_space (e_space e) -> ends (may l) (write_errno i e).
Proof. intros Hsp. unfold write_errno. apply ends_bind; [done|]. intros e' v [= <- _]. by apply write_status_ends. Qed.
Lemma write_errno_raises l i : raises l (write_errno i).
Proof. intros e [[Hsp _] _]. by apply write_errno_ends. Qed.
Lemma write_result_raises l i r : raises l (write_result i r).
Proof. unfold write_result. destruct (r =? 0); [apply write_status_raises|apply write_errno_raises]. Qed.

Lemma msg_write_iovec_raises l i off n :
  0 <= off < 2 ^ 64 -> 0 <= n -> raises l (msg_write_iovec garbage_read i off n).
Proof. intros Ho Hn e [[Hsp _] _]. by apply common_iovec_only. Qed.
Lemma msg_read_iovec_raises l i off n :
  0 <= off < 2 ^ 64 -> 0 <= n -> raises l (msg_read_iovec garbage_read i off n).
Proof. intros Ho Hn e [[Hsp _] _]. by apply common_iovec_only. Qed.
Lemma readv_raises l fd iov : raises l (readv fd iov).
Proof. intros e _. unfold readv, sysc, mbind, M_bind. by destruct (sys _ _) as [k [r d]]. Qed.
Lemma writev_raises l fd iov : raises l (writev fd iov).
Proof. intros e _. unfold writev, sysc, get, mbind, M_bind. by destruct (sys _ _). Qed.

Lemma attached_fd_ends l fd (e : St) : ends (may l) (attached_fd fd e).
Proof.
  unfold attached_fd, world, gets, lift, get_attached_fd, mbind, M_bind. destruct (at_ _ _); [done|apply may_bad_fd].
Qed.
Lemma open_fd_ends l fd (e : St) : ends (may l) (open_fd fd e).
Proof.
  unfold open_fd, world, gets, lift, get_open_fd, get_attached_fd, mbind, M_bind.
  destruct (at_ _ _) as [f|]; [|apply may_bad_fd]. simpl. unfold check_open, check.
  destruct (m_open f); [done|apply may_bad_fd].
Qed.
Lemma attached_fd_raises l fd : raises l (attached_fd fd).
Proof. intros e _. apply attached_fd_ends. Qed.
Lemma open_fd_raises l fd : raises l (open_fd fd).
Proof. intros e _. apply open_fd_ends. Qed.
Lemma on_fds_raises {A} l (op : M FdMap A) : (forall m, tidy m -> ends (may l) (op m)) -> raises l (on_fds op).
Proof. intros Hop e [(_ & Ht & _) _]. unfold on_fds. specialize (Hop _ Ht). by destruct (op _). Qed.
(** The methods of an object in its slot. *)
Lemma on_fd_ends {A} l fd f (op : M (QnxFd * K) A) (e : St) :
  at_ (w_fds (e_world e)) (Z.to_nat fd) = Some f -> ends (may l) (op (f, kern e)) -> ends (may l) (on_fd fd op e).
Proof. intros Hf. unfold on_fd. rewrite Hf. by destruct (op _) as [[f' k] r]. Qed.

Lemma attached_inv fd (e e' : St) f :
  attached_fd fd e = (e', Ok f) -> e' = e /\ at_ (w_fds (e_world e)) (Z.to_nat (u16 fd)) = Some f.
Proof.
  unfold attached_fd, world, gets, lift, get_attached_fd, mbind, M_bind.
  destruct (at_ _ _) as [f'|] eqn:E; [|done]. intros [= <- <-]. done.
Qed.

Lemma open_inv fd (e e' : St) f : open_fd fd e = (e', Ok f) ->
  e' = e /\ at_ (w_fds (e_world e)) (Z.to_nat (u16 fd)) = Some f /\ m_open f = true.
Proof.
  unfold open_fd, world, gets, lift, get_open_fd, get_attached_fd, mbind, M_bind, check_open, check.
  destruct (at_ _ _) as [f'|] eqn:E; [|done]. simpl. destruct (m_open f') eqn:Eo; [|done]. intros [= <- <-]. done.
Qed.

Lemma assign_fd_ends l tmp f (k : K) :
  SystemError 0 ∈ l -> (AssertFailed ∈ l \/ m_open f = false) -> ends (may l) (assign_fd tmp (f, k)).
Proof.
  intros Hs Ha. unfold assign_fd. destruct (m_open f) eqn:Eo.
  { destruct Ha as [Ha|]; [by do 2 right|done]. }
  destruct (if negb _ then _ else _) as [k1 final]. destruct (_ && _); [done|]. unfold cloexec.
  destruct (is_close_on_exec _); [|done]. destruct (k_set_cloexec _ _) as [k2 r].
  destruct (r <? 0); [by do 2 right|done].
Qed.

Lemma close_ends l f (k : K) : m_open f = true -> ends (may l) (close (f, k)).
Proof. intros Ho. unfold close. rewrite Ho. simpl. by destruct (if m_host_dir f then _ else _). Qed.

Lemma prepare_dir_ends l f (k : K) : ends (may l) (prepare_dir (f, k)).
Proof. unfold prepare_dir. destruct (m_host_dir f); [done|]. by destruct (k_fdopendir _ _). Qed.

Lemma update_fds_raises l fd g : raises l (on_fds (Prelude.modify (update_fd fd g))).
Proof. by apply on_fds_raises. Qed.
Lemma fd_detach_raises l fd : raises l (fd_detach fd).
Proof. apply on_fds_raises. intros m _. by destruct (qnx_fd_detach fd m). Qed.
Lemma on_space_raises {A} l (op : M Space A) :
  (forall sp, wf_space sp -> ends (may l) (op sp)) -> raises l (on_space op).
Proof. intros Hop e [[Hsp _] _]. unfold on_space. specialize (Hop _ Hsp). by destruct (op _). Qed.
(** One step on the segments, the next from the space it leaves. *)
Lemma on_space_bind_ends {A B} l (op : M Space A) (f : A -> H K B) e :
  ends (may l) (op (e_space e)) ->
  (forall sp a, op (e_space e) = (sp, Ok a) -> ends (may l) (f a (set_space sp e))) ->
  ends (may l) ((on_space op ≫= f) e).
Proof.
  intros H1 H2. unfold on_space, mbind, M_bind. destruct (op (e_space e)) as [sp [a|x]]; [by apply H2|exact H1].
Qed.
Lemma on_pids_raises {A} l (op : M PidMap A) : (forall m, ends (may l) (op m)) -> raises l (on_pids op).
Proof. intros Hop e _. unfold on_pids. specialize (Hop (m_pids e)). by destruct (op _). Qed.

(** *** Paths, strings and pids *)

Definition unterminated : exn := Undefined "unterminated string".

Lemma c_string_raises l bs : unterminated ∈ l -> raises l (lift (c_string bs)).
Proof. intros Hl. apply raises_lift. unfold c_string. destruct (existsb _ _); [done|by do 2 right]. Qed.

Lemma to_host_raises l p n : past_path ∈ l -> raises l (to_host p n).
Proof. intros Hl e [_ Hp]. by apply map_path_to_host_only. Qed.
Lemma to_host_path_raises l p n : past_path ∈ l -> raises l (to_host_path p n).
Proof.
  intros Hl e He. unfold to_host_path. apply ends_bind; [by apply to_host_raises|done].
Qed.
Lemma to_qnx_raises l p : raises l (to_qnx p).
Proof. intros e [_ Hp]. by apply map_path_to_qnx_only. Qed.
Lemma to_qnx_path_raises l p : raises l (to_qnx_path p).
Proof. intros e He. unfold to_qnx_path. apply ends_bind; [by apply to_qnx_raises|done]. Qed.

Lemma deref_only l m p : dangling ∈ l -> only (may l) (deref m p).
Proof. intros Hl. unfold deref. destruct (_ !! _); [done|by do 2 right]. Qed.
Lemma proc_pid_ends l (e : St) : dangling ∈ l -> ends (may l) (proc_pid e).
Proof. intros Hl. unfold proc_pid. apply ends_bind; [done|]. intros e1 e2 _. apply ends_bind; [by apply deref_only|done]. Qed.
Lemma proc_parent_pid_ends l (e : St) : dangling ∈ l -> ends (may l) (proc_parent_pid e).
Proof. intros Hl. unfold proc_parent_pid. apply ends_bind; [done|]. intros e1 e2 _. apply ends_bind; [by apply deref_only|done]. Qed.
Lemma proc_pid_raises l : dangling ∈ l -> raises l proc_pid.
Proof. intros Hl e _. by apply proc_pid_ends. Qed.
Lemma proc_parent_pid_raises l : dangling ∈ l -> raises l proc_parent_pid.
Proof. intros Hl e _. by apply proc_parent_pid_ends. Qed.
Lemma host_to_qnx_raises l p : dangling ∈ l -> raises l (host_to_qnx p).
Proof.
  intros Hl e _. unfold host_to_qnx. apply ends_bind; [done|]. intros e1 e2 _.
  destruct (host _ _); [|done]. apply ends_bind; [by apply deref_only|done].
Qed.
Lemma valid_host_raises l p : null_pid ∈ l -> raises l (valid_host p).
Proof.
  intros Hl e _. unfold valid_host, qnx_valid_host. apply ends_bind; [done|]. intros e1 e2 _.
  unfold ends. simpl. destruct (qnx _ _); [done|by do 2 right].
Qed.
End Raises.

#[export] Hint Resolve sysc_raises errno_raises errno_assign_raises world_raises map_fd_raises
  read_type_raises write_type_raises write_status_raises write_errno_raises write_result_raises
  readv_raises writev_raises attached_fd_raises open_fd_raises update_fds_raises fd_detach_raises
  c_string_raises to_host_raises to_host_path_raises to_qnx_raises to_qnx_path_raises proc_pid_raises
  proc_parent_pid_raises host_to_qnx_raises valid_host_raises raises_modify raises_put : raises.
