(* ===== verification/LogSpec.v ===== *)
(** * LogSpec: messages with the log on

    [Process::handle_msg] as the system calls use it, whatever categories of the
    log are enabled.  Printing a request or a reply can throw on its own account:
    for a pointer the guest gave, or for a text that is not terminated.  Nothing
    else: it ends, and no field lies beyond the bytes that were read. *)

From S2P Require Import Prelude Types Memory IdMap PathMapper PidMap TerminalFilter FdMap Segment AddressSpace Sigset Msg Log Errno GuestContext Emu Layout QnxMsg QnxMeta Host MsgHandler ProcHandler IoHandler TermHandler MainHandler Descriptors Sandbox Isolation Exchange MsgMeta Text Dump DumpSpec Raises.
Import QnxMeta.Meta.

(** ** Printing a structure *)

(** The bytes a field is printed from. *)
Definition need (f : Format) (array_len : nat) : nat :=
  match f with
  | CHAR => if (array_len =? 0)%nat then 1 else 0
  | U8 | I8 => 1
  | U16 | I16 | PID | Meta.FD => 2
  | U32 | I32 | NID => 4
  | PATH => 256
  | STDFDS => 10
  | SUB | TERMIOS | TIME => 0
  end%nat.

(** All of them lie within the first [n] bytes. *)
Fixpoint within (n off : nat) (t : Struct) : bool :=
  match t with
  | mkStruct fs _ =>
      forallb (fun f => let '(mkField _ o _ f _ r a) := f in
        match f, r with
        | SUB, Some t => within n (off + o) t
        | SUB, None => false
        | _, _ => (off + o + need f a <=? n)%nat
        end) fs
  end.

Definition open_text (x : exn) : Prop := x = unterminated.

Lemma print_value_only f p a off buf :
  (off + need f a <= length buf)%nat -> only open_text (print_value f p a off buf).
Proof.
  intros Hn.
  assert (Hat : forall k, (k <= need f a)%nat -> buf_at buf off k = Ok (slice off k buf)).
  { intros k Hk. unfold buf_at. by rewrite (proj2 (Nat.leb_le _ _)) by lia. }
  destruct f; cbn [print_value need] in *; unfold buf_int; try exact I; try (rewrite Hat by lia; exact I).
  destruct (a =? 0)%nat; [by rewrite Hat by lia|]. apply only_bind; [|done].
  unfold c_string. by destruct (existsb _ _).
Qed.

Lemma within_only buf t : forall indent off,
  within (length buf) off t = true -> only open_text (dump_substructure t indent off buf).
Proof.
  induction t as [fs n IH] using Struct_ind'. intros indent off. cbn [within dump_substructure].
  induction IH as [|[nm o sz f p r a] fs Hf _ IHfs]; intros H; [done|]. cbn [forallb] in H. apply andb_prop in H as [Hw Hr].
  cbn [dump_fields]. apply only_bind; [|intros v _; apply only_bind; [by apply IHfs|done]].
  cbn [print_field m_offset]. destruct f;
    try (apply print_value_only; apply Nat.leb_le; destruct r; exact Hw).
  destruct r as [t|]; [|discriminate Hw]. apply only_bind; [by apply Hf|done].
Qed.

Lemma structs_within : Forall (fun t => within (m_size t) 0 t = true) all_structs.
Proof.
  apply Forall_forall. intros t Ht. apply list_elem_of_In in Ht.
  assert (H : forallb (fun t => within (m_size t) 0 t) all_structs = true) by (vm_compute; reflexivity).
  exact (proj1 (forallb_forall _ _) H t Ht).
Qed.

(** ** What was read *)

Lemma read_loop_length {T : Translation} mem chunks : forall fuel size it dst bs,
  0 <= size -> read_loop fuel mem chunks size it dst = Ok bs -> length bs = (length dst + Z.to_nat size)%nat.
Proof.
  induction fuel as [|fuel IH]; intros size it dst bs Hs; [done|]. cbn [read_loop].
  destruct (Z.eqb_spec size 0) as [-> |]; [intros [= <-]; simpl; lia|].
  destruct (next _ _ _) as [s it'] eqn:En. destruct (FarSlice_is_empty s); [intros [= <-]; rewrite length_app, length_replicate; lia|].
  pose proof (next_bounded _ _ _ _ _ Hs En). destruct (translate _ _ _); [|done].
  intros H1. apply IH in H1; [|lia]. rewrite H1, length_app, length_load. lia.
Qed.

Lemma read_chunks_length {T : Translation} mem e off n bs :
  0 <= n -> read_chunks mem e off n = Ok bs -> length bs = Z.to_nat n.
Proof.
  intros Hn. unfold read_chunks. destruct (skip_to _ _ _); [|done]. intros H.
  exact (read_loop_length _ _ _ _ _ _ _ Hn H).
Qed.

(** ** Printing messages *)

Section Print.
Context {K : Type} {FK : FdKernel K} {HK : HostKernel K}.
Notation St := (EmuState (World K)).

(** What printing raises. *)
Notation print_ends := (faults [unterminated]).

(** A description of the lists, or none. *)
Definition described (t : option Meta.Message) : Prop :=
  match t with Some t => t ∈ Meta.all_messages | None => True end.

Lemma dump_bytes_ends (t : Struct) bs (oe : cstring * St) :
  t ∈ all_structs -> length bs = m_size t -> ends print_ends (dump_bytes t bs oe).
Proof.
  intros Ht Hl. unfold dump_bytes. apply ends_bind; [|intros s' a _; by destruct s'].
  unfold ends, lift. cbn [snd]. eapply only_mono; [|apply within_only].
  - intros x ->. by right; left.
  - rewrite Hl. exact (proj1 (Forall_forall _ _) structs_within t Ht).
Qed.

Lemma read_ends l (what : St -> entries) n (e : St) :
  wf_space (e_space e) ->
  only (faults l) (read_chunks (T := space_translation (e_space e)) (g_mem (e_guest e)) (what e) 0 (Z.of_nat n)).
Proof.
  intros Hw. unfold read_chunks. apply only_bind; [apply skip_to_only; lia|]. intros it _.
  by apply (read_loop_only (e_space e) Hw); lia.
Qed.

Lemma dump_structure_ends t i o (e : St) :
  wf_space (e_space e) -> t ∈ all_structs -> ends print_ends (dump_structure t i (o, e)).
Proof.
  intros Hw Ht. pose proof (read_ends [unterminated] (fun _ => m_send (m_msg i)) (m_size t) e Hw) as Hr.
  unfold dump_structure, read_at, act, get, lift, mbind, M_bind.
  unfold Msg.read. destruct (read_chunks _ _ _ _) as [bs|x] eqn:E; [|exact Hr].
  apply read_chunks_length in E; [|lia]. apply dump_bytes_ends; [done|lia].
Qed.

Lemma dump_structure_written_ends t i o (e : St) :
  wf_space (e_space e) -> t ∈ all_structs -> ends print_ends (dump_structure_written t i (o, e)).
Proof.
  intros Hw Ht. pose proof (read_ends [unterminated] (fun _ => m_rcv (m_msg i)) (m_size t) e Hw) as Hr.
  unfold dump_structure_written, read_written_at, act, get, lift, mbind, M_bind.
  unfold Msg.read_written. destruct (read_chunks _ _ _ _) as [bs|x] eqn:E; [|exact Hr].
  apply read_chunks_length in E; [|lia]. apply dump_bytes_ends; [done|lia].
Qed.

(** Byte by byte: each round leaves one byte less. *)
Lemma dump_send_loop_ends sp mem chunks : wf_space sp -> sized chunks ->
  forall fuel it (oe : cstring * St), 0 <= it_offset it -> (Z.to_nat (bytes_ahead chunks it) < fuel)%nat ->
  ends print_ends (dump_send_loop fuel (space_translation sp) mem chunks it oe).
Proof.
  intros Hw Hc. induction fuel as [|fuel IH]; intros it oe Ho Hf; [lia|]. cbn [dump_send_loop].
  destruct (next chunks 1 it) as [s it'] eqn:En. destruct (FarSlice_is_empty s) eqn:Es; [by destruct oe|].
  destruct (next_ahead chunks 1 it s it' Hc Ho ltac:(lia) En) as [Ho' Ha].
  pose proof (slice_progress chunks 1 it s it' ltac:(lia) En Es) as Hp.
  pose proof (ahead_nonneg (drop (m_i it') chunks) (it_offset it') (Forall_drop _ _ _ Hc)) as Hn. fold (bytes_ahead chunks it') in Hn.
  destruct (next_range _ _ _ _ _ En Es) as [Hr _].
  apply ends_bind; [unfold ends, lift; cbn [snd]; by apply translate_only; [|exact Hr|]|].
  intros oe1 a _. apply ends_bind; [by destruct oe1|]. intros oe2 u _. apply IH; [done|lia].
Qed.

Lemma dump_send_ends i o (e : St) :
  wf_space (e_space e) -> entries_sized (m_send (m_msg i)) -> ends print_ends (dump_send i (o, e)).
Proof.
  intros Hw Hs. unfold dump_send. apply ends_bind; [done|]. intros oe e1 [= <- <-]. cbv zeta.
  set (chunks := chunks_of (g_mem (e_guest e)) (m_send (m_msg i))).
  assert (Hc : sized chunks) by by apply chunks_sized.
  apply ends_bind; [|intros oe u _; by destruct oe].
  apply dump_send_loop_ends; [done|done|done|]. unfold bytes_ahead. simpl. rewrite drop_0, ahead_zero by done.
  change (send_bytes chunks) with (lengths chunks). lia.
Qed.

Lemma struct_of_message t : t ∈ Meta.all_messages -> m_request t ∈ all_structs /\ m_reply t ∈ all_structs.
Proof.
  intros Ht. unfold all_structs. split; apply elem_of_app; [left|right]; by apply list_elem_of_fmap_2.
Qed.

Lemma log_request_ends i t o (e : St) :
  wf_space (e_space e) -> entries_sized (m_send (m_msg i)) -> described t ->
  ends print_ends (log_request i t (o, e)).
Proof.
  intros Hw Hs Ht. destruct t as [t|]; [|by apply dump_send_ends]. destruct (struct_of_message t Ht) as [Hq _].
  unfold log_request. apply ends_bind; [done|]. intros oe u [= <- _].
  apply ends_bind; [by apply dump_structure_ends|]. intros oe u1 _. by destruct oe.
Qed.

Lemma log_reply_ends i t o (e : St) :
  wf_space (e_space e) -> described t -> ends print_ends (log_reply i t (o, e)).
Proof.
  intros Hw Ht. destruct t as [t|]; [|done]. destruct (struct_of_message t Ht) as [_ Hq].
  unfold log_reply. apply ends_bind; [done|]. intros oe u [= <- _].
  apply ends_bind; [by apply dump_structure_written_ends|]. intros oe u1 _. by destruct oe.
Qed.

(** ** [handle_msg] *)

(** Printing the request or the reply of [i] in the state [e] raises [x]. *)
Definition log_raises (i : MsgContext) (e : St) (x : exn) : Prop :=
  exists t o, described t /\
    (snd (log_request i t (o, e)) = Throw x \/ snd (log_reply i t (o, e)) = Throw x).

Lemma log_raises_kind i e x :
  wf_space (e_space e) -> entries_sized (m_send (m_msg i)) -> log_raises i e x -> print_ends x.
Proof.
  intros Hw Hs (t & o & Ht & [H|H]).
  - pose proof (log_request_ends i t o e Hw Hs Ht) as Hx. unfold ends in Hx. by rewrite H in Hx.
  - pose proof (log_reply_ends i t o e Hw Ht) as Hx. unfold ends in Hx. by rewrite H in Hx.
Qed.

Lemma find_meta_run ty st o (e : St) : exists o1 t, find_meta ty st (o, e) = ((o1, e), Ok t) /\ described t.
Proof.
  assert (Hf : forall l, (forall m, m ∈ l -> m ∈ Meta.all_messages) -> described (find (match_meta ty st) l)).
  { intros l Hl. destruct (find _ l) as [m|] eqn:E; [|done]. apply find_some in E as [Hin _].
    by apply Hl, list_elem_of_In. }
  unfold find_meta, meta_list, Meta.all_messages in *.
  repeat (destruct (_ =? _); [eexists _, _; split; [reflexivity|apply Hf; intros m; rewrite !elem_of_app; tauto]|]).
  eexists _, None. by split.
Qed.

Lemma first_run en i ty st o (e : St) :
  exists o1 r1, (if is_enabled MSG en
     then t ← find_meta ty st; _ ← log_request i t; mret (Some t)
     else mret None : Dump.L (option (option Meta.Message))) (o, e) = ((o1, e), r1) /\
    match r1 with Ok (Some t) => described t | Ok None => True | Throw x => is_enabled MSG en = true /\ log_raises i e x end.
Proof.
  destruct (is_enabled MSG en); [|by eexists _, _]. unfold mbind, M_bind.
  destruct (find_meta_run ty st o e) as (o1 & t & -> & Ht).
  destruct (log_request_logs i t o1 e) as (text & r2 & E). rewrite E. destruct r2 as [u|x]; [by eexists _, _|].
  eexists _, _. split; [reflexivity|]. split; [done|]. exists t, o1. split; [done|]. left. by rewrite E.
Qed.

(** The log's text put aside: the outcome is the manager's, or printing the
    request raised something, and the manager saw nothing of it, or printing the
    reply did - each only if it is printed at all. *)
Lemma logged_run receive en i (e e' : St) r :
  logged receive en i e = (e', r) ->
  handle_msg receive i e = (e', r) \/
  (is_enabled MSG en = true /\ e' = e /\ exists x, r = Throw x /\ log_raises i e x) \/
  (is_enabled MSG_REPLY en = true /\ handle_msg receive i e = (e', Ok ()) /\ exists x, r = Throw x /\ log_raises i e' x).
Proof.
  unfold logged. destruct (read_type i s_header e) as [e0 r0] eqn:E0.
  assert (e0 = e) as ->.
  { unfold read_type, read_at, get, mbind, M_bind in E0. destruct (Msg.read _ _ _ _) in E0; by injection E0. }
  assert (Eh : handle_msg receive i e = match r0 with Ok _ => receive i e | Throw x => (e, Throw x) end).
  { unfold handle_msg, mbind, M_bind. rewrite E0. by destruct r0. }
  rewrite Eh. unfold handle_msg_log, mbind at 1, M_bind at 1, act at 1. rewrite E0.
  destruct r0 as [hdr|x]; [|intros [= <- <-]; by left].
  set (search := find_meta _ _). unfold mbind at 1, M_bind at 1.
  set (first := if is_enabled MSG en then _ else _).
  destruct (first_run en i hdr[: s_header ; "type" :] hdr[: s_header ; "subtype" :] [] e) as (o1 & r1 & E1 & H1).
  assert (Hfirst : forall z, first ([], e) = z -> z = ((o1, e), r1)) by (intros z <-; exact E1).
  match goal with |- context [first ?p] => destruct (first p) as [[oa ea] ra] eqn:Ea end.
  apply Hfirst in Ea. injection Ea as -> -> ->.
  destruct r1 as [found|x]; [|destruct H1 as [Hen H1]; intros [= <- <-]; right; left; by eauto].
  unfold mbind at 1, M_bind at 1, act at 1. destruct (receive i e) as [e2 [[]|x]] eqn:E2; [|intros [= <- <-]; by left].
  destruct (is_enabled MSG_REPLY en) eqn:Her; [|intros [= <- <-]; by left].
  assert (Hsecond : exists o2 t, (match found with Some t => mret t | None => search end) (o1, e2) = ((o2, e2), Ok t) /\ described t).
  { destruct found as [t|]; [by eexists _, _|]. apply find_meta_run. }
  destruct Hsecond as (o2 & t & E3 & Ht). unfold mbind, M_bind. rewrite E3.
  destruct (log_reply_logs i t o2 e2) as (text & r2 & E4). rewrite E4.
  destruct r2 as [[]|x]; intros [= <- <-]; [by left|]. right; right. split; [done|]. split; [done|]. exists x. split; [done|].
  exists t, o2. split; [done|]. right. by rewrite E4.
Qed.
End Print.
