(* ===== verification/Containment.v ===== *)
(** * Containment: no trap leaves the sandbox

    The emulator around the message handlers: system calls, semaphores, signal
    frames and traps, with [receive] as the receiver of messages, whatever part of
    the log is on, and the dump of [DebugDump].  A run of the guest under the emulator is a sequence of steps of
    the guest's own code and of traps; whatever the guest does and whatever the
    host answers, the emulator writes nothing but guest memory and the array for
    discarded data.  What the guest's own instructions can write is for the
    processor to say: it is a parameter of the runs. *)

From S2P Require Import Prelude Types Memory IdMap PathMapper PidMap TerminalFilter FdMap Segment AddressSpace Sigset Msg Errno GuestContext Emu Layout QnxMsg Host MsgHandler ProcHandler IoHandler TermHandler MainHandler Descriptors Sandbox Exchange MsgMeta Dump DebugDump Demo Isolation Raises LogSpec.

(** ** Guest operations *)

Definition guest_mem (sp : Space) (extra : Z -> Prop) (g g' : Guest) : Prop :=
  (regs_ok g -> regs_ok g') /\ only_guest sp extra (g_mem g) (g_mem g').

#[export] Instance guest_mem_pre sp extra : PreOrder (guest_mem sp extra).
Proof.
  split; [by intros g|]. intros g1 g2 g3 [H12 M12] [H23 M23]. split; [auto|by etrans].
Qed.

Section Guest.
Context (sp : Space) (extra : Z -> Prop) (Hwf : wf_space sp).
Notation gok := (keeps (guest_mem sp extra)).

Lemma set_reg_ok r v : gok (set_reg r v).
Proof.
  apply keeps_modify. intros g. split; [|done]. intros Hg. apply regs_ok_upd; [done|].
  apply wrapu_range. by destruct r.
Qed.

Lemma reg_ok r : gok (reg r).
Proof. apply keeps_gets, _. Qed.

Lemma read_data_ok s a n : gok (read_data (T := space_translation sp) s a n).
Proof. unfold read_data. keeps. Qed.

Lemma read_ok n s a : gok (GuestContext.read (T := space_translation sp) n s a).
Proof. pose proof read_data_ok. unfold GuestContext.read. keeps. Qed.

Lemma write_ok n s a v : (0 < n <= 8)%nat -> gok (GuestContext.write (T := space_translation sp) n s a v).
Proof using Hwf.
  unfold GuestContext.write, write_data. intros Hn g g' r. unfold mbind, M_bind, get, lift, Prelude.modify.
  rewrite length_le_bytes. destruct (translate _ _ _) as [l|x] eqn:Et; [|by intros [= <- _]]. intros [= <- _].
  pose proof (wrapu_range 32 a ltac:(lia)).
  apply (translate_guest sp (mkFarPointer (get_seg s g) (u32 a)) (Z.of_nat n) WRITE l Hwf) in Et;
    [|simpl; lia|lia].
  split; [done|]. eapply store_guest; [exact Et|]. by rewrite length_le_bytes.
Qed.

Lemma push_n_ok n v : (0 < n <= 8)%nat -> gok (push_n (T := space_translation sp) n v).
Proof using Hwf.
  intros Hn. pose proof reg_ok. pose proof set_reg_ok.
  pose proof (fun s a v => write_ok n s a v Hn). unfold push_n. keeps.
Qed.

Lemma push_stack_ok v : gok (push_stack (T := space_translation sp) v).
Proof using Hwf. apply push_n_ok. lia. Qed.
Lemma push_stack16_ok v : gok (push_stack16 (T := space_translation sp) v).
Proof using Hwf. apply push_n_ok. lia. Qed.

Lemma pop_n_ok n : gok (pop_n (T := space_translation sp) n).
Proof. pose proof reg_ok. pose proof set_reg_ok. pose proof read_ok. unfold pop_n. keeps. Qed.

Lemma push_reg_ok r : gok (push_reg (T := space_translation sp) r).
Proof using Hwf. pose proof reg_ok. pose proof push_stack_ok. unfold push_reg. keeps. Qed.
Lemma pop_reg_ok r : gok (pop_reg (T := space_translation sp) r).
Proof. pose proof set_reg_ok. pose proof (pop_n_ok 4). unfold pop_reg, pop_stack. keeps. Qed.

Lemma save_context_ok : gok (save_context (T := space_translation sp)).
Proof using Hwf. pose proof reg_ok. pose proof push_reg_ok. pose proof push_stack_ok. unfold save_context. keeps. Qed.
Lemma restore_context_ok : gok (restore_context (T := space_translation sp)).
Proof. pose proof pop_reg_ok. pose proof (pop_n_ok 4). unfold restore_context, pop_stack. keeps. Qed.

Lemma read_stack16_ok o n : gok (read_stack16 (T := space_translation sp) o n).
Proof. pose proof reg_ok. pose proof read_data_ok. unfold read_stack16. keeps. Qed.

Lemma syscall_error_mem_ok v : gok (set_syscall_error v).
Proof. pose proof reg_ok. pose proof set_reg_ok. unfold set_syscall_error, set_carry. keeps. Qed.
End Guest.

#[export] Hint Resolve set_reg_ok reg_ok read_ok push_stack_ok push_stack16_ok pop_n_ok save_context_ok
  restore_context_ok read_stack16_ok syscall_error_mem_ok : keeps.

(** ** The emulator *)

Section Emulator.
Context {K : Type} {FK : FdKernel K} {HK : HostKernel K}.
Context (garbage_read : Z).
Notation St := (EmuState (World K)).

Definition safe (e : St) : Prop := sane e /\ regs_ok (e_guest e).

(** [evolves] without the registers. *)
Definition contained (e e' : St) : Prop :=
  safe e ->
  safe e' /\ (forall x, guest_byte (e_space e) x -> guest_byte (e_space e') x) /\
  only_guest (e_space e') (garbage_area garbage_read) (g_mem (e_guest e)) (g_mem (e_guest e')) /\
  lasts e e'.

#[export] Instance contained_pre : PreOrder contained.
Proof.
  split; [by intros e He|].
  intros e1 e2 e3 H12 H23 H1. destruct (H12 H1) as (H2 & Hg & Hm & Hl).
  destruct (H23 H2) as (H3 & Hg' & Hm' & Hl'). split; [done|]. split; [auto|]. split; [|by etrans].
  intros x Hx He. rewrite Hm', Hm; auto.
Qed.

Notation inside := (keeps contained).

Lemma inside_same (e e' : St) : evolves garbage_read e e' -> contained e e'.
Proof.
  intros H [He Hr]. destruct (H He) as (H1 & H2 & H3 & H4 & H5). split; [|done]. split; [done|].
  intros r. unfold gr. rewrite H2. apply Hr.
Qed.

Lemma evolves_inside {A} (m : H K A) : keeps (evolves garbage_read) m -> inside m.
Proof. intros Hm e e' r Hrun. apply inside_same. exact (Hm _ _ _ Hrun). Qed.

Lemma on_guest_ok {A} (op : Translation -> M Guest A) :
  (forall sp, wf_space sp -> keeps (guest_mem sp (garbage_area garbage_read)) (op (space_translation sp))) ->
  inside (on_guest op).
Proof.
  intros Hop e e' r. unfold on_guest. destruct (op _ _) as [g x] eqn:E. intros [= <- _] [He Hr].
  destruct (Hop _ (proj1 He) _ _ _ E) as [H1 H2].
  split; [split; [exact He|by apply H1]|]. split; [done|]. by split; [exact H2|].
Qed.

(** *** Steps at a fixed address space *)

Definition fixed (sp : Space) (e e' : St) : Prop :=
  e_space e = sp -> contained e e' /\ e_space e' = sp.

#[export] Instance fixed_pre sp : PreOrder (fixed sp).
Proof.
  split; [by intros e He|]. intros e1 e2 e3 H12 H23 H1. destruct (H12 H1) as [H2 H3].
  destruct (H23 H3) as [H4 H5]. split; [by etrans|done].
Qed.

Lemma fixed_store sp a n bs :
  guest_range sp a n -> Z.of_nat (length bs) <= n -> keeps (fixed sp) (host_store a bs).
Proof.
  intros Ha Hn e e' r Hrun Hsp. split; [|by injection Hrun as <- _].
  apply inside_same. refine (host_store_evolves _ _ n _ _ _ _ _ _ Hrun); [by rewrite Hsp|lia].
Qed.

Lemma fixed_guest {A} sp (op : Translation -> M Guest A) :
  (forall sp, wf_space sp -> keeps (guest_mem sp (garbage_area garbage_read)) (op (space_translation sp))) ->
  keeps (fixed sp) (on_guest op).
Proof.
  intros Hop e e' r Hrun Hsp. split; [by apply (on_guest_ok op Hop _ _ _ Hrun)|].
  revert Hrun. unfold on_guest. destruct (op _ _). by intros [= <- _].
Qed.

(** Continue at the space of the current state. *)
Lemma inside_get {A} (f : St -> H K A) :
  (forall e, safe e -> keeps (fixed (e_space e)) (f e)) -> inside (e ← get; f e).
Proof. intros Hf e e' r Hrun He. by apply (Hf e He _ _ _ Hrun). Qed.

(** *** System calls *)

Lemma greg_ok r : inside (greg r).
Proof. apply on_guest_ok. intros. apply reg_ok. Qed.
Lemma greg_set_ok r v : inside (greg_set r v).
Proof. apply on_guest_ok. intros. apply set_reg_ok. Qed.
Lemma syscall_ok_ok : inside syscall_ok.
Proof. apply on_guest_ok. intros. apply set_reg_ok. Qed.
Lemma syscall_error_ok v : inside (syscall_error v).
Proof. apply on_guest_ok. intros. apply syscall_error_mem_ok. Qed.
Lemma host_call_inside c : inside (host_call c).
Proof. apply evolves_inside, host_call_ok. Qed.
Lemma signal_raise_inside s : inside (signal_raise s).
Proof. apply evolves_inside, signal_raise_ok. Qed.
Hint Resolve greg_ok greg_set_ok syscall_ok_ok syscall_error_ok host_call_inside signal_raise_inside : keeps.

Lemma modify_inside f :
  (forall e : St, e_guest (f e) = e_guest e /\ e_space (f e) = e_space e /\ m_sigtab (f e) = m_sigtab e /\
     e_world (f e) = e_world e /\ m_time_segment (f e) = m_time_segment e) -> inside (Prelude.modify f).
Proof.
  intros Hf. apply keeps_modify. intros e. destruct (Hf e) as (H1 & H2 & H3 & H4 & H5).
  apply inside_same. by apply evolves_same.
Qed.

Section Calls.
Context (now : Z * Z) (dump : St -> outcome unit).
Context (host_kill : Z -> Z -> Z) (handle_msg : MsgContext -> H K unit).
Context (Hmsg : forall i, inside (handle_msg i)).

Lemma new_msg_inside a b c d bits : inside (new_msg (W := World K) a b c d bits).
Proof. unfold new_msg. keeps. Qed.
Hint Resolve new_msg_inside : keeps.

Lemma send32_inside b : inside (send32 handle_msg b).
Proof using Hmsg. unfold send32. keeps. Qed.

Lemma send16_inside b : inside (send16 handle_msg b).
Proof using Hmsg.
  unfold send16. apply keeps_bind; [apply _| |keeps].
  apply on_guest_ok. intros. apply read_stack16_ok.
Qed.

Lemma receivmx_inside : inside (syscall_receivmx (W := World K)).
Proof. unfold syscall_receivmx. keeps. Qed.

Lemma sigreturn_inside : inside (syscall_sigreturn (W := World K)).
Proof.
  unfold syscall_sigreturn. apply keeps_bind; [apply _|apply on_guest_ok; intros; apply pop_n_ok|].
  intros mask. apply keeps_bind; [apply _|by apply modify_inside|]. intros _.
  apply keeps_bind; [apply _|apply on_guest_ok; intros; apply restore_context_ok|keeps].
Qed.

Lemma kill_inside s c : inside (kill (W := World K) host_kill s c).
Proof. unfold kill, host_code. keeps. Qed.
Hint Resolve send32_inside send16_inside receivmx_inside sigreturn_inside kill_inside : keeps.

Lemma dispatch_inside : inside (dispatch_syscall host_kill handle_msg).
Proof using Hmsg.
  unfold dispatch_syscall, catch_segv, syscall_sendmx, syscall_sendfdmx, syscall_priority, syscall_yield,
    syscall_kill. keeps.
Qed.

Lemma dispatch16_inside : inside (dispatch_syscall16 handle_msg).
Proof using Hmsg.
  unfold dispatch_syscall16, catch_segv, syscall16_sendmx, syscall16_sendfdmx, syscall16_receivmx,
    syscall16_sigreturn, syscall_priority, syscall_yield.
  apply keeps_bind; [apply _|keeps|]. intros esp.
  apply keeps_bind; [apply _|apply on_guest_ok; intros; apply read_ok|]. intros n.
  apply keeps_try; [apply _| |keeps].
  assert (inside (on_guest (fun T => pop_stack16 (T := T)))) by (apply on_guest_ok; intros; apply pop_n_ok).
  keeps.
Qed.

(** *** Semaphores *)

Lemma fixed_ok sp : keeps (fixed sp) syscall_ok.
Proof. apply fixed_guest. intros. apply set_reg_ok. Qed.
Lemma fixed_error sp v : keeps (fixed sp) (syscall_error v).
Proof. apply fixed_guest. intros. apply syscall_error_mem_ok. Qed.

Lemma dispatch_sem_inside : inside (dispatch_syscall_sem (W := World K)).
Proof.
  unfold dispatch_syscall_sem. apply inside_get. intros e [He Hr]. cbv zeta.
  destruct (translate_segmented _ _ _ _) as [sem|x] eqn:Et; [|by intros e1 e2 r [= <- _]].
  pose proof (Hr EAX) as Ha. cbn in Ha.
  apply translate_guest in Et; [|apply He|simpl; lia|done].
  assert (Hput : forall v, keeps (fixed (e_space e)) (host_store sem (le_bytes 4 v))).
  { intros v. by eapply fixed_store; [exact Et|rewrite length_le_bytes]. }
  pose proof fixed_ok. pose proof fixed_error. apply keeps_lift_bind. unfold host_load. keeps.
Qed.

(** *** Signals *)

Lemma host_load_inside a n : inside (host_load a n).
Proof. apply keeps_gets, _. Qed.
Lemma qnx_sigtab_inside s b : inside (qnx_sigtab (W := World K) s b).
Proof. unfold qnx_sigtab. keeps. Qed.
Hint Resolve host_load_inside qnx_sigtab_inside dispatch_sem_inside : keeps.

Lemma update_timesel_inside : inside (update_timesel now).
Proof.
  unfold update_timesel. apply inside_get. intros e [He Hr].
  destruct (segs (e_space e) !! m_time_segment e) as [s|] eqn:Es; [|apply keeps_throw, _].
  destruct (pointer s 0 sizeof_timesel) as [t|x] eqn:Et; [|by intros e1 e2 r [= <- _] ?].
  pose proof (proj1 (proj1 He) _ _ Es) as Hw.
  destruct (check_bounds_range s 0 sizeof_timesel Hw) as (b & _ & Hb & Hp); [done|done|].
  rewrite Et in Hp. destruct b; [|done]. destruct Hp as [[= ->] _].
  apply keeps_lift_bind. refine (fixed_store _ _ sizeof_timesel _ _ _); [|done]. intros k Hk. exists (m_time_segment e), s, k.
  split; [done|]. split; [|lia]. by apply Hb.
Qed.

Lemma sync_inside : inside (sync_host_sigmask (W := World K)).
Proof. unfold sync_host_sigmask. keeps. by apply modify_inside. Qed.

Lemma push_args_inside q act tab : inside (push_args (W := World K) q act tab).
Proof.
  unfold push_args.
  assert (H4 : forall v, inside (on_guest (fun T => push_stack (T := T) v)))
    by (intros; apply on_guest_ok; intros; by apply push_stack_ok).
  assert (H2 : forall v, inside (on_guest (fun T => push_stack16 (T := T) v)))
    by (intros; apply on_guest_ok; intros; by apply push_stack16_ok).
  keeps.
Qed.

Lemma push_frame_inside m q act tab : inside (push_frame (W := World K) m q act tab).
Proof.
  pose proof push_args_inside. unfold push_frame.
  assert (H4 : forall v, inside (on_guest (fun T => push_stack (T := T) v)))
    by (intros; apply on_guest_ok; intros; by apply push_stack_ok).
  assert (Hs : inside (on_guest (fun T => save_context (T := T))))
    by (intros; apply on_guest_ok; intros; by apply save_context_ok).
  keeps.
Qed.

Lemma set_sigs_inside p m : inside (Prelude.modify (set_sigs p m)).
Proof. by apply modify_inside. Qed.
Hint Resolve update_timesel_inside sync_inside push_frame_inside set_sigs_inside : keeps.

Lemma dump_context_inside : inside (dump_context dump).
Proof. unfold dump_context. keeps. Qed.
Hint Resolve dump_context_inside : keeps.

Lemma signal_tail_inside : inside (signal_tail now dump).
Proof. unfold signal_tail. keeps. Qed.
Hint Resolve signal_tail_inside : keeps.

Lemma handler_generic_inside s : inside (handler_generic now dump s).
Proof. unfold handler_generic. keeps. Qed.

(** *** Traps *)

Lemma matches_inside n : inside (matches_syscall (W := World K) n).
Proof.
  assert (H : forall s a, inside (on_guest (fun T => GuestContext.read (T := T) 1 s a)))
    by (intros; apply on_guest_ok; intros; apply read_ok).
  unfold matches_syscall. keeps.
Qed.
Hint Resolve matches_inside : keeps.

Lemma handle_guest_segv_inside : inside (handle_guest_segv dump).
Proof. unfold handle_guest_segv. keeps. Qed.
Hint Resolve handle_guest_segv_inside : keeps.

Lemma handler_segv_inside c : inside (handler_segv now dump host_kill handle_msg c).
Proof using Hmsg.
  pose proof dispatch_inside. pose proof dispatch16_inside.
  unfold handler_segv, migrate, trapped_syscall, skip_insn. keeps.
Qed.
End Calls.
End Emulator.

(** ** Runs *)

Section Runs.
Context {K : Type} {FK : FdKernel K} {HK : HostKernel K} {L : DescriptorLaws K}.
Context (mmap : Z -> Z -> Z -> Z -> option Z) (modify_ldt : user_desc -> bool).
Context (sigaction : Z -> SigHandler -> Z) (garbage_read : Z).
Notation St := (EmuState (World K)).

(** The addresses the guest's own instructions can write, whatever they are.  The
    processor checks a guest's access against the descriptors Qine loaded, and
    these need not confine it: the limit of an empty segment's wraps around to 4
    GB, and the host's flat selectors are in reach.  Qine's own objects are records
    here and not bytes of this memory: a guest that writes those is beyond the
    model. *)
Context (reach : Z -> Prop).

(** The receiver of messages, with the categories [enabled] of the log on. *)
Definition handle (uninit : nat -> Z) (enabled : Z) (i : MsgContext) : H K unit :=
  logged (receive mmap modify_ldt sigaction garbage_read uninit) enabled i.

Lemma logged_inside uninit enabled i : mmap_law mmap -> keeps (contained garbage_read) (handle uninit enabled i).
Proof.
  intros Hm e e' r H.
  assert (Hk : keeps (contained garbage_read) (handle_msg (receive mmap modify_ldt sigaction garbage_read uninit) i)).
  { unfold handle_msg. apply keeps_bind; [apply _|apply evolves_inside, read_type_ok|].
    intros _. by apply evolves_inside, receive_ok. }
  destruct (logged_run _ _ _ _ _ _ H) as [E|[(_ & -> & _)|(_ & E & _)]]; [exact (Hk _ _ _ E)|reflexivity|exact (Hk _ _ _ E)].
Qed.

(** One step: the guest's own code; a change of the host's; a fault or system
    call; a host signal.  The clock, the host's [kill], what it says of a fault,
    the enabled part of the log and unwritten stack memory are arbitrary in each
    step.  A trap may end in any
    way but in undefined behaviour, after which nothing can be said. *)
Inductive step (e : St) : St -> Prop :=
| step_guest g :
    regs_ok g ->
    (forall x, ~ reach x -> peek (g_mem g) x = peek (g_mem (e_guest e)) x) ->
    step e (set_guest g e)
| step_host k : step e (set_k k e)
| step_segv now fault host_kill uninit enabled si_code e' r :
    handler_segv now (dumped fault) host_kill (handle uninit enabled) si_code e = (e', r) ->
    defined r -> step e e'
| step_signal now fault sig e' r : handler_generic now (dumped fault) sig e = (e', r) -> defined r -> step e e'.

(** [contained], with the guest's own writes. *)
Definition contained_in (e e' : St) : Prop :=
  safe e ->
  safe e' /\ (forall x, guest_byte (e_space e) x -> guest_byte (e_space e') x) /\
  only_guest (e_space e') (fun x => reach x \/ garbage_area garbage_read x) (g_mem (e_guest e)) (g_mem (e_guest e')) /\
  lasts e e'.

#[export] Instance contained_in_pre : PreOrder contained_in.
Proof.
  split; [by intros e He|].
  intros e1 e2 e3 H12 H23 H1. destruct (H12 H1) as (H2 & Hg & Hm & Hl).
  destruct (H23 H2) as (H3 & Hg' & Hm' & Hl'). split; [done|]. split; [auto|]. split; [|by etrans].
  intros x Hx He. rewrite Hm', Hm; auto.
Qed.

Lemma contained_weaken e e' : contained garbage_read e e' -> contained_in e e'.
Proof.
  intros H He. destruct (H He) as (H1 & H2 & H3 & H4). split; [done|]. split; [done|]. split; [|done].
  intros x Hx Hn. apply H3; [done|]. intros Hg. apply Hn. by right.
Qed.

Lemma step_contained e e' : mmap_law mmap -> step e e' -> contained_in e e'.
Proof.
  intros Hm [g Hr Hg|k|now fault host_kill uninit enabled c e2 r Hrun _|now fault s e2 r Hrun _].
  - intros [He _]. split; [by split|]. split; [done|]. split; [|done]. intros x _ Hx. apply Hg. intros Hw. apply Hx. by left.
  - apply contained_weaken, inside_same, set_k_evolves.
  - apply contained_weaken. refine (handler_segv_inside garbage_read now _ host_kill _ _ c _ _ _ Hrun).
    intros i. by apply logged_inside.
  - apply contained_weaken. exact (handler_generic_inside garbage_read now _ s _ _ _ Hrun).
Qed.

Lemma steps_contained e e' : mmap_law mmap -> rtc step e e' -> contained_in e e'.
Proof.
  intros Hm. induction 1 as [e|e1 e2 e3 Hs _ IH]; [done|]. etrans; [by apply step_contained|exact IH].
Qed.

(** Qine does not leave the sandbox on the guest's behalf: in every run of a
    program under the emulator - any guest code, any system calls, messages,
    signals and faults, any answers of the host, as long as Qine's code does not
    run into undefined behaviour - the state stays well formed and no byte of
    the host's memory changes but those of the guest's segments, of the array
    that takes discarded data, and what the guest's own instructions reach. *)
Theorem run_contained e e' :
  mmap_law mmap -> safe e -> rtc step e e' ->
  safe e' /\ (forall x, guest_byte (e_space e) x -> guest_byte (e_space e') x) /\
  (forall x, ~ guest_byte (e_space e') x -> ~ (garbage_read <= x < garbage_read + sizeof_garbage) -> ~ reach x ->
     peek (g_mem (e_guest e')) x = peek (g_mem (e_guest e)) x).
Proof.
  intros Hm He Hrun. destruct (steps_contained e e' Hm Hrun He) as (H1 & H2 & H3 & _).
  split; [done|]. split; [done|]. intros x Hx Hg Hr. apply H3; [done|]. by intros [|].
Qed.
End Runs.

(** The guest writes into its segment, then the host interrupts it. *)
Definition demo_run : EmuState (World Script) :=
  set_guest (set_gmem (store ∅ (2 ^ 26 + 5) [1; 2; 3]) demo_guest)
    (demo_proc demo_fds (mkScript 0 [] 0) []).

Lemma run_contained_witness :
  let e := demo_proc demo_fds (mkScript 0 [] 0) [] in
  mmap_law demo_mmap /\ safe e /\
  rtc (step demo_mmap (fun _ => true) (fun _ _ => 0) 77 (guest_byte demo_space)) e (set_k (mkScript 4 [] 9) demo_run) /\
  safe (set_k (mkScript 4 [] 9) demo_run).
Proof.
  intros e. assert (He : safe e).
  { split; [apply demo_sane, demo_tidy|exact demo_regs_ok]. }
  assert (Hrun : rtc (step demo_mmap (fun _ => true) (fun _ _ => 0) 77 (guest_byte demo_space)) e (set_k (mkScript 4 [] 9) demo_run)).
  { eapply rtc_l; [|apply rtc_once, step_host]. apply step_guest; [exact demo_regs_ok|].
    intros x Hx. change (peek (store ∅ (2 ^ 26 + 5) [1; 2; 3]) x = peek ∅ x). rewrite peek_store. change (Z.of_nat (length [1; 2; 3])) with 3.
    destruct (Z.leb_spec (2 ^ 26 + 5) x), (Z.ltb_spec x (2 ^ 26 + 5 + 3)); cbn [andb]; try done.
    exfalso. apply Hx. exists 0%nat, demo_segment, (x - 2 ^ 26). split; [done|]. split; [|simpl; lia].
    split; [lia|]. simpl. replace (_ / MemOps.PAGE_SIZE) with 0; [done|].
    unfold MemOps.PAGE_SIZE. symmetry. apply Z.div_small. lia. }
  split; [exact demo_mmap_law|]. split; [exact He|]. split; [exact Hrun|].
  exact (proj1 (run_contained demo_mmap (fun _ => true) (fun _ _ => 0) 77 (guest_byte demo_space) _ _ demo_mmap_law He Hrun)).
Defined.
