(* ===== verification/MainSpec.v ===== *)
(** * MainSpec: the table of messages

    The nested switches of [receive_inner] against the list of the messages that
    are handled, in the order of the message files. *)

From S2P Require Import Prelude Types Memory IdMap PathMapper PidMap TerminalFilter FdMap Segment AddressSpace Sigset Msg Errno GuestContext Emu Layout QnxMsg Host MsgHandler ProcHandler IoHandler TermHandler MainHandler Exchange Demo.

Section Table.
Context {K : Type} {FK : FdKernel K} {HK : HostKernel K}.
Context (mmap : Z -> Z -> Z -> Z -> option Z) (modify_ldt : user_desc -> bool).
Context (sigaction : Z -> SigHandler -> Z) (garbage_read : Z) (uninit : nat -> Z).

(** Which messages are handled, and how. *)
Definition handlers : list (Message * (MsgContext -> H K unit)) :=
  [(msg_proc_terminate, proc_terminate); (msg_proc_slib_register, proc_slib_register);
   (msg_proc_segment_realloc, proc_segment_realloc mmap modify_ldt);
   (msg_proc_segment_alloc, proc_segment_alloc mmap modify_ldt);
   (msg_proc_segment_free, proc_segment_free);
   (msg_proc_segment_flags, proc_segment_flags modify_ldt);
   (msg_proc_segment_put, proc_segment_put); (msg_proc_segment_arm, proc_segment_arm);
   (msg_proc_segment_priv, proc_segment_priv); (msg_proc_name_attach, proc_name_attach);
   (msg_proc_time, proc_time); (msg_proc_setpgid, proc_setpgid); (msg_proc_open, proc_open);
   (msg_proc_fd_attach, proc_fd_attach); (msg_proc_fd_detach, proc_fd_detach);
   (msg_proc_fd_query, proc_fd_query); (msg_proc_fd_action1, proc_fd_setfd);
   (msg_proc_vc_attach, proc_vc_attach); (msg_proc_vc_detach, proc_vc_detach);
   (msg_proc_psinfo, proc_psinfo); (msg_proc_sigtab, proc_sigtab);
   (msg_proc_sigraise, proc_sigraise); (msg_proc_sigact, proc_sigact sigaction); (msg_proc_sigmask, proc_sigmask);
   (msg_proc_getid, proc_getid); (msg_proc_osinfo, proc_osinfo); (msg_proc_spawn, proc_spawn);
   (msg_proc_fork, proc_fork); (msg_proc_exec, proc_exec); (msg_proc_timer_create, proc_timer_create);
   (msg_proc_timer_settime, proc_timer_settime); (msg_proc_timer_alarm, proc_timer_alarm);
   (msg_proc_wait, proc_wait); (msg_proc_prefix, proc_prefix); (msg_proc_sid_query, proc_sid_query);
   (msg_proc_sid_set, proc_sid_set); (msg_proc_sem_init, proc_sem_init);
   (msg_proc_sem_destroy, proc_sem_destroy);
   (msg_io_io_open, io_open); (msg_io_handle, io_open); (msg_io_chdir, io_chdir);
   (msg_io_rename, io_rename); (msg_io_stat, io_stat); (msg_io_fstat, io_fstat); (msg_io_close, io_close);
   (msg_io_read, io_read garbage_read uninit); (msg_io_write, io_write garbage_read uninit);
   (msg_io_lseek, io_lseek); (msg_io_readdir, io_readdir uninit); (msg_io_rewinddir, io_rewinddir);
   (msg_io_fcntl_flags, io_fcntl_flags); (msg_io_dup, io_dup); (msg_io_fpathconf, io_fpathconf);
   (msg_io_chmod, io_chmod); (msg_io_chown, io_chown); (msg_io_utime, io_utime);
   (msg_io_ioctl, io_ioctl); (msg_io_qioctl, io_qioctl uninit); (msg_io_lock, io_lock);
   (msg_fsys_unlink, fsys_unlink); (msg_fsys_mkspecial, fsys_mkspecial); (msg_fsys_link, fsys_link);
   (msg_fsys_sync, fsys_sync); (msg_fsys_readlink, fsys_readlink); (msg_fsys_trunc, fsys_trunc);
   (msg_fsys_fsync, fsys_fsync); (msg_fsys_pipe, fsys_pipe); (msg_fsys_disk_entry, fsys_disk_entry);
   (msg_fsys_get_mount, fsys_get_mount); (msg_fsys_disk_space, fsys_disk_space);
   (msg_dev_tcgetattr, dev_tcgetattr); (msg_dev_tcsetattr, dev_tcsetattr); (msg_dev_dev_info, dev_info);
   (msg_dev_dev_fdinfo, dev_fdinfo); (msg_dev_tcgetpgrp, dev_tcgetpgrp);
   (msg_dev_tcsetpgrp, dev_tcsetpgrp); (msg_dev_term_size, dev_term_size); (msg_dev_tcdrain, dev_tcdrain);
   (msg_dev_tcflush, dev_tcflush); (msg_dev_read, dev_read garbage_read uninit);
   (msg_dev_insert_chars, dev_insert_chars uninit); (msg_dev_mode, dev_mode)].

(** Two types are handled whatever the subtype. *)
Definition undistinguished : list Z := [TYPE msg_proc_slib_register; TYPE msg_proc_prefix].

Definition is_message (type subtype : Z) (m : Message) : bool :=
  (TYPE m =? type) &&
  (bool_decide (type ∈ undistinguished) || bool_decide (SUBTYPE m = None) || bool_decide (SUBTYPE m = Some subtype)).

Definition handler_of (type subtype : Z) : option (MsgContext -> H K unit) :=
  foldr (fun p rest => if is_message type subtype p.1 then Some p.2 else rest) None handlers.

Definition handled_types : list Z := TYPE ∘ fst <$> handlers.

Lemma handler_of_other type subtype : type ∉ handled_types -> handler_of type subtype = None.
Proof.
  unfold handled_types, handler_of. induction handlers as [|[m h] l IH]; intros Hn; [done|]. simpl in *.
  apply not_elem_of_cons in Hn as [Hm Hn]. unfold is_message at 1.
  destruct (Z.eqb_spec (TYPE m) type); [by subst|]. by apply IH.
Qed.

Definition run_handler (i : MsgContext) (type subtype : Z) : H K unit :=
  match handler_of type subtype with
  | Some h => h i
  | None => if type =? TYPE msg_proc_sem_init then mret () else unhandled_msg i
  end.

Lemma sub_switch_find (cases : list (Message * (MsgContext -> H K unit))) other i type st :
  Forall (fun p => TYPE p.1 = type /\ SUBTYPE p.1 <> None) cases -> type ∉ undistinguished ->
  sub_switch cases other i st =
    match foldr (fun p rest => if is_message type st p.1 then Some p.2 else rest) None cases with
    | Some h => h i | None => other end.
Proof.
  intros Hc Ht. induction Hc as [|[m h] cases [Hm Hs] Hc IH]; [done|].
  cbn [sub_switch foldr fst snd] in *. unfold is_message at 1.
  rewrite Hm, Z.eqb_refl, (bool_decide_false (type ∈ _)), (bool_decide_false (SUBTYPE m = None)) by done.
  cbn [andb orb]. destruct (bool_decide _); [done|exact IH].
Qed.

Lemma dispatch_other i type subtype :
  type ∉ handled_types ->
  dispatch mmap modify_ldt sigaction garbage_read uninit i type subtype = unhandled_msg i.
Proof.
  intros Hn. unfold dispatch, proc_switch, io_switch, fsys_switch, dev_switch.
  assert (Hf : forall t, t ∈ handled_types -> (type =? t) = false).
  { intros t Ht. apply Z.eqb_neq. by intros ->. }
  repeat (rewrite Hf by (apply (bool_decide_eq_true (_ ∈ handled_types)); vm_compute; reflexivity)). done.
Qed.

Lemma dispatch_handled i type subtype :
  type ∈ handled_types ->
  dispatch mmap modify_ldt sigaction garbage_read uninit i type subtype = run_handler i type subtype.
Proof.
  intros Ht. unfold handled_types, handlers in Ht. cbn [fmap list_fmap compose fst] in Ht.
  repeat (apply elem_of_cons in Ht as [->|Ht]; [try reflexivity|]).
  all: try by apply elem_of_nil in Ht.
  all: match goal with |- dispatch _ _ _ _ _ _ ?T _ = _ =>
    etrans; [refine (sub_switch_find _ _ i T subtype _ _)|reflexivity] end.
  all: first [by apply (bool_decide_eq_false (_ ∈ undistinguished))|repeat constructor; discriminate].
Qed.

Lemma dispatch_table i type subtype :
  dispatch mmap modify_ldt sigaction garbage_read uninit i type subtype = run_handler i type subtype.
Proof.
  destruct (decide (type ∈ handled_types)) as [Ht|Ht]; [by apply dispatch_handled|].
  rewrite dispatch_other by done. unfold run_handler. rewrite handler_of_other by done.
  destruct (Z.eqb_spec type (TYPE msg_proc_sem_init)) as [-> |]; [|done].
  destruct Ht. apply (bool_decide_eq_true (_ ∈ _)). vm_compute. reflexivity.
Qed.
End Table.

(** The header of a request. *)
Definition type_of {K} (e : EmuState (World K)) (i : MsgContext) : Z :=
  (asked e i 0 (sizeof s_header))[: s_header ; "type" :].
Definition subtype_of {K} (e : EmuState (World K)) (i : MsgContext) : Z :=
  (asked e i 0 (sizeof s_header))[: s_header ; "subtype" :].

(** ** Properties *)

(** C5. The switches of [receive_inner] implement the table of messages: the
    handler of a message of the table is run on the request with nothing done
    before it, and a [BadFdException] it raises is answered with EBADF; a
    message that is not in the table is answered with ENOSYS and nothing else
    happens - except that an unknown semaphore call is not answered at all. *)
Theorem receive_table {K} {FK : FdKernel K} {HK : HostKernel K} mmap modify_ldt sigaction
    garbage_read uninit i (e : EmuState (World K)) :
  can_ask e i ->
  let run := receive mmap modify_ldt sigaction garbage_read uninit i e in
  match handler_of mmap modify_ldt sigaction garbage_read uninit (type_of e i) (subtype_of e i) with
  | Some h =>
      forall e' r, h i e = (e', r) ->
      (r <> Throw BadFdException -> run = (e', r)) /\
      (r = Throw BadFdException -> can_reply e' i -> run = (replied i 0 (le_bytes 2 Errno.Qnx.QEBADF) e', Ok ()))
  | None =>
      if type_of e i =? TYPE msg_proc_sem_init then run = (e, Ok ())
      else can_reply e i -> run = (replied i 0 (le_bytes 2 Errno.Qnx.QENOSYS) e, Ok ())
  end.
Proof.
  intros Hask run.
  assert (Hrun : run = try_catch is_bad_fd
    (run_handler mmap modify_ldt sigaction garbage_read uninit i (type_of e i) (subtype_of e i))
    (fun _ => write_status i Errno.Qnx.QEBADF) e).
  { unfold run, receive, try_catch, receive_inner.
    rewrite (bind_Ok _ _ _ _ _ (read_type_run e i s_header Hask eq_refl)).
    by rewrite dispatch_table. }
  unfold run_handler, try_catch in Hrun. rewrite Hrun. destruct (handler_of _ _ _ _ _ _ _) as [h|].
  - intros e' r Hh. rewrite Hh. destruct r as [a|x]; [by split|].
    destruct x; simpl; split; try done. intros _ Hr. by apply write_status_run.
  - destruct (_ =? _); [done|]. intros Hr. unfold unhandled_msg. by rewrite write_status_run.
Qed.

Lemma receive_table_witness :
  let e := demo_proc demo_fds (mkScript 0 [] 0) [77; 0; 0; 0] in
  let e9 := demo_proc demo_fds (mkScript 0 [] 0) [2; 1; 0; 0; 9; 0] in
  can_ask e demo_ctx /\ type_of e demo_ctx = 77 /\
  receive demo_mmap (fun _ => true) (fun _ _ => 0) 77 (fun _ => 0) demo_ctx e =
    (replied demo_ctx 0 [89; 0] e, Ok ()) /\
  receive demo_mmap (fun _ => true) (fun _ _ => 0) 77 (fun _ => 0) demo_ctx e9 =
    (replied demo_ctx 0 [9; 0] e9, Ok ()).
Proof.
  intros e e9. split; [apply demo_can_ask|]. split; [vm_compute; reflexivity|]. split.
  - pose proof (receive_table demo_mmap (fun _ => true) (fun _ _ => 0) 77 (fun _ => 0) demo_ctx e
      (demo_can_ask _ _ _)) as H.
    cbv zeta in H. replace (type_of e demo_ctx) with 77 in H by (vm_compute; reflexivity).
    replace (subtype_of e demo_ctx) with 0 in H by (vm_compute; reflexivity).
    exact (H (demo_can_reply _ _ _)).
  - pose proof (receive_table demo_mmap (fun _ => true) (fun _ _ => 0) 77 (fun _ => 0) demo_ctx e9
      (demo_can_ask _ _ _)) as H.
    cbv zeta in H. replace (type_of e9 demo_ctx) with 0x102 in H by (vm_compute; reflexivity).
    replace (subtype_of e9 demo_ctx) with 0 in H by (vm_compute; reflexivity).
    destruct (io_close demo_ctx e9) as [e' r] eqn:E. destruct (H e' r E) as [_ H2].
    assert (He : (e', r) = (e9, Throw BadFdException)) by (rewrite <- E; vm_compute; reflexivity).
    injection He as -> ->. exact (H2 eq_refl (demo_can_reply _ _ _)).
Defined.
