(* ===== verification/Endings.v ===== *)
(** * Endings: what a message can do besides being answered

    For every message, the exceptions its handler can let out: the table
    [special].  Everything else a handler could raise is caught or cannot
    happen. *)

From S2P Require Import Prelude Types Memory IdMap PathMapper PidMap TerminalFilter FdMap Segment AddressSpace Sigset Msg Errno GuestContext Emu Layout QnxMsg Host MsgHandler ProcHandler IoHandler TermHandler MainHandler Descriptors Sandbox Isolation Raises Exchange MainSpec Demo.

(** Documented: the target of a link is no longer than a path. *)
Definition links_law {K} {FK : FdKernel K} {HK : HostKernel K} : Prop :=
  forall path size (k k' : K) r data, sys (SReadlink path size) k = (k', (r, data)) -> r <= 4096.

Section Handlers.
#[local] Set Default Proof Using "L garbage_read Type".
Context {K : Type} {FK : FdKernel K} {HK : HostKernel K} {L : DescriptorLaws K}.
Context (mmap : Z -> Z -> Z -> Z -> option Z) (Hmmap : mmap_law mmap).
Context (modify_ldt : user_desc -> bool) (sigaction : Z -> SigHandler -> Z).
Context (garbage_read : Z) (uninit : nat -> Z).
Notation St := (EmuState (World K)).
Notation ok := (keeps (evolves (K := K) garbage_read)).
Notation out l m := (raises (K := K) l m).

(** Take a handler apart down to its operations. *)
Ltac raises_step :=
  match goal with
  | |- forall _, _ => intro
  | |- raises _ (mret _) => apply raises_ret
  | |- raises _ (throw _) => apply raises_throw; listed
  | |- raises _ get => apply raises_get
  | |- raises _ (gets _) => apply raises_gets
  | |- raises _ (lift (Ok _)) => by apply raises_lift
  | |- raises _ (scoped _ _) => apply raises_scoped
  | |- raises _ (restoring _ _ _) => apply raises_restoring
  | |- raises _ (_ ≫= _) => apply (raises_bind garbage_read); [solve [keeps]| |]
  | |- raises _ (let _ := _ in _) => cbv zeta
  | |- raises _ (match ?x with _ => _ end) => destruct x
  | |- raises _ _ => solve [auto with raises]
  end.
Ltac raises := repeat raises_step.
Tactic Notation "handler" reference(h) := unfold h; raises.

(** ** The process manager *)

Lemma proc_terminate_raises i : out [Exit 0] (proc_terminate i).
Proof. handler proc_terminate. Qed.
Lemma proc_time_raises i : out [] (proc_time i).
Proof. handler proc_time. Qed.
Lemma setpgid_arg_raises l p : null_pid ∈ l -> out l (setpgid_arg p).
Proof. intros Hl. handler setpgid_arg. Qed.
Hint Resolve setpgid_arg_raises : raises.
Hint Extern 1 (keeps _ (setpgid_arg _)) => apply setpgid_arg_ok : keeps.
Lemma proc_setpgid_raises i : out [null_pid] (proc_setpgid i).
Proof. handler proc_setpgid. Qed.
Lemma proc_fd_detach_raises i : out [] (proc_fd_detach i).
Proof. handler proc_fd_detach. Qed.
Lemma proc_fd_query_raises i : out [] (proc_fd_query i).
Proof. handler proc_fd_query. Qed.
Lemma proc_fd_setfd_raises i : out [] (proc_fd_setfd i).
Proof. handler proc_fd_setfd. Qed.
Lemma proc_slib_register_raises i : out [unterminated] (proc_slib_register i).
Proof. handler proc_slib_register. Qed.
Lemma proc_segment_arm_raises i : out [] (proc_segment_arm i).
Proof. handler proc_segment_arm. Qed.
Lemma proc_segment_put_raises i : out [] (proc_segment_put i).
Proof. handler proc_segment_put. Qed.
Lemma proc_segment_priv_raises i : out [] (proc_segment_priv i).
Proof. handler proc_segment_priv. Qed.
Lemma proc_name_attach_raises i : out [unterminated] (proc_name_attach i).
Proof. handler proc_name_attach. Qed.
Lemma proc_open_raises i : out [] (proc_open i).
Proof. handler proc_open. Qed.
Lemma proc_vc_attach_raises i : out [dangling] (proc_vc_attach i).
Proof. handler proc_vc_attach. Qed.
Lemma proc_vc_detach_raises i : out [] (proc_vc_detach i).
Proof. handler proc_vc_detach. Qed.
Lemma proc_prefix_raises i : out [] (proc_prefix i).
Proof. handler proc_prefix. Qed.
Lemma proc_sid_query_raises i : out [] (proc_sid_query i).
Proof. handler proc_sid_query. Qed.
Lemma proc_sid_set_raises i : out [] (proc_sid_set i).
Proof. handler proc_sid_set. Qed.
Lemma proc_getid_raises i : out [dangling] (proc_getid i).
Proof. handler proc_getid. Qed.

Hint Extern 1 (raises _ (write_at _ _ _)) => apply write_at_raises; by split : raises.

Lemma proc_psinfo_raises i : out [dangling] (proc_psinfo i).
Proof. handler proc_psinfo. Qed.
Lemma proc_osinfo_raises i : out [] (proc_osinfo i).
Proof. handler proc_osinfo. Qed.

Definition null_fd : exn := Undefined "null descriptor".

(** An id past the end of the map. *)
Lemma proc_fd_attach_raises i : out [null_fd] (proc_fd_attach i).
Proof.
  unfold proc_fd_attach. apply (raises_bind garbage_read); [keeps|raises|]. intros msg.
  apply (raises_try garbage_read) with (l' := [NoFreeId; null_fd]); [keeps| | |intros _; raises].
  - apply (raises_bind garbage_read); [keeps| |raises]. apply on_fds_raises. intros m (Hwf & _).
    unfold qnx_fd_attach, alloc_starting_at. destruct (_ <=? _)%nat; [done|].
    pose proof (alloc_from_spec m (Z.to_nat (u16 msg[: s_fd_request ; "fd" :]))
      (fun fd => Ok (QnxFd_new (u16 (Z.of_nat fd)) msg[: s_fd_request ; "nid" :] msg[: s_fd_request ; "pid" :]
        msg[: s_fd_request ; "vid" :] msg[: s_fd_request ; "flags" :])) Hwf) as Hp.
    destruct (search _ _ _) as [k|]; [|by do 2 right; left].
    destruct (emplace _ _ _) as [m' r]. destruct Hp as (_ & _ & [(j & _ & _ & _ & -> & _)|(-> & _)]); [done|].
    by do 2 right; left.
  - clear. intros x. unfold may, faults. rewrite !elem_of_cons. destruct x; simpl; intuition congruence.
Qed.

(** ** Segments *)

Lemma the_segment_ends l e r : is_Some (segs (e_space e) !! r) -> ends (may l) (the_segment (K := K) r e).
Proof using Type. intros [s Hs]. unfold the_segment, get, mbind, M_bind. by rewrite Hs. Qed.

Lemma space_seg_ends {A} l r s (op : M Segment A) sp :
  segs sp !! r = Some s -> ends (may l) (op s) -> ends (may l) (space_seg r op sp).
Proof using Type. intros Hs. unfold space_seg. rewrite Hs. by destruct (op s). Qed.

Lemma space_seg_inv {A} r s (op : M Segment A) sp sp' a :
  segs sp !! r = Some s -> space_seg r op sp = (sp', Ok a) -> exists s', op s = (s', Ok a) /\ segs sp' !! r = Some s'.
Proof using Type.
  intros Hs. unfold space_seg. rewrite Hs. destruct (op s) as [s' o]. intros [= <- ->]. exists s'.
  split; [done|]. apply lookup_insert_eq.
Qed.

Lemma create_same access mem bits sp sp' sd :
  wf_space sp -> create_segment_descriptor modify_ldt access mem bits sp = (sp', Ok sd) -> segs sp' = segs sp.
Proof using Type.
  intros Hwf Hc. destruct (create_inv _ _ _ _ _ _ _ Hwf Hc) as [(i & sd' & _ & (_ & _ & _ & Hs & _) & _)|(x & ? & _)]; done.
Qed.

Lemma nbytes_range b n : 0 <= n < 2 ^ 32 -> 0 <= (match b with B16 => Z.land n 0x1FFFF | B32 => n end) < 2 ^ 44.
Proof using Type.
  intros Hn. destruct b; [lia|]. change 0x1FFFF with (Z.ones 17). rewrite (Z.land_ones _ 17) by lia.
  pose proof (Z.mod_pos_bound n (2 ^ 17)). lia.
Qed.

Lemma space_fit {A} (op : M Space A) (e : St) sp a :
  keeps space_grows op -> fit e -> op (e_space e) = (sp, Ok a) -> fit (set_space sp e).
Proof using Type.
  intros Hk He Hrun. refine (ok_fit 0 (on_space op) e _ (Ok a) (on_space_ok _ _ Hk) He _).
  unfold on_space. by rewrite Hrun.
Qed.

Lemma proc_segment_alloc_raises i :
  out [BadAlloc; NoFreeId; ldt_refused] (proc_segment_alloc mmap modify_ldt i).
Proof using L garbage_read Hmmap.
  unfold proc_segment_alloc. apply (raises_bind garbage_read); [keeps|raises|]. intros msg e He.
  assert (Hn : 0 <= msg[: s_segment_request ; "nbytes" :] < 2 ^ 32) by exact (fld_range s_segment_request "nbytes" eq_refl _ _ 4 eq_refl).
  apply on_space_bind_ends; [done|]. intros sp1 seg Hs1. pose proof (space_fit _ _ _ _ allocate_segment_grows He Hs1) as He1.
  injection Hs1 as Hsp1 <-. set (seg := next_seg (e_space e)) in *.
  assert (Hseg : segs sp1 !! seg = Some Segment_new) by (rewrite <- Hsp1; apply lookup_insert_eq).
  set (e1 := set_space sp1 e) in *.
  assert (Hres : keeps space_grows (space_seg seg (reserve mmap (MemOps.mega 1)))) by (apply space_seg_grows, reserve_grows; done).
  apply on_space_bind_ends; [eapply space_seg_ends; [exact Hseg|by apply reserve_ends; [listed|]]|].
  intros sp2 [] Hs2. pose proof (space_fit _ _ _ _ Hres He1 Hs2) as He2.
  destruct (space_seg_inv _ _ _ _ _ _ Hseg Hs2) as (s2 & _ & Hseg2). set (e2 := set_space sp2 e1) in *.
  pose proof (proj1 (proj1 (proj1 He2)) _ _ Hseg2) as Hw2.
  apply ends_bind; [done|]. intros e3 e4 [= <- <-]. cbv zeta. pose proof (nbytes_range (m_bits e2) _ Hn) as Hb.
  apply on_space_bind_ends; [eapply space_seg_ends; [exact Hseg2|by apply grow_bytes_ends; [listed|..]]|].
  intros sp3 [] Hs3. pose proof (space_fit _ _ _ _ (space_seg_grows _ _ (grow_bytes_grows mmap _ Hb)) He2 Hs3) as He3.
  destruct (space_seg_inv _ _ _ _ _ _ Hseg2 Hs3) as (s3 & _ & Hseg3). set (e3 := set_space sp3 e2) in *.
  apply on_space_bind_ends; [by apply create_ends; [listed|listed|apply He3|]|].
  intros sp4 sd Hs4. pose proof (space_fit _ _ _ _ (create_grows modify_ldt _ _ _) He3 Hs4) as He4.
  apply create_same in Hs4; [|apply He3].
  apply ends_bind; [apply the_segment_ends; change (is_Some (segs sp4 !! seg)); rewrite Hs4; by exists s3|]. intros e5 s5 Hrun.
  apply write_type_raises. exact (ok_fit garbage_read _ _ _ _ (the_segment_ok _ _) He4 Hrun).
Qed.

Lemma no_descriptor_raises l i : out l (no_descriptor i).
Proof. handler no_descriptor. Qed.
Hint Resolve no_descriptor_raises : raises.

Lemma descriptor_present (sp : Space) sel sd :
  wf_space sp -> descriptor_by_selector sp sel = Some sd -> is_Some (segs sp !! sd_seg sd).
Proof using Type. intros (_ & _ & _ & _ & H5) Hd. by apply (H5 _ _ Hd). Qed.

(** Growing a segment and publishing its descriptor again. *)
Lemma grow_and_publish_ends sd n (e : St) s :
  fit e -> segs (e_space e) !! sd_seg sd = Some s -> 0 <= n < 2 ^ 44 ->
  let m := (_ ← on_space (space_seg (sd_seg sd) (grow_bytes mmap n)); on_space (update_descriptors modify_ldt sd)) in
  ends (may [BadAlloc; ldt_refused]) (m e) /\
  forall e' u, m e = (e', Ok u) -> fit e' /\ is_Some (segs (e_space e') !! sd_seg sd).
Proof using garbage_read.
  intros He Hs Hn m. assert (Hok : ok m).
  { apply keeps_bind; [apply _|apply on_space_ok, space_seg_grows, grow_bytes_grows, Hn|].
    intros _. apply on_space_ok, update_descriptors_grows. }
  pose proof (proj1 (proj1 (proj1 He)) _ _ Hs) as Hw.
  assert (Hgrow : forall sp u, space_seg (sd_seg sd) (grow_bytes mmap n) (e_space e) = (sp, Ok u) ->
    is_Some (segs sp !! sd_seg sd)).
  { intros sp u Hrun. destruct (space_seg_inv _ _ _ _ _ _ Hs Hrun) as (s' & _ & Hs'). by exists s'. }
  split.
  - apply on_space_bind_ends; [eapply space_seg_ends; [exact Hs|by apply grow_bytes_ends; [listed|..]]|].
    intros sp u Hrun. apply Hgrow in Hrun. unfold on_space.
    pose proof (update_descriptors_ends modify_ldt [BadAlloc; ldt_refused] sd sp ltac:(listed) Hrun) as Hu.
    simpl. by destruct (update_descriptors _ _ sp).
  - intros e' u Hrun. split; [exact (ok_fit garbage_read _ _ _ _ Hok He Hrun)|]. revert Hrun. unfold m.
    intros Hrun. apply M_bind_Ok in Hrun as (e1 & u1 & H1 & H2). unfold on_space in H1.
    destruct (space_seg _ _ _) as [sp r]. injection H1 as <- ->. pose proof (Hgrow _ _ eq_refl) as Esp.
    revert H2. unfold on_space, update_descriptors, get, mbind, M_bind. simpl. destruct Esp as [s1 Hs1]. rewrite Hs1.
    unfold publish. destruct (modify_ldt _); [|done]. intros [= <- _]. simpl. by exists s1.
Qed.

Lemma proc_segment_realloc_raises i : out [BadAlloc; ldt_refused] (proc_segment_realloc mmap modify_ldt i).
Proof using L garbage_read.
  unfold proc_segment_realloc. apply (raises_bind garbage_read); [keeps|raises|]. intros msg e He.
  assert (Hn : 0 <= msg[: s_segment_request ; "nbytes" :] < 2 ^ 32) by exact (fld_range s_segment_request "nbytes" eq_refl _ _ 4 eq_refl).
  apply ends_bind; [done|]. intros e1 e2 [= <- <-].
  destruct (descriptor_by_selector _ _) as [sd|] eqn:Ed; [|by apply no_descriptor_raises].
  destruct (descriptor_present _ _ _ (proj1 (proj1 He)) Ed) as [s Hs]. pose proof (proj1 (proj1 (proj1 He)) _ _ Hs) as Hw.
  apply ends_bind; [by apply the_segment_ends|]. intros e1 seg Hseg.
  assert (e1 = e /\ seg = s) as [-> ->] by (revert Hseg; unfold the_segment, get, mbind, M_bind; rewrite Hs; by intros [= <- <-]).
  destruct (is_shared s); [by apply write_type_raises|]. cbv zeta.
  assert (Htail : forall e', fit e' -> is_Some (segs (e_space e') !! sd_seg sd) ->
    ends (may [BadAlloc; ldt_refused]) ((seg ← the_segment (sd_seg sd);
      write_type i (segment_info msg[: s_segment_request ; "sel" :] seg) : H K unit) e')).
  { intros e' He' Hs'. apply ends_bind; [by apply the_segment_ends|]. intros e1 s1 Hrun.
    apply write_type_raises. exact (ok_fit garbage_read _ _ _ _ (the_segment_ok _ _) He' Hrun). }
  destruct (Z.ltb_spec (size s) msg[: s_segment_request ; "nbytes" :]).
  - destruct (grow_and_publish_ends sd (msg[: s_segment_request ; "nbytes" :] - size s) e s He Hs) as [H1 H2].
    { destruct Hw as (Hw & _). unfold size in *. lia. }
    apply ends_bind; [exact H1|]. intros e' u Hrun. destruct (H2 _ _ Hrun). by apply Htail.
  - apply ends_bind; [done|]. intros e' u [= <- _]. apply Htail; [done|by exists s].
Qed.

Lemma proc_segment_free_raises i : out [] (proc_segment_free i).
Proof. unfold proc_segment_free. raises. by apply on_space_raises. Qed.

Lemma proc_segment_flags_raises i : out [ldt_refused] (proc_segment_flags modify_ldt i).
Proof using L garbage_read.
  unfold proc_segment_flags. apply (raises_bind garbage_read); [keeps|raises|]. intros msg e He. cbv zeta.
  apply ends_bind; [done|]. intros e1 e2 [= <- <-].
  destruct (descriptor_by_selector _ _) as [sd|] eqn:Ed; [|by apply no_descriptor_raises].
  pose proof (descriptor_present _ _ _ (proj1 (proj1 He)) Ed) as Hs.
  apply on_space_bind_ends; [done|]. intros sp u Hrun.
  pose proof (space_fit _ _ _ _ (update_slot_grows _ _) He Hrun) as He1. injection Hrun as Hsp.
  apply on_space_bind_ends.
  { apply update_descriptors_ends; [listed|]. simpl. by rewrite <- Hsp. }
  intros sp2 u2 Hrun2. pose proof (space_fit _ _ _ _ (update_descriptors_grows _ _) He1 Hrun2) as He2.
  by apply write_type_raises.
Qed.

(** ** Signals and timers *)

Lemma proc_sigtab_raises i : out [] (proc_sigtab i).
Proof.
  unfold proc_sigtab. apply (raises_bind garbage_read); [keeps|raises|]. intros msg e He.
  apply ends_bind; [done|]. intros e1 e2 [= <- <-].
  pose proof (fld_range s_signal_request "offset" eq_refl msg _ 4 eq_refl) as Ho.
  apply ends_bind; [apply translate_only; [apply He|simpl in *; lia|done]|]. intros e1 t [= <- _].
  apply ends_bind; [done|]. intros e1 u [= <- _]. apply write_status_ends. apply He.
Qed.

Lemma signal_raise_raises l s : AssertFailed ∈ l -> out l (signal_raise s).
Proof using Type.
  intros Hl e He. unfold signal_raise. apply ends_bind; [done|]. intros e1 e2 [= <- <-].
  apply ends_bind; [|done]. unfold ends, lift, set_qnx_sig, get_qnx_mask, check. simpl.
  destruct (_ && _); [done|by do 2 right].
Qed.
Hint Resolve signal_raise_raises : raises.
Hint Extern 1 (keeps _ (signal_raise _)) => apply signal_raise_ok : keeps.
Lemma proc_sigraise_raises i : out [AssertFailed] (proc_sigraise i).
Proof. handler proc_sigraise. Qed.

Definition no_sigtab : exn := GuestStateException EmptyString.

Lemma set_action_raises l s h m : AssertFailed ∈ l -> no_sigtab ∈ l -> out l (set_action s h m).
Proof using Type.
  intros Ha Hs e He. unfold set_action, qnx_sigtab. apply ends_bind.
  - apply ends_bind; [unfold ends, lift, check; simpl; destruct (_ && _); [done|by do 2 right]|].
    intros e1 u [= <- _]. apply ends_bind; [done|]. intros e1 e2 [= <- <-]. destruct (m_sigtab e); [done|by do 2 right].
  - intros e1 si Hrun. apply M_bind_Ok in Hrun as (e2 & u & _ & Hrun). apply M_bind_Ok in Hrun as (e3 & e4 & _ & Hrun).
    destruct (m_sigtab e4); [|done]. injection Hrun as _ <-. apply ends_bind; [done|]. intros e5 u5 _.
    apply ends_bind; [done|]. intros e6 u6 _. by destruct (m_bits u6).
Qed.
Hint Resolve set_action_raises : raises.
Hint Extern 1 (keeps _ (signal_mask _ _)) => apply signal_mask_ok : keeps.
Hint Extern 1 (keeps _ (host_call _)) => apply host_call_ok : keeps.
Hint Extern 1 (keeps _ (signal_sigact _ _ _ _)) => apply signal_sigact_ok : keeps.

Lemma signal_sigact_raises l s h m : AssertFailed ∈ l -> no_sigtab ∈ l -> out l (signal_sigact sigaction s h m).
Proof.
  intros Ha Hs. unfold signal_sigact. cbv zeta. destruct (_ =? _).
  - intros e _. apply ends_bind; [done|]. intros e1 e2 [= <- <-]. apply ends_bind; [|done].
    unfold ends, lift, set_qnx_sig, get_qnx_mask, check. simpl. destruct (_ && _); [done|by do 2 right].
  - raises. intros e _. done.
Qed.
Hint Resolve signal_sigact_raises : raises.
Lemma proc_sigact_raises i : out [AssertFailed; no_sigtab] (proc_sigact sigaction i).
Proof. handler proc_sigact. Qed.
Lemma proc_sigmask_raises i : out [] (proc_sigmask i).
Proof. handler proc_sigmask. done. Qed.
Lemma proc_sem_init_raises i : out [] (proc_sem_init i).
Proof. handler proc_sem_init. Qed.
Lemma proc_sem_destroy_raises i : out [] (proc_sem_destroy i).
Proof. handler proc_sem_destroy. Qed.
Lemma proc_timer_create_raises i : out [] (proc_timer_create i).
Proof. handler proc_timer_create. Qed.
Lemma proc_timer_settime_raises i : out [] (proc_timer_settime i).
Proof. handler proc_timer_settime. Qed.
Lemma proc_timer_alarm_raises i : out [] (proc_timer_alarm i).
Proof. handler proc_timer_alarm. Qed.

(** ** Children and programs *)

Hint Extern 1 (keeps _ (wait_code _)) => apply wait_code_ok : keeps.
Hint Extern 1 (keeps _ (reap _)) => apply reap_ok : keeps.
Hint Extern 1 (keeps _ (redirect _ _)) => apply redirect_ok : keeps.
Hint Extern 1 (keeps _ (exec_host _ _)) => apply exec_host_ok : keeps.
Hint Extern 1 (keeps _ (proc_exec_common _)) => apply proc_exec_common_ok : keeps.
Hint Extern 1 (keeps _ (update_pids_after_fork _)) => apply update_pids_ok : keeps.
Hint Extern 1 (keeps _ (child_pid _)) => apply child_pid_ok : keeps.

Lemma deref_raises l m p : dangling ∈ l -> out l (lift (deref m p)).
Proof using Type. intros Hl. by apply raises_lift, deref_only. Qed.
Hint Resolve deref_raises : raises.

Lemma wait_code_raises l p : null_pid ∈ l -> out l (wait_code p).
Proof. intros Hl. handler wait_code. Qed.
Lemma reap_raises l p : dangling ∈ l -> out l (reap p).
Proof.
  intros Hl. unfold reap. raises. apply on_pids_raises. intros m. unfold free_pid.
  apply ends_bind; [done|]. intros m1 m2 _. apply ends_bind; [by apply deref_only|done].
Qed.
Hint Resolve wait_code_raises reap_raises : raises.
Lemma proc_wait_raises i : out [null_pid; dangling] (proc_wait i).
Proof. handler proc_wait. Qed.

Lemma filter_cwd_keeps envp : ok (filter_cwd envp).
Proof. exact (filter_cwd_ok _ _ _ (le_n _)). Qed.
Hint Extern 1 (keeps _ (filter_cwd _)) => apply filter_cwd_keeps : keeps.

Lemma filter_cwd_raises l n : past_path ∈ l -> forall envp, (length envp <= n)%nat -> out l (filter_cwd envp).
Proof.
  intros Hl. induction n as [|n IH]; intros [|v envp] Hn; try apply raises_ret; simpl in Hn; [lia|].
  cbn [filter_cwd]. raises; try (apply IH; simpl in *; lia).
Qed.
Lemma redirect_raises l fds : forall fdi, out l (redirect fds fdi).
Proof.
  induction fds as [|fd fds IH]; intros fdi; [apply raises_ret|]. cbn [redirect].
  assert (Hk : forall g, ok (Prelude.modify (fun e => set_k (g e) e))).
  { intros g. apply keeps_modify. intros e. apply set_k_evolves. }
  raises; apply IH.
Qed.
Hint Resolve redirect_raises : raises.

Lemma exec_host_raises l p a : past_path ∈ l -> is_Some (pi_prefix p) -> out l (exec_host p a).
Proof.
  intros Hl [pfx Hp]. unfold exec_host, exec_type. rewrite Hp. raises; by eapply filter_cwd_raises.
Qed.

(** The path has just been resolved, so it has a prefix. *)
Lemma proc_exec_common_raises i :
  entries_sized (m_send (m_msg i)) -> out [past_path; Replaced] (proc_exec_common i).
Proof.
  intros Hi. unfold proc_exec_common. apply (raises_bind garbage_read); [keeps|raises|]. intros msg e He.
  apply ends_bind; [done|]. intros e1 e2 [= <- <-].
  apply ends_bind; [by apply read_exec_args_only; [apply He|]|]. intros e1 a [= <- _].
  refine (raises_bind_post garbage_read (fun p => is_Some (pi_prefix p)) _ _ _ _ _ _ _ e He); [keeps|raises| |].
  { intros e0 e1 p _ Hrun. unfold to_host, world, gets, lift, mbind, M_bind in Hrun. injection Hrun as _ Hrun.
    by apply map_path_to_host_prefix in Hrun. }
  intros p Hp. apply (raises_bind garbage_read); [keeps|raises|]. intros r. destruct (r <? 0); [raises|].
  apply (raises_bind garbage_read); [keeps|by apply exec_host_raises; [listed|]|]. raises.
Qed.

Lemma proc_exec_raises i : entries_sized (m_send (m_msg i)) -> out [past_path; Replaced] (proc_exec i).
Proof. intros Hi. pose proof (proc_exec_common_raises i Hi). handler proc_exec. Qed.

Definition no_magic : exn := Undefined "m_magic".

Lemma update_pids_raises l p :
  null_pid ∈ l -> dangling ∈ l -> PidMapFull ∈ l -> no_magic ∈ l -> out l (update_pids_after_fork p).
Proof using Type.
  intros Hn Hd Hf Hm e _. unfold update_pids_after_fork. apply ends_bind; [done|]. intros e1 u _.
  apply ends_bind.
  { unfold on_pids. pose proof (alloc_related_ends l p (m_pids e1) Hf) as Ha. by destruct (alloc_related_pid _ _ _). }
  intros e2 [my|] _; [|by apply throw_ends]. apply ends_bind; [done|]. intros e3 u3 _. apply ends_bind.
  { unfold magic_ptr. apply ends_bind; [done|]. intros e4 w _. destruct (w_magic w); [done|by apply throw_ends]. }
  intros e4 a _. apply ends_bind; [by apply proc_pid_ends|]. intros e5 q _. apply ends_bind; [done|]. intros e6 u6 _.
  apply ends_bind; [by apply proc_parent_pid_ends|]. intros e7 dad _. by apply ends_bind.
Qed.

Lemma child_pid_raises l p : PidMapFull ∈ l -> AssertFailed ∈ l -> out l (child_pid p).
Proof using Type.
  intros Hf Ha e _. unfold child_pid. apply ends_bind.
  { unfold on_pids. pose proof (alloc_child_ends l p (m_pids e) Hf Ha) as H. by destruct (alloc_child_pid _ _). }
  intros e1 q Hrun. unfold on_pids in Hrun. destruct (alloc_child_pid _ _) as [m r] eqn:Hq. injection Hrun as <- ->.
  apply alloc_child_known in Hq as [x Hx]. unfold get, lift, deref, mbind, M_bind. simpl. by rewrite Hx.
Qed.
Hint Resolve update_pids_raises child_pid_raises : raises.

Lemma proc_fork_raises i : out [null_pid; dangling; PidMapFull; no_magic; AssertFailed] (proc_fork i).
Proof. handler proc_fork. Qed.

Lemma proc_spawn_raises i :
  entries_sized (m_send (m_msg i)) -> out [past_path; Replaced; Exit 0; PidMapFull; AssertFailed] (proc_spawn i).
Proof.
  intros Hi. assert (H : out [past_path; Replaced; Exit 0; PidMapFull; AssertFailed] (proc_exec_common i)).
  { intros e He. refine (ends_mono _ _ _ _ (proc_exec_common_raises i Hi e He)). intros x. apply may_mono. clear. intros y. rewrite !elem_of_cons. tauto. }
  handler proc_spawn.
Qed.

(** ** Files *)

Context (Hlinks : links_law (K := K)).

Lemma readlink_loop_raises l fuel path : forall size dst,
  4096 <= Z.of_nat (size * 2 ^ fuel) -> out l (readlink_loop (S fuel) path size dst).
Proof using Hlinks garbage_read.
  induction fuel as [|fuel IH]; intros size dst Hs e He; cbn [readlink_loop]; unfold sysc, mbind, M_bind;
    destruct (sys _ _) as [k [r data]] eqn:Er; apply Hlinks in Er;
    (destruct (r <? 0); [done|]); (destruct (Z.eqb_spec r (Z.of_nat (S size))); [|done]).
  - simpl in Hs. lia.
  - apply IH; [|by apply (fit_set_k garbage_read)].
    rewrite Nat.pow_succ_r' in Hs. lia.
Qed.

Lemma readlink_raises l p : out l (readlink p).
Proof using Hlinks garbage_read. apply readlink_loop_raises. vm_compute. discriminate. Qed.
Lemma realpath_raises l p : out l (realpath p).
Proof. handler realpath. Qed.
Lemma ttyname_raises l fd : out l (ttyname fd).
Proof. handler ttyname. Qed.
Hint Resolve readlink_raises realpath_raises ttyname_raises : raises.
Hint Extern 1 (keeps _ (readlink _)) => apply readlink_ok : keeps.
Hint Extern 1 (keeps _ (realpath _)) => apply realpath_ok : keeps.
Hint Extern 1 (keeps _ (ttyname _)) => apply ttyname_ok : keeps.
Hint Extern 1 (keeps _ (resolve_fd_path _)) => apply resolve_fd_path_ok : keeps.
Hint Extern 1 (keeps _ (on_fd _ (assign_fd _))) => apply assign_fd_ok : keeps.
Hint Extern 1 (keeps _ (open_into _ _ _)) => apply open_into_ok : keeps.

(** A descriptor whose path was never set cannot be resolved. *)
Lemma resolve_fd_path_ends l fd (e : St) f :
  fit e -> at_ (w_fds (e_world e)) (Z.to_nat (u16 fd)) = Some f -> past_path ∈ l ->
  AssertFailed ∈ l \/ pi_qnx_valid (m_path f) = true -> ends (may l) (resolve_fd_path fd e).
Proof using Type.
  intros [_ Hp] Hf Hl Hv. unfold resolve_fd_path. apply ends_bind; [apply attached_fd_ends|].
  intros e1 f1 Hrun. apply attached_inv in Hrun as [-> Hf1]. assert (f1 = f) as -> by congruence.
  apply ends_bind; [done|]. intros e2 w [= <- <-]. apply ends_bind; [|by intros].
  destruct (pi_qnx_valid (m_path f)) eqn:Ev; [by apply map_path_to_host_only|].
  destruct Hv as [Hv|]; [|done]. unfold ends, lift, map_path_to_host. rewrite Ev. by do 2 right.
Qed.

Lemma open_into_raises l i fd tmp :
  0 <= fd < 2 ^ 16 -> SystemError 0 ∈ l -> AssertFailed ∈ l -> out l (open_into i fd tmp).
Proof.
  intros Hfd Hs Ha e He. unfold open_into. apply ends_bind; [apply attached_fd_ends|].
  intros e1 f Hrun. apply attached_inv in Hrun as [-> Hf]. rewrite wrapu_small in Hf by done.
  apply scoped_ends, ends_bind; [eapply on_fd_ends; [exact Hf|by apply assign_fd_ends; [|left]]|]. intros e1 b Hrun.
  assert (fit e1) by exact (ok_fit garbage_read _ _ _ _ (assign_fd_ok _ _ _) He Hrun).
  destruct (negb b); [by apply write_errno_raises|by apply write_status_raises].
Qed.

(** The path that was just stored can be resolved. *)
Lemma io_open_raises i : out [unterminated; past_path; AssertFailed; SystemError 0] (io_open i).
Proof.
  unfold io_open. apply (raises_bind garbage_read); [keeps|raises|]. intros msg. cbv zeta.
  pose proof (wrapu_range 16 msg[: request msg_io_io_open ; "open.fd" :] ltac:(lia)) as Hfd.
  set (fd := u16 msg[: request msg_io_io_open ; "open.fd" :]) in *. intros e He.
  apply ends_bind; [apply attached_fd_ends|]. intros e1 f Hrun. apply attached_inv in Hrun as [-> Hf].
  rewrite (wrapu_small 16 fd Hfd) in Hf.
  apply ends_bind; [apply c_string_raises; [listed|exact He]|]. intros e1 file [= <- _].
  apply ends_bind; [done|]. intros e1 u Hrun.
  assert (He1 : fit e1) by exact (ok_fit garbage_read _ _ _ _ (update_fds_ok _ _ _ (steady_path _ _)) He Hrun).
  assert (Hf1 : exists f1, at_ (w_fds (e_world e1)) (Z.to_nat (u16 fd)) = Some f1 /\ pi_qnx_valid (m_path f1) = true).
  { injection Hrun as <- _. simpl. rewrite update_at, (wrapu_small 16 fd Hfd), decide_True, Hf by done. by eexists. }
  destruct Hf1 as (f1 & Hf1 & Hv).
  apply ends_bind; [by eapply resolve_fd_path_ends; [..|listed|right]|]. intros e2 path Hrun2.
  assert (He2 : fit e2) by exact (ok_fit garbage_read _ _ _ _ (resolve_fd_path_ok _ _) He1 Hrun2).
  refine ((_ : out [unterminated; past_path; AssertFailed; SystemError 0] _) e2 He2).
  apply (raises_bind garbage_read); [keeps|raises|]. intros tmp. destruct (negb _); [raises|by apply open_into_raises; [|listed|listed]].
Qed.

Lemma io_chdir_raises i : out [unterminated; past_path] (io_chdir i).
Proof. handler io_chdir. Qed.
Lemma io_rename_raises i : out [unterminated; past_path] (io_rename i).
Proof. handler io_rename. Qed.
Lemma io_stat_raises i : out [unterminated; past_path] (io_stat i).
Proof using L Hlinks garbage_read. handler io_stat. Qed.
Lemma io_fstat_raises i : out [] (io_fstat i).
Proof. handler io_fstat. Qed.

(** An open descriptor, and a method of its object. *)
Lemma open_then_raises {A B} l fd (op : M (QnxFd * K) A) (f : A -> H K B) :
  0 <= fd < 2 ^ 16 -> orderly op -> (forall g k, m_open g = true -> ends (may l) (op (g, k))) ->
  (forall a, out l (f a)) -> out l (_ ← open_fd fd; a ← on_fd fd op; f a).
Proof.
  intros Hfd Ho Hop Hf e He. apply ends_bind; [apply open_fd_ends|]. intros e1 g Hrun.
  apply open_inv in Hrun as (-> & Hg & Hopen). rewrite wrapu_small in Hg by done.
  apply ends_bind; [eapply on_fd_ends; [exact Hg|by apply Hop]|]. intros e1 a Hrun.
  apply Hf. exact (ok_fit garbage_read _ _ _ _ (on_fd_ok _ _ _ Ho) He Hrun).
Qed.

Lemma io_close_raises i : out [] (io_close i).
Proof.
  unfold io_close. apply (raises_bind garbage_read); [keeps|raises|]. intros msg. cbv zeta.
  apply open_then_raises; [apply wrapu_range; lia|auto with keeps|intros; by apply close_ends|raises].
Qed.

Lemma fd_field (L0 : layout) f H b o : field L0 f = Some (o, TInt false 2) -> 0 <= fld L0 f H b < 2 ^ 16.
Proof using Type. apply fld_range. Qed.

Lemma io_rewinddir_raises i : out [] (io_rewinddir i).
Proof.
  unfold io_rewinddir. apply (raises_bind garbage_read); [keeps|raises|]. intros msg. cbv zeta.
  apply open_then_raises; [by eapply fd_field|auto with keeps|intros; by apply prepare_dir_ends|raises].
Qed.

(** The target is closed when the new descriptor is assigned to it. *)
Lemma io_dup_raises i : out [SystemError 0] (io_dup i).
Proof.
  unfold io_dup. apply (raises_bind garbage_read); [keeps|raises|]. intros msg. cbv zeta.
  pose proof (fd_field (request msg_io_dup) "dst_fd" eq_refl msg _ eq_refl) as Hd.
  set (dst := msg[: request msg_io_dup ; "dst_fd" :]) in *.
  apply (raises_bind garbage_read); [keeps|raises|]. intros g0 e He.
  apply ends_bind; [apply attached_fd_ends|]. intros e1 d Hrun. apply attached_inv in Hrun as [-> Hf].
  rewrite wrapu_small in Hf by done.
  set (shut := if m_open d then on_fd dst close else mret true).
  assert (Hshut : ends (may [SystemError 0]) (shut e) /\ forall e' u, shut e = (e', Ok u) ->
    fit e' /\ exists d', at_ (w_fds (e_world e')) (Z.to_nat dst) = Some d' /\ m_open d' = false).
  { unfold shut. destruct (m_open d) eqn:Eo; [|split; [done|]; intros e' u [= <- _]; eauto]. split.
    - eapply on_fd_ends; [exact Hf|by apply close_ends].
    - intros e' u Hrun. split; [exact (ok_fit garbage_read _ _ _ _ (on_fd_ok _ _ _ orderly_close) He Hrun)|].
      revert Hrun. unfold on_fd. rewrite Hf. unfold close. rewrite Eo. simpl.
      destruct (if m_host_dir d then _ else _) as [k r]. intros [= <- _]. simpl.
      rewrite update_at, decide_True, Hf by done. by eexists. }
  apply ends_bind; [apply Hshut|]. intros e1 u Hrun. destruct (proj2 Hshut _ _ Hrun) as (He1 & d' & Hd' & Hc).
  apply ends_bind; [apply attached_fd_ends|]. intros e2 s Hrun2. apply attached_inv in Hrun2 as [-> _].
  apply ends_bind; [done|]. intros e2 e3 [= <- <-]. destruct (k_dup2 _ _ _) as [k new].
  apply ends_bind; [done|]. intros e2 u2 [= <- _].
  assert (He2 : fit (set_k k e1)) by by apply (fit_set_k garbage_read).
  destruct (negb _); [by apply write_errno_raises|]. apply scoped_ends, ends_bind.
  { eapply on_fd_ends; [exact Hd'|apply assign_fd_ends; [listed|by right]]. }
  intros e3 b Hrun3. assert (He3 : fit e3) by exact (ok_fit garbage_read _ _ _ _ (assign_fd_ok _ _ _) He2 Hrun3).
  refine ((_ : out [SystemError 0] _) e3 He3).
  apply (raises_bind garbage_read); [|raises|raises]. apply update_fds_ok, steady_host_fd. lia.
Qed.

Lemma readdir_loop_raises l n : forall i fd off ndirs buf,
  0 <= off -> off + Z.of_nat n * dirent_size < 2 ^ 63 -> out l (readdir_loop n i fd off ndirs buf).
Proof.
  assert (Hs : dirent_size = 105) by reflexivity.
  assert (Ht : Z.of_nat (sizeof s_stat) = 56) by reflexivity.
  induction n as [|n IH]; intros i fd off ndirs buf Ho Hn; [apply raises_ret|]. cbn [readdir_loop].
  raises; try (apply write_at_raises; lia). apply IH; lia.
Qed.

Hint Extern 1 (keeps _ (readdir_loop _ _ _ _ _ _)) => apply readdir_loop_ok : keeps.
Hint Extern 1 (keeps _ (filter_now _)) => apply filter_now_ok : keeps.

Lemma io_readdir_raises i : out [] (io_readdir uninit i).
Proof.
  unfold io_readdir. apply (raises_bind garbage_read); [keeps|raises|]. intros msg. cbv zeta.
  pose proof (fld_range (request msg_io_readdir) "ndirs" eq_refl msg _ 1 eq_refl) as Hn.
  assert (Hs : dirent_size = 105) by reflexivity.
  assert (Ht : Z.of_nat (sizeof (reply msg_io_readdir)) = 8) by reflexivity.
  apply open_then_raises; [by eapply fd_field|auto with keeps|intros; by apply prepare_dir_ends|]. intros ok0.
  raises. apply readdir_loop_raises; lia.
Qed.

(** ** Data *)

Lemma filter_now_raises l ts : out l (filter_now ts).
Proof. handler filter_now. Qed.
Hint Resolve filter_now_raises : raises.

Lemma io_read_filtered_raises i fdi fd fl n : out [AssertFailed; Blocked] (io_read_filtered i fdi fd fl n).
Proof.
  unfold io_read_filtered. raises. apply raises_lift. unfold check. case_match; [done|by do 2 right; left].
Qed.

(** Reading into the guest's buffers. *)
Lemma read_into_raises {A} l i off n (g : H K Z) (f : Z -> H K A) :
  0 <= off < 2 ^ 64 -> 0 <= n -> (forall e, exists h, g e = (e, h)) -> out l g -> (forall r, out l (f r)) ->
  out l (iov ← msg_write_iovec garbage_read i off n; fd ← g; r ← readv fd iov; f r).
Proof.
  intros Ho Hn Hg Hgr Hf e He. pose proof (read_into_ok garbage_read i off n g mret Hg (fun r => keeps_ret _ r)) as Hok.
  apply ends_bind; [by apply msg_write_iovec_raises|]. intros e1 iov Hrun.
  assert (e1 = e) as -> by (by injection Hrun). apply ends_bind; [by apply Hgr|]. intros e1 fd Hfd.
  assert (e1 = e) as -> by (destruct (Hg e); congruence). apply ends_bind; [by apply readv_raises|]. intros e2 r Hr.
  apply Hf. destruct He as [He Hp]. destruct (Hok e e2 (Ok r)) as (H1 & _ & _ & _ & H2 & _); [|done|split; [done|by rewrite H2]].
  by rewrite (bind_Ok _ _ _ _ _ Hrun), (bind_Ok _ _ _ _ _ Hfd), (bind_Ok _ _ _ _ _ Hr).
Qed.

Lemma nonneg_field (L0 : layout) f H b o n : field L0 f = Some (o, TInt false n) -> 0 <= fld L0 f H b.
Proof using Type. apply fld_range. Qed.

Lemma io_read_raises i : out [AssertFailed; Blocked] (io_read garbage_read uninit i).
Proof.
  unfold io_read. apply (raises_bind garbage_read); [keeps|raises|]. intros msg. cbv zeta.
  apply (raises_bind garbage_read); [keeps|raises|]. intros fd.
  destruct (m_filter fd); [apply io_read_filtered_raises|].
  apply read_into_raises; [by split|by eapply nonneg_field|apply map_fd_result|raises|raises].
Qed.

Lemma io_write_raises i : out [] (io_write garbage_read uninit i).
Proof.
  unfold io_write. raises. apply msg_read_iovec_raises; [by split|by eapply nonneg_field].
Qed.
Lemma io_lseek_raises i : out [] (io_lseek i).
Proof. handler io_lseek. Qed.
Lemma io_qioctl_raises i : out [] (io_qioctl uninit i).
Proof. handler io_qioctl. Qed.
Lemma io_ioctl_raises i : out [] (io_ioctl i).
Proof. handler io_ioctl. Qed.
Lemma io_lock_raises i : out [dangling] (io_lock i).
Proof. handler io_lock. Qed.
Lemma io_fcntl_flags_raises i : out [] (io_fcntl_flags i).
Proof. handler io_fcntl_flags. Qed.
Lemma io_fpathconf_raises i : out [] (io_fpathconf i).
Proof. handler io_fpathconf. Qed.
Lemma io_chmod_raises i : out [] (io_chmod i).
Proof. handler io_chmod. Qed.
Lemma io_chown_raises i : out [] (io_chown i).
Proof. handler io_chown. Qed.
Lemma io_utime_raises i : out [] (io_utime i).
Proof. handler io_utime. Qed.

(** ** File systems *)

Lemma fsys_unlink_raises i : out [unterminated; past_path] (fsys_unlink i).
Proof. handler fsys_unlink. Qed.
Lemma fsys_mkspecial_raises i : out [unterminated; past_path] (fsys_mkspecial i).
Proof. handler fsys_mkspecial. Qed.
Lemma fsys_readlink_raises i : out [unterminated; past_path] (fsys_readlink i).
Proof using L Hlinks garbage_read. handler fsys_readlink. Qed.
Lemma fsys_sync_raises i : out [] (fsys_sync i).
Proof. handler fsys_sync. Qed.
Lemma fsys_trunc_raises i : out [] (fsys_trunc i).
Proof. handler fsys_trunc. Qed.
Lemma fsys_fsync_raises i : out [] (fsys_fsync i).
Proof. handler fsys_fsync. Qed.
Lemma fsys_disk_entry_raises i : out [] (fsys_disk_entry i).
Proof. handler fsys_disk_entry. Qed.
Lemma fsys_disk_space_raises i : out [] (fsys_disk_space i).
Proof. handler fsys_disk_space. Qed.

(** The path of an inherited descriptor is not known: an assertion fails. *)
Lemma fsys_link_raises i : out [AssertFailed; unterminated; past_path] (fsys_link i).
Proof.
  unfold fsys_link. apply (raises_bind garbage_read); [keeps|raises|]. intros msg. cbv zeta.
  set (fd := u16 msg[: request msg_fsys_link ; "arg.fd" :]). intros e He.
  apply ends_bind; [apply open_fd_ends|]. intros e1 f Hrun. apply open_inv in Hrun as (-> & Hf & _).
  apply ends_bind; [by eapply resolve_fd_path_ends; [..|listed|left; listed]|]. intros e1 from Hrun.
  refine ((_ : out [AssertFailed; unterminated; past_path] _) e1 (ok_fit garbage_read _ _ _ _ (resolve_fd_path_ok _ _) He Hrun)).
  raises.
Qed.

Definition null_stream : exn := Undefined "null stream".

Hint Extern 1 (keeps _ (mount_loop _ _ _ _)) => apply mount_loop_ok : keeps.
Lemma mount_loop_raises l dirs : forall i host q, out l (mount_loop dirs i host q).
Proof. induction dirs as [|d dirs IH]; intros i host q; cbn [mount_loop]; raises; apply IH. Qed.
Hint Resolve mount_loop_raises : raises.
Lemma fsys_get_mount_raises i : out [unterminated; past_path; null_stream] (fsys_get_mount i).
Proof. handler fsys_get_mount. Qed.

(** *** Pipes *)

Definition bad_index : exn := Undefined "host_fds index".

Lemma host_fd_moved_ends l j to (st : Assign K) : bad_index ∈ l -> ends (may l) (host_fd_moved j to st).
Proof using Type.
  intros Hl. unfold host_fd_moved. destruct (_ !! _); [|by do 2 right]. by destruct (unique_assign _ _ _).
Qed.

Lemma realloc_fd_ends l fd (st : Assign K) : bad_index ∈ l -> ends (may l) (realloc_fd fd st).
Proof using Type.
  intros Hl. unfold realloc_fd. destruct (_ !! _); [|done]. destruct (k_dup _ _) as [k new].
  destruct (negb _); [done|]. apply ends_bind; [by apply host_fd_moved_ends|done].
Qed.

Lemma assign_loop_ends l to : forall j (st : Assign K), bad_index ∈ l -> ends (may l) (assign_loop j to st).
Proof using Type.
  induction to as [|f to IH]; intros j st Hl; [done|]. cbn [assign_loop]. apply ends_bind; [done|].
  intros st1 st2 [= <- <-]. destruct (_ =? _); [apply ends_bind; [done|]; intros; by apply IH|].
  apply ends_bind; [by apply realloc_fd_ends|]. intros st1 b _. destruct (negb b); [done|].
  apply ends_bind; [done|]. intros st2 st3 _. destruct (k_dup2 _ _ _) as [k new].
  apply ends_bind; [done|]. intros st4 u _. destruct (negb _); [done|].
  apply ends_bind; [by apply host_fd_moved_ends|]. intros; by apply IH.
Qed.

Lemma release_loop_ends l to : forall j (st : Assign K), SystemError 0 ∈ l -> ends (may l) (release_loop j to st).
Proof using Type.
  induction to as [|f to IH]; intros j st Hl; [done|]. cbn [release_loop]. apply ends_bind; [done|].
  intros st1 st2 [= <- <-]. destruct (cloexec _) as [[f1 k] r] eqn:Ec.
  apply ends_bind; [done|]. intros st2 u _. apply ends_bind.
  - revert Ec. unfold cloexec. destruct (is_close_on_exec _); [|by intros [= _ _ <-]].
    destruct (k_set_cloexec _ _) as [k1 y]. destruct (y <? 0); intros [= _ _ <-]; [by do 2 right|done].
  - intros st3 u3 _. apply ends_bind; [by apply IH|done].
Qed.

Lemma assign_fds_ends l to fds (k : K) : bad_index ∈ l -> SystemError 0 ∈ l -> ends (may l) (assign_fds to fds k).
Proof using Type.
  intros Hb Hs. unfold assign_fds. apply ends_bind; [by apply assign_loop_ends|]. intros st [] _; [|done].
  apply ends_bind; [by apply release_loop_ends|done].
Qed.

Lemma fsys_pipe_raises i : out [bad_index; SystemError 0] (fsys_pipe i).
Proof.
  unfold fsys_pipe. apply (raises_bind garbage_read); [keeps|raises|]. intros msg. cbv zeta.
  apply (raises_bind garbage_read); [keeps|raises|]. intros f_in.
  apply (raises_bind garbage_read); [keeps|raises|]. intros f_out.
  apply (raises_bind garbage_read); [keeps|raises|]. intros [r [p0 p1]] e He.
  destruct (r <? 0); [by apply write_errno_raises|]. apply ends_bind.
  - unfold assign_pipe. pose proof (assign_fds_ends [bad_index; SystemError 0] [f_in; f_out] [p0; p1] (kern e)
      ltac:(listed) ltac:(listed)) as Ha. destruct (assign_fds _ _ _) as [st [o|x]]; [done|]. apply scoped_ends. exact Ha.
  - intros e1 [ok0 owned] Hrun. assert (Hsp : e_space e1 = e_space e).
    { revert Hrun. unfold assign_pipe. destruct (assign_fds _ _ _) as [st [o|x]]; [by intros [= <- _ _]|].
      unfold scoped, throw. by destruct (unwinds x). }
    apply scoped_ends. destruct (negb ok0); [apply write_errno_ends|apply write_status_ends]; rewrite Hsp; apply He.
Qed.

(** ** Terminals *)

Hint Extern 1 (keeps _ (handle_tcgetattr _ _)) => apply handle_tcgetattr_ok : keeps.
Hint Extern 1 (keeps _ (handle_tcsetattr _ _ _ _)) => apply handle_tcsetattr_ok : keeps.
Hint Extern 1 (keeps _ (handle_tcsetpgrp _ _)) => apply handle_tcsetpgrp_ok : keeps.
Hint Extern 1 (keeps _ (handle_tcgetpgrp _)) => apply handle_tcgetpgrp_ok : keeps.
Hint Extern 1 (keeps _ (fill_dev_info _)) => apply fill_dev_info_ok : keeps.
Hint Extern 1 (keeps _ (reply_dev_info _ _)) => apply reply_dev_info_ok : keeps.
Hint Extern 1 (keeps _ (insert_loop _ _ _ _)) => apply insert_loop_ok : keeps.

Lemma handle_tcgetattr_raises l fd b : out l (handle_tcgetattr fd b).
Proof. handler handle_tcgetattr. Qed.
Lemma handle_tcsetattr_raises l i fd b a : out l (handle_tcsetattr i fd b a).
Proof. handler handle_tcsetattr. Qed.
Lemma handle_tcsetpgrp_raises l fd p : null_pid ∈ l -> out l (handle_tcsetpgrp fd p).
Proof. intros Hl. handler handle_tcsetpgrp. Qed.
Lemma handle_tcgetpgrp_raises l fd : dangling ∈ l -> out l (handle_tcgetpgrp fd).
Proof. intros Hl. handler handle_tcgetpgrp. Qed.
Hint Resolve handle_tcgetattr_raises handle_tcsetattr_raises handle_tcsetpgrp_raises handle_tcgetpgrp_raises : raises.

Lemma dev_tcgetattr_raises i : out [] (dev_tcgetattr i).
Proof. handler dev_tcgetattr. Qed.
Lemma dev_tcsetattr_raises i : out [] (dev_tcsetattr i).
Proof. handler dev_tcsetattr. Qed.
Lemma dev_term_size_raises i : out [] (dev_term_size i).
Proof. handler dev_term_size. Qed.
Lemma dev_tcgetpgrp_raises i : out [dangling] (dev_tcgetpgrp i).
Proof. handler dev_tcgetpgrp. Qed.
Lemma dev_tcsetpgrp_raises i : out [null_pid] (dev_tcsetpgrp i).
Proof. handler dev_tcsetpgrp. Qed.
Lemma dev_tcflush_raises i : out [] (dev_tcflush i).
Proof. handler dev_tcflush. Qed.
Lemma dev_tcdrain_raises i : out [] (dev_tcdrain i).
Proof. handler dev_tcdrain. Qed.
Lemma dev_mode_raises i : out [] (dev_mode i).
Proof. handler dev_mode. Qed.
Lemma dev_read_filtered_raises i fdi fd fl msg : out [Blocked; BadAlloc] (dev_read_filtered uninit i fdi fd fl msg).
Proof. handler dev_read_filtered. Qed.

(** A negative count asks for more memory than there is. *)
Lemma dev_read_raises i : out [Blocked; BadAlloc] (dev_read garbage_read uninit i).
Proof.
  unfold dev_read. apply (raises_bind garbage_read); [keeps|raises|]. intros msg. destruct (negb _); [raises|]. cbv zeta.
  apply (raises_bind garbage_read); [keeps|raises|]. intros fd. destruct (m_filter fd); [apply dev_read_filtered_raises|].
  apply (raises_bind garbage_read); [keeps|raises|]. intros [r old]. destruct (negb _); [raises|]. apply raises_restoring.
  apply (raises_bind garbage_read); [keeps|raises|]. intros r2. destruct (negb _); [raises|].
  destruct (Z.ltb_spec msg[: request msg_dev_read ; "nbytes" :] 0) as [|Hn].
  { intros e _. apply ends_bind; [apply throw_ends; listed|done]. }
  refine (read_into_raises _ i (Z.of_nat (sizeof (reply msg_dev_read))) _ (mret (m_host_fd fd))
    (fun r => err ← errno; write_type i (dev_read_info r err)) _ Hn _ _ _); [by split|by eexists|done|raises].
Qed.

Lemma signed_field (L0 : layout) f H b o n :
  field L0 f = Some (o, TInt true n) -> fld L0 f H b < 2 ^ (8 * Z.of_nat n).
Proof using Type.
  intros E. unfold fld. rewrite E. simpl. unfold wraps. pose proof (Z.mod_pos_bound (le_val (slice o n b) +
    2 ^ (8 * Z.of_nat n - 1)) (2 ^ (8 * Z.of_nat n)) ltac:(lia)). pose proof (Z.pow_nonneg 2 (8 * Z.of_nat n - 1)). lia.
Qed.

Lemma insert_loop_raises l n : forall i fd off,
  0 <= off -> off + Z.of_nat n < 2 ^ 63 -> out l (insert_loop n i fd off).
Proof.
  induction n as [|n IH]; intros i fd off Ho Hn; [apply raises_ret|]. cbn [insert_loop].
  raises; try (apply read_at_raises; lia). apply IH; lia.
Qed.

Lemma dev_insert_chars_raises i : out [] (dev_insert_chars uninit i).
Proof.
  unfold dev_insert_chars. raises. apply insert_loop_raises; [lia|].
  match goal with |- context [?b[: ?L0 ; "nbytes" :]] => pose proof (signed_field L0 "nbytes" eq_refl b _ 2 eq_refl) as Hn end.
  assert (Ht : Z.of_nat (sizeof (request msg_dev_insert_chars)) = 6) by reflexivity. change (2 ^ (8 * Z.of_nat 2)) with 65536 in Hn. lia.
Qed.

Lemma fill_dev_info_raises l fd : dangling ∈ l -> out l (fill_dev_info fd).
Proof. intros Hl. handler fill_dev_info. Qed.
Hint Resolve fill_dev_info_raises : raises.
Lemma reply_dev_info_raises l i fd : dangling ∈ l -> out l (reply_dev_info i fd).
Proof. intros Hl. handler reply_dev_info. Qed.
Hint Resolve reply_dev_info_raises : raises.
Lemma dev_info_raises i : out [dangling] (dev_info i).
Proof. handler dev_info. Qed.
Lemma dev_fdinfo_raises i : out [dangling] (dev_fdinfo i).
Proof. handler dev_fdinfo. Qed.
End Handlers.

(** ** The table *)

(** The messages whose handlers can end in another way than by an answer, a bad
    pointer or a bad descriptor of the guest. *)
Definition special : list (Message * list exn) :=
  [(msg_proc_terminate, [Exit 0]);
   (* children and programs *)
   (msg_proc_fork, [null_pid; dangling; PidMapFull; no_magic; AssertFailed]);
   (msg_proc_spawn, [past_path; Replaced; Exit 0; PidMapFull; AssertFailed]);
   (msg_proc_exec, [past_path; Replaced]);
   (msg_proc_wait, [null_pid; dangling]);
   (* other pids *)
   (msg_proc_setpgid, [null_pid]); (msg_dev_tcsetpgrp, [null_pid]);
   (msg_proc_vc_attach, [dangling]); (msg_proc_psinfo, [dangling]); (msg_proc_getid, [dangling]);
   (msg_io_lock, [dangling]); (msg_dev_tcgetpgrp, [dangling]); (msg_dev_dev_info, [dangling]);
   (msg_dev_dev_fdinfo, [dangling]);
   (* segments *)
   (msg_proc_segment_alloc, [BadAlloc; NoFreeId; ldt_refused]);
   (msg_proc_segment_realloc, [BadAlloc; ldt_refused]); (msg_proc_segment_flags, [ldt_refused]);
   (* signals *)
   (msg_proc_sigraise, [AssertFailed]); (msg_proc_sigact, [AssertFailed; no_sigtab]);
   (* descriptors *)
   (msg_proc_fd_attach, [null_fd]); (msg_io_dup, [SystemError 0]);
   (msg_fsys_pipe, [bad_index; SystemError 0]);
   (* names that are printed *)
   (msg_proc_slib_register, [unterminated]); (msg_proc_name_attach, [unterminated]);
   (* paths *)
   (msg_io_io_open, [unterminated; past_path; AssertFailed; SystemError 0]);
   (msg_io_handle, [unterminated; past_path; AssertFailed; SystemError 0]);
   (msg_io_chdir, [unterminated; past_path]); (msg_io_rename, [unterminated; past_path]);
   (msg_io_stat, [unterminated; past_path]); (msg_fsys_unlink, [unterminated; past_path]);
   (msg_fsys_mkspecial, [unterminated; past_path]); (msg_fsys_readlink, [unterminated; past_path]);
   (msg_fsys_link, [AssertFailed; unterminated; past_path]);
   (msg_fsys_get_mount, [unterminated; past_path; null_stream]);
   (* terminals *)
   (msg_io_read, [AssertFailed; Blocked]); (msg_dev_read, [Blocked; BadAlloc])].

Definition endings_of (type subtype : Z) : list exn :=
  foldr (fun p rest => if is_message type subtype p.1 then p.2 else rest) [] special.

Lemma is_message_cases type subtype m :
  is_message type subtype m = true ->
  type = TYPE m /\ (type ∈ undistinguished \/ SUBTYPE m = None \/ SUBTYPE m = Some subtype).
Proof.
  unfold is_message. intros H. apply andb_prop in H as [Ht H]. apply Z.eqb_eq in Ht. split; [done|].
  apply orb_prop in H as [H|H]; [apply orb_prop in H as [H|H]|]; apply bool_decide_eq_true in H; auto.
Qed.

Section Table.
Context {K : Type} {FK : FdKernel K} {HK : HostKernel K} {L : DescriptorLaws K}.
Context (mmap : Z -> Z -> Z -> Z -> option Z) (Hmmap : mmap_law mmap) (Hlinks : links_law (K := K)).
Context (modify_ldt : user_desc -> bool) (sigaction : Z -> SigHandler -> Z).
Context (garbage_read : Z) (uninit : nat -> Z).

Definition listed_handler i (p : Message * (MsgContext -> H K unit)) : Prop :=
  forall type subtype, is_message type subtype p.1 = true -> raises (endings_of type subtype) (p.2 i).

(** An entry from the lemma about its handler. *)
Lemma listed_intro i m h :
  (forall subtype, TYPE m ∈ undistinguished \/ SUBTYPE m = None \/ SUBTYPE m = Some subtype ->
     raises (endings_of (TYPE m) subtype) (h i)) -> listed_handler i (m, h).
Proof. intros Hh type subtype H. apply is_message_cases in H as [-> H]. by apply Hh. Qed.

(** What the table says of a message whose type and subtype are known. *)
Ltac known lem :=
  match goal with |- raises (endings_of ?t ?s) _ =>
    let l := eval vm_compute in (endings_of t s) in
    change (endings_of t s) with l; unshelve eapply lem; assumption
  end.
Ltac entry lem :=
  apply Forall_cons; split;
  [apply listed_intro; let st := fresh in let Hst := fresh in intros st [Hst|[Hst|Hst]];
   [first [apply (bool_decide_eq_true_2 _) in Hst; vm_compute in Hst; discriminate Hst | known lem]
   |first [discriminate Hst | known lem]
   |first [injection Hst as <-; known lem | discriminate Hst]]|].

Lemma handlers_listed i : entries_sized (m_send (m_msg i)) ->
  Forall (listed_handler i) (handlers mmap modify_ldt sigaction garbage_read uninit).
Proof using L Hmmap Hlinks.
  intros Hi. unfold handlers.
  entry @proc_terminate_raises. entry @proc_slib_register_raises. entry @proc_segment_realloc_raises.
  entry @proc_segment_alloc_raises. entry @proc_segment_free_raises. entry @proc_segment_flags_raises.
  entry @proc_segment_put_raises. entry @proc_segment_arm_raises. entry @proc_segment_priv_raises.
  entry @proc_name_attach_raises. entry @proc_time_raises. entry @proc_setpgid_raises.
  entry @proc_open_raises. entry @proc_fd_attach_raises. entry @proc_fd_detach_raises.
  entry @proc_fd_query_raises. entry @proc_fd_setfd_raises. entry @proc_vc_attach_raises.
  entry @proc_vc_detach_raises. entry @proc_psinfo_raises. entry @proc_sigtab_raises.
  entry @proc_sigraise_raises. entry @proc_sigact_raises. entry @proc_sigmask_raises.
  entry @proc_getid_raises. entry @proc_osinfo_raises. entry @proc_spawn_raises. entry @proc_fork_raises.
  entry @proc_exec_raises. entry @proc_timer_create_raises. entry @proc_timer_settime_raises.
  entry @proc_timer_alarm_raises. entry @proc_wait_raises. entry @proc_prefix_raises.
  entry @proc_sid_query_raises. entry @proc_sid_set_raises. entry @proc_sem_init_raises.
  entry @proc_sem_destroy_raises. entry @io_open_raises. entry @io_open_raises. entry @io_chdir_raises.
  entry @io_rename_raises. entry @io_stat_raises. entry @io_fstat_raises. entry @io_close_raises.
  entry @io_read_raises. entry @io_write_raises. entry @io_lseek_raises. entry @io_readdir_raises.
  entry @io_rewinddir_raises. entry @io_fcntl_flags_raises. entry @io_dup_raises. entry @io_fpathconf_raises.
  entry @io_chmod_raises. entry @io_chown_raises. entry @io_utime_raises. entry @io_ioctl_raises.
  entry @io_qioctl_raises. entry @io_lock_raises. entry @fsys_unlink_raises. entry @fsys_mkspecial_raises.
  entry @fsys_link_raises. entry @fsys_sync_raises. entry @fsys_readlink_raises. entry @fsys_trunc_raises.
  entry @fsys_fsync_raises. entry @fsys_pipe_raises. entry @fsys_disk_entry_raises.
  entry @fsys_get_mount_raises. entry @fsys_disk_space_raises. entry @dev_tcgetattr_raises.
  entry @dev_tcsetattr_raises. entry @dev_info_raises. entry @dev_fdinfo_raises. entry @dev_tcgetpgrp_raises.
  entry @dev_tcsetpgrp_raises. entry @dev_term_size_raises. entry @dev_tcdrain_raises.
  entry @dev_tcflush_raises. entry @dev_read_raises. entry @dev_insert_chars_raises. entry @dev_mode_raises.
  by apply Forall_nil.
Qed.

Lemma run_handler_raises i type subtype : entries_sized (m_send (m_msg i)) ->
  raises (endings_of type subtype) (run_handler mmap modify_ldt sigaction garbage_read uninit i type subtype).
Proof using L Hmmap Hlinks.
  intros Hi. pose proof (handlers_listed i Hi) as Hall. unfold run_handler, handler_of.
  assert (Hd : raises (K := K) (endings_of type subtype) (if type =? TYPE msg_proc_sem_init then mret () else unhandled_msg i)).
  { destruct (_ =? _); [apply raises_ret|apply write_status_raises]. }
  induction Hall as [|[m h] l Hh _ IH]; [exact Hd|]. cbn [foldr fst snd].
  destruct (is_message type subtype m) eqn:E; [by apply Hh|exact IH].
Qed.
End Table.

(** [receive] around the table. *)
Lemma receive_ends {K} {FK : FdKernel K} {HK : HostKernel K} {L : DescriptorLaws K} mmap modify_ldt sigaction
    garbage_read uninit i (e e' : EmuState (World K)) x :
  mmap_law mmap -> links_law (K := K) -> fit e -> entries_sized (m_send (m_msg i)) ->
  receive mmap modify_ldt sigaction garbage_read uninit i e = (e', Throw x) ->
  (exists w, x = SegmentationFault w) \/
  (exists hdr, read_type i s_header e = (e, Ok hdr) /\
     kind_of x ∈ endings_of hdr[: s_header ; "type" :] hdr[: s_header ; "subtype" :]).
Proof.
  intros Hm Hl He Hi. pose proof (proj1 He) as Hs. unfold receive, try_catch, receive_inner.
  assert (Hbad : forall e1, wf_space (e_space e1) -> write_status i Errno.Qnx.QEBADF e1 = (e', Throw x) ->
    exists w, x = SegmentationFault w).
  { intros e1 Hsp Hrun. pose proof (write_status_ends [] i Errno.Qnx.QEBADF e1 Hsp) as Hw. rewrite Hrun in Hw.
    apply elem_of_cons in Hw as [Hw|Hw]; [|by apply elem_of_nil in Hw]. destruct x; try discriminate Hw. by eexists. }
  pose proof (read_at_faults [] i 0 (sizeof s_header) e ltac:(lia) He) as Hr. unfold mbind, M_bind.
  change (read_at i 0 (sizeof s_header)) with (read_type (K := K) i s_header) in Hr.
  destruct (read_type i s_header e) as [e1 [hdr|y]] eqn:Er.
  - assert (e1 = e) as -> by (by injection Er). rewrite dispatch_table.
    pose proof (run_handler_raises mmap Hm Hl modify_ldt sigaction garbage_read uninit i
      hdr[: s_header ; "type" :] hdr[: s_header ; "subtype" :] Hi e He) as Hh.
    assert (Hkeep : keeps (evolves garbage_read) (run_handler mmap modify_ldt sigaction garbage_read uninit i
      hdr[: s_header ; "type" :] hdr[: s_header ; "subtype" :])).
    { rewrite <- dispatch_table. by apply dispatch_ok. }
    destruct (run_handler _ _ _ _ _ _ _ _ e) as [e2 [u|y]] eqn:Eh; [done|].
    destruct (is_bad_fd y) eqn:Eb; [intros Hrun; left; eapply Hbad; [|exact Hrun]; apply (Hkeep _ _ _ Eh Hs)|].
    intros [= <- <-]. apply elem_of_cons in Hh as [Hf|Hh].
    + left. destruct y; try discriminate Hf. by eexists.
    + apply elem_of_cons in Hh as [Hf|Hh]; [by destruct y|]. right. by exists hdr.
  - assert (e1 = e) as -> by (by injection Er). apply elem_of_cons in Hr as [Hf|Hr]; [|by apply elem_of_nil in Hr].
    destruct y; try discriminate Hf. simpl. intros [= <- <-]. left. by eexists.
Qed.

(** ** Properties *)

(** C4. A message that is not answered: the emulator ends with an exception of
    a bad pointer, which the system call turns into EFAULT, or with one that the
    table [special] lists for the type and the subtype of the message.  Nothing
    else leaves a handler, whatever the request, its chunks and the answers of
    the host are: no other assertion fails, no other exception goes uncaught, no
    other access has undefined behaviour, and no loop but the waiting for a
    terminal goes on for ever.  A bad descriptor is always answered. *)
Theorem receive_endings {K} {FK : FdKernel K} {HK : HostKernel K} {L : DescriptorLaws K} mmap modify_ldt sigaction
    garbage_read uninit i (e e' : EmuState (World K)) x :
  mmap_law mmap -> links_law (K := K) -> sane e -> wf_mapper (w_paths (e_world e)) -> entries_sized (m_send (m_msg i)) ->
  receive mmap modify_ldt sigaction garbage_read uninit i e = (e', Throw x) ->
  (exists w, x = SegmentationFault w) \/
  (exists hdr, read_type i s_header e = (e, Ok hdr) /\
     kind_of x ∈ endings_of hdr[: s_header ; "type" :] hdr[: s_header ; "subtype" :]).
Proof. intros Hm Hl Hs Hp. apply receive_ends; [done|done|by split]. Qed.

(** A request of a type and subtype, the rest of it zero but for [l]. *)
Definition asking (m : Message) (l : list Z) : list Z :=
  le_bytes 2 (TYPE m) ++ default [] (le_bytes 2 <$> SUBTYPE m) ++ l ++ replicate 300 0.

Definition demo_run (bs : list Z) : EmuState (World Script) * outcome unit :=
  receive demo_mmap (fun _ => true) (fun _ _ => 0) 77 (fun _ => 0) demo_ctx (demo_proc demo_fds (mkScript 0 [] 0) bs).

Lemma demo_fit bs : fit (demo_proc demo_fds (mkScript 0 [] 0) bs).
Proof. split; [apply demo_sane, demo_tidy|apply add_map_inv_witness]. Qed.

Lemma script_links : links_law (K := Script).
Proof. intros path size k k' r data [= _ <- _]. lia. Qed.

Lemma receive_endings_witness :
  mmap_law demo_mmap /\ links_law (K := Script) /\ fit (demo_proc demo_fds (mkScript 0 [] 0) (asking msg_proc_terminate [0; 0; 7])) /\
  exists e', demo_run (asking msg_proc_terminate [0; 0; 7]) = (e', Throw (Exit 7)) /\
    exists hdr, kind_of (Exit 7) ∈ endings_of hdr[: s_header ; "type" :] hdr[: s_header ; "subtype" :].
Proof.
  split; [exact demo_mmap_law|]. split; [exact script_links|].
  pose proof (demo_fit (asking msg_proc_terminate [0; 0; 7])) as Hf. split; [exact Hf|].
  destruct (demo_run (asking msg_proc_terminate [0; 0; 7])) as [e' r] eqn:E.
  assert (Hr : r = Throw (Exit 7)) by (apply (f_equal snd) in E; vm_compute in E; congruence). subst r.
  exists e'. split; [reflexivity|]. unfold demo_run in E.
  assert (Hs : entries_sized (m_send (m_msg demo_ctx))) by (apply Forall_singleton; simpl; lia).
  destruct (receive_endings demo_mmap (fun _ => true) (fun _ _ => 0) 77 (fun _ => 0) demo_ctx _ e' _
    demo_mmap_law script_links (proj1 Hf) (proj2 Hf) Hs E) as [[w Hw]|(hdr & _ & H)]; [discriminate Hw|].
  exists hdr. exact H.
Defined.

(** The rows are not there for caution only: a guest can bring these about. *)
Lemma endings_occur :
  Forall (fun '(bs, x) => (demo_run bs).2 = Throw x)
    [(asking msg_proc_terminate [0; 0; 7], Exit 7);
     (asking msg_proc_setpgid [99; 0], null_pid);
     (asking msg_proc_sigraise [100], AssertFailed);
     (asking msg_proc_fd_attach [100], null_fd);
     (asking msg_io_io_open ([3; 0] ++ replicate 20 0 ++ [47]), AssertFailed);
     (asking msg_io_chdir [], past_path);
     (asking msg_io_chdir (replicate 300 100), unterminated);
     (asking msg_proc_name_attach (replicate 300 100), unterminated);
     (asking msg_proc_slib_register (replicate 300 100), unterminated);
     (asking msg_proc_segment_alloc (replicate 18 0 ++ [0; 0; 0; 128]), BadAlloc)].
Proof. repeat (apply Forall_cons; split; [vm_compute; reflexivity|]). by apply Forall_nil. Qed.
