(* ===== verification/Traps.v ===== *)
(** * Traps: how a run of the guest can end

    The calculus of [Raises] on the emulator around the message handlers: system
    calls, signal frames and traps, and on the dump before Qine gives up.  Whatever
    the guest does, the emulator ends only in a listed way. *)

From S2P Require Import Prelude Types Memory IdMap PathMapper PidMap TerminalFilter FdMap Segment AddressSpace Sigset Msg Errno GuestContext Emu Layout QnxMsg Host MsgHandler ProcHandler IoHandler TermHandler MainHandler Descriptors Sandbox Isolation Raises Exchange MsgMeta Dump DebugDump Log LogSpec MainSpec Endings Demo Containment.

(** ** The guest's memory and registers *)

(** Operations on the guest that raise nothing but a fault. *)
Definition guest_faults {A} (m : M Guest A) : Prop := forall g, ends (faults []) (m g).

Lemma guest_bind {A B} (m : M Guest A) (f : A -> M Guest B) :
  guest_faults m -> (forall a, guest_faults (f a)) -> guest_faults (m ≫= f).
Proof. intros Hm Hf g. apply ends_bind; [apply Hm|]. intros g' a _. apply Hf. Qed.

Create HintDb traps.
Ltac guest_steps := repeat first [solve [auto with traps] | intro | apply guest_bind].

Section Guest.
Context (sp : Space) (Hsp : wf_space sp).
#[local] Instance T : Translation := space_translation sp.

Lemma set_reg_faults r v : guest_faults (set_reg r v).
Proof. done. Qed.
Lemma reg_faults r : guest_faults (reg r).
Proof. done. Qed.

Lemma segment_access_only n s a (g : Guest) op :
  0 <= n < 2 ^ 64 -> only (faults []) (translate (mkFarPointer (get_seg s g) (u32 a)) n op).
Proof using Hsp. intros Hn. pose proof (wrapu_range 32 a ltac:(lia)). by apply translate_only; [|simpl; lia|]. Qed.

Lemma read_data_faults s a n : Z.of_nat n < 2 ^ 64 -> guest_faults (read_data s a n).
Proof using Hsp.
  intros Hn g. unfold read_data. apply ends_bind; [done|]. intros g1 g2 _.
  apply ends_bind; [apply segment_access_only; lia|done].
Qed.

Lemma write_data_faults s a bs : Z.of_nat (length bs) < 2 ^ 64 -> guest_faults (write_data s a bs).
Proof using Hsp.
  intros Hn g. unfold write_data. apply ends_bind; [done|]. intros g1 g2 _.
  apply ends_bind; [apply segment_access_only; lia|done].
Qed.

Lemma read_faults n s a : Z.of_nat n < 2 ^ 64 -> guest_faults (GuestContext.read n s a).
Proof using Hsp. intros Hn. unfold GuestContext.read. by apply guest_bind; [by apply read_data_faults|]. Qed.

Lemma push_n_faults n v : Z.of_nat n < 2 ^ 64 -> guest_faults (push_n n v).
Proof using Hsp.
  intros Hn. unfold push_n, GuestContext.write. do 3 (apply guest_bind; [done|intros]).
  apply write_data_faults. by rewrite length_le_bytes.
Qed.

Lemma pop_n_faults n : Z.of_nat n < 2 ^ 64 -> guest_faults (pop_n n).
Proof using Hsp.
  intros Hn. unfold pop_n. apply guest_bind; [done|intros]. apply guest_bind; [by apply read_faults|intros].
  by repeat (apply guest_bind; [done|intros]).
Qed.

Lemma push_stack_faults v : guest_faults (push_stack v).
Proof using Hsp. by apply push_n_faults. Qed.
Lemma pop_stack_faults : guest_faults pop_stack.
Proof using Hsp. by apply pop_n_faults. Qed.
Lemma push_stack16_faults v : guest_faults (push_stack16 v).
Proof using Hsp. by apply push_n_faults. Qed.
Lemma pop_stack16_faults : guest_faults pop_stack16.
Proof using Hsp. by apply pop_n_faults. Qed.
Lemma push_reg_faults r : guest_faults (push_reg r).
Proof using Hsp. apply guest_bind; [done|intros v; apply push_stack_faults]. Qed.
Lemma pop_reg_faults r : guest_faults (pop_reg r).
Proof using Hsp. by apply guest_bind; [apply pop_stack_faults|]. Qed.
Hint Resolve reg_faults set_reg_faults push_stack_faults pop_stack_faults push_reg_faults pop_reg_faults : traps.

Lemma save_context_faults : guest_faults save_context.
Proof using Hsp. unfold save_context. guest_steps. Qed.

Lemma restore_context_faults : guest_faults restore_context.
Proof using Hsp. unfold restore_context. guest_steps. Qed.

Lemma read_stack16_faults o n : Z.of_nat n < 2 ^ 32 -> guest_faults (read_stack16 o n).
Proof using Hsp.
  intros Hn. unfold read_stack16. apply guest_bind; [done|intros].
  apply guest_bind; [apply read_data_faults; lia|done].
Qed.

Lemma syscall_error_faults v : guest_faults (set_syscall_error v).
Proof. done. Qed.
End Guest.
#[export] Hint Resolve reg_faults set_reg_faults push_stack_faults push_stack16_faults pop_stack_faults pop_stack16_faults push_n_faults pop_n_faults
  read_faults read_data_faults save_context_faults restore_context_faults read_stack16_faults syscall_error_faults : traps.
#[export] Hint Extern 1 (Z.of_nat _ < _) => done : traps.

(** ** The emulator *)

Section Emulator.
Context {K : Type} {FK : FdKernel K} {HK : HostKernel K}.
Context (garbage_read : Z).
Notation St := (EmuState (World K)).
Notation inside := (keeps (contained (K := K) garbage_read)).

(** The segment the guest reads the time from is there. *)
Definition timed (e : St) : Prop :=
  exists s, segs (e_space e) !! m_time_segment e = Some s /\ forall o, 0 <= o < sizeof_timesel -> mapped s o.

(** What the emulator relies on when the guest traps. *)
Definition ready (e : St) : Prop := safe e /\ wf_mapper (w_paths (e_world e)) /\ timed e.

Lemma lasts_ready e e' : safe e' -> lasts e e' -> ready e -> ready e'.
Proof.
  intros Hs' (Hp' & Ht' & Hk) (Hs & Hp & s & Ht & Hm). split; [done|].
  split; [by rewrite Hp'|]. destruct (Hk _ _ Ht) as (s' & Hs2 & Hm'). exists s'. rewrite Ht'. split; [done|]. auto.
Qed.

Lemma contained_ready e e' : contained garbage_read e e' -> ready e -> ready e'.
Proof. intros Hc He. destruct (Hc (proj1 He)) as (Hs & _ & _ & Hl). by eapply lasts_ready. Qed.
Lemma contained_in_ready reach e e' : contained_in garbage_read reach e e' -> ready e -> ready e'.
Proof. intros Hc He. destruct (Hc (proj1 He)) as (Hs & _ & _ & Hl). by eapply lasts_ready. Qed.

Lemma ready_fit e : ready e -> fit e.
Proof. intros ([Hs _] & Hp & _). by split. Qed.

Definition traps {A} (P : exn -> Prop) (m : H K A) : Prop := forall e, ready e -> ends P (m e).

Lemma traps_ret {A} P (a : A) : traps P (mret a).
Proof. done. Qed.
Lemma traps_get P : traps P get.
Proof. done. Qed.
Lemma traps_gets {A} P (f : St -> A) : traps P (gets f).
Proof. done. Qed.
Lemma traps_modify P f : traps P (Prelude.modify f).
Proof. done. Qed.
Lemma traps_put P e : traps P (put e).
Proof. done. Qed.
Lemma traps_throw {A} (P : exn -> Prop) x : P x -> traps P (throw (A := A) x).
Proof. by intros Hx e _. Qed.
Lemma traps_lift {A} P (o : outcome A) : only P o -> traps P (lift o).
Proof. by intros Ho e _. Qed.

Lemma traps_bind {A B} P (m : H K A) (f : A -> H K B) :
  inside m -> traps P m -> (forall a, traps P (f a)) -> traps P (m ≫= f).
Proof.
  intros Hi Hm Hf e He. apply ends_bind; [by apply Hm|]. intros e' a Hrun.
  apply Hf. eapply contained_ready; [exact (Hi _ _ _ Hrun)|done].
Qed.

(** A step that reads the state it goes on from. *)
Lemma traps_here {A} P (f : St -> H K A) : (forall e, ready e -> ends P (f e e)) -> traps P (get ≫= f).
Proof. intros Hf e He. by apply Hf. Qed.

Lemma traps_mono {A} (P Q : exn -> Prop) (m : H K A) : (forall x, P x -> Q x) -> traps P m -> traps Q m.
Proof. intros HPQ Hm e He. eapply ends_mono; [exact HPQ|by apply Hm]. Qed.

Lemma traps_try {A} (P Q : exn -> Prop) sel (m : H K A) h :
  inside m -> traps Q m -> (forall x, Q x -> sel x = false -> P x) -> (forall x, traps P (h x)) ->
  traps P (try_catch sel m h).
Proof.
  intros Hi Hm HQ Hh e He. unfold try_catch. specialize (Hm e He).
  destruct (m e) as [e1 [a|x]] eqn:E; [done|]. destruct (sel x) eqn:Es; [|by apply HQ].
  apply Hh. eapply contained_ready; [exact (Hi _ _ _ E)|done].
Qed.

(** A predicate that admits the faults of guest pointers. *)
Class Faulty (P : exn -> Prop) : Prop := faulty x : faults [] x -> P x.
#[export] Instance faults_faulty l : Faulty (faults l).
Proof. intros x. unfold faults. rewrite !elem_of_cons. intros [H|H]; [by left|by apply elem_of_nil in H]. Qed.

Lemma traps_guest {A} P (op : Translation -> M Guest A) `{!Faulty P} :
  (forall sp, wf_space sp -> guest_faults (op (space_translation sp))) -> traps P (on_guest op).
Proof.
  intros Hop e (((Hsp & _) & _) & _). unfold on_guest. specialize (Hop _ Hsp (e_guest e)).
  destruct (op _ _) as [g [a|x]]; [done|]. exact (faulty x Hop).
Qed.

Lemma greg_traps P r : traps P (greg r).
Proof. done. Qed.
Lemma greg_set_traps P r v : traps P (greg_set r v).
Proof. done. Qed.
Lemma syscall_ok_traps P : traps P syscall_ok.
Proof. done. Qed.
Lemma syscall_error_traps P v : traps P (syscall_error v).
Proof. done. Qed.
Lemma host_call_traps P c : traps P (host_call c).
Proof. done. Qed.
Lemma host_load_traps P a n : traps P (host_load a n).
Proof. done. Qed.
Lemma host_store_traps P a bs : traps P (host_store a bs).
Proof. done. Qed.
End Emulator.

#[export] Hint Resolve greg_traps greg_set_traps syscall_ok_traps syscall_error_traps host_call_traps host_load_traps
  host_store_traps : traps.
#[export] Hint Resolve greg_ok greg_set_ok syscall_ok_ok syscall_error_ok host_call_inside signal_raise_inside
  new_msg_inside receivmx_inside sigreturn_inside kill_inside host_load_inside qnx_sigtab_inside sync_inside
  set_sigs_inside push_frame_inside : keeps.

(** ** The dump

    What [ctx.dump] can raise before Qine gives up. *)

Definition over_read : exn := Undefined "over-read".

(** A failed assertion for code that is not wholly mapped, or code in no segment,
    or a copy beyond it; no magic area: it belongs to the system library.  A stack
    of which sixteen words are not mapped is a segmentation fault. *)
Definition dump_kinds : list exn := [AssertFailed; null_fd; over_read; no_magic].

Section Dump.
Context {K : Type} {FK : FdKernel K} {HK : HostKernel K}.

Lemma bounds_total s o n :
  Segment.wf s -> 0 <= o < 2 ^ 64 -> 0 <= n < 2 ^ 64 -> exists b, check_bounds s o n = Ok b.
Proof.
  intros Hw Ho Hn. destruct (decide (n = 0)) as [-> |Hne]; [by apply check_bounds_empty|].
  destruct (check_bounds_range s o n Hw) as (b & Hb & _); [lia|lia|by exists b].
Qed.

Lemma read_partial_only sp s addr n (g : Guest) :
  wf_space sp -> 0 <= addr < 2 ^ 64 -> 0 <= n < 2 ^ 32 ->
  only (faults dump_kinds) (snd (read_data_partial sp s addr n g)).
Proof.
  intros (H1 & _) Ha Hn. unfold read_data_partial, get, throw, lift, mbind at 1, M_bind at 1.
  assert (Hk : forall x, kind_of x ∈ dump_kinds -> faults dump_kinds x) by (intros; by right).
  destruct (descriptor_by_selector _ _ ≫= _) as [seg|] eqn:Eq; [|apply Hk; by right; left].
  assert (Hw : Segment.wf seg).
  { destruct (descriptor_by_selector _ _) as [sd|]; [|done]. exact (H1 _ _ Eq). }
  destruct (_ <=? addr); [apply faults_fault|]. cbv zeta.
  set (eff := Z.min n _). assert (He : 0 <= eff < 2 ^ 64).
  { pose proof (wrapu_range 32 (addr - u32 (Segment.size seg)) ltac:(lia)). unfold eff. lia. }
  unfold mbind, M_bind, pointer. destruct (bounds_total seg addr eff Hw Ha He) as [b ->]. cbn.
  destruct b; [|apply Hk; by left]. cbn. destruct (bounds_total seg addr n Hw Ha ltac:(lia)) as [b ->]. cbn.
  destruct b; [done|]. apply Hk. by do 2 right; left.
Qed.

Lemma of_guest_only {A} (e : EmuState (World K)) (op : Translation -> M Guest A) o :
  wf_space (e_space e) -> guest_faults (op (space_translation (e_space e))) ->
  ends (faults dump_kinds) (of_guest e op o).
Proof.
  intros Hw Hop. unfold of_guest, ends, lift. cbn [snd]. eapply only_mono; [|exact (Hop (e_guest e))].
  intros x Hx. by apply (faulty (P := faults dump_kinds)).
Qed.

Lemma dump_word_only (e : EmuState (World K)) i o : wf_space (e_space e) -> ends (faults dump_kinds) (dump_word e i o).
Proof.
  intros Hw. unfold dump_word. cbv zeta. destruct (g_b16 _).
  - apply ends_bind; [apply (of_guest_only e (fun T => GuestContext.read (T := T) 2 SegSS _)); auto with traps|done].
  - apply ends_bind; [apply (of_guest_only e (fun T => GuestContext.read (T := T) 4 SegSS _)); auto with traps|done].
Qed.

Lemma dump_words_only (e : EmuState (World K)) l : forall o,
  wf_space (e_space e) -> ends (faults dump_kinds) (dump_words e l o).
Proof.
  induction l as [|i l IH]; intros o Hw; [done|]. cbn [dump_words].
  apply ends_bind; [by apply dump_word_only|]. intros o' u _. by apply IH.
Qed.

Lemma read_string_faults sp p n :
  wf_space sp -> 0 <= Types.m_offset p < 2 ^ 64 -> Z.of_nat n < 2 ^ 64 ->
  guest_faults (GuestContext.read_string (T := space_translation sp) p n).
Proof.
  intros Hw Hp Hn g. unfold GuestContext.read_string, get, mbind, M_bind.
  pose proof (translate_only sp p (Z.of_nat n) READ [] Hw Hp ltac:(lia)) as H.
  change (translate p (Z.of_nat n) READ) with (translate_segmented sp p (Z.of_nat n) READ).
  destruct (translate_segmented _ _ _ _) as [a|x]; [done|]. by destruct x.
Qed.

Lemma dump_magic_only (e : EmuState (World K)) p o :
  wf_space (e_space e) -> ends (faults dump_kinds) (dump_magic p e o).
Proof.
  intros Hw. unfold dump_magic. destruct (w_magic _) as [a|]; [|right; by do 3 right; left]. cbv zeta.
  set (m := load _ a _).
  assert (Hs : forall sg v o, 0 <= v < 2 ^ 32 -> ends (faults dump_kinds)
    (of_guest e (fun T => GuestContext.read_string (T := T) (mkFarPointer sg v) 256) o)).
  { intros sg v o' Hv. apply (of_guest_only e (fun T => GuestContext.read_string (T := T) _ 256)); [exact Hw|].
    apply read_string_faults; [exact Hw|cbn [Types.m_offset]; lia|lia]. }
  assert (H1 : 0 <= fld Magic.s_magic "cwd" eq_refl m < 2 ^ 32) by exact (fld_range Magic.s_magic "cwd" eq_refl m _ 4 eq_refl).
  assert (H2 : 0 <= fld Magic.s_magic "root_prefix" eq_refl m < 2 ^ 32)
    by exact (fld_range Magic.s_magic "root_prefix" eq_refl m _ 4 eq_refl).
  apply ends_bind; [by apply Hs|]. intros o1 cwd _. apply ends_bind; [by apply Hs|]. intros o2 root _. exact I.
Qed.

Lemma dumped_only f (e : EmuState (World K)) : ready e -> only (faults dump_kinds) (dumped f e).
Proof.
  intros (((Hw & _) & Hr) & _). unfold dumped. change (ends (faults dump_kinds)
    (dump (f_ndisasm f) (f_cr2 f) (f_trapno f) (f_err f) (f_magic_guest_pointer f) 0 e [])).
  unfold dump. apply ends_bind.
  { unfold ends, lift, dump_ip. cbn [snd]. pose proof (Hr EIP) as Hip. cbn in Hip.
    pose proof (translate_only (e_space e) (mkFarPointer (gr (e_guest e) CS) (gr (e_guest e) EIP)) 0 READ []
      Hw ltac:(simpl; lia) ltac:(lia)) as H.
    destruct (translate_segmented _ _ _ _) as [a|x]; [done|]. simpl in H.
    apply elem_of_cons in H as [H|H]; [by destruct x|by apply elem_of_nil in H]. }
  intros o1 ip _. apply ends_bind; [done|]. intros o2 u _. apply ends_bind.
  { unfold dump_code. cbv zeta. apply ends_bind; [|by intros o3 [code n] _]. unfold of_guest, ends, lift. cbn [snd].
    pose proof (Hr EIP) as Hip. cbn in Hip. apply read_partial_only; [done|lia|done]. }
  intros o3 u3 _. apply ends_bind; [done|]. intros o4 u4 _. apply ends_bind; [by apply dump_words_only|].
  intros o5 u5 _. destruct (g_b16 _); [done|]. apply ends_bind; [done|]. intros o6 u6 _. by apply dump_magic_only.
Qed.
End Dump.

(** ** System calls *)

Section Calls.
Context {K : Type} {FK : FdKernel K} {HK : HostKernel K} {L : DescriptorLaws K}.
Context (mmap : Z -> Z -> Z -> Z -> option Z) (Hmmap : mmap_law mmap) (Hlinks : links_law (K := K)).
Context (modify_ldt : user_desc -> bool) (sigaction : Z -> SigHandler -> Z).
Context (garbage_read : Z) (uninit : nat -> Z) (enabled : Z) (now : Z * Z) (fault : Fault) (host_kill : Z -> Z -> Z).
Notation St := (EmuState (World K)).
Notation handle := (Containment.handle mmap modify_ldt sigaction garbage_read uninit enabled).
Notation inside := (keeps (contained (K := K) garbage_read)).

(** Take a computation apart down to its operations. *)
Ltac traps_step :=
  match goal with
  | |- forall _, _ => intro
  | |- traps _ (mret _) => apply traps_ret
  | |- traps _ get => apply traps_get
  | |- traps _ (gets _) => apply traps_gets
  | |- traps _ (Prelude.modify _) => apply traps_modify
  | |- traps _ (_ ≫= _) => apply (traps_bind garbage_read); [solve [keeps]| |]
  | |- traps _ (let _ := _ in _) => cbv zeta
  | |- traps _ (match ?x with _ => _ end) => destruct x
  | |- traps _ (on_guest _) => apply traps_guest; [apply _|solve [auto with traps]]
  | |- traps _ _ => solve [auto with traps]
  end.
Ltac traps := repeat traps_step.

(** The message of some type and subtype is not answered. *)
Definition by_message (x : exn) : Prop := exists type subtype, kind_of x ∈ endings_of type subtype.

(** The log raised it, printing a request or a reply in a state the guest can be in. *)
Definition by_log (x : exn) : Prop :=
  is_enabled MSG enabled || is_enabled MSG_REPLY enabled = true /\
  exists (i : MsgContext) (e : St), ready e /\ entries_sized (m_send (m_msg i)) /\ log_raises i e x.

Lemma by_log_kind x : by_log x -> faults [unterminated] x.
Proof. intros (_ & i & e & (((Hsp & _) & _) & _) & Hs & Hx). by eapply log_raises_kind. Qed.

Lemma handle_inside i : inside (handle i).
Proof using L Hmmap. by apply logged_inside. Qed.
Hint Resolve handle_inside : keeps.

(** What a message raises: a fault, what its handler raises, what the log raises. *)
Definition msg_ends (x : exn) : Prop := faults [] x \/ by_message x \/ by_log x.

Lemma handle_msg_traps i : entries_sized (m_send (m_msg i)) ->
  traps msg_ends (handle_msg (receive mmap modify_ldt sigaction garbage_read uninit) i).
Proof using L Hmmap Hlinks.
  intros Hi e He. unfold handle_msg. apply ends_bind.
  { pose proof (proj1 (proj1 (proj1 He))) as Hsp. pose proof (read_ends [] (fun _ => m_send (m_msg i)) (sizeof s_header) e Hsp) as H.
    unfold read_type, read_at, get, mbind, M_bind, Msg.read. destruct (read_chunks _ _ _ _) as [bs|x]; [done|]. left. exact H. }
  intros e1 hdr Hh. assert (He1 : ready e1) by (eapply contained_ready; [exact (evolves_inside garbage_read _ (read_type_ok garbage_read i s_header) _ _ _ Hh)|done]).
  unfold ends. destruct (receive _ _ _ _ _ i e1) as [e' [[]|x]] eqn:E; [done|]. simpl.
  destruct (receive_ends mmap modify_ldt sigaction garbage_read uninit i e1 e' x Hmmap Hlinks (ready_fit _ He1) Hi E)
    as [[w ->]|(hd & _ & H)]; [left; apply faults_fault|]. right; left. by eexists _, _.
Qed.

Lemma handle_traps i : entries_sized (m_send (m_msg i)) -> traps msg_ends (handle i).
Proof using L Hmmap Hlinks.
  intros Hi e He. unfold ends. destruct (handle i e) as [e' r] eqn:E.
  destruct (logged_run _ _ _ _ _ _ E) as [E1|[(Hen & -> & x & -> & Hx)|(Hen & E1 & x & -> & Hx)]].
  - pose proof (handle_msg_traps i Hi e He) as H. unfold ends in H. by rewrite E1 in H.
  - right; right. split; [by rewrite Hen|]. by exists i, e.
  - right; right. split; [by rewrite Hen, orb_true_r|]. exists i, e'. split; [|done].
    eapply contained_ready; [|exact He]. exact (handle_inside i _ _ _ E).
Qed.

(** Building the message copies the entries of a 16-bit one. *)
Lemma new_msg_ends n1 p1 n2 p2 bits (e : St) :
  ready e -> 0 <= Types.m_offset p1 < 2 ^ 32 -> 0 <= Types.m_offset p2 < 2 ^ 32 ->
  ends (faults []) (new_msg n1 p1 n2 p2 bits e).
Proof.
  intros (((Hsp & _) & _) & _) Ho1 Ho2. unfold new_msg, ends. simpl. unfold Msg_new.
  assert (Ht : forall p n op, 0 <= Types.m_offset p < 2 ^ 32 ->
    only (faults []) (translate_segmented (e_space e) p (u32 n) op)).
  { intros p n op Ho. pose proof (wrapu_range 32 n ltac:(lia)). apply translate_only; [done|lia|lia]. }
  destruct bits; (apply only_bind; [by apply Ht|intros]); (apply only_bind; [by apply Ht|done]).
Qed.

(** What a message call of the guest can raise, before the dispatcher's [catch]. *)
Definition call_ends (x : exn) : Prop := faults [null_pid] x \/ by_message x \/ by_log x.

#[local] Instance call_faulty : Faulty call_ends.
Proof. intros x Hx. left. by apply (faulty (P := faults [null_pid])). Qed.

Lemma send_traps n1 p1 n2 p2 bits via id :
  0 <= Types.m_offset p1 < 2 ^ 32 -> 0 <= Types.m_offset p2 < 2 ^ 32 ->
  traps call_ends (msg ← new_msg n1 p1 n2 p2 bits; _ ← handle (mkMsgContext via id msg); syscall_ok).
Proof using L Hmmap Hlinks.
  intros H1 H2 e He. apply ends_bind.
  { eapply ends_mono; [intros x Hx; exact (faulty (P := call_ends) x Hx)|by apply new_msg_ends]. }
  intros e1 msg Hrun. assert (Hi : entries_sized (m_send msg)).
  { revert Hrun. unfold new_msg, mbind, M_bind, get, lift. intros [= _ Hm]. by eapply Msg_new_sized. }
  assert (He1 : ready e1) by (eapply contained_ready; [exact (new_msg_inside garbage_read _ _ _ _ _ _ _ _ Hrun)|done]).
  apply (traps_bind garbage_read call_ends); [apply handle_inside| |traps|done].
  eapply traps_mono; [|by apply handle_traps]. intros x [Hx|Hx]; [by apply (faulty (P := call_ends))|by right].
Qed.

Lemma send32_traps b : traps call_ends (send32 handle b).
Proof using L Hmmap Hlinks.
  unfold send32. apply traps_here. intros e He. cbv zeta. destruct He as [[Hs Hr] He].
  pose proof (Hr EBX). pose proof (Hr ESI). apply send_traps; [done|done|by split].
Qed.

Lemma read_stack16_range (T : Translation) o n g g' args k :
  read_stack16 o n g = (g', Ok args) -> 0 <= arg16 args k < 2 ^ 32.
Proof.
  unfold read_stack16. intros H. apply M_bind_Ok in H as (g1 & esp & _ & H).
  apply M_bind_Ok in H as (g2 & bs & _ & H). injection H as _ <-. unfold arg16, decode_u16s.
  rewrite list_lookup_fmap. destruct (_ !! k) as [i|]; [|by vm_compute].
  change (0 <= u16 (le_val (slice (2 * i) 2 bs)) < 2 ^ 32).
  pose proof (wrapu_range 16 (le_val (slice (2 * i) 2 bs)) ltac:(lia)). lia.
Qed.

Lemma send16_traps b : traps call_ends (send16 handle b).
Proof using L Hmmap Hlinks.
  intros e He. unfold send16. apply ends_bind.
  { apply (traps_guest call_ends (fun T => read_stack16 (T := T) 1 7)); [|exact He]. auto with traps. }
  intros e1 args Hrun. assert (Hargs : forall k, 0 <= arg16 args k < 2 ^ 32).
  { intros k. revert Hrun. unfold on_guest. destruct (read_stack16 _ _ _) as [g r] eqn:E. intros [= _ ->].
    exact (read_stack16_range _ _ _ _ _ _ k E). }
  apply send_traps; [apply Hargs|apply Hargs|]. eapply contained_ready; [|exact He].
  refine (on_guest_ok garbage_read (fun T => read_stack16 (T := T) 1 7) _ _ _ _ Hrun). intros. apply read_stack16_ok.
Qed.

Lemma receivmx_traps : traps call_ends (syscall_receivmx (W := World K)).
Proof. unfold syscall_receivmx. traps. Qed.

Lemma sigreturn_traps : traps call_ends (syscall_sigreturn (W := World K)).
Proof.
  unfold syscall_sigreturn. apply (traps_bind garbage_read); [apply on_guest_ok; intros; apply pop_n_ok|traps|intros mask].
  apply (traps_bind garbage_read); [by apply modify_inside|traps|intros _].
  apply (traps_bind garbage_read); [apply on_guest_ok; intros; apply restore_context_ok|traps|traps].
Qed.

Lemma qnx_valid_host_only m pid : only call_ends (qnx_valid_host m pid).
Proof. unfold qnx_valid_host. destruct (qnx m pid); [done|]. left. right. by left. Qed.

Lemma kill_traps s c : traps call_ends (kill (W := World K) host_kill s c).
Proof.
  unfold kill. cbv zeta. destruct (_ =? -1); [traps|]. apply (traps_bind garbage_read); [unfold host_code; keeps| |traps].
  unfold host_code. apply (traps_bind garbage_read); [keeps|traps|intros e].
  destruct (_ || _); [traps|]. destruct (0 <? c);
    (apply (traps_bind garbage_read); [keeps|apply traps_lift, qnx_valid_host_only|traps]).
Qed.
Hint Resolve send32_traps send16_traps receivmx_traps sigreturn_traps kill_traps : traps.
Lemma send32_here b : inside (send32 handle b).
Proof using L Hmmap. apply send32_inside, handle_inside. Qed.
Lemma send16_here b : inside (send16 handle b).
Proof using L Hmmap. apply send16_inside, handle_inside. Qed.
Hint Resolve send32_here send16_here : keeps.

(** What leaves the two dispatchers: guest faults are answered with EFAULT, those
    of the log too. *)
Definition dispatch_ends (x : exn) : Prop := x = null_pid \/ by_message x \/ x = unterminated /\ by_log x.

Lemma uncaught x : call_ends x -> is_segv x = false -> dispatch_ends x.
Proof.
  intros [Hx|[Hx|Hx]] Hs; [left|by right; left|right; right; split; [|done]; apply by_log_kind in Hx];
    (apply elem_of_cons in Hx as [Hx|Hx]; [by destruct x|]);
    apply list_elem_of_singleton in Hx; destruct x; try discriminate Hx; exact Hx.
Qed.

Lemma catch_traps (m : H K unit) : inside m -> traps call_ends m -> traps dispatch_ends (catch_segv m).
Proof. intros Hi Hm. eapply (traps_try garbage_read); [exact Hi|exact Hm|apply uncaught|traps]. Qed.

Lemma dispatch_traps : traps dispatch_ends (dispatch_syscall host_kill handle).
Proof using L Hmmap Hlinks.
  unfold dispatch_syscall, syscall_sendmx, syscall_sendfdmx, syscall_priority, syscall_yield, syscall_kill.
  apply catch_traps; [keeps|traps].
Qed.

(** ** Signals and traps *)

(** The dump before Qine gives up raised it, in a state the guest can be in. *)
Definition by_dump (x : exn) : Prop := exists e : St, ready e /\ dumped fault e = Throw x.

(** A fault without a handler of the guest's, a signal without one, and a signal
    to a process that is not known. *)
Definition trap_kinds : list exn := [Abort; GuestStateException EmptyString; null_pid].
Definition trap_ends (x : exn) : Prop :=
  faults trap_kinds x \/ by_message x \/ by_dump x \/ x = unterminated /\ by_log x.

#[local] Instance trap_faulty : Faulty trap_ends.
Proof. intros x Hx. left. by apply (faulty (P := faults trap_kinds)). Qed.

Lemma trap_kind x : kind_of x ∈ trap_kinds -> trap_ends x.
Proof. intros Hx. left. by right. Qed.

(** What the delivery of a signal raises: no stack for its frame, no handler. *)
Definition signal_ends (x : exn) : Prop := faults [GuestStateException EmptyString] x \/ by_dump x.

#[local] Instance signal_faulty : Faulty signal_ends.
Proof. intros x Hx. left. by apply (faulty (P := faults [GuestStateException EmptyString])). Qed.

Lemma no_handler w : signal_ends (GuestStateException w).
Proof. by left; right; left. Qed.
Lemma signal_trap x : signal_ends x -> trap_ends x.
Proof.
  intros [Hx|Hx]; [left|by right; right; left]. revert Hx. unfold faults, trap_kinds. rewrite !elem_of_cons. tauto.
Qed.

Lemma dispatch_trap x : dispatch_ends x -> trap_ends x.
Proof. intros [-> |[Hx|Hx]]; [|by right; left|by right; right; right]. apply trap_kind. by do 2 right; left. Qed.

Lemma dump_context_traps : traps signal_ends (dump_context (W := World K) (dumped fault)).
Proof.
  unfold dump_context. apply traps_here. intros e He. unfold ends, lift. cbn [snd].
  destruct (dumped fault e) as [u|x] eqn:E; [done|]. right. by exists e.
Qed.

(** The number of a 16-bit call is read before the dispatcher's [try]. *)
Lemma dispatch16_traps : traps trap_ends (dispatch_syscall16 handle).
Proof using L Hmmap Hlinks.
  unfold dispatch_syscall16. apply (traps_bind garbage_read); [keeps|traps|intros esp].
  apply (traps_bind garbage_read); [apply on_guest_ok; intros; apply read_ok|traps|intros n].
  eapply traps_mono; [exact dispatch_trap|].
  unfold syscall16_sendmx, syscall16_sendfdmx, syscall16_receivmx, syscall16_sigreturn, syscall_priority, syscall_yield.
  assert (inside (on_guest (fun T => pop_stack16 (T := T)))) by (apply on_guest_ok; intros; apply pop_n_ok).
  apply catch_traps; [keeps|traps].
Qed.

(** So is the semaphore. *)
Lemma dispatch_sem_traps : traps trap_ends (dispatch_syscall_sem (W := World K)).
Proof.
  unfold dispatch_syscall_sem. apply traps_here. intros e ([(Hsp & _) Hr] & _). cbv zeta. apply ends_bind.
  { eapply only_mono; [intros x Hx; exact (faulty (P := trap_ends) x Hx)|].
    pose proof (Hr EAX) as Ha. cbn in Ha. apply translate_only; [done|simpl; lia|done]. }
  intros e1 sem _. unfold host_load, host_store, ends, mbind, M_bind, gets.
  repeat (destruct (_ =? _); [try done|]); done.
Qed.

Lemma qnx_sigtab_traps s b : sig_ok s -> traps signal_ends (qnx_sigtab (W := World K) s b).
Proof.
  intros Hs. unfold qnx_sigtab. apply (traps_bind garbage_read); [keeps| |intros _].
  { apply traps_lift. unfold sig_ok in Hs. rewrite !(proj2 (Z.leb_le _ _)); [done|lia|lia]. }
  apply (traps_bind garbage_read); [keeps|traps|intros e]. destruct (m_sigtab e); [traps|]. destruct b; [|traps].
  apply traps_throw, no_handler.
Qed.

Lemma signal_raise_traps s : sig_ok s -> traps signal_ends (signal_raise (W := World K) s).
Proof.
  intros Hs. unfold signal_raise. apply (traps_bind garbage_read); [keeps|traps|intros e].
  unfold set_qnx_sig. rewrite get_qnx_mask_ok by done. done.
Qed.

Lemma update_timesel_traps P : traps P (update_timesel (W := World K) now).
Proof.
  unfold update_timesel. apply traps_here. intros e (((Hsp & _) & _) & _ & s & Hs & Hm). rewrite Hs.
  destruct (check_bounds_range s 0 sizeof_timesel (proj1 Hsp _ _ Hs)) as (b & _ & Hb & Hp); [done|done|].
  rewrite (proj2 Hb) in Hp by (intros; apply Hm; lia). destruct Hp as [-> _]. done.
Qed.

Lemma sync_traps P : traps P (sync_host_sigmask (W := World K)).
Proof.
  unfold sync_host_sigmask. apply traps_here. intros e _. apply ends_bind; [|done].
  unfold map_to_host_sigset.
  destruct (to_host_loop_spec (m_sigmask e) all_sigs ∅) as (hs & -> & _); [|done].
  apply Forall_forall. intros s Hs. by apply elem_of_all_sigs.
Qed.

Lemma push_frame_traps m s act tab : traps signal_ends (push_frame (W := World K) m s act tab).
Proof.
  assert (Hs : inside (on_guest (fun T => save_context (T := T))))
    by (apply on_guest_ok; intros; by apply save_context_ok).
  assert (H4 : forall v, inside (on_guest (fun T => push_stack (T := T) v)))
    by (intros; apply on_guest_ok; intros; by apply push_stack_ok).
  assert (H2 : forall v, inside (on_guest (fun T => push_stack16 (T := T) v)))
    by (intros; apply on_guest_ok; intros; by apply push_stack16_ok).
  unfold push_frame, push_args. traps.
Qed.
Hint Resolve qnx_sigtab_traps signal_raise_traps update_timesel_traps sync_traps push_frame_traps dispatch16_traps
  dispatch_sem_traps : traps.
Hint Extern 1 (inside (update_timesel _)) => apply update_timesel_inside : keeps.

(** A host signal the program has a number for. *)
Lemma host_to_qnx_sig_ok s : map_sig_host_to_qnx s <> -1 -> sig_ok (map_sig_host_to_qnx s).
Proof.
  intros Hs. apply qnx_to_host_sig_ok. rewrite (proj1 (sig_number_roundtrip s) Hs). by intros ->.
Qed.

(** The least pending signal is a signal: the assertions on its number hold. *)
Lemma active_first (e : St) : activesig e <> 0 -> exists s, find_first (activesig e) = Ok s /\ sig_ok s.
Proof.
  intros Hne. destruct (find_first_nonzero (activesig e)) as (s & Hf & Hs & _); [|done|by exists s].
  unfold activesig, Sigset.modify. rewrite Z.land_0_l, Z.lor_0_r, Z.land_comm. apply land_range, wrapu_range. lia.
Qed.

Lemma sigtab_found s (e e' : St) act :
  qnx_sigtab s true e = (e', Ok act) ->
  exists tab, m_sigtab e = Some tab /\ e' = e /\ act = Some (tab + 4 + sizeof_sigaction * (s - 1)).
Proof.
  unfold qnx_sigtab, mbind, M_bind, get, lift. destruct (check _ _); [|done].
  destruct (m_sigtab e) as [tab|]; [|done]. intros [= <- <-]. by exists tab.
Qed.

Lemma signal_tail_traps : traps signal_ends (signal_tail (W := World K) now (dumped fault)).
Proof.
  unfold signal_tail. apply (traps_bind garbage_read); [keeps|traps|intros _].
  apply traps_here. intros e He. cbv zeta. destruct (_ =? 0); [done|]. unfold Sigset.is_empty.
  destruct (Z.eqb_spec (activesig e) 0) as [|Hne]; [by apply sync_traps|].
  destruct (active_first e Hne) as (s & -> & Hs). apply ends_bind; [done|]. intros e1 s1 [= <- <-].
  unfold clear_qnx_sig. rewrite get_qnx_mask_ok by done. apply ends_bind; [done|]. intros e1 pend [= <- _].
  set (e2 := set_sigs pend (m_sigmask e) e). apply ends_bind; [done|]. intros e3 [] [= <-].
  assert (He2 : ready e2) by exact (contained_ready garbage_read e e2 (set_sigs_inside garbage_read pend (m_sigmask e) e e2 (Ok ()) eq_refl) He).
  apply ends_bind; [by apply qnx_sigtab_traps|]. intros e3 act Hact.
  apply sigtab_found in Hact as (tab & Htab & -> & ->). assert (Ht : m_sigtab e = Some tab) by exact Htab. rewrite Ht.
  cbv iota. destruct (is_special_sighandler _).
  { refine ((_ : traps signal_ends _) e2 He2).
    apply (traps_bind garbage_read); [apply dump_context_inside|apply dump_context_traps|intros _].
    apply traps_throw, no_handler. }
  unfold set_qnx_sig. rewrite get_qnx_mask_ok by done. refine ((_ : traps signal_ends _) e2 He2).
  apply (traps_bind garbage_read); [keeps|by apply traps_lift|traps].
Qed.
Hint Resolve signal_tail_traps : traps.
Hint Extern 1 (inside (signal_tail _ _)) => apply signal_tail_inside : keeps.

(** Inside the handler of traps. *)
Lemma as_trap {A} (m : H K A) : traps signal_ends m -> traps trap_ends m.
Proof. apply traps_mono, signal_trap. Qed.

Lemma handler_generic_traps s : traps signal_ends (handler_generic (W := World K) now (dumped fault) s).
Proof.
  unfold handler_generic. cbv zeta. destruct (Z.eqb_spec (map_sig_host_to_qnx s) (-1)) as [|Hne].
  - apply traps_throw, no_handler.
  - apply (traps_bind garbage_read); [keeps|by apply signal_raise_traps, host_to_qnx_sig_ok|traps].
Qed.

Lemma handle_guest_segv_traps : traps trap_ends (handle_guest_segv (W := World K) (dumped fault)).
Proof.
  assert (Hs : sig_ok Sigset.Qnx.QSIGSEGV) by (split; discriminate).
  assert (Ha : trap_ends Abort) by (apply trap_kind; by left).
  unfold handle_guest_segv. apply (traps_bind garbage_read); [keeps|by apply as_trap, qnx_sigtab_traps|intros act].
  assert (Hg : traps trap_ends (_ ← dump_context (W := World K) (dumped fault); throw Abort : H K unit)).
  { apply (traps_bind garbage_read); [apply dump_context_inside| |intros _; by apply traps_throw].
    apply as_trap, dump_context_traps. }
  apply (traps_bind garbage_read); [keeps|traps|intros e]. destruct act as [act|]; [|exact Hg].
  destruct (is_special_sighandler _); [exact Hg|by apply as_trap, signal_raise_traps].
Qed.

(** Reading the trapping instruction: a fault means it is none. *)
Lemma matches_traps P n : traps P (matches_syscall (W := World K) n).
Proof.
  assert (H : forall s a, inside (on_guest (fun T => GuestContext.read (T := T) 1 s a)))
    by (intros; apply on_guest_ok; intros; apply read_ok).
  unfold matches_syscall. apply (traps_try garbage_read) with (Q := faults []); [keeps|traps| |done].
  intros x Hx Hs. apply elem_of_cons in Hx as [Hx|Hx]; [by destruct x|by apply elem_of_nil in Hx].
Qed.

Lemma trapped_traps : traps trap_ends (trapped_syscall host_kill handle).
Proof using L Hmmap Hlinks.
  pose proof matches_traps. pose proof (matches_inside (K := K) garbage_read).
  pose proof (dispatch_inside garbage_read host_kill handle handle_inside).
  pose proof (dispatch16_inside garbage_read handle handle_inside).
  pose proof (dispatch_sem_inside (K := K) garbage_read).
  assert (traps trap_ends (dispatch_syscall host_kill handle)) by (eapply traps_mono; [exact dispatch_trap|apply dispatch_traps]).
  unfold trapped_syscall, skip_insn. traps.
Qed.

Lemma handler_segv_traps c : traps trap_ends (handler_segv now (dumped fault) host_kill handle c).
Proof using L Hmmap Hlinks.
  assert (Ha : trap_ends Abort) by (apply trap_kind; by left).
  assert (Hg : inside (handle_guest_segv (W := World K) (dumped fault))) by apply handle_guest_segv_inside.
  assert (Hsys : inside (trapped_syscall host_kill handle)).
  { pose proof (matches_inside (K := K) garbage_read).
    pose proof (dispatch_inside garbage_read host_kill handle handle_inside).
    pose proof (dispatch16_inside garbage_read handle handle_inside).
    pose proof (dispatch_sem_inside (K := K) garbage_read). unfold trapped_syscall, skip_insn. keeps. }
  pose proof handle_guest_segv_traps. pose proof trapped_traps. pose proof (as_trap _ signal_tail_traps).
  unfold handler_segv.
  destruct (_ <=? 0); [traps|]. apply (traps_bind garbage_read); [keeps|traps|intros cs].
  destruct (_ =? 0); [by apply traps_throw|]. unfold migrate. traps.
Qed.
End Calls.
