(* ===== verification/ProcSpec.v ===== *)
(** * ProcSpec: what the process manager's messages do

    Theorems about the handlers of [ProcHandler], stated on requests and replies
    as the guest sees them ([Exchange]). *)

From S2P Require Import Prelude Types Memory IdMap PathMapper PidMap TerminalFilter FdMap Segment AddressSpace Sigset Msg Errno GuestContext Emu Layout QnxMsg Host MsgHandler ProcHandler IoHandler TermHandler MainHandler Sandbox Exchange Demo.

Import Errno.Qnx.

(** ** Address spaces that only gain *)

Definition extends (sp sp' : Space) : Prop := forall p n op a,
  translate_segmented sp p n op = Ok a -> translate_segmented sp' p n op = Ok a.

Lemma extends_intro sp sp' :
  (forall r s, segs sp !! r = Some s -> segs sp' !! r = Some s) ->
  (forall j sd, at_ (m_segment_descriptors sp) j = Some sd -> at_ (m_segment_descriptors sp') j = Some sd) ->
  extends sp sp'.
Proof.
  intros Hs Hd p n op a. unfold translate_segmented, descriptor_by_selector.
  destruct (at_ (m_segment_descriptors sp) _) as [sd|] eqn:Ed; [|done]. rewrite (Hd _ _ Ed).
  destruct (segs sp !! sd_seg sd) as [s|] eqn:Es; [|done]. by rewrite (Hs _ _ Es).
Qed.

Section Extends.
Context (sp sp' : Space) (Hx : extends sp sp').

Lemma valid_chunk_extends c :
  valid_chunk (T := space_translation sp) c ->
  valid_chunk (T := space_translation sp') c /\
  chunk_addrs (T := space_translation sp') c = chunk_addrs (T := space_translation sp) c.
Proof using Hx.
  intros (H1 & H2 & H3 & H4 & H5). split.
  - repeat (split; [done|]). intros Hl. destruct (H5 Hl) as [a Ha]. exists a. by apply Hx.
  - unfold chunk_addrs. simpl in *. destruct (decide (0 < mxfer_len c)) as [Hl|Hl].
    + destruct (H5 Hl) as [a Ha]. rewrite Ha. by rewrite (Hx _ _ _ _ Ha).
    + clear H5. replace (mxfer_len c) with 0 by lia.
      by destruct (translate_segmented sp' _ _ _), (translate_segmented sp _ _ _).
Qed.

Lemma valid_extends l :
  valid (T := space_translation sp) l ->
  valid (T := space_translation sp') l /\ flat (T := space_translation sp') l = flat (T := space_translation sp) l.
Proof using Hx.
  intros [Hf Ht].
  assert (H : Forall (valid_chunk (T := space_translation sp')) l /\
    flat (T := space_translation sp') l = flat (T := space_translation sp) l).
  { clear Ht. induction Hf as [|c l Hc Hf [IH1 IH2]]; [done|].
    destruct (valid_chunk_extends c Hc) as [Hc' Ha].
    split; [by constructor|]. by rewrite !flat_cons, IH2, Ha. }
  destruct H as [H1 H2]. split; [|done]. split; [done|]. unfold total in *. by rewrite H2.
Qed.
End Extends.

Section Proc.
Context {K : Type} {FK : FdKernel K} {HK : HostKernel K}.
Notation St := (EmuState (World K)).

Lemma can_reply_extends (e : St) sp' i :
  wf_space sp' -> extends (e_space e) sp' -> can_reply e i -> can_reply (set_space sp' e) i.
Proof.
  intros Hw Hx (_ & Hv & Hs). destruct (valid_extends _ _ Hx _ Hv) as [Hv' Hf].
  split; [exact Hw|]. split; [exact Hv'|]. intros m' Hm'. apply Hs. intros x Hxx. apply Hm'.
  change (x ∉ flat (T := space_translation sp') (gets_back e i)). rewrite Hf. exact Hxx.
Qed.

Lemma set_space_twice sp sp' (e : St) : set_space sp (set_space sp' e) = set_space sp e.
Proof. done. Qed.

Lemma space_seg_run {A} (op : M Segment A) r sp s s' o :
  segs sp !! r = Some s -> op s = (s', o) ->
  space_seg r op sp = (mkSpace (<[r := s']> (segs sp)) (next_seg sp) (m_segments sp)
                         (m_segment_descriptors sp) (ldt sp), o).
Proof. intros Hs Ho. unfold space_seg. by rewrite Hs, Ho. Qed.
End Proc.

(** ** Segments *)

Lemma create_ok sp access mem bits j :
  wf_space sp -> is_Some (segs sp !! mem) -> (j < 1024)%nat -> at_ (m_segment_descriptors sp) j = None ->
  exists sp' sd i, create_segment_descriptor (fun _ => true) access mem bits sp = (sp', Ok sd) /\
    installed sp sp' i sd /\ sd_seg sd = mem.
Proof.
  intros Hwf [s Hs] Hj Hfree.
  destruct (create_segment_descriptor (fun _ => true) access mem bits sp) as [sp' r] eqn:E.
  destruct (create_inv _ _ _ _ _ _ _ Hwf E) as [(i & sd & -> & Hin & _ & Hseg & _)|(x & -> & _)].
  { by exists sp', sd, i. }
  exfalso. pose proof Hwf as (_ & _ & H3 & H4 & _). revert E. unfold create_segment_descriptor, create_with.
  pose proof (alloc_from_spec (m_segment_descriptors sp) 0 (construct (fun _ => true) sp access mem bits) H3) as Hp.
  unfold alloc_any. destruct (search _ 0 false) as [k|] eqn:Ek.
  2: { intros _. refine (search_None _ _ _ Ek j _ _ _); [lia|intros _; by rewrite H4|].
       apply slot_free. by rewrite abs_lookup. }
  destruct (emplace k _ _) as [m r0]. destruct r0 as [sd|y]; [done|].
  destruct Hp as (_ & _ & [(n & _ & _ & _ & Hr & _)|(_ & Hr & Hall)]).
  - intros _. revert Hr. unfold construct, update_descriptors, get, publish, mbind, outcome_bind, M_bind.
    simpl. by rewrite Hs.
  - intros _. destruct (Hall j) as [? Hx]; [rewrite H4; lia|]. rewrite abs_lookup in Hx. congruence.
Qed.

(** A kernel that has room for a megabyte and grants the fixed mappings. *)
Definition mmap_grants (mmap : Z -> Z -> Z -> Z -> option Z) : Prop :=
  mmap_total mmap /\
  exists l, mmap 0 (2 ^ 20) PROT_NONE (Z.lor (Z.lor (Z.lor MAP_PRIVATE MAP_ANON) MAP_NORESERVE) MAP_32BIT) = Some l /\
    0 <= l /\ l + 2 ^ 20 <= addr_top.

(** Its megabyte. *)
Lemma fresh_reservation mmap :
  mmap_grants mmap -> exists s0, reserve mmap (MemOps.mega 1) Segment_new = (s0, Ok ()) /\
    Segment.wf s0 /\ size s0 = 0 /\ paged_size s0 = 0 /\ m_reserved s0 = 2 ^ 20.
Proof.
  intros (Ht & l & El & Hl0 & Hl). exists (mkSegment l 0 0 (2 ^ 20) false []). split.
  { unfold reserve, get, lift, throw, put, mbind, M_bind. cbn [m_reserved Segment_new check].
    change (MemOps.align_page_up (MemOps.mega 1)) with (2 ^ 20). by rewrite El. }
  split; [|done]. by apply (reserve_wf Segment_new l (2 ^ 20)); [apply wf_segment_new|..].
Qed.

(** A fresh segment of [n] bytes: what [proc_segment_alloc] makes before the
    descriptor.  It is mapped to the end of the page. *)
Lemma fresh_segment mmap n :
  mmap_grants mmap -> 0 <= n <= 2 ^ 20 ->
  exists s0 s, reserve mmap (MemOps.mega 1) Segment_new = (s0, Ok ()) /\
    grow_bytes mmap n s0 = (s, Ok ()) /\ Segment.wf s /\ size s = n /\
    (forall o, mapped s o <-> 0 <= o < MemOps.align_page_up n).
Proof.
  intros Hg Hn. destruct (fresh_reservation mmap Hg) as (s0 & Hr & Hw & Hs0 & Hp0 & Hres).
  destruct (grow_bytes_ok mmap n s0 Hw (proj1 Hg)) as (s & Hrun & Hws & _ & Hs & Hp & _ & Hm); [lia|lia|].
  rewrite Hs0, Z.add_0_l in Hs. rewrite Hp0, Hs0, Z.add_0_l in Hp. rewrite Hp0 in Hm. destruct (MemOps.align_page_up_spec n) as [[Hu _] _]; [lia|].
  exists s0, s. split; [done|]. split; [exact Hrun|]. split; [done|]. split; [done|].
  intros o. split; [|intros Ho; apply Hm; lia].
  intros Ho. pose proof (mapped_bound s o Hws Ho). split; [apply Ho|]. unfold paged_size in Hp. lia.
Qed.

(** More than a megabyte is refused. *)
Lemma fresh_too_big mmap n :
  mmap_grants mmap -> 2 ^ 20 < n < 2 ^ 32 ->
  exists s0, reserve mmap (MemOps.mega 1) Segment_new = (s0, Ok ()) /\ Segment.wf s0 /\
    grow_bytes mmap n s0 = (s0, Throw BadAlloc).
Proof.
  intros Hg Hn. destruct (fresh_reservation mmap Hg) as (s0 & Hr & Hw & Hs0 & _ & Hres).
  exists s0. split; [done|]. split; [done|]. unfold grow_bytes, get, throw, mbind, M_bind, size in *.
  rewrite Hs0, Hres, Z.add_0_r, wrapu_small by lia. by rewrite (proj2 (Z.ltb_lt _ _)) by lia.
Qed.

(** The size the message asks for: 17 bits for a 16-bit program. *)
Definition alloc_size (bits : Bitness) (nbytes : Z) : Z :=
  match bits with B16 => nbytes mod 2 ^ 17 | B32 => nbytes end.

Lemma alloc_size_masked bits v :
  match bits with B16 => Z.land v 0x1FFFF | B32 => v end = alloc_size bits v.
Proof. destruct bits; [done|]. unfold alloc_size. by rewrite <- Z.land_ones. Qed.

(** [sp] with a new segment [s]. *)
Definition with_segment (s : Segment) (sp : Space) : Space :=
  mkSpace (<[next_seg sp := s]> (segs sp)) (S (next_seg sp)) (next_seg sp :: AddressSpace.m_segments sp)
    (m_segment_descriptors sp) (ldt sp).

Lemma with_segment_run {A} (op : M Segment A) s s' (o : outcome A) sp :
  op s = (s', o) -> space_seg (next_seg sp) op (with_segment s sp) = (with_segment s' sp, o).
Proof.
  intros Ho. unfold space_seg, with_segment. cbn [segs]. rewrite lookup_insert_eq, Ho. simpl.
  by rewrite insert_insert_eq.
Qed.

Lemma with_segment_wf s sp : wf_space sp -> Segment.wf s -> wf_space (with_segment s sp).
Proof.
  intros (H1 & H2 & H3 & H4 & H5) Hs. split; [|split; [|split; [done|split; [done|]]]]; simpl.
  - intros r s2. rewrite lookup_insert. case_decide; [by intros [= <-]|apply H1].
  - intros r. rewrite lookup_insert. case_decide; [subst; lia|]. intros Hx. apply H2 in Hx. lia.
  - intros j sd Hj. destruct (H5 j sd Hj) as [Hid Hseg]. split; [done|].
    rewrite lookup_insert. by case_decide.
Qed.

Lemma with_segment_descriptor_extends s sp sp' i sd :
  wf_space sp -> installed (with_segment s sp) sp' i sd -> extends sp sp'.
Proof.
  intros (_ & H2 & _) (_ & _ & Hfree & Hsegs & _ & _ & _ & Hat & _). apply extends_intro.
  - intros r s2 Hr. rewrite Hsegs. simpl. rewrite lookup_insert_ne; [done|]. intros <-.
    assert (next_seg sp < next_seg sp)%nat; [|lia]. apply H2. by rewrite Hr.
  - intros j sd2 Hj. rewrite Hat. case_decide; [subst; simpl in Hfree; congruence|done].
Qed.

(** The new selector. *)
Lemma installed_selector sp sp' i sd :
  installed sp sp' i sd ->
  0 <= selector sd < 2 ^ 16 /\ descriptor_by_selector sp (selector sd) = None /\
  descriptor_by_selector sp' (selector sd) = Some sd.
Proof.
  intros (Hid & Hi & Hfree & _ & _ & _ & _ & Hat & _).
  assert (Hsel : Z.to_nat (Z.shiftr (selector sd) 3) = i).
  { change (Z.shiftr (selector sd) 3) with (sel_to_id (selector sd)).
    unfold selector. rewrite sel_to_id_mk_sel by lia. lia. }
  unfold descriptor_by_selector. rewrite Hsel, Hat, decide_True by done.
  split; [|done]. unfold selector. rewrite mk_sel_eq; lia.
Qed.

Section Alloc.
Context {K : Type} {FK : FdKernel K} {HK : HostKernel K}.
Context (mmap : Z -> Z -> Z -> Z -> option Z).

(** The address space and its descriptors, with a segment more that no descriptor
    shows. *)
Definition leaked (sp sp' : Space) : Prop :=
  m_segment_descriptors sp' = m_segment_descriptors sp /\ ldt sp' = ldt sp /\
  forall r s, segs sp !! r = Some s -> segs sp' !! r = Some s.

(** The request for too much. *)
Lemma alloc_refused (e : EmuState (World K)) i :
  let msg := asked e i 0 (sizeof s_segment_request) in
  let n := alloc_size (m_bits e) msg[: s_segment_request ; "nbytes" :] in
  mmap_grants mmap -> can_ask e i -> 2 ^ 20 < n < 2 ^ 32 ->
  exists sp', proc_segment_alloc mmap (fun _ => true) i e = (set_space sp' e, Throw BadAlloc) /\
    wf_space sp' /\ leaked (e_space e) sp'.
Proof.
  intros msg n Hg Hask Hn. pose proof (proj1 Hask) as Hwf.
  destruct (fresh_too_big mmap n Hg Hn) as (s0 & Hr & Hw & Hgr).
  exists (with_segment s0 (e_space e)). split; [|split; [by apply with_segment_wf|]].
  - unfold proc_segment_alloc. rewrite (bind_Ok _ _ _ _ _ (read_type_run e i s_segment_request Hask eq_refl)).
    rewrite (bind_Ok _ _ _ _ _ (on_space_run allocate_segment e (with_segment Segment_new (e_space e)) _ eq_refl)).
    rewrite (bind_Ok _ _ _ _ _ (on_space_run _ (set_space _ e) _ _ (with_segment_run _ _ _ _ _ Hr))), set_space_twice.
    rewrite (bind_Ok get _ _ _ _ eq_refl). cbv zeta. fold msg. rewrite alloc_size_masked. fold n.
    unfold mbind, M_bind. by rewrite (on_space_run _ (set_space _ e) _ _ (with_segment_run _ _ _ _ _ Hgr)), set_space_twice.
  - split; [done|]. split; [done|]. intros r s Hs. simpl. rewrite lookup_insert_ne; [done|].
    intros <-. destruct Hwf as (_ & H2 & _). pose proof (H2 _ (mk_is_Some _ _ Hs)). lia.
Qed.

(** C7. A guest that asks for memory gets it, up to a megabyte, when the host
    grants the mappings and takes the descriptor, and one is free: the reply
    says EOK, reports exactly the size asked for and gives a selector that was
    unused.  Through
    this selector an access translates to the segment at the address of the
    reply if it stays within the whole pages that hold the bytes asked for, and
    is a fault beyond them; and every address of the guest's that worked before
    still means the same.  A 16-bit program's request is taken modulo 128 KB.
    More than a megabyte is [BadAlloc], which nothing catches, and leaves the
    descriptors as they were. *)
Theorem segment_alloc_spec (e : EmuState (World K)) i j :
  let msg := asked e i 0 (sizeof s_segment_request) in
  let n := alloc_size (m_bits e) msg[: s_segment_request ; "nbytes" :] in
  mmap_grants mmap -> can_ask e i ->
  (n <= 2 ^ 20 -> can_reply e i -> (j < 1024)%nat -> at_ (m_segment_descriptors (e_space e)) j = None ->
   exists sp' sel s,
     let r := segment_info sel s in
     proc_segment_alloc mmap (fun _ => true) i e = (replied i 0 r (set_space sp' e), Ok ()) /\
     r[: s_segment_reply ; "status" :] = 0 /\ r[: s_segment_reply ; "sel" :] = sel /\
     r[: s_segment_reply ; "nbytes" :] = n /\ r[: s_segment_reply ; "addr" :] = u32 (m_location s) /\
     wf_space sp' /\ extends (e_space e) sp' /\ descriptor_by_selector (e_space e) sel = None /\
     (forall o k op, 0 <= o < 2 ^ 32 -> 0 < k < 2 ^ 32 ->
        translate_segmented sp' (mkFarPointer sel o) k op =
          if o + k <=? MemOps.align_page_up n then Ok (m_location s + o)
          else Throw (SegmentationFault "address out of segment bounds"))) /\
  (2 ^ 20 < n ->
   exists sp', proc_segment_alloc mmap (fun _ => true) i e = (set_space sp' e, Throw BadAlloc) /\
     wf_space sp' /\ leaked (e_space e) sp').
Proof.
  intros msg n Hg Hask. pose proof (proj1 Hask) as Hwf.
  assert (Hn0 : 0 <= n < 2 ^ 32).
  { subst n. pose proof (fld_range s_segment_request "nbytes" eq_refl msg _ 4 eq_refl) as Hb.
    unfold alloc_size. destruct (m_bits e); [exact Hb|].
    pose proof (Z.mod_pos_bound (msg[: s_segment_request ; "nbytes" :]) (2 ^ 17) ltac:(lia)). lia. }
  split; [intros Hn Hrep Hj Hfree|intros Hn; apply alloc_refused; [done|done|fold msg n; lia]].
  destruct (fresh_segment mmap n Hg ltac:(lia)) as (s0 & s & Hr & Hgr & Hws & Hsz & Hmap).
  set (sp3 := with_segment s (e_space e)).
  assert (Hw3 : wf_space sp3) by (by apply with_segment_wf).
  destruct (create_ok sp3 READ_WRITE (next_seg (e_space e)) (m_bits e) j Hw3) as (sp' & sd & k & Hc & Hin & Hseg);
    [unfold sp3, with_segment; simpl; rewrite lookup_insert_eq; by eexists|done|done|].
  destruct (installed_selector _ _ _ _ Hin) as (Hsel & Hnone & Hsome).
  exists sp', (selector sd), s. cbv zeta. split.
  { unfold proc_segment_alloc. rewrite (bind_Ok _ _ _ _ _ (read_type_run e i s_segment_request Hask eq_refl)).
    rewrite (bind_Ok _ _ _ _ _ (on_space_run allocate_segment e (with_segment Segment_new (e_space e)) _ eq_refl)).
    rewrite (bind_Ok _ _ _ _ _ (on_space_run _ (set_space _ e) _ _ (with_segment_run _ _ _ _ _ Hr))), set_space_twice.
    rewrite (bind_Ok get _ _ _ _ eq_refl). cbv zeta.
    fold msg. rewrite alloc_size_masked. fold n.
    rewrite (bind_Ok _ _ _ _ _ (on_space_run _ (set_space _ e) _ _ (with_segment_run _ _ _ _ _ Hgr))), set_space_twice.
    rewrite (bind_Ok _ _ _ _ _ (on_space_run _ (set_space sp3 e) _ _ Hc)), set_space_twice.
    assert (Hthe : the_segment (next_seg (e_space e)) (set_space sp' e) = (set_space sp' e, Ok s)).
    { unfold the_segment. rewrite (bind_Ok get _ _ _ _ eq_refl). simpl.
      destruct Hin as (_ & _ & _ & Hsegs & _). rewrite Hsegs. simpl. by rewrite lookup_insert_eq. }
    rewrite (bind_Ok _ _ _ _ _ Hthe). apply write_type_run; [|done].
    apply can_reply_extends; [by eapply installed_wf|by eapply with_segment_descriptor_extends|done]. }
  assert (Hb : 0 <= size s < 2 ^ 32) by lia.
  split; [by unfold segment_info; fields|].
  split; [unfold segment_info; fields; by rewrite wrapu_small|].
  split; [unfold segment_info; fields; by rewrite wrapu_small|].
  split; [unfold segment_info; fields; apply wrapu_idem; lia|].
  split; [by eapply installed_wf|]. split; [by eapply with_segment_descriptor_extends|].
  split; [exact Hnone|]. intros o q op Ho Hq. unfold translate_segmented. simpl. rewrite Hsome.
  assert (segs sp' !! sd_seg sd = Some s) as ->.
  { destruct Hin as (_ & _ & _ & -> & _). rewrite Hseg. apply lookup_insert_eq. }
  destruct (check_bounds_range s o q Hws) as (b & -> & Hin2 & Hp); [lia|lia|]. cbn.
  destruct (Z.leb_spec (o + q) (MemOps.align_page_up n)) as [Hle|Hgt].
  - rewrite (proj2 Hin2) in * by (intros y Hy; apply Hmap; lia). by destruct Hp.
  - destruct b; [|done]. pose proof (proj1 (Hmap (o + q - 1)) (proj1 Hin2 eq_refl (o + q - 1) ltac:(lia))). lia.
Qed.
End Alloc.

Definition granting_mmap (addr len prot flags : Z) : option Z :=
  Some (if has flags MAP_FIXED then addr else 2 ^ 30).

Lemma segment_alloc_spec_witness :
  let e := demo_proc demo_fds (mkScript 0 [] 0) demo_alloc in
  mmap_grants granting_mmap /\ can_ask e demo_ctx /\ can_reply e demo_ctx /\
  alloc_size (m_bits e) (asked e demo_ctx 0 (sizeof s_segment_request))[: s_segment_request ; "nbytes" :] = 5000 /\
  exists sp' sel, extends (e_space e) sp' /\ descriptor_by_selector (e_space e) sel = None /\
    exists a, translate_segmented sp' (mkFarPointer sel 8191) 1 WRITE = Ok (a + 8191) /\
    translate_segmented sp' (mkFarPointer sel 8192) 1 WRITE = Throw (SegmentationFault "address out of segment bounds").
Proof.
  intros e.
  assert (Hg : mmap_grants granting_mmap).
  { split; [by intros addr len prot flags Hf; unfold granting_mmap; rewrite Hf|].
    exists (2 ^ 30). split; [reflexivity|]. unfold addr_top. lia. }
  assert (Hn : alloc_size (m_bits e) (asked e demo_ctx 0 (sizeof s_segment_request))[: s_segment_request ; "nbytes" :]
    = 5000) by (vm_compute; reflexivity).
  split; [exact Hg|]. split; [apply demo_can_ask|]. split; [apply demo_can_reply|]. split; [exact Hn|].
  destruct (proj1 (segment_alloc_spec granting_mmap e demo_ctx 1 Hg (demo_can_ask _ _ _)))
    as (sp' & sel & s & _ & _ & _ & _ & _ & _ & H6 & H7 & H8); [rewrite Hn; lia|apply demo_can_reply|lia|reflexivity|].
  exists sp', sel. split; [exact H6|]. split; [exact H7|]. exists (m_location s).
  rewrite Hn in H8. split; (rewrite H8 by lia; reflexivity).
Defined.

(** ** Descriptors *)

Definition first_from (P : nat -> Prop) (start n : nat) : Prop :=
  (start <= n)%nat /\ P n /\ forall j, (start <= j < n)%nat -> ~ P j.

Lemma first_from_unique P start n k : first_from P start n -> first_from P start k -> n = k.
Proof.
  intros (H1 & H2 & H3) (H4 & H5 & H6). destruct (Nat.lt_trichotomy n k) as [Hlt|[->|Hlt]]; [|done|].
  - destruct (H6 n); [lia|done].
  - destruct (H3 k); [lia|done].
Qed.

Section Table.
Context (m : FdMap) (Hwf : IdMap.wf m).

Lemma fd_attach_free fd nid pid vid flags n :
  first_from (fun j => abs m !! j = None) (Z.to_nat fd) n -> (n < m_max m)%nat ->
  exists m', let f := QnxFd_new (u16 (Z.of_nat n)) nid pid vid flags in
    qnx_fd_attach fd nid pid vid flags m = (m', Ok (Some f)) /\ IdMap.wf m' /\ abs m' = <[n := f]> (abs m).
Proof using Hwf.
  intros (Hn1 & Hn2 & Hn3) Hmax. unfold qnx_fd_attach, alloc_starting_at.
  destruct (Nat.leb_spec (m_max m) (Z.to_nat fd)); [lia|].
  destruct (search m (Z.to_nat fd) false) as [k|] eqn:Es.
  - apply search_Some in Es as (Hk1 & Hk2 & Hk3 & _). apply slot_free in Hk2.
    assert (k = n) as ->.
    { apply (first_from_unique (fun j => abs m !! j = None) (Z.to_nat fd)); [|done].
      split; [done|]. split; [done|]. intros j Hj Hx. apply (Hk3 j Hj). by apply slot_free. }
    destruct (emplace_spec m n (fun fd => Ok (QnxFd_new (u16 (Z.of_nat fd)) nid pid vid flags)) Hwf Hmax)
      as (m' & -> & Hw & _ & Ha). by exists m'.
  - exfalso. apply (search_None _ _ _ Es n); [done|done|]. by apply slot_free.
Qed.

Lemma fd_attach_full fd nid pid vid flags :
  (Z.to_nat fd < m_max m)%nat ->
  (forall j, (Z.to_nat fd <= j < m_max m)%nat -> is_Some (abs m !! j)) ->
  qnx_fd_attach fd nid pid vid flags m = (m, Throw NoFreeId).
Proof using Hwf.
  intros Hlt Hall. unfold qnx_fd_attach, alloc_starting_at.
  destruct (Nat.leb_spec (m_max m) (Z.to_nat fd)); [lia|].
  destruct (search m (Z.to_nat fd) false) as [k|] eqn:Es; [|done].
  apply search_Some in Es as (Hk1 & Hk2 & _ & Hk4). apply slot_free in Hk2.
  destruct (Hall k) as [? Hx]; [|congruence]. unfold IdMap.wf in Hwf. destruct (Hk4 eq_refl); lia.
Qed.

Lemma fd_query_spec fd :
  (forall n, first_from (fun j => is_Some (abs m !! j)) (Z.to_nat fd) n -> fd_query m fd = abs m !! n) /\
  ((forall j, (Z.to_nat fd <= j)%nat -> abs m !! j = None) -> fd_query m fd = None).
Proof.
  assert (Hu : forall j, slot_is m true j <-> is_Some (abs m !! j)).
  { intros j. unfold slot_is. destruct (abs m !! j); simpl; split; try done; by eexists. }
  unfold fd_query. destruct (search m (Z.to_nat fd) true) as [k|] eqn:Es; split.
  - intros n Hn. apply search_Some in Es as (Hk1 & Hk2 & Hk3 & _). apply Hu in Hk2.
    rewrite abs_lookup. f_equal. apply (first_from_unique (fun j => is_Some (abs m !! j)) (Z.to_nat fd)); [|done].
    split; [done|]. split; [done|]. intros j Hj Hx. apply (Hk3 j Hj). by apply Hu.
  - intros Hall. apply search_Some in Es as (Hk1 & Hk2 & _). apply Hu in Hk2. rewrite Hall in Hk2 by done.
    by destruct Hk2.
  - intros n (Hn1 & Hn2 & _). exfalso. apply (search_None _ _ _ Es n); [done|done|]. by apply Hu.
  - done.
Qed.

Lemma fd_detach_abs fd :
  qnx_fd_detach fd m = (fst (free m (Z.to_nat fd)), bool_decide (is_Some (abs m !! Z.to_nat fd))) /\
  abs (fst (free m (Z.to_nat fd))) = delete (Z.to_nat fd) (abs m).
Proof.
  split.
  - unfold qnx_fd_detach. f_equal. rewrite abs_lookup. by destruct (at_ m _).
  - apply map_eq. intros j. rewrite abs_lookup, free_at. case_decide as Hj.
    + subst. by rewrite lookup_delete_eq.
    + by rewrite lookup_delete_ne, abs_lookup by congruence.
Qed.
End Table.

Section Fds.
Context {K : Type} {FK : FdKernel K} {HK : HostKernel K}.
Notation St := (EmuState (World K)).

(** The table of descriptors the guest sees. *)
Definition fd_table (e : St) : gmap nat QnxFd := abs (w_fds (e_world e)).

Definition fd_request (e : St) (i : MsgContext) : list Z := asked e i 0 (sizeof s_fd_request).
Definition fd_arg (e : St) (i : MsgContext) : nat := Z.to_nat (u16 (fd_request e i)[: s_fd_request ; "fd" :]).

Definition new_fd (e : St) (i : MsgContext) (n : nat) : QnxFd :=
  let r := fd_request e i in
  QnxFd_new (u16 (Z.of_nat n)) r[: s_fd_request ; "nid" :] r[: s_fd_request ; "pid" :]
    r[: s_fd_request ; "vid" :] r[: s_fd_request ; "flags" :].

Definition attach_reply (n : Z) : list Z :=
  ((clear s_fd_reply1)[: s_fd_reply1 ; "status" <- 0 :])[: s_fd_reply1 ; "fd" <- n :].

Definition with_fds (m : FdMap) (e : St) : St := set_world (set_fds m (e_world e)) e.

Lemma with_fds_same (e : St) : with_fds (w_fds (e_world e)) e = e.
Proof. by destruct e as [g sp p m s t b c ps my ts l []]. Qed.

(** C8. The descriptor messages implement a table of descriptors.  Attach takes
    the least free slot at or above the number asked for, fills it from the
    request and answers its number, or answers EMFILE and changes nothing when
    there is none; query reports the first descriptor at or above the number,
    with its fields, or EINVAL; detach removes exactly that descriptor, EBADF
    when there was none.  Nothing but the table and the reply changes: detach
    in particular leaves the host's descriptor open. *)
Theorem fd_messages (e : St) i :
  let T := fd_table e in
  let max := m_max (w_fds (e_world e)) in
  let start := fd_arg e i in
  can_ask e i -> can_reply e i -> IdMap.wf (w_fds (e_world e)) ->
  ((forall n, first_from (fun j => T !! j = None) start n -> (n < max)%nat ->
      exists m, proc_fd_attach i e = (replied i 0 (attach_reply (u16 (Z.of_nat n))) (with_fds m e), Ok ()) /\
        IdMap.wf m /\ abs m = <[n := new_fd e i n]> T) /\
   ((start < max)%nat -> (forall j, (start <= j < max)%nat -> is_Some (T !! j)) ->
      proc_fd_attach i e = (replied i 0 (le_bytes 2 QEMFILE) e, Ok ()))) /\
  ((forall n f, first_from (fun j => is_Some (T !! j)) start n -> T !! n = Some f ->
      proc_fd_query i e = (replied i 0 (fd_info (m_bits e) f) e, Ok ())) /\
   ((forall j, (start <= j)%nat -> T !! j = None) ->
      let R := reply msg_proc_fd_query in
      proc_fd_query i e = (replied i 0 (clear R)[: R ; "status" <- QEINVAL :] e, Ok ()))) /\
  exists m,
    proc_fd_detach i e = (replied i 0 (le_bytes 2 (if bool_decide (is_Some (T !! start)) then QEOK else QEBADF))
                            (with_fds m e), Ok ()) /\
    IdMap.wf m /\ abs m = delete start T.
Proof.
  intros T max start Hask Hrep Hwf.
  pose proof (read_type_run e i s_fd_request Hask eq_refl) as Hread. fold (fd_request e i) in Hread.
  split; [split|split; [split|]].
  - intros n Hn Hmax. destruct (fd_attach_free _ Hwf _ (fd_request e i)[: s_fd_request ; "nid" :]
      (fd_request e i)[: s_fd_request ; "pid" :] (fd_request e i)[: s_fd_request ; "vid" :]
      (fd_request e i)[: s_fd_request ; "flags" :] n Hn Hmax) as (m & Hrun & Hw & Ha).
    exists m. split; [|done]. unfold proc_fd_attach. rewrite (bind_Ok _ _ _ _ _ Hread). unfold try_catch.
    rewrite (bind_Ok _ _ _ _ _ (on_fds_run _ e _ _ Hrun)). cbn [m_fd QnxFd_new].
    rewrite write_type_run; [done| |done]. by apply (can_reply_same e).
  - intros Hlt Hall. unfold proc_fd_attach. rewrite (bind_Ok _ _ _ _ _ Hread). unfold try_catch, on_fds.
    unfold mbind at 1, M_bind at 1. rewrite (fd_attach_full _ Hwf) by done. cbn [is_no_free_id].
    change (set_world _ e) with (with_fds (w_fds (e_world e)) e). rewrite with_fds_same. by rewrite write_status_run.
  - intros n f Hn Hf. unfold proc_fd_query. rewrite (bind_Ok _ _ _ _ _ Hread).
    rewrite (bind_Ok world _ _ _ _ eq_refl).
    rewrite (proj1 (fd_query_spec _ (u16 (fd_request e i)[: s_fd_request ; "fd" :])) n Hn).
    unfold T, fd_table in Hf. rewrite Hf, (bind_Ok get _ _ _ _ eq_refl). by apply write_type_run.
  - intros Hall R. unfold proc_fd_query. rewrite (bind_Ok _ _ _ _ _ Hread).
    rewrite (bind_Ok world _ _ _ _ eq_refl).
    rewrite (proj2 (fd_query_spec _ (u16 (fd_request e i)[: s_fd_request ; "fd" :])) Hall).
    by apply write_type_run.
  - destruct (fd_detach_abs (w_fds (e_world e)) (u16 (fd_request e i)[: s_fd_request ; "fd" :])) as [Hrun Ha].
    eexists. split; [|split; [by apply free_wf|exact Ha]].
    unfold proc_fd_detach. rewrite (bind_Ok _ _ _ _ _ Hread). unfold fd_detach.
    erewrite (bind_Ok (on_fds _)); [|apply on_fds_run; rewrite Hrun; reflexivity].
    rewrite write_status_run by (by apply (can_reply_same e)).
    reflexivity.
Qed.
End Fds.

Lemma fd_messages_witness :
  let req := (clear s_fd_request)[: s_fd_request ; "fd" <- 2 :] in
  let e := demo_proc demo_fds (mkScript 0 [] 0) req in
  can_ask e demo_ctx /\ can_reply e demo_ctx /\ IdMap.wf demo_fds /\
  first_from (fun j => fd_table e !! j = None) (fd_arg e demo_ctx) 2 /\
  exists m, proc_fd_attach demo_ctx e = (replied demo_ctx 0 (attach_reply 2) (with_fds m e), Ok ()) /\
    abs m !! 3%nat = abs demo_fds !! 3%nat.
Proof.
  intros req e.
  assert (Hs : fd_arg e demo_ctx = 2%nat) by (vm_compute; reflexivity).
  assert (Hw : IdMap.wf demo_fds) by (unfold IdMap.wf; simpl; lia).
  assert (Hf : first_from (fun j => fd_table e !! j = None) (fd_arg e demo_ctx) 2).
  { rewrite Hs. split; [lia|]. split; [vm_compute; reflexivity|]. intros j Hj. lia. }
  destruct (fd_messages e demo_ctx (demo_can_ask _ _ _) (demo_can_reply _ _ _) Hw) as ((H & _) & _).
  destruct (H 2%nat Hf) as (m & Hm & _ & Ha); [simpl; lia|].
  split; [apply demo_can_ask|]. split; [apply demo_can_reply|]. split; [exact Hw|]. split; [exact Hf|].
  exists m. split; [exact Hm|]. rewrite Ha, lookup_insert_ne by lia. vm_compute. reflexivity.
Defined.

(** ** Arguments of [exec] *)

(** A string up to its NUL or the end of the bytes, and what follows. *)
Fixpoint cut_string (bs : list Z) : cstring * list Z :=
  match bs with
  | [] => ([], [])
  | b :: bs => if b =? 0 then ([], bs) else let '(s, rest) := cut_string bs in (b :: s, rest)
  end.

Fixpoint cut_strings (n : nat) (bs : list Z) : list cstring * list Z :=
  match n with
  | O => ([], bs)
  | S n => let '(s, bs) := cut_string bs in let '(l, bs) := cut_strings n bs in (s :: l, bs)
  end.

(** The path, the arguments, an empty string, the environment. *)
Definition cut_args (argc envc : nat) (bs : list Z) : ExecArgs :=
  let '(path, bs) := cut_string bs in
  let '(argv, bs) := cut_strings argc bs in
  let '(_, bs) := cut_string bs in
  let '(envp, _) := cut_strings envc bs in
  mkExecArgs path argv envp.

Definition encode_args (a : ExecArgs) : list Z :=
  let str s := s ++ [0] in
  str (ea_path a) ++ concat (str <$> ea_argv a) ++ [0] ++ concat (str <$> ea_envp a) ++ [0].

Definition no_nul (s : cstring) : Prop := Forall (fun b => b <> 0) s.

Lemma cut_string_app s rest : no_nul s -> cut_string (s ++ 0 :: rest) = (s, rest).
Proof.
  induction 1 as [|b s Hb Hs IH]; [done|]. simpl. destruct (Z.eqb_spec b 0); [done|]. by rewrite IH.
Qed.

Lemma cut_strings_app l rest :
  Forall no_nul l -> cut_strings (length l) (concat ((fun s => s ++ [0]) <$> l) ++ rest) = (l, rest).
Proof.
  induction 1 as [|s l Hs Hl IH]; [done|].
  rewrite fmap_cons. cbn [length cut_strings concat]. rewrite <- !app_assoc. cbn [app].
  rewrite cut_string_app by done. by rewrite IH.
Qed.

Lemma cut_encode a rest :
  no_nul (ea_path a) -> Forall no_nul (ea_argv a) -> Forall no_nul (ea_envp a) ->
  cut_args (length (ea_argv a)) (length (ea_envp a)) (encode_args a ++ rest) = a.
Proof.
  intros Hp Ha He. destruct a as [p av ev]. unfold cut_args, encode_args.
  cbn [ea_path ea_argv ea_envp] in *. cbv zeta. rewrite <- !app_assoc. cbn [app].
  rewrite cut_string_app by done.
  rewrite cut_strings_app by done. cbn [cut_string]. rewrite Z.eqb_refl, cut_strings_app by done. done.
Qed.

Lemma cut_string_length bs : (length (cut_string bs).2 <= length bs)%nat.
Proof.
  induction bs as [|b bs IH]; simpl; [lia|]. destruct (b =? 0); simpl; [lia|].
  destruct (cut_string bs). simpl in *. lia.
Qed.

Section Exec.
Context (mem : Mem) (T : Translation) (L : TranslationLaws T) (m : Msg).
Notation chunks := (chunks_of mem (m_send m)).
Context (Hv : valid (T := T) chunks).

Definition bytes_left (r : StreamReader) : list Z := peek mem <$> sr_rest (T := T) chunks r.

Lemma read_string_spec fuel : forall r,
  sr_wf (T := T) chunks r -> (length (bytes_left r) < fuel)%nat ->
  exists r', read_string fuel mem T m r = Ok ((cut_string (bytes_left r)).1, r') /\
    sr_wf (T := T) chunks r' /\ bytes_left r' = (cut_string (bytes_left r)).2.
Proof using Hv L.
  induction fuel as [|fuel IH]; intros r Hwf Hf; [lia|]. cbn [read_string].
  destruct (sr_get_spec L mem m 0 r Hv Hwf) as (b & r1 & -> & Hwf1 & Hb). cbn [mbind outcome_bind].
  unfold bytes_left in *. rewrite length_fmap in Hf.
  destruct (sr_rest chunks r) as [|a rest]; destruct Hb as [-> Hb];
    rewrite ?fmap_nil, ?fmap_cons; cbn [length cut_string fst snd] in *.
  - exists r1. rewrite Hb. done.
  - destruct (peek mem a =? 0) eqn:E; [exists r1; by rewrite Hb|].
    destruct (IH r1 Hwf1) as (r2 & -> & Hwf2 & Hr2); [rewrite Hb, length_fmap; lia|].
    exists r2. cbn [mbind outcome_bind]. rewrite Hb in *. by destruct (cut_string (peek mem <$> rest)).
Qed.

Lemma read_strings_spec fuel n : forall r,
  sr_wf (T := T) chunks r -> (length (bytes_left r) < fuel)%nat ->
  exists r', read_strings n fuel mem T m r = Ok ((cut_strings n (bytes_left r)).1, r') /\
    sr_wf (T := T) chunks r' /\ bytes_left r' = (cut_strings n (bytes_left r)).2 /\
    (length (bytes_left r') < fuel)%nat.
Proof using Hv L.
  induction n as [|n IH]; intros r Hwf Hf; [by exists r|]. cbn [read_strings].
  destruct (read_string_spec fuel r Hwf Hf) as (r1 & -> & Hwf1 & Hr1). cbn [mbind outcome_bind].
  pose proof (cut_string_length (bytes_left r)) as Hl. rewrite <- Hr1 in Hl.
  destruct (IH r1 Hwf1 ltac:(lia)) as (r2 & -> & Hwf2 & Hr2 & Hl2). cbn [mbind outcome_bind].
  exists r2. simpl. rewrite Hr1 in *. destruct (cut_string (bytes_left r)) as [s rest]. simpl in *.
  destruct (cut_strings n rest). done.
Qed.

Lemma foldr_total l :
  Forall (valid_chunk (T := T)) l -> foldr (fun c n => mxfer_len c + n) 0 l = total (T := T) l.
Proof. induction 1 as [|c l Hc _ IH]; [done|]. rewrite total_cons by done. simpl. by rewrite IH. Qed.

Lemma read_fuel_total : Z.of_nat (read_fuel mem m) = total (T := T) chunks + 1.
Proof using Hv.
  unfold read_fuel. rewrite foldr_total by apply Hv. pose proof (total_nonneg (T := T) chunks). lia.
Qed.

(** The message's bytes behind the structure. *)
Definition exec_bytes : list Z := peek mem <$> drop (sizeof s_spawn) (flat (T := T) chunks).

Lemma read_exec_args_run argc envc :
  read_exec_args mem T m argc envc = Ok (cut_args argc envc exec_bytes).
Proof using Hv L.
  unfold read_exec_args, StreamReader_new.
  destruct (skip_to_spec L chunks (Z.of_nat (sizeof s_spawn)) Hv (conj (Zle_0_nat _) eq_refl)) as (it & -> & Hit & Hpos).
  cbn [mbind outcome_bind]. set (r := mkStreamReader it 0 0).
  assert (Hr : bytes_left r = exec_bytes).
  { unfold bytes_left, exec_bytes, sr_rest, r. cbn [m_buf m_ready sr_it]. rewrite Hpos.
    change (seqZ 0 0) with (@nil Z). cbn [app]. apply (f_equal (fmap (peek mem))).
    destruct (Z.min_spec (Z.of_nat (sizeof s_spawn)) (total (T := T) chunks)) as [[_ ->]|[Hge ->]].
    - by rewrite Nat2Z.id.
    - rewrite !drop_ge; [done| |]; unfold total in *; lia. }
  assert (Hf : (length (bytes_left r) < read_fuel mem m)%nat).
  { rewrite Hr. unfold exec_bytes. rewrite length_fmap, length_drop. pose proof read_fuel_total.
    unfold total in *. lia. }
  assert (Hwf : sr_wf (T := T) chunks r) by (by split).
  unfold cut_args. rewrite <- Hr. clear Hr Hpos. set (fuel := read_fuel mem m) in *.
  destruct (read_string_spec fuel r Hwf Hf) as (r1 & -> & Hwf1 & H1).
  pose proof (cut_string_length (bytes_left r)) as Hl. rewrite <- H1 in Hl.
  destruct (read_strings_spec fuel argc r1 Hwf1 ltac:(lia)) as (r2 & Hr2 & Hwf2 & H2 & Hf2).
  destruct (read_string_spec fuel r2 Hwf2 Hf2) as (r3 & Hr3 & Hwf3 & H3).
  pose proof (cut_string_length (bytes_left r2)) as Hl3. rewrite <- H3 in Hl3.
  destruct (read_strings_spec fuel envc r3 Hwf3 ltac:(lia)) as (r4 & Hr4 & Hwf4 & H4 & Hf4).
  destruct (read_string_spec fuel r4 Hwf4 Hf4) as (r5 & Hr5 & _).
  cbn [mbind outcome_bind]. rewrite Hr2. cbn [mbind outcome_bind]. rewrite Hr3. cbn [mbind outcome_bind].
  rewrite Hr4. cbn [mbind outcome_bind]. rewrite Hr5. cbn [mbind outcome_bind].
  destruct (cut_string (bytes_left r)) as [s0 b0]. cbn [fst snd] in *. rewrite H1 in *.
  destruct (cut_strings argc b0) as [l1 b1]. cbn [fst snd] in *. rewrite H2 in *.
  destruct (cut_string b1) as [s2 b2]. cbn [fst snd] in *. rewrite H3 in *.
  by destruct (cut_strings envc b2).
Qed.
End Exec.

(** C9. The arguments of [exec] and [spawn] are parsed from the message whatever
    its chunks: parsing ends on every message and yields the strings that lie
    between NULs, a missing NUL counting as one; and the path, arguments and
    environment a program encoded come out as they were, whatever follows. *)
Theorem exec_args_roundtrip mem (T : Translation) (L : TranslationLaws T) m :
  valid (T := T) (chunks_of mem (m_send m)) ->
  (forall argc envc, read_exec_args mem T m argc envc = Ok (cut_args argc envc (exec_bytes mem T m))) /\
  (forall a tail,
     no_nul (ea_path a) -> Forall no_nul (ea_argv a) -> Forall no_nul (ea_envp a) ->
     exec_bytes mem T m = encode_args a ++ tail ->
     read_exec_args mem T m (length (ea_argv a)) (length (ea_envp a)) = Ok a).
Proof.
  intros Hv. split; [intros; by apply read_exec_args_run|].
  intros a tail Hp Ha He Hb. by rewrite (read_exec_args_run mem T L), Hb, cut_encode.
Qed.

(** [/bin/ls -l] with one variable. *)
Definition demo_exec : ExecArgs := mkExecArgs (lit "/bin/ls") [lit "ls"; lit "-l"] [lit "A=1"].

Lemma exec_args_roundtrip_witness :
  let e := demo_proc demo_fds (mkScript 0 [] 0) (clear s_spawn ++ encode_args demo_exec) in
  valid (T := tr e) (asks e demo_ctx) /\
  read_exec_args (g_mem (e_guest e)) (tr e) (m_msg demo_ctx) 2 1 = Ok demo_exec.
Proof.
  intros e. destruct (demo_can_ask demo_fds (mkScript 0 [] 0) (clear s_spawn ++ encode_args demo_exec)) as [Hw Hv].
  fold e in Hv. split; [exact Hv|].
  destruct (exec_args_roundtrip (g_mem (e_guest e)) (tr e) (space_translation_laws _ wf_demo_space)
    (m_msg demo_ctx) Hv) as [_ H].
  apply (H demo_exec (replicate (512 - sizeof s_spawn - length (encode_args demo_exec)) 0)).
  - apply (bool_decide_eq_true (Forall _ _)). vm_compute. reflexivity.
  - apply (bool_decide_eq_true (Forall (Forall _) _)). vm_compute. reflexivity.
  - apply (bool_decide_eq_true (Forall (Forall _) _)). vm_compute. reflexivity.
  - vm_compute. reflexivity.
Defined.

(** ** Children *)

Lemma child_alloc_free m h :
  PidMap.wf m -> 0 < h -> m_reverse_map m !! h = None -> reachable_free m h ->
  exists q, alloc_child_pid h m = (registered m q h CHILD, Ok q) /\ m_start_pid <= q <= m_last_pid /\
    m_qnx_map m !! q = None /\ free_pid q (registered m q h CHILD) = (m, Ok ()).
Proof.
  intros Hwf Hh Hrev Hfree.
  destruct (find_pid_fresh m h) as (q & Hf & Hq & Hrng & _); [lia|done|done|].
  destruct (alloc_empty_fresh m h q CHILD Hf Hq) as (m1 & He & Hreg). exists q. split; [|split; [done|split; [done|]]].
  - unfold alloc_child_pid, get, Prelude.modify, lift, mbind, M_bind.
    destruct (Z.leb_spec 0 h); [|lia]. rewrite bool_decide_eq_true_2 by done. simpl.
    rewrite He. by rewrite Hreg.
  - unfold free_pid, registered, get, put, lift, mbind, M_bind, deref. simpl. rewrite lookup_insert_eq. simpl.
    destruct (Z.ltb_spec 0 h); [|lia]. simpl. rewrite !delete_insert_id by done. by destruct m.
Qed.

Section Children.
Context {K : Type} {FK : FdKernel K} {HK : HostKernel K}.
Notation St := (EmuState (World K)).

Definition wait_reply (pid st : Z) : list Z :=
  let R := reply msg_proc_wait in
  let r := (clear R)[: R ; "pid" <- pid :] in
  let r := r[: R ; "status" <- QEOK :] in
  r[: R ; "xstatus" <- qnx_status st :].

Definition wait_msg (e : St) (i : MsgContext) : list Z := asked e i 0 (sizeof (request msg_proc_wait)).
Definition wait_options (msg : list Z) : Z :=
  if has msg[: request msg_proc_wait ; "options" :] QWNOHANG then WNOHANG else 0.

(** The three operations on the pid map, with the child in it. *)
Section Child.
Context (m0 : PidMap) (q h : Z).
Notation m := (registered m0 q h CHILD).

Lemma registered_lookup : m_qnx_map m !! q = Some (mkQnxPid CHILD q h) /\ host m h = Some q.
Proof. split; apply lookup_insert_eq. Qed.

Lemma child_pid_run (e : St) :
  m_pids e = m0 -> alloc_child_pid h m0 = (m, Ok q) -> child_pid h e = (set_pids m e, Ok q).
Proof.
  intros He Halloc. rewrite <- He in Halloc at 1. unfold child_pid.
  rewrite (bind_Ok _ _ _ _ _ (on_pids_run _ e _ _ Halloc)), (bind_Ok get _ _ _ _ eq_refl).
  rewrite (bind_Ok (lift _) _ (set_pids m e) (set_pids m e) (mkQnxPid CHILD q h)); [done|].
  unfold lift, deref. cbn [m_pids set_pids]. by rewrite (proj1 registered_lookup).
Qed.

Lemma wait_code_run (e : St) :
  m_pids e = m -> 0 < q -> 0 < h -> wait_code q e = (e, Ok (Some h)).
Proof.
  intros He Hq Hh. unfold wait_code. destruct (Z.eqb_spec q (-1)), (Z.eqb_spec q 0); try lia.
  cbn [orb]. destruct (Z.ltb_spec 0 q); [|lia].
  rewrite (bind_Ok (valid_host q) _ e e (Some (mkQnxPid CHILD q h))); [done|].
  unfold valid_host. rewrite (bind_Ok get _ _ _ _ eq_refl). unfold lift, qnx_valid_host, qnx.
  rewrite He, (proj1 registered_lookup). cbn [q_host_pid]. by destruct (Z.eqb_spec h (-1)); [lia|].
Qed.

Lemma reap_run (e : St) :
  m_pids e = m -> free_pid q m = (m0, Ok ()) -> reap h e = (set_pids m0 e, Ok q).
Proof.
  intros He Hfree. unfold reap. rewrite (bind_Ok get _ _ _ _ eq_refl), He, (proj2 registered_lookup).
  rewrite (bind_Ok (lift _) _ e e (mkQnxPid CHILD q h)).
  - rewrite <- He in Hfree. by rewrite (bind_Ok _ _ _ _ _ (on_pids_run _ e _ _ Hfree)).
  - unfold lift, deref. by rewrite (proj1 registered_lookup).
Qed.
End Child.

Lemma qnx_status_exit code : 0 <= code < 256 -> qnx_status (code * 256) = code * 256.
Proof.
  intros Hc. unfold qnx_status, WIFSIGNALED, WIFSTOPPED, WEXITSTATUS.
  replace (Z.land (code * 256) 127) with 0.
  2: { change 127 with (Z.ones 7). rewrite Z.land_ones by lia. symmetry. apply Z.mod_divide; [lia|].
       exists (code * 2). lia. }
  replace (Z.land (code * 256) 255) with 0.
  2: { change 255 with (Z.ones 8). rewrite Z.land_ones by lia. symmetry. by apply Z.mod_mul. }
  cbn [Z.eqb Z.ltb Z.shiftr]. change (0 <? Z.shiftr (wraps 8 (0 + 1)) 1) with false. cbn iota.
  replace (Z.land (code * 256) 65280) with (code * 256).
  - rewrite Z.shiftr_div_pow2, Z.shiftl_mul_pow2 by lia. change (2 ^ 8) with 256. by rewrite Z.div_mul.
  - change (code * 256) with (code * 2 ^ 8). rewrite <- Z.shiftl_mul_pow2 by lia.
    change 65280 with (Z.shiftl (Z.ones 8) 8). rewrite <- Z.shiftl_land, Z.land_ones by lia.
    by rewrite Z.mod_small by lia.
Qed.

(** C10. A child's pid lives from [fork] to [wait].  When the host makes a child,
    the reply to [fork] has a QNX pid that was unused, and only that pid and the
    child's host pid enter the pid map; when a later [wait] for this pid asks
    the host for exactly that child and gets its status, the reply has the same
    pid and the translated status, and the pid map is what it was before the
    [fork]. *)
Theorem fork_wait (e : St) i h k1 :
  PidMap.wf (m_pids e) -> sys SFork (kern e) = (k1, h) -> 0 < h -> m_reverse_map (m_pids e) !! h = None ->
  reachable_free (m_pids e) h -> can_reply e i ->
  exists m q,
    proc_fork i e = (replied i 0 (loaded QEOK q) (set_pids m (set_k k1 e)), Ok ()) /\
    (loaded QEOK q)[: s_loaded_reply ; "son_pid" :] = q /\ qnx (m_pids e) q = None /\ host m h = Some q /\
    (forall q', q' <> q -> qnx m q' = qnx (m_pids e) q') /\
    forall (e2 : St) i2 k2 st,
      m_pids e2 = m -> can_ask e2 i2 -> can_reply e2 i2 ->
      (wait_msg e2 i2)[: request msg_proc_wait ; "pid" :] = q ->
      sys (SWaitpid h (wait_options (wait_msg e2 i2))) (kern e2) = (k2, (h, st)) ->
      proc_wait i2 e2 = (replied i2 0 (wait_reply q st) (set_pids (m_pids e) (set_k k2 e2)), Ok ()) /\
      (wait_reply q st)[: reply msg_proc_wait ; "pid" :] = q /\
      (forall code, 0 <= code < 256 -> st = code * 256 ->
         (wait_reply q st)[: reply msg_proc_wait ; "xstatus" :] = code * 256).
Proof.
  intros Hwf Hfork Hh Hrev Hfree Hrep.
  destruct (child_alloc_free _ _ Hwf Hh Hrev Hfree) as (q & Halloc & Hq & Hnone & Hback).
  set (m := registered (m_pids e) q h CHILD) in *. exists m, q.
  assert (Hq16 : - 2 ^ 15 <= q < 2 ^ 15) by (unfold m_start_pid, m_last_pid in Hq; lia).
  split.
  { unfold proc_fork. rewrite (bind_Ok _ _ _ _ _ (sysc_run _ _ _ _ Hfork)).
    destruct (Z.ltb_spec h 0); [lia|]. destruct (Z.eqb_spec h 0); [lia|].
    rewrite (bind_Ok _ _ _ _ _ (child_pid_run _ q h (set_k k1 e) eq_refl Halloc)).
    apply write_type_run; [|done]. by apply (can_reply_same e). }
  split; [unfold loaded; fields; by apply wraps_small|].
  split; [done|]. split; [apply registered_lookup|].
  split; [intros q' Hq'; unfold qnx, m; simpl; by rewrite lookup_insert_ne|].
  intros e2 i2 k2 st Hp Hask2 Hrep2 Hpid Hwait. unfold m_start_pid in Hq. split.
  { unfold proc_wait. rewrite (bind_Ok _ _ _ _ _ (read_type_run e2 i2 (request msg_proc_wait) Hask2 eq_refl)).
    fold (wait_msg e2 i2). rewrite Hpid.
    rewrite (bind_Ok _ _ _ _ _ (wait_code_run _ q h e2 Hp ltac:(lia) Hh)). cbv zeta.
    fold (wait_options (wait_msg e2 i2)). rewrite (bind_Ok _ _ _ _ _ (sysc_run _ _ _ _ Hwait)).
    destruct (Z.ltb_spec h 0); [lia|]. destruct (Z.eqb_spec h 0); [lia|].
    rewrite (bind_Ok _ _ _ _ _ (reap_run _ q h (set_k k2 e2) Hp Hback)).
    apply write_type_run; [|done]. by apply (can_reply_same e2). }
  split; [unfold wait_reply; fields; by apply wraps_small|].
  intros code Hcode ->. unfold wait_reply. fields. rewrite qnx_status_exit by done.
  apply wrapu_small. lia.
Qed.
End Children.

Lemma fork_wait_witness :
  let e := demo_proc demo_fds (mkScript 4711 [] 0) [] in
  let req := (clear (request msg_proc_wait))[: request msg_proc_wait ; "pid" <- 4711 :] in
  PidMap.wf (m_pids e) /\ can_reply e demo_ctx /\
  exists m, proc_fork demo_ctx e = (replied demo_ctx 0 (loaded QEOK 4711) (set_pids m e), Ok ()) /\
    let e2 := set_pids m (demo_proc demo_fds (mkScript 4711 [] 0) req) in
    proc_wait demo_ctx e2 = (replied demo_ctx 0 (wait_reply 4711 4711) (set_pids demo_pids e2), Ok ()).
Proof.
  intros e req. split; [exact wf_demo_pids|]. split; [apply demo_can_reply|].
  assert (Hfree : reachable_free (m_pids e) 4711) by (left; vm_compute; reflexivity).
  destruct (fork_wait (FK := script_fds) (HK := script_host) e demo_ctx 4711 (mkScript 4711 [] 0) wf_demo_pids eq_refl ltac:(lia) eq_refl Hfree
    (demo_can_reply _ _ _)) as (m & q & Hf & _ & _ & Hh & _ & Hw).
  assert (Hq : q = 4711).
  { assert (Hm : snd (proc_fork demo_ctx e) = Ok () /\ host (m_pids (fst (proc_fork demo_ctx e))) 4711 = Some 4711)
      by (split; vm_compute; reflexivity).
    rewrite Hf in Hm. destruct Hm as [_ Hm]. cbn [fst] in Hm.
    change (host m 4711 = Some 4711) in Hm. congruence. }
  subst q. exists m. split; [exact Hf|]. intros e2.
  refine (proj1 (Hw e2 demo_ctx (mkScript 4711 [] 0) 4711 eq_refl _ _ _ eq_refl)).
  - apply (can_ask_same (demo_proc demo_fds (mkScript 4711 [] 0) req)); [reflexivity|reflexivity|apply demo_can_ask].
  - apply (can_reply_same (demo_proc demo_fds (mkScript 4711 [] 0) req)); [reflexivity|reflexivity|apply demo_can_reply].
  - vm_compute. reflexivity.
Defined.
