(* ===== verification/IoSpec.v ===== *)
(** * IoSpec: what the file manager's messages do

    Theorems about the handlers of [IoHandler]: the data of [io_read] and
    [io_write] between the host and the scattered message, the translation of
    open flags and of file status. *)

From S2P Require Import Prelude Types Memory IdMap PathMapper PidMap TerminalFilter FdMap Segment AddressSpace Sigset Msg Errno GuestContext Emu Layout QnxMsg Host MsgHandler ProcHandler IoHandler Sandbox Exchange Demo.

Import Errno.Qnx.

(** ** Scattered data *)

Lemma gather_flat iov m :
  Forall (fun v => 0 <= iov_len v) iov -> gather iov m = peek m <$> concat (iov_addrs <$> iov).
Proof.
  unfold gather. induction 1 as [|v iov Hv _ IH]; [done|]. rewrite !fmap_cons. cbn [concat].
  rewrite fmap_app, IH, load_seqZ. unfold iov_addrs. by rewrite Z2Nat.id.
Qed.

Lemma scatter_nil iov m : Forall (fun v => 0 <= iov_len v) iov -> scatter iov [] m = m.
Proof. induction 1 as [|v iov Hv _ IH]; [done|]. simpl. by rewrite drop_nil, take_nil. Qed.

Lemma take_seqZ a n k : (k <= Z.to_nat n)%nat -> take k (seqZ a n) = seqZ a (Z.of_nat k).
Proof.
  intros Hk. unfold seqZ. rewrite <- fmap_take, take_seq. f_equal. f_equal. lia.
Qed.

Lemma scatter_store_at iov : forall data m,
  Forall (fun v => 0 <= iov_len v) iov ->
  (length data <= length (concat (iov_addrs <$> iov)))%nat ->
  scatter iov data m = store_at m (take (length data) (concat (iov_addrs <$> iov))) data.
Proof.
  induction iov as [|v iov IH]; intros data m Hf Hl.
  - destruct data; [done|simpl in Hl; lia].
  - apply Forall_cons in Hf as [Hv Hf]. rewrite fmap_cons in *. cbn [concat scatter] in *.
    assert (Hlv : length (iov_addrs v) = Z.to_nat (iov_len v)) by (unfold iov_addrs; by rewrite length_seqZ).
    rewrite length_app, Hlv in Hl. set (n := Z.to_nat (iov_len v)) in *.
    set (rest := concat (iov_addrs <$> iov)) in *. rewrite store_seqZ, length_take.
    destruct (Nat.le_gt_cases (length data) n) as [Hd|Hd].
    + rewrite drop_ge, take_ge, Nat.min_r by lia. rewrite take_app_le by lia.
      rewrite scatter_nil by done. f_equal. symmetry. apply take_seqZ. lia.
    + rewrite Nat.min_l by lia. replace (Z.of_nat n) with (iov_len v) by (unfold n; lia).
      change (seqZ (iov_base v) (iov_len v)) with (iov_addrs v).
      rewrite IH by (done || rewrite length_drop; fold rest; lia). rewrite length_drop. fold rest.
      rewrite <- store_at_app by (rewrite length_take; lia).
      rewrite take_drop. f_equal. rewrite take_app_ge by lia. by rewrite Hlv.
Qed.

Lemma iov_total_length vs :
  Forall (fun v => 0 <= iov_len v) vs -> Z.of_nat (length (concat (iov_addrs <$> vs))) = iov_total vs.
Proof.
  induction 1 as [|v vs Hv _ IH]; [done|]. rewrite fmap_cons. cbn [concat iov_total foldr].
  fold (iov_total vs). rewrite length_app, <- IH. unfold iov_addrs at 1. rewrite length_seqZ. lia.
Qed.

(** Vectors over a message that has all the bytes. *)
Lemma iovec_exact (T : Translation) (L : TranslationLaws T) g chunks op offset size :
  valid (T := T) chunks -> 0 <= offset < 2 ^ 62 -> 0 <= size < 2 ^ 62 ->
  offset + size <= total (T := T) chunks ->
  exists vs, common_iovec (T := T) g chunks op offset size [] = Ok vs /\
    concat (iov_addrs <$> vs) = window (T := T) chunks offset size /\
    Forall (fun v => 0 <= iov_len v) vs /\ iov_total vs = size.
Proof.
  intros Hv Ho Hs Hle.
  destruct (common_iovec_cover L g chunks op offset size [] Hv ltac:(lia) ltac:(lia))
    as (vs & pad & Hrun & Hc & Hvs & Hpad & Ht).
  assert (Hvs0 : Forall (fun v => 0 <= iov_len v) vs) by (eapply Forall_impl; [exact Hvs|intros v; simpl; lia]).
  pose proof (iov_total_length vs Hvs0) as Hl. rewrite Hc, length_window in Hl by lia.
  rewrite iov_total_app in Ht. destruct pad as [|p pad].
  - exists vs. rewrite app_nil_r in Hrun. simpl in Ht. split; [done|]. split; [done|]. split; [done|lia].
  - exfalso. apply Forall_cons in Hpad as [[_ Hp] Hpad].
    assert (0 <= iov_total pad).
    { clear -Hpad. induction Hpad as [|v l [_ Hv] _ IH]; simpl; [done|]. unfold iov_total in *. lia. }
    simpl in Ht. fold (iov_total pad) in Ht. lia.
Qed.

Lemma asked_window {K} (e : EmuState (World K)) i off n :
  0 <= off -> 0 <= n -> off + n <= total (T := tr e) (asks e i) ->
  asked e i off (Z.to_nat n) = peek (g_mem (e_guest e)) <$> window (T := tr e) (asks e i) off n.
Proof.
  intros Ho Hn Hle. unfold asked, read_result. rewrite Z2Nat.id by lia.
  pose proof (length_window (T := tr e) (asks e i) off n) as Hl.
  replace (Z.to_nat n - length _)%nat with 0%nat by lia. by rewrite app_nil_r.
Qed.

Section Io.
Context {K : Type} {FK : FdKernel K} {HK : HostKernel K}.
Context (garbage_read : Z) (uninit : nat -> Z).
Notation St := (EmuState (World K)).

Definition write_msg (e : St) (i : MsgContext) : list Z := asked e i 0 (sizeof (request msg_io_write)).
Definition read_msg (e : St) (i : MsgContext) : list Z := asked e i 0 (sizeof (request msg_io_read)).

Lemma length_indeterminate n : length (indeterminate uninit n) = n.
Proof. unfold indeterminate. by rewrite length_fmap, length_seq. Qed.

Lemma length_write_info r err : length (write_info uninit r err) = sizeof (reply msg_io_write).
Proof.
  pose proof (length_indeterminate (sizeof (reply msg_io_write))). unfold write_info.
  destruct (r <? 0); field_length.
Qed.

Lemma length_read_info r err : length (read_info uninit r err) = sizeof (reply msg_io_read).
Proof.
  pose proof (length_indeterminate (sizeof (reply msg_io_read))). unfold read_info.
  destruct (r <? 0); field_length.
Qed.

(** C12. [io_write] hands the host exactly the bytes that follow the header of
    the guest's message, in one [writev] and in order, however the message is
    cut into chunks, and answers the count the host returned, or 0 and the
    host's error number. *)
Theorem io_write_spec (e : St) i :
  let W := request msg_io_write in
  let n := (write_msg e i)[: W ; "nbytes" :] in
  let fd := get_host_fd (w_fds (e_world e)) (u16 (write_msg e i)[: W ; "fd" :]) in
  can_ask e i -> can_reply e i -> Z.of_nat (sizeof W) + n <= total (T := tr e) (asks e i) ->
  forall k r, sys (SWritev fd (asked e i (Z.of_nat (sizeof W)) (Z.to_nat n))) (kern e) = (k, r) ->
  let R := reply msg_io_write in
  let rep := write_info uninit r (k_errno k) in
  io_write garbage_read uninit i e = (replied i 0 rep (set_k k e), Ok ()) /\
  rep[: R ; "status" :] = u16 (if r <? 0 then k_errno k else QEOK) /\
  rep[: R ; "nbytes" :] = u16 (if r <? 0 then 0 else r).
Proof.
  intros W n fd Hask Hrep Hle k r Hsys R rep.
  assert (Hn : 0 <= n < 2 ^ 16) by exact (fld_range W "nbytes" eq_refl _ _ 2 eq_refl).
  destruct Hask as [Hw Hv].
  destruct (iovec_exact (tr e) (space_translation_laws _ Hw) garbage_read (asks e i) READ (Z.of_nat (sizeof W)) n
    Hv ltac:(change (Z.of_nat (sizeof W)) with 8; lia) ltac:(lia) Hle) as (vs & Hiov & Hc & Hvs & _).
  split.
  - unfold io_write. rewrite (bind_Ok _ _ _ _ _ (read_type_run e i W (conj Hw Hv) eq_refl)).
    fold (write_msg e i). fold n.
    rewrite (bind_Ok (msg_read_iovec _ _ _ _) _ e e vs).
    2: { unfold msg_read_iovec. rewrite (bind_Ok get _ _ _ _ eq_refl). unfold lift. f_equal. exact Hiov. }
    rewrite (bind_Ok (map_fd _) _ e e fd eq_refl).
    rewrite (bind_Ok (writev fd vs) _ e (set_k k e) r).
    2: { unfold writev. rewrite (bind_Ok get _ _ _ _ eq_refl). unfold sysc.
         rewrite gather_flat, Hc, <- asked_window by (done || lia). by rewrite Hsys. }
    rewrite (bind_Ok errno _ _ _ _ eq_refl). apply write_type_run; [by apply (can_reply_same e)|].
    change (write_info _ _ _) with rep. unfold rep. by rewrite length_write_info.
  - pose proof (length_indeterminate (sizeof R)) as Hi. unfold rep, write_info. fold R. destruct (r <? 0); split; fields; done.
Qed.

(** What the host read is the reply's data. *)
Lemma readv_replied (e : St) i fd vs off n k r data :
  can_reply e i -> 0 <= off -> Z.of_nat (length data) <= n -> off + n <= total (T := tr e) (gets_back e i) ->
  concat (iov_addrs <$> vs) = window (T := tr e) (gets_back e i) off n ->
  Forall (fun v => 0 <= iov_len v) vs ->
  sys (SReadv fd (iov_len <$> vs)) (kern e) = (k, (r, data)) ->
  readv fd vs e = (replied i off data (set_k k e), Ok r).
Proof.
  intros Hrep Ho Hd Hn Hc Hvs Hsys. unfold readv. rewrite (bind_Ok _ _ _ _ (r, data) (sysc_run _ _ _ _ Hsys)).
  assert (Hw : window (T := tr e) (gets_back e i) off (Z.of_nat (length data)) =
    take (length data) (window (T := tr e) (gets_back e i) off n)).
  { unfold window. rewrite Nat2Z.id, take_take. f_equal. lia. }
  pose proof (length_window (T := tr e) (gets_back e i) off n) as Hl.
  rewrite (bind_Ok (on_mem _) _ _ (replied i off data (set_k k e)) ()); [done|].
  unfold on_mem, Prelude.modify, replied. cbn [e_guest set_k set_world g_mem].
  change (tr (set_k k e)) with (tr e). change (gets_back (set_k k e) i) with (gets_back e i).
  rewrite Hw, scatter_store_at by (done || rewrite Hc; lia). rewrite Hc, length_take.
  rewrite (take_ge data) by lia. done.
Qed.

Lemma read_info_fields r err :
  let R := reply msg_io_read in let rep := read_info uninit r err in
  rep[: R ; "status" :] = u16 (if r <? 0 then err else QEOK) /\
  rep[: R ; "nbytes" :] = u16 (if r <? 0 then 0 else r) /\ rep[: R ; "zero" :] = 0.
Proof.
  cbv zeta. pose proof (length_indeterminate (sizeof (reply msg_io_read))) as Hi. unfold read_info.
  destruct (r <? 0); split_and!; fields; done.
Qed.

(** C11. [io_read] on an open descriptor without a terminal filter, when the
    reply's chunks do not overlap and have room for the header and the bytes the
    guest wants: the host is asked for exactly that many, in one [readv], what it
    returns lies in order behind the header of the guest's scattered reply, the
    header says EOK and the count the host returned, or 0 bytes and the host's
    error number, and no byte of memory outside the reply changes. *)
Theorem io_read_spec (e : St) i f :
  let L := request msg_io_read in
  let R := reply msg_io_read in
  let n := (read_msg e i)[: L ; "nbytes" :] in
  let fd := u16 (read_msg e i)[: L ; "fd" :] in
  can_ask e i -> can_reply e i -> NoDup (flat (T := tr e) (gets_back e i)) ->
  Z.of_nat (sizeof R) + n <= total (T := tr e) (gets_back e i) ->
  get_open_fd (w_fds (e_world e)) fd = Ok f -> m_filter f = None ->
  exists lens, foldr Z.add 0 lens = n /\
    forall k r data,
      sys (SReadv (get_host_fd (w_fds (e_world e)) fd) lens) (kern e) = (k, (r, data)) ->
      Z.of_nat (length data) <= n ->
      exists e', io_read garbage_read uninit i e = (e', Ok ()) /\ kern e' = k /\
        reply_at e' i (Z.of_nat (sizeof R)) (length data) = data /\
        (let rep := reply_at e' i 0 (sizeof R) in
         rep[: R ; "status" :] = u16 (if r <? 0 then k_errno k else QEOK) /\
         rep[: R ; "nbytes" :] = u16 (if r <? 0 then 0 else r) /\ rep[: R ; "zero" :] = 0) /\
        (forall x, x ∉ flat (T := tr e) (gets_back e i) ->
           peek (g_mem (e_guest e')) x = peek (g_mem (e_guest e)) x).
Proof.
  intros L R n fd Hask Hrep Hnd Hle Hopen Hfilter.
  assert (Hn : 0 <= n < 2 ^ 16) by exact (fld_range L "nbytes" eq_refl _ _ 2 eq_refl).
  assert (Hfd : u16 fd = fd) by (apply wrapu_idem; lia).
  pose proof Hrep as (Hw & Hv & _).
  destruct (iovec_exact (tr e) (space_translation_laws _ Hw) garbage_read (gets_back e i) WRITE
    (Z.of_nat (sizeof R)) n Hv ltac:(change (Z.of_nat (sizeof R)) with 8; lia) ltac:(lia) Hle)
    as (vs & Hiov & Hc & Hvs & Ht).
  exists (iov_len <$> vs). split.
  { rewrite <- Ht. clear. unfold iov_total. induction vs as [|v vs IH]; [done|].
    rewrite fmap_cons. cbn [foldr]. by rewrite IH. }
  intros k r data Hsys Hd. set (e1 := replied i (Z.of_nat (sizeof R)) data (set_k k e)).
  assert (Hrep1 : can_reply (set_k k e) i) by by apply (can_reply_same e).
  assert (Hlr : length (read_info uninit r (k_errno k)) = 8%nat) by apply length_read_info.
  exists (replied i 0 (read_info uninit r (k_errno k)) e1). split; [|split; [done|split; [|split]]].
  - unfold io_read. rewrite (bind_Ok _ _ _ _ _ (read_type_run e i L Hask eq_refl)).
    fold (read_msg e i). cbv zeta. fold fd. fold n.
    rewrite (bind_Ok (open_fd fd) _ e e f).
    2: { unfold open_fd. rewrite (bind_Ok world _ _ _ _ eq_refl). unfold lift. by rewrite Hfd, Hopen. }
    rewrite Hfilter. rewrite (bind_Ok (msg_write_iovec _ _ _ _) _ e e vs).
    2: { unfold msg_write_iovec. rewrite (bind_Ok get _ _ _ _ eq_refl). unfold lift. f_equal. exact Hiov. }
    rewrite (bind_Ok (map_fd _) _ e e (get_host_fd (w_fds (e_world e)) fd)).
    2: { unfold map_fd. exact (f_equal (fun z => (e, Ok z)) Hfd). }
    rewrite (bind_Ok _ _ _ _ _ (readv_replied e i _ vs (Z.of_nat (sizeof R)) n k r data Hrep
      ltac:(lia) Hd Hle Hc Hvs Hsys)).
    rewrite (bind_Ok errno _ _ _ _ eq_refl). apply write_type_run; [by apply can_reply_replied|].
    change (k_errno (kern _)) with (k_errno k). by rewrite Hlr.
  - rewrite replied_reads_behind; [|by apply can_reply_replied| |lia|rewrite Hlr; change (sizeof R) with 8%nat; lia].
    + apply replied_reads; [done|done|lia|]. change (gets_back (set_k k e) i) with (gets_back e i).
      change (tr (set_k k e)) with (tr e). lia.
    + unfold e1. rewrite gets_back_replied by done. exact Hnd.
  - cbv zeta. assert (Hr : reply_at (replied i 0 (read_info uninit r (k_errno k)) e1) i 0 (sizeof R) = read_info uninit r (k_errno k)).
    2: { rewrite Hr. apply read_info_fields. }
    change (sizeof R) with 8%nat. rewrite <- Hlr at 1. pose proof (gets_back_replied (set_k k e) i (Z.of_nat (sizeof R)) data Hrep1) as Hg.
    fold e1 in Hg. apply replied_reads; [by apply can_reply_replied| |lia|].
    + rewrite Hg. exact Hnd.
    + rewrite Hg, Hlr. change (total (gets_back (set_k k e) i)) with (total (T := tr e) (gets_back e i)).
      change (Z.of_nat (sizeof R)) with 8 in Hle. lia.
  - intros x Hx. pose proof (gets_back_replied (set_k k e) i (Z.of_nat (sizeof R)) data Hrep1) as Hg.
    rewrite replied_elsewhere by (fold e1 in Hg; rewrite Hg; exact Hx).
    unfold e1. by rewrite replied_elsewhere.
Qed.
End Io.

Definition demo_io (bs : list Z) : EmuState (World Script) :=
  demo_proc demo_fds (mkScript 3 [65; 66; 67] 0) bs.

Lemma demo_nodup bs : NoDup (flat (T := tr (demo_io bs)) (gets_back (demo_io bs) demo_ctx)).
Proof.
  assert (H : flat (T := tr (demo_io bs)) (gets_back (demo_io bs) demo_ctx) = seqZ (2 ^ 26 + 1024) 1024)
    by (vm_compute; reflexivity).
  rewrite H. apply NoDup_seqZ.
Qed.

(** Descriptor 3 is asked for 20 bytes and has 3. *)
Lemma io_read_spec_witness :
  let e := demo_io [3; 1; 3; 0; 20; 0; 0; 0] in
  can_ask e demo_ctx /\ can_reply e demo_ctx /\
  exists e', io_read 77 (fun _ => 0) demo_ctx e = (e', Ok ()) /\ reply_at e' demo_ctx 8 3 = [65; 66; 67] /\
    (reply_at e' demo_ctx 0 8)[: reply msg_io_read ; "nbytes" :] = 3.
Proof.
  intros e. split; [apply demo_can_ask|]. split; [apply demo_can_reply|].
  destruct (io_read_spec (FK := script_fds) (HK := script_host) 77 (fun _ => 0) e demo_ctx
    (opened 3 (QnxFd_new 3 1 1 5 2)) (demo_can_ask _ _ _) (demo_can_reply _ _ _) (demo_nodup _))
    as (lens & _ & H).
  - vm_compute. discriminate.
  - vm_compute. reflexivity.
  - reflexivity.
  - destruct (H (mkScript 3 [65; 66; 67] 0) 3 [65; 66; 67]) as (e' & H1 & _ & H2 & (_ & H3 & _) & _).
    + vm_compute. reflexivity.
    + vm_compute. discriminate.
    + exists e'. split; [exact H1|]. split; [exact H2|exact H3].
Defined.

Lemma io_write_spec_witness :
  let e := demo_io [4; 1; 3; 0; 2; 0; 0; 0; 80; 81; 82] in
  can_ask e demo_ctx /\ can_reply e demo_ctx /\ asked e demo_ctx 8 2 = [80; 81] /\
  exists e', io_write 77 (fun _ => 0) demo_ctx e = (e', Ok ()).
Proof.
  intros e. split; [apply demo_can_ask|]. split; [apply demo_can_reply|]. split; [vm_compute; reflexivity|].
  destruct (io_write_spec (FK := script_fds) (HK := script_host) 77 (fun _ => 0) e demo_ctx
    (demo_can_ask _ _ _) (demo_can_reply _ _ _) ltac:(vm_compute; discriminate) (mkScript 3 [65; 66; 67] 0) 3)
    as [H _]; [vm_compute; reflexivity|].
  eexists. exact H.
Defined.

(** ** File status *)

(** The types of files QNX and the host have in common. *)
Definition file_types : list Z := [QS_IFIFO; QS_IFCHR; QS_IFDIR; QS_IFBLK; QS_IFREG; QS_IFLNK; QS_IFSOCK].

Lemma map_file_type_known m :
  Z.land m S_IFMT ∈ file_types -> map_file_type m = Z.land m S_IFMT.
Proof.
  unfold map_file_type. generalize (Z.land m S_IFMT). intros t Ht. unfold file_types in Ht.
  repeat (apply elem_of_cons in Ht as [-> |Ht]; [reflexivity|]). by apply elem_of_nil in Ht.
Qed.

Lemma flag_if_land m b : 0 <= b -> Z.land m (2 ^ b) = flag_if m (2 ^ b) (2 ^ b).
Proof.
  intros Hb. unfold flag_if, has. destruct (Z.eqb_spec (Z.land m (2 ^ b)) 0) as [E|E]; simpl; [done|].
  apply Z.bits_inj'. intros n Hn. rewrite Z.land_spec. rewrite Z.pow2_bits_eqb by done.
  destruct (Z.eqb_spec b n) as [-> |]; [|by rewrite andb_false_r]. rewrite andb_true_r.
  destruct (Z.testbit m n) eqn:Ht; [done|]. exfalso. apply E. apply Z.bits_inj'. intros k Hk.
  rewrite Z.land_spec, Z.pow2_bits_eqb, Z.bits_0 by done.
  destruct (Z.eqb_spec n k) as [-> |]; [by rewrite Ht|by rewrite andb_false_r].
Qed.

(** Permissions, set-id and sticky bits, and a common type are kept as they
    are; any other type becomes a character device. *)
Lemma map_mode_spec m :
  0 <= m < 2 ^ 16 ->
  map_mode m = if decide (Z.land m S_IFMT ∈ file_types) then m else Z.lor (Z.land m ALLPERMS) QS_IFCHR.
Proof.
  intros Hm. unfold map_mode.
  change (flag_if m S_ISUID QS_ISUID) with (flag_if m (2 ^ 11) (2 ^ 11)).
  change (flag_if m S_ISGID QS_ISGID) with (flag_if m (2 ^ 10) (2 ^ 10)).
  change (flag_if m S_ISVTX QS_ISVTX) with (flag_if m (2 ^ 9) (2 ^ 9)).
  rewrite <- !flag_if_land by lia.
  assert (H : forall t, Z.lor (Z.lor (Z.lor (Z.lor (Z.land m ACCESSPERMS) t) (Z.land m (2 ^ 11)))
    (Z.land m (2 ^ 10))) (Z.land m (2 ^ 9)) = Z.lor (Z.land m ALLPERMS) t).
  { intros t. change ALLPERMS with (Z.lor (Z.lor (Z.lor ACCESSPERMS (2 ^ 11)) (2 ^ 10)) (2 ^ 9)).
    rewrite !Z.land_lor_distr_r. apply Z.bits_inj'. intros n Hn. rewrite !Z.lor_spec.
    destruct (Z.testbit (Z.land m ACCESSPERMS) n), (Z.testbit t n), (Z.testbit (Z.land m (2 ^ 11)) n),
      (Z.testbit (Z.land m (2 ^ 10)) n), (Z.testbit (Z.land m (2 ^ 9)) n); reflexivity. }
  rewrite H. case_decide as Hd.
  - rewrite map_file_type_known by done. rewrite <- Z.land_lor_distr_r.
    change (Z.lor ALLPERMS S_IFMT) with (Z.ones 16). rewrite Z.land_ones by lia. by apply Z.mod_small.
  - f_equal. unfold map_file_type. revert Hd. generalize (Z.land m S_IFMT). intros t Ht.
    unfold file_types in Ht. repeat (apply not_elem_of_cons in Ht as [? Ht]).
    repeat (rewrite (proj2 (Z.eqb_neq t _)) by assumption). done.
Qed.

Lemma mode_range m : 0 <= m < 2 ^ 16 -> 0 <= Z.lor (Z.land m ALLPERMS) QS_IFCHR < 2 ^ 16.
Proof.
  intros Hm. assert (H : Z.lor (Z.land m ALLPERMS) QS_IFCHR = Z.land (Z.lor (Z.land m ALLPERMS) QS_IFCHR) (Z.ones 16)).
  { apply Z.bits_inj'. intros n Hn. rewrite Z.land_spec, Z.testbit_ones_nonneg by lia.
    destruct (Z.ltb_spec n 16); [by rewrite andb_true_r|]. rewrite Z.lor_spec, Z.land_spec.
    assert (Hl : Z.log2 ALLPERMS = 11 /\ Z.log2 QS_IFCHR = 13) by done.
    rewrite (Z.bits_above_log2 ALLPERMS n), (Z.bits_above_log2 QS_IFCHR n) by (done || lia).
    by rewrite andb_false_r. }
  rewrite H, Z.land_ones by lia. apply Z.mod_pos_bound. lia.
Qed.

Section Stat.
Context {K : Type} {FK : FdKernel K} {HK : HostKernel K}.
Notation St := (EmuState (World K)).

Definition stat_reply (sb : HostStat) : list Z :=
  with_stat (reply msg_io_fstat) eq_refl sb (clear (reply msg_io_fstat)).

Lemma stat_fields sb :
  let R := reply msg_io_fstat in
  let r := stat_reply sb in
  length r = sizeof R /\ r[: R ; "status" :] = 0 /\
  r[: R ; "stat.mode" :] = u16 (map_mode (st_mode sb)) /\
  r[: R ; "stat.size" :] = i32 (st_size sb) /\ r[: R ; "stat.ino" :] = u32 (st_ino sb) /\
  r[: R ; "stat.uid" :] = u16 (st_uid sb) /\ r[: R ; "stat.gid" :] = u16 (st_gid sb) /\
  r[: R ; "stat.nlink" :] = u16 (st_nlink sb) /\ r[: R ; "stat.mtime" :] = i32 (st_mtime sb) /\
  r[: R ; "stat.atime" :] = i32 (st_atime sb) /\ r[: R ; "stat.ctime" :] = i32 (st_ctime sb).
Proof.
  intros R r.
  assert (Hg : length (get_sub R "stat" s_stat eq_refl (clear R)) = sizeof s_stat) by reflexivity.
  assert (Ht : length (transfer_stat sb (get_sub R "stat" s_stat eq_refl (clear R))) = sizeof s_stat)
    by (unfold transfer_stat; field_length).
  assert (Hf : forall g (H1 : int_field s_stat g = true) H2, fld R (String.append "stat" (String.append "." g)) H2 r =
    fld s_stat g H1 (transfer_stat sb (get_sub R "stat" s_stat eq_refl (clear R)))).
  { intros g H1 H2. apply fld_set_sub; [exact Ht|]. by apply Nat.leb_le. }
  split; [unfold r, stat_reply, with_stat, set_sub; fold R; rewrite length_splice; [done|rewrite Ht; by apply Nat.leb_le]|].
  split; [change (fld R "status" eq_refl r) with (conv u16_ (le_val (slice 0 2 r)));
    unfold r, stat_reply, with_stat, set_sub; fold R;
    rewrite slice_splice_other; [done|rewrite Ht; by apply Nat.leb_le|left; by apply Nat.leb_le]|].
  split; [etransitivity; [exact (Hf "mode"%string eq_refl eq_refl)|]; unfold transfer_stat; by fields|].
  split; [etransitivity; [exact (Hf "size"%string eq_refl eq_refl)|]; unfold transfer_stat; by fields|].
  split; [etransitivity; [exact (Hf "ino"%string eq_refl eq_refl)|]; unfold transfer_stat; by fields|].
  split; [etransitivity; [exact (Hf "uid"%string eq_refl eq_refl)|]; unfold transfer_stat; by fields|].
  split; [etransitivity; [exact (Hf "gid"%string eq_refl eq_refl)|]; unfold transfer_stat; by fields|].
  split; [etransitivity; [exact (Hf "nlink"%string eq_refl eq_refl)|]; unfold transfer_stat; by fields|].
  split; [etransitivity; [exact (Hf "mtime"%string eq_refl eq_refl)|]; unfold transfer_stat; by fields|].
  split; [etransitivity; [exact (Hf "atime"%string eq_refl eq_refl)|]; unfold transfer_stat; by fields|].
  etransitivity; [exact (Hf "ctime"%string eq_refl eq_refl)|]; unfold transfer_stat; by fields.
Qed.

(** C13. [io_fstat] answers the host's status of the guest's descriptor in the
    QNX structure: size, inode, owner, links and times cut to the widths QNX
    gives them, and a mode with the same permissions, set-id and sticky bits
    and the same type - a character device for a type QNX does not have; a
    failing call is answered with the translated error. *)
Theorem io_fstat_spec (e : St) i k ret sb :
  let L := request msg_io_fstat in
  let R := reply msg_io_fstat in
  let msg := asked e i 0 (sizeof L) in
  can_ask e i -> can_reply e i ->
  sys (SFstat (get_host_fd (w_fds (e_world e)) (u16 msg[: L ; "fd" :]))) (kern e) = (k, (ret, sb)) ->
  let r := stat_reply sb in
  (ret < 0 -> io_fstat i e = (replied i 0 (clear R)[: R ; "status" <- map_errno (k_errno k) :] (set_k k e), Ok ())) /\
  (0 <= ret -> io_fstat i e = (replied i 0 r (set_k k e), Ok ())) /\
  r[: R ; "status" :] = 0 /\ r[: R ; "stat.size" :] = i32 (st_size sb) /\
  r[: R ; "stat.ino" :] = u32 (st_ino sb) /\ r[: R ; "stat.uid" :] = u16 (st_uid sb) /\
  r[: R ; "stat.gid" :] = u16 (st_gid sb) /\ r[: R ; "stat.nlink" :] = u16 (st_nlink sb) /\
  r[: R ; "stat.mtime" :] = i32 (st_mtime sb) /\ r[: R ; "stat.atime" :] = i32 (st_atime sb) /\
  r[: R ; "stat.ctime" :] = i32 (st_ctime sb) /\
  (0 <= st_mode sb < 2 ^ 16 ->
     r[: R ; "stat.mode" :] = if decide (Z.land (st_mode sb) S_IFMT ∈ file_types) then st_mode sb
                              else Z.lor (Z.land (st_mode sb) ALLPERMS) QS_IFCHR).
Proof.
  intros L R msg Hask Hrep Hsys r.
  pose proof (stat_fields sb) as (Hlen & Hst & Hmode & Hsize & Hino & Huid & Hgid & Hnl & Hm & Ha & Hc).
  fold r R in Hlen, Hst, Hmode, Hsize, Hino, Huid, Hgid, Hnl, Hm, Ha, Hc.
  assert (Hrun : io_fstat i e = (if ret <? 0 then err ← errno; write_type i (clear R)[: R ; "status" <- map_errno err :]
    else write_type i r) (set_k k e)).
  { unfold io_fstat. rewrite (bind_Ok _ _ _ _ _ (read_type_run e i L Hask eq_refl)).
    rewrite (bind_Ok (map_fd _) _ e e (get_host_fd (w_fds (e_world e)) (u16 msg[: L ; "fd" :])) eq_refl).
    rewrite (bind_Ok _ _ _ _ (ret, sb) (sysc_run _ _ _ _ Hsys)). subst r. unfold stat_reply. reflexivity. }
  assert (Hrep2 : can_reply (set_k k e) i) by by apply (can_reply_same e).
  split; [|split; [|repeat (split; [assumption|])]].
  - intros Hneg. rewrite Hrun. destruct (Z.ltb_spec ret 0); [|lia].
    rewrite (bind_Ok errno _ _ _ _ eq_refl). by apply write_type_run.
  - intros Hpos. rewrite Hrun. destruct (Z.ltb_spec ret 0); [lia|].
    apply write_type_run; [done|]. by rewrite Hlen.
  - intros Hr. rewrite Hmode, map_mode_spec by done. case_decide; [by apply wrapu_small|].
    apply wrapu_small. by apply mode_range.
Qed.
End Stat.

(** Descriptor 3 is a regular file with mode 0644 and the set-id bits. *)
Lemma io_fstat_spec_witness :
  let e := demo_io [5; 1; 3; 0] in
  can_ask e demo_ctx /\ can_reply e demo_ctx /\ st_mode demo_stat = 0x81a4 /\
  (stat_reply demo_stat)[: reply msg_io_fstat ; "stat.mode" :] = 0x81a4 /\
  exists e', io_fstat demo_ctx e = (e', Ok ()).
Proof.
  intros e. split; [apply demo_can_ask|]. split; [apply demo_can_reply|]. split; [reflexivity|].
  destruct (io_fstat_spec (FK := script_fds) (HK := script_host) e demo_ctx (mkScript 3 [65; 66; 67] 0) 3 demo_stat
    (demo_can_ask _ _ _) (demo_can_reply _ _ _)) as (_ & H & _ & _ & _ & _ & _ & _ & _ & _ & _ & Hm);
    [vm_compute; reflexivity|].
  split.
  - assert (Hr : 0 <= st_mode demo_stat < 2 ^ 16) by (split; [discriminate|reflexivity]).
    specialize (Hm Hr).
    assert (Hv : (if decide (Z.land (st_mode demo_stat) S_IFMT ∈ file_types) then st_mode demo_stat
      else Z.lor (Z.land (st_mode demo_stat) ALLPERMS) QS_IFCHR) = 0x81a4) by (vm_compute; reflexivity).
    exact (eq_trans Hm Hv).
  - eexists. apply H. lia.
Defined.
