(* ===== verification/TermSpec.v ===== *)
(** * TermSpec: what the terminal messages do

    The attributes a guest reads and the ones it writes back: the flags are
    compared bit by bit, the control characters index by index. *)

From S2P Require Import Prelude Types Memory IdMap PathMapper PidMap TerminalFilter FdMap Segment AddressSpace Sigset Msg Errno GuestContext Emu Layout QnxMsg Host MsgHandler ProcHandler IoHandler TermHandler Exchange Demo.

Import Errno.Qnx.
Import TermHandler.

(** ** Flags *)

Lemma has_bit v b k : 0 <= k -> b = 2 ^ k -> has v b = Z.testbit v k.
Proof.
  intros Hk ->. unfold has. destruct (Z.eqb_spec (Z.land v (2 ^ k)) 0) as [E|E]; simpl.
  - apply (f_equal (fun z => Z.testbit z k)) in E.
    rewrite Z.land_spec, Z.pow2_bits_true, andb_true_r, Z.bits_0 in E by done. by rewrite E.
  - symmetry. apply not_false_is_true. intros Hb. apply E. apply Z.bits_inj'. intros n Hn.
    rewrite Z.land_spec, Z.pow2_bits_eqb, Z.bits_0 by done.
    destruct (Z.eqb_spec k n) as [<- |]; [by rewrite Hb|by rewrite andb_false_r].
Qed.

Lemma clear_bits_bit d bits n : 0 <= n -> Z.testbit (clear_bits d bits) n = Z.testbit d n && negb (Z.testbit bits n).
Proof. intros. unfold clear_bits. by rewrite Z.land_spec, Z.lnot_spec. Qed.

(** A bit of the result, [r] before: what the last pair that has it says. *)
Definition mapped_bit (m : list (Z * Z)) (src n : Z) (r : bool) : bool :=
  foldl (fun r '(t, f) => if Z.testbit t n then has src f else r) r m.

Lemma map_field_bit m src dst n :
  0 <= n -> Z.testbit (map_field m src dst) n = mapped_bit m src n (Z.testbit dst n).
Proof.
  intros Hn. unfold map_field, mapped_bit. revert dst.
  induction m as [|[t f] m IH]; intros dst; simpl; [done|]. rewrite IH. f_equal.
  destruct (has src f); rewrite ?Z.lor_spec, clear_bits_bit by done;
    destruct (Z.testbit dst n), (Z.testbit t n); reflexivity.
Qed.

(** A map of single bits to themselves. *)
Definition single (p : Z * Z) : Prop := fst p = snd p /\ exists k, 0 <= k < 32 /\ snd p = 2 ^ k.
Definition diagonal (m : list (Z * Z)) : Prop := Forall single m.
Definition in_map (m : list (Z * Z)) (n : Z) : bool := existsb (fun p => Z.testbit (fst p) n) m.

Lemma diagonal_bit m src n r :
  0 <= n -> diagonal m -> mapped_bit m src n r = if in_map m n then Z.testbit src n else r.
Proof.
  intros Hn Hm. unfold mapped_bit, in_map. revert r.
  induction Hm as [|[t f] m [Ht (k & Hk & Hf)] Hm IH]; intros r; simpl in *; [done|]. rewrite IH.
  subst t f. rewrite (has_bit src (2 ^ k) k) by lia. rewrite Z.pow2_bits_eqb by lia.
  destruct (Z.eqb_spec k n) as [-> |]; simpl; [|done]. by destruct (existsb _ m).
Qed.

Lemma diagonal_in_map m n : 0 <= n -> diagonal m -> in_map m n = true -> n < 32.
Proof.
  intros Hn Hm. induction Hm as [|[t f] m [Ht (k & Hk & Hf)] Hm IH]; simpl in *; [done|].
  intros [H|H]%orb_prop; [|by apply IH]. subst t f. rewrite Z.pow2_bits_eqb in H by lia.
  apply Z.eqb_eq in H. lia.
Qed.

Lemma diagonal_swap m : diagonal m -> swap m = m.
Proof. induction 1 as [|[t f] m [Ht _] _ IH]; simpl in *; [done|]. subst t. f_equal. exact IH. Qed.

Lemma u32_bit v n : 0 <= n < 32 -> Z.testbit (u32 v) n = Z.testbit v n.
Proof. intros. unfold wrapu. apply Z.mod_pow2_bits_low. lia. Qed.

(** There and back again through a 32-bit field. *)
Lemma diagonal_roundtrip m src : diagonal m -> map_field (swap m) (u32 (map_field m src 0)) src = src.
Proof.
  intros Hm. rewrite diagonal_swap by done. apply Z.bits_inj'. intros n Hn.
  rewrite map_field_bit, diagonal_bit by done. destruct (in_map m n) eqn:E; [|done].
  pose proof (diagonal_in_map _ _ Hn Hm E).
  by rewrite u32_bit, map_field_bit, diagonal_bit, E by (done || lia).
Qed.

Ltac single :=
  split; [reflexivity|]; cbn [snd];
  match goal with |- exists k, _ /\ ?t = _ =>
    let k := eval vm_compute in (Z.log2 t) in exists k; split; [lia|reflexivity] end.
Ltac diag := unfold diagonal; repeat (apply Forall_cons; split; [single|]); apply Forall_nil; exact I.

Lemma iflag_diagonal : diagonal IFLAG_MAP.
Proof. diag. Qed.
Lemma oflag_diagonal : diagonal OFLAG_MAP.
Proof. diag. Qed.
Lemma lflag_diagonal : diagonal LFLAG_MAP.
Proof. diag. Qed.
Lemma cflag_diagonal : diagonal (drop 5 CFLAG_MAP).
Proof. diag. Qed.

(** *** The character size *)

(** A size of five bits is kept, any other comes back as eight. *)
Definition kept_cflag (c : Z) : Z := if has c CSIZE then Z.lor c CSIZE else c.

Lemma csize_bit n : 0 <= n -> Z.testbit CSIZE n = (n =? 4) || (n =? 5).
Proof.
  intros Hn. change CSIZE with (Z.lor (2 ^ 4) (2 ^ 5)). rewrite Z.lor_spec, !Z.pow2_bits_eqb by lia.
  by rewrite (Z.eqb_sym 4), (Z.eqb_sym 5).
Qed.

Lemma cflag_bit src n r :
  0 <= n -> mapped_bit CFLAG_MAP src n r =
    if in_map (drop 5 CFLAG_MAP) n then Z.testbit src n
    else if (n =? 4) || (n =? 5) then has src CSIZE else r.
Proof.
  intros Hn. rewrite <- (diagonal_bit _ src n _ Hn cflag_diagonal).
  change (mapped_bit CFLAG_MAP src n r) with
    (mapped_bit (drop 5 CFLAG_MAP) src n (mapped_bit (take 5 CFLAG_MAP) src n r)).
  f_equal. unfold mapped_bit. cbn [take CFLAG_MAP foldl].
  change QCSIZE with CSIZE. change QCS8 with CSIZE. change CS8 with CSIZE. change QCS5 with 0.
  change QCS6 with (2 ^ 4). change QCS7 with (2 ^ 5). rewrite csize_bit, Z.bits_0 by done.
  rewrite !Z.pow2_bits_eqb by lia. rewrite (Z.eqb_sym 4), (Z.eqb_sym 5).
  by destruct (n =? 4), (n =? 5).
Qed.

Lemma has_lor v a b : has v (Z.lor a b) = has v a || has v b.
Proof.
  unfold has. rewrite Z.land_lor_distr_r. rewrite <- negb_andb. f_equal.
  destruct (Z.eqb_spec (Z.land v a) 0) as [-> |Ha]; [done|]. simpl. apply Z.eqb_neq. intros H.
  apply Z.lor_eq_0_iff in H. tauto.
Qed.

Lemma has_csize v : has v CSIZE = Z.testbit v 4 || Z.testbit v 5.
Proof. change CSIZE with (Z.lor (2 ^ 4) (2 ^ 5)). by rewrite has_lor, (has_bit v (2 ^ 4) 4), (has_bit v (2 ^ 5) 5) by done. Qed.

(** The field in the QNX structure, flow control included. *)
Definition qnx_cflag (c : Z) : Z := u32 (to_qnx_flow c (u32 (map_field CFLAG_MAP c 0))).

Lemma qnx_cflag_bit c n :
  0 <= n < 32 -> Z.testbit (qnx_cflag c) n =
    if n <? 2 then has c CRTSCTS
    else if in_map (drop 5 CFLAG_MAP) n then Z.testbit c n
    else if (n =? 4) || (n =? 5) then has c CSIZE else false.
Proof.
  intros Hn. unfold qnx_cflag. rewrite u32_bit by done. unfold to_qnx_flow.
  assert (Hf : Z.testbit (Z.lor QIHFLOW QOHFLOW) n = (n <? 2)).
  { change (Z.lor QIHFLOW QOHFLOW) with (Z.ones 2). by rewrite Z.testbit_ones_nonneg by lia. }
  revert Hf. generalize (Z.lor QIHFLOW QOHFLOW) as f. intros f Hf.
  rewrite <- (Z.bits_0 n), <- cflag_bit, <- map_field_bit by lia.
  destruct (has c CRTSCTS); rewrite ?Z.lor_spec, clear_bits_bit, u32_bit, Hf by lia;
    destruct (n <? 2), (Z.testbit (map_field CFLAG_MAP c 0) n); reflexivity.
Qed.

Lemma cflag_roundtrip c :
  to_host_flow (qnx_cflag c) (map_field (swap CFLAG_MAP) (qnx_cflag c) c) = kept_cflag c.
Proof.
  assert (Hflow : has (qnx_cflag c) (Z.lor QIHFLOW QOHFLOW) = Z.testbit c 31).
  { rewrite has_lor, (has_bit _ QIHFLOW 0), (has_bit _ QOHFLOW 1), !qnx_cflag_bit by (done || lia).
    change (0 <? 2) with true. change (1 <? 2) with true. cbv iota. rewrite orb_diag. by apply has_bit. }
  assert (Hsize : has (qnx_cflag c) CSIZE = has c CSIZE).
  { rewrite has_csize, !qnx_cflag_bit by lia. apply orb_diag. }
  apply Z.bits_inj'. intros n Hn. change (swap CFLAG_MAP) with CFLAG_MAP.
  assert (Hk : Z.testbit (kept_cflag c) n = if (n =? 4) || (n =? 5) then has c CSIZE else Z.testbit c n).
  { unfold kept_cflag. destruct (has c CSIZE) eqn:E; rewrite ?Z.lor_spec, ?csize_bit by done.
    - destruct ((n =? 4) || (n =? 5)); by rewrite ?orb_true_r, ?orb_false_r.
    - rewrite has_csize in E. apply orb_false_elim in E as [E4 E5].
      destruct (Z.eqb_spec n 4) as [-> |]; [done|]. by destruct (Z.eqb_spec n 5) as [-> |]. }
  rewrite Hk. unfold to_host_flow. rewrite Hflow.
  assert (Hc : forall h, Z.testbit (let h := clear_bits h CRTSCTS in if Z.testbit c 31 then Z.lor h CRTSCTS else h) n
    = if n =? 31 then Z.testbit c 31 else Z.testbit h n).
  { intros h. cbv zeta. assert (Hb : Z.testbit CRTSCTS n = (n =? 31))
      by (change CRTSCTS with (2 ^ 31); rewrite Z.pow2_bits_eqb by lia; apply Z.eqb_sym).
    destruct (Z.testbit c 31); rewrite ?Z.lor_spec, clear_bits_bit, Hb by done;
      destruct (n =? 31), (Z.testbit h n); reflexivity. }
  rewrite Hc, map_field_bit, cflag_bit, Hsize by done.
  destruct (Z.eqb_spec n 31) as [-> |]; [done|].
  destruct (in_map (drop 5 CFLAG_MAP) n) eqn:E; [|done].
  pose proof (diagonal_in_map _ _ Hn cflag_diagonal E).
  rewrite qnx_cflag_bit, E by lia.
  destruct (Z.ltb_spec n 2) as [H2|].
  - exfalso. revert E. assert (n = 0 \/ n = 1) as [-> | ->] by lia; discriminate.
  - destruct (Z.eqb_spec n 4) as [-> |]; [discriminate|]. by destruct (Z.eqb_spec n 5) as [-> |]; [discriminate|].
Qed.

(** ** Control characters *)

Lemma length_cc b : length b = sizeof TS -> length (arr TS "c_cc" eq_refl b) = 80%nat.
Proof. intros Hb. unfold arr. rewrite length_slice; [done|]. rewrite Hb. by apply Nat.leb_le. Qed.

Lemma length_put_cc m v b : length b = sizeof TS -> (m < 40)%nat -> length (put_cc m v b) = sizeof TS.
Proof.
  intros Hb Hm. unfold put_cc. apply length_set_arr; [done|].
  rewrite length_splice by (rewrite length_le_bytes, length_cc by done; lia). by rewrite length_cc.
Qed.

Lemma get_put_cc n m v b :
  length b = sizeof TS -> (n < 40)%nat -> (m < 40)%nat ->
  get_cc n (put_cc m v b) = if decide (n = m) then u16 v else get_cc n b.
Proof.
  intros Hb Hn Hm. pose proof (length_cc b Hb) as Hl. unfold get_cc, put_cc.
  assert (Hs : (2 * m + length (le_bytes 2 v) <= length (arr TS "c_cc" eq_refl b))%nat)
    by (rewrite Hl, length_le_bytes; lia).
  rewrite arr_set_same by (done || (rewrite length_splice by done; exact Hl)).
  case_decide as Hd.
  - subst m. change 2%nat with (length (le_bytes 2 v)) at 2. by rewrite slice_splice, le_val_bytes by done.
  - by rewrite slice_splice_other by (done || (rewrite length_le_bytes; lia)).
Qed.

Lemma get_cc_clear n : get_cc n (clear TS) = 0.
Proof.
  unfold get_cc, arr, clear, slice. by rewrite !drop_replicate, !take_replicate, drop_replicate, take_replicate, le_val_zeros.
Qed.

Lemma get_cc_set_fld n f H v b :
  length b = sizeof TS -> String.eqb f "c_cc" = false -> get_cc n (set_fld TS f H v b) = get_cc n b.
Proof. intros Hb Hf. unfold get_cc. rewrite arr_set_fld; [done|done|]. by apply String.eqb_neq. Qed.

(** The host's [VTIME], [VEOL2] and the unused index 17 change: the QNX
    indices are used on the host's array. *)
Definition kept_cc (cc : list Z) : list Z := <[17%nat := cc !!! 11%nat]> (<[16%nat := 0]> (<[5%nat := 0]> cc)).

Lemma length_put_ccs cc b : length b = sizeof TS -> length (put_ccs cc b) = sizeof TS.
Proof.
  intros Hb. unfold put_ccs.
  assert (H : Forall (fun '(q, h) => q < 40)%nat CC_MAP) by (repeat constructor).
  revert b Hb. induction H as [|[q h] m Hq _ IH]; intros b Hb; simpl; [done|].
  apply IH. by apply length_put_cc.
Qed.

Lemma get_cc_puts (m : list (nat * nat)) (cc b : list Z) n :
  length b = sizeof TS -> (n < 40)%nat -> Forall (fun '(q, h) => q < 40)%nat m ->
  get_cc n (foldl (fun b '(q, h) => put_cc q (cc !!! h) b) b m) =
  foldl (fun r '(q, h) => if decide (n = q) then u16 (cc !!! h) else r) (get_cc n b) m.
Proof.
  intros Hb Hn Hm. revert b Hb. induction Hm as [|[q h] m Hq _ IH]; intros b Hb; simpl; [done|].
  rewrite IH by (by apply length_put_cc). by rewrite get_put_cc.
Qed.

Lemma u8_u16 v : u8 (u16 v) = u8 v.
Proof. unfold wrapu. apply Z.mod_mod_divide. by exists 256. Qed.

Lemma byte_at (cc : list Z) h : Forall is_byte cc -> is_byte (cc !!! h).
Proof.
  intros Hcc. rewrite list_lookup_total_alt. destruct (cc !! h) eqn:E; simpl; [|by vm_compute].
  by eapply Forall_lookup_1.
Qed.

Lemma u8_put_ccs (cc : list Z) n :
  Forall is_byte cc -> (n < 40)%nat ->
  u8 (get_cc n (put_ccs cc (clear TS))) =
  foldl (fun r '(q, h) => if decide (n = q) then cc !!! h else r) 0 CC_MAP.
Proof.
  intros Hcc Hn. unfold put_ccs. rewrite get_cc_puts by (apply length_clear || done || (repeat constructor)).
  rewrite get_cc_clear. generalize CC_MAP as m. intros m. change 0 with (u8 0) at 2. generalize 0 as r.
  induction m as [|[q h] m IH]; intros r; simpl; [done|]. rewrite IH. f_equal.
  case_decide; [|done]. rewrite u8_u16. by apply wrapu_small, byte_at.
Qed.

Lemma cc_roundtrip b (cc : list Z) :
  Forall is_byte cc -> length cc = 32%nat ->
  (forall n, (n < 40)%nat -> get_cc n b = get_cc n (put_ccs cc (clear TS))) ->
  foldl (fun c '(q, h) => <[q := u8 (get_cc h b)]> c) cc CC_MAP = kept_cc cc.
Proof.
  intros Hcc Hl Hb.
  assert (Hv : forall n, (n < 40)%nat -> u8 (get_cc n b) =
    foldl (fun r '(q, h) => if decide (n = q) then cc !!! h else r) 0 CC_MAP).
  { intros n Hn. by rewrite Hb, u8_put_ccs by done. }
  clear Hcc Hb. do 32 (destruct cc as [|? cc]; [discriminate|]). destruct cc; [|discriminate].
  cbn [foldl CC_MAP]. rewrite !Hv by (apply Nat.ltb_lt; reflexivity). reflexivity.
Qed.

(** ** The structure *)

Lemma fld_put_ccs cc b g H :
  length b = sizeof TS -> String.eqb "c_cc" g = false -> fld TS g H (put_ccs cc b) = fld TS g H b.
Proof.
  intros Hb Hg. apply String.eqb_neq in Hg. unfold put_ccs.
  assert (Hm : Forall (fun '(q, h) => q < 40)%nat CC_MAP) by (repeat constructor).
  revert b Hb. induction Hm as [|[q h] m Hq _ IH]; intros b Hb; simpl; [done|].
  rewrite IH by (by apply length_put_cc). unfold put_cc. apply fld_set_arr; [done| |done].
  rewrite length_splice by (rewrite length_le_bytes, length_cc by done; lia). by rewrite length_cc.
Qed.

(** The values of the flag and speed fields, and the control characters. *)
Record holds (b : list Z) (i o c l s t : Z) (cc : nat -> Z) : Prop := mkHolds {
  h_len : length b = sizeof TS;
  h_iflag : b[: TS ; "c_iflag" :] = i;
  h_oflag : b[: TS ; "c_oflag" :] = o;
  h_cflag : b[: TS ; "c_cflag" :] = c;
  h_lflag : b[: TS ; "c_lflag" :] = l;
  h_ispeed : b[: TS ; "c_ispeed" :] = s;
  h_ospeed : b[: TS ; "c_ospeed" :] = t;
  h_cc : forall n, get_cc n b = cc n
}.

Section Assign.
Context {b : list Z} {i o c l s t : Z} {cc : nat -> Z} (Hb : holds b i o c l s t cc) (v : Z).

Ltac assign :=
  destruct Hb; constructor; try (fields; (assumption || reflexivity)); [by field_length|];
  intros; by rewrite get_cc_set_fld.

Lemma holds_iflag : holds b[: TS ; "c_iflag" <- v :] (u32 v) o c l s t cc.
Proof using Hb. assign. Qed.
Lemma holds_oflag : holds b[: TS ; "c_oflag" <- v :] i (u32 v) c l s t cc.
Proof using Hb. assign. Qed.
Lemma holds_cflag : holds b[: TS ; "c_cflag" <- v :] i o (u32 v) l s t cc.
Proof using Hb. assign. Qed.
Lemma holds_lflag : holds b[: TS ; "c_lflag" <- v :] i o c (u32 v) s t cc.
Proof using Hb. assign. Qed.
Lemma holds_ispeed : holds b[: TS ; "c_ispeed" <- v :] i o c l (i32 v) t cc.
Proof using Hb. assign. Qed.
Lemma holds_ospeed : holds b[: TS ; "c_ospeed" <- v :] i o c l s (i32 v) cc.
Proof using Hb. assign. Qed.
End Assign.

(** The innermost assignment: the field read in it has a known value. *)
Ltac assigned H read write :=
  rewrite (read _ _ _ _ _ _ _ _ H);
  match type of H with
  | holds ?b _ _ _ _ _ _ _ =>
      match goal with |- context [set_fld TS ?f ?Hf ?v b] =>
        let H' := fresh in let b' := fresh in
        pose proof (write b _ _ _ _ _ _ _ H v) as H'; set (b' := set_fld TS f Hf v b) in *;
        clearbody b'; clear H; rename H' into H end
  end.

Lemma put_flags_holds a P cc :
  holds P 0 0 0 0 0 0 cc ->
  holds (put_flags a P) (u32 (map_field IFLAG_MAP (ht_iflag a) 0))
    (u32 (map_field OFLAG_MAP (ht_oflag a) 0)) (qnx_cflag (ht_cflag a))
    (u32 (map_field LFLAG_MAP (ht_lflag a) 0)) (i32 (ht_ispeed a)) (i32 (ht_ospeed a)) cc.
Proof.
  intros H0. unfold put_flags, qnx_cflag. cbv zeta.
  assigned H0 h_iflag @holds_iflag. assigned H0 h_oflag @holds_oflag.
  assigned H0 h_cflag @holds_cflag. assigned H0 h_lflag @holds_lflag.
  assigned H0 h_cflag @holds_cflag. exact (holds_ospeed (holds_ispeed H0 _) _).
Qed.

Lemma qnx_termios_holds a :
  holds (to_qnx_termios a (clear TS)) (u32 (map_field IFLAG_MAP (ht_iflag a) 0))
    (u32 (map_field OFLAG_MAP (ht_oflag a) 0)) (qnx_cflag (ht_cflag a))
    (u32 (map_field LFLAG_MAP (ht_lflag a) 0)) (i32 (ht_ispeed a)) (i32 (ht_ospeed a))
    (fun n => get_cc n (put_ccs (ht_cc a) (clear TS))).
Proof.
  apply put_flags_holds.
  constructor; try (rewrite fld_put_ccs by (reflexivity || apply length_clear); apply fld_clear);
    [apply length_put_ccs, length_clear|reflexivity].
Qed.

(** What is left of the host's attributes when a guest writes back what it read. *)
Definition kept (a : HostTermios) : HostTermios :=
  mkHostTermios (ht_iflag a) (Z.lor (ht_oflag a) ONLCR) (kept_cflag (ht_cflag a)) (ht_lflag a)
    (kept_cc (ht_cc a)) (ht_ispeed a) (ht_ospeed a).

Record host_termios_ok (a : HostTermios) : Prop := mkHostTermiosOk {
  ok_cc : Forall is_byte (ht_cc a) /\ length (ht_cc a) = 32%nat;
  ok_ispeed : 0 <= ht_ispeed a < 2 ^ 32;
  ok_ospeed : 0 <= ht_ospeed a < 2 ^ 32
}.

Lemma u32_i32 v : 0 <= v < 2 ^ 32 -> u32 (i32 v) = v.
Proof.
  intros Hv. unfold wraps, wrapu. rewrite Zminus_mod_idemp_l.
  replace (v + 2 ^ (32 - 1) - 2 ^ (32 - 1)) with v by lia. by apply Z.mod_small.
Qed.

Lemma to_host_to_qnx a : host_termios_ok a -> to_host_termios (to_qnx_termios a (clear TS)) a = kept a.
Proof.
  intros [[Hcc Hl] Hi Ho]. destruct (qnx_termios_holds a) as [_ H1 H2 H3 H4 H5 H6 H7].
  unfold to_host_termios, kept. rewrite H1, H2, H3, H4, H5, H6.
  rewrite !diagonal_roundtrip by (apply iflag_diagonal || apply oflag_diagonal || apply lflag_diagonal).
  rewrite cflag_roundtrip, !u32_i32 by done. f_equal. by apply cc_roundtrip.
Qed.

(** ** The messages *)

Section Attributes.
Context {K : Type} {FK : FdKernel K} {HK : HostKernel K}.
Notation St := (EmuState (World K)).

Definition tcgetattr_reply (a : HostTermios) : list Z :=
  let R := reply msg_dev_tcgetattr in
  (set_sub R "state" TS eq_refl (to_qnx_termios a (clear TS)) (clear R))[: R ; "status" <- QEOK :].

Lemma length_tcgetattr_reply a : length (tcgetattr_reply a) = sizeof (reply msg_dev_tcgetattr).
Proof.
  unfold tcgetattr_reply. cbv zeta. apply length_set_fld, length_set_sub.
  - apply length_clear.
  - apply (h_len _ _ _ _ _ _ _ _ (qnx_termios_holds a)).
  - by apply Nat.leb_le.
Qed.

Lemma tcgetattr_reply_state a :
  get_sub (reply msg_dev_tcgetattr) "state" TS eq_refl (tcgetattr_reply a) = to_qnx_termios a (clear TS).
Proof.
  pose proof (h_len _ _ _ _ _ _ _ _ (qnx_termios_holds a)) as Hl.
  unfold tcgetattr_reply. cbv zeta. revert Hl. generalize (to_qnx_termios a (clear TS)) as q. intros q Hl.
  rewrite get_sub_set_fld; [|apply length_set_sub; [apply length_clear|exact Hl|]|..]; try by apply Nat.leb_le.
  apply get_set_sub; [apply length_clear|exact Hl|by apply Nat.leb_le].
Qed.

Lemma tcgetattr_reply_status a : (tcgetattr_reply a)[: reply msg_dev_tcgetattr ; "status" :] = QEOK.
Proof.
  pose proof (h_len _ _ _ _ _ _ _ _ (qnx_termios_holds a)) as Hl.
  unfold tcgetattr_reply. cbv zeta. revert Hl. generalize (to_qnx_termios a (clear TS)) as q. intros q Hl.
  erewrite fld_set; [|apply length_set_sub; [apply length_clear|exact Hl|by apply Nat.leb_le]|reflexivity]. reflexivity.
Qed.

Lemma dev_tcgetattr_run (e : St) i k r a :
  let L := request msg_dev_tcgetattr in
  let fd := get_host_fd (w_fds (e_world e)) (u16 (asked e i 0 (sizeof L))[: L ; "fd" :]) in
  can_ask e i -> can_reply e i -> sys (STcgetattr fd) (kern e) = (k, (r, a)) -> 0 <= r ->
  dev_tcgetattr i e = (replied i 0 (tcgetattr_reply a) (set_k k e), Ok ()).
Proof.
  intros L fd Hask Hrep Hsys Hr. unfold dev_tcgetattr.
  rewrite (bind_Ok _ _ _ _ _ (read_type_run e i L Hask eq_refl)).
  change (get_sub (reply msg_dev_tcgetattr) "state" TS eq_refl (clear (reply msg_dev_tcgetattr))) with (clear TS).
  rewrite (bind_Ok (handle_tcgetattr _ _) _ e (set_k k e) (QEOK, to_qnx_termios a (clear TS))).
  2: { unfold handle_tcgetattr. rewrite (bind_Ok (map_fd _) _ e e fd eq_refl).
       rewrite (bind_Ok _ _ _ _ (r, a) (sysc_run _ _ _ _ Hsys)).
       destruct (Z.ltb_spec r 0); [lia|reflexivity]. }
  apply write_type_run; [by apply (can_reply_same e)|]. fold (tcgetattr_reply a).
  by rewrite length_tcgetattr_reply.
Qed.

Lemma dev_tcsetattr_run (e : St) i k r a k' r' :
  let L := request msg_dev_tcsetattr in
  let msg := asked e i 0 (sizeof L) in
  let fd := get_host_fd (w_fds (e_world e)) (u16 msg[: L ; "fd" :]) in
  let own := get_host_fd (w_fds (e_world e)) (u16 (m_id i)) in
  can_ask e i -> can_reply e i -> sys (STcgetattr fd) (kern e) = (k, (r, a)) -> 0 <= r ->
  sys (STcsetattr own (tcset_action msg[: L ; "optional_actions" :])
         (to_host_termios (get_sub L "state" TS eq_refl msg) a)) k = (k', r') ->
  dev_tcsetattr i e =
    (replied i 0 (le_bytes 2 (if r' <? 0 then map_errno (k_errno k') else QEOK)) (set_k k' e), Ok ()).
Proof.
  intros L msg fd own Hask Hrep Hsys Hr Hset. unfold dev_tcsetattr.
  rewrite (bind_Ok _ _ _ _ _ (read_type_run e i L Hask eq_refl)). fold msg.
  rewrite (bind_Ok (handle_tcsetattr _ _ _ _) _ e (set_k k' e) (if r' <? 0 then map_errno (k_errno k') else QEOK)).
  2: { unfold handle_tcsetattr. rewrite (bind_Ok (map_fd _) _ e e fd eq_refl).
       rewrite (bind_Ok _ _ _ _ (r, a) (sysc_run _ _ _ _ Hsys)).
       destruct (Z.ltb_spec r 0); [lia|]. rewrite (bind_Ok (map_fd _) _ (set_k k e) (set_k k e) own eq_refl).
       rewrite (bind_Ok _ _ _ _ r' (sysc_run _ (set_k k e) k' _ Hset)).
       by destruct (r' <? 0). }
  apply write_status_run. by apply (can_reply_same e).
Qed.

(** C14. A guest that asks for a terminal's attributes and then sets what it got,
    the host's not having changed, sets - on the descriptor the message was
    sent to - the same input and local flags, speeds and flow control; the output
    flags gain [ONLCR]; a character size that is not five bits becomes eight;
    and as the control characters come back under their QNX indices, [VTIME]
    becomes 0 and index 17 [VEOL], while the interrupt, quit, erase, kill,
    end-of-file, start, stop and suspend characters keep theirs. *)
Theorem termios_roundtrip (e : St) i k r a (e' : St) i' k1 r1 k2 r2 :
  let R := reply msg_dev_tcgetattr in
  let L := request msg_dev_tcsetattr in
  let msg := asked e' i' 0 (sizeof L) in
  host_termios_ok a -> can_ask e i -> can_reply e i -> can_ask e' i' -> can_reply e' i' ->
  sys (STcgetattr (get_host_fd (w_fds (e_world e))
         (u16 (asked e i 0 (sizeof (request msg_dev_tcgetattr)))[: request msg_dev_tcgetattr ; "fd" :]))) (kern e)
    = (k, (r, a)) -> 0 <= r ->
  get_sub L "state" TS eq_refl msg = get_sub R "state" TS eq_refl (tcgetattr_reply a) ->
  sys (STcgetattr (get_host_fd (w_fds (e_world e')) (u16 msg[: L ; "fd" :]))) (kern e') = (k1, (r1, a)) -> 0 <= r1 ->
  sys (STcsetattr (get_host_fd (w_fds (e_world e')) (u16 (m_id i')))
         (tcset_action msg[: L ; "optional_actions" :]) (kept a)) k1 = (k2, r2) ->
  dev_tcgetattr i e = (replied i 0 (tcgetattr_reply a) (set_k k e), Ok ()) /\
  (tcgetattr_reply a)[: R ; "status" :] = QEOK /\
  dev_tcsetattr i' e' =
    (replied i' 0 (le_bytes 2 (if r2 <? 0 then map_errno (k_errno k2) else QEOK)) (set_k k2 e'), Ok ()) /\
  kept_cc (ht_cc a) !!! 5%nat = 0 /\
  Forall (fun n => kept_cc (ht_cc a) !! n = ht_cc a !! n) [0; 1; 2; 3; 4; 8; 9; 10]%nat.
Proof.
  intros R L msg Hok Hask Hrep Hask' Hrep' Hget Hr Hst Hget1 Hr1 Hset.
  split; [by apply (dev_tcgetattr_run e i k r a)|]. split; [apply tcgetattr_reply_status|].
  split.
  - eapply (dev_tcsetattr_run e' i' k1 r1 a k2 r2 Hask' Hrep' Hget1 Hr1). fold L msg.
    rewrite Hst. unfold R. rewrite tcgetattr_reply_state, to_host_to_qnx by done. exact Hset.
  - destruct Hok as [[_ Hl] _ _]. unfold kept_cc. split.
    + rewrite !list_lookup_total_insert_ne by lia. apply list_lookup_total_insert_eq. lia.
    + repeat constructor; by rewrite !list_lookup_insert_ne by lia.
Qed.
End Attributes.

(** ** A terminal *)

Definition demo_tty (bs : list Z) : EmuState (World Script) := demo_proc demo_fds (mkScript 3 [] 0) bs.

(** Sets, at once, what was got from descriptor 3. *)
Definition demo_setattr : list Z :=
  let L := request msg_dev_tcsetattr in
  set_sub L "state" TS eq_refl (get_sub (reply msg_dev_tcgetattr) "state" TS eq_refl (tcgetattr_reply demo_termios))
    (clear L)[: L ; "fd" <- 3 :][: L ; "optional_actions" <- 1 :].

Lemma termios_roundtrip_witness :
  let e := demo_tty [16; 3; 3; 0] in
  let e' := demo_tty demo_setattr in
  host_termios_ok demo_termios /\ can_ask e demo_ctx /\ can_reply e' demo_ctx /\
  exists e2, dev_tcsetattr demo_ctx e' = (e2, Ok ()).
Proof.
  assert (Hok : host_termios_ok demo_termios).
  { constructor; [|split; [discriminate|reflexivity]..]. split; [|reflexivity].
    apply Forall_forall. intros x Hx. apply elem_of_seqZ in Hx. unfold is_byte. lia. }
  intros e e'. split; [exact Hok|]. split; [apply demo_can_ask|]. split; [apply demo_can_reply|].
  destruct (termios_roundtrip (FK := script_fds) (HK := script_host) e demo_ctx (mkScript 3 [] 0) 3 demo_termios
    e' demo_ctx (mkScript 3 [] 0) 3 (mkScript 3 [] 0) 3 Hok (demo_can_ask _ _ _) (demo_can_reply _ _ _)
    (demo_can_ask _ _ _) (demo_can_reply _ _ _)) as (_ & _ & H & _).
  - vm_compute. reflexivity.
  - lia.
  - vm_compute. reflexivity.
  - vm_compute. reflexivity.
  - lia.
  - vm_compute. reflexivity.
  - eexists. exact H.
Defined.
