(* ===== verification/LoadSpec.v ===== *)
(** * LoadSpec: what no file can make the loader do

    The file of a program or of a library is not trusted: its sizes, indices,
    offsets and relocations are what somebody wrote there.  Loading it, whether
    it succeeds or fails, keeps the invariants of the address space and writes
    only into segments of the guest.  The proof is that of [Isolation]: every
    operation of the loader keeps a relation, and so does their composition. *)

From S2P Require Import Prelude Types Memory IdMap CmdOpts PathMapper GuestContext Emu Main Process Sandbox Segment AddressSpace Loader.

(** ** Segments *)

Section Segments.
Context (mmap : Z -> Z -> Z -> Z -> option Z) (mprotect : Z -> Z -> Z -> bool).

Lemma segment_grows_refl s : segment_grows s s.
Proof. intros Hwf. by split. Qed.

#[export] Instance segment_grows_pre : PreOrder segment_grows.
Proof.
  split; [intros s; apply segment_grows_refl|]. intros s1 s2 s3 H12 H23 Hw.
  destruct (H12 Hw) as [Hw2 H2], (H23 Hw2) as [Hw3 H3]. split; [done|]. intros o Ho.
  destruct (H2 _ Ho) as [Ho2 E2], (H3 _ Ho2) as [Ho3 E3]. split; [done|congruence].
Qed.

(** New pages at the end, the limit behind them. *)
Lemma push_pages_grows v n s :
  0 <= n -> n mod MemOps.PAGE_SIZE = 0 -> m_paged_size s + n <= m_reserved s ->
  segment_grows s (push_pages v n s).
Proof.
  intros Hn Ha Hr Hwf. split; [by apply wf_push_pages|]. intros o Ho.
  split; [by apply mapped_push_old|done].
Qed.

Lemma grow_paged_grows prot n : 0 <= n < 2 ^ 43 -> keeps segment_grows (grow_paged mmap prot n).
Proof.
  intros Hn s s' r. unfold grow_paged, Prelude.modify, mbind, M_bind.
  destruct (grow_paged_internal mmap prot n s) as [s1 r1] eqn:Hg. intros Hrun Hwf.
  apply grow_paged_internal_inv in Hg as [[-> [e ->]]|(-> & -> & Ha & Hle)]; [| |done|lia].
  { injection Hrun as <- _. by apply segment_grows_refl. }
  injection Hrun as <- _. destruct (push_pages_grows true n s ltac:(lia) Ha Hle Hwf) as [Hw Hm].
  split; [|exact Hm]. apply wf_set_limit; [done|]. unfold paged_size. destruct Hw as [? _]. simpl in *. lia.
Qed.

Lemma skip_paged_grows n : 0 <= n < 2 ^ 43 -> keeps segment_grows (skip_paged n).
Proof.
  intros Hn s s' r. unfold skip_paged, lift, get, throw, Prelude.modify, mbind, M_bind.
  destruct (MemOps.is_page_aligned n) eqn:Ha; simpl; [|by intros [= <- _]]. apply page_aligned_spec in Ha.
  destruct (_ <? _) eqn:E; [by intros [= <- _]|]. intros [= <- _] Hwf. to_prop.
  assert (Hs : m_paged_size s + n <= m_reserved s).
  { rewrite wrapu_small in E by (unfold Segment.wf in Hwf; lia). lia. }
  exact (push_pages_grows false n s ltac:(lia) Ha Hs Hwf).
Qed.

Lemma grow_bytes_64capped_grows n :
  0 <= n < 2 ^ 43 -> keeps segment_grows (grow_bytes_64capped mmap n).
Proof.
  intros Hn s s' r Hrun Hwf. revert Hrun. unfold grow_bytes_64capped, get, mbind, M_bind.
  destruct (m_limit_size s <? _) eqn:E; [|intros [= <- _]; by apply segment_grows_refl].
  intros Hrun. eapply grow_bytes_grows; [|exact Hrun|exact Hwf].
  to_prop. unfold Segment.wf in Hwf. change (MemOps.kilo 64) with 65536 in *. lia.
Qed.

Lemma change_access_grows prot o n : keeps segment_grows (Segment.change_access mprotect prot o n).
Proof. unfold Segment.change_access. keeps. Qed.
End Segments.

#[export] Hint Resolve change_access_grows : keeps.

(** ** The loader's steps *)

(** The invariants stay, guest memory only grows and nothing else is written. *)
Definition loads (st st' : LoaderState) : Prop :=
  wf_space (l_space st) ->
  wf_space (l_space st') /\
  (forall x, guest_byte (l_space st) x -> guest_byte (l_space st') x) /\
  only_guest (l_space st') (fun _ => False) (l_mem st) (l_mem st').

#[export] Instance loads_pre : PreOrder loads.
Proof.
  split; [intros st H; split; [done|split; [done|by intros x _ _]]|].
  intros s1 s2 s3 H12 H23 H1. destruct (H12 H1) as (H2 & Hg & Hm), (H23 H2) as (H3 & Hg' & Hm').
  split; [done|]. split; [auto|]. intros x Hx He. rewrite Hm', Hm; auto.
Qed.

Lemma loads_same st st' : l_space st' = l_space st -> l_mem st' = l_mem st -> loads st st'.
Proof. intros Hs Hm H. rewrite Hs, Hm. split; [done|]. split; [done|]. by intros x _ _. Qed.

Lemma loads_grows st sp : space_grows (l_space st) sp -> loads st (set_space sp st).
Proof. intros Hg H. destruct (Hg H) as (Hw & Hx & _). split; [done|]. split; [done|]. by intros x _ _. Qed.

Lemma loads_store st a n bs :
  guest_range (l_space st) a n -> Z.of_nat (length bs) <= n ->
  loads st (set_mem (store (l_mem st) a bs) st).
Proof. intros Hr Hn H. split; [done|]. split; [done|]. by eapply store_guest. Qed.

Lemma modify_loads g :
  (forall st, l_space (g st) = l_space st) -> (forall st, l_mem (g st) = l_mem st) ->
  keeps loads (Prelude.modify g).
Proof. intros Hs Hm. apply keeps_modify. intros st. by apply loads_same. Qed.

Lemma on_space_loads {A} (op : M Space A) : keeps space_grows op -> keeps loads (on_space op).
Proof.
  intros Hop st st' r. unfold on_space. destruct (op (l_space st)) as [sp o] eqn:E.
  intros [= <- _]. by eapply loads_grows, Hop.
Qed.

Lemma on_seg_loads {A} p (op : M Segment A) : keeps segment_grows op -> keeps loads (on_seg p op).
Proof.
  intros Hop st st' r. unfold on_seg. destruct p as [q|]; simpl; [|by intros [= <- _]].
  destruct (segs (l_space st) !! q) as [s|] eqn:Es; simpl; [|by intros [= <- _]].
  pose proof (space_seg_grows q op Hop (l_space st)) as Hg. unfold space_seg in Hg. rewrite Es in Hg.
  destruct (op s) as [s' o] eqn:Eo. intros [= <- _]. apply loads_grows. by eapply Hg.
Qed.

(** A pointer the loader takes points into the segment, wherever the file says. *)
Lemma seg_pointer_run p off n st st' a :
  wf_space (l_space st) -> 0 <= off < 2 ^ 64 -> 0 < n < 2 ^ 64 ->
  seg_pointer p off n st = (st', Ok a) -> guest_range (l_space st') a n.
Proof.
  intros Hwf Ho Hn Hrun. revert Hrun. unfold seg_pointer, on_seg. destruct p as [q|]; simpl; [|done].
  destruct (segs (l_space st) !! q) as [s|] eqn:Es; simpl; [|done].
  destruct (check_bounds_range s off n (proj1 Hwf _ _ Es)) as (b & _ & Hiff & Hp); [lia|lia|].
  unfold get, lift, mbind, M_bind. destruct b; [|by rewrite Hp; intros [= _ ?]].
  destruct Hp as [-> _]. intros [= <- <-] k Hk. exists q, s, (off + k). simpl.
  rewrite lookup_insert_eq. split; [done|]. split; [|lia]. apply Hiff; [done|lia].
Qed.

Lemma seg_pointer_loads p off n : keeps loads (seg_pointer p off n).
Proof. apply on_seg_loads. keeps. Qed.
Lemma seg_size_loads p : keeps loads (seg_size p).
Proof. apply on_seg_loads. keeps. Qed.
Lemma checked_read_loads file n : keeps loads (checked_read file n).
Proof.
  intros st st' r. unfold checked_read. destruct (_ <? _)%nat; intros [= <- _]; by apply loads_same.
Qed.

#[export] Hint Resolve seg_pointer_loads seg_size_loads checked_read_loads : keeps.

(** ** The two loaders *)

(** What [loader_load] needs of a loader; file offsets are 32 bits wide. *)
Record contained_loader (l : AbstractLoader) : Prop := {
  prepare_segments_loads n : keeps loads (prepare_segments l n);
  alloc_segment_loads i a n : 0 <= n < 2 ^ 28 -> keeps loads (alloc_segment l i a n);
  finalize_segments_loads : keeps loads (finalize_segments l);
  segment_load_loads ld n : keeps loads (prepare_segment_load l ld n);
  segment_load_range ld n st st' a :
    wf_space (l_space st) -> 0 <= ld_offset ld < 2 ^ 32 -> 0 < n < 2 ^ 64 ->
    prepare_segment_load l ld n st = (st', Ok a) -> guest_range (l_space st') a n;
  finalize_loading_loads : keeps loads (finalize_loading l);
  get_segment_loads i : keeps loads (get_segment l i)
}.

Definition header_ok (hdr : lmf_header) : Prop :=
  0 <= stack_nbytes hdr < 2 ^ 32 /\ 0 <= heap_nbytes hdr < 2 ^ 32.

Section Loaders.
Context (mmap : Z -> Z -> Z -> Z -> option Z) (Hmmap : mmap_law mmap).
Context (mprotect : Z -> Z -> Z -> bool) (modify_ldt : user_desc -> bool).
Context (file : list Z) (Hfile : Forall is_byte file).

Lemma u32_fits v : 0 <= u32 v < 2 ^ 43.
Proof. pose proof (wrapu_range 32 v). lia. Qed.

Lemma reservation_fits hdr slib : 0 <= seg_reservation hdr slib < 2 ^ 43.
Proof. unfold seg_reservation. destruct (negb _); [|destruct slib]; split; by vm_compute. Qed.

Ltac fits := first [apply u32_fits | apply reservation_fits | unfold header_ok in *; lia | split; by vm_compute].
Ltac segment_op := apply on_seg_loads; first
  [ apply reserve_grows; [exact Hmmap|fits] | apply skip_paged_grows; fits | apply grow_paged_grows; fits
  | apply grow_bytes_grows; fits | apply grow_bytes_64capped_grows; fits | apply change_access_grows ].
Ltac loader_step := first
  [ keeps_step | segment_op | apply on_space_loads; solve [auto with keeps] | by apply modify_loads
  | apply keeps_throw, _ ].

Lemma flat_protect_loads l p : keeps loads (flat_protect mprotect l p).
Proof. induction l as [|s l IH]; simpl; repeat loader_step. Qed.

Lemma flat_contained hdr : header_ok hdr -> contained_loader (FlatLoader mmap mprotect hdr).
Proof.
  intros Hh. split; simpl.
  - intros n. by apply modify_loads.
  - intros i a n _. by apply modify_loads.
  - unfold flat_finalize_segments. repeat loader_step.
  - intros ld n. unfold flat_segment_load. repeat loader_step.
  - intros ld n st st' a Hwf Ho Hn. unfold flat_segment_load, get, throw, mbind, M_bind, format_error.
    destruct (l_flats st !! _) as [s|]; [|done]. apply seg_pointer_run; [done| |done].
    pose proof (u32_fits (f_start s + ld_offset ld)). lia.
  - repeat loader_step. apply flat_protect_loads.
  - intros i. apply keeps_gets, _.
Qed.

Lemma segment_contained hdr slib : header_ok hdr -> contained_loader (SegmentLoader mmap hdr slib).
Proof.
  intros Hh. assert (Hat : forall i, keeps loads (seg_at i)) by (intros i; unfold seg_at; repeat loader_step).
  split; simpl.
  - intros n. by apply modify_loads.
  - intros i a n Hn. unfold seg_alloc. repeat loader_step.
  - unfold seg_finalize_segments. repeat first [apply Hat | loader_step].
  - intros ld n. unfold seg_segment_load. repeat loader_step.
  - intros ld n st st' a Hwf Ho Hn. unfold seg_segment_load, get, throw, mbind, M_bind, format_error.
    destruct (l_segs st !! _) as [p|]; [|done]. apply seg_pointer_run; [done|lia|done].
  - apply keeps_ret, _.
  - apply Hat.
Qed.

(** ** [loader_load] *)

Lemma field_range o n bs :
  Forall is_byte bs -> 0 <= le_val (slice o n bs) < 2 ^ (8 * Z.of_nat n).
Proof.
  intros H. pose proof (le_val_range _ (Forall_slice _ o n _ H)) as Hr.
  assert (Z.of_nat (length (slice o n bs)) <= Z.of_nat n) by (unfold slice; rewrite length_take; lia).
  pose proof (Z.pow_le_mono_r 2 (8 * Z.of_nat (length (slice o n bs))) (8 * Z.of_nat n)). lia.
Qed.

Lemma u32_at_range o bs : Forall is_byte bs -> 0 <= u32_at o bs < 2 ^ 32.
Proof. exact (field_range o 4 bs). Qed.

Lemma checked_read_bytes n st st' bs :
  checked_read file n st = (st', Ok bs) -> Forall is_byte bs.
Proof using Hfile.
  unfold checked_read. destruct (_ <? _)%nat; [done|]. intros [= _ <-]. by apply Forall_slice.
Qed.

Lemma load_header_loads : keeps loads (load_header file).
Proof. unfold load_header, check_value. repeat loader_step. Qed.

Lemma load_header_ok st st' hdr n : load_header file st = (st', Ok (hdr, n)) -> header_ok hdr.
Proof using Hfile.
  unfold load_header, mbind, M_bind. destruct (checked_read _ _ _) as [st1 [bs|e]] eqn:E; [|done].
  pose proof (Forall_drop _ sizeof_record _ (checked_read_bytes _ _ _ _ E)) as Hb.
  assert (Hh : header_ok (decode_header (drop sizeof_record bs))).
  { split; simpl; by apply u32_at_range. }
  clear Hb. cbv zeta. revert Hh. generalize (decode_header (drop sizeof_record bs)). intros h Hh.
  destruct (_ <? _); [done|].
  do 4 (destruct (check_value _ _ _) as [? [[]|?]]; [|done]).
  unfold Prelude.modify. destruct (negb (_ || _)); [done|]. destruct (negb _); [done|].
  by intros [= _ <- _].
Qed.

Lemma load_segments_loads l n : contained_loader l -> forall si, keeps loads (load_segments file l si n).
Proof.
  intros Hl. induction n as [|n IH]; intros si; simpl; repeat loader_step.
  apply (alloc_segment_loads l Hl).
  change 268435455 with (Z.ones 28). rewrite Z.land_ones by lia. apply Z.mod_pos_bound. lia.
Qed.

(** The data of a record goes where the pointer that was checked points. *)
Lemma load_data_loads l n :
  contained_loader l -> 0 <= n < 2 ^ 64 ->
  keeps loads (hd ← checked_read file sizeof_data;
               dst ← prepare_segment_load l (decode_data hd) n;
               _ ← checked_read_to file dst (Z.to_nat n); mret ([] : list qnx_reloc_item)).
Proof using Hfile.
  intros Hl Hn st st' r. unfold mbind, M_bind.
  destruct (checked_read _ _ _) as [st1 [hd|e]] eqn:E1;
    [|intros [= <- _]; by eapply checked_read_loads].
  destruct (prepare_segment_load _ _ _ _) as [st2 [dst|e]] eqn:E2;
    pose proof (transitivity (checked_read_loads _ _ _ _ _ E1) (segment_load_loads l Hl _ _ _ _ _ E2)) as H12;
    [|by intros [= <- _]].
  intros Hrun Hwf. refine (transitivity (R := loads) H12 _ Hwf).
  assert (Hr : guest_range (l_space st2) dst n).
  { destruct (decide (0 < n)); [|intros k; lia].
    apply (segment_load_range l Hl (decode_data hd) n st1 st2 dst); [|..|lia|exact E2].
    - exact (proj1 (checked_read_loads _ _ _ _ _ E1 Hwf)).
    - apply u32_at_range. by eapply checked_read_bytes. }
  revert Hrun. unfold checked_read_to. set (st3 := set_pos _ st2). set (bs := slice _ _ _).
  assert (Hlen : Z.of_nat (length bs) <= n) by (unfold bs, slice; rewrite length_take; lia).
  assert (H3 : loads st2 (set_mem (store (l_mem st2) dst bs) st3)).
  { etrans; [apply (loads_same st2 st3); done|]. by apply (loads_store st3 dst n). }
  destruct (_ <? _)%nat; by intros [= <- _].
Qed.

Lemma load_record_loads l rec :
  contained_loader l -> 0 <= data_nbytes rec < 2 ^ 64 -> keeps loads (load_record file l rec).
Proof using Hfile.
  intros Hl Hn. unfold load_record. destruct (_ =? _); [repeat loader_step|].
  destruct (_ =? _); [repeat loader_step|]. destruct (_ =? _); [|repeat loader_step].
  destruct (Z.ltb_spec (data_nbytes rec) (Z.of_nat sizeof_data)); [repeat loader_step|].
  apply (load_data_loads l (data_nbytes rec - Z.of_nat sizeof_data) Hl). unfold sizeof_data in *. lia.
Qed.

Lemma load_records_loads l fuel : contained_loader l -> keeps loads (load_records file fuel l).
Proof using Hfile.
  intros Hl. induction fuel as [|fuel IH]; [apply keeps_throw, _|]. simpl.
  apply (keeps_bind_post _ (Forall is_byte)); [apply checked_read_loads|apply checked_read_bytes|].
  intros bs Hb. cbv zeta.
  apply keeps_bind; [apply _| |intros rs; repeat loader_step].
  apply (load_record_loads l _ Hl). pose proof (field_range 2 2 bs Hb : _ <= _ < 2 ^ 16) as Hr.
  change (data_nbytes (decode_record bs)) with (le_val (slice 2 2 bs)). lia.
Qed.

Definition reloc_ok (r : qnx_reloc_item) : Prop := 0 <= r_reloc_offset r < 2 ^ 32.

Lemma decode_relocs_ok n bs : Forall is_byte bs -> Forall reloc_ok (decode_relocs n bs).
Proof.
  revert bs. induction n as [|n IH]; intros bs Hb; simpl; [done|].
  constructor; [by apply (u32_at_range 2)|]. by apply IH, Forall_drop.
Qed.

Lemma load_record_relocs l rec st st' rs :
  load_record file l rec st = (st', Ok rs) -> Forall reloc_ok rs.
Proof using Hfile.
  unfold load_record, format_error, throw, mret, mbind, M_ret, M_bind. cbv zeta.
  destruct (_ =? _).
  { destruct (negb _); [done|]. destruct (checked_read _ _ _) as [st1 [bs|e]] eqn:E; [|done].
    intros [= _ <-]. by eapply decode_relocs_ok, checked_read_bytes. }
  destruct (_ =? _); [done|]. destruct (_ =? _); [|by intros [= _ <-]].
  destruct (_ <? _); [done|]. destruct (checked_read _ _ _) as [st1 [hd|e]]; [|done].
  destruct (prepare_segment_load _ _ _ _) as [st2 [dst|e]]; [|done].
  destruct (checked_read_to _ _ _ _) as [st3 [[]|e]]; [|done]. by intros [= _ <-].
Qed.

Lemma load_records_relocs l fuel : forall st st' rs,
  load_records file fuel l st = (st', Ok rs) -> Forall reloc_ok rs.
Proof using Hfile.
  induction fuel as [|fuel IH]; intros st st' rs; [done|]. simpl. unfold mbind, M_bind.
  destruct (checked_read _ _ _) as [st1 [bs|e]]; [|done].
  destruct (load_record _ _ _ _) as [st2 [r1|e]] eqn:E1; [|done]. apply load_record_relocs in E1.
  destruct (_ =? _); [by intros [= _ <-]|].
  destruct (load_records _ _ _ _) as [st3 [r2|e]] eqn:E2; [|done]. apply IH in E2.
  intros [= _ <-]. by apply Forall_app.
Qed.

Lemma create_descriptors_loads l hdr types :
  contained_loader l -> forall si, keeps loads (create_descriptors modify_ldt l hdr si types).
Proof.
  intros Hl. induction types as [|t types IH]; intros si; simpl; [repeat loader_step|].
  apply keeps_bind; [apply _|apply (get_segment_loads l Hl)|]. intros seg. repeat loader_step.
Qed.

Lemma relocate_loads l selectors relocs :
  contained_loader l -> Forall reloc_ok relocs ->
  keeps loads (relocate l selectors relocs).
Proof.
  intros Hl Hr. induction Hr as [|r relocs Hr _ IH]; cbn [relocate]; [repeat loader_step|].
  apply keeps_bind; [apply _|apply (get_segment_loads l Hl)|]. intros seg st st' x.
  unfold mbind, M_bind. destruct (seg_pointer _ _ _ _) as [st1 [what|e]] eqn:E;
    pose proof (seg_pointer_loads _ _ _ _ _ _ E) as H1; [|by intros [= <- _]].
  intros Hrun Hwf. refine (transitivity (R := loads) H1 _ Hwf).
  assert (Hg : guest_range (l_space st1) what 2).
  { unfold reloc_ok in Hr. apply (seg_pointer_run seg (r_reloc_offset r) 2 st st1 what); lia || done. }
  revert Hrun.
  unfold get. destruct (selectors !! _) as [v|]; [|by intros [= <- _]]. unfold Prelude.modify.
  intros Hrun. etrans; [|by eapply IH]. apply (loads_store st1 what 2 (le_bytes 2 v)); [done|].
  by rewrite length_le_bytes.
Qed.

Lemma loader_load_loads slib : keeps loads (loader_load mmap mprotect modify_ldt file slib).
Proof using Hmmap Hfile.
  unfold loader_load.
  apply (keeps_bind_post _ (fun a => header_ok (fst a))); [apply load_header_loads|..].
  { intros st st' [hdr n] E. by eapply load_header_ok. }
  intros [hdr n] Hh. cbv zeta. simpl in Hh.
  set (l := if has _ _ then _ else _).
  assert (Hl : contained_loader l)
    by (subst l; destruct (has _ _); [by apply flat_contained|by apply segment_contained]).
  clearbody l. apply keeps_bind; [apply _|apply (prepare_segments_loads l Hl)|]. intros _.
  apply keeps_bind; [apply _|by apply load_segments_loads|]. intros types.
  apply keeps_bind; [apply _|apply (finalize_segments_loads l Hl)|]. intros _.
  apply (keeps_bind_post _ (Forall reloc_ok)); [by apply load_records_loads|apply load_records_relocs|].
  intros relocs Hr. apply keeps_bind; [apply _|apply (finalize_loading_loads l Hl)|]. intros _.
  apply keeps_bind; [apply _|by apply create_descriptors_loads|]. intros sels.
  by apply relocate_loads.
Qed.
End Loaders.

(** ** The process *)

Definition process_loads (p p' : Process) : Prop :=
  wf_space (p_space p) ->
  wf_space (p_space p') /\ g_regs (p_guest p') = g_regs (p_guest p) /\
  (forall x, guest_byte (p_space p) x -> guest_byte (p_space p') x) /\
  only_guest (p_space p') (fun _ => False) (g_mem (p_guest p)) (g_mem (p_guest p')).

#[export] Instance process_loads_pre : PreOrder process_loads.
Proof.
  split; [intros p H; split; [done|split; [done|split; [done|by intros x _ _]]]|].
  intros p1 p2 p3 H12 H23 H1.
  destruct (H12 H1) as (H2 & Hr & Hg & Hm), (H23 H2) as (H3 & Hr' & Hg' & Hm').
  split; [done|]. split; [congruence|]. split; [auto|]. intros x Hx He. rewrite Hm', Hm; auto.
Qed.

Lemma process_loads_same p p' :
  p_space p' = p_space p -> p_guest p' = p_guest p -> process_loads p p'.
Proof.
  intros Hs Hg H. rewrite Hs, Hg. split; [done|]. split; [done|]. split; [done|]. by intros x _ _.
Qed.

Section Programs.
Context (mmap : Z -> Z -> Z -> Z -> option Z) (Hmmap : mmap_law mmap).
Context (mprotect : Z -> Z -> Z -> bool) (modify_ldt : user_desc -> bool).
Context (open_file : cstring -> option (list Z)) (realpath : cstring -> option cstring).
Context (Hopen : forall path file, open_file path = Some file -> Forall is_byte file).
Context (garbage : Z).

Lemma load_file_loads file slib li :
  Forall is_byte file -> keeps process_loads (load_file mmap modify_ldt mprotect file slib li).
Proof using Hmmap.
  intros Hf p p' r. unfold load_file. destruct (loader_load _ _ _ _ _ _) as [st x] eqn:E.
  intros [= <- _] Hwf.
  destruct (loader_load_loads mmap Hmmap mprotect modify_ldt file Hf slib _ _ _ E Hwf) as (Hw & Hg & Hm).
  split; [exact Hw|]. split; [done|]. split; [exact Hg|exact Hm].
Qed.

Lemma process_modify_loads g :
  (forall p, p_space (g p) = p_space p) -> (forall p, p_guest (g p) = p_guest p) ->
  keeps process_loads (Prelude.modify g).
Proof. intros Hs Hg. apply keeps_modify. intros p. by apply process_loads_same. Qed.

Ltac load_step := first
  [ keeps_step | by apply process_modify_loads | apply load_file_loads; by eapply Hopen ].

Lemma load_library_loads arg :
  keeps process_loads (load_library mmap modify_ldt mprotect open_file garbage arg).
Proof using Hmmap Hopen.
  unfold load_library. destruct (parse _ _ _) as [a r].
  apply keeps_bind; [apply _|apply keeps_lift, _|]. intros _. cbv zeta.
  destruct (_ && _); [apply keeps_throw, _|]. apply keeps_bind; [apply _|apply keeps_get, _|]. intros p.
  destruct (_ || _); [apply keeps_ret, _|].
  destruct (open_file _) as [file|] eqn:E; repeat load_step.
Qed.

Lemma load_executable_loads path :
  keeps process_loads (load_executable mmap modify_ldt mprotect open_file realpath path).
Proof using Hmmap Hopen.
  unfold load_executable. cbv zeta. destruct (open_file _) as [file|] eqn:E; [|apply keeps_throw, _].
  apply keeps_bind; [apply _|apply keeps_get, _|]. intros p.
  apply keeps_bind; [apply _|apply keeps_lift, _|]. intros ii.
  apply keeps_bind; [apply _|repeat load_step|]. intros [ii' current].
  apply keeps_bind; [apply _|by apply process_modify_loads|]. intros _.
  simpl. destruct (open_file (host_path current)) as [file'|] eqn:E'; repeat load_step.
Qed.
End Programs.

(** ** Property *)

Lemma load_libraries_loads mmap mprotect modify_ldt open_file garbage libs :
  mmap_law mmap -> (forall path file, open_file path = Some file -> Forall is_byte file) ->
  forall b b' r, load_libraries mmap modify_ldt mprotect open_file garbage libs b = (b', r) ->
  process_loads (b_process b) (b_process b').
Proof.
  intros Hm Ho. induction libs as [|a libs IH]; intros b b' r; simpl; [by intros [= <- _]|].
  unfold mbind, M_bind, on_process.
  destruct (load_library _ _ _ _ _ _ _) as [p [[]|e]] eqn:E;
    apply (load_library_loads mmap Hm) in E; try done; [|by intros [= <- _]].
  intros Hrun. etrans; [exact E|exact (IH _ _ _ Hrun)].
Qed.

(** No file escapes the loader: whatever the bytes of the program, of its
    interpreter and of the libraries are - sizes, segment and heap indices, data
    offsets, relocations -, whether loading succeeds or ends in an exception,
    the address space stays well formed, the registers are untouched, the memory
    the guest had stays there, and every byte of host memory outside the guest's
    segments is as before. *)
Theorem load_contained mmap mprotect modify_ldt open_file realpath garbage path libs b b' r :
  mmap_law mmap -> (forall name file, open_file name = Some file -> Forall is_byte file) ->
  wf_space (p_space (b_process b)) ->
  (_ ← on_process (load_executable mmap modify_ldt mprotect open_file realpath path);
   load_libraries mmap modify_ldt mprotect open_file garbage libs) b = (b', r) ->
  wf_space (p_space (b_process b')) /\
  g_regs (p_guest (b_process b')) = g_regs (p_guest (b_process b)) /\
  (forall x, guest_byte (p_space (b_process b)) x -> guest_byte (p_space (b_process b')) x) /\
  (forall x, ~ guest_byte (p_space (b_process b')) x ->
     peek (g_mem (p_guest (b_process b'))) x = peek (g_mem (p_guest (b_process b))) x).
Proof.
  intros Hm Ho Hwf Hrun.
  assert (H : process_loads (b_process b) (b_process b')).
  { revert Hrun. unfold mbind at 1, M_bind at 1, on_process.
    destruct (load_executable _ _ _ _ _ _ _) as [p [[]|e]] eqn:E;
      apply (load_executable_loads mmap Hm) in E; try done; [|by intros [= <- _]].
    intros Hrun. apply (load_libraries_loads _ _ _ _ _ _ Hm Ho) in Hrun.
    exact (transitivity (R := process_loads) E Hrun). }
  destruct (H Hwf) as (H1 & H2 & H3 & H4). split; [done|]. split; [done|]. split; [done|].
  intros x Hx. exact (H4 x Hx (fun F => F)).
Qed.

(** Every file is the small flat program of [Loader]. *)
Definition demo_open (_ : cstring) : option (list Z) := Some demo_file.

Lemma load_contained_witness :
  mmap_law demo_mmap /\
  exists b', (_ ← on_process (load_executable demo_mmap (fun _ => true) (fun _ _ _ => true) demo_open Some
                               (mk_host_path (lit "/bin/prog") true));
              load_libraries demo_mmap (fun _ => true) (fun _ _ _ => true) demo_open 0
                [lit "lib"; lit "lib2,sys,entry=16"]) demo_boot = (b', Ok ()) /\
    wf_space (p_space (b_process b')).
Proof.
  split; [exact demo_mmap_law|].
  destruct ((_ ← on_process _; _) demo_boot) as [b' r] eqn:E.
  assert (Hr : r = Ok ()) by (apply (f_equal snd) in E; vm_compute in E; by symmetry).
  subst r. exists b'. split; [done|].
  refine (proj1 (load_contained demo_mmap (fun _ _ _ => true) (fun _ => true) demo_open Some 0 _ _ demo_boot b'
                   _ demo_mmap_law _ wf_demo_space E)).
  intros name file [= <-]. repeat (constructor; [split; [discriminate|reflexivity]|]). constructor.
Defined.
