(* ===== verification/LoadHeap.v ===== *)
(** * LoadHeap: what the loader leaves for the startup state

    A second look at the loader, at the shape of what it builds.  The startup
    heap is placed behind the program's data in the segment the stack selector
    names; that it ends up inside that segment follows from the segment having
    no holes behind the heap's start, and from everything loaded later leaving
    segments and descriptors in place. *)

From S2P Require Import Prelude Types Memory IdMap CmdOpts PathMapper GuestContext Emu Process Sandbox LoadSpec Segment AddressSpace Loader.

(** ** Segments without holes *)

(** Behind [h] every page is there. *)
Definition solid (h : Z) (s : Segment) : Prop :=
  forall o, 0 <= o -> h <= o -> o < m_paged_size s -> mapped s o.

(** Mapped bytes stay, no hole appears, a reservation is for ever. *)
Definition seg_stays (s s' : Segment) : Prop :=
  Segment.wf s ->
  Segment.wf s' /\ (forall o, mapped s o -> mapped s' o /\ m_location s' = m_location s) /\
  (forall h, solid h s -> solid h s') /\ (0 < m_reserved s -> m_reserved s' = m_reserved s).

#[export] Instance seg_stays_pre : PreOrder seg_stays.
Proof.
  split; [intros s Hw; split_and!; done|]. intros s1 s2 s3 H12 H23 Hw.
  destruct (H12 Hw) as (Hw2 & Hm & Hs & Hr). destruct (H23 Hw2) as (Hw3 & Hm' & Hs' & Hr').
  split; [done|]. split; [|split; [auto|]].
  - intros o Ho. destruct (Hm o Ho) as [Ho2 E]. destruct (Hm' o Ho2) as [Ho3 E']. split; [done|congruence].
  - intros H. rewrite Hr', Hr; [done|done|]. by rewrite Hr.
Qed.

Lemma push_pages_solid h n s :
  Segment.wf s -> 0 <= n -> n mod MemOps.PAGE_SIZE = 0 -> m_paged_size s + n < 2 ^ 64 ->
  solid h s -> solid h (push_pages true n s).
Proof.
  intros Hw Hn Ha Hlt Hs o Ho Hh. simpl. rewrite wrapu_small by (unfold Segment.wf in Hw; lia). intros Hlo.
  destruct (Z.lt_ge_cases o (m_paged_size s)); [apply mapped_push_old; auto|].
  by apply mapped_push_new.
Qed.

Lemma push_pages_stays n s :
  0 <= n -> n mod MemOps.PAGE_SIZE = 0 -> m_paged_size s + n <= m_reserved s ->
  seg_stays s (push_pages true n s).
Proof.
  intros Hn Ha Hr Hw. destruct (push_pages_grows true n s Hn Ha Hr Hw) as [Hw' Hm].
  split; [done|]. split; [done|]. split; [|done]. intros h. apply push_pages_solid; try done.
  unfold Segment.wf in Hw. lia.
Qed.

Lemma set_limit_stays l s : 0 <= l <= m_paged_size s -> seg_stays s (set_limit l s).
Proof. intros Hl Hw. split; [by apply wf_set_limit|]. split; [done|]. by split. Qed.

Section Segments.
Context (mmap : Z -> Z -> Z -> Z -> option Z) (Hmmap : mmap_law mmap).
Context (mprotect : Z -> Z -> Z -> bool).

Lemma grow_paged_stays prot n : 0 <= n < 2 ^ 43 -> keeps seg_stays (grow_paged mmap prot n).
Proof.
  intros Hn s s' r. unfold grow_paged, Prelude.modify, mbind, M_bind.
  destruct (grow_paged_internal mmap prot n s) as [s1 r1] eqn:Hg. intros Hrun Hw.
  apply grow_paged_internal_inv in Hg as [[-> [e ->]]|(-> & -> & Ha & Hle)]; [| |done|lia].
  { injection Hrun as <- _. by apply (reflexivity (R := seg_stays)). }
  injection Hrun as <- _. pose proof (push_pages_stays n s ltac:(lia) Ha Hle) as Hp.
  apply (transitivity (R := seg_stays) Hp); [|done]. intros Hw'. apply set_limit_stays; [|done].
  unfold Segment.wf, paged_size in *. simpl in *. lia.
Qed.

Lemma grow_bytes_stays n : 0 <= n < 2 ^ 44 -> keeps seg_stays (grow_bytes mmap n).
Proof.
  intros Hn s s' r Hrun Hw. pose proof (grow_bytes_inv _ _ _ _ _ Hw Hn Hrun) as (Hw' & Hl & Hr & Hm & _).
  split; [done|]. split; [auto|]. split; [|done]. intros h Hs. revert Hrun.
  unfold grow_bytes, get, throw, Prelude.modify, mbind, M_bind.
  assert (E : u64 (n + m_limit_size s) = n + m_limit_size s) by (apply wrapu_small; unfold Segment.wf in Hw; lia).
  rewrite E. destruct (_ <? _) eqn:E1; [by intros [= <- _]|]. to_prop.
  destruct (_ <? _) eqn:E2; [|by intros [= <- _]]. to_prop.
  destruct (grow_bytes_pages s n Hw ltac:(lia) ltac:(lia) ltac:(lia)) as (G1 & G2 & G3 & _).
  rewrite E in *. set (extra := u64 (MemOps.align_page_up _ - _)) in *.
  destruct (grow_paged_internal mmap _ extra s) as [s1 r1] eqn:Hg.
  apply grow_paged_internal_inv in Hg as [[-> [e ->]]|(-> & -> & _)]; [by intros [= <- _]| |done|lia].
  intros [= <- _]. apply push_pages_solid; try done; unfold Segment.wf in Hw; lia.
Qed.

Lemma grow_bytes_64capped_stays n : 0 <= n < 2 ^ 43 -> keeps seg_stays (grow_bytes_64capped mmap n).
Proof.
  intros Hn s s' r Hrun Hw. revert Hrun. unfold grow_bytes_64capped, get, mbind, M_bind.
  destruct (m_limit_size s <? _) eqn:E; [|intros [= <- _]; by apply (reflexivity (R := seg_stays))].
  intros Hrun. eapply grow_bytes_stays; [|exact Hrun|exact Hw].
  to_prop. unfold Segment.wf in Hw. change (MemOps.kilo 64) with 65536 in *. lia.
Qed.

(** Nothing was reserved before, so no page was there. *)
Lemma reserve_stays n : 0 <= n < 2 ^ 43 -> keeps seg_stays (reserve mmap n).
Proof using Hmmap.
  intros Hn s s' r Hrun Hw. destruct (reserve_grows mmap Hmmap n Hn s s' r Hrun Hw) as [Hw' Hm].
  split; [done|]. split; [done|]. revert Hrun. unfold reserve, get, lift, throw, put, mbind, M_bind.
  destruct (m_reserved s =? 0) eqn:Er; simpl; [|by intros [= <- _]]. to_prop.
  destruct (mmap _ _ _ _); intros [= <- _]; [|done]. split; [|lia]. intros h _ o. simpl. lia.
Qed.

Lemma change_access_stays prot o n : keeps seg_stays (Segment.change_access mprotect prot o n).
Proof. unfold Segment.change_access. keeps. Qed.

Lemma make_shared_stays : keeps seg_stays make_shared.
Proof. intros s s' r [= <- _] Hw. split; [exact Hw|]. by split. Qed.
End Segments.

#[export] Hint Resolve change_access_stays make_shared_stays : keeps.

(** ** Address spaces *)

(** Every segment stays, and every descriptor keeps its slot. *)
Definition space_stays (sp sp' : Space) : Prop :=
  wf_space sp ->
  wf_space sp' /\
  (forall r s, segs sp !! r = Some s -> exists s', segs sp' !! r = Some s' /\ seg_stays s s') /\
  (forall i sd, at_ (m_segment_descriptors sp) i = Some sd -> at_ (m_segment_descriptors sp') i = Some sd).

#[export] Instance space_stays_pre : PreOrder space_stays.
Proof.
  split.
  - intros sp Hw. split; [done|]. split; [|done]. intros r s Hs. by exists s.
  - intros s1 s2 s3 H12 H23 Hw. destruct (H12 Hw) as (Hw2 & Hs & Hd). destruct (H23 Hw2) as (Hw3 & Hs' & Hd').
    split; [done|]. split; [|auto]. intros r s Hr. destruct (Hs r s Hr) as (t & Ht & Hst).
    destruct (Hs' r t Ht) as (u & Hu & Htu). exists u. split; [done|by etrans].
Qed.

Lemma space_stays_grows sp sp' : space_stays sp sp' -> space_grows sp sp'.
Proof.
  intros H Hw. destruct (H Hw) as (Hw' & Hs & _). split; [done|]. split.
  - intros x (r & s & o & Hr & Ho & ->).
    destruct (Hs r s Hr) as (s' & Hr' & Hst). destruct (Hst (proj1 Hw _ _ Hr)) as (_ & Hm & _).
    destruct (Hm o Ho) as [Ho' Hl]. exists r, s', o. by rewrite Hl.
  - intros r s Hr. destruct (Hs r s Hr) as (s' & Hr' & Hst). destruct (Hst (proj1 Hw _ _ Hr)) as (_ & Hm & _).
    exists s'. split; [done|]. apply Hm.
Qed.

Lemma same_segs_stays sp sp' :
  segs sp' = segs sp -> (wf_space sp -> wf_space sp') ->
  (forall i sd, at_ (m_segment_descriptors sp) i = Some sd -> at_ (m_segment_descriptors sp') i = Some sd) ->
  space_stays sp sp'.
Proof.
  intros Hs Hw Hd H. split; [by apply Hw|]. split; [|done]. intros r s Hr. exists s. by rewrite Hs.
Qed.

(** Any segment in a slot nobody used. *)
Definition with_segment (s : Segment) (sp : Space) : Space :=
  mkSpace (<[next_seg sp := s]> (segs sp)) (S (next_seg sp)) (next_seg sp :: AddressSpace.m_segments sp)
    (m_segment_descriptors sp) (ldt sp).

Lemma with_segment_stays s sp : Segment.wf s -> space_stays sp (with_segment s sp).
Proof.
  intros Hs (H1 & H2 & H3 & H4 & H5). split.
  - split; [|split; [|split; [done|split; [done|]]]]; simpl.
    + intros r2 s2. rewrite lookup_insert. case_decide; [by intros [= <-]|apply H1].
    + intros r2. rewrite lookup_insert. case_decide; [subst; lia|]. intros Hx. apply H2 in Hx. lia.
    + intros j sd Hj. destruct (H5 j sd Hj) as [Hid Hseg]. split; [done|]. rewrite lookup_insert. by case_decide.
  - split; [|done]. intros r t Hr. exists t. simpl. rewrite lookup_insert_ne; [done|].
    intros <-. assert (next_seg sp < next_seg sp)%nat; [|lia]. apply H2. by rewrite Hr.
Qed.

Lemma allocate_segment_stays : keeps space_stays allocate_segment.
Proof. intros sp sp' r [= <- _]. exact (with_segment_stays Segment_new sp wf_segment_new). Qed.

(** A segment replaced by one that stays. *)
Lemma put_segment_stays r s s' sp :
  segs sp !! r = Some s -> seg_stays s s' -> space_stays sp (put_segment r s' sp).
Proof.
  intros Hr Hst (H1 & H2 & H3 & H4 & H5). split.
  - split; [|split; [|split; [done|split; [done|]]]]; simpl.
    + intros r2 s2. rewrite lookup_insert. case_decide; [intros [= <-]; by apply Hst, (H1 r)|apply H1].
    + intros r2. rewrite lookup_insert. case_decide; [subst; intros _; apply H2; by rewrite Hr|apply H2].
    + intros j sd Hj. destruct (H5 j sd Hj) as [Hid Hseg]. split; [done|]. rewrite lookup_insert. by case_decide.
  - split; [|done]. intros r2 t Ht. simpl. rewrite lookup_insert. case_decide as E; [|by exists t].
    subst r2. exists s'. split; [done|]. by rewrite Hr in Ht; injection Ht as <-.
Qed.

Section Space.
Context (modify_ldt : user_desc -> bool).

Lemma publish_stays ud : keeps space_stays (publish modify_ldt ud).
Proof.
  intros sp sp' r. unfold publish. destruct (modify_ldt ud); intros [= <- _]; [|done]. by apply same_segs_stays.
Qed.

Lemma update_descriptors_stays sd : keeps space_stays (update_descriptors modify_ldt sd).
Proof.
  unfold update_descriptors. apply keeps_bind; [apply _|apply keeps_get, _|]. intros sp.
  destruct (segs sp !! sd_seg sd); [apply publish_stays|apply keeps_throw, _].
Qed.

Lemma installed_stays sp sp' i sd : installed sp sp' i sd -> space_stays sp sp'.
Proof.
  intros Hin. pose proof Hin as (_ & _ & Hfree & Hsegs & _ & _ & _ & Hat & _).
  apply same_segs_stays; [done|intros Hw; by eapply installed_wf|].
  intros j sd' Hj. rewrite Hat. case_decide as E; [subst j; congruence|done].
Qed.

Lemma abs_at_stays {A} (m m' : IdMap A) i x : abs m' = abs m -> at_ m i = Some x -> at_ m' i = Some x.
Proof. intros E H. by rewrite <- abs_lookup, E, abs_lookup. Qed.

Lemma create_stays access mem bits : keeps space_stays (create_segment_descriptor modify_ldt access mem bits).
Proof.
  intros sp sp' r Hrun Hw. destruct (create_inv _ _ _ _ _ _ _ Hw Hrun)
    as [(i & sd & _ & Hin & _)|(e & _ & Hw' & Hs & _ & Habs)].
  - by apply (installed_stays _ _ _ _ Hin).
  - apply (same_segs_stays sp sp'); [done|done|intros i sd; by apply abs_at_stays|done].
Qed.

Lemma create_at_stays access mem bits id :
  keeps space_stays (create_segment_descriptor_at modify_ldt access mem bits id).
Proof.
  intros sp sp' r. unfold create_segment_descriptor_at, create_with, alloc_exactly_at.
  assert (Hsame : space_stays sp (set_descriptors (m_segment_descriptors sp) sp)) by by apply same_segs_stays.
  destruct (Nat.leb_spec (m_max (m_segment_descriptors sp)) (Z.to_nat id)) as [_|Hlt]; [by intros [= <- _]|].
  destruct (at_ _ _) as [x|] eqn:Efree; [by intros [= <- _]|].
  set (i := Z.to_nat id) in *. set (creator := construct modify_ldt sp access mem bits).
  destruct (emplace i creator (m_segment_descriptors sp)) as [m o] eqn:E. intros Hrun Hw. revert Hrun.
  pose proof Hw as (H1 & H2 & H3 & H4 & H5).
  destruct (emplace_spec (m_segment_descriptors sp) i creator H3 Hlt) as (m' & E' & Hwm & Hmax & Habs).
  rewrite E' in E. injection E as -> <-. destruct (creator i) as [sd|e] eqn:Ec; intros [= <- _].
  - destruct (installed_intro modify_ldt sp m i access mem bits sd) as (Hin & _); try done; [lia|by rewrite abs_lookup|congruence|].
    by apply (installed_stays _ _ _ _ Hin).
  - apply (same_segs_stays sp _); [done| |intros j sd; by apply abs_at_stays|done].
    intros _. split; [done|]. split; [done|]. split; [done|]. split; [simpl; congruence|].
    intros j sd. simpl. rewrite <- abs_lookup, Habs, abs_lookup. apply H5.
Qed.
End Space.

#[export] Hint Resolve publish_stays update_descriptors_stays create_stays create_at_stays
  allocate_segment_stays : keeps.

(** ** The loader's steps *)

Notation table st := (m_segment_descriptors (l_space st)).

(** Until the descriptors are created: the selectors of the program are not set. *)
Definition builds (st st' : LoaderState) : Prop :=
  space_stays (l_space st) (l_space st') /\
  table st' = table st /\ ss (l_info st') = ss (l_info st) /\ cs (l_info st') = cs (l_info st).

(** Once the segments are laid out: the loader's own data do not change. *)
Definition settled (st st' : LoaderState) : Prop :=
  builds st st' /\ l_info st' = l_info st /\ l_flat_mem st' = l_flat_mem st /\ l_segs st' = l_segs st.

#[export] Instance builds_pre : PreOrder builds.
Proof.
  split; [intros st; split_and!; done|]. intros s1 s2 s3 (H1 & H2 & H3 & H4) (H5 & H6 & H7 & H8).
  split_and!; [by etrans|congruence..].
Qed.

#[export] Instance settled_pre : PreOrder settled.
Proof.
  split; [intros st; split_and!; done|]. intros s1 s2 s3 (H1 & H2 & H3 & H4) (H5 & H6 & H7 & H8).
  split_and!; [by etrans|congruence..].
Qed.

Lemma settled_same st st' :
  l_space st' = l_space st -> l_info st' = l_info st -> l_flat_mem st' = l_flat_mem st ->
  l_segs st' = l_segs st -> settled st st'.
Proof. intros Hs Hi Hf Hg. split; [|done]. unfold builds. by rewrite Hs, Hi. Qed.

Lemma keeps_weaken {S A} (R R' : S -> S -> Prop) (m : M S A) :
  (forall s s', R s s' -> R' s s') -> keeps R m -> keeps R' m.
Proof. intros H Hm s s' r Hrun. by eapply H, Hm. Qed.

Lemma settled_builds {A} (m : M LoaderState A) : keeps settled m -> keeps builds m.
Proof. apply keeps_weaken. by intros s s' []. Qed.

Lemma modify_builds g :
  (forall st, l_space (g st) = l_space st) -> (forall st, ss (l_info (g st)) = ss (l_info st)) ->
  (forall st, cs (l_info (g st)) = cs (l_info st)) -> keeps builds (Prelude.modify g).
Proof. intros Hs H1 H2. apply keeps_modify. intros st. unfold builds. by rewrite Hs, H1, H2. Qed.

Lemma on_seg_settled {A} p (op : M Segment A) : keeps seg_stays op -> keeps settled (on_seg p op).
Proof.
  intros Hop st st' r. unfold on_seg. destruct p as [q|]; simpl; [|by intros [= <- _]].
  destruct (segs (l_space st) !! q) as [s|] eqn:Es; simpl; [|by intros [= <- _]].
  destruct (op s) as [s' o] eqn:Eo. intros [= <- _]. split; [|done]. split; [|done].
  exact (put_segment_stays q s s' _ Es (Hop _ _ _ Eo)).
Qed.

Lemma seg_pointer_settled p off n : keeps settled (seg_pointer p off n).
Proof. apply on_seg_settled. keeps. Qed.
Lemma seg_size_settled p : keeps settled (seg_size p).
Proof. apply on_seg_settled. keeps. Qed.
Lemma seg_at_settled i : keeps settled (seg_at i).
Proof. unfold seg_at. keeps. Qed.
Lemma checked_read_settled file n : keeps settled (checked_read file n).
Proof. intros st st' r. unfold checked_read. destruct (_ <? _)%nat; intros [= <- _]; by apply settled_same. Qed.
Lemma checked_read_to_settled file dst n : keeps settled (checked_read_to file dst n).
Proof. intros st st' r. unfold checked_read_to. destruct (_ <? _)%nat; intros [= <- _]; by apply settled_same. Qed.

#[export] Hint Resolve seg_pointer_settled seg_size_settled seg_at_settled checked_read_settled
  checked_read_to_settled : keeps.

(** The segments the loader holds: solid from [h], and no larger than 512 MB. *)
Definition owns (h : Z) (st : LoaderState) (q : nat) : Prop :=
  exists s, segs (l_space st) !! q = Some s /\ solid h s /\ 0 < m_reserved s <= 2 ^ 29.

Lemma owns_stays h st st' q :
  wf_space (l_space st) -> space_stays (l_space st) (l_space st') -> owns h st q -> owns h st' q.
Proof.
  intros Hw Hst (s & Hs & Hh & Hr). destruct (Hst Hw) as (_ & Hsegs & _).
  destruct (Hsegs _ _ Hs) as (s' & Hs' & Hss). destruct (Hss (proj1 Hw _ _ Hs)) as (_ & _ & Hsol & Hres).
  exists s'. split; [done|]. split; [by apply Hsol|]. rewrite Hres; lia.
Qed.

Definition held (st : LoaderState) (q : nat) : Prop := l_flat_mem st = Some q \/ Some q ∈ l_segs st.

(** The segments of the program and where the heap starts in them. *)
Definition laid_out (st : LoaderState) : Prop :=
  exists h, (forall q, held st q -> owns h st q) /\
    h <= heap_start (l_info st) /\ 0 <= heap_start (l_info st) <= 2 ^ 29.

Lemma laid_out_settled st st' :
  wf_space (l_space st) -> settled st st' -> laid_out st -> laid_out st'.
Proof.
  intros Hw [[Hst _] (Hi & Hf & Hg)] (h & Hown & Hh & Hb). exists h. rewrite Hi. split; [|done].
  intros q Hq. apply (owns_stays h st st' q Hw Hst), Hown. unfold held in *. by rewrite Hf, Hg in Hq.
Qed.

(** ** The flat image *)

(** A new segment in the flat loader's hands. *)
Definition fresh (st : LoaderState) (s : Segment) : LoaderState :=
  set_space (with_segment s (l_space st)) (set_flat_mem (next_seg (l_space st)) st).

Lemma on_seg_new {A} sp st s (op : M Segment A) :
  on_seg (Some (next_seg sp)) op (set_space (with_segment s sp) st) =
    (set_space (with_segment (fst (op s)) sp) st, snd (op s)).
Proof.
  unfold on_seg. simpl. rewrite lookup_insert_eq. simpl. destruct (op s) as [s' o]. simpl.
  unfold with_segment, set_space. simpl. by rewrite insert_insert_eq.
Qed.

Lemma fresh_builds st s : Segment.wf s -> builds st (fresh st s).
Proof. intros Hs. split; [|done]. by apply with_segment_stays. Qed.

Section Flat.
Context (mmap : Z -> Z -> Z -> Z -> option Z) (Hmmap : mmap_law mmap).

Lemma reserve_new n s r :
  0 <= n < 2 ^ 43 -> reserve mmap n Segment_new = (s, r) ->
  Segment.wf s /\ m_paged_size s = 0 /\ (r = Ok () -> m_reserved s = MemOps.align_page_up n).
Proof using Hmmap.
  intros Hn Hrun. destruct (reserve_grows mmap Hmmap n Hn _ _ _ Hrun wf_segment_new) as [Hw _].
  split; [done|]. revert Hrun. unfold reserve, get, lift, throw, put, mbind, M_bind. simpl.
  destruct (mmap _ _ _ _); by intros [= <- <-].
Qed.

(** The skipped pages at the front. *)
Lemma skip_first n s s' r :
  0 <= n < 2 ^ 43 -> Segment.wf s -> m_paged_size s = 0 -> skip_paged n s = (s', r) ->
  Segment.wf s' /\ m_reserved s' = m_reserved s /\ (r = Ok () -> m_paged_size s' = n /\ solid n s').
Proof.
  intros Hn Hw Hp Hrun. destruct (skip_paged_grows n Hn _ _ _ Hrun Hw) as [Hw' _]. split; [done|].
  revert Hrun. unfold skip_paged, lift, get, throw, Prelude.modify, mbind, M_bind.
  destruct (MemOps.is_page_aligned n); simpl; [|by intros [= <- <-]].
  destruct (_ <? _); intros [= <- <-]; [done|]. split; [done|]. intros _. simpl. rewrite Hp.
  rewrite wrapu_small by lia. split; [lia|]. intros o. simpl. rewrite Hp, wrapu_small; lia.
Qed.

Lemma grow_paged_size prot n s s' :
  0 <= n < 2 ^ 43 -> Segment.wf s -> grow_paged mmap prot n s = (s', Ok ()) ->
  m_paged_size s <= m_paged_size s' /\ m_limit_size s' = m_paged_size s'.
Proof.
  intros Hn Hw. unfold grow_paged, Prelude.modify, mbind, M_bind.
  destruct (grow_paged_internal mmap prot n s) as [s1 r1] eqn:Hg.
  apply grow_paged_internal_inv in Hg as [[-> [e ->]]|(-> & -> & Ha & Hle)]; [done| |done|lia].
  intros [= <-]. unfold paged_size. cbn [set_limit push_pages m_paged_size m_limit_size].
  rewrite wrapu_small by (unfold Segment.wf in Hw; lia). lia.
Qed.

(** What [flat_finalize_segments] leaves: nothing new, or one segment; and, when
    it succeeds, the heap behind the skipped pages. *)
Definition flat_result (st st' : LoaderState) (r : outcome unit) : Prop :=
  st' = st \/ (exists s, Segment.wf s /\ st' = fresh st s /\ r <> Ok ()) \/
  (exists s h i, Segment.wf s /\ st' = set_info i (fresh st s) /\
     ss i = ss (l_info st) /\ cs i = cs (l_info st) /\ solid h s /\ m_reserved s = 2 ^ 29 /\
     h <= heap_start i /\ 0 <= heap_start i <= 2 ^ 29).

Lemma flat_finalize_result hdr st st' r :
  header_ok hdr -> flat_finalize_segments mmap hdr st = (st', r) ->
  flat_result st st' r /\ (r = Ok () -> st' <> st).
Proof using Hmmap.
  intros [Hst Hhp]. unfold flat_finalize_segments, format_error, seg_size. cbv zeta.
  set (m_stack := u32 (MemOps.align_page_up (stack_nbytes hdr))).
  set (base := l_image_base).
  unfold get at 1, mbind at 1, M_bind at 1.
  destruct (_ <? _); [intros [= <- <-]; split; [by left|done]|].
  set (m_skip := u32 (base st - m_stack)). set (m_data := u32 (l_segment_pos st - base st)).
  assert (Hsk : 0 <= m_skip < 2 ^ 43) by apply u32_fits.
  assert (Hsk' : 0 <= m_stack < 2 ^ 43) by apply u32_fits.
  assert (Hda : 0 <= m_data < 2 ^ 43) by apply u32_fits.
  assert (Hfail : forall s e, Segment.wf s -> (fresh st s, Throw e) = (st', r) ->
            flat_result st st' r /\ (r = Ok () -> st' <> st)).
  { intros s e Hs [= <- <-]. split; [|done]. right; left. by exists s. }
  assert (Hstep : forall {A} (op : M Segment A) s (f : A -> M LoaderState unit) ,
    (on_seg (Some (next_seg (l_space st))) op ≫= f) (fresh st s) =
      match op s with (s', Ok a) => f a (fresh st s') | (s', Throw e) => (fresh st s', Throw e) end).
  { intros A op s f. unfold mbind, M_bind. unfold fresh at 1. rewrite on_seg_new. by destruct (op s) as [s' [a|e]]. }
  unfold on_space, mbind at 1, M_bind at 1. simpl.
  unfold mbind at 1, M_bind at 1, Prelude.modify at 1.
  change (set_flat_mem _ _) with (fresh st Segment_new). rewrite Hstep.
  destruct (reserve mmap _ Segment_new) as [s1 [[]|e]] eqn:E1;
    apply reserve_new in E1 as (W1 & P1 & R1); try (by split); [|by apply Hfail].
  specialize (R1 eq_refl). rewrite Hstep.
  destruct (skip_paged m_skip s1) as [s2 [[]|e]] eqn:E2;
    apply (skip_first _ _ _ _ Hsk W1 P1) in E2 as (W2 & R2 & S2); [|by apply Hfail].
  destruct (S2 eq_refl) as [P2 S2']. clear S2. rewrite Hstep.
  destruct (grow_paged mmap _ m_stack s2) as [s3 [[]|e]] eqn:E3;
    destruct (grow_paged_stays mmap _ _ Hsk' _ _ _ E3 W2) as (W3 & _ & S3 & R3); [|by apply Hfail].
  apply (grow_paged_size _ _ _ _ Hsk' W2) in E3 as [L3 _]. rewrite Hstep.
  destruct (grow_paged mmap _ m_data s3) as [s4 [[]|e]] eqn:E4;
    destruct (grow_paged_stays mmap _ _ Hda _ _ _ E4 W3) as (W4 & _ & S4 & R4); [|by apply Hfail].
  apply (grow_paged_size _ _ _ _ Hda W3) in E4 as [L4 Z4]. rewrite Hstep. simpl. rewrite Hstep.
  destruct (grow_paged mmap _ (heap_nbytes hdr) s4) as [s5 [[]|e]] eqn:E5;
    destruct (grow_paged_stays mmap _ (heap_nbytes hdr) ltac:(lia) _ _ _ E5 W4) as (W5 & _ & S5 & R5); [|by apply Hfail].
  destruct (l_flats st !! _) as [code|]; [|by apply Hfail].
  intros [= <- <-]. split; [|intros _ E; apply (f_equal (fun st => next_seg (l_space st))) in E; simpl in E; lia].
  right; right. exists s5, m_skip. eexists. split; [done|]. split; [reflexivity|].
  change (MemOps.align_page_up (MemOps.mega 512)) with (2 ^ 29) in R1.
  assert (R4' : m_reserved s4 = 2 ^ 29) by (rewrite R4, R3; lia).
  cbn [ss cs heap_start]. split; [done|]. split; [done|]. split; [auto|]. split; [rewrite R5; lia|].
  pose proof W4 as (V1 & V2 & _). unfold Segment.size. rewrite wrapu_small by lia. lia.
Qed.
End Flat.

(** ** The two loaders *)

(** What the loader holds is solid from the start, before the layout is final. *)
Definition held_solid (st : LoaderState) : Prop := forall q, held st q -> owns 0 st q.

Record shaping_loader (l : AbstractLoader) : Prop := {
  prepare_builds n : keeps builds (prepare_segments l n);
  alloc_builds i a n : 0 <= n < 2 ^ 28 -> keeps builds (alloc_segment l i a n);
  finalize_builds : keeps builds (finalize_segments l);
  load_settled ld n : keeps settled (prepare_segment_load l ld n);
  finalize_settled : keeps settled (finalize_loading l);
  get_settled i : keeps settled (get_segment l i);
  prepare_shape n st st' :
    held_solid st -> prepare_segments l n st = (st', Ok ()) -> held_solid st';
  alloc_shape i a n st st' :
    wf_space (l_space st) -> 0 <= n < 2 ^ 28 -> held_solid st ->
    alloc_segment l i a n st = (st', Ok ()) -> held_solid st';
  finalize_shape st st' :
    wf_space (l_space st) -> held_solid st -> finalize_segments l st = (st', Ok ()) -> laid_out st';
  get_shape i st st' q : get_segment l i st = (st', Ok (Some q)) -> st' = st /\ held st q
}.

Section Loaders.
Context (mmap : Z -> Z -> Z -> Z -> option Z) (Hmmap : mmap_law mmap).
Context (mprotect : Z -> Z -> Z -> bool) (modify_ldt : user_desc -> bool).
Context (file : list Z) (Hfile : Forall is_byte file).

Ltac fits := first [apply u32_fits | apply reservation_fits | unfold header_ok in *; lia | split; by vm_compute].
Ltac segment_op := apply on_seg_settled; first
  [ apply reserve_stays; [exact Hmmap|fits] | apply grow_paged_stays; fits
  | apply grow_bytes_stays; fits | apply grow_bytes_64capped_stays; fits | apply change_access_stays ].
Ltac settle := repeat first [ keeps_step | segment_op ].
Ltac build := repeat first [ keeps_step | apply settled_builds; solve [settle] | by apply modify_builds ].

Lemma on_space_builds : keeps builds (on_space allocate_segment).
Proof. intros st st' r [= <- _]. split; [|done]. exact (with_segment_stays Segment_new _ wf_segment_new). Qed.

Lemma flat_protect_settled l p : keeps settled (flat_protect mprotect l p).
Proof. induction l as [|s l IH]; simpl; settle. Qed.

(** Nothing new is held, and what is held stays. *)
Lemma held_solid_builds st st' :
  wf_space (l_space st) -> builds st st' -> (forall q, held st' q -> held st q) ->
  held_solid st -> held_solid st'.
Proof. intros Hw [Hs _] Hh H q Hq. apply (owns_stays 0 st st' q Hw Hs), H, Hh, Hq. Qed.

Lemma solid_weaken h h' s : h <= h' -> solid h s -> solid h' s.
Proof. intros Hh H o H1 H2 H3. apply H; lia. Qed.

Lemma flat_shapes hdr : header_ok hdr -> shaping_loader (FlatLoader mmap mprotect hdr).
Proof using Hmmap.
  intros Hh. split; simpl.
  - intros n. by apply modify_builds.
  - intros i a n _. by apply modify_builds.
  - intros st st' r Hrun. destruct (flat_finalize_result mmap Hmmap hdr _ _ _ Hh Hrun) as [Hres _].
    destruct Hres as [->|[(s & Hs & -> & _)|(s & h & i & Hs & -> & H1 & H2 & _)]].
    + done.
    + by apply fresh_builds.
    + destruct (fresh_builds st s Hs) as (B1 & B2 & _). by split.
  - intros ld n. unfold flat_segment_load, format_error. settle.
  - settle. apply flat_protect_settled.
  - settle.
  - intros n st st' H [= <-]. exact H.
  - intros i a n st st' _ _ H [= <-]. exact H.
  - intros st st' Hw Hs Hrun. destruct (flat_finalize_result mmap Hmmap hdr _ _ _ Hh Hrun) as [Hres Hne].
    destruct Hres as [->|[(s & _ & _ & F)|(s & h & i & Hws & -> & _ & _ & Hsol & Hr & Hhs & Hb)]];
      [by destruct (Hne eq_refl)|done|].
    exists (Z.max 0 h). split; [|simpl; lia]. intros q [[= <-]|Hq].
    + exists s. split; [exact (lookup_insert_eq _ _ _)|]. split; [|lia]. eapply solid_weaken; [|exact Hsol]. lia.
    + destruct (Hs q (or_intror Hq)) as (t & Ht & Hsolt & Hrt).
      destruct (with_segment_stays s (l_space st) Hws Hw) as (_ & Hk & _).
      destruct (Hk _ _ Ht) as (t' & Ht' & Hst). destruct (Hst (proj1 Hw _ _ Ht)) as (_ & _ & Hsol' & Hr').
      exists t'. split; [exact Ht'|]. split; [|rewrite Hr'; lia]. eapply solid_weaken; [|by apply Hsol']. lia.
  - intros i st st' q [= <- H]. split; [done|by left].
Qed.

(** A segment the segmented loader adds. *)
Lemma seg_alloc_owns hdr slib i a n st st' :
  0 <= n < 2 ^ 28 -> seg_alloc mmap hdr slib i a n st = (st', Ok ()) ->
  exists s, Segment.wf s /\ solid 0 s /\ 0 < m_reserved s <= 2 ^ 29 /\
    st' = set_segs (<[i := Some (next_seg (l_space st))]> (l_segs st))
            (set_space (with_segment s (l_space st)) st).
Proof using Hmmap.
  intros Hn. unfold seg_alloc, on_space. unfold mbind, M_bind. simpl.
  change (mkSpace (<[next_seg (l_space st) := Segment_new]> _) _ _ _ _)
    with (with_segment Segment_new (l_space st)).
  rewrite on_seg_new. destruct (reserve mmap _ Segment_new) as [s1 [[]|e]] eqn:E1; simpl; [|done].
  apply (reserve_new mmap Hmmap _ _ _ (reservation_fits hdr slib)) in E1 as (W1 & P1 & R1). specialize (R1 eq_refl).
  rewrite on_seg_new. destruct (grow_bytes mmap n s1) as [s2 [[]|e]] eqn:E2; simpl; [|done].
  destruct (grow_bytes_stays mmap n ltac:(lia) _ _ _ E2 W1) as (W2 & _ & S2 & R2).
  assert (Hr : 0 < MemOps.align_page_up (seg_reservation hdr slib) <= 2 ^ 29)
    by (unfold seg_reservation; destruct (negb _), slib; split; by vm_compute).
  intros [= <-]. exists s2. split; [done|]. split; [apply S2; intros o; lia|]. split; [rewrite R2; lia|done].
Qed.

Lemma seg_finalize_shape hdr st st' :
  header_ok hdr -> wf_space (l_space st) -> held_solid st -> seg_finalize_segments mmap hdr st = (st', Ok ()) -> laid_out st'.
Proof using Hmmap.
  intros Hh Hw Hs. unfold seg_finalize_segments, get, mbind, M_bind, format_error.
  destruct (_ <=? _); [done|]. destruct (_ <=? _); [done|].
  destruct (seg_at _ st) as [st1 [p1|e]] eqn:E1; [|done]. apply seg_at_settled in E1.
  destruct (seg_size p1 st1) as [st2 [n1|e]] eqn:E2; [|done]. apply seg_size_settled in E2.
  destruct (on_seg p1 _ st2) as [st3 [[]|e]] eqn:E3; [|done].
  apply (on_seg_settled p1 (grow_bytes_64capped mmap (stack_nbytes hdr))) in E3;
    [|apply grow_bytes_64capped_stays; unfold header_ok in Hh; lia].
  pose proof (transitivity E1 (transitivity E2 E3)) as H3. clear E1 E2 E3.
  destruct (seg_at _ st3) as [st4 [p4|e]] eqn:E4; [|done].
  assert (Hp4 : st4 = st3 /\ p4 ∈ l_segs st3).
  { revert E4. unfold seg_at, get, mbind, M_bind. destruct (l_segs st3 !! _) as [q|] eqn:Eq; [|done].
    intros [= <- <-]. split; [done|by eapply list_elem_of_lookup_2]. }
  destruct Hp4 as [-> Hp4].
  destruct (seg_size p4 st3) as [st5 [heap|e]] eqn:E5; [|done]. pose proof (seg_size_settled _ _ _ _ E5) as H5.
  assert (Hheap : 0 <= heap <= 2 ^ 29).
  { revert E5. unfold seg_size, on_seg. destruct p4 as [q|]; simpl; [|done].
    destruct H3 as [[Hst _] (_ & Hf & Hg)]. rewrite Hg in Hp4.
    destruct (owns_stays 0 st st3 q Hw Hst (Hs q (or_intror Hp4))) as (s & Hq & _ & Hr).
    rewrite Hq. simpl. intros [= _ <-]. destruct (Hst Hw) as [Hw3 _].
    pose proof (proj1 Hw3 _ _ Hq) as (W1 & W2 & _). unfold Segment.size. lia. }
  destruct (on_seg p4 _ st5) as [st6 [[]|e]] eqn:E6; [|done].
  apply (on_seg_settled p4 (grow_bytes_64capped mmap (heap_nbytes hdr))) in E6;
    [|apply grow_bytes_64capped_stays; unfold header_ok in Hh; lia].
  pose proof (transitivity H3 (transitivity H5 E6)) as [[Hst _] (_ & Hf & Hg)].
  intros [= <-]. exists 0. cbn [l_info heap_start set_info]. rewrite wrapu_small by lia. split; [|lia].
  intros q Hq. apply (owns_stays 0 st st6 q Hw Hst), Hs. unfold held in *. simpl in Hq. by rewrite Hf, Hg in Hq.
Qed.

Lemma segment_shapes hdr slib : header_ok hdr -> shaping_loader (SegmentLoader mmap hdr slib).
Proof using Hmmap.
  intros Hh. split; simpl.
  - intros n. by apply modify_builds.
  - intros i a n Hn. unfold seg_alloc. pose proof on_space_builds. build.
  - unfold seg_finalize_segments, format_error. build.
  - intros ld n. unfold seg_segment_load, format_error. settle.
  - settle.
  - settle.
  - intros n st st' H [= <-] q [Hq|Hq]; [apply H; by left|].
    simpl in Hq. apply elem_of_replicate in Hq as [? _]. done.
  - intros i a n st st' Hw Hn H Hrun. destruct (seg_alloc_owns hdr slib i a n st st' Hn Hrun) as (s & Hws & Hsol & Hr & ->).
    intros q Hq. destruct (decide (q = next_seg (l_space st))) as [->|Hne].
    + exists s. split; [exact (lookup_insert_eq _ _ _)|done].
    + apply (owns_stays 0 st); [done|by apply with_segment_stays|]. apply H. destruct Hq as [Hq|Hq]; [by left|right].
      simpl in Hq. apply list_elem_of_lookup in Hq as [j Hj].
      apply list_lookup_insert_Some in Hj as [(_ & E & _)|[_ Hj]]; [congruence|]. by eapply list_elem_of_lookup_2.
  - intros st st' Hw H. by apply seg_finalize_shape.
  - intros i st st' q. unfold seg_at, get, mbind, M_bind. destruct (l_segs st !! _) as [p|] eqn:E; [|done].
    intros [= <- ->]. split; [done|]. right. by eapply list_elem_of_lookup_2.
Qed.
End Loaders.

(** ** [loader_load] *)

Definition extends (st st' : LoaderState) : Prop := space_stays (l_space st) (l_space st').

#[export] Instance extends_pre : PreOrder extends.
Proof. split; [intros st; unfold extends; done|]. intros s1 s2 s3. unfold extends. by apply transitivity. Qed.

Lemma builds_extends {A} (m : M LoaderState A) : keeps builds m -> keeps extends m.
Proof. apply keeps_weaken. by intros s s' []. Qed.

(** The descriptor the startup heap is placed through. *)
Definition heap_ok (li : LoadInfo) (sp : Space) : Prop :=
  0 <= heap_start li <= 2 ^ 29 /\
  exists sd s, descriptor_by_selector sp (ss li) = Some sd /\ segs sp !! sd_seg sd = Some s /\
    solid (heap_start li) s /\ 0 < m_reserved s <= 2 ^ 29.

Lemma heap_ok_stays li sp sp' : wf_space sp -> space_stays sp sp' -> heap_ok li sp -> heap_ok li sp'.
Proof.
  intros Hw Hst [Hb (sd & s & Hd & Hs & Hsol & Hr)]. destruct (Hst Hw) as (_ & Hsegs & Htab).
  destruct (Hsegs _ _ Hs) as (s' & Hs' & Hss). destruct (Hss (proj1 Hw _ _ Hs)) as (_ & _ & Hsol' & Hr').
  split; [done|]. exists sd, s'. split; [by apply Htab|]. split; [done|]. split; [by apply Hsol'|]. rewrite Hr'; lia.
Qed.

(** While the descriptors are created: each is one of the program's segments, and
    the stack selector, 0 when the file names no stack segment, is one of them. *)
Definition described (st : LoaderState) : Prop :=
  let h := heap_start (l_info st) in
  0 <= h <= 2 ^ 29 /\ (forall q, held st q -> owns h st q) /\
  (forall i sd, at_ (table st) i = Some sd -> owns h st (sd_seg sd)) /\
  ((ss (l_info st) = 0 /\ cs (l_info st) = 0) \/
   (is_Some (at_ (table st) 0) /\ is_Some (descriptor_by_selector (l_space st) (ss (l_info st))))).

Lemma described_heap st : described st -> cs (l_info st) <> 0 -> heap_ok (l_info st) (l_space st).
Proof.
  intros (Hh & _ & Hown & Hsel) Hcs. split; [done|]. destruct Hsel as [[_ E]|[_ [sd Hd]]]; [done|].
  destruct (Hown _ _ Hd) as (s & Hs & Hsol & Hr). by exists sd, s.
Qed.

Lemma described_settled st st' :
  wf_space (l_space st) -> settled st st' -> described st -> described st'.
Proof.
  intros Hw [(Hst & Ht & _) (Hi & Hf & Hg)] (Hh & Hheld & Hown & Hsel). unfold described. rewrite Hi.
  split; [done|]. split; [|split].
  - intros q Hq. apply (owns_stays _ st st' q Hw Hst), Hheld. unfold held in *. by rewrite Hf, Hg in Hq.
  - intros i sd Hd. rewrite Ht in Hd. by eapply (owns_stays _ st st'), Hown.
  - unfold descriptor_by_selector in *. by rewrite Ht.
Qed.

Lemma selector_slot sp sd i :
  sd_id sd = Z.of_nat i -> (i < 1024)%nat -> descriptor_by_selector sp (selector sd) = at_ (m_segment_descriptors sp) i.
Proof.
  intros Hid Hi. unfold descriptor_by_selector, selector.
  change (Z.shiftr (mk_sel (sd_id sd)) 3) with (sel_to_id (mk_sel (sd_id sd))).
  rewrite sel_to_id_mk_sel by lia. by rewrite Hid, Nat2Z.id.
Qed.

(** One more descriptor, [f] being what the loader notes of its selector. *)
Lemma described_create modify_ldt access q bits st sp' sd i :
  wf_space (l_space st) -> described st -> held st q ->
  create_segment_descriptor modify_ldt access q bits (l_space st) = (sp', Ok sd) ->
  heap_start i = heap_start (l_info st) ->
  (ss i = ss (l_info st) \/ ss i = selector sd) ->
  described (set_info i (set_space sp' st)).
Proof.
  intros Hw (Hh & Hheld & Hown & Hsel) Hq Hrun Hhs Hss.
  destruct (create_inv _ _ _ _ _ _ _ Hw Hrun) as [(k & sd1 & Esd & Hin & Hrest)|(e & E & _)]; [injection Esd as <-; destruct Hrest as (_ & Hseg & _ & Hleast)|done].
  assert (Hst : space_stays (l_space st) sp') by by apply (installed_stays _ _ k sd).
  pose proof Hin as (Hid & Hk & Hfree & _ & _ & _ & _ & Hat & _).
  assert (Hso : forall h p, owns h st p -> owns h (set_info i (set_space sp' st)) p)
    by (intros h p; apply (owns_stays h st (set_info i (set_space sp' st)) p Hw Hst)).
  assert (H0 : is_Some (at_ (m_segment_descriptors sp') 0)).
  { rewrite Hat. case_decide as E; [done|]. apply Hleast. lia. }
  unfold described. cbn [l_info l_space set_info set_space]. rewrite Hhs. split; [done|].
  split; [intros p Hp; by apply Hso, Hheld|]. split.
  - intros j d. rewrite Hat. case_decide; [intros [= <-]; rewrite Hseg; by apply Hso, Hheld|]. intros Hj. by eapply Hso, Hown.
  - right. split; [done|]. destruct Hss as [-> | ->].
    + destruct Hsel as [[-> _]|[_ [d Hd]]]; [exact H0|]. unfold descriptor_by_selector in *. rewrite Hat.
      by case_decide.
    + rewrite (selector_slot _ _ _ Hid Hk), Hat. by rewrite decide_True.
Qed.

Section Load.
Context (mmap : Z -> Z -> Z -> Z -> option Z) (Hmmap : mmap_law mmap).
Context (mprotect : Z -> Z -> Z -> bool) (modify_ldt : user_desc -> bool).
Context (file : list Z) (Hfile : Forall is_byte file).

Ltac settle := repeat keeps_step.
Ltac build := repeat first [ keeps_step | apply settled_builds; solve [settle] | by apply modify_builds ].

Lemma load_header_builds : keeps builds (load_header file).
Proof. unfold load_header, check_value, format_error. build. Qed.

Lemma seg_size_bound v : 0 <= Z.land v 268435455 < 2 ^ 28.
Proof. change 268435455 with (Z.ones 28). rewrite Z.land_ones by lia. apply Z.mod_pos_bound. lia. Qed.

Lemma load_segments_builds l n : shaping_loader l -> forall si, keeps builds (load_segments file l si n).
Proof.
  intros Hl. induction n as [|n IH]; intros si; simpl; build. apply (alloc_builds l Hl). apply seg_size_bound.
Qed.

Lemma load_segments_shape l n : shaping_loader l -> forall si st st' types,
  wf_space (l_space st) -> held_solid st -> load_segments file l si n st = (st', Ok types) -> held_solid st'.
Proof.
  intros Hl. induction n as [|n IH]; intros si st st' types Hw Hs; [by intros [= <- _]|].
  simpl. unfold mbind, M_bind. destruct (checked_read file 4 st) as [st1 [bs|e]] eqn:E1; [|done].
  apply checked_read_settled in E1 as [[H1 _] (_ & Hf & Hg)]. cbv zeta.
  assert (Hs1 : held_solid st1).
  { intros q Hq. apply (owns_stays 0 st st1 q Hw H1), Hs. unfold held in *. by rewrite Hf, Hg in Hq. }
  destruct (H1 Hw) as [Hw1 _].
  destruct (alloc_segment l si _ _ st1) as [st2 [[]|e]] eqn:E2; [|done].
  pose proof (alloc_shape l Hl _ _ _ _ _ Hw1 (seg_size_bound _) Hs1 E2) as Hs2.
  apply (alloc_builds l Hl) in E2 as [H2 _]; [|apply seg_size_bound]. destruct (H2 Hw1) as [Hw2 _].
  destruct (load_segments file l (S si) n st2) as [st3 [ts|e]] eqn:E3; [|done]. intros [= <- _].
  exact (IH _ _ _ _ Hw2 Hs2 E3).
Qed.

Lemma load_record_settled l rec : shaping_loader l -> keeps settled (load_record file l rec).
Proof.
  intros Hl. pose proof (load_settled l Hl). unfold load_record, format_error. settle.
  intros st. apply keeps_modify. intros s. by apply settled_same.
Qed.

Lemma load_records_settled l fuel : shaping_loader l -> keeps settled (load_records file fuel l).
Proof.
  intros Hl. pose proof (load_record_settled l) as H. induction fuel as [|fuel IH]; [apply keeps_throw, _|].
  simpl. apply keeps_bind; [apply _|apply checked_read_settled|]. intros bs.
  apply keeps_bind; [apply _|by apply H|]. intros rs. settle.
Qed.

Lemma create_descriptors_extends l hdr types : shaping_loader l -> forall si,
  keeps extends (create_descriptors modify_ldt l hdr si types).
Proof.
  intros Hl. pose proof (get_settled l Hl) as Hg. induction types as [|t types IH]; intros si; simpl; [settle|].
  apply keeps_bind; [apply _|apply builds_extends, settled_builds, Hg|]. intros seg.
  apply keeps_bind; [apply _|settle|]. intros st. destruct seg as [q|]; [|settle].
  apply keeps_bind; [apply _| |]. { intros s s' r. unfold on_space. destruct (create_segment_descriptor _ _ _ _ _) as [sp o] eqn:E. intros [= <- _]. exact (create_stays _ _ _ _ _ _ _ E). }
  intros sd. cbv zeta. apply keeps_bind; [apply _|apply keeps_modify; intros s; unfold extends; done|]. intros _.
  apply keeps_bind; [apply _|apply IH|settle].
Qed.

Lemma create_descriptors_described l hdr types : shaping_loader l -> forall si st st' sels,
  wf_space (l_space st) -> described st ->
  create_descriptors modify_ldt l hdr si types st = (st', Ok sels) -> described st'.
Proof.
  intros Hl. induction types as [|t types IH]; intros si st st' sels Hw Hd; simpl; [by intros [= <- _]|].
  unfold mbind, M_bind. destruct (get_segment l si st) as [st1 [[q|]|e]] eqn:E1; [|done|done].
  apply (get_shape l Hl) in E1 as [-> Hq]. cbv [get on_space].
  destruct (create_segment_descriptor _ _ _ _ _) as [sp [sd|e]] eqn:E2; [|done].
  unfold Prelude.modify at 1.
  set (i := mkLoadInfo _ _ _ _ _ _ _ _).
  assert (Hd' : described (set_info i (set_space sp st))).
  { apply (described_create _ _ _ _ _ _ _ _ Hw Hd Hq E2); [done|]. simpl. destruct (_ =? _); [by right|by left]. }
  assert (Hw' : wf_space sp) by exact (proj1 (create_stays _ _ _ _ _ _ _ E2 Hw)).
  destruct (create_descriptors _ _ _ _ _ _) as [st2 [sels'|e]] eqn:E3; [|done]. intros [= <- _].
  exact (IH _ (set_info i (set_space sp st)) _ sels' Hw' Hd' E3).
Qed.

Lemma relocate_settled l selectors relocs : shaping_loader l -> keeps settled (relocate l selectors relocs).
Proof.
  intros Hl. pose proof (get_settled l Hl). induction relocs as [|r relocs IH]; simpl; unfold format_error; settle.
  apply keeps_modify. intros s. by apply settled_same.
Qed.

Lemma shapes hdr slib :
  header_ok hdr ->
  shaping_loader (if has (cflags hdr) TCF_FLAT then FlatLoader mmap mprotect hdr else SegmentLoader mmap hdr slib).
Proof using Hmmap. intros Hh. destruct (has _ _); [by apply flat_shapes|by apply segment_shapes]. Qed.

Lemma loader_load_extends slib : keeps extends (loader_load mmap mprotect modify_ldt file slib).
Proof using Hmmap Hfile.
  unfold loader_load. apply (keeps_bind_post _ (fun a => header_ok (fst a))).
  { apply builds_extends, load_header_builds. }
  { intros st st' [hdr n] E. by eapply load_header_ok. }
  intros [hdr n] Hh. cbv zeta. pose proof (shapes hdr slib Hh) as Hl. set (l := if has _ _ then _ else _) in *.
  clearbody l. apply keeps_bind; [apply _|apply builds_extends, (prepare_builds l Hl)|]. intros _.
  apply keeps_bind; [apply _|by apply builds_extends, load_segments_builds|]. intros types.
  apply keeps_bind; [apply _|apply builds_extends, (finalize_builds l Hl)|]. intros _.
  apply keeps_bind; [apply _|by apply builds_extends, settled_builds, load_records_settled|]. intros relocs.
  apply keeps_bind; [apply _|apply builds_extends, settled_builds, (finalize_settled l Hl)|]. intros _.
  apply keeps_bind; [apply _|by apply create_descriptors_extends|]. intros sels.
  by apply builds_extends, settled_builds, relocate_settled.
Qed.

(** The first program of a process: no descriptor was there before. *)
Definition first_load (st : LoaderState) : Prop :=
  (forall i, at_ (table st) i = None) /\ ss (l_info st) = 0 /\ cs (l_info st) = 0 /\ (forall q, ~ held st q).

Definition same_held (st st' : LoaderState) : Prop := l_flat_mem st' = l_flat_mem st /\ l_segs st' = l_segs st.

#[local] Instance same_held_pre : PreOrder same_held.
Proof. split; [by intros st|]. intros s1 s2 s3 [H1 H2] [H3 H4]. split; congruence. Qed.

Lemma load_header_held : keeps same_held (load_header file).
Proof.
  assert (Hc : forall n, keeps same_held (checked_read file n)).
  { intros n. eapply keeps_weaken; [|apply checked_read_settled]. intros s s' (_ & _ & H). exact H. }
  unfold load_header, check_value, format_error. settle. all: by apply keeps_modify.
Qed.

Lemma loader_load_described slib st st' :
  wf_space (l_space st) -> first_load st ->
  loader_load mmap mprotect modify_ldt file slib st = (st', Ok ()) -> described st'.
Proof using Hmmap Hfile.
  intros Hw (Htab & Hss & Hcs & Hno). unfold loader_load, mbind, M_bind.
  destruct (load_header file st) as [st1 [[hdr n]|e]] eqn:E1; [|done].
  pose proof (load_header_ok file Hfile _ _ _ _ E1) as Hh. pose proof (load_header_held _ _ _ E1) as [Hf Hg].
  assert (Hs1 : held_solid st1). { intros q Hq. destruct (Hno q). unfold held in *. by rewrite Hf, Hg in Hq. }
  apply load_header_builds in E1 as B1. destruct (proj1 B1 Hw) as [Hw1 _]. cbv zeta.
  pose proof (shapes hdr slib Hh) as Hl. set (l := if has _ _ then _ else _) in *. clearbody l.
  destruct (prepare_segments l n st1) as [st2 [[]|e]] eqn:E2; [|done].
  pose proof (prepare_shape l Hl _ _ _ Hs1 E2) as Hs2. apply (prepare_builds l Hl) in E2 as B2.
  destruct (proj1 B2 Hw1) as [Hw2 _].
  destruct (load_segments file l 0 n st2) as [st3 [types|e]] eqn:E3; [|done].
  pose proof (load_segments_shape l n Hl _ _ _ _ Hw2 Hs2 E3) as Hs3. apply (load_segments_builds l n Hl) in E3 as B3.
  destruct (proj1 B3 Hw2) as [Hw3 _].
  destruct (finalize_segments l st3) as [st4 [[]|e]] eqn:E4; [|done].
  pose proof (finalize_shape l Hl _ _ Hw3 Hs3 E4) as Hs4. apply (finalize_builds l Hl) in E4 as B4.
  destruct (proj1 B4 Hw3) as [Hw4 _].
  destruct (load_records file _ l st4) as [st5 [relocs|e]] eqn:E5; [|done].
  apply (load_records_settled l _ Hl) in E5.
  destruct (finalize_loading l st5) as [st6 [[]|e]] eqn:E6; [|done]. apply (finalize_settled l Hl) in E6.
  pose proof (transitivity E5 E6) as S6. destruct (laid_out_settled _ _ Hw4 S6 Hs4) as (h & Hown & Hhs & Hb).
  pose proof (transitivity B1 (transitivity B2 (transitivity B3 (transitivity B4 (proj1 S6))))) as (B & T & S & C).
  destruct (B Hw) as [Hw6 _].
  destruct (create_descriptors modify_ldt l hdr 0 types st6) as [st7 [sels|e]] eqn:E7; [|done].
  assert (Hd6 : described st6).
  { split; [done|]. split; [|split; [|left; split; congruence]].
    - intros q Hq. destruct (Hown q Hq) as (s & Hs & Hsol & Hr). exists s. split; [done|]. split; [by eapply solid_weaken|done].
    - intros i sd. by rewrite T, Htab. }
  pose proof (create_descriptors_described l hdr types Hl _ _ _ _ Hw6 Hd6 E7) as Hd7.
  apply (create_descriptors_extends l hdr types Hl) in E7 as E7'. destruct (E7' Hw6) as [Hw7 _].
  intros E8. apply (relocate_settled l _ _ Hl) in E8. by apply (described_settled st7).
Qed.
End Load.
