(* ===== verification/StartupSpec.v ===== *)
(** * StartupSpec: the state a program starts in

    Building the startup state writes through host pointers: into the magic
    areas, the spawn message and the strings of the startup heap.  Each of these
    pointers is into the guest.  A step is described by a triple: what must hold
    before it, what holds behind it when it returns, and, whatever its outcome,
    that it keeps the address space and writes guest memory only. *)

From S2P Require Import Prelude Types Memory IdMap CmdOpts PathMapper PidMap Msg GuestContext Loader Magic Sandbox LoadSpec LoadHeap Containment Segment AddressSpace Process.

(** ** The startup heap *)

Lemma align_16 v : 0 <= v <= 2 ^ 29 -> v <= MemOps.align_up v 16 < v + 16.
Proof.
  intros Hv. unfold MemOps.align_up. destruct (v mod 16 =? 0) eqn:E; to_prop; [lia|].
  rewrite wrapu_small by zlia. zlia.
Qed.

Section Heap.
Context (mmap : Z -> Z -> Z -> Z -> option Z).

(** A segment for the heap, behind [h]. *)
Definition heap_seg (h : Z) (s : Segment) : Prop :=
  Segment.wf s /\ solid h s /\ 0 < m_reserved s <= 2 ^ 29.

Lemma sbrk_fit_run h st st' r :
  heap_seg h (sb_seg st) -> 0 <= sb_offset (sb st) < 2 ^ 32 -> sbrk_fit mmap st = (st', r) ->
  seg_stays (sb_seg st) (sb_seg st') /\ sb st' = sb st /\ sb_mem st' = sb_mem st /\
  (r = Ok () -> heap_seg h (sb_seg st') /\ sb_offset (sb st) <= 2 ^ 29 /\
     forall o, 0 <= o -> h <= o -> o < sb_offset (sb st) -> mapped (sb_seg st') o).
Proof.
  intros (Hw & Hs & Hr) Ho. unfold sbrk_fit, Segment.on_segment, get, mbind, M_bind. unfold Segment.size at 1.
  assert (Hdone : forall s, Segment.wf s -> solid h s -> 0 < m_reserved s <= 2 ^ 29 ->
    sb_offset (sb st) <= m_limit_size s ->
    heap_seg h s /\ sb_offset (sb st) <= 2 ^ 29 /\
    forall o, 0 <= o -> h <= o -> o < sb_offset (sb st) -> mapped s o).
  { intros s Hws Hss Hrs Hle. pose proof Hws as (W1 & W2 & _). split; [done|]. split; [lia|].
    intros o H1 H2 H3. apply Hss; lia. }
  destruct (Z.ltb_spec (m_limit_size (sb_seg st)) (sb_offset (sb st))) as [Hlt|Hge].
  2: { intros [= <- <-]. split; [done|]. split; [done|]. split; [done|]. intros _. by apply Hdone. }
  assert (Hl : 0 <= m_limit_size (sb_seg st)) by (unfold Segment.wf in Hw; lia).
  unfold Segment.size. rewrite wrapu_small by lia.
  set (n := _ - _). assert (Hn : 0 <= n < 2 ^ 44) by lia.
  destruct (grow_bytes mmap n (sb_seg st)) as [s o] eqn:E. intros [= <- <-].
  pose proof (grow_bytes_stays mmap n Hn _ _ _ E) as Hst. pose proof (Hst Hw) as (Hw' & _ & Hs' & Hr').
  split; [exact Hst|]. split; [done|]. split; [done|]. intros ->. simpl. apply Hdone; auto; [rewrite Hr'; lia|].
  destruct (grow_bytes_inv _ _ _ _ _ Hw Hn E) as (_ & _ & _ & _ & Hsz).
  destruct Hsz as [[_ [e ?]]|[_ Hsz]]; [done|].
  unfold Segment.size in Hsz. lia.
Qed.

(** The break after an operation that succeeded: still inside the segment. *)
Definition breaks (h : Z) (b : Sbrk) : Prop := h <= sb_offset b /\ 0 <= sb_offset b <= 2 ^ 29.

Lemma sbrk_align_run h st st' r :
  heap_seg h (sb_seg st) -> breaks h (sb st) -> sbrk_align mmap st = (st', r) ->
  seg_stays (sb_seg st) (sb_seg st') /\ sb_mem st' = sb_mem st /\
  (r = Ok () -> heap_seg h (sb_seg st') /\ breaks h (sb st')).
Proof.
  intros Hh [Hb Hb']. unfold sbrk_align, Prelude.modify, mbind, M_bind.
  pose proof (align_16 (sb_offset (sb st)) ltac:(lia)) as Hu.
  rewrite wrapu_small by lia. set (st1 := mkSbrkState _ _ _). intros Hrun.
  destruct (sbrk_fit_run h st1 _ _ Hh ltac:(simpl; lia) Hrun) as (Hs & Hsb & Hm & Hok).
  split; [exact Hs|]. split; [exact Hm|]. intros Hr. destruct (Hok Hr) as (Hh' & Hle & _). split; [done|].
  rewrite Hsb. simpl in *. unfold breaks. simpl. lia.
Qed.

(** The chunk from [o], [n] bytes long. *)
Definition chunk (s : Segment) (o n : Z) : Prop := forall k, 0 <= k < n -> mapped s (o + k).

Lemma sbrk_alloc_run h n st st' r :
  heap_seg h (sb_seg st) -> breaks h (sb st) -> 0 <= n <= 2 ^ 31 -> sbrk_alloc mmap n st = (st', r) ->
  seg_stays (sb_seg st) (sb_seg st') /\ sb_mem st' = sb_mem st /\
  (r = Ok () -> heap_seg h (sb_seg st') /\ breaks h (sb st') /\
     sb_last_offset (sb st') = sb_offset (sb st) /\ chunk (sb_seg st') (sb_offset (sb st)) n).
Proof.
  intros Hh [Hb Hb'] Hn. unfold sbrk_alloc, Prelude.modify, mbind, M_bind.
  rewrite wrapu_small by lia. set (st1 := mkSbrkState _ _ _). intros Hrun.
  destruct (sbrk_fit_run h st1 _ _ Hh ltac:(simpl; lia) Hrun) as (Hs & Hsb & Hm & Hok).
  split; [exact Hs|]. split; [exact Hm|]. intros Hr. destruct (Hok Hr) as (Hh' & Hle & Hmap). split; [done|].
  rewrite Hsb. simpl in *. unfold breaks. simpl. split; [lia|]. split; [done|].
  intros k Hk. apply Hmap; lia.
Qed.

(** A pointer to a chunk that is not empty. *)
Lemma sbrk_ptr_run st n :
  Segment.wf (sb_seg st) -> 0 < n -> chunk (sb_seg st) (sb_last_offset (sb st)) n ->
  sbrk_ptr st = Ok (m_location (sb_seg st) + sb_last_offset (sb st)).
Proof.
  intros Hw Hn Hc. unfold sbrk_ptr, sbrk_offset. apply pointer_zero; [done|].
  specialize (Hc 0 ltac:(lia)). by rewrite Z.add_0_r in Hc.
Qed.

Definition short (s : cstring) : Prop := Z.of_nat (length s) < 2 ^ 31.

(** Memory that differs inside the segment only. *)
Definition only_segment (s : Segment) (m m' : Mem) : Prop :=
  forall x, (forall o, mapped s o -> x <> m_location s + o) -> peek m' x = peek m x.

Lemma push_string_run h str st st' r :
  heap_seg h (sb_seg st) -> breaks h (sb st) -> short str -> push_string mmap str st = (st', r) ->
  seg_stays (sb_seg st) (sb_seg st') /\
  only_segment (sb_seg st') (sb_mem st) (sb_mem st') /\
  (r = Ok () -> heap_seg h (sb_seg st') /\ breaks h (sb st')).
Proof.
  intros Hh Hb Hshort. unfold short in Hshort. unfold push_string, mbind at 1, M_bind at 1.
  rewrite (wrapu_small 32 (Z.of_nat _ + 1)) by lia.
  set (n := Z.of_nat _ + 1). assert (Hn : 0 < n <= 2 ^ 31) by lia.
  destruct (sbrk_alloc mmap n st) as [st1 [[]|e]] eqn:E;
    destruct (sbrk_alloc_run h n _ _ _ Hh Hb ltac:(lia) E) as (Hs & Hm & Hok).
  2: { intros [= <- <-]. split; [done|]. split; [|done]. rewrite Hm. by intros x _. }
  destruct (Hok eq_refl) as (Hh1 & Hb1 & Hl & Hc). rewrite <- Hl in Hc.
  unfold get, lift, Prelude.modify, mbind, M_bind. rewrite (sbrk_ptr_run _ n (proj1 Hh1) ltac:(lia) Hc).
  intros [= <- <-]. simpl. split; [done|]. split; [|done]. rewrite Hm. intros x Hx. rewrite peek_store, length_app. simpl.
  destruct (_ && _) eqn:Ein; [|done]. to_prop. exfalso.
  set (o := x - m_location (sb_seg st1)). apply (Hx o); [|unfold o; lia].
  replace o with (sb_last_offset (sb st1) + (o - sb_last_offset (sb st1))) by lia. apply Hc. unfold o, n. lia.
Qed.
End Heap.

(** ** Steps of the process *)

Definition good (p : Process) : Prop := wf_space (p_space p) /\ regs_ok (p_guest p).

(** What a step does whatever its outcome: the state stays good, segments and
    descriptors stay, and only guest memory is written. *)
Definition prepares (p p' : Process) : Prop :=
  good p ->
  good p' /\ space_stays (p_space p) (p_space p') /\
  only_guest (p_space p') (fun _ => False) (g_mem (p_guest p)) (g_mem (p_guest p')).

#[export] Instance prepares_pre : PreOrder prepares.
Proof.
  split; [intros p Hg; split; [done|split; [done|by intros x _ _]]|].
  intros p1 p2 p3 H12 H23 H1. destruct (H12 H1) as (H2 & S2 & M2), (H23 H2) as (H3 & S3 & M3).
  split; [done|]. split; [by etrans|]. intros x Hx He. rewrite M3 by done. apply M2; [|done].
  intros Hg. apply Hx. exact (proj1 (proj2 (space_stays_grows _ _ S3 (proj1 H2))) _ Hg).
Qed.

(** The members of the process only a few of these steps change. *)
Definition members (p : Process) :=
  (p_load_exec p, p_load_slib p, p_slib_entry p, p_bits p, p_interpreter p, p_paths p,
   (p_pids p, p_my_pid p, p_parent_pid p), (p_magic p, p_magic16 p), p_data p, p_time_segment p).

(** A step that leaves these members, and the startup heap's break, alone. *)
Definition quiet (p p' : Process) : Prop :=
  prepares p p' /\ members p' = members p /\ p_alloc p' = p_alloc p.

#[export] Instance quiet_pre : PreOrder quiet.
Proof.
  split; [intros p; split; [apply (reflexivity (R := prepares))|done]|].
  intros p1 p2 p3 (H1 & M1 & A1) (H2 & M2 & A2). split; [by apply (transitivity (R := prepares) H1)|].
  split; congruence.
Qed.

Lemma quiet_prepares {A} (m : M Process A) : keeps quiet m -> keeps prepares m.
Proof. apply keeps_weaken. by intros p p' []. Qed.

Lemma quiet_same p p' :
  p_space p' = p_space p -> p_guest p' = p_guest p -> members p' = members p -> p_alloc p' = p_alloc p ->
  quiet p p'.
Proof.
  intros Hs Hg Hm Ha. split; [|done]. intros H. unfold good. rewrite Hs, Hg. split; [done|]. split; [done|].
  by intros x _ _.
Qed.

Lemma on_guest_quiet {A} (op : Translation -> M Guest A) :
  (forall sp, wf_space sp -> keeps (guest_mem sp (fun _ => False)) (op (space_translation sp))) ->
  keeps quiet (on_guest op).
Proof.
  intros Hop p p' r. unfold on_guest. destruct (op _ _) as [g x] eqn:E. intros [= <- _]. split; [|done].
  intros [Hw Hr]. destruct (Hop _ Hw _ _ _ E) as [H1 H2]. split; [by split; [|apply H1]|]. split; [done|exact H2].
Qed.

Lemma on_space_quiet {A} (op : M Space A) : keeps space_stays op -> keeps quiet (on_space op).
Proof.
  intros Hop p p' r. unfold on_space. destruct (op _) as [s x] eqn:E. intros [= <- _]. split; [|done].
  intros [Hw Hr]. pose proof (Hop _ _ _ E) as Hs. split; [split; [by apply Hs|done]|]. split; [done|]. by intros x' _ _.
Qed.

Lemma on_segment_quiet {A} r (op : M Segment A) : keeps seg_stays op -> keeps quiet (on_segment r op).
Proof.
  intros Hop p p' o. unfold on_segment. destruct (segs (p_space p) !! r) as [s|] eqn:Es; [|by intros [= <- _]].
  destruct (op s) as [s' x] eqn:E. intros [= <- _]. split; [|done]. intros [Hw Hr].
  pose proof (put_segment_stays r s s' (p_space p) Es (Hop _ _ _ E)) as Hs.
  split; [split; [by apply Hs|done]|]. split; [done|]. by intros x' _ _.
Qed.

Lemma greg_set_quiet r v : keeps quiet (greg_set r v).
Proof. apply on_guest_quiet. intros. apply set_reg_ok. Qed.
Lemma push_word_quiet v : keeps quiet (push_word v).
Proof. apply on_guest_quiet. intros. by apply push_stack_ok. Qed.
Lemma pid_quiet : keeps quiet pid.
Proof. unfold pid. keeps. Qed.
Lemma parent_pid_quiet : keeps quiet parent_pid.
Proof. unfold parent_pid. keeps. Qed.

#[export] Hint Resolve greg_set_quiet push_word_quiet pid_quiet parent_pid_quiet : keeps.

Lemma push_words_quiet vs : keeps quiet (push_words vs).
Proof. induction vs as [|v vs IH]; simpl; keeps. Qed.
#[export] Hint Resolve push_words_quiet : keeps.

Lemma push_stack_env_quiet argv envp : keeps quiet (push_stack_env argv envp).
Proof. unfold push_stack_env, push_pointer_block. keeps. Qed.

(** ** Triples

    A step is described by what must hold before it and what holds behind it when
    it returns; whatever its outcome, it [prepares]. *)
Definition triple {A} (P : Process -> Prop) (m : M Process A) (Q : A -> Process -> Prop) : Prop :=
  forall p p' r, good p -> P p -> m p = (p', r) -> prepares p p' /\ (forall a, r = Ok a -> Q a p').

Lemma triple_bind {A B} P Q R (m : M Process A) (f : A -> M Process B) :
  triple P m Q -> (forall a, triple (Q a) (f a) R) -> triple P (m ≫= f) R.
Proof.
  intros Hm Hf p p' r Hg HP. unfold mbind, M_bind. destruct (m p) as [p1 [a|e]] eqn:E.
  - intros Hrun. destruct (Hm _ _ _ Hg HP E) as [H1 HQ]. destruct (H1 Hg) as [Hg1 _].
    destruct (Hf a _ _ _ Hg1 (HQ a eq_refl) Hrun) as [H2 HR]. split; [by apply (transitivity (R := prepares) H1)|done].
  - intros [= <- <-]. split; [by apply (Hm _ _ _ Hg HP E)|done].
Qed.

Lemma triple_ret {A} (Q : A -> Process -> Prop) a : triple (Q a) (mret a) Q.
Proof. intros p p' r _ HP [= <- <-]. split; [done|]. by intros b [= <-]. Qed.

Lemma triple_throw {A} P (Q : A -> Process -> Prop) e : triple P (throw e) Q.
Proof. intros p p' r _ _ [= <- <-]. done. Qed.

Lemma triple_weaken {A} P P' (Q Q' : A -> Process -> Prop) m :
  triple P' m Q' -> (forall p, P p -> P' p) -> (forall a p, Q' a p -> Q a p) -> triple P m Q.
Proof. intros H HP HQ p p' r Hg Hp Hrun. destruct (H p p' r Hg (HP _ Hp) Hrun) as [H1 H2]. split; [done|]. eauto. Qed.

(** Reading the state, and a value that comes of no step. *)
Lemma triple_get {A} P (f : Process -> M Process A) Q :
  (forall p, P p -> triple (fun p' => p' = p /\ P p') (f p) Q) -> triple P (p ← get; f p) Q.
Proof. intros H p p' r Hg HP Hrun. by apply (H p HP p p' r Hg). Qed.

Lemma triple_lift {A B} (o : outcome A) P (f : A -> M Process B) Q :
  (forall a, o = Ok a -> triple P (f a) Q) -> triple P (lift o ≫= f) Q.
Proof. intros H p p' r Hg HP. destruct o as [a|e]; [by apply H|]. by intros [= <- <-]. Qed.

Lemma triple_ret_bind {A B} P (a : A) (f : A -> M Process B) Q : triple P (f a) Q -> triple P (mret a ≫= f) Q.
Proof. done. Qed.

(** What quiet steps do not disturb. *)
Definition lasting (P : Process -> Prop) : Prop := forall p p', good p -> quiet p p' -> P p -> P p'.

Lemma triple_quiet {A} P (m : M Process A) : lasting P -> keeps quiet m -> triple P m (fun _ => P).
Proof.
  intros Hl Hm p p' r Hg HP Hrun. pose proof (Hm _ _ _ Hrun) as H. split; [apply H|]. intros _ _. by apply (Hl p).
Qed.

Lemma triple_quiet_bind {A B} P (m : M Process A) (f : A -> M Process B) Q :
  lasting P -> keeps quiet m -> (forall a, triple P (f a) Q) -> triple P (m ≫= f) Q.
Proof. intros Hl Hm Hf. apply (triple_bind _ (fun _ => P)); [by apply triple_quiet|done]. Qed.

(** Stores into the guest. *)
Lemma triple_store P a n bs :
  lasting P -> (forall p, P p -> guest_range (p_space p) a n) -> Z.of_nat (length bs) <= n ->
  triple P (host_store a bs) (fun _ => P).
Proof.
  intros Hl Hr Hn p p' r Hg HP [= <- <-].
  assert (Hq : quiet p (set_guest (set_gmem (store (g_mem (p_guest p)) a bs) (p_guest p)) p)).
  { split; [|done]. intros _. split; [exact Hg|]. split; [done|]. exact (store_guest _ _ a n bs _ (Hr p HP) Hn). }
  split; [apply Hq|]. intros _ _. by apply (Hl p).
Qed.

(** ** The startup heap in the process *)

(** Facts that no step here disturbs: they speak of guest memory and of members. *)
Definition firm (F : Process -> Prop) : Prop :=
  forall p p', good p -> prepares p p' -> members p' = members p -> F p -> F p'.

Lemma firm_lasting F : firm F -> lasting F.
Proof. intros HF p p' Hg (H & M & _). by apply HF. Qed.

Lemma firm_range a n : firm (fun p => guest_range (p_space p) a n).
Proof.
  intros p p' Hg H _ Hr k Hk. destruct (H Hg) as (_ & Hs & _).
  exact (proj1 (proj2 (space_stays_grows _ _ Hs (proj1 Hg))) _ (Hr k Hk)).
Qed.

Lemma firm_members (F : _ -> Prop) : firm (fun p => F (members p)).
Proof. intros p p' _ _ E H. by rewrite E. Qed.

Lemma firm_and F G : firm F -> firm G -> firm (fun p => F p /\ G p).
Proof. intros H1 H2 p p' Hg Hp Hm [HF HG]. split; [by apply (H1 p)|by apply (H2 p)]. Qed.

Lemma firm_exists {A} (F : A -> Process -> Prop) : (forall a, firm (F a)) -> firm (fun p => exists a, F a p).
Proof. intros H p p' Hg Hp Hm [a Ha]. exists a. by apply (H a p). Qed.

(** The segment [d] has a heap behind [h]. *)
Definition heap_at (h : Z) (d : nat) (p : Process) : Prop :=
  exists s, segs (p_space p) !! d = Some s /\ solid h s /\ 0 < m_reserved s <= 2 ^ 29.

Lemma firm_heap h d : firm (heap_at h d).
Proof.
  intros p p' Hg H _ (s & Hs & Hsol & Hr). destruct (H Hg) as (_ & Hst & _).
  destruct (Hst (proj1 Hg)) as (_ & Hk & _). destruct (Hk _ _ Hs) as (s' & Hs' & Hss).
  destruct (Hss (proj1 (proj1 Hg) _ _ Hs)) as (_ & _ & Hsol' & Hr').
  exists s'. split; [done|]. split; [auto|]. rewrite Hr'; lia.
Qed.

Definition ready (h : Z) (d : nat) (F : Process -> Prop) (p : Process) : Prop :=
  p_data p = d /\ breaks h (p_alloc p) /\ heap_at h d p /\ F p.

Lemma ready_lasting h d F : firm F -> lasting (ready h d F).
Proof.
  intros HF p p' Hg (H & M & A) (Hd & Hb & Hh & HFp).
  split; [|split; [by rewrite A|split; [by apply (firm_heap h d p)|by apply (HF p)]]].
  revert M. unfold members. congruence.
Qed.

(** What a method of the startup heap does, and what it leaves. *)
Definition sbrk_step {A} (h : Z) (op : M SbrkState A) (Q : A -> Sbrk -> Segment -> Prop) : Prop :=
  forall st st' r, heap_seg h (sb_seg st) -> breaks h (sb st) -> op st = (st', r) ->
    seg_stays (sb_seg st) (sb_seg st') /\ only_segment (sb_seg st') (sb_mem st) (sb_mem st') /\
    (forall a, r = Ok a -> breaks h (sb st') /\ Q a (sb st') (sb_seg st')).

Lemma triple_sbrk {A} h d F (op : M SbrkState A) Q :
  firm F -> sbrk_step h op Q ->
  triple (ready h d F) (on_sbrk op)
    (fun a p => ready h d F p /\ exists s, segs (p_space p) !! d = Some s /\ Q a (p_alloc p) s).
Proof.
  intros HF Hop p p' r Hg (Hd & Hb & Hh & HFp). pose proof Hh as (s & Hs & Hsol & Hr).
  unfold on_sbrk. rewrite Hd, Hs. destruct (op _) as [st x] eqn:E. intros [= <- <-].
  pose proof (proj1 (proj1 Hg) _ _ Hs) as Hw.
  destruct (Hop (mkSbrkState (p_alloc p) s (g_mem (p_guest p))) _ _ (conj Hw (conj Hsol Hr)) Hb E) as (Hst & Hmem & HQ).
  simpl in Hst, Hmem. set (p' := set_alloc _ _ _).
  assert (Hp : prepares p p').
  { intros _. pose proof (put_segment_stays d s (sb_seg st) _ Hs Hst) as Hss. destruct (Hss (proj1 Hg)) as [Hw' _].
    split; [by split; [|apply Hg]|]. split; [done|]. intros y Hy _. apply Hmem. intros o Ho ->. apply Hy.
    exists d, (sb_seg st), o. split; [exact (lookup_insert_eq _ _ _)|done]. }
  assert (Hm : members p' = members p) by (unfold members; simpl; by rewrite Hd).
  split; [done|]. intros a Ha. destruct (HQ a Ha) as [Hb' HQ']. split.
  - split; [done|]. split; [done|]. split; [by apply (firm_heap h d p)|by apply (HF p)].
  - exists (sb_seg st). split; [exact (lookup_insert_eq _ _ _)|done].
Qed.

(** ** The methods of the startup heap *)

Section Startup.
Context (mmap : Z -> Z -> Z -> Z -> option Z) (Hmmap : mmap_law mmap).
Context (modify_ldt : user_desc -> bool).
Context (environ : list cstring) (getcwd : cstring).
Context (h : Z) (d : nat).

Notation rdy := (ready h d).

Lemma triple_align F : firm F -> triple (rdy F) (sbrk_align_ mmap) (fun _ => rdy F).
Proof.
  intros HF. eapply (triple_weaken _ (rdy F) _ (fun a p => rdy F p /\ _)); [|done|by intros a p [H _]].
  apply (triple_sbrk h d F _ (fun _ _ _ => True)); [done|]. intros st st' r Hh Hb Hrun.
  destruct (sbrk_align_run mmap h _ _ _ Hh Hb Hrun) as (Hs & Hm & Hok). split; [done|].
  split; [rewrite Hm; by intros x _|]. intros [] ->. by destruct (Hok eq_refl).
Qed.

(** The last chunk of the heap, not yet written. *)
Definition chunked (F : Process -> Prop) (n : Z) (p : Process) : Prop :=
  rdy F p /\ exists s, segs (p_space p) !! d = Some s /\ chunk s (sb_last_offset (p_alloc p)) n.

Lemma chunked_lasting F n : firm F -> lasting (chunked F n).
Proof.
  intros HF p p' Hg Hq [Hr (s & Hs & Hc)]. split; [by apply (ready_lasting h d F HF p)|].
  destruct Hq as (H & _ & A). destruct (H Hg) as (_ & Hst & _). destruct (Hst (proj1 Hg)) as (_ & Hk & _).
  destruct (Hk _ _ Hs) as (s' & Hs' & Hss). destruct (Hss (proj1 (proj1 Hg) _ _ Hs)) as (_ & Hm & _).
  exists s'. split; [done|]. rewrite A. intros k Hk'. by apply Hm, Hc.
Qed.

Lemma triple_alloc F n :
  firm F -> 0 <= n <= 2 ^ 31 -> triple (rdy F) (sbrk_alloc_ mmap n) (fun _ => chunked F n).
Proof.
  intros HF Hn. apply (triple_sbrk h d F _ (fun _ b s => chunk s (sb_last_offset b) n)); [done|].
  intros st st' r Hh Hb Hrun.
  destruct (sbrk_alloc_run mmap h n _ _ _ Hh Hb Hn Hrun) as (Hs & Hm & Hok). split; [done|].
  split; [rewrite Hm; by intros x _|]. intros [] ->. destruct (Hok eq_refl) as (_ & Hb' & Hl & Hc).
  split; [done|]. by rewrite Hl.
Qed.

Lemma triple_ptr F n :
  firm F -> 0 < n -> triple (chunked F n) sbrk_ptr_ (fun a p => rdy F p /\ guest_range (p_space p) a n).
Proof.
  intros HF Hn p p' r Hg [Hr (s & Hs & Hc)] Hrun.
  destruct (triple_sbrk h d F (st ← get; lift (sbrk_ptr st)) (fun _ _ _ => True) HF) with (p := p) (p' := p') (r := r)
    as [H1 H2]; [intros st st' x _ Hb [= <- <-]; split; [done|]; split; [by intros y _|done]|done|done|exact Hrun|].
  split; [done|]. intros a Ha. destruct (H2 a Ha) as [Hr' _]. split; [done|].
  destruct Hr as (Hd & _ & _). revert Hrun. unfold sbrk_ptr_, on_sbrk, get, lift, mbind, M_bind. rewrite Hd, Hs.
  rewrite (sbrk_ptr_run (mkSbrkState (p_alloc p) s (g_mem (p_guest p))) n (proj1 (proj1 Hg) _ _ Hs) Hn Hc).
  intros [= <- <-]. injection Ha as <-. intros k Hk. exists d, s, (sb_last_offset (p_alloc p) + k).
  split; [exact (lookup_insert_eq _ _ _)|]. split; [by apply Hc|lia].
Qed.

Lemma triple_push_string F str : firm F -> short str -> triple (rdy F) (push_string_ mmap str) (fun _ => rdy F).
Proof.
  intros HF Hshort. apply (triple_bind _ (fun _ => rdy F)).
  - eapply (triple_weaken _ (rdy F) _ (fun a p => rdy F p /\ _)); [|done|by intros a p [H _]].
    apply (triple_sbrk h d F _ (fun _ _ _ => True)); [done|]. intros st st' r Hh Hb Hrun.
    destruct (push_string_run mmap h str _ _ _ Hh Hb Hshort Hrun) as (Hs & Hm & Hok). split; [done|].
    split; [done|]. intros [] ->. by destruct (Hok eq_refl).
  - intros _. apply triple_quiet; [by apply ready_lasting|]. apply keeps_gets, _.
Qed.

Lemma triple_push_strings F l :
  firm F -> Forall short l -> triple (rdy F) (push_strings mmap l) (fun _ => rdy F).
Proof.
  intros HF. induction 1 as [|s l Hs _ IH]; [apply (triple_ret (fun _ => rdy F))|]. cbn [push_strings].
  apply (triple_bind _ (fun _ => rdy F)); [by apply triple_push_string|]. intros o.
  apply (triple_bind _ (fun _ => rdy F)); [exact IH|]. intros os. apply (triple_ret (fun _ => rdy F)).
Qed.

(** A pointer to the start of a segment. *)
Lemma triple_seg_pointer P seg n :
  lasting P -> 0 < n < 2 ^ 64 ->
  triple P (on_segment seg (s ← get; lift (pointer s 0 n))) (fun q p => P p /\ guest_range (p_space p) q n).
Proof.
  intros Hl Hn p p' r Hg HP Hrun.
  assert (Hq : quiet p p') by (revert Hrun; apply on_segment_quiet; keeps).
  split; [apply Hq|]. intros q ->. split; [by apply (Hl p)|].
  revert Hrun. unfold on_segment. destruct (segs (p_space p) !! seg) as [s|] eqn:Es; [|done].
  unfold get, lift, mbind, M_bind. intros [= <- Hp].
  destruct (check_bounds_range s 0 n (proj1 (proj1 Hg) _ _ Es)) as (b & _ & Hb & Hx); [lia|lia|].
  rewrite Hp in Hx. destruct b; [|done]. destruct Hx as [[= ->] _]. intros k Hk.
  exists seg, s, k. split; [exact (lookup_insert_eq _ _ _)|]. split; [by apply Hb|lia].
Qed.

(** The words a magic area is filled with. *)
Lemma triple_fill_words P a0 N n w step : forall a v,
  lasting P -> (forall p, P p -> guest_range (p_space p) a0 N) ->
  a0 <= a -> 0 <= step -> a + step * (Z.of_nat n - 1) + Z.of_nat w <= a0 + N ->
  triple P (fill_words n w step a v) (fun _ => P).
Proof.
  induction n as [|n IH]; intros a v Hl Hr Ha Hs Hle; [apply (triple_ret (fun _ => P))|]. cbn [fill_words].
  apply (triple_bind _ (fun _ => P)).
  - apply (triple_store P a (Z.of_nat w)); [done| |by rewrite length_le_bytes].
    intros p Hp. replace a with (a0 + (a - a0)) by lia. apply (guest_range_part _ a0 N); [by apply Hr|lia|nia].
  - intros _. apply IH; [done|done|lia|done|nia].
Qed.

Lemma triple_write_pids P a N o1 o2 o3 :
  lasting P -> (forall p, P p -> guest_range (p_space p) a N) ->
  0 <= o1 -> o1 + 2 <= N -> 0 <= o2 -> o2 + 2 <= N -> 0 <= o3 -> o3 + 4 <= N ->
  triple P (write_pids a o1 o2 o3) (fun _ => P).
Proof.
  intros Hl Hr H1 H1' H2 H2' H3 H3'. unfold write_pids.
  assert (Hpart : forall o m p, 0 <= o -> o + m <= N -> P p -> guest_range (p_space p) (a + o) m).
  { intros o m p Ho Hm Hp. by apply (guest_range_part _ a N); [apply Hr|..]. }
  assert (Hput : forall o n v, 0 <= o -> o + Z.of_nat n <= N -> triple P (host_store (a + o) (le_bytes n v)) (fun _ => P)).
  { intros o n v Ho Hn. apply (triple_store P _ (Z.of_nat n)); [done|auto|by rewrite length_le_bytes]. }
  apply triple_quiet_bind; [done|keeps|]. intros my.
  apply (triple_bind _ (fun _ => P)); [by apply Hput|]. intros _.
  apply triple_quiet_bind; [done|keeps|]. intros dads.
  apply (triple_bind _ (fun _ => P)); [by apply Hput|]. intros _. by apply Hput.
Qed.

(** *** The magic areas *)

Lemma on_segment_keeps r {A} (op : M Segment A) F :
  firm F -> keeps seg_stays op -> triple (rdy F) (on_segment r op) (fun _ => rdy F).
Proof. intros HF Hop. apply triple_quiet; [by apply ready_lasting|by apply on_segment_quiet]. Qed.

Lemma on_space_keeps {A} (op : M Space A) F :
  firm F -> keeps space_stays op -> triple (rdy F) (on_space op) (fun _ => rdy F).
Proof. intros HF Hop. apply triple_quiet; [by apply ready_lasting|by apply on_space_quiet]. Qed.

(** [fill] notes the address of the area. *)
Lemma triple_magic_area F G n m sd fill :
  firm F -> firm G -> 0 < n <= 2 ^ 31 -> 0 <= m < 2 ^ 43 ->
  (forall a g, triple (fun p => rdy F p /\ guest_range (p_space p) a n) (fill a g) (fun _ => rdy G)) ->
  triple (rdy F) (magic_area mmap n m sd fill) (fun _ => rdy G).
Proof using Hmmap.
  intros HF HG Hn Hm Hfill. unfold magic_area.
  apply (triple_bind _ (fun _ => rdy F)); [by apply triple_align|]. intros _.
  apply (triple_bind _ (fun _ => chunked F n)); [apply triple_alloc; [done|lia]|]. intros _.
  apply triple_quiet_bind; [by apply chunked_lasting|unfold sbrk_offset_; keeps|]. intros off. cbv zeta.
  eapply triple_bind; [apply triple_ptr; [done|lia]|]. intros a. cbv beta.
  eapply triple_bind; [apply Hfill|]. intros ?. cbv beta.
  eapply triple_bind; [apply on_space_keeps; [done|keeps]|]. intros seg. cbv beta.
  eapply triple_bind; [apply on_segment_keeps; [done|by apply reserve_stays]|]. intros ?. cbv beta.
  eapply triple_bind; [apply on_segment_keeps; [done|apply grow_bytes_stays; lia]|]. intros ?.
  apply (triple_ret (fun _ => rdy G)).
Qed.

(** What holds of the pointers, in either bitness. *)
Definition magic_at (w16 : bool) (a : Z) (p : Process) : Prop :=
  (if w16 then p_magic16 p else p_magic p) = Some a /\ guest_range (p_space p) a sizeof_magic.

Lemma firm_magic w16 a : firm (magic_at w16 a).
Proof.
  apply firm_and; [|apply firm_range].
  intros p p' _ _ E. unfold members in E. destruct w16; congruence.
Qed.

(** A fact the assignment of the magic pointers does not disturb. *)
Definition apart (w16 : bool) (F : Process -> Prop) : Prop :=
  forall a g p, guest_range (p_space p) a sizeof_magic -> F p ->
    F (set_magic (if w16 then p_magic p else Some a) (if w16 then Some a else p_magic16 p) g p).

Lemma triple_set_magic w16 F a g :
  apart w16 F ->
  triple (fun p => rdy F p /\ guest_range (p_space p) a sizeof_magic)
    (Prelude.modify (fun p => set_magic (if w16 then p_magic p else Some a) (if w16 then Some a else p_magic16 p) g p))
    (fun _ => rdy (fun p => F p /\ exists a, magic_at w16 a p)).
Proof.
  intros Ha p p' r Hg [(Hd & Hb & Hh & HF) Hr] [= <- <-]. split; [intros _; split; [done|]; split; [done|]; by intros x _ _|].
  intros _ _. split; [done|]. split; [done|]. split; [done|]. split; [by apply Ha|]. exists a.
  split; [by destruct w16|done].
Qed.

Lemma firm_area w16 F : firm F -> firm (fun p => F p /\ exists a, magic_at w16 a p).
Proof. intros HF. apply firm_and; [done|]. apply firm_exists. intros a. apply firm_magic. Qed.

(** The pointer segment, and the area itself. *)
Lemma publish_magic_quiet seg : keeps quiet (publish_magic modify_ldt seg).
Proof.
  unfold publish_magic. apply keeps_bind; [apply _|apply on_space_quiet; auto with keeps|]. keeps.
Qed.

Lemma rdy_weaken F G p : (F p -> G p) -> rdy F p -> rdy G p.
Proof. intros H (H1 & H2 & H3 & H4). unfold ready. auto. Qed.

(** Read the area's address, and keep it. *)
Lemma triple_area {A} (w16 : bool) F (f : Process -> M Process A) Q :
  firm F ->
  (forall (p : Process) (a : Z), (if w16 then p_magic16 p else p_magic p) = Some a ->
     triple (rdy (fun p' => F p' /\ magic_at w16 a p')) (f p) Q) ->
  triple (rdy (fun p => F p /\ exists a, magic_at w16 a p)) (p ← get; f p) Q.
Proof.
  intros HF H. apply triple_get. intros p (_ & _ & _ & _ & a & Ha).
  eapply (triple_weaken _ _ Q Q); [apply (H p a (proj1 Ha))| |done].
  intros p' [-> Hp]. revert Hp. apply rdy_weaken. by intros [HFp _].
Qed.

Lemma setup_magic_triple F sd :
  firm F -> apart false F -> triple (rdy F) (setup_magic mmap modify_ldt sd) (fun _ => rdy F).
Proof using Hmmap.
  intros HF Ha. unfold setup_magic. set (G := fun p => F p /\ exists a, magic_at false a p).
  assert (HG : firm G) by by apply firm_area.
  eapply triple_bind.
  { apply (triple_magic_area F G); [done|done|split; by vm_compute|split; by vm_compute|].
    intros a g. by apply (triple_set_magic false). }
  intros seg. cbv beta. eapply triple_bind; [apply on_segment_keeps; [done|keeps]|]. intros ?. cbv beta.
  eapply triple_bind; [apply triple_seg_pointer; [by apply ready_lasting|lia]|]. intros q. cbv beta.
  assert (HGq : firm (fun p => F p /\ guest_range (p_space p) q 8)) by (apply firm_and; [done|apply firm_range]).
  apply (triple_weaken _ (rdy (fun p => (F p /\ guest_range (p_space p) q 8) /\ exists a, magic_at false a p)) _ (fun _ => rdy F));
    [|intros p [(H1 & H2 & H3 & H4) H5]; unfold ready, G in *; tauto|done].
  apply triple_area; [done|]. intros p x Hp. rewrite Hp.
  set (P' := rdy _). assert (Hl : lasting P').
  { apply ready_lasting, firm_and; [done|apply firm_magic]. }
  apply (triple_bind _ (fun _ => P')).
  { apply (triple_store P' q 8); [done|by intros p' (_ & _ & _ & (_ & ?) & _)|].
    unfold far_pointer_bytes. rewrite length_app, !length_le_bytes. lia. }
  intros _. apply triple_quiet_bind; [done|apply publish_magic_quiet|]. intros _. cbn [magic_ptr].
  assert (Hr : forall p, P' p -> guest_range (p_space p) x sizeof_magic) by by intros p' (_ & _ & _ & _ & _ & ?).
  apply triple_ret_bind. apply (triple_bind _ (fun _ => P')).
  { apply (triple_fill_words P' x sizeof_magic); [done|done|lia|lia|change sizeof_magic with 144; zlia]. }
  intros _. apply (triple_weaken _ P' _ (fun _ => P')); [|done|].
  { apply (triple_write_pids P' x sizeof_magic); [exact Hl|exact Hr|change sizeof_magic with 144; lia..]. }
  intros _ p'. apply rdy_weaken. tauto.
Qed.

Lemma setup_magic16_triple F sd :
  firm F -> apart true F -> triple (rdy F) (setup_magic16 mmap modify_ldt sd) (fun _ => rdy F).
Proof using Hmmap.
  intros HF Ha. unfold setup_magic16. set (G := fun p => F p /\ exists a, magic_at true a p).
  assert (HG : firm G) by by apply firm_area.
  eapply triple_bind.
  { apply (triple_magic_area F G); [done|done|split; by vm_compute|split; by vm_compute|].
    intros a g. by apply (triple_set_magic true). }
  intros seg. cbv beta.
  eapply triple_bind; [apply triple_seg_pointer; [by apply ready_lasting|lia]|]. intros q. cbv beta.
  assert (HGq : firm (fun p => F p /\ guest_range (p_space p) q 8)) by (apply firm_and; [done|apply firm_range]).
  apply (triple_weaken _ (rdy (fun p => (F p /\ guest_range (p_space p) q 8) /\ exists a, magic_at true a p)) _ (fun _ => rdy F));
    [|intros p [(H1 & H2 & H3 & H4) H5]; unfold ready, G in *; tauto|done].
  apply triple_area; [done|]. intros p x Hp. rewrite Hp.
  set (P' := rdy _). assert (Hl : lasting P').
  { apply ready_lasting, firm_and; [done|apply firm_magic]. }
  assert (Hr : forall p, P' p -> guest_range (p_space p) x sizeof_magic) by by intros p' (_ & _ & _ & _ & _ & ?).
  apply (triple_bind _ (fun _ => P')).
  { apply (triple_store P' q 8); [done|by intros p' (_ & _ & _ & (_ & ?) & _)|].
    unfold far_pointer16_bytes. rewrite length_app, !length_le_bytes. lia. }
  intros _. apply triple_quiet_bind; [done|apply publish_magic_quiet|]. intros _. cbn [magic_ptr].
  apply triple_ret_bind. apply (triple_bind _ (fun _ => P')).
  { apply (triple_fill_words P' x sizeof_magic); [done|done|lia|lia|change sizeof_magic with 144; zlia]. }
  intros _. apply (triple_bind _ (fun _ => P')).
  { apply (triple_write_pids P' x sizeof_magic); [exact Hl|exact Hr|change sizeof_magic with 144; lia..]. }
  intros _. apply (triple_weaken _ P' _ (fun _ => P')); [|done|intros _ p'; apply rdy_weaken; tauto].
  apply (triple_store P' _ 4); [done| |].
  - intros p' Hp'. replace (x + 40 + 4 * SPTRS16_SLIB16PTR) with (x + 40) by (change (4 * SPTRS16_SLIB16PTR) with 0; lia).
    apply (guest_range_part _ x sizeof_magic); [by apply Hr|lia|change sizeof_magic with 144; lia].
  - unfold far_pointer16_bytes. rewrite length_app, !length_le_bytes. lia.
Qed.
(** *** The spawn message and the stack *)

(** The strings the guest sees fit 32 bits. *)
Definition short_texts (argv : list cstring) (p : Process) : Prop :=
  (forall path args, guest_argv p argv = Ok (path, args) -> Forall short (path :: args)) /\
  (forall env, guest_env environ getcwd p = Ok env -> Forall short env).

Lemma short_texts_same argv p p' :
  p_interpreter p' = p_interpreter p -> p_paths p' = p_paths p -> short_texts argv p -> short_texts argv p'.
Proof.
  intros Hi Hp [H1 H2]. split.
  - intros path args. unfold guest_argv. rewrite Hi. apply H1.
  - intros env. unfold guest_env. rewrite Hp. apply H2.
Qed.

Lemma firm_texts argv : firm (short_texts argv).
Proof. intros p p' _ _ E. apply short_texts_same; unfold members in E; congruence. Qed.

Lemma spawn_sizes : 0 < sizeof_spawn <= 2 ^ 31 /\ 2 <= sizeof_spawn /\
  0 <= off_argc /\ off_argc + 2 <= sizeof_spawn /\ 0 <= off_envc /\ off_envc + 2 <= sizeof_spawn.
Proof. repeat split; by vm_compute. Qed.

Lemma setup_spawn_triple F argv :
  firm F -> (forall p, F p -> short_texts argv p) ->
  triple (rdy F) (setup_spawn mmap environ getcwd argv) (fun _ => rdy F).
Proof.
  intros HF Hshort. destruct spawn_sizes as (Z1 & Z2 & Z3 & Z4 & Z5 & Z6). unfold setup_spawn.
  apply (triple_bind _ (fun _ => rdy F)); [by apply triple_align|]. intros _.
  apply (triple_bind _ (fun _ => chunked F sizeof_spawn)); [apply triple_alloc; [done|lia]|]. intros _.
  apply triple_quiet_bind; [by apply chunked_lasting|unfold sbrk_offset_; keeps|]. intros off.
  apply triple_quiet_bind; [by apply chunked_lasting|keeps|]. intros _.
  eapply triple_bind; [apply triple_ptr; [done|lia]|]. intros a. cbv beta.
  set (G := fun p => F p /\ guest_range (p_space p) a sizeof_spawn).
  assert (HG : firm G) by (apply firm_and; [done|apply firm_range]).
  assert (Hl : lasting (rdy G)) by by apply ready_lasting.
  apply (triple_weaken _ (rdy G) _ (fun _ => rdy G));
    [|intros p [(H1 & H2 & H3 & H4) H5]; by split_and!|intros _ p; apply rdy_weaken; by intros []].
  assert (Hput : forall o v, 0 <= o -> o + 2 <= sizeof_spawn -> triple (rdy G) (host_store (a + o) (le_bytes 2 v)) (fun _ => rdy G)).
  { intros o v H1 H2. apply (triple_store _ _ 2); [done| |by rewrite length_le_bytes].
    intros p (_ & _ & _ & _ & Hr). by apply (guest_range_part _ a sizeof_spawn). }
  apply (triple_bind _ (fun _ => rdy G)); [rewrite <- (Z.add_0_r a); by apply Hput|]. intros _.
  apply triple_get. intros p (_ & _ & _ & Hp & _). destruct (Hshort p Hp) as [Ha He].
  apply (triple_weaken _ (rdy G) _ (fun _ => rdy G)); [|by intros p' [-> ?]|done].
  apply triple_lift. intros [path args] Epath. apply Ha, Forall_cons in Epath as [Hs1 Hs2].
  apply (triple_bind _ (fun _ => rdy G)); [by apply triple_push_string|]. intros _.
  apply (triple_bind _ (fun _ => rdy G)); [by apply triple_push_strings|]. intros offs.
  apply (triple_bind _ (fun _ => rdy G)); [by apply triple_push_string|]. intros _.
  apply triple_lift. intros env Eenv. apply He in Eenv.
  apply (triple_bind _ (fun _ => rdy G)); [by apply triple_push_strings|]. intros eoffs.
  apply (triple_bind _ (fun _ => rdy G)); [by apply triple_push_string|]. intros _.
  apply (triple_bind _ (fun _ => rdy G)); [by apply Hput|]. intros _.
  apply (triple_bind _ (fun _ => rdy G)); [by apply Hput|]. intros _.
  apply (triple_bind _ (fun _ => rdy G)); [by apply triple_align|]. intros _.
  apply (triple_ret (fun _ => rdy G)).
Qed.

Lemma startup_regs_quiet : keeps quiet startup_regs.
Proof. unfold startup_regs. keeps. Qed.

Lemma modify_quiet g :
  (forall p, p_space (g p) = p_space p) -> (forall p, p_guest (g p) = p_guest p) ->
  (forall p, members (g p) = members p) -> (forall p, p_alloc (g p) = p_alloc p) ->
  keeps quiet (Prelude.modify g).
Proof. intros H1 H2 H3 H4. apply keeps_modify. intros p. by apply quiet_same. Qed.

(** A quiet step, with what it leaves when it returns. *)
Lemma triple_quiet_post {A} P (m : M Process A) (Q : A -> Process -> Prop) :
  lasting P -> keeps quiet m -> (forall p p' a, good p -> P p -> m p = (p', Ok a) -> Q a p') ->
  triple P m (fun a p => P p /\ Q a p).
Proof.
  intros Hl Hm HQ p p' r Hg HP Hrun. pose proof (Hm _ _ _ Hrun) as H. split; [apply H|].
  intros a ->. split; [by apply (Hl p)|by eapply HQ].
Qed.

(** The bytes of the [_timesel] are mapped in a segment. *)
Definition time_at (seg : nat) (p : Process) : Prop :=
  exists s, segs (p_space p) !! seg = Some s /\ forall o, 0 <= o < sizeof_timesel -> mapped s o.

Lemma firm_time_at seg : firm (time_at seg).
Proof.
  intros p p' Hg H _ (s & Hs & Hm). destruct (H Hg) as (_ & Hst & _).
  destruct (proj2 (proj2 (space_stays_grows _ _ Hst (proj1 Hg))) _ _ Hs) as (s' & Hs' & Hm'). exists s'. auto.
Qed.

Definition timed_process (p : Process) : Prop := time_at (p_time_segment p) p.

Lemma firm_timed : firm timed_process.
Proof.
  intros p p' Hg H E Ht. unfold timed_process. replace (p_time_segment p') with (p_time_segment p)
    by (revert E; unfold members; congruence). by apply (firm_time_at _ p).
Qed.

(** A segment with nothing in it yet. *)
Definition empty_at (seg : nat) (p : Process) : Prop :=
  exists s, segs (p_space p) !! seg = Some s /\ m_paged_size s = 0.

Lemma on_segment_Ok {A} seg (op : M Segment A) p p' a :
  on_segment seg op p = (p', Ok a) ->
  exists s s', segs (p_space p) !! seg = Some s /\ op s = (s', Ok a) /\ segs (p_space p') !! seg = Some s'.
Proof.
  unfold on_segment. destruct (segs (p_space p) !! seg) as [s|]; [|done]. destruct (op s) as [s' o] eqn:E.
  intros [= <- ->]. exists s, s'. split; [done|]. split; [done|]. simpl. apply lookup_insert_eq.
Qed.

(** Growing an empty segment maps its bytes. *)
Lemma grow_empty n s s' :
  0 <= n < 2 ^ 44 -> Segment.wf s -> m_paged_size s = 0 -> grow_bytes mmap n s = (s', Ok ()) ->
  forall o, 0 <= o < n -> mapped s' o.
Proof.
  intros Hn Hw Hp Hrun o Ho. destruct (grow_bytes_stays mmap n Hn _ _ _ Hrun Hw) as (Hw' & _ & Hsol & _).
  apply (Hsol 0); [intros q; lia|lia|lia|].
  destruct (grow_bytes_inv _ _ _ _ _ Hw Hn Hrun) as (_ & _ & _ & _ & [[_ [? ?]]|[_ Hs]]); [done|].
  unfold Segment.wf, Segment.size in *. lia.
Qed.

(** A fact the assignment of the time segment does not disturb. *)
Definition apart_time (F : Process -> Prop) : Prop := forall r sel p, F p -> F (set_time r sel p).

Lemma setup_time_triple F :
  firm F -> apart_time F ->
  triple (rdy F) (setup_time_segment mmap modify_ldt) (fun _ => rdy (fun p => F p /\ timed_process p)).
Proof using Hmmap.
  intros HF Ha. assert (Hl : lasting (rdy F)) by by apply ready_lasting.
  assert (Hlt : forall seg, lasting (rdy (fun p => F p /\ time_at seg p)))
    by (intros seg; apply ready_lasting, firm_and; [done|apply firm_time_at]).
  unfold setup_time_segment.
  eapply triple_bind; [apply (triple_quiet_post _ _ empty_at Hl); [apply on_space_quiet; auto with keeps|]|].
  { intros p p' seg _ _. unfold on_space. simpl. intros [= <- <-]. exists Segment_new. split; [|done].
    simpl. apply lookup_insert_eq. }
  intros seg. apply (triple_bind _ (fun _ p => rdy F p /\ empty_at seg p)).
  { intros p p' r Hg [Hp (s & Hs & H0)] Hrun.
    destruct (triple_quiet (rdy F) _ Hl (on_segment_quiet seg _ (reserve_stays mmap Hmmap MemOps.PAGE_SIZE ltac:(split; by vm_compute)))
      p p' r Hg Hp Hrun) as [H1 H2]. split; [done|]. intros u ->. split; [by eapply H2|].
    apply on_segment_Ok in Hrun as (s1 & s2 & Hs1 & Hr & Hs2). exists s2. split; [done|].
    rewrite Hs in Hs1. injection Hs1 as <-. revert Hr. unfold reserve, get, lift, throw, put, mbind, M_bind.
    destruct (check _ _); [|done]. destruct (mmap _ _ _ _); [|done]. by intros [= <-]. }
  intros _. apply (triple_bind _ (fun _ p => rdy (fun p => F p /\ time_at seg p) p)).
  { intros p p' r Hg [Hp (s & Hs & H0)] Hrun.
    assert (Hn : 0 <= sizeof_timesel < 2 ^ 44) by (split; by vm_compute).
    destruct (triple_quiet (rdy F) _ Hl (on_segment_quiet seg _ (grow_bytes_stays mmap _ Hn)) p p' r Hg Hp Hrun) as [H1 H2].
    split; [done|]. intros [] ->. destruct (H2 () eq_refl) as (D1 & D2 & D3 & D4).
    split; [exact D1|]. split; [exact D2|]. split; [exact D3|]. split; [exact D4|]. apply on_segment_Ok in Hrun as (s1 & s2 & Hs1 & Hr & Hs2). exists s2. split; [done|].
    rewrite Hs in Hs1. injection Hs1 as <-. by apply (grow_empty _ s _ Hn (proj1 (proj1 Hg) _ _ Hs) H0 Hr). }
  intros _. apply triple_quiet_bind; [apply Hlt|apply on_space_quiet; auto with keeps|]. intros sd.
  intros p p' r Hg (D1 & D2 & D3 & D4 & D5) [= <- <-].
  split; [intros _; split; [done|]; split; [done|]; by intros x _ _|]. intros _ _.
  split; [exact D1|]. split; [exact D2|]. split; [exact D3|]. split; [by apply Ha|]. exact D5.
Qed.

Lemma set_entry_quiet : keeps quiet set_entry.
Proof. unfold set_entry. keeps. Qed.

(** Behind the choice of the data segment. *)
Lemma startup_tail F argv data_sd (b : Bitness) :
  firm F -> (forall w, apart w F) -> apart_time F -> (forall p, F p -> short_texts argv p) ->
  triple (rdy F)
    (_ ← (match b with B16 => setup_magic16 mmap modify_ldt data_sd | B32 => setup_magic mmap modify_ldt data_sd end);
     _ ← setup_time_segment mmap modify_ldt;
     '(argv_offsets, envp_offsets) ← setup_spawn mmap environ getcwd argv;
     _ ← (match b with B32 => push_stack_env argv_offsets envp_offsets | B16 => mret () end);
     _ ← set_entry;
     _ ← on_space (update_descriptors modify_ldt data_sd);
     next ← gets (fun p => sb_offset (p_alloc p));
     _ ← greg_set EBX next;
     data_size ← on_segment (sd_seg data_sd) (gets Segment.size);
     greg_set ECX (data_size - next)) (fun _ => rdy (fun p => F p /\ timed_process p)).
Proof using Hmmap.
  intros HF Ha Hat Hs. set (G := fun p => F p /\ timed_process p).
  assert (HG : firm G) by (apply firm_and; [done|apply firm_timed]).
  assert (Hl : lasting (rdy G)) by by apply ready_lasting.
  apply (triple_bind _ (fun _ => rdy F)).
  { destruct b; [exact (setup_magic_triple F data_sd HF (Ha false))|exact (setup_magic16_triple F data_sd HF (Ha true))]. }
  intros _. apply (triple_bind _ (fun _ => rdy G)); [by apply setup_time_triple|]. intros _.
  apply (triple_bind _ (fun _ => rdy G)); [apply setup_spawn_triple; [done|by intros p [Hp _]; apply Hs]|]. intros [ao eo].
  apply triple_quiet; [done|]. apply keeps_bind; [apply _|destruct b; [apply push_stack_env_quiet|keeps]|]. intros _.
  apply keeps_bind; [apply _|apply set_entry_quiet|]. intros _.
  apply keeps_bind; [apply _|apply on_space_quiet; auto with keeps|]. intros _.
  apply keeps_bind; [apply _|apply keeps_gets, _|]. intros next.
  apply keeps_bind; [apply _|keeps|]. intros _.
  apply keeps_bind; [apply _|apply on_segment_quiet; keeps|]. keeps.
Qed.
End Startup.

(** The 32-bit magic area, when there is one, is guest memory. *)
Definition magic_inside (p : Process) : Prop :=
  forall a, p_magic p = Some a -> guest_range (p_space p) a sizeof_magic.

Lemma firm_magic_inside : firm magic_inside.
Proof.
  intros p p' Hg Hp E H a Ha. apply (firm_range a sizeof_magic p p'); [done|done|done|]. apply H.
  unfold members in E. congruence.
Qed.

(** *** [setup_startup_context] *)
Lemma startup_prepares mmap modify_ldt environ getcwd argv p p' r :
  mmap_law mmap -> good p ->
  (cs (p_load_exec p) <> 0 -> heap_ok (p_load_exec p) (p_space p)) ->
  magic_inside p -> short_texts environ getcwd argv p ->
  setup_startup_context mmap modify_ldt environ getcwd argv p = (p', r) ->
  prepares p p' /\ (r = Ok () -> magic_inside p' /\ p_paths p' = p_paths p /\ timed_process p').
Proof.
  intros Hmmap Hg Hheap Hm Ht. unfold setup_startup_context. unfold mbind at 1, M_bind at 1.
  destruct (startup_regs p) as [p1 [[]|e]] eqn:E1; pose proof (startup_regs_quiet _ _ _ E1) as H1;
    [|intros Hx; injection Hx as <- <-; split; [exact (proj1 H1)|discriminate]].
  assert (Hcs : cs (p_load_exec p) <> 0).
  { revert E1. unfold startup_regs, get, mbind, M_bind.
    destruct (Z.eqb_spec (cs (p_load_exec p)) 0) as [E0|E0]; [|by intros _]. rewrite orb_true_r. discriminate. }
  specialize (Hheap Hcs). destruct H1 as (P1 & M1 & A1). destruct (P1 Hg) as (Hg1 & Hst & _).
  assert (Hli : p_load_exec p1 = p_load_exec p) by (unfold members in M1; congruence).
  apply (heap_ok_stays _ _ _ (proj1 Hg) Hst) in Hheap. rewrite <- Hli in Hheap.
  unfold get at 1, mbind at 1, M_bind at 1. destruct Hheap as [Hb (sd & s & Hd & Hs & Hsol & Hr)]. rewrite Hd.
  unfold mbind at 1, M_bind at 1, Prelude.modify at 1. set (p2 := set_alloc _ _ p1).
  set (h := heap_start (p_load_exec p1)) in *.
  set (F := fun q => (magic_inside q /\ p_paths q = p_paths p) /\ short_texts environ getcwd argv q).
  assert (HF : firm F).
  { apply firm_and; [apply firm_and; [apply firm_magic_inside|]|apply firm_texts].
    intros q q' _ _ E. unfold members in E. congruence. }
  assert (Hw1 : p_paths p1 = p_paths p) by (unfold members in M1; congruence).
  assert (Hrdy : ready h (sd_seg sd) F p2).
  { split; [done|]. split; [split; simpl; lia|]. split; [by exists s|].
    assert (HF1 : F p1) by (apply (HF p); [done|done|done|split; [by split|done]]). exact HF1. }
  intros Hrun. apply (startup_tail mmap Hmmap modify_ldt environ getcwd h (sd_seg sd) F argv sd (p_bits p1)) in Hrun;
    [|done| |by intros w a q [Hmi Hst']; split; [|by apply (short_texts_same _ _ _ q)]|by intros q []|done|done].
  - destruct Hrun as [P2 HQ]. split; [apply (transitivity (R := prepares) P1); exact P2|].
    intros Hok. destruct (HQ () Hok) as (_ & _ & _ & [[? ?] _] & ?). by split_and!.
  - intros w a g q Hra [[Hmi Hpq] Hst']. split; [|by apply (short_texts_same _ _ _ q)].
    split; [|exact Hpq]. intros a'. destruct w; simpl; [apply Hmi|]. by intros [= <-].
Qed.
