(* ===== verification/SpawnSpec.v ===== *)
(** * SpawnSpec: the arguments and the environment of a new program

    What [setup_startup_context] leaves in the startup heap for the guest: the
    spawn message and behind it, without a gap, the strings of the command line
    and of the environment.  The steps are executed symbolically on a process
    whose heap segment, break and memory are named. *)

From S2P Require Import Prelude Types Memory IdMap PathMapper PidMap Msg GuestContext Loader Magic Sandbox LoadSpec LoadHeap Containment Segment AddressSpace Process StartupSpec.

Lemma store_snoc m a bs1 bs2 :
  store (store m a bs1) (a + Z.of_nat (length bs1)) bs2 = store m a (bs1 ++ bs2).
Proof.
  revert a. induction bs1 as [|b bs1 IH]; intros a; [simpl; f_equal; lia|].
  change (length (b :: bs1)) with (S (length bs1)). simpl store.
  rewrite store_insert by lia. f_equal. rewrite <- IH. f_equal. lia.
Qed.

(** ** Growing the heap *)

Section Heap.
Context (mmap : Z -> Z -> Z -> Z -> option Z) (Hmmap : mmap_total mmap).

(** The segment [s'] a heap operation leaves of [s]: the same place, room up to
    the break [b]. *)
Definition room (h : Z) (s s' : Segment) (b : Z) : Prop :=
  heap_seg h s' /\ m_location s' = m_location s /\ m_reserved s' = m_reserved s /\
  (forall o, mapped s o -> mapped s' o) /\
  (forall o, 0 <= o -> h <= o -> o < b -> mapped s' o).

Lemma sbrk_fit_ok h b s m :
  heap_seg h s -> 0 <= sb_offset b <= m_reserved s ->
  exists s', sbrk_fit mmap (mkSbrkState b s m) = (mkSbrkState b s' m, Ok ()) /\ room h s s' (sb_offset b).
Proof using Hmmap.
  intros Hh Hb. pose proof Hh as (Hw & Hsol & Hr). pose proof Hw as (W1 & W2 & _).
  destruct (sbrk_fit mmap (mkSbrkState b s m)) as [st r] eqn:E.
  destruct (sbrk_fit_run mmap h (mkSbrkState b s m) st r Hh ltac:(simpl; lia) E) as (Hst & Hsb & Hm & Hok). simpl in *.
  assert (Hr' : r = Ok () /\ m_location (sb_seg st) = m_location s).
  { revert E. unfold sbrk_fit, Segment.on_segment, get, mbind, M_bind. simpl. unfold Segment.size.
    destruct (Z.ltb_spec (m_limit_size s) (sb_offset b)); [|by intros [= <- <-]].
    rewrite wrapu_small by lia. cbn [sb sb_seg sb_mem].
    destruct (grow_bytes_ok mmap (sb_offset b - m_limit_size s) s Hw Hmmap) as (s' & -> & _ & Hl & _);
      [lia|unfold Segment.size; lia|]. by intros [= <- <-]. }
  destruct Hr' as [-> Hl]. exists (sb_seg st). destruct st as [b' s' m']. simpl in *. subst b' m'. split; [done|].
  destruct (Hok eq_refl) as (Hh' & _ & Hmap). destruct (Hst Hw) as (_ & Hkeep & _ & Hres).
  split; [done|]. split; [done|]. split; [apply Hres; lia|]. split; [intros o Ho; by apply Hkeep|done].
Qed.

Lemma sbrk_alloc_ok h b s m n :
  heap_seg h s -> 0 <= sb_offset b -> 0 <= n -> sb_offset b + n <= m_reserved s ->
  exists s', sbrk_alloc mmap n (mkSbrkState b s m) =
    (mkSbrkState (mkSbrk (sb_offset b + n) (sb_offset b)) s' m, Ok ()) /\ room h s s' (sb_offset b + n).
Proof using Hmmap.
  intros Hh Hb Hn Hle. pose proof Hh as (_ & _ & Hr). unfold sbrk_alloc, modify, mbind, M_bind. simpl.
  rewrite wrapu_small by lia. by apply (sbrk_fit_ok h (mkSbrk (sb_offset b + n) (sb_offset b))); [|simpl; lia].
Qed.

Lemma sbrk_align_ok h b s m :
  heap_seg h s -> 0 <= sb_offset b -> MemOps.align_up (sb_offset b) 16 <= m_reserved s ->
  exists s', sbrk_align mmap (mkSbrkState b s m) =
    (mkSbrkState (mkSbrk (MemOps.align_up (sb_offset b) 16) (sb_last_offset b)) s' m, Ok ()) /\
    room h s s' (MemOps.align_up (sb_offset b) 16).
Proof using Hmmap.
  intros Hh Hb Hle. pose proof Hh as (_ & _ & Hr). unfold sbrk_align, modify, mbind, M_bind. simpl.
  assert (0 <= MemOps.align_up (sb_offset b) 16).
  { unfold MemOps.align_up in *. destruct (_ =? 0); [lia|]. pose proof (wrapu_range 64 ((sb_offset b / 16 + 1) * 16)). lia. }
  rewrite wrapu_small by lia.
  by apply (sbrk_fit_ok h (mkSbrk (MemOps.align_up (sb_offset b) 16) (sb_last_offset b))); [|simpl; lia].
Qed.

Lemma room_trans h s s1 s2 b1 b2 : room h s s1 b1 -> room h s1 s2 b2 -> room h s s2 b2.
Proof.
  intros (H1 & L1 & R1 & K1 & M1) (H2 & L2 & R2 & K2 & M2). split_and!; [done|congruence|congruence|auto|done].
Qed.

(** The bytes of a string on the heap. *)
Definition text (s : cstring) : list Z := s ++ [0].

Lemma length_text s : length (text s) = S (length s).
Proof. unfold text. rewrite length_app. simpl. lia. Qed.

Lemma push_string_ok h b s m str :
  heap_seg h s -> breaks h b -> sb_offset b + Z.of_nat (length (text str)) <= m_reserved s ->
  exists s', push_string mmap str (mkSbrkState b s m) =
    (mkSbrkState (mkSbrk (sb_offset b + Z.of_nat (length (text str))) (sb_offset b)) s'
       (store m (m_location s + sb_offset b) (text str)), Ok ()) /\
    room h s s' (sb_offset b + Z.of_nat (length (text str))).
Proof using Hmmap.
  intros Hh [Hb Hb'] Hle. pose proof Hh as (_ & _ & Hr). rewrite length_text in *. unfold push_string.
  rewrite wrapu_small by lia. set (n := Z.of_nat (length str) + 1).
  replace (Z.of_nat (S (length str))) with n in * by (unfold n; lia).
  destruct (sbrk_alloc_ok h b s m n Hh ltac:(lia) ltac:(lia) Hle) as (s' & E & Hroom).
  exists s'. split; [|done]. unfold mbind, M_bind. rewrite E. unfold get, lift, modify.
  destruct Hroom as (Hh' & Hl & _ & _ & Hmap).
  rewrite (sbrk_ptr_run (mkSbrkState (mkSbrk (sb_offset b + n) (sb_offset b)) s' m) n (proj1 Hh')); [|lia|].
  - simpl. by rewrite Hl.
  - intros k Hk. simpl. apply Hmap; lia.
Qed.
End Heap.

(** ** Steps on a named heap *)

Section Steps.
Context (mmap : Z -> Z -> Z -> Z -> option Z) (Hmmap : mmap_total mmap).
Context (environ : list cstring) (getcwd : cstring).
Context (h : Z) (d : nat).

(** [p] with another break, heap segment and memory. *)
Definition with_heap (p : Process) (b : Sbrk) (s : Segment) (m : Mem) : Process :=
  set_alloc b d (set_space (put_segment d s (p_space p)) (set_guest (set_gmem m (p_guest p)) p)).

Lemma with_heap_self p s :
  p_data p = d -> segs (p_space p) !! d = Some s -> p = with_heap p (p_alloc p) s (g_mem (p_guest p)).
Proof.
  intros Hd Hs. unfold with_heap, put_segment. rewrite insert_id by exact Hs. revert Hd Hs.
  destruct p as [[] []]. cbn. by intros <-.
Qed.

Lemma on_sbrk_heap {A} (op : M SbrkState A) p b s m :
  on_sbrk op (with_heap p b s m) =
    let '(st, r) := op (mkSbrkState b s m) in (with_heap p (sb st) (sb_seg st) (sb_mem st), r).
Proof.
  unfold on_sbrk, with_heap. simpl. rewrite lookup_insert_eq. destruct (op _) as [st r].
  unfold set_alloc, set_space, put_segment. simpl. by rewrite insert_insert_eq.
Qed.

Lemma host_store_heap a bs p b s m : host_store a bs (with_heap p b s m) = (with_heap p b s (store m a bs), Ok ()).
Proof. done. Qed.

Definition with_reg (r : Reg) (v : Z) (p : Process) : Process :=
  set_guest (set_regs (upd (g_regs (p_guest p)) r (wrapu (width r) v)) (p_guest p)) p.

Lemma greg_set_heap r v p b s m : greg_set r v (with_heap p b s m) = (with_heap (with_reg r v p) b s m, Ok ()).
Proof. done. Qed.

(** The strings one after another, and where they start. *)
Definition block (l : list cstring) : list Z := concat (text <$> l).

Fixpoint starts (o : Z) (l : list cstring) : list Z :=
  match l with [] => [] | s :: l => o :: starts (o + Z.of_nat (length (text s))) l end.

Lemma length_block_cons s l : length (block (s :: l)) = (length (text s) + length (block l))%nat.
Proof. unfold block. cbn [fmap list_fmap concat]. by rewrite length_app. Qed.

Lemma push_string_heap p b s m str :
  heap_seg h s -> breaks h b -> sb_offset b + Z.of_nat (length (text str)) <= m_reserved s ->
  exists s', push_string_ mmap str (with_heap p b s m) =
    (with_heap p (mkSbrk (sb_offset b + Z.of_nat (length (text str))) (sb_offset b)) s'
       (store m (m_location s + sb_offset b) (text str)), Ok (sb_offset b)) /\
    room h s s' (sb_offset b + Z.of_nat (length (text str))).
Proof using Hmmap.
  intros Hh Hb Hle. destruct (push_string_ok mmap Hmmap h b s m str Hh Hb Hle) as (s' & E & Hr).
  exists s'. split; [|done]. unfold push_string_, mbind, M_bind. rewrite on_sbrk_heap, E. done.
Qed.

Lemma push_strings_heap l : forall p b s m,
  heap_seg h s -> breaks h b -> sb_offset b + Z.of_nat (length (block l)) <= m_reserved s ->
  exists last s', push_strings mmap l (with_heap p b s m) =
    (with_heap p (mkSbrk (sb_offset b + Z.of_nat (length (block l))) last) s'
       (store m (m_location s + sb_offset b) (block l)), Ok (starts (sb_offset b) l)) /\
    (l = [] -> s' = s) /\ (l <> [] -> room h s s' (sb_offset b + Z.of_nat (length (block l)))).
Proof using Hmmap.
  induction l as [|x l IH]; intros p b s m Hh Hb Hle.
  { exists (sb_last_offset b), s. simpl. rewrite Z.add_0_r. by destruct b. }
  rewrite length_block_cons in *. pose proof Hh as (_ & _ & Hr).
  destruct (push_string_heap p b s m x Hh Hb ltac:(lia)) as (s1 & E1 & R1).
  pose proof R1 as (Hh1 & Hl1 & Hr1 & _). destruct Hb as [Hb1 Hb2].
  set (b1 := mkSbrk (sb_offset b + Z.of_nat (length (text x))) (sb_offset b)) in *.
  destruct (IH p b1 s1 (store m (m_location s + sb_offset b) (text x)) Hh1) as (last & s2 & E2 & R2 & R2');
    [unfold breaks, b1; simpl; lia|unfold b1; simpl; lia|].
  exists last, s2. cbn [push_strings]. unfold mbind, M_bind. rewrite E1, E2. unfold b1. cbn [sb_offset].
  rewrite Hl1. replace (m_location s + (sb_offset b + Z.of_nat (length (text x))))
    with (m_location s + sb_offset b + Z.of_nat (length (text x))) by lia.
  rewrite store_snoc. split; [|split; [done|]].
  - unfold block at 3. cbn [fmap list_fmap concat]. fold (block l). unfold mret, M_ret. cbn [starts].
    rewrite Nat2Z.inj_add. rewrite (Z.add_assoc (sb_offset b)). reflexivity.
  - intros _. replace (sb_offset b + Z.of_nat (length (text x) + length (block l)))
      with (sb_offset b + Z.of_nat (length (text x)) + Z.of_nat (length (block l))) by lia.
    destruct l as [|y l]; [rewrite R2 by done; simpl; by rewrite Z.add_0_r|].
    eapply room_trans; [exact R1|]. by apply R2'.
Qed.
End Steps.

(** ** The strings in memory *)

(** Each string of [l] lies, with its NUL, behind [a] at its offset. *)
Definition lies (m : Mem) (a : Z) (offs : list Z) (l : list cstring) : Prop :=
  Forall2 (fun o s => load m (a + o) (length (text s)) = text s) offs l.

Lemma block_app l1 l2 : block (l1 ++ l2) = block l1 ++ block l2.
Proof. unfold block. by rewrite fmap_app, concat_app. Qed.

Lemma starts_lie m a l : forall o, load m (a + o) (length (block l)) = block l -> lies m a (starts o l) l.
Proof.
  induction l as [|x l IH]; intros o H; [constructor|]. rewrite length_block_cons, load_app in H.
  change (block (x :: l)) with (text x ++ block l) in H. apply app_inj_1 in H as [H1 H2]; [|apply length_load].
  constructor; [done|]. apply IH. by rewrite Z.add_assoc.
Qed.

(** Two parts of a range read together. *)
Lemma load_split m a bs1 bs2 :
  load m a (length (bs1 ++ bs2)) = bs1 ++ bs2 ->
  load m a (length bs1) = bs1 /\ load m (a + Z.of_nat (length bs1)) (length bs2) = bs2.
Proof. rewrite length_app, load_app. intros H. apply app_inj_1 in H; [done|apply length_load]. Qed.

Lemma align_fits s v :
  Segment.wf s -> m_reserved s <= 2 ^ 29 -> 0 <= v <= m_reserved s -> v <= MemOps.align_up v 16 <= m_reserved s.
Proof.
  intros (_ & _ & _ & H & _) Hr Hv. pose proof (align_16 v ltac:(lia)) as Ha. split; [lia|].
  unfold MemOps.align_up in *. unfold MemOps.PAGE_SIZE in H. destruct (v mod 16 =? 0) eqn:E; to_prop; [lia|].
  rewrite wrapu_small in * by zlia. zlia.
Qed.

(** ** The spawn message *)

Lemma sbrk_ptr_heap d p b s m n :
  Segment.wf s -> 0 < n -> chunk s (sb_last_offset b) n ->
  sbrk_ptr_ (with_heap d p b s m) = (with_heap d p b s m, Ok (m_location s + sb_last_offset b)).
Proof.
  intros Hw Hn Hc. unfold sbrk_ptr_. rewrite on_sbrk_heap. unfold get, lift, mbind, M_bind. cbn [sb sb_seg sb_mem].
  by rewrite (sbrk_ptr_run (mkSbrkState b s m) n Hw Hn Hc).
Qed.

Lemma store_block m a l1 l2 :
  store (store m a (block l1)) (a + Z.of_nat (length (block l1))) (block l2) = store m a (block (l1 ++ l2)).
Proof. by rewrite store_snoc, block_app. Qed.

(** A step that succeeds. *)
Lemma bind_runs {S A B} (m : M S A) (f : A -> M S B) s s' a : m s = (s', Ok a) -> (m ≫= f) s = f a s'.
Proof. unfold mbind, M_bind. by intros ->. Qed.

Section Spawn.
Context (mmap : Z -> Z -> Z -> Z -> option Z) (Hmmap : mmap_total mmap).
Context (environ : list cstring) (getcwd : cstring).

(** The strings behind the message, in this order. *)
Definition spawn_strings (path : cstring) (args env : list cstring) : list cstring :=
  path :: args ++ [[]] ++ env ++ [[]].

Definition spawn_off (p : Process) : Z := MemOps.align_up (sb_offset (p_alloc p)) 16.
Definition argv_off (p : Process) (path : cstring) : Z :=
  spawn_off p + sizeof_spawn + Z.of_nat (length (text path)).
Definition envp_off (p : Process) (path : cstring) (args : list cstring) : Z :=
  argv_off p path + Z.of_nat (length (block args)) + 1.
Definition spawn_end (p : Process) (path : cstring) (args env : list cstring) : Z :=
  spawn_off p + sizeof_spawn + Z.of_nat (length (block (spawn_strings path args env))).

(** The memory the steps leave. *)
Definition spawn_mem (a : Z) (path : cstring) (args env : list cstring) (m : Mem) : Mem :=
  let m := store m a (le_bytes 2 spawn_TYPE) in
  let m := store m (a + sizeof_spawn) (block (spawn_strings path args env)) in
  let m := store m (a + off_argc) (le_bytes 2 (Z.of_nat (length args))) in
  store m (a + off_envc) (le_bytes 2 (Z.of_nat (length env))).

Lemma length_starts o l : length (starts o l) = length l.
Proof. revert o. induction l as [|x l IH]; intros o; simpl; [done|]. by rewrite IH. Qed.

Lemma length_spawn_strings path args env :
  Z.of_nat (length (block (spawn_strings path args env))) =
    Z.of_nat (length (text path)) + Z.of_nat (length (block args)) + 1 + Z.of_nat (length (block env)) + 1.
Proof.
  unfold spawn_strings. rewrite length_block_cons, !block_app, !length_app.
  change (length (block [[]])) with 1%nat. lia.
Qed.

(** *** The header of the message *)
Lemma spawn_header h p s :
  segs (p_space p) !! p_data p = Some s -> heap_seg h s -> breaks h (p_alloc p) ->
  spawn_off p + sizeof_spawn <= m_reserved s ->
  exists s', room h s s' (spawn_off p + sizeof_spawn) /\
    forall B (k : Z -> M Process B),
      (_ ← sbrk_align_ mmap; _ ← sbrk_alloc_ mmap sizeof_spawn; off ← sbrk_offset_;
       _ ← greg_set EDI off; a ← sbrk_ptr_; _ ← host_store a (le_bytes 2 spawn_TYPE); k a) p =
      k (m_location s + spawn_off p)
        (with_heap (p_data p) (with_reg EDI (spawn_off p) p) (mkSbrk (spawn_off p + sizeof_spawn) (spawn_off p)) s'
           (store (g_mem (p_guest p)) (m_location s + spawn_off p) (le_bytes 2 spawn_TYPE))).
Proof using Hmmap.
  intros Hs Hh [Hb1 Hb2] Hend. destruct spawn_sizes as (Z1 & Z2 & _). pose proof Hh as (Hw & _ & Hr).
  pose proof (align_16 (sb_offset (p_alloc p)) ltac:(lia)) as Hal. fold (spawn_off p) in Hal.
  set (d := p_data p). pose proof (with_heap_self d p s eq_refl Hs) as Ep.
  set (o := spawn_off p) in *. set (n := sizeof_spawn) in *.
  destruct (sbrk_align_ok mmap Hmmap h (p_alloc p) s (g_mem (p_guest p)) Hh ltac:(lia) ltac:(fold (spawn_off p); fold o; lia))
    as (s1 & E1 & R1). fold (spawn_off p) in E1, R1. fold o in E1, R1.
  pose proof R1 as (Hh1 & L1 & V1 & _).
  destruct (sbrk_alloc_ok mmap Hmmap h (mkSbrk o (sb_last_offset (p_alloc p))) s1 (g_mem (p_guest p)) n Hh1
    ltac:(simpl; lia) ltac:(lia) ltac:(simpl; lia)) as (s2 & E2 & R2). cbn [sb_offset] in E2, R2.
  exists s2. split; [exact (room_trans _ _ _ _ _ _ R1 R2)|]. intros B k.
  pose proof R2 as (Hh2 & L2 & _ & _ & M2).
  assert (Hc : chunk s2 o n) by (intros i Hi; apply M2; lia).
  transitivity ((_ ← sbrk_align_ mmap; _ ← sbrk_alloc_ mmap n; off ← sbrk_offset_;
       _ ← greg_set EDI off; a ← sbrk_ptr_; _ ← host_store a (le_bytes 2 spawn_TYPE); k a)
      (with_heap d p (p_alloc p) s (g_mem (p_guest p)))); [by rewrite <- Ep|].
  rewrite (bind_runs _ _ _ (with_heap d p (mkSbrk o (sb_last_offset (p_alloc p))) s1 (g_mem (p_guest p))) ());
    [|unfold sbrk_align_; by rewrite on_sbrk_heap, E1].
  rewrite (bind_runs _ _ _ (with_heap d p (mkSbrk (o + n) o) s2 (g_mem (p_guest p))) ());
    [|unfold sbrk_alloc_; by rewrite on_sbrk_heap, E2].
  rewrite (bind_runs _ _ _ (with_heap d p (mkSbrk (o + n) o) s2 (g_mem (p_guest p))) o) by done.
  rewrite (bind_runs _ _ _ _ _ (greg_set_heap d EDI o p _ _ _)).
  rewrite (bind_runs _ _ _ _ _ (sbrk_ptr_heap d _ (mkSbrk (o + n) o) _ _ n (proj1 Hh2) ltac:(lia) Hc)).
  cbn [sb_last_offset].
  rewrite (bind_runs _ _ _ _ _ (host_store_heap d _ _ _ _ _ _)). by rewrite L2, L1.
Qed.

(** *** The strings behind the header *)

(** The heap [s0] has room up to the break, below which everything lies. *)
Definition heap_to (h : Z) (s0 s : Segment) (b : Sbrk) : Prop :=
  room h s0 s (sb_offset b) /\ breaks h b.

Lemma push_string_to h d s0 p b s m x :
  heap_to h s0 s b -> sb_offset b + Z.of_nat (length (text x)) <= m_reserved s0 ->
  exists s' b', push_string_ mmap x (with_heap d p b s m) =
    (with_heap d p b' s' (store m (m_location s0 + sb_offset b) (text x)), Ok (sb_offset b)) /\
    heap_to h s0 s' b' /\ sb_offset b' = sb_offset b + Z.of_nat (length (text x)).
Proof using Hmmap.
  intros (R & Hb & Hb') Hle. pose proof R as (Hh & L & V & _). pose proof Hh as (_ & _ & Hr).
  destruct (push_string_heap mmap Hmmap h d p b s m x Hh (conj Hb Hb') ltac:(lia)) as (s' & E & R').
  eexists s', _. rewrite E, L. split; [done|]. split; [|done].
  split; [exact (room_trans _ _ _ _ _ _ R R')|]. unfold breaks. simpl. lia.
Qed.

Lemma push_strings_to h d s0 p b s m l :
  heap_to h s0 s b -> sb_offset b + Z.of_nat (length (block l)) <= m_reserved s0 ->
  exists s' b', push_strings mmap l (with_heap d p b s m) =
    (with_heap d p b' s' (store m (m_location s0 + sb_offset b) (block l)), Ok (starts (sb_offset b) l)) /\
    heap_to h s0 s' b' /\ sb_offset b' = sb_offset b + Z.of_nat (length (block l)).
Proof using Hmmap.
  intros (R & Hb & Hb') Hle. pose proof R as (Hh & L & V & _). pose proof Hh as (_ & _ & Hr).
  destruct (push_strings_heap mmap Hmmap h d l p b s m Hh (conj Hb Hb') ltac:(lia)) as (last & s' & E & R1 & R2).
  eexists s', _. rewrite E, L. split; [done|]. split; [|done]. split; [|unfold breaks; simpl; lia]. cbn [sb_offset].
  destruct l as [|x l]; [rewrite R1 by done; simpl; by rewrite Z.add_0_r|].
  eapply room_trans; [exact R|]. by apply R2.
Qed.

Lemma block_one x : block [x] = text x.
Proof. unfold block. cbn. by rewrite app_nil_r. Qed.

Lemma store_block_at m m1 a l1 l2 c :
  m1 = store m a (block l1) -> c = a + Z.of_nat (length (block l1)) ->
  store m1 c (block l2) = store m a (block (l1 ++ l2)).
Proof. intros -> ->. apply store_block. Qed.

Lemma spawn_texts h d s0 p b s m argv path args env :
  heap_to h s0 s b -> guest_argv p argv = Ok (path, args) -> guest_env environ getcwd p = Ok env ->
  sb_offset b + Z.of_nat (length (block (spawn_strings path args env))) <= m_reserved s0 ->
  let ao := sb_offset b + Z.of_nat (length (text path)) in
  let eo := ao + Z.of_nat (length (block args)) + 1 in
  exists s' b', heap_to h s0 s' b' /\
    sb_offset b' = sb_offset b + Z.of_nat (length (block (spawn_strings path args env))) /\
    forall B (k : list Z -> list Z -> M Process B),
      (q ← get; '(path, args) ← lift (guest_argv q argv); _ ← push_string_ mmap path;
       offs ← push_strings mmap args; _ ← push_string_ mmap []; env ← lift (guest_env environ getcwd q);
       eoffs ← push_strings mmap env; _ ← push_string_ mmap []; k offs eoffs) (with_heap d p b s m) =
      k (starts ao args) (starts eo env)
        (with_heap d p b' s' (store m (m_location s0 + sb_offset b) (block (spawn_strings path args env)))).
Proof using Hmmap.
  intros H0 Ha He Hle. rewrite length_spawn_strings in *. intros ao eo. subst eo ao.
  destruct (push_string_to h d s0 p b s m path H0 ltac:(lia)) as (s1 & b1 & E1 & H1 & O1). rewrite <- O1.
  set (m1 := store _ _ (text path)) in E1.
  destruct (push_strings_to h d s0 p b1 s1 m1 args H1 ltac:(lia)) as (s2 & b2 & E2 & H2 & O2). rewrite <- O2.
  set (m2 := store _ _ (block args)) in E2.
  destruct (push_string_to h d s0 p b2 s2 m2 [] H2 ltac:(cbn [text length app]; lia)) as (s3 & b3 & E3 & H3 & O3).
  replace (sb_offset b2 + 1) with (sb_offset b3) by (rewrite O3; done). change (length (text [])) with 1%nat in O3.
  set (m3 := store _ _ (text [])) in E3.
  destruct (push_strings_to h d s0 p b3 s3 m3 env H3 ltac:(lia)) as (s4 & b4 & E4 & H4 & O4).
  set (m4 := store _ _ (block env)) in E4.
  destruct (push_string_to h d s0 p b4 s4 m4 [] H4 ltac:(cbn [text length app]; lia)) as (s5 & b5 & E5 & H5 & O5).
  change (length (text [])) with 1%nat in O5. set (m5 := store _ _ (text [])) in E5.
  exists s5, b5. split; [done|]. split; [lia|]. intros B k.
  rewrite (bind_runs _ _ _ (with_heap d p b s m) (with_heap d p b s m)) by done.
  change (guest_argv (with_heap d p b s m) argv) with (guest_argv p argv). rewrite Ha.
  rewrite (bind_runs _ _ _ (with_heap d p b s m) (path, args)) by done. cbv beta iota.
  rewrite (bind_runs _ _ _ _ _ E1), (bind_runs _ _ _ _ _ E2), (bind_runs _ _ _ _ _ E3).
  change (guest_env environ getcwd (with_heap d p b s m)) with (guest_env environ getcwd p). rewrite He.
  rewrite (bind_runs (lift (Ok env)) _ (with_heap d p b3 s3 m3) (with_heap d p b3 s3 m3) env) by done.
  rewrite (bind_runs _ _ _ _ _ E4), (bind_runs _ _ _ _ _ E5). do 2 f_equal.
  set (a := m_location s0 + sb_offset b).
  assert (M1 : m1 = store m a (block [path])) by by rewrite block_one.
  assert (M2 : m2 = store m a (block ([path] ++ args))).
  { apply (store_block_at _ m1); [done|]. rewrite block_one. lia. }
  assert (M3 : m3 = store m a (block (([path] ++ args) ++ [[]]))).
  { unfold m3. rewrite <- (block_one []). apply (store_block_at _ m2); [done|].
    rewrite block_app, block_one, length_app. lia. }
  assert (M4 : m4 = store m a (block ((([path] ++ args) ++ [[]]) ++ env))).
  { apply (store_block_at _ m3); [done|].
    rewrite !block_app, !block_one, !length_app. change (length (text [])) with 1%nat. lia. }
  unfold m5. rewrite <- (block_one []), (store_block_at _ m4 a _ [[]] _ M4).
  - unfold spawn_strings. by rewrite <- !app_assoc.
  - rewrite !block_app, !block_one, !length_app. change (length (text [])) with 1%nat. lia.
Qed.
(** *** The memory behind [setup_spawn] *)

Lemma spawn_fields : off_argc = off_envc - 2 /\ 2 <= off_argc /\ off_envc + 2 <= sizeof_spawn.
Proof. repeat split; by vm_compute. Qed.

Lemma peek_store_else m a bs x : x < a \/ a + Z.of_nat (length bs) <= x -> peek (store m a bs) x = peek m x.
Proof. intros H. rewrite peek_store. destruct (Z.leb_spec a x), (Z.ltb_spec x (a + Z.of_nat (length bs))); done || lia. Qed.

Section Reading.
Context (a : Z) (path : cstring) (args env : list cstring) (m : Mem).

Let m' := spawn_mem a path args env m.
Let strings := block (spawn_strings path args env).

Lemma spawn_mem_type : load m' a 2 = le_bytes 2 spawn_TYPE.
Proof.
  pose proof spawn_fields as (F1 & F2 & F3). unfold m', spawn_mem.
  rewrite !load_store_disjoint by (rewrite ?length_le_bytes; lia).
  apply (load_store _ _ (le_bytes 2 spawn_TYPE)).
Qed.

Lemma spawn_mem_argc : load m' (a + off_argc) 2 = le_bytes 2 (Z.of_nat (length args)).
Proof.
  pose proof spawn_fields as (F1 & F2 & F3). unfold m', spawn_mem.
  rewrite load_store_disjoint by (rewrite ?length_le_bytes; lia).
  apply (load_store _ _ (le_bytes 2 _)).
Qed.

Lemma spawn_mem_envc : load m' (a + off_envc) 2 = le_bytes 2 (Z.of_nat (length env)).
Proof. apply (load_store _ _ (le_bytes 2 _)). Qed.

Lemma spawn_mem_strings : load m' (a + sizeof_spawn) (length strings) = strings.
Proof.
  pose proof spawn_fields as (F1 & F2 & F3). unfold m', spawn_mem.
  rewrite !load_store_disjoint by (rewrite ?length_le_bytes; lia). apply load_store.
Qed.

Lemma spawn_mem_else x :
  x < a \/ a + sizeof_spawn + Z.of_nat (length strings) <= x -> peek m' x = peek m x.
Proof.
  pose proof spawn_fields as (F1 & F2 & F3). pose proof spawn_sizes as (S1 & _). intros Hx. unfold m', spawn_mem.
  by rewrite !peek_store_else by (rewrite ?length_le_bytes; fold strings; lia).
Qed.
End Reading.

(** *** The whole of it *)

(** What the guest finds from the address [a] on, its heap at [base]. *)
Record spawned (m m' : Mem) (base a : Z) (path : cstring) (args env : list cstring)
    (argv envp : list Z) : Prop := {
  sp_type : load m' a 2 = le_bytes 2 spawn_TYPE;
  sp_argc : load m' (a + off_argc) 2 = le_bytes 2 (Z.of_nat (length args));
  sp_envc : load m' (a + off_envc) 2 = le_bytes 2 (Z.of_nat (length env));
  sp_strings : load m' (a + sizeof_spawn) (length (block (spawn_strings path args env)))
    = block (spawn_strings path args env);
  sp_args : lies m' base argv args;
  sp_env : lies m' base envp env;
  sp_else : forall x, x < a \/ a + sizeof_spawn + Z.of_nat (length (block (spawn_strings path args env))) <= x ->
    peek m' x = peek m x }.

Lemma spawn_mem_spawned p base path args env m :
  let a := base + spawn_off p in
  spawned m (spawn_mem a path args env m) base a path args env
    (starts (argv_off p path) args) (starts (envp_off p path args) env).
Proof.
  intros a. pose proof (spawn_mem_strings a path args env m) as Hs.
  assert (H : forall l1 l l2, spawn_strings path args env = l1 ++ l ++ l2 ->
    lies (spawn_mem a path args env m) base
      (starts (spawn_off p + sizeof_spawn + Z.of_nat (length (block l1))) l) l).
  { intros l1 l l2 E. rewrite E, block_app in Hs. apply load_split in Hs as [_ Hs].
    rewrite block_app in Hs. apply load_split in Hs as [Hs _]. apply starts_lie. rewrite <- Hs at 2.
    f_equal. unfold a. lia. }
  split; [apply spawn_mem_type|apply spawn_mem_argc|apply spawn_mem_envc|exact Hs| | |apply spawn_mem_else].
  - specialize (H [path] args ([[]] ++ env ++ [[]]) eq_refl). by rewrite block_one in H.
  - specialize (H (path :: args ++ [[]]) env [[]]). rewrite length_block_cons, block_app, length_app in H.
    change (length (block [[]])) with 1%nat in H. unfold envp_off, argv_off.
    replace (_ + _ + 1) with (spawn_off p + sizeof_spawn +
      Z.of_nat (length (text path) + (length (block args) + 1))) by lia.
    apply H. unfold spawn_strings. cbn [app]. by rewrite <- app_assoc.
Qed.

(** C15. The message and the strings a program finds at its start.  When the data
    segment's reservation has room for them and the kernel maps it,
    [setup_spawn] succeeds: EDI is the offset of the spawn message, at the break
    rounded up to 16; the message has its type and the two counts, truncated to
    16 bits; right behind it lie the path, the arguments, an empty string, the
    environment and an empty string, NUL-terminated; the offsets returned for
    the argument block are those at which the guest finds each argument and each
    variable; all of it is mapped; no other byte of memory and no other
    register, segment or member changes, and the break ends 16-aligned behind
    the strings. *)
Theorem spawn_message h p argv s path args env :
  segs (p_space p) !! p_data p = Some s -> heap_seg h s -> breaks h (p_alloc p) ->
  guest_argv p argv = Ok (path, args) -> guest_env environ getcwd p = Ok env ->
  spawn_end p path args env <= m_reserved s ->
  let a := m_location s + spawn_off p in
  let stop := MemOps.align_up (spawn_end p path args env) 16 in
  exists s' last m' aoffs eoffs,
    setup_spawn mmap environ getcwd argv p =
      (with_heap (p_data p) (with_reg EDI (spawn_off p) p) (mkSbrk stop last) s' m', Ok (aoffs, eoffs)) /\
    room h s s' stop /\
    spawned (g_mem (p_guest p)) m' (m_location s) a path args env aoffs eoffs.
Proof using Hmmap.
  intros Hs Hh Hb Ha He Hend a stop. unfold spawn_end in Hend.
  pose proof Hh as (Hw & _ & Hr). pose proof spawn_sizes as (S1 & _).
  destruct (spawn_header h p s Hs Hh Hb) as (s1 & R1 & E1); [lia|]. destruct Hb as [Hb1 Hb2].
  pose proof (align_16 (sb_offset (p_alloc p)) ltac:(lia)) as Hal. fold (spawn_off p) in Hal.
  set (d := p_data p) in *. set (p' := with_reg EDI (spawn_off p) p) in *.
  set (b1 := mkSbrk (spawn_off p + sizeof_spawn) (spawn_off p)) in *.
  assert (H1 : heap_to h s s1 b1) by (split; [done|unfold breaks; simpl; lia]).
  destruct (spawn_texts h d s p' b1 s1 (store (g_mem (p_guest p)) a (le_bytes 2 spawn_TYPE)) argv path args env)
    as (s2 & b2 & (R2 & Hb2') & O2 & E2); [done|done|done|done|]. cbn [b1 sb_offset] in O2, E2.
  pose proof R2 as (Hh2 & L2 & V2 & _).
  pose proof (align_fits s (sb_offset b2) Hw ltac:(lia) ltac:(lia)) as Hstop.
  destruct (sbrk_align_ok mmap Hmmap h b2 s2 (spawn_mem a path args env (g_mem (p_guest p))) Hh2)
    as (s3 & E3 & R3); [lia|lia|].
  exists s3, (sb_last_offset b2), (spawn_mem a path args env (g_mem (p_guest p))),
    (starts (argv_off p path) args), (starts (envp_off p path args) env).
  split; [|split; [|apply spawn_mem_spawned]].
  2: { eapply room_trans; [exact R2|]. unfold stop, spawn_end. by rewrite <- O2. }
  unfold setup_spawn. rewrite E1. fold a d p'. rewrite E2.
  rewrite (bind_runs _ _ _ _ _ (host_store_heap d _ _ p' _ _ _)), (bind_runs _ _ _ _ _ (host_store_heap d _ _ p' _ _ _)).
  rewrite !length_starts, Z.add_assoc. fold a.
  rewrite (bind_runs _ _ _ (with_heap d p' (mkSbrk stop (sb_last_offset b2)) s3
    (spawn_mem a path args env (g_mem (p_guest p)))) ()); [done|].
  unfold sbrk_align_. rewrite on_sbrk_heap.
  change (store (store (store (store (g_mem (p_guest p)) a (le_bytes 2 spawn_TYPE)) (a + sizeof_spawn) ?x) ?y ?z) ?u ?v)
    with (spawn_mem a path args env (g_mem (p_guest p))).
  rewrite E3. cbn [sb sb_seg sb_mem]. unfold stop, spawn_end. by rewrite <- O2.
Qed.
End Spawn.

(** A kernel that maps whatever it is asked for, and two variables. *)
Definition total_mmap (addr len prot flags : Z) : option Z := Some addr.
Definition spawn_environ : list cstring := [lit "__CWD=//1/home"; lit "A=1"].

Lemma spawn_message_witness :
  exists s' last m' aoffs eoffs,
    setup_spawn total_mmap spawn_environ (lit "/home") [lit "/bin/prog"; lit "-x"] demo_process =
      (with_heap 0 (with_reg EDI 0 demo_process) (mkSbrk 80 last) s' m', Ok (aoffs, eoffs)) /\
    load m' (2 ^ 26 + sizeof_spawn) 24 = lit "/bin/prog" ++ [0] ++ lit "/bin/prog" ++ [0] ++ lit "-x" ++ [0; 0].
Proof.
  assert (Hm : mmap_total total_mmap) by done.
  assert (Hh : heap_seg 0 demo_segment).
  { split; [exact wf_demo_segment|]. split; [|split; reflexivity || discriminate].
    intros o H1 _ H2. split; [done|]. simpl in H2. by rewrite Z.div_small. }
  assert (Hb : breaks 0 (p_alloc demo_process)) by (repeat split; discriminate).
  destruct (spawn_message total_mmap Hm spawn_environ (lit "/home") 0 demo_process [lit "/bin/prog"; lit "-x"]
    demo_segment (lit "/bin/prog") [lit "/bin/prog"; lit "-x"] [lit "A=1"; lit "__PFX=//1"; lit "__CWD=//1/home"]
    eq_refl Hh Hb eq_refl ltac:(vm_compute; reflexivity) ltac:(vm_compute; discriminate))
    as (s' & last & m' & ao & eo & E & _ & Hs).
  exists s', last, m', ao, eo. split; [exact E|].
  assert (Hl : load m' (2 ^ 26 + 24) 54 = block (spawn_strings (lit "/bin/prog") [lit "/bin/prog"; lit "-x"]
    [lit "A=1"; lit "__PFX=//1"; lit "__CWD=//1/home"])) by exact (sp_strings _ _ _ _ _ _ _ _ _ Hs).
  change 54%nat with (24 + 30)%nat in Hl. rewrite load_app in Hl.
  apply (app_inj_1 _ (lit "/bin/prog" ++ [0] ++ lit "/bin/prog" ++ [0] ++ lit "-x" ++ [0; 0])) in Hl; [apply Hl|].
  by rewrite length_load.
Defined.
