(* ===== verification/ProgramSpec.v ===== *)
(** * ProgramSpec: from the command line to any run

    The phases of [main] put together: the process and its emulator stack are
    made, the options are read, the program and its libraries are loaded, the
    startup state is built and the guest is entered.  Each phase keeps what the
    next one needs, so that one statement covers them all and every run of the
    guest behind them. *)

From S2P Require Import Prelude Types Memory IdMap CmdOpts PathMapper PidMap FdMap Sigset Msg GuestContext Emu Host MsgHandler IoHandler Loader Magic Descriptors Sandbox LoadSpec LoadHeap Demo Containment Main Boot Segment AddressSpace Process StartupSpec.

(** ** Loading *)

Lemma bind_run {S A B} (m : M S A) (f : A -> M S B) s s' r :
  (m ≫= f) s = (s', r) ->
  (exists s1 a, m s = (s1, Ok a) /\ f a s1 = (s', r)) \/ (exists e, m s = (s', Throw e) /\ r = Throw e).
Proof.
  unfold mbind, M_bind. destruct (m s) as [s1 [a|e]]; [left; by exists s1, a|]. intros [= <- <-]. right. by exists e.
Qed.

Section Loading.
Context (mmap : Z -> Z -> Z -> Z -> option Z) (Hmmap : mmap_law mmap).
Context (mprotect : Z -> Z -> Z -> bool) (modify_ldt : user_desc -> bool).
Context (open_file : cstring -> option (list Z)) (realpath : cstring -> option cstring).
Context (Hopen : forall path file, open_file path = Some file -> Forall is_byte file).
Context (garbage : Z).

(** Loading a library: the program's own load information stays. *)
Definition adds (p p' : Process) : Prop :=
  prepares p p' /\ p_load_exec p' = p_load_exec p /\ p_magic p' = p_magic p /\ p_paths p' = p_paths p.

#[export] Instance adds_pre : PreOrder adds.
Proof.
  split; [intros p; split; [apply (reflexivity (R := prepares))|done]|].
  intros p1 p2 p3 (H1 & L1 & M1 & W1) (H2 & L2 & M2 & W2). split; [exact (transitivity (R := prepares) H1 H2)|].
  split_and!; congruence.
Qed.

Lemma adds_same p p' :
  p_space p' = p_space p -> p_guest p' = p_guest p -> p_load_exec p' = p_load_exec p -> p_magic p' = p_magic p ->
  p_paths p' = p_paths p -> adds p p'.
Proof.
  intros Hs Hg Hl Hm Hw. split; [|done]. intros H. unfold good. rewrite Hs, Hg. split; [done|]. split; [done|].
  by intros x _ _.
Qed.

Lemma load_file_adds file slib li :
  Forall is_byte file -> keeps adds (load_file mmap modify_ldt mprotect file slib li).
Proof using Hmmap.
  intros Hf p p' r Hrun. pose proof (load_file_loads mmap Hmmap mprotect modify_ldt file slib li Hf _ _ _ Hrun) as Hl.
  revert Hrun Hl. unfold load_file. destruct (loader_load _ _ _ _ _ _) as [st x] eqn:E. intros [= <- _] Hl.
  apply (loader_load_extends mmap Hmmap mprotect modify_ldt file Hf) in E. split; [|done].
  intros [Hw Hr]. destruct (Hl Hw) as (Hw' & Hregs & _ & Hm). split; [|split; [exact E|exact Hm]].
  split; [exact Hw'|]. intros q. unfold gr. rewrite Hregs. apply Hr.
Qed.

Lemma load_library_adds arg :
  keeps adds (load_library mmap modify_ldt mprotect open_file garbage arg).
Proof using Hmmap Hopen.
  unfold load_library. destruct (parse _ _ _) as [a r].
  apply keeps_bind; [apply _|apply keeps_lift, _|]. intros _. cbv zeta.
  destruct (_ && _); [apply keeps_throw, _|]. apply keeps_bind; [apply _|apply keeps_get, _|]. intros p.
  destruct (_ || _); [apply keeps_ret, _|].
  destruct (open_file _) as [file|] eqn:E; [|apply keeps_throw, _].
  apply keeps_bind; [apply _|apply load_file_adds; by eapply Hopen|]. intros li.
  destruct (_ || _); [|apply keeps_ret, _]. apply keeps_modify. intros q. by apply adds_same.
Qed.

(** A process nothing was loaded into. *)
Definition blank (p : Process) : Prop :=
  (forall i, at_ (AddressSpace.m_segment_descriptors (p_space p)) i = None) /\
  p_load_exec p = LoadInfo_new /\ p_magic p = None.

(** The program is loaded: the startup heap has its place. *)
Definition loaded (p : Process) : Prop :=
  p_magic p = None /\ (cs (p_load_exec p) <> 0 -> heap_ok (p_load_exec p) (p_space p)).

Lemma loaded_adds p p' : good p -> adds p p' -> loaded p -> loaded p'.
Proof.
  intros Hg (Hp & Hl & Hm & _) [H1 H2]. destruct (Hp Hg) as (_ & Hs & _). split; [congruence|]. rewrite Hl. intros Hcs.
  apply (heap_ok_stays _ (p_space p)); [apply Hg|done|auto].
Qed.

Lemma load_file_loaded file p p' li :
  Forall is_byte file -> good p -> blank p ->
  load_file mmap modify_ldt mprotect file false (p_load_exec p) p = (p', Ok li) ->
  cs li <> 0 -> heap_ok li (p_space p').
Proof using Hmmap.
  intros Hf Hg (Htab & Hli & _). unfold load_file. rewrite Hli.
  destruct (loader_load _ _ _ _ _ _) as [st [[]|e]] eqn:E; [|done]. intros [= <- <-].
  apply described_heap. apply (loader_load_described mmap Hmmap mprotect modify_ldt file Hf) in E; [done|apply Hg|].
  split; [exact Htab|]. split; [done|]. split; [done|]. intros q [Hq|Hq]; [done|by apply elem_of_nil in Hq].
Qed.

(** Assignments to members of the process. *)
Lemma prepares_same p p' : p_space p' = p_space p -> p_guest p' = p_guest p -> prepares p p'.
Proof.
  intros Hs Hg H. unfold good. rewrite Hs, Hg. split; [done|]. split; [done|]. by intros x _ _.
Qed.

Lemma load_executable_loaded path p p' r :
  good p -> blank p -> load_executable mmap modify_ldt mprotect open_file realpath path p = (p', r) ->
  (prepares p p' /\ p_paths p' = p_paths p) /\ (r = Ok () -> loaded p').
Proof using Hmmap Hopen.
  intros Hg Hb. unfold load_executable. cbv zeta. destruct (open_file _) as [file0|]; [|by intros [= <- <-]].
  unfold get at 1, mbind at 1, M_bind at 1. unfold lift at 1, mbind at 1, M_bind at 1.
  destruct (loader_check_interpreter _ _) as [ii|x]; [|by intros [= <- <-]].
  intros Hrun. assert (Hsame : keeps (fun q q' : Process => q' = q)
    (if has_interpreter ii
     then i ← lift (map_path_to_host (p_paths p) (interpreter ii));
          let ii := set_original path ii i in mret (ii, i)
     else mret (ii, path))).
  { intros q q' o. destruct (has_interpreter ii); [|by intros [= <- _]]. unfold lift, mbind, M_bind.
    by destruct (map_path_to_host _ _); intros [= <- _]. }
  apply bind_run in Hrun as [(q & [ii' current] & Ei & Hrun)|(x & Ei & ->)]; apply Hsame in Ei; [|by subst p'].
  subst q. apply bind_run in Hrun as [(p1 & [] & Em & Hrun)|(x & Em & _)]; [|discriminate Em].
  unfold Prelude.modify in Em. injection Em as Em.
  assert (H1 : prepares p p1 /\ p_paths p1 = p_paths p) by (split; [apply prepares_same|]; by rewrite <- Em).
  assert (Hb1 : blank p1) by by rewrite <- Em. assert (Hg1 : good p1) by by apply (proj1 H1).
  assert (El1 : p_load_exec p = p_load_exec p1) by by rewrite <- Em. rewrite El1 in Hrun. clear Em El1.
  destruct (open_file (host_path current)) as [file|] eqn:Ef; [|by injection Hrun as <- <-].
  apply bind_run in Hrun as [(p2 & li & El & Hrun)|(x & El & ->)];
    pose proof (load_file_adds file false _ (Hopen _ _ Ef) _ _ _ El) as (P2 & _ & M2 & W2);
    pose proof (conj (transitivity (R := prepares) (proj1 H1) P2) (eq_trans W2 (proj2 H1))) as H2; [|by split].
  assert (Hheap : cs li <> 0 -> heap_ok li (p_space p2)) by by apply (load_file_loaded file p1 p2 li (Hopen _ _ Ef) Hg1 Hb1).
  assert (Hmag : p_magic p2 = None) by (rewrite M2; apply Hb1).
  assert (Hset : forall b ii f, (prepares p (set_exec li b ii f p2) /\ p_paths (set_exec li b ii f p2) = p_paths p) /\
    loaded (set_exec li b ii f p2)).
  { intros b jj f. split; [|by split]. split; [|apply H2].
    apply (transitivity (R := prepares) (proj1 H2)). by apply prepares_same. }
  revert Hrun. unfold Prelude.modify, mbind, M_bind, lift. destruct (realpath _) as [rp|].
  - destruct (map_path_to_qnx_s _ _ _) as [f|x]; intros [= <- <-]; split; [apply Hset|intros _; apply Hset|apply Hset|done].
  - intros [= <- <-]. split; [apply Hset|done].
Qed.
End Loading.

(** ** Before the program is loaded *)

(** The alternate stack of the emulator: pages behind a hole, in a new segment. *)
Lemma space_seg_new {A} sp s (op : M Segment A) :
  space_seg (next_seg sp) op (with_segment s sp) = (with_segment (fst (op s)) sp, snd (op s)).
Proof.
  unfold space_seg, with_segment. simpl. rewrite lookup_insert_eq. destruct (op s) as [s' o]. simpl.
  by rewrite insert_insert_eq.
Qed.

Lemma emu_init_adds mmap sigaltstack sp sp' r :
  mmap_law mmap -> Emu.init mmap sigaltstack sp = (sp', r) ->
  space_stays sp sp' /\ m_segment_descriptors sp' = m_segment_descriptors sp.
Proof.
  intros Hm. unfold Emu.init. cbv zeta. unfold mbind at 1, M_bind at 1, allocate_segment at 1.
  change (mkSpace (<[next_seg sp := Segment_new]> _) _ _ _ _) with (with_segment Segment_new sp).
  assert (Hend : forall s, Segment.wf s ->
    space_stays sp (with_segment s sp) /\ m_segment_descriptors (with_segment s sp) = m_segment_descriptors sp).
  { intros s Hs. split; [by apply with_segment_stays|done]. }
  assert (Hstep : forall {A} (op : M Segment A) s (f : A -> M Space nat),
    (space_seg (next_seg sp) op ≫= f) (with_segment s sp) =
      match op s with (s', Ok a) => f a (with_segment s' sp) | (s', Throw e) => (with_segment s' sp, Throw e) end).
  { intros A op s f. unfold mbind, M_bind. rewrite space_seg_new. by destruct (op s) as [s' [a|e]]. }
  assert (H8 : 0 <= MemOps.PAGE_SIZE * 8 < 2 ^ 43) by (split; by vm_compute).
  assert (H9 : 0 <= MemOps.PAGE_SIZE + MemOps.PAGE_SIZE * 8 < 2 ^ 43) by (split; by vm_compute).
  assert (H1 : 0 <= MemOps.PAGE_SIZE < 2 ^ 43) by (split; by vm_compute).
  rewrite Hstep. destruct (reserve mmap _ Segment_new) as [s1 [[]|e]] eqn:E1;
    destruct (reserve_new mmap Hm _ _ _ H9 E1) as (W1 & P1 & _); [|intros [= <- _]; by apply Hend].
  rewrite Hstep. destruct (skip_paged _ s1) as [s2 [[]|e]] eqn:E2;
    destruct (skip_first _ _ _ _ H1 W1 P1 E2) as (W2 & _ & _); [|intros [= <- _]; by apply Hend].
  rewrite Hstep. destruct (grow_paged mmap _ _ s2) as [s3 [[]|e]] eqn:E3;
    destruct (grow_paged_stays mmap _ _ H8 _ _ _ E3 W2) as (W3 & _); [|intros [= <- _]; by apply Hend].
  rewrite Hstep. simpl. destruct (sigaltstack _ _); intros [= <- _]; by apply Hend.
Qed.

(** Steps before anything is loaded. *)
Definition boots (b b' : Boot) : Prop :=
  prepares (b_process b) (b_process b') /\ (blank (b_process b) -> blank (b_process b')) /\
  (tidy (b_fds b) -> tidy (b_fds b')).

#[export] Instance boots_pre : PreOrder boots.
Proof.
  split; [intros b; split; [apply (reflexivity (R := prepares))|done]|].
  intros b1 b2 b3 (H1 & B1 & F1) (H2 & B2 & F2). split; [exact (transitivity (R := prepares) H1 H2)|]. auto.
Qed.

Lemma boots_process b p :
  prepares (b_process b) p -> (blank (b_process b) -> blank p) -> boots b (set_process p b).
Proof. by intros H1 H2. Qed.

Lemma boots_members b b' : b_process b' = b_process b -> b_fds b' = b_fds b -> boots b b'.
Proof. intros Hp Hf. unfold boots. rewrite Hp, Hf. split; [apply (reflexivity (R := prepares))|done]. Qed.

Lemma boots_fds b m env : (tidy (b_fds b) -> tidy m) -> boots b (set_terminal m env b).
Proof. intros H. split; [apply (reflexivity (R := prepares))|done]. Qed.

Lemma initialize_boots mmap sigaltstack m :
  mmap_law mmap -> keeps boots (initialize mmap sigaltstack m).
Proof.
  intros Hm. unfold initialize. apply keeps_bind; [apply _| |intros _; apply keeps_bind; [apply _| |intros _]].
  - intros b b' r. unfold on_boot_fds. destruct (scan_host_fds _ _ _ _ _ _) as [fds o] eqn:E. intros [= <- _].
    apply boots_fds. intros Hf. by eapply tidy_scan.
  - intros b b' r. unfold on_process, on_space. destruct (Emu.init _ _ _) as [sp o] eqn:E. intros [= <- _].
    apply emu_init_adds in E as [Hs Ht]; [|done]. apply boots_process.
    + intros [Hw Hr]. split; [split; [by apply Hs|done]|]. split; [done|]. by intros x _ _.
    + intros (H1 & H2 & H3). split; [simpl; by rewrite Ht|done].
  - intros b b' r. unfold on_process, process_pids, get, put, lift, mbind, M_bind.
    destruct (initialize_pids _ _) as [pm [[[parent|] [my|]]|e]]; intros [= <- _];
      (apply boots_process; [by apply prepares_same|done]).
Qed.

Lemma run_option_boots isatty o : keeps boots (run_option isatty o).
Proof.
  intros b b' r. destruct o as [| | | |arg|arg|arg|arg]; try (intros [= <- _]; by apply boots_members).
  - unfold run_option, attach_term_emu, get, put, mbind, M_bind.
    destruct (get_open_fd _ _) as [fd|x]; [|destruct x; by intros [= <- _]].
    destruct (isatty _); intros [= <- _]; [|done]. apply boots_fds. by apply tidy_update.
  - unfold run_option, get, put, lift, mbind, M_bind. destruct (Log.handle_log_opt _ _) as [m x].
    intros [= <- _]. by apply boots_members.
  - unfold run_option, get, put, lift, mbind, M_bind. destruct (add_map _ _) as [m|x]; intros [= <- _]; [|done].
    apply boots_process; [by apply prepares_same|done].
Qed.

Lemma configure_boots isatty main_exe cl : keeps boots (configure isatty main_exe cl).
Proof.
  unfold configure. apply keeps_try; [apply _| |intros e; apply keeps_throw, _].
  apply keeps_bind; [apply _| |intros _].
  - induction (opts cl) as [|o l IH]; [apply keeps_ret, _|]. cbn [run_options].
    apply keeps_bind; [apply _|apply run_option_boots|by intros _].
  - unfold initialize_self_call. destruct (filter _ (head cl)) as [|a rest]; [apply keeps_throw, _|].
    apply keeps_bind; [apply _|apply keeps_lift, _|]. intros exe. apply keeps_modify. intros b. by apply boots_members.
Qed.

(** *** The path maps

    The options may name any paths; the translation relies on absolute ones. *)
Definition absolute_map (arg : cstring) : Prop :=
  forall a, parse arg map_spec (mkMapArgs [] [] []) = (a, Ok ()) -> is_abs (ma_qnx a) = true /\ is_abs (ma_host a) = true.
Definition absolute_maps (cl : CommandLine) : Prop := forall arg, Main.Map arg ∈ opts cl -> absolute_map arg.

Definition maps_ok (b b' : Boot) : Prop :=
  wf_mapper (p_paths (b_process b)) -> wf_mapper (p_paths (b_process b')).

#[export] Instance maps_ok_pre : PreOrder maps_ok.
Proof. split; [by intros b H|]. intros b1 b2 b3 H1 H2 H. by apply H2, H1. Qed.

Lemma initialize_maps mmap sigaltstack m : keeps maps_ok (initialize mmap sigaltstack m).
Proof.
  unfold initialize. apply keeps_bind; [apply _| |intros _; apply keeps_bind; [apply _| |intros _]].
  - intros b b' r. unfold on_boot_fds. destruct (scan_host_fds _ _ _ _ _ _) as [fds o]. by intros [= <- _] Hw.
  - intros b b' r. unfold on_process, on_space. destruct (Emu.init _ _ _) as [sp o]. by intros [= <- _] Hw.
  - intros b b' r. unfold on_process, process_pids, get, put, lift, mbind, M_bind.
    by destruct (initialize_pids _ _) as [pm [[[parent|] [my|]]|e]]; intros [= <- _] Hw.
Qed.

Lemma run_option_maps isatty o :
  (forall arg, o = Main.Map arg -> absolute_map arg) -> keeps maps_ok (run_option isatty o).
Proof.
  intros Ho b b' r. destruct o as [| | | |arg|arg|arg|arg]; try (by intros [= <- _] Hw).
  - unfold run_option, attach_term_emu, get, put, mbind, M_bind.
    destruct (get_open_fd _ _) as [fd|x]; [|destruct x; by intros [= <- _] Hw].
    by destruct (isatty _); intros [= <- _] Hw.
  - unfold run_option, get, put, lift, mbind, M_bind. destruct (Log.handle_log_opt _ _) as [m x]. by intros [= <- _] Hw.
  - unfold run_option, get, put, lift, mbind, M_bind.
    destruct (add_map _ _) as [m|x] eqn:E; intros [= <- _]; [|done]. intros Hw. simpl.
    pose proof E as E'. unfold add_map in E'. destruct (parse arg map_spec _) as [a r0] eqn:Ep.
    destruct r0 as [[]|]; [|done]. destruct (Ho arg eq_refl a Ep). by eapply add_map_inv.
Qed.

Lemma configure_maps isatty main_exe cl b b' r :
  configure isatty main_exe cl b = (b', r) -> absolute_maps cl -> maps_ok b b'.
Proof.
  intros Hrun Ho. revert b b' r Hrun. change (keeps maps_ok (configure isatty main_exe cl)).
  unfold configure. apply keeps_try; [apply _| |intros e; apply keeps_throw, _].
  apply keeps_bind; [apply _| |intros _].
  - revert Ho. unfold absolute_maps. induction (opts cl) as [|o l IH]; intros Ho; [apply keeps_ret, _|]. cbn [run_options].
    apply keeps_bind; [apply _| |intros _; apply IH; intros arg Ha; apply Ho; by right].
    apply run_option_maps. intros arg ->. apply Ho. by left.
  - unfold initialize_self_call. destruct (filter _ (head cl)) as [|a rest]; [apply keeps_throw, _|].
    apply keeps_bind; [apply _|apply keeps_lift, _|]. intros exe. by apply keeps_modify; intros c Hc.
Qed.

(** ** The whole program *)

Section Program.
Context (mmap : Z -> Z -> Z -> Z -> option Z) (Hmmap : mmap_law mmap) (modify_ldt : user_desc -> bool).
Context (mprotect : Z -> Z -> Z -> bool) (sigaltstack : Z -> Z -> bool).
Context (getcwd : cstring) (open_file : cstring -> option (list Z)) (realpath : cstring -> option cstring).
Context (Hopen : forall path file, open_file path = Some file -> Forall is_byte file).
Context (garbage : Z) (isatty : Z -> bool) (main_exe : outcome cstring).
Context (sigaction : Z -> SigHandler -> Z).

Lemma load_libraries_adds l : forall b b' r,
  load_libraries mmap modify_ldt mprotect open_file garbage l b = (b', r) ->
  adds (b_process b) (b_process b') /\ b_fds b' = b_fds b.
Proof using Hmmap Hopen.
  induction l as [|a l IH]; intros b b' r; cbn [load_libraries].
  { intros [= <- _]. split; [by apply adds_same|done]. }
  unfold on_process, mbind, M_bind. destruct (load_library _ _ _ _ _ _ _) as [p [[]|e]] eqn:E;
    pose proof (load_library_adds mmap Hmmap mprotect modify_ldt open_file Hopen garbage a _ _ _ E) as H1.
  - intros Hrun. destruct (IH _ _ _ Hrun) as [H2 Hf]. split; [|exact Hf]. exact (transitivity (R := adds) H1 H2).
  - intros [= <- _]. by split.
Qed.

(** The program and its libraries, up to the startup state. *)
Definition load_phase (m : Machine) (cl : CommandLine) : M Boot unit :=
  _ ← initialize mmap sigaltstack m;
  _ ← configure isatty main_exe cl;
  b ← get;
  path ← lift (exec_path realpath (c_operands cl) b);
  _ ← on_process (load_executable mmap modify_ldt mprotect open_file realpath path);
  load_libraries mmap modify_ldt mprotect open_file garbage (b_delayed b).

Lemma process_new_blank m : good (Process_new m) /\ blank (Process_new m).
Proof.
  split; [split; [apply wf_space_new|]|].
  - intros q. unfold gr. simpl. unfold startup_regs_new. rewrite rget_tabulate. apply wrapu_range. by destruct q.
  - split; [|done]. intros i. apply at_ge. simpl. lia.
Qed.

(** Everything up to [enter_emu]. *)
Lemma start_up_prepares m cl b r :
  (forall b1, load_phase m cl (Boot_new m) = (b1, Ok ()) ->
     short_texts (b_environ b1) getcwd (c_operands cl) (b_process b1)) ->
  start_up mmap modify_ldt mprotect sigaltstack getcwd open_file realpath garbage isatty main_exe m cl (Boot_new m) = (b, r) ->
  prepares (Process_new m) (b_process b) /\ tidy (b_fds b) /\
  (r = Ok () -> magic_inside (b_process b) /\ (absolute_maps cl -> wf_mapper (p_paths (b_process b))) /\
    timed_process (b_process b)).
Proof using Hmmap Hopen.
  intros Htexts. destruct (process_new_blank m) as [Hg0 Hb0]. revert Htexts. unfold load_phase, start_up, main.
  assert (Hf0 : tidy (b_fds (Boot_new m))) by apply tidy_new.
  unfold mbind, M_bind. destruct (initialize _ _ m _) as [b1 [[]|e]] eqn:E1;
    pose proof (initialize_boots mmap sigaltstack m Hmmap _ _ _ E1) as (P1 & B1 & F1); pose proof (initialize_maps _ _ _ _ _ _ E1) as W1; [|intros _ [= <- <-]; split_and!; [done|auto|done]].
  destruct (configure _ _ cl b1) as [b2 [[]|e]] eqn:E2;
    pose proof (configure_boots isatty main_exe cl _ _ _ E2) as (P2 & B2 & F2); pose proof (configure_maps isatty main_exe cl _ _ _ E2) as W2;
    pose proof (transitivity (R := prepares) P1 P2) as P12; [|intros _ [= <- <-]; split_and!; [done|auto|done]].
  assert (Hb2 : blank (b_process b2)) by auto. assert (Hf2 : tidy (b_fds b2)) by auto.
  assert (Hg2 : good (b_process b2)) by by apply P12. assert (Hw2 : absolute_maps cl -> wf_mapper (p_paths (b_process b2)))
    by (intros Ho; apply (W2 Ho), W1, wf_mapper_new). clear P1 P2 B1 B2 F1 F2 W1 W2 E1 E2.
  unfold start, get, lift. unfold mbind, M_bind.
  destruct (_ && _); [intros _ [= <- <-]; by split_and!|].
  destruct (exec_path realpath (c_operands cl) b2) as [path|e]; [|intros _ [= <- <-]; by split_and!].
  unfold on_process. destruct (load_executable _ _ _ _ _ path _) as [p3 [[]|e]] eqn:E3;
    destruct (load_executable_loaded mmap Hmmap mprotect modify_ldt open_file realpath Hopen path _ _ _ Hg2 Hb2 E3) as [[P3 W3] L3];
    pose proof (transitivity (R := prepares) P12 P3) as P13; [|intros _ [= <- <-]; by split_and!].
  specialize (L3 eq_refl). assert (Hg3 : good p3) by by apply P13.
  destruct (load_libraries _ _ _ _ _ _ (set_process p3 b2)) as [b4 [[]|e]] eqn:E4;
    destruct (load_libraries_adds _ _ _ _ E4) as [A4 Hf4];
    pose proof (transitivity (R := prepares) P13 (proj1 A4)) as P14;
    assert (Hf : tidy (b_fds b4)) by (rewrite Hf4; exact Hf2); [|intros _ [= <- <-]; by split_and!].
  pose proof (loaded_adds p3 (b_process b4) Hg3 A4 L3) as [Hmag Hheap]. assert (Hg4 : good (b_process b4)) by by apply P14.
  intros Htexts. specialize (Htexts b4 eq_refl).
  destruct (_ && _); [intros [= <- <-]; by split_and!|].
  destruct (setup_startup_context _ _ _ _ _ _) as [p5 x] eqn:E5. intros [= <- <-].
  assert (Hmi : magic_inside (b_process b4)) by (intros a; by rewrite Hmag).
  destruct (startup_prepares _ _ _ _ _ _ _ _ Hmmap Hg4 Hheap Hmi Htexts E5) as [P5 M5].
  split; [exact (transitivity (R := prepares) P14 P5)|]. split; [done|]. intros Hr. destruct (M5 Hr) as (M6 & M7 & M8).
  split; [done|]. split; [|done]. intros Ho. simpl. rewrite M7, (proj2 (proj2 (proj2 A4))). change (wf_mapper (p_paths p3)).
  rewrite W3. by apply Hw2.
Qed.

Section Launch.
Context {K : Type} {FK : FdKernel K} {HK : HostKernel K}.

(** The emulator the guest starts under is the process as it was left. *)
Lemma emulator_safe u b (k : K) :
  good (b_process b) -> tidy (b_fds b) -> magic_inside (b_process b) -> safe (emulator u b k).
Proof.
  intros [Hw Hr] Hf Hm. split; [|exact Hr]. split; [exact Hw|]. split; [exact Hf|]. split; [done|].
  intros a Ha k' Hk. apply (Hm a Ha). change sizeof_magic with 144. lia.
Qed.

(** What entering the guest leaves: everything but the masks. *)
Definition entered (e e' : EmuState (World K)) : Prop :=
  e_guest e' = e_guest e /\ e_space e' = e_space e /\ m_sigtab e' = m_sigtab e /\ e_world e' = e_world e /\
  m_time_segment e' = m_time_segment e.

#[export] Instance entered_pre : PreOrder entered.
Proof.
  split; [by intros x|]. intros x y z (A1 & A2 & A3 & A4 & A5) (B1 & B2 & B3 & B4 & B5).
  unfold entered. split_and!; congruence.
Qed.

Lemma enter_emu_entered current : keeps entered (enter_emu (W := World K) sigaction current).
Proof.
  unfold enter_emu, host_call.
  repeat first [apply keeps_modify; by intros | apply keeps_lift, _ | apply keeps_ret, _ | apply keeps_throw, _
               | apply keeps_bind; [apply _| |intros ?] | destruct (_ =? _)].
Qed.

Lemma launch_safe current host (e e' : EmuState (World K)) r :
  (forall q, 0 <= rget host q < 2 ^ width q) -> safe e -> launch sigaction current host e = (e', r) ->
  safe e' /\ e_space e' = e_space e /\ g_mem (e_guest e') = g_mem (e_guest e) /\ lasts e e'.
Proof.
  intros Hhost [Hs Hr]. unfold launch. destruct (enter_emu _ _ _) as [e1 [[]|x]] eqn:E;
    apply enter_emu_entered in E as (E1 & E2 & E3 & E4 & E5); intros [= <- _].
  2: { unfold safe, sane, pointers_ok, lasts. rewrite E1, E2, E3, E4, E5. by split. }
  unfold lasts. cbn [Emu.set_guest e_guest e_space e_world m_time_segment]. rewrite E2, E4, E5.
  split; [|split; [done|]; split; [by rewrite <- E1|done]].
  split.
  - unfold sane, pointers_ok. cbn [Emu.set_guest e_space e_world m_sigtab]. by rewrite E2, E3, E4.
  - intros q. cbn [Emu.set_guest e_guest]. unfold gr, static_handler_user. cbn [set_regs g_regs]. rewrite rget_tabulate.
    pose proof (Hr q) as Hq. pose proof (Hhost q) as Hh. rewrite <- E1 in Hq.
    destruct q; try exact Hq; unfold gr, clear_64bit_state; cbn [set_regs g_regs]; rewrite rget_tabulate; simpl; try lia.
    all: exact Hh.
Qed.
End Launch.

End Program.

(** A 32-bit program and its system library, started on a terminal; both files are
    the flat program of [Loader]. *)
Definition demo_machine : Machine :=
  mkMachine ∅ [lit "PATH=/bin"; lit "__CWD=//1/home"] (mkHostIds 500 400 400 400 500 500) [0; 1; 2; 3] 3.

Definition demo_line : CommandLine := mkCommandLine (lit "qine")
  [(TermEmu, [lit "--term-emu"]); (Lib (lit "lib2,sys,entry=16"), [lit "-l"; lit "lib2,sys,entry=16"])]
  false [lit "/bin/prog"; lit "-x"].

Definition demo_program : Boot * outcome (EmuState (World Script)) :=
  program demo_mmap (fun _ => true) (fun _ _ _ => true) (fun _ _ => true) (lit "/home") demo_open Some 0
    (fun _ => true) (Ok (lit "/qine")) (fun _ _ => 0) demo_machine demo_line 0 ∅ startup_regs_new (mkScript 0 [] 0).

Lemma short_texts_decide environ getcwd argv p path args env :
  guest_argv p argv = Ok (path, args) -> guest_env environ getcwd p = Ok env ->
  forallb (fun s => (length s <? 1000)%nat) (path :: args ++ env) = true ->
  short_texts environ getcwd argv p.
Proof.
  intros Ha He Hall.
  assert (H : Forall short (path :: args ++ env)).
  { apply Forall_forall. intros s Hs. apply list_elem_of_In in Hs. apply (proj1 (forallb_forall _ _) Hall) in Hs as Hl.
    apply Nat.ltb_lt in Hl. unfold short. lia. }
  split.
  - intros path' args' E. rewrite Ha in E. injection E as <- <-. apply Forall_cons in H as [H1 H2].
    constructor; [done|]. by apply Forall_app in H2 as [H2 _].
  - intros env' E. rewrite He in E. injection E as <-. apply Forall_cons in H as [_ H]. by apply Forall_app in H as [_ H].
Qed.

