(* ===== verification/RunSpec.v ===== *)
(** * RunSpec: how the program can end

    The calculus of [Traps] from the command line on: the guest is entered in a
    state every handler relies on, and every run keeps it that way. *)

From S2P Require Import Prelude Types Memory IdMap PathMapper PidMap FdMap Sigset Msg GuestContext Emu Host MsgHandler IoHandler MainHandler Loader Descriptors Sandbox Raises Log Dump DebugDump LogSpec Endings Demo Containment Traps Main Boot Segment AddressSpace Process LoadSpec StartupSpec ProgramSpec.

Section Run.
Context (mmap : Z -> Z -> Z -> Z -> option Z) (Hmmap : mmap_law mmap) (modify_ldt : user_desc -> bool).
Context (mprotect : Z -> Z -> Z -> bool) (sigaltstack : Z -> Z -> bool).
Context (getcwd : cstring) (open_file : cstring -> option (list Z)) (realpath : cstring -> option cstring).
Context (Hopen : forall path file, open_file path = Some file -> Forall is_byte file).
Context (garbage : Z) (isatty : Z -> bool) (main_exe : outcome cstring).
Context (sigaction : Z -> SigHandler -> Z).

(** The guest is entered in a state the emulator can rely on. *)
Lemma program_ready {K} {FK : FdKernel K} {HK : HostKernel K} m cl uninit current host (k : K) b e :
  (forall q, 0 <= rget host q < 2 ^ width q) -> absolute_maps cl ->
  (forall b1, load_phase mmap modify_ldt mprotect sigaltstack open_file realpath garbage isatty main_exe
      m cl (Boot_new m) = (b1, Ok ()) -> short_texts (b_environ b1) getcwd (c_operands cl) (b_process b1)) ->
  program mmap modify_ldt mprotect sigaltstack getcwd open_file realpath garbage isatty main_exe sigaction
    m cl uninit current host k = (b, Ok e) -> Traps.ready e.
Proof using Hmmap Hopen.
  intros Hhost Ho Htexts. unfold program. destruct (start_up _ _ _ _ _ _ _ _ _ _ _ _ _) as [b0 x] eqn:E.
  destruct (start_up_prepares mmap Hmmap modify_ldt mprotect sigaltstack getcwd open_file realpath Hopen garbage isatty
    main_exe m cl b0 x Htexts E) as (Hp & Hf & Hm).
  destruct (process_new_blank m) as [Hg0 _]. destruct (Hp Hg0) as (Hg & _).
  destruct x as [[]|x]; [|discriminate]. destruct (Hm eq_refl) as (Hmag & Hmaps & Htime).
  destruct (launch _ _ _ _) as [e1 y] eqn:El. destruct y as [[]|]; [|discriminate]. intros [= <- <-].
  destruct (launch_safe sigaction current host _ _ _ Hhost (emulator_safe uninit b0 k Hg Hf Hmag) El) as (Hs & Hsp & _ & Hl).
  destruct Hl as (Hpaths & Ht & _). split; [exact Hs|]. split; [rewrite Hpaths; by apply Hmaps|].
  unfold timed. rewrite Ht, Hsp. exact Htime.
Qed.

(** The dump raised it: in some state of the emulator it ends like this. *)
Definition dump_raises {K} {FK : FdKernel K} {HK : HostKernel K} (fault : Fault) (x : exn) : Prop :=
  kind_of x ∈ SegmentationFault EmptyString :: dump_kinds /\
  exists e0 : EmuState (World K), dumped fault e0 = Throw x.

(** The log raised it, which is on: a text of a request or a reply that it printed
    has no end. *)
Definition log_prints {K} {FK : FdKernel K} {HK : HostKernel K} (enabled : Z) (x : exn) : Prop :=
  x = unterminated /\ is_enabled MSG enabled || is_enabled MSG_REPLY enabled = true /\
  exists i (e0 : EmuState (World K)), log_raises i e0 x.

End Run.

(** The maps have to be absolute: a relative one is accepted, and the first path
    it applies to fails an assertion. *)
Lemma relative_map_fails :
  exists m, add_map (lit "/,host") PathMapper_new = Ok m /\
    map_path_to_host m (mk_qnx_path (lit "/bin/ls") false) = Throw AssertFailed.
Proof. eexists. split; vm_compute; reflexivity. Qed.

(** The small program faults before it has registered a handler, at an address
    without a page: the dump of its code fails an assertion. *)
Definition demo_report : Fault := mkFault (fun _ _ _ => []) 0 14 4 (mkFarPointer 7 0).
Definition demo_fault : outcome unit :=
  match snd demo_program with
  | Ok e => snd (handler_segv (0, 0) (dumped demo_report) (fun _ _ => 0)
                   (handle demo_mmap (fun _ => true) (fun _ _ => 0) 77 (fun _ => 0) 0) 0 e)
  | Throw x => Throw x
  end.

